(* ===== verification/_CoqProject ===== *)
-Q . S2P
Prelude.v
CString.v
Printf.v
ProcTable.v
Spinlock.v
Mlfq.v
MlfqInv.v
Sched.v
Proc.v
ProcSpec.v
Syscall.v
Trap.v
MergeSort.v
Vaccine.v
Festival.v
Bytes.v
Bio.v
Log.v
Blocks.v
LogBlocks.v
Fs.v
FsBlocks.v
FsInode.v
FsData.v
FsWrite.v
FsTrunc.v
FsCache.v
FsDir.v
FsState.v
FsPath.v
FsDemo.v
Kalloc.v
Pipe.v
File.v
SysFile.v
Descriptors.v
FileSpec.v
SysFileSpec.v
FsSpec.v
SysSpec.v
Grep.v
Shell.v
Vm.v
VmSpec.v
Exec.v
ExecSpec.v
ExecCall.v
Malloc.v
Console.v
