(* ===== verification/Prelude.v ===== *)
(** * OSN-assignments: a verification development

    The repository holds the assignments of an operating systems course: a modified xv6
    kernel with its user programs ("xv6 modified/"), three concurrent programs
    ("Assignment concurrency /q1, q2, q3"), a TCP file transfer and two host programs.
    This library models the kernel's processes, scheduling, locks, system calls, page
    allocator, page tables, exec, console, pipes, buffer cache, log and file system, the
    shell's parser, grep, wc, malloc and the C library of both sides, and the three
    concurrent programs, and proves what they promise.

    ** Conventions

    A C [int] or [uint] is a [Z]; an operation that can leave its range is written with
    [s32] or [u32].  An array is a list indexed by [Z] ([zlookup], [zupd], [zget]); a
    struct is a record, and [r <| f := v |>] is the assignment [r.f = v].  Code that
    changes state is a function of the monad [M], whose results are [Ok] with the new
    state and [Panic] for the kernel's panic().  A pointer to a table entry is an index.
    Code of other files that a component only calls is behind a class ([Services],
    [UserMem], [FileCalls], [Drivers], [RunOk], [BlockDev], [HasMemory], [Sbrk]) whose laws are the hypotheses
    of the theorems that need them.  Code that gives up the CPU has a parameter for what the
    rest of the machine does meanwhile.

    ** Files

    - [Prelude]: integers, arrays, records, the monad, tactics and hints (this file).
    - [CString]: string.c and the string functions of ulib.c on a byte memory.
    - [Printf]: printint, cprintf (console.c) and printf (printf.c) as text.
    - [ProcTable]: proc.h: processes, the table, the CPU, the run queues.
    - [Spinlock]: spinlock.c, as the other files call it and, in [Protocol], as a step
      relation of any number of CPUs.
    - [Mlfq], [MlfqInv]: push, pop, remove and the aging loops of proc.c, and the
      invariant between the queues and the process table.
    - [Sched]: the four builds of scheduler(), with switchuvm and switchkvm of vm.c.
    - [Proc], [ProcSpec]: the rest of proc.c, and its properties.
    - [Syscall]: syscall.c and sysproc.c.  [Trap]: trap() of trap.c.
    - [MergeSort]: q1/Q1.c.  [Vaccine]: q2/Q2.c.  [Festival]: q3/Q3.c.
    - [Bio]: bio.c, sleeplock.c and the disk of memide.c.  [Log]: log.c.
    - [Kalloc]: kalloc.c.  [Pipe]: pipe.c and the table of file.c.
    - [Bytes], [Blocks], [LogBlocks]: integers in bytes; the interface of blocks that the
      file system uses ([BlockDev], with the laws [BlockLaws]), and that the log with the
      buffer cache is an instance of it, inside a transaction.
    - [Fs]: fs.c.  Its lemmas by layer: [FsBlocks] (the bitmap), [FsInode] (inodes on the
      disk), [FsData], [FsWrite], [FsTrunc] (contents), [FsCache] (the inode cache),
      [FsDir] (directories), [FsState] (locks and references), [FsPath] (paths),
      [FsDemo] (a small disk for the witnesses) and [FsSpec] (the properties).
    - [File], [FileSpec]: file.c over inodes.  [SysFile]: sysfile.c; [Descriptors],
      [SysFileSpec] and [SysSpec]: its descriptors, tree operations and properties.
    - [Vm], [VmSpec]: vm.c.
    - [Exec]: exec.c and elf.h.  [ExecSpec]: the memory of a new program, for any file that
      can be read; [ExecCall]: the whole call, on the file system and the page tables.
    - [Malloc]: umalloc.c.  [Console]: the screen and the keyboard of console.c.
    - [Grep]: grep.c and wc.c.  [Shell]: the parser of sh.c.

    The kernel's parts meet as in the code: [Trap] calls [Syscall] and [Proc], which call
    [Mlfq], [Spinlock] and [ProcTable]; [Sched] runs processes from the queues; [Log]
    works through [Bio]; [Fs] works on blocks through [LogBlocks], [SysFile] on [File],
    [Fs] and [Pipe]; [Pipe] and [Vm] take their pages from one state of [Kalloc]; [Exec]
    reads through [Fs] and builds page tables with [Vm].

    ** What is shown

    - MLFQ: push, pop and remove on the circular arrays implement a FIFO per level
      ([push_refines], [remove_refines]); the highest non-empty level is picked
      ([pick_highest]); aging and a whole pass of the scheduler keep every RUNNABLE
      process of the queues in the queue its record names, once ([aging_ownership],
      [mlfq_pass_ok]).  The example [aging_loses_process] is a run in which the read below
      an empty queue makes push drop a process.
    - The other schedulers: round robin runs every process that is RUNNABLE in its turn
      ([rr_pass_fair]), FCFS the oldest ([fcfs_pass_oldest]), and the priority scheduler
      takes turns inside a priority ([pbs_no_starvation]).
    - Processes: fork, exit, wait, waitx, sleep and wakeup, kill, the accounting of a
      tick, with their failures ([fork_child], [fork_failure], [exit_hands_over],
      [wait_spec], [exit_ends_wait], ...).
    - Locks: mutual exclusion of the spin lock in every interleaving, with interrupts
      ([spinlock_mutual_exclusion]); holding() takes part with its pushcli, its two reads
      and its popcli as steps of their own.
    - System calls and traps: arguments are accepted only inside the caller's memory
      ([syscall_args_in_bounds]); sleep; the clock interrupts of a time slice of MLFQ as
      calls of trap(), up to the one that gives the CPU away ([mlfq_slice_demotes]).
    - Storage: a transaction of the log is atomic under crashes at any write, also in the
      recovery ([transaction_atomic]); three admitted calls can exceed the log
      ([reservation_exceeds_log]).
    - Files: reading and writing deliver and change exactly the bytes asked for, and keep
      the invariant between bitmap, inodes and blocks ([writei_spec], [readi_spec],
      [fileread_spec]); releasing the last reference to a file without links frees
      exactly its blocks ([iput_spec]); filewrite is atomic by chunks under crashes
      ([filewrite_spec]).
    - Directories: what dirlink enters dirlookup finds ([dirlink_dirlookup]); namex walks
      the tree the directories form ([namex_spec]); create and unlink change one name of
      it, of files and of directories, with the names "." and ".." and the links of the
      parent ([create_spec], [sys_unlink_spec]); the counts of open files match the
      descriptors ([descriptors_counted], [dup_close]).  The examples
      [dirlink_dot_blocks] and [removed_parent_panics] are runs that go wrong; unlink is
      shown right where nobody is in the empty directory that it removes.
    - Page tables: copying, growing and freeing address spaces, with every page accounted
      for, and copies to user addresses ([copyuvm_spec], [allocuvm_spec],
      [address_space_no_leak], [copyout_spec]).
    - exec: the memory of the new program is what its file says, with the arguments on the
      stack, and a failure gives every page back ([exec_image_spec]); the call replaces
      the process's memory and name, or leaves the process as it was ([exec_spec]).  Both
      take arguments of less than 32 megabytes each: a longer one can make the stack
      pointer wrap around past the device space, where copyout has no page table to look
      at.
    - The console's ring of input bytes is the line discipline ([console_refines]).  The
      user's malloc gives out blocks that do not overlap and free joins neighbours
      ([malloc_spec], [free_spec]); [malloc_rounding_wraps] is a size that overflows.
    - Memory and pipes: the page allocator never gives a page twice ([kalloc_sound]); a
      pipe is a bounded FIFO though its counters wrap ([pipe_fifo]); pipealloc undoes
      itself on every failure ([pipealloc_spec]).
    - Text: memmove, safestrcpy, the formats of printf and cprintf, decimal round trips;
      the matcher and the line loop of grep ([grep_spec]); the shell's parser reads back
      every printed command ([parsecmd_roundtrip]) and always ends ([parsecmd_total]).
    - Concurrency assignments: all three merge sorts sort in every interleaving
      ([mergesort_parallel]); the invariants of the two simulations, with the mutexes of
      zones and companies and every dose accounted for in the one, and stages and
      coordinators in the other ([vaccine_invariant], [festival_invariant]), and a run for
      each that goes wrong
      ([slotmein_no_free_cell], [stage_never_vacated]).

    ** Fuel and bounds

    A loop over an array runs once per element.  A loop that searches for a NUL has fuel,
    and its theorems ask only for more fuel than the string has bytes.  The aging loop
    has 64 units: an index stays below 64.  The page loop has one unit per page of the
    physical memory.  The parser of the shell has four units per byte and four more,
    since every call of one of its four levels takes a byte or goes one level down; grep
    and wc have one per byte and one more; their theorems show that this is enough for
    every input.  The loops of the file system and of the page tables have as many units
    as the file has bytes or the path elements, or the range pages, and one more; their
    theorems never end for lack of fuel.  The loops of malloc and free around the ring of
    free blocks have one unit per header that the heap has room for, and end before that.
    Blocking calls (sleep, wait, reading the console) take the list of what happens during
    each of their waits and give no result while they still wait.  Simulations and lock
    protocols are step relations without bounds.

    ** What is not modelled

    seginit, kvmalloc and switchuvm inside exec, device drivers, boot code and assembly,
    which are port I/O or hardware registers; mkfs; the running of commands in the shell
    and the small user programs and tests, which only make system calls; the socket
    programs, the two host programs of Assign1 and the plot script.  Spin locks around a
    single step of the buffer cache, log, inode cache, pipes and page allocator are
    represented by the step being one; in the file system one process runs, and waiting
    for another one's sleep lock or for log space is an outcome of its own; probabilities
    and times in the simulations are free choices.  The accessed and dirty bits that the
    processor sets in page table entries are left out: an entry is what the kernel wrote.
    The depth of pushcli and the references to an inode are integers without a bound. *)

From stdpp Require Export base list numbers gmap strings.
From Stdlib Require Export ZArith Lia.

#[export] Set Default Goal Selector "!".
#[global] Open Scope Z_scope.

(** ** Functional record update

    C code assigns one field of a struct at a time.  [r <| f := v |>] is the
    struct [r] after [r.f = v]; the setter of a projection is derived from the
    eta expansion of its record. *)

Class Eta (R : Type) := eta : R -> R.
Class Setter {R T : Type} (proj : R -> T) := upd : (T -> T) -> R -> R.
Arguments upd {R T} proj {_} _ _.

Ltac derive_setter :=
  lazymatch goal with
  | |- @Setter ?R ?T ?proj =>
      let f := fresh "f" in
      let r := fresh "r" in
      refine (fun (f : T -> T) (r : R) => _);
      let body := eval hnf in (eta r) in
      lazymatch eval pattern (proj r) in body with
      | ?g _ => let res := eval cbv beta in (g (f (proj r))) in exact res
      end
  end.

#[export] Hint Extern 1 (Setter _) => derive_setter : typeclass_instances.

Declare Scope cstruct_scope.
Notation "r <| p ':=' v '|>'" := (upd p (fun _ => v) r)
  (at level 1, left associativity, p at level 0,
   format "r  <| p  ':='  v |>") : cstruct_scope.
#[global] Open Scope cstruct_scope.

(** ** Machine integers

    [int] and [uint] are the 32-bit types of the i386 build: a C value is a
    [Z], and every operation that may leave the range goes through [s32] or
    [u32]. *)

Definition u8 (x : Z) : Z := x mod 2 ^ 8.
Definition u16 (x : Z) : Z := x mod 2 ^ 16.
Definition u32 (x : Z) : Z := x mod 2 ^ 32.
Definition s32 (x : Z) : Z := (x + 2 ^ 31) mod 2 ^ 32 - 2 ^ 31.

Definition is_u8 (x : Z) : Prop := 0 <= x < 2 ^ 8.
Definition is_u32 (x : Z) : Prop := 0 <= x < 2 ^ 32.
Definition is_s32 (x : Z) : Prop := - 2 ^ 31 <= x < 2 ^ 31.

(** Lists of concrete bytes. *)
Ltac concrete_bytes := repeat (apply Forall_cons_2; [unfold is_u8; lia|]); constructor.

Lemma u32_small x : is_u32 x -> u32 x = x.
Proof. intros H. apply Z.mod_small, H. Qed.

Lemma u32_range x : is_u32 (u32 x).
Proof. unfold is_u32, u32. apply Z.mod_pos_bound. lia. Qed.

Lemma u8_range x : is_u8 (u8 x).
Proof. unfold is_u8, u8. apply Z.mod_pos_bound. lia. Qed.

Lemma s32_small x : is_s32 x -> s32 x = x.
Proof.
  intros H. unfold s32, is_s32 in *.
  rewrite Z.mod_small; lia.
Qed.

Lemma s32_range x : is_s32 (s32 x).
Proof.
  unfold is_s32, s32.
  pose proof (Z.mod_pos_bound (x + 2 ^ 31) (2 ^ 32) ltac:(lia)). lia.
Qed.

(** Two's complement: [s32] and [u32] of one bit pattern agree modulo 2^32. *)
Lemma u32_s32 x : u32 (s32 x) = u32 x.
Proof.
  unfold u32, s32.
  rewrite Zminus_mod_idemp_l. f_equal. lia.
Qed.

Lemma u32_add_u32_l x y : u32 (u32 x + y) = u32 (x + y).
Proof. unfold u32. apply Zplus_mod_idemp_l. Qed.

Lemma u32_idem x : u32 (u32 x) = u32 x.
Proof. pose proof (u32_add_u32_l x 0) as H. by rewrite !Z.add_0_r in H. Qed.

Lemma u32_add_u32_r x y : u32 (x + u32 y) = u32 (x + y).
Proof. unfold u32. apply Zplus_mod_idemp_r. Qed.

Lemma u32_sub_u32_l x y : u32 (u32 x - y) = u32 (x - y).
Proof. unfold u32. apply Zminus_mod_idemp_l. Qed.

Lemma u32_sub_u32_r x y : u32 (x - u32 y) = u32 (x - y).
Proof. unfold u32. apply Zminus_mod_idemp_r. Qed.

Lemma s32_add_s32_l x y : s32 (s32 x + y) = s32 (x + y).
Proof.
  unfold s32. f_equal.
  replace ((x + 2 ^ 31) mod 2 ^ 32 - 2 ^ 31 + y + 2 ^ 31)
    with ((x + 2 ^ 31) mod 2 ^ 32 + y) by lia.
  rewrite Zplus_mod_idemp_l. f_equal. lia.
Qed.

Lemma s32_idem x : s32 (s32 x) = s32 x.
Proof. pose proof (s32_add_s32_l x 0) as H. by rewrite !Z.add_0_r in H. Qed.

Create HintDb cint.
Create Rewrite HintDb cint.
#[export] Hint Resolve u32_range u8_range s32_range : cint.
#[export] Hint Rewrite u32_s32 u32_add_u32_l u32_add_u32_r
  u32_sub_u32_l u32_sub_u32_r : cint.

(** ** Arrays indexed by C integers

    A read outside the array is [None]; a write outside it is never needed by
    a definition of this development without a preceding range test. *)

Section zlist.
Context {A : Type}.
Implicit Types (l : list A) (i j : Z) (x : A).

Definition zlookup l i : option A :=
  if decide (0 <= i) then l !! Z.to_nat i else None.

Definition zupd l i x : list A :=
  if decide (0 <= i) then <[Z.to_nat i := x]> l else l.

Definition zlen l : Z := Z.of_nat (length l).

Lemma length_zupd l i x : length (zupd l i x) = length l.
Proof. unfold zupd. case_decide; [apply length_insert | done]. Qed.

Lemma zlen_zupd l i x : zlen (zupd l i x) = zlen l.
Proof. unfold zlen. by rewrite length_zupd. Qed.

Lemma zlookup_zupd_eq l i x : 0 <= i < zlen l -> zlookup (zupd l i x) i = Some x.
Proof.
  unfold zlookup, zupd, zlen. intros H. rewrite !decide_True by lia.
  apply list_lookup_insert_eq. lia.
Qed.

Lemma zlookup_zupd_ne l i j x : i <> j -> zlookup (zupd l i x) j = zlookup l j.
Proof.
  unfold zlookup, zupd. intros H.
  case_decide; [| done]. case_decide; [| done].
  apply list_lookup_insert_ne. lia.
Qed.

Lemma zlookup_is_Some l i : is_Some (zlookup l i) <-> 0 <= i < zlen l.
Proof.
  unfold zlookup, zlen. case_decide.
  - rewrite lookup_lt_is_Some. lia.
  - split; [intros [? ?]; done | lia].
Qed.

Lemma zlookup_Some_range l i x : zlookup l i = Some x -> 0 <= i < zlen l.
Proof. intros H. apply zlookup_is_Some. eauto. Qed.

Lemma zlookup_of_nat l (n : nat) : zlookup l (Z.of_nat n) = l !! n.
Proof. unfold zlookup. rewrite decide_True by lia. f_equal. lia. Qed.

Lemma zlookup_to_nat l i : 0 <= i -> zlookup l i = l !! Z.to_nat i.
Proof. intros H. unfold zlookup. by rewrite decide_True. Qed.

Lemma zupd_to_nat l i x : 0 <= i -> zupd l i x = <[Z.to_nat i := x]> l.
Proof. intros H. unfold zupd. by rewrite decide_True. Qed.

Lemma zlist_ext l1 l2 :
  length l1 = length l2 ->
  (forall i, 0 <= i < zlen l1 -> zlookup l1 i = zlookup l2 i) -> l1 = l2.
Proof.
  intros Hlen H. apply list_eq. intros n.
  destruct (decide (n < length l1)%nat) as [Hn|Hn].
  - specialize (H (Z.of_nat n)). rewrite !zlookup_of_nat in H.
    apply H. unfold zlen. lia.
  - rewrite !lookup_ge_None_2; [done | lia | lia].
Qed.
End zlist.

(** [zget l i] is the C expression [l[i]] of an array whose index is known to
    be in range; [inhabitant] is the value the proofs never look at. *)
Definition zget {A} `{Inhabited A} (l : list A) (i : Z) : A :=
  default inhabitant (zlookup l i).

Lemma zget_zupd_eq {A} `{Inhabited A} (l : list A) i x :
  0 <= i < zlen l -> zget (zupd l i x) i = x.
Proof. intros Hi. unfold zget. by rewrite zlookup_zupd_eq. Qed.

Lemma zget_zupd_ne {A} `{Inhabited A} (l : list A) i j x :
  i <> j -> zget (zupd l i x) j = zget l j.
Proof. intros Hij. unfold zget. by rewrite zlookup_zupd_ne. Qed.

Lemma zupd_zupd {A} (l : list A) i x y : zupd (zupd l i x) i y = zupd l i y.
Proof. unfold zupd. case_decide; [apply list_insert_insert_eq|done]. Qed.

Lemma zlookup_zget {A} `{Inhabited A} (l : list A) i :
  0 <= i < zlen l -> zlookup l i = Some (zget l i).
Proof.
  intros Hi. unfold zget.
  apply zlookup_is_Some in Hi as [x Hx]. by rewrite Hx.
Qed.

(** The elements before the one that a search finds are not what is looked for. *)
Lemma find_seq_before (f : nat -> bool) n m z c : List.find f (seq m n) = Some z -> (m <= c)%nat -> (c < z)%nat -> f c = false.
Proof.
  revert m. induction n as [|n IH]; intros m E Hm Hc; [done |]. cbn in E. destruct (f m) eqn:Em; [injection E as <-; lia |].
  destruct (decide (c = m)) as [->|]; [done |]. apply (IH (S m)); [done | lia | done].
Qed.

Lemma zlen_cons {A} (x : A) (l : list A) : zlen (x :: l) = 1 + zlen l.
Proof. unfold zlen. cbn. lia. Qed.

Lemma zlen_pos {A} (l : list A) : 0 <= zlen l.
Proof. unfold zlen. lia. Qed.

Lemma zlen_app {A} (l w : list A) : zlen (l ++ w) = zlen l + zlen w.
Proof. unfold zlen. rewrite length_app. lia. Qed.

Lemma zget_app_l {A} `{Inhabited A} (l w : list A) i : i < zlen l -> zget (l ++ w) i = zget l i.
Proof.
  intros Hi. unfold zget, zlookup. case_decide; [|done]. unfold zlen in Hi. by rewrite lookup_app_l by lia.
Qed.

Lemma zget_snoc {A} `{Inhabited A} (l : list A) x : zget (l ++ [x]) (zlen l) = x.
Proof. unfold zget, zlen. rewrite zlookup_of_nat, lookup_app_r, Nat.sub_diag by done. done. Qed.

(** [zrange lo hi] lists the indices of [for (j = lo; j <= hi; j++)] and
    [zdown hi lo] those of [for (j = hi; j >= lo; j--)]. *)
Definition zrange (lo hi : Z) : list Z := seqZ lo (hi - lo + 1).
Definition zdown (hi lo : Z) : list Z := reverse (zrange lo hi).

Lemma elem_of_zrange i lo hi : i ∈ zrange lo hi <-> lo <= i <= hi.
Proof. unfold zrange. rewrite elem_of_seqZ. lia. Qed.

Lemma zrange_nil lo hi : hi < lo -> zrange lo hi = [].
Proof. intros H. unfold zrange. apply seqZ_nil. lia. Qed.

Lemma zrange_cons lo hi : lo <= hi -> zrange lo hi = lo :: zrange (lo + 1) hi.
Proof.
  intros H. unfold zrange. rewrite seqZ_cons by lia.
  f_equal. f_equal; lia.
Qed.

Lemma zdown_cons hi lo : lo <= hi -> zdown hi lo = hi :: zdown (hi - 1) lo.
Proof.
  intros H. unfold zdown, zrange.
  replace (hi - lo + 1) with ((hi - lo) + 1) by lia.
  rewrite seqZ_app by lia. rewrite reverse_app.
  rewrite (seqZ_cons _ 1), seqZ_nil by lia.
  cbn. f_equal; [lia |]. f_equal. f_equal. lia.
Qed.

Lemma zdown_nil hi lo : hi < lo -> zdown hi lo = [].
Proof. intros H. unfold zdown. by rewrite zrange_nil. Qed.

Lemma existsb_elem_of {A} (f : A -> bool) (l : list A) :
  existsb f l = true <-> exists x, x ∈ l /\ f x = true.
Proof. rewrite existsb_exists. by setoid_rewrite list_elem_of_In. Qed.

Lemma existsb_false {A} (f : A -> bool) (l : list A) :
  existsb f l = false <-> forall x, x ∈ l -> f x = false.
Proof.
  rewrite <- not_true_iff_false, existsb_elem_of. split.
  - intros Hn x Hx. destruct (f x) eqn:E; [exfalso; eauto | done].
  - intros Hall (x & Hx & E). rewrite Hall in E; done.
Qed.

Lemma fold_left_inv {A B} (P : A -> Prop) (f : A -> B -> A) (l : list B) x :
  P x -> (forall y b, b ∈ l -> P y -> P (f y b)) -> P (fold_left f l x).
Proof.
  revert x. induction l as [|b l IH]; intros x Hx Hf; cbn; [done |].
  apply IH.
  - apply Hf; [by left | done].
  - intros y b' Hb'. apply Hf. by right.
Qed.

Lemma elem_of_snoc {A} (x y : A) (l : list A) : x ∈ l ++ [y] <-> x ∈ l \/ x = y.
Proof. by rewrite elem_of_app, list_elem_of_singleton. Qed.

Lemma find_ext {A} (f g : A -> bool) (l : list A) :
  (forall x, f x = g x) -> List.find f l = List.find g l.
Proof. intros H. induction l as [|x l IH]; cbn; [done | by rewrite H, IH]. Qed.

(** [find] over a range stops at the first index. *)
Lemma find_first (f : Z -> bool) lo hi x :
  List.find f (zrange lo hi) = Some x -> forall y, lo <= y < x -> f y = false.
Proof.
  intros Hf. assert (H : forall n lo, hi - lo < Z.of_nat n -> List.find f (zrange lo hi) = Some x ->
    forall y, lo <= y < x -> f y = false).
  { clear lo Hf. induction n as [|n IH]; intros lo Hn Hf y Hy.
    - rewrite zrange_nil in Hf by lia. done.
    - destruct (decide (lo <= hi)); [|by rewrite zrange_nil in Hf by lia].
      rewrite zrange_cons in Hf by done. cbn in Hf. destruct (f lo) eqn:E; [injection Hf as ->; lia|].
      destruct (decide (y = lo)) as [->|Hne]; [done|]. eapply IH; [|exact Hf|]; lia. }
  apply (H (Z.to_nat (hi - lo + 1)) lo); [lia|done].
Qed.

Lemma list_alter_alter {A} (f g : A -> A) (i : nat) (l : list A) :
  alter g i (alter f i l) = alter (fun x => g (f x)) i l.
Proof.
  revert i. induction l as [|x l IH]; intros [|i]; cbn; [done.. |].
  f_equal. apply IH.
Qed.

(** ** Kernel code that may panic

    [panic] never returns (console.c freezes the machine), so a panicking
    computation has no state after it. *)

Inductive outcome (S A : Type) : Type :=
  | Ok (a : A) (s : S)
  | Panic (msg : string).
Arguments Ok {S A} a s.
Arguments Panic {S A} msg.

Definition M (S A : Type) : Type := S -> outcome S A.

#[export] Instance M_ret S : MRet (M S) := fun A (a : A) s => Ok a s.
#[export] Instance M_bind S : MBind (M S) := fun A B (k : A -> M S B) m s =>
  match m s with
  | Ok a s' => k a s'
  | Panic msg => Panic msg
  end.

Definition panic {S A} (msg : string) : M S A := fun _ => Panic msg.
Definition gets {S A} (f : S -> A) : M S A := fun s => Ok (f s) s.
Definition modify {S} (f : S -> S) : M S unit := fun s => Ok tt (f s).

(** A C [for] loop without [break]: the body runs once per element. *)
Fixpoint forM {S A} (l : list A) (body : A -> M S unit) : M S unit :=
  match l with
  | [] => mret tt
  | x :: l' => body x ≫= fun _ => forM l' body
  end.

Definition returns {S A} (o : outcome S A) : Prop :=
  exists a s, o = Ok a s.

Lemma bind_Ok {S A B} (m : M S A) (k : A -> M S B) s b s' :
  (m ≫= k) s = Ok b s' <-> exists a s1, m s = Ok a s1 /\ k a s1 = Ok b s'.
Proof.
  unfold mbind, M_bind. destruct (m s) as [a s1 | msg]; split.
  - eauto.
  - intros (a' & s1' & [= <- <-] & H). done.
  - done.
  - intros (a' & s1' & H & _). done.
Qed.

(** Run the first statement of a sequence. *)
Lemma bind_run {S A B} (m : M S A) (k : A -> M S B) s a s' :
  m s = Ok a s' -> (m ≫= k) s = k a s'.
Proof. intros E. unfold mbind, M_bind. by rewrite E. Qed.

(** Every outcome of a call: [Q] holds of the results and [E] of the panics. *)
Definition wp {S A} (m : M S A) (Q : A -> S -> Prop) (E : string -> Prop) (s : S) : Prop :=
  match m s with
  | Ok a s' => Q a s'
  | Panic msg => E msg
  end.

Section wp.
Context {S : Type}.
Implicit Types (E : string -> Prop) (s : S).

Lemma wp_ret {A} (a : A) (Q : A -> S -> Prop) E s : Q a s -> wp (mret a) Q E s.
Proof. done. Qed.

Lemma wp_run {A} (m : M S A) (Q : A -> S -> Prop) E s a s' : m s = Ok a s' -> Q a s' -> wp m Q E s.
Proof. intros H HQ. unfold wp. by rewrite H. Qed.

Lemma wp_mono {A} (m : M S A) (Q Q' : A -> S -> Prop) (E E' : string -> Prop) s :
  wp m Q E s -> (forall a s', Q a s' -> Q' a s') -> (forall msg, E msg -> E' msg) -> wp m Q' E' s.
Proof. unfold wp. destruct (m s); auto. Qed.

Lemma wp_bind {A B} (m : M S B) (k : B -> M S A) (Q : A -> S -> Prop) E s :
  wp m (fun b s' => wp (k b) Q E s') E s -> wp (m ≫= k) Q E s.
Proof. unfold wp, mbind, M_bind. by destruct (m s). Qed.

(** A call with a specification of its own, then the rest. *)
Lemma wp_step {A B} (m : M S B) (k : B -> M S A) (Q' : B -> S -> Prop) (E' : string -> Prop)
    (Q : A -> S -> Prop) E s :
  wp m Q' E' s -> (forall b s', Q' b s' -> wp (k b) Q E s') -> (forall msg, E' msg -> E msg) ->
  wp (m ≫= k) Q E s.
Proof. intros H Hk HE. apply wp_bind. eapply wp_mono; eauto. Qed.

(** A call that is known to return, then the rest. *)
Lemma wp_step_run {A B} (m : M S B) (k : B -> M S A) (Q : A -> S -> Prop) E s b s' :
  m s = Ok b s' -> wp (k b) Q E s' -> wp (m ≫= k) Q E s.
Proof. intros H Hk. apply wp_bind. by eapply wp_run. Qed.

Lemma wp_Ok {A} (m : M S A) (Q : A -> S -> Prop) s : wp m Q (fun _ => False) s -> exists a s', m s = Ok a s' /\ Q a s'.
Proof. unfold wp. destruct (m s); [eauto|done]. Qed.

(** A run with a specification returns or panics as it says. *)
Lemma wp_inv {A} (m : M S A) (Q : A -> S -> Prop) E s : wp m Q E s ->
  (exists a s', m s = Ok a s' /\ Q a s') \/ (exists msg, m s = Panic msg /\ E msg).
Proof. unfold wp. destruct (m s); eauto. Qed.

(** A counting loop keeps an invariant of its index. *)
Lemma wp_forM (Inv : Z -> S -> Prop) lo hi (body : Z -> M S unit) E s :
  lo <= hi + 1 -> Inv lo s ->
  (forall k s, lo <= k <= hi -> Inv k s -> wp (body k) (fun _ s' => Inv (k + 1) s') E s) ->
  wp (forM (zrange lo hi) body) (fun _ s' => Inv (hi + 1) s') E s.
Proof.
  intros Hle H0 Hstep. remember (Z.to_nat (hi + 1 - lo)) as n eqn:En. revert lo s Hle H0 Hstep En.
  induction n as [|n IH]; intros lo s Hle H0 Hstep En.
  - assert (lo = hi + 1) as -> by lia. by rewrite zrange_nil by lia.
  - rewrite zrange_cons by lia. cbn [forM]. apply wp_bind. eapply wp_mono; [apply Hstep; [lia|done]| |done].
    cbn. intros _ s' Hs'. apply IH; [lia|done| |lia]. intros k s'' Hk. apply Hstep. lia.
Qed.
End wp.

(** ** Shared automation *)

(** Turn the boolean tests of the code into propositions. *)
Ltac bool_to_prop :=
  repeat match goal with
  | H : (_ && _)%bool = true |- _ => apply andb_true_iff in H as [? ?]
  | H : (_ && _)%bool = false |- _ => apply andb_false_iff in H
  | H : (_ || _)%bool = true |- _ => apply orb_true_iff in H
  | H : (_ || _)%bool = false |- _ => apply orb_false_iff in H as [? ?]
  | H : negb _ = true |- _ => apply negb_true_iff in H
  | H : negb _ = false |- _ => apply negb_false_iff in H
  | H : (_ =? _) = true |- _ => apply Z.eqb_eq in H
  | H : (_ =? _) = false |- _ => apply Z.eqb_neq in H
  | H : (_ <? _) = true |- _ => apply Z.ltb_lt in H
  | H : (_ <? _) = false |- _ => apply Z.ltb_ge in H
  | H : (_ <=? _) = true |- _ => apply Z.leb_le in H
  | H : (_ <=? _) = false |- _ => apply Z.leb_gt in H
  | H : bool_decide _ = true |- _ => apply bool_decide_eq_true in H
  | H : bool_decide _ = false |- _ => apply bool_decide_eq_false in H
  end.

(** Case analysis on the innermost test of the goal. *)
Ltac case_test :=
  match goal with
  | |- context [if ?b then _ else _] =>
      lazymatch b with
      | context [if _ then _ else _] => fail
      | _ => let E := fresh "E" in destruct b eqn:E
      end
  end; bool_to_prop.

(** ** Circular buffers

    [window N c f n] is the list of the [n] cells of an [N]-cell circular buffer
    [c] that start at index [f]: the abstract contents of the run queues, of a
    pipe and of the console input buffer. *)

Definition window {A} (N : Z) (c : Z -> A) (f n : Z) : list A :=
  (fun t => c ((f + t) mod N)) <$> seqZ 0 n.

Section window.
Context {A : Type}.
Implicit Types (c : Z -> A) (N f n t r : Z).

Lemma length_window N c f n : length (window N c f n) = Z.to_nat n.
Proof. unfold window. by rewrite length_fmap, length_seqZ. Qed.

Lemma lookup_window N c f n (i : nat) :
  Z.of_nat i < n -> window N c f n !! i = Some (c ((f + Z.of_nat i) mod N)).
Proof.
  intros Hi. unfold window. rewrite list_lookup_fmap.
  by rewrite lookup_seqZ_lt by lia.
Qed.

Lemma lookup_window_ge N c f n (i : nat) :
  n <= Z.of_nat i -> window N c f n !! i = None.
Proof. intros Hi. apply lookup_ge_None_2. rewrite length_window. lia. Qed.

Lemma elem_of_window N c f n x :
  x ∈ window N c f n <-> exists t, 0 <= t < n /\ x = c ((f + t) mod N).
Proof.
  unfold window. rewrite list_elem_of_fmap. split.
  - intros (t & -> & Ht%elem_of_seqZ). exists t. split; [lia | done].
  - intros (t & Ht & ->). exists t. split; [done |]. apply elem_of_seqZ. lia.
Qed.

Lemma window_ext N c c' f f' n :
  (forall t, 0 <= t < n -> c ((f + t) mod N) = c' ((f' + t) mod N)) ->
  window N c f n = window N c' f' n.
Proof.
  intros H. unfold window. apply list_fmap_ext.
  intros i t [-> Ht]%lookup_seqZ. apply H. lia.
Qed.

Lemma window_nil N c f n : n <= 0 -> window N c f n = [].
Proof. intros Hn. unfold window. by rewrite seqZ_nil. Qed.

Lemma window_snoc N c f n :
  0 <= n -> window N c f (n + 1) = window N c f n ++ [c ((f + n) mod N)].
Proof.
  intros Hn. unfold window. by rewrite seqZ_app, fmap_app by lia.
Qed.

Lemma window_cons N c f n :
  0 < N -> 0 < n ->
  window N c f n = c (f mod N) :: window N c ((f + 1) mod N) (n - 1).
Proof.
  intros HN Hn. apply list_eq. intros [|i].
  - rewrite lookup_window by lia. cbn. do 3 f_equal. lia.
  - cbn. destruct (decide (Z.of_nat (S i) < n)).
    + rewrite !lookup_window by lia. do 2 f_equal.
      rewrite Zplus_mod_idemp_l. f_equal. lia.
    + rewrite !lookup_window_ge by lia. done.
Qed.

(** Shifting the first [r] cells up by one and dropping the first cell removes
    the [r]-th element. *)
Lemma window_delete N c c' f n r :
  0 < N -> 0 <= r < n ->
  (forall t, 0 <= t < n - 1 ->
    c' ((f + 1 + t) mod N) =
    if decide (t < r) then c ((f + t) mod N) else c ((f + 1 + t) mod N)) ->
  window N c' ((f + 1) mod N) (n - 1) = delete (Z.to_nat r) (window N c f n).
Proof.
  intros HN Hr H. apply list_eq. intros i.
  destruct (decide (Z.of_nat i < n - 1)) as [Hi|Hi].
  - rewrite lookup_window by lia. rewrite Zplus_mod_idemp_l, H by lia.
    rewrite list_lookup_delete.
    destruct (decide (Z.of_nat i < r)), (decide (i < Z.to_nat r)%nat); try lia.
    + by rewrite lookup_window by lia.
    + rewrite lookup_window by lia. do 3 f_equal. lia.
  - rewrite lookup_window_ge by lia. symmetry. apply lookup_ge_None_2.
    rewrite length_delete; [rewrite length_window; lia |].
    apply lookup_lt_is_Some. rewrite length_window. lia.
Qed.
End window.

(** ** Lists as multisets

    Two lists of addresses are permutations when every address occurs equally often in
    both; [perm] proves a permutation from others that way. *)

Definition occ (x : Z) (l : list Z) : nat := count_occ Z.eq_dec l x.
Definition occ1 (x y : Z) : nat := if Z.eq_dec y x then 1%nat else 0%nat.

Lemma perm_occ (l l' : list Z) : l ≡ₚ l' <-> forall x, occ x l = occ x l'.
Proof. apply Permutation_count_occ. Qed.
Lemma occ_app x l l' : occ x (l ++ l') = (occ x l + occ x l')%nat.
Proof. apply count_occ_app. Qed.
Lemma occ_cons x y l : occ x (y :: l) = (occ1 x y + occ x l)%nat.
Proof. unfold occ, occ1. cbn. by destruct (Z.eq_dec y x). Qed.
Lemma occ_nil x : occ x [] = 0%nat.
Proof. done. Qed.

Ltac perm :=
  let x := fresh "x" in
  apply perm_occ; intros x;
  repeat match goal with
  | H : @Permutation Z _ _ |- _ =>
      let H' := fresh in pose proof (proj1 (perm_occ _ _) H x) as H'; clear H
  end;
  do 3 rewrite ?occ_app, ?occ_cons, ?occ_nil in *; lia.
