(* ===== verification/CString.v ===== *)
(** * C strings and memory blocks

    string.c of the kernel and ulib.c of the user library.  Memory is a function
    from 32-bit addresses to bytes; pointers are unsigned 32-bit integers whose
    increments wrap around.  The loops over [n] bytes run [n] times; those that look
    for the terminating NUL have fuel, and return [None] when it runs out. *)

From S2P Require Import Prelude.

Definition memory : Type := Z -> Z.
Definition store (m : memory) (a b : Z) : memory := fun x => if x =? a then b else m x.

Section ops.
Implicit Types (m : memory) (n : nat).

(** ** string.c *)

(** rep stosb and rep stosl; a word is stored with its low byte first. *)
Fixpoint stosb m (dst c : Z) n : memory :=
  match n with
  | O => m
  | S n => stosb (store m dst (u8 c)) (u32 (dst + 1)) c n
  end.

Definition store_word m (a w : Z) : memory :=
  store (store (store (store m a (u8 w)) (u32 (a + 1)) (u8 (Z.shiftr w 8)))
               (u32 (a + 2)) (u8 (Z.shiftr w 16)))
        (u32 (a + 3)) (u8 (Z.shiftr w 24)).

Fixpoint stosl m (dst w : Z) n : memory :=
  match n with
  | O => m
  | S n => stosl (store_word m dst w) (u32 (dst + 4)) w n
  end.

Definition memset m (dst c n : Z) : memory :=
  if (dst mod 4 =? 0) && (n mod 4 =? 0) then
    let c := Z.land c 255 in
    stosl m dst (Z.lor (Z.lor (Z.lor (Z.shiftl c 24) (Z.shiftl c 16)) (Z.shiftl c 8)) c)
          (Z.to_nat (n / 4))
  else stosb m dst c (Z.to_nat n).

Fixpoint memcmp m (s1 s2 : Z) n : Z :=
  match n with
  | O => 0
  | S n =>
      if negb (m s1 =? m s2) then m s1 - m s2
      else memcmp m (u32 (s1 + 1)) (u32 (s2 + 1)) n
  end.

(** [while(n-- > 0) *d++ = *s++;] and [while(n-- > 0) *--d = *--s;] *)
Fixpoint copy_up m (d s : Z) n : memory :=
  match n with
  | O => m
  | S n => copy_up (store m d (m s)) (u32 (d + 1)) (u32 (s + 1)) n
  end.

Fixpoint copy_down m (d s : Z) n : memory :=
  match n with
  | O => m
  | S n =>
      let d := u32 (d - 1) in
      let s := u32 (s - 1) in
      copy_down (store m d (m s)) d s n
  end.

Definition memmove m (dst src n : Z) : memory :=
  if (src <? dst) && (dst <? u32 (src + n)) then
    copy_down m (u32 (dst + n)) (u32 (src + n)) (Z.to_nat n)
  else copy_up m dst src (Z.to_nat n).

Fixpoint strncmp m (p q : Z) n : Z :=
  match n with
  | O => 0
  | S n' =>
      if negb (m p =? 0) && (m p =? m q) then strncmp m (u32 (p + 1)) (u32 (q + 1)) n'
      else m p - m q
  end.

(** The first loop of strncpy returns the memory, [s] and the rest of [n]. *)
Fixpoint strncpy_copy m (s t : Z) n : memory * Z * nat :=
  match n with
  | O => (m, s, O)
  | S n =>
      let c := m t in
      let m := store m s c in
      if c =? 0 then (m, u32 (s + 1), n)
      else strncpy_copy m (u32 (s + 1)) (u32 (t + 1)) n
  end.

Definition strncpy m (s t n : Z) : memory :=
  let '(m, s, n) := strncpy_copy m s t (Z.to_nat n) in
  stosb m s 0 n.

(** The loop of safestrcpy runs [n - 1] times at most; [s] is left at the byte the
    final assignment writes, which is one past the NUL when a NUL was copied. *)
Fixpoint safestrcpy_copy m (s t : Z) n : memory * Z :=
  match n with
  | O => (m, s)
  | S n =>
      let c := m t in
      let m := store m s c in
      if c =? 0 then (m, u32 (s + 1)) else safestrcpy_copy m (u32 (s + 1)) (u32 (t + 1)) n
  end.

Definition safestrcpy m (s t n : Z) : memory :=
  if n <=? 0 then m
  else
    let '(m, s) := safestrcpy_copy m s t (Z.to_nat (n - 1)) in
    store m s 0.

Fixpoint strlen_loop (fuel : nat) m (s n : Z) : option Z :=
  match fuel with
  | O => None
  | S fuel => if m (u32 (s + n)) =? 0 then Some n else strlen_loop fuel m s (s32 (n + 1))
  end.
Definition strlen (fuel : nat) m (s : Z) : option Z := strlen_loop fuel m s 0.

(** ** ulib.c *)

Fixpoint strcpy (fuel : nat) m (s t : Z) : option memory :=
  match fuel with
  | O => None
  | S fuel =>
      let c := m t in
      let m := store m s c in
      if c =? 0 then Some m else strcpy fuel m (u32 (s + 1)) (u32 (t + 1))
  end.

Fixpoint strcmp (fuel : nat) m (p q : Z) : option Z :=
  match fuel with
  | O => None
  | S fuel =>
      if negb (m p =? 0) && (m p =? m q) then strcmp fuel m (u32 (p + 1)) (u32 (q + 1))
      else Some (m p - m q)
  end.

(** A pointer to the byte, or 0. *)
Fixpoint strchr (fuel : nat) m (s c : Z) : option Z :=
  match fuel with
  | O => None
  | S fuel =>
      if m s =? 0 then Some 0
      else if m s =? c then Some s
      else strchr fuel m (u32 (s + 1)) c
  end.

(** gets(): the input is what successive [read(0, &c, 1)] calls deliver; the end of
    the list is a call that returns less than 1. *)
Fixpoint cgets_loop m (buf i max : Z) (input : list Z) : memory * Z :=
  match input with
  | [] => (m, i)
  | c :: input =>
      if i + 1 <? max then
        let m := store m (u32 (buf + i)) c in
        if (c =? 10) || (c =? 13) then (m, i + 1)
        else cgets_loop m buf (i + 1) max input
      else (m, i)
  end.

Definition cgets m (buf max : Z) (input : list Z) : memory :=
  let '(m, i) := cgets_loop m buf 0 max input in
  store m (u32 (buf + i)) 0.

Fixpoint atoi_loop (fuel : nat) m (s n : Z) : option Z :=
  match fuel with
  | O => None
  | S fuel =>
      if (48 <=? m s) && (m s <=? 57) then
        atoi_loop fuel m (u32 (s + 1)) (s32 (n * 10 + m s - 48))
      else Some n
  end.
Definition atoi (fuel : nat) m (s : Z) : option Z := atoi_loop fuel m s 0.

(** The user library's memset and memmove: always byte by byte, always upwards. *)
Definition umemset m (dst c n : Z) : memory := stosb m dst c (Z.to_nat n).
Definition umemmove m (dst src n : Z) : memory := copy_up m dst src (Z.to_nat n).

(** ** Strings in fixed arrays

    [safestrcpy(dst, src, 16)] on the 16 bytes of [p->name]: at most 15 characters,
    then the NUL, and one more NUL when the whole source string was copied. *)
Fixpoint cstr_prefix (l : list Z) : list Z :=
  match l with
  | [] => []
  | c :: l => if c =? 0 then [] else c :: cstr_prefix l
  end.
Definition safestrcpy16 (dst src : list Z) : list Z :=
  let s := take 15 (cstr_prefix src) in
  let z := if (length s <? 15)%nat then [0; 0] else [0] in
  s ++ z ++ drop (length s + length z) dst.
End ops.

(** ** Blocks *)

Lemma u32_succ a : 0 <= a -> a + 1 < 2 ^ 32 -> u32 (a + 1) = a + 1.
Proof. intros. apply u32_small. unfold is_u32. lia. Qed.

Ltac addr_cases :=
  unfold store in *; repeat first
    [ progress bool_to_prop
    | match goal with
      | |- context [decide ?P] => destruct (decide P)
      | |- context [if ?b then _ else _] => destruct b eqn:?
      end ]; try lia.

Section blocks.
Implicit Types (m : memory) (n : nat).

(** [n] bytes at [a] do not wrap around the end of memory. *)
Definition block (a n : Z) : Prop := 0 <= a /\ 0 <= n /\ a + n <= 2 ^ 32.

Lemma block_tail a n :
  block a (Z.of_nat (S (S n))) -> block (a + 1) (Z.of_nat (S n)) /\ u32 (a + 1) = a + 1.
Proof. unfold block. intros H. split; [lia | apply u32_succ; lia]. Qed.

Lemma stosb_spec m dst c n x :
  block dst (Z.of_nat n) ->
  stosb m dst c n x = if decide (dst <= x < dst + Z.of_nat n) then u8 c else m x.
Proof.
  revert m dst. induction n as [|[|n] IH]; intros m dst Hb.
  - cbn. by rewrite decide_False by lia.
  - cbn. addr_cases; f_equal; lia.
  - apply block_tail in Hb as [Hb E].
    change (stosb m dst c (S (S n))) with (stosb (store m dst (u8 c)) (u32 (dst + 1)) c (S n)).
    rewrite E, IH by done. addr_cases.
Qed.

Lemma copy_up_spec m d s n x :
  block d (Z.of_nat n) -> block s (Z.of_nat n) -> ~ (s < d < s + Z.of_nat n) ->
  copy_up m d s n x = if decide (d <= x < d + Z.of_nat n) then m (s + (x - d)) else m x.
Proof.
  revert m d s. induction n as [|[|n] IH]; intros m d s Hd Hs Ho.
  - cbn. by rewrite decide_False by lia.
  - cbn. addr_cases. f_equal. lia.
  - apply block_tail in Hd as [Hd Ed]. apply block_tail in Hs as [Hs Es].
    change (copy_up m d s (S (S n)))
      with (copy_up (store m d (m s)) (u32 (d + 1)) (u32 (s + 1)) (S n)).
    rewrite Ed, Es, IH by (done || lia). addr_cases; f_equal; lia.
Qed.

Lemma copy_down_spec m d s n x :
  block d (Z.of_nat n) -> block s (Z.of_nat n) -> ~ (d < s < d + Z.of_nat n) ->
  copy_down m (u32 (d + Z.of_nat n)) (u32 (s + Z.of_nat n)) n x
  = if decide (d <= x < d + Z.of_nat n) then m (s + (x - d)) else m x.
Proof.
  revert m. induction n as [|n IH]; intros m Hd Hs Ho.
  - cbn. by rewrite decide_False by lia.
  - unfold block in Hd, Hs.
    assert (Hdn : u32 (u32 (d + Z.of_nat (S n)) - 1) = u32 (d + Z.of_nat n)).
    { rewrite u32_sub_u32_l. f_equal. lia. }
    assert (Hsn : u32 (u32 (s + Z.of_nat (S n)) - 1) = u32 (s + Z.of_nat n)).
    { rewrite u32_sub_u32_l. f_equal. lia. }
    cbn [copy_down]. rewrite Hdn, Hsn, IH by (unfold block; lia).
    rewrite !u32_small by (unfold is_u32; lia). addr_cases; f_equal; lia.
Qed.

(** The four bytes of the word that memset builds are all [c]. *)
Lemma memset_word c i :
  0 <= i < 4 ->
  let c := Z.land c 255 in
  u8 (Z.shiftr (Z.lor (Z.lor (Z.lor (Z.shiftl c 24) (Z.shiftl c 16)) (Z.shiftl c 8)) c) (8 * i))
  = c.
Proof.
  intros Hi. cbn zeta.
  assert (Hc : 0 <= Z.land c 255 < 256).
  { change 255 with (Z.ones 8). rewrite Z.land_ones by lia. apply Z.mod_pos_bound. lia. }
  revert Hc. generalize (Z.land c 255). intros b Hb.
  assert (Hall : forallb (fun b => forallb (fun i =>
    u8 (Z.shiftr (Z.lor (Z.lor (Z.lor (Z.shiftl b 24) (Z.shiftl b 16)) (Z.shiftl b 8)) b)
                 (8 * i)) =? b) (seqZ 0 4)) (seqZ 0 256) = true) by (vm_compute; reflexivity).
  rewrite forallb_forall in Hall. specialize (Hall b).
  rewrite <- list_elem_of_In, elem_of_seqZ in Hall. specialize (Hall ltac:(lia)).
  rewrite forallb_forall in Hall. specialize (Hall i).
  rewrite <- list_elem_of_In, elem_of_seqZ in Hall. specialize (Hall ltac:(lia)).
  by apply Z.eqb_eq in Hall.
Qed.

Lemma land_255 c : Z.land c 255 = u8 c.
Proof. change 255 with (Z.ones 8). by rewrite Z.land_ones. Qed.

Lemma stosl_spec m dst w b n x :
  (forall i, 0 <= i < 4 -> u8 (Z.shiftr w (8 * i)) = b) ->
  block dst (4 * Z.of_nat n) ->
  stosl m dst w n x = if decide (dst <= x < dst + 4 * Z.of_nat n) then b else m x.
Proof.
  intros Hw. revert m dst. induction n as [|n IH]; intros m dst Hb.
  - cbn. by rewrite decide_False by lia.
  - assert (Hword : forall y, store_word m dst w y
                              = if decide (dst <= y < dst + 4) then b else m y).
    { intros y. unfold block in Hb. unfold store_word.
      rewrite !u32_small by (unfold is_u32; lia).
      pose proof (Hw 0). pose proof (Hw 1). pose proof (Hw 2). pose proof (Hw 3).
      change (8 * 0) with 0 in *. rewrite Z.shiftr_0_r in *. addr_cases; auto with lia. }
    cbn [stosl]. destruct n as [|n].
    + cbn [stosl]. rewrite Hword. addr_cases.
    + rewrite u32_small by (unfold is_u32, block in *; lia).
      rewrite IH by (unfold block in *; lia). rewrite Hword. addr_cases.
Qed.

Lemma memset_spec m (dst c n x : Z) :
  block dst n -> memset m dst c n x = if decide (dst <= x < dst + n) then u8 c else m x.
Proof.
  intros Hb. unfold memset. destruct ((dst mod 4 =? 0) && (n mod 4 =? 0)) eqn:E.
  - bool_to_prop. assert (Hn : n = 4 * (n / 4)) by (apply Z.div_exact; lia).
    assert (0 <= n / 4) by (apply Z.div_pos; unfold block in Hb; lia).
    rewrite (stosl_spec _ _ _ (u8 c)); [| | rewrite Z2Nat.id; [by rewrite <- Hn | done]].
    + rewrite Z2Nat.id, <- Hn by done. done.
    + intros i Hi. rewrite memset_word by done. apply land_255.
  - rewrite stosb_spec; rewrite Z2Nat.id; done || (unfold block in Hb; lia).
Qed.

Lemma memmove_ok m (dst src n x : Z) :
  block dst n -> block src n -> src + n < 2 ^ 32 ->
  memmove m dst src n x = if decide (dst <= x < dst + n) then m (src + (x - dst)) else m x.
Proof.
  intros Hd Hs Hlt. unfold memmove.
  assert (Hn : Z.of_nat (Z.to_nat n) = n) by (unfold block in Hs; lia).
  rewrite (u32_small (src + n)) by (unfold is_u32, block in *; lia).
  destruct ((src <? dst) && (dst <? src + n)) eqn:E.
  - bool_to_prop. rewrite <- (u32_small (src + n)) by (unfold is_u32, block in *; lia).
    rewrite <- Hn. rewrite Nat2Z.id. apply copy_down_spec; rewrite Hn; done || lia.
  - rewrite copy_up_spec; rewrite Hn; try done.
    intros [H1 H2]. apply Z.ltb_lt in H1, H2. by rewrite H1, H2 in E.
Qed.
End blocks.

(** ** Strings in memory *)

Section strings.
Implicit Types (m : memory) (l w : list Z).

(** [m] holds the NUL-terminated string [l] at [a]. *)
Definition cstr_at m (a : Z) l : Prop :=
  block a (zlen l + 1) /\
  (forall i x, l !! i = Some x -> x <> 0 /\ m (a + Z.of_nat i) = x) /\
  m (a + zlen l) = 0.

(** [m] with the bytes [w] written at [a]. *)
Definition write m (a : Z) w : memory := fun x => default (m x) (zlookup w (x - a)).

(** The [n] bytes of [m] at [a]. *)
Definition read m (a n : Z) : list Z := (fun i => m (a + i)) <$> seqZ 0 n.

Lemma zlookup_cons {A} (x : A) (l : list A) i :
  zlookup (x :: l) i = if decide (i = 0) then Some x else zlookup l (i - 1).
Proof.
  unfold zlookup. repeat case_decide; subst; try lia; try done.
  by replace (Z.to_nat i) with (S (Z.to_nat (i - 1))) by lia.
Qed.

Lemma write_store m a c w x : write (store m a c) (a + 1) w x = write m a (c :: w) x.
Proof.
  unfold write. rewrite zlookup_cons.
  replace (x - (a + 1)) with (x - a - 1) by lia. unfold store. case_decide.
  - replace (x =? a) with true by (symmetry; apply Z.eqb_eq; lia).
    replace (zlookup w (x - a - 1)) with (@None Z); [done |].
    unfold zlookup. by rewrite decide_False by lia.
  - by replace (x =? a) with false by (symmetry; apply Z.eqb_neq; lia).
Qed.

Lemma write_outside m a w x : ~ (a <= x < a + zlen w) -> write m a w x = m x.
Proof.
  intros H. unfold write. destruct (zlookup w (x - a)) eqn:E; [| done].
  apply zlookup_Some_range in E. lia.
Qed.

Lemma write_nil m a x : write m a [] x = m x.
Proof. unfold write, zlookup. by case_decide. Qed.

Lemma cstr_at_nil m a : cstr_at m a [] -> 0 <= a < 2 ^ 32 /\ m a = 0.
Proof.
  intros (Hb & _ & H). cbn in *. unfold block, zlen in *. cbn in *.
  split; [lia | by rewrite Z.add_0_r in H].
Qed.

Lemma cstr_at_cons m a c l :
  cstr_at m a (c :: l) ->
  0 <= a /\ c <> 0 /\ m a = c /\ u32 (a + 1) = a + 1 /\ cstr_at m (a + 1) l.
Proof.
  intros (Hb & Hl & H0). unfold block in Hb. rewrite zlen_cons in *.
  pose proof (zlen_pos l). destruct (Hl 0%nat c eq_refl) as [Hc Ha]. rewrite Z.add_0_r in Ha.
  split_and!; [lia | done | done | apply u32_succ; lia | split_and!].
  - unfold block. lia.
  - intros i x Hi. destruct (Hl (S i) x Hi) as [? <-]. split; [done |]. f_equal. lia.
  - rewrite <- H0. f_equal. lia.
Qed.

(** A string that a write does not touch. *)
Lemma cstr_at_frame m m' a l :
  cstr_at m a l -> (forall x, a <= x <= a + zlen l -> m' x = m x) -> cstr_at m' a l.
Proof.
  intros (Hb & Hl & H0) Hm. pose proof (zlen_pos l). split_and!; [done | |].
  - intros i x Hi. destruct (Hl i x Hi) as [? <-]. split; [done |]. apply Hm.
    apply lookup_lt_Some in Hi. unfold zlen. lia.
  - rewrite <- H0. apply Hm. lia.
Qed.

Lemma cstr_at_u32 m a l : cstr_at m a l -> u32 a = a.
Proof.
  intros (Hb & _ & _). pose proof (zlen_pos l). unfold block in Hb.
  apply u32_small. unfold is_u32. lia.
Qed.

(** strlen and its loop. *)
Lemma strlen_loop_ok m a l (n : Z) (fuel : nat) :
  cstr_at m (a + n) l -> 0 <= n -> n + zlen l < 2 ^ 31 -> (length l < fuel)%nat ->
  strlen_loop fuel m a n = Some (n + zlen l).
Proof.
  revert n fuel. induction l as [|c l IH]; intros n [|fuel] Hl Hn Hlt Hf; try (cbn in Hf; lia);
    cbn [strlen_loop]; rewrite (cstr_at_u32 _ _ _ Hl).
  - apply cstr_at_nil in Hl as [_ ->]. cbn. f_equal. unfold zlen. cbn. lia.
  - apply cstr_at_cons in Hl as (? & Hc & -> & _ & Hl). case_test; [done |].
    rewrite zlen_cons in *. pose proof (zlen_pos l).
    rewrite s32_small by (unfold is_s32; lia). rewrite IH.
    + f_equal. lia.
    + by rewrite Z.add_assoc.
    + lia.
    + lia.
    + cbn in Hf. lia.
Qed.

Lemma strlen_ok m a l fuel :
  cstr_at m a l -> zlen l < 2 ^ 31 -> (length l < fuel)%nat ->
  strlen fuel m a = Some (zlen l).
Proof.
  intros Hl Hlt Hf. unfold strlen.
  rewrite (strlen_loop_ok m a l) by (rewrite ?Z.add_0_r; done || lia). done.
Qed.

(** Comparison of two strings: 0 exactly when they are equal. *)
Lemma strcmp_ok m p q l1 l2 fuel :
  cstr_at m p l1 -> cstr_at m q l2 -> (length l1 < fuel)%nat ->
  exists r, strcmp fuel m p q = Some r /\ (r = 0 <-> l1 = l2).
Proof.
  revert p q l2 fuel.
  induction l1 as [|c l1 IH]; intros p q [|d l2] [|fuel] H1 H2 Hf; try (cbn in Hf; lia);
    cbn [strcmp].
  - apply cstr_at_nil in H1 as [_ ->], H2 as [_ ->]. cbn. by exists 0.
  - apply cstr_at_nil in H1 as [_ ->]. apply cstr_at_cons in H2 as (_ & ? & -> & _ & _).
    cbn. eexists. split; [done |]. split; [lia | done].
  - apply cstr_at_nil in H2 as [_ ->]. apply cstr_at_cons in H1 as (_ & ? & -> & _ & _).
    case_test; [lia |]. eexists. split; [done |]. split; [lia | done].
  - apply cstr_at_cons in H1 as (_ & ? & -> & -> & H1).
    apply cstr_at_cons in H2 as (_ & ? & -> & -> & H2). case_test.
    + destruct (IH _ _ _ fuel H1 H2) as (r & -> & Hr); [cbn in Hf; lia |].
      exists r. split; [done |]. rewrite Hr. split; congruence.
    + eexists. split; [done |]. destruct E as [E|E]; bool_to_prop; [done |].
      split; [lia | congruence].
Qed.

Lemma strncmp_ok m p q l1 l2 n :
  cstr_at m p l1 -> cstr_at m q l2 ->
  strncmp m p q n = 0 <-> take n l1 = take n l2.
Proof.
  revert p q l2 n. induction l1 as [|c l1 IH]; intros p q [|d l2] [|n] H1 H2; try done;
    cbn [strncmp take].
  - apply cstr_at_nil in H1 as [_ ->], H2 as [_ ->]. done.
  - apply cstr_at_nil in H1 as [_ ->]. apply cstr_at_cons in H2 as (_ & ? & -> & _ & _).
    cbn. split; [lia | done].
  - apply cstr_at_nil in H2 as [_ ->]. apply cstr_at_cons in H1 as (_ & ? & -> & _ & _).
    case_test; [lia |]. split; [lia | done].
  - apply cstr_at_cons in H1 as (_ & ? & -> & -> & H1).
    apply cstr_at_cons in H2 as (_ & ? & -> & -> & H2). case_test.
    + rewrite (IH _ _ _ _ H1 H2). split; congruence.
    + destruct E as [E|E]; bool_to_prop; [done |]. split; [lia | congruence].
Qed.

(** What the copying loops write: the string with its NUL, cut to [n] bytes. *)
Definition copied (n : nat) l : list Z := take n (l ++ [0]).

(** Two blocks without a common byte. *)
Definition apart (a n b k : Z) : Prop := a + n <= b \/ b + k <= a.

Lemma copied_cons n c l : copied (S n) (c :: l) = c :: copied n l.
Proof. done. Qed.

Lemma copied_nil n : copied (S n) [] = [0].
Proof. unfold copied. cbn. by rewrite take_nil. Qed.

Lemma copied_full n l : (length l < n)%nat -> copied n l = l ++ [0].
Proof. intros H. apply take_ge. rewrite length_app. cbn. lia. Qed.

Lemma copied_cut n l : (n <= length l)%nat -> copied n l = take n l.
Proof. intros H. unfold copied. by rewrite take_app_le. Qed.

Lemma copied_zlen n l : zlen (copied n l) = Z.min (Z.of_nat n) (zlen l + 1).
Proof. unfold copied, zlen. rewrite length_take, length_app. cbn. lia. Qed.

(** One step of a copying loop, from [t] to [s]. *)
Lemma store_apart m s t c l n :
  cstr_at m t (c :: l) -> apart s (Z.of_nat (S n)) t (zlen (c :: l) + 1) ->
  cstr_at (store m s c) (t + 1) l /\ apart (s + 1) (Z.of_nat n) (t + 1) (zlen l + 1).
Proof.
  intros Hl Ha. pose proof (zlen_pos l). unfold apart in *. rewrite zlen_cons in *.
  apply cstr_at_cons in Hl as (_ & _ & _ & _ & Hl). split; [| lia].
  apply (cstr_at_frame m); [done |]. intros x Hx. unfold store.
  case_test; [lia | done].
Qed.

Lemma strncpy_copy_ok m s t l n :
  cstr_at m t l -> block s (Z.of_nat n) -> apart s (Z.of_nat n) t (zlen l + 1) ->
  exists m', strncpy_copy m s t n
    = (m', (if decide (n = O) then s else u32 (s + zlen (copied n l))),
       (n - length (copied n l))%nat) /\
    (forall x, m' x = write m s (copied n l) x).
Proof.
  revert m s t l. induction n as [|n IH]; intros m s t l Hl Hb Ha.
  - exists m. split; [done |]. intros x. by rewrite write_nil.
  - rewrite decide_False by lia. destruct l as [|c l]; cbn [strncpy_copy].
    + apply cstr_at_nil in Hl as [_ ->]. rewrite copied_nil.
      eexists. split; [cbn; do 2 f_equal; lia |]. intros x. rewrite <- write_store.
      by rewrite write_nil.
    + destruct (store_apart _ _ _ _ _ _ Hl Ha) as [Hl' Ha'].
      apply cstr_at_cons in Hl as (_ & Hc & -> & -> & _). case_test; [done |].
      rewrite copied_cons, zlen_cons. cbn [length]. destruct n as [|n].
      * eexists. split; [done |]. intros x. rewrite <- write_store.
        by rewrite write_nil.
      * apply block_tail in Hb as [Hb ->].
        destruct (IH _ _ _ _ Hl' Hb Ha') as (m' & -> & Hm). exists m'. split.
        -- rewrite decide_False by lia. do 2 f_equal. f_equal. lia.
        -- intros x. by rewrite Hm, write_store.
Qed.

Lemma safestrcpy_copy_strncpy m s t n :
  safestrcpy_copy m s t n = fst (strncpy_copy m s t n).
Proof.
  revert m s t. induction n as [|n IH]; intros m s t; cbn; [done |].
  case_test; [done | apply IH].
Qed.

Lemma strcpy_ok m s t l fuel :
  cstr_at m t l -> block s (zlen l + 1) -> apart s (zlen l + 1) t (zlen l + 1) ->
  (length l < fuel)%nat ->
  exists m', strcpy fuel m s t = Some m' /\ forall x, m' x = write m s (l ++ [0]) x.
Proof.
  revert m s t fuel. induction l as [|c l IH]; intros m s t [|fuel] Hl Hb Ha Hf;
    try (cbn in Hf; lia); cbn [strcpy].
  - apply cstr_at_nil in Hl as [_ ->]. eexists. split; [done |]. intros x.
    change ([] ++ [0]) with [0]. rewrite <- write_store. by rewrite write_nil.
  - destruct (store_apart m s t c l (S (length l)) Hl) as [Hl' Ha'].
    { unfold apart, zlen in *. cbn in *. lia. }
    apply cstr_at_cons in Hl as (_ & Hc & -> & -> & _). case_test; [done |].
    rewrite u32_succ; [| unfold block, zlen in Hb; cbn in Hb; lia ..].
    destruct (IH (store m s c) (s + 1) (t + 1) fuel) as (m' & -> & Hm).
    + done.
    + unfold block, zlen in *. cbn in *. lia.
    + unfold apart, zlen in *. cbn in *. lia.
    + cbn in Hf. lia.
    + exists m'. split; [done |]. intros x. by rewrite Hm, write_store.
Qed.

(** The memory safestrcpy leaves, byte by byte. *)
Lemma safestrcpy_ok m s t l (n : Z) x :
  cstr_at m t l -> 0 < n -> block s n -> apart s n t (zlen l + 1) ->
  let w := copied (Z.to_nat (n - 1)) l in
  safestrcpy m s t n x = if decide (x = s + zlen w) then 0 else write m s w x.
Proof.
  intros Hl Hn Hb Ha w. unfold safestrcpy. case_test; [lia |].
  rewrite safestrcpy_copy_strncpy.
  destruct (strncpy_copy_ok m s t l (Z.to_nat (n - 1))) as (m' & -> & Hm);
    [done | unfold block, apart in *; lia .. |].
  fold w in Hm |- *. cbn [fst].
  assert (Hw : 0 <= zlen w <= n - 1) by (pose proof (zlen_pos l); unfold w; rewrite copied_zlen; lia).
  replace (if decide _ then s else u32 (s + zlen w)) with (s + zlen w).
  - unfold store. rewrite Hm. repeat case_test; try case_decide; lia || done.
  - case_decide; [lia |]. rewrite u32_small; [done |]. unfold is_u32, block in *. lia.
Qed.

Lemma lookup_copied n l i :
  copied n l !! i = if decide (i < n)%nat then (l ++ [0]) !! i else None.
Proof.
  unfold copied. case_decide; [by apply lookup_take_lt | apply lookup_take_ge; lia].
Qed.

Lemma write_lookup m a w i :
  write m a w (a + Z.of_nat i) = default (m (a + Z.of_nat i)) (w !! i).
Proof.
  unfold write. replace (a + Z.of_nat i - a) with (Z.of_nat i) by lia. by rewrite zlookup_of_nat.
Qed.

Lemma lookup_read m a (n : Z) (i : nat) :
  read m a n !! i = if decide (Z.of_nat i < n) then Some (m (a + Z.of_nat i)) else None.
Proof.
  unfold read. rewrite list_lookup_fmap. case_decide.
  - rewrite lookup_seqZ_lt by lia. cbn. do 2 f_equal.
  - by rewrite lookup_seqZ_ge by lia.
Qed.

Lemma cstr_at_prefix m a l : cstr_at m a l -> cstr_prefix l = l.
Proof.
  revert a. induction l as [|c l IH]; intros a H; [done |].
  apply cstr_at_cons in H as (_ & Hc & _ & _ & H). cbn. case_test; [done |].
  f_equal. by eapply IH.
Qed.

(** The array version: the copied bytes, a NUL, and the old tail. *)
Lemma safestrcpy16_eq dst l :
  cstr_prefix l = l ->
  safestrcpy16 dst l = copied 15 l ++ 0 :: drop (S (length (copied 15 l))) dst.
Proof.
  intros E. unfold safestrcpy16. rewrite E, length_take. case_test.
  - apply Nat.ltb_lt in E0. rewrite take_ge, copied_full by lia.
    rewrite <- app_assoc, length_app. cbn [app length].
    by replace (15 `min` length l + 2)%nat with (S (length l + 1)) by lia.
  - apply Nat.ltb_ge in E0. rewrite copied_cut, length_take by lia. cbn [app length].
    by rewrite Nat.add_1_r.
Qed.

(** strncpy pads with NULs, and does not terminate a string of [n] bytes or more. *)
Lemma strncpy_ok m s t l (n : Z) x :
  cstr_at m t l -> 0 <= n -> block s n -> apart s n t (zlen l + 1) ->
  strncpy m s t n x
  = write m s (take (Z.to_nat n) (l ++ replicate (Z.to_nat n) 0)) x.
Proof.
  intros Hl Hn Hb Ha. unfold strncpy.
  destruct (strncpy_copy_ok m s t l (Z.to_nat n)) as (m' & -> & Hm);
    [done | unfold block, apart in *; lia .. |]. cbv beta iota zeta.
  pose proof (zlen_pos l).
  destruct (decide (n <= zlen l + 1)) as [Hle|Hgt].
  - replace (Z.to_nat n - length (copied (Z.to_nat n) l))%nat with 0%nat.
    2: { pose proof (copied_zlen (Z.to_nat n) l). unfold zlen in *. lia. }
    cbn [stosb]. rewrite Hm. f_equal. apply list_eq. intros i. rewrite lookup_copied.
    destruct (decide (i < Z.to_nat n)%nat).
    + rewrite lookup_take_lt by done.
      destruct (decide (i < length l)%nat); [by rewrite !lookup_app_l by done |].
      rewrite !lookup_app_r by lia. replace (i - length l)%nat with 0%nat by (unfold zlen in *; lia).
      symmetry. apply lookup_replicate_2. lia.
    + symmetry. apply lookup_take_ge. lia.
  - rewrite copied_full in * by (unfold zlen in *; lia). rewrite decide_False by lia.
    rewrite length_app. cbn [length].
    assert (Hz : zlen (l ++ [0]) = zlen l + 1) by (unfold zlen; rewrite length_app; cbn; lia).
    rewrite Hz, u32_small by (unfold is_u32, block in *; lia).
    rewrite stosb_spec by (unfold block, zlen in *; lia). rewrite Hm. unfold write.
    destruct (decide (s <= x < s + n)) as [Hx|Hx].
    + replace (x - s) with (Z.of_nat (Z.to_nat (x - s))) by lia. rewrite !zlookup_of_nat.
      rewrite lookup_take_lt by lia.
      destruct (decide (x - s < zlen l)) as [Hi|Hi].
      * rewrite decide_False by (unfold zlen in *; lia).
        by rewrite !lookup_app_l by (unfold zlen in *; lia).
      * rewrite (lookup_app_r l (replicate _ _)) by (unfold zlen in *; lia).
        rewrite lookup_replicate_2 by (unfold zlen in *; lia). cbn. case_decide; [done |].
        rewrite lookup_app_r by (unfold zlen in *; lia).
        by replace (Z.to_nat (x - s) - length l)%nat with 0%nat by (unfold zlen in *; lia).
    + rewrite decide_False by (unfold zlen in *; lia).
      assert (Hout : forall w, zlen w <= n -> zlookup w (x - s) = None).
      { intros w Hw. destruct (zlookup w (x - s)) eqn:E; [| done].
        apply zlookup_Some_range in E. lia. }
      rewrite !Hout; [done | |].
      * unfold zlen. rewrite length_take. lia.
      * lia.
Qed.

Lemma read_S m a n : read m a (Z.of_nat (S n)) = m a :: read m (a + 1) (Z.of_nat n).
Proof.
  unfold read. rewrite seqZ_cons by lia. cbn [fmap list_fmap]. f_equal; [f_equal; lia |].
  replace (Z.pred (Z.of_nat (S n))) with (Z.of_nat n) by lia.
  change (Z.succ 0) with (1 + 0). rewrite <- (fmap_add_seqZ 1 0), <- list_fmap_compose.
  apply list_fmap_ext. intros i x _. cbn. f_equal. lia.
Qed.

Lemma memcmp_ok m p q n :
  block p (Z.of_nat n) -> block q (Z.of_nat n) ->
  memcmp m p q n = 0 <-> read m p (Z.of_nat n) = read m q (Z.of_nat n).
Proof.
  revert p q. induction n as [|n IH]; intros p q Hp Hq; [done |].
  rewrite !read_S. cbn [memcmp]. case_test.
  - split; [intros; lia | congruence].
  - destruct n as [|n]; [by cbn; rewrite E |].
    apply block_tail in Hp as [Hp ->], Hq as [Hq ->].
    rewrite (IH _ _ Hp Hq). split; congruence.
Qed.
End strings.

(** gets reads one line: everything up to and including the first newline or
    carriage return, at most [max - 1] bytes, and terminates it. *)
Fixpoint line (max : nat) (input : list Z) : list Z :=
  match max, input with
  | S max, c :: input => if (c =? 10) || (c =? 13) then [c] else c :: line max input
  | _, _ => []
  end.

Lemma length_line max input : (length (line max input) <= max)%nat.
Proof.
  revert input. induction max as [|max IH]; intros [|c input]; cbn; try lia.
  case_test; cbn; [lia |]. specialize (IH input). lia.
Qed.

Lemma cgets_loop_ok m buf i (max : Z) input :
  0 <= i -> i < max -> block buf max ->
  exists m', cgets_loop m buf i max input
             = (m', i + zlen (line (Z.to_nat (max - 1 - i)) input)) /\
    forall x, m' x = write m (buf + i) (line (Z.to_nat (max - 1 - i)) input) x.
Proof.
  revert m i. induction input as [|c input IH]; intros m i Hi Hmax Hb; cbn [cgets_loop].
  - replace (line (Z.to_nat (max - 1 - i)) []) with (@nil Z) by (by destruct (Z.to_nat _)).
    exists m. split; [f_equal; unfold zlen; cbn; lia |]. intros x. by rewrite write_nil.
  - case_test.
    + replace (Z.to_nat (max - 1 - i)) with (S (Z.to_nat (max - 1 - (i + 1)))) by lia. cbn [line].
      rewrite u32_small by (unfold is_u32, block in *; lia). case_test.
      * eexists. split; [done |]. intros x. rewrite <- write_store. by rewrite write_nil.
      * destruct (IH (store m (buf + i) c) (i + 1)) as (m' & -> & Hm); [lia.. | done |].
        exists m'. rewrite zlen_cons. split; [f_equal; lia |].
        intros x. rewrite Hm, Z.add_assoc. apply write_store.
    + replace (Z.to_nat (max - 1 - i)) with 0%nat by lia. exists m.
      split; [f_equal; unfold zlen; cbn; lia |]. intros x. by rewrite write_nil.
Qed.

Lemma cgets_ok m buf (max : Z) input :
  0 < max -> block buf max ->
  forall x, cgets m buf max input x = write m buf (line (Z.to_nat (max - 1)) input ++ [0]) x.
Proof.
  intros Hmax Hb x. unfold cgets.
  destruct (cgets_loop_ok m buf 0 max input) as (m' & -> & Hm); [lia.. | done |].
  rewrite Z.sub_0_r, Z.add_0_r in *. pose proof (length_line (Z.to_nat (max - 1)) input).
  set (l := line _ _) in *. rewrite u32_small by (unfold is_u32, block, zlen in *; lia).
  unfold store. rewrite Hm. unfold write. case_test.
  - subst x. replace (buf + (0 + zlen l) - buf) with (Z.of_nat (length l)) by (unfold zlen; lia).
    rewrite zlookup_of_nat, lookup_app_r by lia. by rewrite Nat.sub_diag.
  - f_equal. unfold zlookup. case_decide; [| done].
    destruct (decide (Z.to_nat (x - buf) < length l)%nat).
    + by rewrite lookup_app_l.
    + rewrite lookup_app_r by lia. rewrite lookup_ge_None_2 by lia.
      symmetry. apply lookup_ge_None_2. unfold zlen in *. cbn. lia.
Qed.

(** Copying upwards into a block that begins [g] bytes further on repeats the first
    [g] bytes. *)
Lemma copy_up_smears m s g n x :
  0 < g -> block s (g + Z.of_nat n) -> s + g <= x < s + g + Z.of_nat n ->
  copy_up m (s + g) s n x = m (s + (x - (s + g)) mod g).
Proof.
  intros Hg. revert m s. induction n as [|n IH]; intros m s Hb Hx; [lia |].
  cbn [copy_up]. destruct (decide (x = s + g)) as [->|Hne].
  - rewrite Z.sub_diag, Z.mod_0_l, Z.add_0_r by lia. destruct n as [|n].
    + cbn. unfold store. by rewrite Z.eqb_refl.
    + rewrite !u32_small by (unfold is_u32, block in *; lia).
      assert (Hkeep : forall n m' d s', block d (Z.of_nat n) -> s + g < d ->
                copy_up m' d s' n (s + g) = m' (s + g)).
      { clear. induction n as [|[|n] IHn]; intros m' d s' Hd Hlt; [done | |].
        - cbn. unfold store. case_test; [lia | done].
        - apply block_tail in Hd as [Hd Ed]. cbn [copy_up] in IHn |- *. rewrite Ed.
          rewrite IHn by (done || lia). unfold store. case_test; [lia | done]. }
      rewrite Hkeep by (unfold block in *; lia). unfold store. by rewrite Z.eqb_refl.
  - rewrite !u32_small by (unfold is_u32, block in *; lia).
    replace (s + g + 1) with (s + 1 + g) by lia.
    rewrite IH by (unfold block in *; lia).
    set (y := x - (s + g)). replace (x - (s + 1 + g)) with (y - 1) by lia.
    pose proof (Z.mod_pos_bound (y - 1) g Hg).
    assert (Hy : y mod g = if decide ((y - 1) mod g = g - 1) then 0 else (y - 1) mod g + 1).
    { case_decide as E; symmetry.
      - apply (Z.mod_unique_pos _ _ ((y - 1) / g + 1)); [lia |].
        pose proof (Z.div_mod (y - 1) g ltac:(lia)). lia.
      - apply (Z.mod_unique_pos _ _ ((y - 1) / g)); [lia |].
        pose proof (Z.div_mod (y - 1) g ltac:(lia)). lia. }
    rewrite Hy. unfold store. case_test; case_decide; try lia; f_equal; lia.
Qed.

(** ** Claims *)

(** Memmove.  For blocks inside the 32-bit address space, the kernel's memmove
    copies the old contents of the source to the destination and changes nothing
    else, however the two overlap: it copies downwards when the source begins below
    the destination and reaches into it.  The user library's memmove always copies
    upwards: it agrees in every other case, and in that one it repeats the first
    [dst - src] bytes of the source instead. *)
Theorem memmove_copies (m : memory) (dst src n : Z) :
  block dst n -> block src n -> src + n < 2 ^ 32 ->
  (forall x, memmove m dst src n x
             = if decide (dst <= x < dst + n) then m (src + (x - dst)) else m x) /\
  (~ (src < dst < src + n) -> forall x, umemmove m dst src n x = memmove m dst src n x) /\
  (src < dst < src + n -> forall x, dst <= x < dst + n ->
     umemmove m dst src n x = m (src + (x - dst) mod (dst - src))).
Proof.
  intros Hd Hs Hlt. split_and!.
  - intros x. by apply memmove_ok.
  - intros Ho x. rewrite memmove_ok by done. unfold umemmove, block in *.
    rewrite copy_up_spec; rewrite ?Z2Nat.id; unfold block; done || lia.
  - intros Ho x Hx. unfold umemmove, block in *.
    pose proof (copy_up_smears m src (dst - src) (Z.to_nat n) x) as H.
    replace (src + (dst - src)) with dst in H by lia. apply H; unfold block; lia.
Qed.

Lemma memmove_copies_witness :
  memmove (fun a => u8 a) 102 100 4 105 = 103 /\ umemmove (fun a => u8 a) 102 100 4 105 = 101.
Proof.
  destruct (memmove_copies (fun a => u8 a) 102 100 4) as (H1 & _ & H3);
    [unfold block; lia .. |].
  split; [rewrite H1 | rewrite H3 by lia]; vm_compute; reflexivity.
Defined.

(** Safestrcpy.  Copying a string of any length into an array of [n] bytes leaves
    there a NUL-terminated string, the first [n - 1] characters of the source at
    most; it writes no byte outside the array.  For the 16 bytes of a process name
    it leaves exactly the array that fork() and userinit() are modelled with. *)
Theorem safestrcpy_safe (m : memory) (s t n : Z) (l : list Z) :
  cstr_at m t l -> 0 < n -> block s n -> apart s n t (zlen l + 1) ->
  let m' := safestrcpy m s t n in
  cstr_at m' s (take (Z.to_nat (n - 1)) l) /\
  (forall x, ~ (s <= x < s + n) -> m' x = m x) /\
  (n = 16 -> read m' s 16 = safestrcpy16 (read m s 16) l).
Proof.
  intros Hl Hn Hb Ha m'. pose proof (zlen_pos l).
  assert (Hm : forall i : nat, m' (s + Z.of_nat i) =
    if decide (Z.of_nat i = zlen (copied (Z.to_nat (n - 1)) l)) then 0
    else default (m (s + Z.of_nat i)) (copied (Z.to_nat (n - 1)) l !! i)).
  { intros i. unfold m'. rewrite (safestrcpy_ok m s t l), write_lookup by done.
    repeat case_decide; lia || done. }
  pose proof (copied_zlen (Z.to_nat (n - 1)) l) as Hlen. split_and!.
  - split_and!.
    + unfold block, zlen in *. rewrite length_take. lia.
    + intros i x Hi. apply lookup_take_Some in Hi as [Hi Hlt]. rewrite Hm.
      pose proof (lookup_lt_Some _ _ _ Hi). rewrite decide_False by (unfold zlen in *; lia).
      rewrite lookup_copied, decide_True, lookup_app_l, Hi by (unfold zlen in *; lia).
      destruct Hl as (_ & Hl & _). by destruct (Hl i x Hi).
    + unfold zlen at 1. rewrite Hm. case_decide; [done |]. rewrite length_take in *.
      rewrite lookup_copied, decide_True, lookup_app_r by (unfold zlen in *; lia).
      by replace (_ - _)%nat with 0%nat by (unfold zlen in *; lia).
  - intros x Hx. unfold m'. rewrite (safestrcpy_ok m s t l) by done.
    rewrite decide_False by lia. apply write_outside. lia.
  - intros ->. apply list_eq. intros i.
    rewrite lookup_read, safestrcpy16_eq by (by eapply cstr_at_prefix).
    change (Z.to_nat (16 - 1)) with 15%nat in *. set (w := copied 15 l) in *.
    rewrite Hm. unfold zlen in Hlen |- *. destruct (decide (i < length w)%nat) as [Hi|Hi].
    + rewrite lookup_app_l, (decide_True (P := Z.of_nat i < 16)) by lia.
      rewrite decide_False by lia.
      by destruct (lookup_lt_is_Some_2 w i Hi) as [b ->].
    + rewrite lookup_app_r by lia. rewrite (lookup_ge_None_2 w) by lia. cbn [default].
      destruct (i - length w)%nat as [|j] eqn:Ej.
      * by rewrite !decide_True by lia.
      * rewrite lookup_cons_ne_0 by lia. cbn [Nat.pred].
        rewrite (decide_False (P := Z.of_nat i = _)) by lia. rewrite lookup_drop.
        rewrite lookup_read. by replace (S (length w) + j)%nat with i by lia.
Qed.

Lemma safestrcpy_safe_witness :
  let m := write (fun _ => 7) 100 ([115; 104] ++ [0]) in
  cstr_at (safestrcpy m 200 100 16) 200 [115; 104] /\
  read (safestrcpy m 200 100 16) 200 16 = safestrcpy16 (replicate 16 7) [115; 104].
Proof.
  intros m. destruct (safestrcpy_safe m 200 100 16 [115; 104]) as (H1 & _ & H3).
  - split_and!; [unfold block; vm_compute; split_and!; done | | done].
    intros [|[|i]] x Hi; cbn in Hi; simplify_eq; vm_compute; done.
  - lia.
  - unfold block. lia.
  - unfold apart. vm_compute. right. done.
  - split; [exact H1 |]. rewrite H3 by lia. vm_compute. reflexivity.
Defined.
