(* ===== verification/Printf.v ===== *)
(** * Formatted output

    printint and cprintf of console.c, printint and printf of printf.c.  A format
    and its arguments give the characters that are printed, in order.  An argument
    list that does not fit the format, or a number that does not fit [buf[16]], is
    undefined behaviour in C and [None] here. *)

From stdpp Require Import pretty.
From Stdlib Require Import Ascii.
From Stdlib Require String.
From S2P Require Import Prelude CString.

Section ops.

(** The words behind the format: integers and pointers to strings (null is
    [AStr None]). *)
Inductive carg := AInt (x : Z) | AStr (s : option string).

(** [digits[]] of console.c ([up = false]) and of printf.c ([up = true]). *)
Definition digits (up : bool) : string :=
  if up then "0123456789ABCDEF" else "0123456789abcdef".
Definition digit (up : bool) (d : Z) : ascii :=
  default "?"%char (String.list_ascii_of_string (digits up) !! Z.to_nat d).

(** [do { buf[i++] = digits[x % base]; } while((x /= base) != 0);]
    [room] is what is left of the array. *)
Fixpoint put_digits (room : nat) (up : bool) (base x : Z) (buf : list ascii) :
    option (list ascii) :=
  match room with
  | O => None
  | S room =>
      let buf := buf ++ [digit up (x mod base)] in
      let x := x / base in
      if x =? 0 then Some buf else put_digits room up base x buf
  end.

Definition printint (up : bool) (xx base : Z) (sgn : bool) : option string :=
  let neg := sgn && (xx <? 0) in
  let x := if neg then u32 (- xx) else u32 xx in
  buf ← put_digits 16 up base x [];
  let buf := if neg then buf ++ ["-"%char] else buf in
  if (length buf <=? 16)%nat then Some (String.string_of_list_ascii (reverse buf)) else None.

(** One conversion: the character after [%], the text and the remaining arguments. *)
Definition kconv (up : bool) (c : ascii) (args : list carg) : option (string * list carg) :=
  match c, args with
  | "d"%char, AInt x :: args => s ← printint up (s32 x) 10 true; Some (s, args)
  | ("x" | "p")%char, AInt x :: args => s ← printint up (s32 x) 16 false; Some (s, args)
  | "s"%char, AStr s :: args => Some (default "(null)" s, args)
  | ("d" | "x" | "p" | "s")%char, _ => None
  | "%"%char, _ => Some ("%", args)
  | c, _ => Some (String "%" (String c ""), args)
  end.

(** cprintf: [c = fmt[++i]] looks ahead; a format that ends in [%] stops there. *)
Fixpoint kfmt (up : bool) (fmt : string) (args : list carg) : option string :=
  match fmt with
  | "" => Some ""
  | String "%" "" => Some ""
  | String "%" (String c fmt) =>
      r ← kconv up c args;
      t ← kfmt up fmt (snd r);
      Some (fst r +:+ t)
  | String c fmt => String c <$> kfmt up fmt args
  end.

Definition cprintf_text : string -> list carg -> option string := kfmt false.

(** printf: a state machine, with the additional conversion [%c]. *)
Definition uconv (up : bool) (c : ascii) (args : list carg) : option (string * list carg) :=
  match c, args with
  | "c"%char, AInt x :: args => Some (String (ascii_of_N (Z.to_N (u8 x))) "", args)
  | "c"%char, _ => None
  | c, _ => kconv up c args
  end.

Fixpoint ufmt (up : bool) (state : bool) (fmt : string) (args : list carg) : option string :=
  match fmt with
  | "" => Some ""
  | String c fmt =>
      if negb state then
        if Ascii.eqb c "%" then ufmt up true fmt args
        else String c <$> ufmt up false fmt args
      else
        r ← uconv up c args;
        t ← ufmt up false fmt (snd r);
        Some (fst r +:+ t)
  end.

(** The Rocq string of a NUL-terminated byte array. *)
Definition cstring (l : list Z) : string :=
  String.string_of_list_ascii ((fun b => ascii_of_N (Z.to_N b)) <$> cstr_prefix l).

Definition printf_text : string -> list carg -> option string := ufmt true false.
End ops.

(** ** Digits *)

Section digits.
Implicit Types (ds : list Z) (buf : list ascii).

(** The number whose digits, lowest first, are [ds]. *)
Definition value (base : Z) ds : Z := foldr (fun d n => d + base * n) 0 ds.

(** A number below [base ^ n] needs at most [n] places of the buffer. *)
Lemma put_digits_ok (n room : nat) up base x buf :
  2 <= base -> (0 < n <= room)%nat -> 0 <= x < base ^ Z.of_nat n ->
  exists ds, put_digits room up base x buf = Some (buf ++ (digit up <$> ds)) /\
    (length ds <= n)%nat /\ Forall (fun d => 0 <= d < base) ds /\ value base ds = x.
Proof.
  intros Hbase. revert room x buf.
  induction n as [|n IH]; intros [|room] x buf Hn Hx; try lia.
  cbn [put_digits]. pose proof (Z.mod_pos_bound x base ltac:(lia)).
  pose proof (Z.div_mod x base ltac:(lia)). case_test.
  - exists [x mod base]. split_and!; [done | cbn; lia | by apply Forall_singleton | cbn; lia].
  - rewrite Nat2Z.inj_succ, Z.pow_succ_r in Hx by lia.
    assert (Hq : 0 <= x / base < base ^ Z.of_nat n).
    { split; [apply Z.div_pos; lia | apply Z.div_lt_upper_bound; lia]. }
    assert (n <> 0%nat) by (intros ->; cbn in Hq; lia).
    destruct (IH room (x / base) (buf ++ [digit up (x mod base)]))
      as (ds & -> & Hlen & Hds & Hv); [lia | done |].
    exists (x mod base :: ds).
    split_and!; [by rewrite <- app_assoc | cbn; lia | by constructor |].
    cbn [value foldr]. fold (value base ds). lia.
Qed.

Lemma digit_pretty up d : 0 <= d < 10 -> digit up d = pretty_N_char (Z.to_N d).
Proof.
  intros Hd. assert (Hall : d ∈ seqZ 0 10) by (apply elem_of_seqZ; lia).
  repeat (apply elem_of_cons in Hall as [-> | Hall]; [by destruct up |]).
  by apply elem_of_nil in Hall.
Qed.

Lemma string_of_snoc (l : list ascii) c s :
  String.string_of_list_ascii (l ++ [c]) +:+ s = String.string_of_list_ascii l +:+ String c s.
Proof. induction l as [|a l IH]; [done | exact (f_equal (String a) IH)]. Qed.

(** The loop produces the digits of stdpp's decimal printer. *)
Lemma put_digits_pretty room up x buf :
  0 < x < 10 ^ Z.of_nat room ->
  exists b, put_digits room up 10 x buf = Some (buf ++ b) /\
    forall s, pretty_N_go (Z.to_N x) s = String.string_of_list_ascii (reverse b) +:+ s.
Proof.
  revert x buf. induction room as [|room IH]; intros x buf Hx.
  { change (10 ^ Z.of_nat 0) with 1 in Hx. lia. }
  cbn [put_digits]. pose proof (Z.mod_pos_bound x 10 ltac:(lia)).
  assert (Hstep : forall s, pretty_N_go (Z.to_N x) s
    = pretty_N_go (Z.to_N (x / 10)) (String (digit up (x mod 10)) s)).
  { intros s. rewrite pretty_N_go_step by lia. rewrite digit_pretty by lia.
    by rewrite Z2N.inj_div, Z2N.inj_mod by lia. }
  case_test.
  - eexists. split; [done |]. intros s. rewrite Hstep, E. done.
  - assert (0 < x / 10) by (pose proof (Z.div_pos x 10 ltac:(lia) ltac:(lia)); lia).
    destruct (IH (x / 10) (buf ++ [digit up (x mod 10)])) as (b & -> & Hb).
    { rewrite Nat2Z.inj_succ, Z.pow_succ_r in Hx by lia.
      split; [done | apply Z.div_lt_upper_bound; lia]. }
    eexists. split; [by rewrite <- app_assoc |]. intros s.
    rewrite Hstep, Hb, reverse_app. cbn [reverse rev_append]. symmetry. apply string_of_snoc.
Qed.

Lemma u32_opp_neg x : is_s32 x -> x < 0 -> u32 (- x) = - x.
Proof. intros H Hx. apply u32_small. unfold is_u32, is_s32 in *. lia. Qed.

(** The 32-bit number that printint prints, and its digits. *)
Lemma printint_digits up x base sgn :
  is_s32 x -> base = 10 \/ base = 16 ->
  let neg := sgn && (x <? 0) in
  exists ds, printint up x base sgn
    = Some (String.string_of_list_ascii
              ((if neg then ["-"%char] else []) ++ (digit up <$> reverse ds))) /\
    (length ds <= 10)%nat /\ Forall (fun d => 0 <= d < base) ds /\
    value base ds = if neg then - x else u32 x.
Proof.
  intros Hx Hbase neg. unfold printint. fold neg.
  assert (Hneg : neg = true -> x < 0) by (unfold neg; intros; by bool_to_prop).
  clearbody neg.
  set (v := if neg then u32 (- x) else u32 x).
  assert (Hv : 0 <= v < 2 ^ 32) by (unfold v; destruct neg; apply u32_range).
  assert (2 ^ 32 <= base ^ 10) by (destruct Hbase; subst; lia).
  destruct (put_digits_ok 10 16 up base v []) as (ds & -> & Hlen & Hds & Hval); [lia.. |].
  exists ds. cbn [mbind option_bind app]. split_and!; [| done | done |].
  - rewrite fmap_reverse.
    destruct neg; rewrite (proj2 (Nat.leb_le _ _))
      by (rewrite ?length_app, length_fmap; cbn; lia); [by rewrite reverse_app | done].
  - rewrite Hval. unfold v. destruct neg; [| done]. apply u32_opp_neg; auto.
Qed.
End digits.

(** ** Reading numbers back *)

Section roundtrip.
Implicit Types (m : memory) (ds : list Z).

(** The characters of a string as the bytes C stores. *)
Definition byte_of (c : ascii) : Z := Z.of_N (N_of_ascii c).
Definition bytes (s : string) : list Z := byte_of <$> String.list_ascii_of_string s.

Lemma bytes_of_list (l : list ascii) : bytes (String.string_of_list_ascii l) = byte_of <$> l.
Proof. unfold bytes. by rewrite String.list_ascii_of_string_of_list_ascii. Qed.

Lemma digit_byte up d : 0 <= d < 10 -> byte_of (digit up d) = 48 + d.
Proof.
  intros Hd. assert (Hall : d ∈ seqZ 0 10) by (apply elem_of_seqZ; lia).
  repeat (apply elem_of_cons in Hall as [-> | Hall]; [by destruct up |]).
  by apply elem_of_nil in Hall.
Qed.

(** The number atoi computes from digits, highest first, after [n]. *)
Definition horner (n : Z) ds : Z := fold_left (fun n d => n * 10 + d) ds n.

Lemma horner_value ds : horner 0 (reverse ds) = value 10 ds.
Proof.
  induction ds as [|d ds IH]; [done |].
  rewrite reverse_cons. unfold horner in *. rewrite fold_left_app, IH.
  cbn [value foldr fold_left]. fold (value 10 ds). lia.
Qed.

Lemma horner_mono n ds : 0 <= n -> Forall (fun d => 0 <= d < 10) ds -> n <= horner n ds.
Proof.
  intros Hn H. revert n Hn. induction H as [|d ds Hd _ IH]; intros n Hn; cbn; [lia |].
  specialize (IH (n * 10 + d) ltac:(lia)). unfold horner in IH. lia.
Qed.

Lemma atoi_loop_ok m a up ds n (fuel : nat) :
  cstr_at m a (byte_of <$> (digit up <$> ds)) -> Forall (fun d => 0 <= d < 10) ds ->
  0 <= n -> horner n ds < 2 ^ 31 -> (length ds < fuel)%nat ->
  atoi_loop fuel m a n = Some (horner n ds).
Proof.
  intros Hm Hds. revert a n fuel Hm.
  induction Hds as [|d ds Hd Hds IH]; intros a n [|fuel] Hm Hn Hlt Hf; try (cbn in Hf; lia);
    cbn [atoi_loop].
  - apply cstr_at_nil in Hm as [_ ->]. done.
  - apply cstr_at_cons in Hm as (_ & _ & -> & -> & Hm). rewrite digit_byte by done.
    cbn [horner fold_left] in *. fold (horner (n * 10 + d) ds) in *.
    pose proof (horner_mono (n * 10 + d) ds ltac:(lia) Hds). case_test.
    + replace (n * 10 + (48 + d) - 48) with (n * 10 + d) by lia.
      rewrite s32_small by (unfold is_s32; lia). apply IH; [done | lia | done |]. cbn in Hf. lia.
    + destruct E as [E|E]; bool_to_prop; lia.
Qed.

(** printint prints what stdpp's printer for [Z] prints. *)
Lemma printint_pretty up x : is_s32 x -> printint up x 10 true = Some (pretty x).
Proof.
  intros Hx. unfold printint. rewrite andb_true_l.
  assert (Hpos : forall p buf, is_u32 (Z.pos p) -> exists b,
    put_digits 16 up 10 (Z.pos p) buf = Some (buf ++ b) /\ (length b <= 10)%nat /\
    String.string_of_list_ascii (reverse b) = pretty (Npos p)).
  { intros p buf Hp. destruct (put_digits_pretty 16 up (Z.pos p) buf) as (b & E & Hb).
    { unfold is_u32 in Hp. lia. }
    destruct (put_digits_ok 10 16 up 10 (Z.pos p) buf) as (ds & E' & Hlen & _);
      [lia | lia | unfold is_u32 in Hp; lia |].
    exists b. rewrite E in E'. simplify_eq. split_and!; [done | by rewrite length_fmap |].
    specialize (Hb ""). cbn [Z.to_N] in Hb. unfold pretty, pretty_N.
    rewrite decide_False by done. rewrite Hb.
    generalize (String.string_of_list_ascii (reverse (digit up <$> ds))). clear.
    intros s. induction s as [|c s IH]; [done | exact (f_equal (String c) IH)]. }
  destruct x as [|p|p]; cbn [Z.ltb Z.compare].
  - by destruct up.
  - rewrite u32_small by (unfold is_u32, is_s32 in *; lia).
    destruct (Hpos p []) as (b & -> & Hlen & Hb); [unfold is_u32, is_s32 in *; lia |].
    cbn [mbind option_bind app]. by rewrite (proj2 (Nat.leb_le _ _)), Hb by lia.
  - rewrite u32_opp_neg by (done || lia). change (- Z.neg p) with (Z.pos p).
    destruct (Hpos p []) as (b & -> & Hlen & Hb); [unfold is_u32, is_s32 in *; lia |].
    cbn [mbind option_bind app].
    rewrite (proj2 (Nat.leb_le _ _)) by (rewrite length_app; cbn; lia).
    rewrite reverse_app. cbn [reverse rev_append app]. f_equal.
    exact (f_equal (String "-") Hb).
Qed.
End roundtrip.

(** ** The two formatters *)

(** The conversion characters of a format. *)
Fixpoint convs (state : bool) (fmt : string) : list ascii :=
  match fmt with
  | "" => []
  | String c fmt =>
      if state then c :: convs false fmt
      else convs (Ascii.eqb c "%") fmt
  end.

Lemma kfmt_cons up c fmt args :
  c <> "%"%char -> kfmt up (String c fmt) args = String c <$> kfmt up fmt args.
Proof.
  intros Hc. destruct c as [[] [] [] [] [] [] [] []]; try done; by destruct Hc.
Qed.

Lemma uconv_kconv up c args : c <> "c"%char -> uconv up c args = kconv up c args.
Proof.
  intros Hc. destruct c as [[] [] [] [] [] [] [] []]; try done; by destruct Hc.
Qed.

Lemma kconv_case up c args :
  c <> "x"%char -> c <> "p"%char -> kconv up c args = kconv false c args.
Proof.
  intros Hx Hp.
  destruct (decide (c = "d"%char)) as [->|Hd].
  - destruct args as [|[x|s] args]; [done | | done].
    cbn [kconv]. by rewrite !(printint_pretty _ _ (s32_range x)).
  - destruct c as [[] [] [] [] [] [] [] []];
      first [by destruct Hx | by destruct Hp | by destruct Hd | reflexivity].
Qed.

Lemma bind_ext_fmt {A B} (m : option A) (f g : A -> option B) :
  (forall a, f a = g a) -> (m ≫= f) = (m ≫= g).
Proof. intros H. destruct m; cbn; auto. Qed.

Lemma ufmt_kfmt up fmt :
  (forall args, "c"%char ∉ convs false fmt -> ufmt up false fmt args = kfmt up fmt args) /\
  (forall args, "c"%char ∉ convs true fmt ->
     ufmt up true fmt args = kfmt up (String "%" fmt) args).
Proof.
  induction fmt as [|c fmt [IH1 IH2]]; split; intros args Hc; [done.. | |]; cbn [convs] in Hc.
  - destruct (Ascii.eqb_spec c "%") as [->|Hne]; [by apply IH2 |].
    rewrite kfmt_cons by done. cbn [ufmt negb].
    destruct (Ascii.eqb_spec c "%") as [|_]; [done |]. by rewrite IH1.
  - apply not_elem_of_cons in Hc as [Hne Hc].
    change (ufmt up true (String c fmt) args)
      with (r ← uconv up c args; t ← ufmt up false fmt (snd r); Some (fst r +:+ t)).
    change (kfmt up (String "%" (String c fmt)) args)
      with (r ← kconv up c args; t ← kfmt up fmt (snd r); Some (fst r +:+ t)).
    rewrite uconv_kconv by done. apply bind_ext_fmt. intros r. by rewrite IH1.
Qed.

Lemma kfmt_case up fmt :
  (forall args, "x"%char ∉ convs false fmt -> "p"%char ∉ convs false fmt ->
     kfmt up fmt args = kfmt false fmt args) /\
  (forall args, "x"%char ∉ convs true fmt -> "p"%char ∉ convs true fmt ->
     kfmt up (String "%" fmt) args = kfmt false (String "%" fmt) args).
Proof.
  induction fmt as [|c fmt [IH1 IH2]]; split; intros args Hx Hp; [done.. | |];
    cbn [convs] in Hx, Hp.
  - destruct (Ascii.eqb_spec c "%") as [->|Hne]; [by apply IH2 |].
    rewrite !kfmt_cons by done. by rewrite IH1.
  - apply not_elem_of_cons in Hx as [Hne Hx], Hp as [Hne' Hp].
    change ((r ← kconv up c args; t ← kfmt up fmt (snd r); Some (fst r +:+ t))
          = (r ← kconv false c args; t ← kfmt false fmt (snd r); Some (fst r +:+ t))).
    rewrite kconv_case by done. apply bind_ext_fmt. intros r. by rewrite IH1.
Qed.

(** ** Claims *)

(** Decimal output and input.  For every 32-bit int, including the smallest one,
    printint prints its usual decimal notation within the 16 bytes of its buffer;
    and atoi, run on these characters in memory, gives the number back when it is
    not negative, and 0 otherwise since it does not know the sign. *)
Theorem decimal_roundtrip (up : bool) (x : Z) :
  is_s32 x ->
  exists s, printint up x 10 true = Some s /\ s = pretty x /\ (length (bytes s) <= 11)%nat /\
    forall m a, cstr_at m a (bytes s) -> atoi 12 m a = Some (if x <? 0 then 0 else x).
Proof.
  intros Hx. exists (pretty x). split_and!; [by apply printint_pretty | done | |].
  all: destruct (printint_digits up x 10 true Hx (or_introl eq_refl)) as (ds & E & Hlen & Hds & Hv);
    rewrite printint_pretty in E by done; injection E as ->; rewrite bytes_of_list, andb_true_l in *.
  - rewrite length_fmap, length_app, length_fmap, length_reverse. case_test; cbn; lia.
  - intros m a Hm. unfold atoi. case_test.
    + apply cstr_at_cons in Hm as (_ & _ & E' & _). cbn [atoi_loop].
      by rewrite E'.
    + cbn [app] in Hm. rewrite (atoi_loop_ok m a up (reverse ds)).
      * rewrite horner_value, Hv. f_equal. apply u32_small. unfold is_u32, is_s32 in *. lia.
      * done.
      * by apply Forall_reverse.
      * lia.
      * rewrite horner_value, Hv, u32_small; unfold is_u32, is_s32 in *; lia.
      * rewrite length_reverse. lia.
Qed.

Lemma decimal_roundtrip_witness :
  exists s, printint false (-2147483648) 10 true = Some s /\ s = "-2147483648"%string.
Proof.
  destruct (decimal_roundtrip false (-2147483648)) as (s & E & -> & _).
  - unfold is_s32. lia.
  - eexists. split; [exact E |]. vm_compute. reflexivity.
Defined.

(** The two printf's.  The state machine of the user library's printf and the
    look-ahead of the kernel's cprintf print the same text for the same format and
    arguments, if the format does not use [%c], which only printf knows, and up to
    the case of hexadecimal digits. *)
Theorem printf_cprintf (fmt : string) (args : list carg) :
  "c"%char ∉ convs false fmt ->
  (forall up, ufmt up false fmt args = kfmt up fmt args) /\
  ("x"%char ∉ convs false fmt -> "p"%char ∉ convs false fmt ->
     printf_text fmt args = cprintf_text fmt args).
Proof.
  intros Hc. split.
  - intros up. by apply (ufmt_kfmt up fmt).
  - intros Hx Hp. unfold printf_text, cprintf_text.
    rewrite (proj1 (ufmt_kfmt true fmt)) by done. by apply (kfmt_case true fmt).
Qed.

Lemma printf_cprintf_witness :
  printf_text "pid %d: %s 100%%" [AInt (-7); AStr (Some "sh"%string)]
  = Some "pid -7: sh 100%"%string.
Proof.
  destruct (printf_cprintf "pid %d: %s 100%%" [AInt (-7); AStr (Some "sh"%string)]) as [_ H].
  - refine (bool_decide_unpack _ _); vm_compute; exact I.
  - rewrite H by (refine (bool_decide_unpack _ _); vm_compute; exact I). vm_compute. reflexivity.
Defined.
