(* ===== verification/ProcTable.v ===== *)
(** * The process table and the globals of proc.h

    Data of "xv6 modified/proc.h" and proc.c: the process states, [struct proc]
    with the accounting fields this kernel adds (ctime, runtime, waittime, qn,
    ...), the process table, and the run queues of the multi-level feedback
    queue (MLFQ) scheduler.  A [struct proc *] is an index into [ptable.proc];
    the null pointer is [None].  Every other kernel component is behind the
    type parameter [X] of the state. *)

From S2P Require Import Prelude.

(** Constants of param.h. *)
Abbreviation NPROC := 64 (only parsing).
Abbreviation NOFILE := 16 (only parsing).
Abbreviation KSTACKSIZE := 4096 (only parsing).
(** memlayout.h. *)
Abbreviation KERNBASE := 2147483648 (only parsing).
Definition V2P (a : Z) : Z := u32 (a - KERNBASE).
Definition P2V (a : Z) : Z := u32 (a + KERNBASE).

(** [#define age 18]: ticks a process may wait before it is promoted. *)
Definition age : Z := 18.

(** The build compiles exactly one scheduler in (Makefile: -D $(SCHEDULER)). *)
Inductive policy := ROUND_ROBIN | FCFS | MLFQ | PBS.
#[export] Instance policy_eq_dec : EqDecision policy.
Proof. solve_decision. Defined.

Inductive procstate := UNUSED | EMBRYO | SLEEPING | RUNNABLE | RUNNING | ZOMBIE.
#[export] Instance procstate_eq_dec : EqDecision procstate.
Proof. solve_decision. Defined.

(** What a process can sleep on: a [struct proc] (wait), [&ticks] (sys_sleep),
    or the address of a lock, buffer, pipe counter, ... *)
Inductive channel := ChProc (p : nat) | ChTicks | ChAddr (a : Z).
#[export] Instance channel_eq_dec : EqDecision channel.
Proof. solve_decision. Defined.

(** struct trapframe (x86.h), without the padding. *)
Record trapframe := mktf {
  tf_edi : Z; tf_esi : Z; tf_ebp : Z; tf_oesp : Z;
  tf_ebx : Z; tf_edx : Z; tf_ecx : Z; tf_eax : Z;
  tf_gs : Z; tf_fs : Z; tf_es : Z; tf_ds : Z;
  tf_trapno : Z; tf_err : Z; tf_eip : Z; tf_cs : Z;
  tf_eflags : Z; tf_esp : Z; tf_ss : Z }.
#[export] Instance trapframe_eta : Eta trapframe := fun t =>
  mktf (tf_edi t) (tf_esi t) (tf_ebp t) (tf_oesp t)
       (tf_ebx t) (tf_edx t) (tf_ecx t) (tf_eax t)
       (tf_gs t) (tf_fs t) (tf_es t) (tf_ds t)
       (tf_trapno t) (tf_err t) (tf_eip t) (tf_cs t)
       (tf_eflags t) (tf_esp t) (tf_ss t).

Definition zero_trapframe : trapframe :=
  mktf 0 0 0 0 0 0 0 0 0 0 0 0 0 0 0 0 0 0 0.

(** struct context: the registers swtch saves. *)
Record context := mkcontext {
  ctx_edi : Z; ctx_esi : Z; ctx_ebx : Z; ctx_ebp : Z; ctx_eip : Z }.
#[export] Instance context_eta : Eta context := fun c =>
  mkcontext (ctx_edi c) (ctx_esi c) (ctx_ebx c) (ctx_ebp c) (ctx_eip c).

Definition zero_context : context := mkcontext 0 0 0 0 0.

(** struct proc.  [pgdir] and [kstack] are kernel addresses (0 is null), [ofile]
    holds indices into [ftable.file] and [cwd] an index into [icache.inode];
    [tf] and [context] point into the process's own kernel stack, so they are
    kept by value. *)
Record proc := mkproc {
  proc_sz : Z;
  pgdir : Z;
  kstack : Z;
  state : procstate;
  pid : Z;
  parent : option nat;
  tf : trapframe;
  ctx : context;
  chan : option channel;
  killed : Z;
  ofile : list (option nat);
  cwd : option nat;
  name : list Z;
  ctime : Z;
  runtime : Z;
  etime : Z;
  waittime : Z;
  nrun : Z;
  curtime : Z;
  priority : Z;
  qn : Z;
  qnt : list Z;
  flagq : Z }.
#[export] Instance proc_eta : Eta proc := fun p =>
  mkproc (proc_sz p) (pgdir p) (kstack p) (state p) (pid p) (parent p) (tf p)
         (ctx p) (chan p) (killed p) (ofile p) (cwd p) (name p) (ctime p)
         (runtime p) (etime p) (waittime p) (nrun p) (curtime p) (priority p)
         (qn p) (qnt p) (flagq p).

(** The table is a zero-initialised global. *)
Definition zero_proc : proc :=
  mkproc 0 0 0 UNUSED 0 None zero_trapframe zero_context None 0
         (replicate 16 None) None (replicate 16 0) 0 0 0 0 0 0 0 0
         (replicate 5 0) 0.
#[export] Instance proc_inhabited : Inhabited proc := populate zero_proc.

(** The spin locks: [ptable.lock], [tickslock], and those inside the structures
    of the other components, by address. *)
Inductive spinlock := LkPtable | LkTicks | LkAddr (a : Z).
#[export] Instance spinlock_eq_dec : EqDecision spinlock.
Proof. solve_decision. Defined.

(** The globals of proc.c and proc.h, and the one CPU whose kernel code runs:
    [cpu_proc], [ncli] and [intena] are fields of its [struct cpu], [fl_if] is
    the interrupt flag of its eflags register, and [held] lists the locks whose
    [cpu] field points to it; [cr3] is its page-directory register and [ts_esp0]
    the kernel stack its task segment names.  [queue] is the flat memory of
    [struct proc *queue[5][64]]; [below_queue] is the word of memory just below
    it and [past_nrun] the word where [ptable.proc[NPROC].nrun] would be.
    [console] is what cprintf printed, [rest] the other components. *)
Record kstate (X : Type) := mkkstate {
  held : list spinlock;
  ncli : Z;
  intena : bool;
  fl_if : bool;
  cr3 : Z;
  ts_esp0 : Z;
  kpgdir : Z;
  procs : list proc;
  past_nrun : Z;
  initproc : option nat;
  nextpid : Z;
  ticks : Z;
  cpu_proc : option nat;
  face : list Z;
  back : list Z;
  sz : list Z;
  queue : list (option nat);
  below_queue : option nat;
  slices : list Z;
  console : list string;
  rest : X }.
Arguments mkkstate {X}.
Arguments held {X}. Arguments ncli {X}. Arguments intena {X}.
Arguments fl_if {X}. Arguments cr3 {X}. Arguments ts_esp0 {X}.
Arguments kpgdir {X}. Arguments procs {X}. Arguments past_nrun {X}. Arguments initproc {X}.
Arguments nextpid {X}. Arguments ticks {X}. Arguments cpu_proc {X}.
Arguments face {X}. Arguments back {X}. Arguments sz {X}. Arguments queue {X}.
Arguments below_queue {X}. Arguments slices {X}. Arguments console {X}.
Arguments rest {X}.
#[export] Instance kstate_eta X : Eta (kstate X) := fun k =>
  mkkstate (held k) (ncli k) (intena k) (fl_if k) (cr3 k) (ts_esp0 k)
           (kpgdir k) (procs k) (past_nrun k) (initproc k) (nextpid k) (ticks k)
           (cpu_proc k) (face k) (back k) (sz k) (queue k) (below_queue k)
           (slices k) (console k) (rest k).

(** The state main() builds before any process exists: the loop of main.c sets
    the queues empty and [slices] to 1, 2, 4, 8, 16. *)
Definition boot_state {X} (below : option nat) (x : X) : kstate X :=
  mkkstate [] 0 false false 0 0 0 (replicate 64 zero_proc) 0 None 1 0 None
           (replicate 5 (-1)) (replicate 5 (-1)) (replicate 5 0)
           (replicate 320 None) below [1; 2; 4; 8; 16] [] x.

Section access.
Context {X : Type}.
Implicit Types (k : kstate X) (p : nat).

(** [*p] and an assignment through [p]. *)
Definition getp k p : proc := default zero_proc (procs k !! p).
Definition modp k p (f : proc -> proc) : kstate X :=
  k <| procs := alter f p (procs k) |>.
Definition cprintf k (msg : string) : kstate X :=
  k <| console := console k ++ [msg] |>.

(** Indices of [for (p = ptable.proc; p < &ptable.proc[NPROC]; p++)]. *)
Definition all_procs k : list nat := seq 0 (length (procs k)).

Lemma getp_modp_eq k p f :
  (p < length (procs k))%nat -> getp (modp k p f) p = f (getp k p).
Proof.
  intros Hp. unfold getp, modp. cbn. rewrite list_lookup_alter_eq.
  by apply lookup_lt_is_Some in Hp as [q ->].
Qed.

(** The same when other fields of the state have changed too. *)
Lemma getp_alter k k' p f :
  procs k' = alter f p (procs k) -> (p < length (procs k))%nat -> getp k' p = f (getp k p).
Proof.
  intros E Hp. rewrite <- (getp_modp_eq k p f Hp). unfold getp, modp. by rewrite E.
Qed.

Lemma getp_alter_ne k k' p q f :
  procs k' = alter f p (procs k) -> p <> q -> getp k' q = getp k q.
Proof. intros E Hpq. unfold getp. by rewrite E, list_lookup_alter_ne. Qed.

Lemma getp_modp_ne k p q f : p <> q -> getp (modp k p f) q = getp k q.
Proof.
  intros Hpq. unfold getp, modp. cbn. by rewrite list_lookup_alter_ne.
Qed.

Lemma length_procs_modp k p f : length (procs (modp k p f)) = length (procs k).
Proof. unfold modp. cbn. apply length_alter. Qed.

Lemma getp_lookup k p :
  (p < length (procs k))%nat -> procs k !! p = Some (getp k p).
Proof. intros [q Hq]%lookup_lt_is_Some. unfold getp. by rewrite Hq. Qed.

Lemma getp_boot below (x : X) p : getp (boot_state below x) p = zero_proc.
Proof.
  unfold getp, boot_state. cbn [procs].
  destruct (replicate 64 zero_proc !! p) as [r|] eqn:E; [| done].
  by apply lookup_replicate in E as [-> _].
Qed.
End access.

Lemma state_twice (r : proc) st st' :
  r <| state := st |> <| state := st' |> = r <| state := st' |>.
Proof. by destruct r. Qed.

Create Rewrite HintDb proctable.
#[export] Hint Rewrite @length_procs_modp : proctable.
