(* ===== verification/Spinlock.v ===== *)
(** * Spin locks

    spinlock.c.  Two views of the same code: [acquire] and [release] as the other
    files use them, executed by the CPU of a [kstate]; and the protocol with any
    number of CPUs, one step per memory access, for mutual exclusion.  The call
    stack kept in [lk->pcs] for debugging is left out. *)

From S2P Require Import Prelude ProcTable.

(** ** pushcli and popcli

    The fields of [struct cpu] they use, with the interrupt flag of eflags. *)

Record intr := mkintr { i_ncli : Z; i_intena : bool; i_if : bool }.
#[export] Instance intr_eta : Eta intr := fun c => mkintr (i_ncli c) (i_intena c) (i_if c).

Definition pushcli (c : intr) : intr :=
  let eflags := i_if c in
  let c := c <| i_if := false |> in
  let c := if i_ncli c =? 0 then c <| i_intena := eflags |> else c in
  c <| i_ncli := i_ncli c + 1 |>.

Definition popcli (c : intr) : intr + string :=
  if i_if c then inr "popcli - interruptible"
  else
    let c := c <| i_ncli := i_ncli c - 1 |> in
    if i_ncli c <? 0 then inr "popcli"
    else if (i_ncli c =? 0) && i_intena c then inl (c <| i_if := true |>)
    else inl c.

(** Interrupts are off while a pushcli is outstanding. *)
Definition wf_intr (c : intr) : Prop := 0 <= i_ncli c /\ (0 < i_ncli c -> i_if c = false).

Lemma pushcli_wf c : wf_intr c -> wf_intr (pushcli c) /\ 0 < i_ncli (pushcli c).
Proof.
  intros [H1 H2]. unfold wf_intr, pushcli. cbn. case_test; cbn; split; auto with lia.
Qed.

Lemma popcli_wf c :
  wf_intr c -> 0 < i_ncli c ->
  exists c', popcli c = inl c' /\ wf_intr c' /\ i_ncli c' = i_ncli c - 1.
Proof.
  intros [H1 H2] Hpos. unfold wf_intr, popcli. cbn. rewrite H2 by lia.
  case_test; [lia |]. case_test; eexists; split_and!; try done; cbn; try lia.
  intros _. auto with lia.
Qed.

(** pushcli followed by popcli restores the interrupt flag and the depth. *)
Lemma popcli_pushcli c :
  wf_intr c ->
  exists c', popcli (pushcli c) = inl c' /\ i_if c' = i_if c /\ i_ncli c' = i_ncli c.
Proof.
  intros [H1 H2]. unfold popcli, pushcli. cbn.
  destruct (i_ncli c =? 0) eqn:E; cbn; bool_to_prop.
  - rewrite E. cbn. destruct (i_if c) eqn:Ef; cbn; eexists; split_and!; try done;
      cbn; rewrite ?Ef; done || lia.
  - case_test; [lia |].
    destruct (i_ncli c + 1 - 1 =? 0) eqn:E2; bool_to_prop; [lia |].
    eexists; split_and!; [done | | cbn; lia]. symmetry. apply H2. lia.
Qed.

(** ** acquire and release on the CPU of a kernel state *)

Section ops.
Context {X : Type}.
Implicit Types (k : kstate X) (lk : spinlock).

Definition intr_of k : intr := mkintr (ncli k) (intena k) (fl_if k).
Definition set_intr k (c : intr) : kstate X :=
  k <| ncli := i_ncli c |> <| intena := i_intena c |> <| fl_if := i_if c |>.

Definition holding k lk : bool := bool_decide (lk ∈ held k).

(** A lock that this CPU does not hold is free when the loop around xchg ends. *)
Definition acquire lk : M (kstate X) unit := fun k =>
  let k := set_intr k (pushcli (intr_of k)) in
  if holding k lk then Panic "acquire"
  else Ok tt (k <| held := lk :: held k |>).

Definition release lk : M (kstate X) unit := fun k =>
  if negb (holding k lk) then Panic "release"
  else
    let k := k <| held := filter (fun l => l <> lk) (held k) |> in
    match popcli (intr_of k) with
    | inl c => Ok tt (set_intr k c)
    | inr msg => Panic msg
    end.

(** The lock discipline of a CPU: no lock is held twice, every held lock has its
    pushcli, and interrupts are off while one is held. *)
Definition wf_locks k : Prop :=
  NoDup (held k) /\ ncli k = zlen (held k) /\ wf_intr (intr_of k).

(** The state acquire leaves, and what release undoes: only the four fields of
    the CPU differ from [k]. *)
Definition enter lk k : kstate X :=
  (set_intr k (pushcli (intr_of k))) <| held := lk :: held k |>.

Definition same_cpu k k' : Prop :=
  held k' = held k /\ ncli k' = ncli k /\ intena k' = intena k /\ fl_if k' = fl_if k.

Definition unlocked (i : bool) k k' : kstate X :=
  k' <| held := held k |> <| ncli := ncli k |> <| intena := i |> <| fl_if := fl_if k |>.

Lemma acquire_ok lk k : lk ∉ held k -> acquire lk k = Ok tt (enter lk k).
Proof.
  intros H. unfold acquire, holding. cbn. by rewrite bool_decide_eq_false_2.
Qed.

Lemma filter_head_ne (lk : spinlock) (l : list spinlock) :
  lk ∉ l -> filter (fun x => x <> lk) (lk :: l) = l.
Proof.
  intros Hl. rewrite filter_cons_False by congruence.
  induction l as [|x l IH]; [done |]. apply not_elem_of_cons in Hl as [Hx Hl].
  rewrite filter_cons_True by congruence. f_equal. by apply IH.
Qed.

Lemma release_enter lk k k' :
  wf_locks k -> lk ∉ held k -> same_cpu (enter lk k) k' ->
  exists i, release lk k' = Ok tt (unlocked i k k') /\ wf_locks (unlocked i k k').
Proof.
  intros (H1 & H2 & H3) Hlk (E1 & E2 & E3 & E4). unfold release, holding.
  assert (Hh : held k' = lk :: held k) by exact E1.
  rewrite Hh, bool_decide_eq_true_2 by (by left). cbn [negb].
  rewrite filter_head_ne by done.
  destruct (popcli_pushcli (intr_of k) H3) as (c & Hc & Hif & Hncli).
  assert (Hi : intr_of k' = pushcli (intr_of k)).
  { unfold intr_of at 1. rewrite E2, E3, E4. cbn -[pushcli intr_of].
    by destruct (pushcli (intr_of k)). }
  change (intr_of (k' <| held := held k |>)) with (intr_of k').
  rewrite Hi, Hc. exists (i_intena c). unfold set_intr, unlocked. rewrite Hif, Hncli.
  split; [done |]. split_and!; [done | done |]. apply H3.
Qed.

(** A critical section: acquire, a body that leaves the CPU alone, release. *)
Lemma locked_section {A} lk (body : M (kstate X) A) k a k' :
  wf_locks k -> lk ∉ held k ->
  body (enter lk k) = Ok a k' -> same_cpu (enter lk k) k' ->
  exists i,
    (acquire lk ≫= fun _ => body ≫= fun x => release lk ≫= fun _ => mret x) k
    = Ok a (unlocked i k k') /\ wf_locks (unlocked i k k').
Proof.
  intros Hwf Hlk Hb Hc.
  destruct (release_enter lk k k') as (i & Hr & Hw); [done.. |].
  exists i. split; [| done].
  unfold mbind, M_bind. by rewrite (acquire_ok lk k Hlk), Hb, Hr.
Qed.
End ops.

(** ** Mutual exclusion with any number of CPUs

    Every CPU runs [acquire(lk); critical section; release(lk)] forever; a step is
    one access to the shared words [lk->locked] and [lk->cpu], or one pushcli or
    popcli.  [Stuck] is a CPU that panicked. *)

Module Protocol.

(** The two calls of holding(). *)
Inductive caller := InAcquire | InRelease.

Inductive pc :=
  | Outside              (** about to call acquire: its pushcli *)
  | HPush (a : caller)   (** holding: pushcli *)
  | HWord (a : caller)   (** the read of [lock->locked] *)
  | HCpu (a : caller)    (** the read of [lock->cpu] *)
  | HPop (a : caller) (r : bool)  (** popcli, and [r] is returned *)
  | Spin                 (** [while(xchg(&lk->locked, 1) != 0)] *)
  | SetCpu               (** [lk->cpu = mycpu()] *)
  | Critical             (** between acquire and release *)
  | ClearCpu             (** [lk->cpu = 0] *)
  | Store                (** [movl $0, lk->locked] *)
  | Popcli               (** release, last statement *)
  | Stuck (msg : string).
#[export] Instance caller_eq_dec : EqDecision caller.
Proof. solve_decision. Defined.
#[export] Instance pc_eq_dec : EqDecision pc.
Proof. solve_decision. Defined.

Record sys := mksys { word : Z; lcpu : option nat; at_pc : nat -> pc; cli : nat -> intr }.

Definition fset {A} (c : nat) (v : A) (f : nat -> A) : nat -> A :=
  fun d => if decide (c = d) then v else f d.

Definition goto (c : nat) (p : pc) (s : sys) : sys :=
  mksys (word s) (lcpu s) (fset c p (at_pc s)) (cli s).
Definition set_cli (c : nat) (i : intr) (s : sys) : sys :=
  mksys (word s) (lcpu s) (at_pc s) (fset c i (cli s)).

(** Behind [if(holding(lk))] of acquire and [if(!holding(lk))] of release. *)
Definition returned (a : caller) (r : bool) : pc :=
  match a with
  | InAcquire => if r then Stuck "acquire" else Spin
  | InRelease => if r then ClearCpu else Stuck "release"
  end.

(** [lock->locked && lock->cpu == mycpu()] of one state. *)
Definition holds (s : sys) (c : nat) : bool :=
  negb (word s =? 0) && bool_decide (lcpu s = Some c).

Inductive step (s : sys) (c : nat) : sys -> Prop :=
  | step_pushcli :
      at_pc s c = Outside -> step s c (goto c (HPush InAcquire) (set_cli c (pushcli (cli s c)) s))
  | step_hpush a :
      at_pc s c = HPush a -> step s c (goto c (HWord a) (set_cli c (pushcli (cli s c)) s))
  | step_hword a :
      at_pc s c = HWord a -> step s c (goto c (if word s =? 0 then HPop a false else HCpu a) s)
  | step_hcpu a :
      at_pc s c = HCpu a -> step s c (goto c (HPop a (bool_decide (lcpu s = Some c))) s)
  | step_hpop a r :
      at_pc s c = HPop a r ->
      step s c (match popcli (cli s c) with
                | inl i => goto c (returned a r) (set_cli c i s)
                | inr msg => goto c (Stuck msg) s
                end)
  | step_xchg :
      at_pc s c = Spin ->
      step s c (goto c (if word s =? 0 then SetCpu else Spin)
                     (mksys 1 (lcpu s) (at_pc s) (cli s)))
  | step_setcpu :
      at_pc s c = SetCpu ->
      step s c (goto c Critical (mksys (word s) (Some c) (at_pc s) (cli s)))
  | step_leave :
      at_pc s c = Critical -> step s c (goto c (HPush InRelease) s)
  | step_clear :
      at_pc s c = ClearCpu ->
      step s c (goto c Store (mksys (word s) None (at_pc s) (cli s)))
  | step_store :
      at_pc s c = Store ->
      step s c (goto c Popcli (mksys 0 (lcpu s) (at_pc s) (cli s)))
  | step_popcli :
      at_pc s c = Popcli ->
      step s c (match popcli (cli s c) with
                | inl i => goto c Outside (set_cli c i s)
                | inr msg => goto c (Stuck msg) s
                end).

(** Reachable from [initlock] with every CPU outside; a CPU may already be inside
    other critical sections (its [ncli] is not zero). *)
Inductive reach : sys -> Prop :=
  | reach_init cli0 :
      (forall c, wf_intr (cli0 c)) -> reach (mksys 0 None (fun _ => Outside) cli0)
  | reach_step s c s' : reach s -> step s c s' -> reach s'.

(** In the holding() of release. *)
Definition in_release (a : caller) : bool := match a with InRelease => true | InAcquire => false end.
(** The CPU owns the lock: between its successful xchg and its store. *)
Definition owner (p : pc) : bool :=
  match p with
  | SetCpu | Critical | ClearCpu | Store => true
  | HPush a | HWord a | HCpu a | HPop a _ => in_release a
  | _ => false
  end.
(** [lk->cpu] names the CPU. *)
Definition named (p : pc) : bool :=
  match p with
  | Critical | ClearCpu => true
  | HPush a | HWord a | HCpu a | HPop a _ => in_release a
  | _ => false
  end.
(** The calls of pushcli of this lock that are outstanding. *)
Definition depth (p : pc) : Z :=
  match p with
  | Outside | Stuck _ => 0
  | HWord _ | HCpu _ | HPop _ _ => 2
  | _ => 1
  end.
(** No panic, and holding() is about to return what it should. *)
Definition in_order (p : pc) : bool :=
  match p with Stuck _ => false | HPop a r => Bool.eqb r (in_release a) | _ => true end.

Record inv (s : sys) : Prop := {
  inv_word : word s = 0 \/ word s = 1;
  inv_free : word s = 0 -> forall c, owner (at_pc s c) = false;
  inv_held : word s = 1 -> exists c, owner (at_pc s c) = true;
  inv_one : forall c d, owner (at_pc s c) = true -> owner (at_pc s d) = true -> c = d;
  inv_lcpu : forall c, lcpu s = Some c <-> named (at_pc s c) = true;
  inv_cli : forall c, wf_intr (cli s c);
  inv_off : forall c, depth (at_pc s c) <= i_ncli (cli s c);
  inv_live : forall c, in_order (at_pc s c) = true }.

(** Split on which CPU a per-CPU field of the new state is read at. *)
Ltac cpu_cases := unfold fset in *; repeat case_decide; subst; try congruence.

(** A CPU that moves between two points with the same ownership keeps the invariant; it may
    have called pushcli or popcli. *)
Lemma cli_inv s c p i :
  inv s -> owner p = owner (at_pc s c) -> named p = named (at_pc s c) ->
  in_order p = true -> wf_intr i -> depth p <= i_ncli i -> inv (goto c p (set_cli c i s)).
Proof.
  intros [H1 H2 H2' H3 H4 H5 H6 H7] Eo En Es Hw Hd. constructor; cbn; try done.
  - intros Hw1 d. cpu_cases; [rewrite Eo |]; auto.
  - intros Hw1. destruct (H2' Hw1) as [d Hd1]. exists d. cpu_cases; congruence.
  - intros d e. cpu_cases; rewrite ?Eo; auto.
  - intros d. cpu_cases; rewrite ?En; auto.
  - intros d. cpu_cases; auto.
  - intros d. cpu_cases; auto.
  - intros d. cpu_cases; auto.
Qed.

Lemma goto_inv s c p :
  inv s -> owner p = owner (at_pc s c) -> named p = named (at_pc s c) ->
  depth p = depth (at_pc s c) -> in_order p = true -> inv (goto c p s).
Proof.
  intros [H1 H2 H2' H3 H4 H5 H6 H7] Eo En Ep Es. constructor; cbn; try done.
  - intros Hw d. cpu_cases; [rewrite Eo |]; auto.
  - intros Hw. destruct (H2' Hw) as [d Hd]. exists d. cpu_cases; congruence.
  - intros d e. cpu_cases; rewrite ?Eo; auto.
  - intros d. cpu_cases; rewrite ?En; auto.
  - intros d. cpu_cases; rewrite ?Ep; auto.
  - intros d. cpu_cases; auto.
Qed.

Lemma holds_named s c : inv s -> owner (at_pc s c) = true -> holds s c = named (at_pc s c).
Proof.
  intros [H1 H2 _ _ H4 _ _ _] Ho. unfold holds.
  destruct H1 as [Hw|Hw]; rewrite Hw; cbn; [by rewrite (H2 Hw) in Ho |].
  destruct (named (at_pc s c)) eqn:E.
  - by apply bool_decide_eq_true_2, H4.
  - apply bool_decide_eq_false_2. rewrite H4. congruence.
Qed.

(** The cases of one field of the invariant after a step of a CPU whose point was
    [p] (hypothesis [Hp]). *)
Ltac inv_field Hp :=
  intros; cpu_cases; rewrite ?Hp in *; cbn in *; eauto; try done.

Lemma owner_word s c : inv s -> owner (at_pc s c) = true -> word s = 1.
Proof.
  intros [H1 H2 _ _ _ _ _ _] Ho. destruct H1 as [Hw|Hw]; [| done].
  by rewrite (H2 Hw) in Ho.
Qed.

(** The owner writes [lk->cpu]. *)
Lemma lcpu_inv s c p :
  inv s -> owner (at_pc s c) = true -> owner p = true -> in_order p = true -> depth p <= depth (at_pc s c) ->
  inv (goto c p (mksys (word s) (if named p then Some c else None) (at_pc s) (cli s))).
Proof.
  intros Hi Ho Hp Hio Hdp. pose proof (owner_word s c Hi Ho) as Hw.
  destruct Hi as [H1 H2 H2' H3 H4 H5 H6 H7].
  constructor; cbn; try done; [lia | | | | |].
  - intros _. exists c. by cpu_cases.
  - intros d e Hd He. apply H3; inv_field Hp.
  - intros d. specialize (H3 c d Ho). unfold fset. case_decide as Hcd.
    + subst d. destruct (named p); split; congruence.
    + split; [destruct (named p); congruence |].
      intros Hd. destruct Hcd. apply H3. by destruct (at_pc s d).
  - intros d. specialize (H6 d). unfold fset. case_decide; [subst d | done]. lia.
  - intros d. unfold fset. case_decide; done.
Qed.

Lemma xchg_inv s c :
  inv s -> at_pc s c = Spin ->
  inv (goto c (if word s =? 0 then SetCpu else Spin) (mksys 1 (lcpu s) (at_pc s) (cli s))).
Proof.
  intros Hi Hp. pose proof Hi as [H1 H2 H2' H3 H4 H5 H6 H7].
  pose proof (H6 c) as Hoff. rewrite Hp in Hoff.
  destruct (word s =? 0) eqn:E; bool_to_prop.
  - constructor; cbn; try done; [by right | | | | |].
    + intros _. exists c. by cpu_cases.
    + intros d e. pose proof (H2 E d). pose proof (H2 E e). inv_field Hp.
    + intros d. specialize (H4 d). inv_field Hp.
    + inv_field Hp.
    + inv_field Hp.
  - replace (mksys 1 (lcpu s) (at_pc s) (cli s)) with s
      by (destruct s; cbn in *; f_equal; lia).
    apply goto_inv; by rewrite ?Hp.
Qed.

Lemma store_inv s c :
  inv s -> at_pc s c = Store ->
  inv (goto c Popcli (mksys 0 (lcpu s) (at_pc s) (cli s))).
Proof.
  intros [H1 H2 H2' H3 H4 H5 H6 H7] Hp. pose proof (H6 c) as Hoff. rewrite Hp in Hoff.
  constructor; cbn; try done; [by left | | | | |].
  - intros _ d. specialize (H3 c d). rewrite Hp in *. unfold fset. case_decide; [done |].
    destruct (owner (at_pc s d)); [| done]. destruct H. by apply H3.
  - intros d e Hd He. apply H3; inv_field Hp.
  - intros d. specialize (H4 d). inv_field Hp.
  - inv_field Hp.
  - inv_field Hp.
Qed.

(** popcli with a pushcli outstanding. *)
Lemma pop_inv s c p :
  inv s -> depth (at_pc s c) = depth p + 1 -> owner p = owner (at_pc s c) -> named p = named (at_pc s c) ->
  in_order p = true -> 0 <= depth p ->
  inv (match popcli (cli s c) with
       | inl i => goto c p (set_cli c i s)
       | inr msg => goto c (Stuck msg) s
       end).
Proof.
  intros Hi Hd Ho Hn Hio Hp. pose proof (inv_off _ Hi c) as Hoff.
  destruct (popcli_wf (cli s c) (inv_cli _ Hi c) ltac:(lia)) as (i & -> & Hwi & Hni). apply cli_inv; done || lia.
Qed.

Lemma pushed_inv s c p :
  inv s -> depth p = depth (at_pc s c) + 1 -> owner p = owner (at_pc s c) -> named p = named (at_pc s c) ->
  in_order p = true -> inv (goto c p (set_cli c (pushcli (cli s c)) s)).
Proof.
  intros Hi Hd Ho Hn Hio. pose proof (inv_off _ Hi c) as Hoff. apply cli_inv; try done.
  - apply pushcli_wf, Hi.
  - unfold pushcli. cbn. case_test; cbn; lia.
Qed.

Lemma step_inv s c s' : inv s -> step s c s' -> inv s'.
Proof.
  intros Hi Hs. destruct Hs as [Hp|a Hp|a Hp|a Hp|a r Hp|Hp|Hp|Hp|Hp|Hp|Hp].
  - apply pushed_inv; by rewrite ?Hp.
  - apply pushed_inv; by rewrite ?Hp.
  - destruct (word s =? 0) eqn:E; bool_to_prop; apply goto_inv; rewrite ?Hp; try done. cbn.
    pose proof (inv_free _ Hi E c) as Ho. rewrite Hp in Ho. cbn in Ho. by rewrite Ho.
  - apply goto_inv; rewrite ?Hp; try done. cbn. apply eqb_true_iff.
    pose proof (inv_lcpu _ Hi c) as Hl. rewrite Hp in Hl. cbn in Hl.
    destruct (in_release a); [by apply bool_decide_eq_true_2, Hl | apply bool_decide_eq_false_2; by intros ?%Hl].
  - pose proof (inv_live _ Hi c) as Hr. rewrite Hp in Hr. cbn in Hr. apply eqb_prop in Hr as ->.
    apply pop_inv; rewrite ?Hp; by destruct a.
  - by apply xchg_inv.
  - apply (lcpu_inv s c Critical); by rewrite ?Hp.
  - apply goto_inv; by rewrite ?Hp.
  - apply (lcpu_inv s c Store); by rewrite ?Hp.
  - by apply store_inv.
  - apply pop_inv; by rewrite ?Hp.
Qed.

Lemma reach_inv s : reach s -> inv s.
Proof.
  induction 1 as [cli0 Hc | s c s' _ IH Hs]; [| by eapply step_inv].
  constructor; cbn; try done; [by left |]. intros c. apply Hc.
Qed.

(** C13: spin locks exclude.  In every reachable interleaving of any number of CPUs
    that run [acquire(lk)] ... [release(lk)], at most one CPU is in its critical
    section, that CPU has interrupts off and is the one [holding] reports, no CPU
    ever panics, and a CPU that spins finds the lock free unless another CPU owns
    it (so the lock word is never lost). *)
Theorem spinlock_mutual_exclusion s :
  reach s ->
  (forall c d, at_pc s c = Critical -> at_pc s d = Critical -> c = d) /\
  (forall c, at_pc s c = Critical -> i_if (cli s c) = false /\ holds s c = true) /\
  (forall c msg, at_pc s c <> Stuck msg) /\
  (word s = 0 \/ exists c, owner (at_pc s c) = true).
Proof.
  intros Hi%reach_inv. pose proof Hi as [H1 H2 H2' H3 H4 H5 H6 H7]. split_and!.
  - intros c d Hc Hd. apply H3; by rewrite ?Hc, ?Hd.
  - intros c Hc. split; [| by rewrite (holds_named s c Hi); rewrite Hc].
    apply H5. specialize (H6 c). rewrite Hc in H6. cbn in H6. lia.
  - intros c msg Hc. specialize (H7 c). by rewrite Hc in H7.
  - destruct H1; auto.
Qed.

(** Two CPUs: CPU 0 enters its critical section while CPU 1 spins. *)
Lemma spinlock_mutual_exclusion_witness :
  exists s, reach s /\ at_pc s 0%nat = Critical /\ at_pc s 1%nat = Spin /\
            forall d, at_pc s d = Critical -> d = 0%nat.
Proof.
  pose proof (reach_init (fun _ => mkintr 0 false true) ltac:(intros c; split; cbn; lia)) as H.
  do 6 (eapply (reach_step _ 0%nat) in H;
        [| first [eapply step_pushcli; reflexivity | eapply step_hpush; reflexivity | eapply step_hword; reflexivity |
                  eapply step_hpop; reflexivity | eapply step_xchg; reflexivity | eapply step_setcpu; reflexivity]]; vm_compute in H).
  do 6 (eapply (reach_step _ 1%nat) in H;
        [| first [eapply step_pushcli; reflexivity | eapply step_hpush; reflexivity | eapply step_hword; reflexivity |
                  eapply step_hcpu; reflexivity | eapply step_hpop; reflexivity | eapply step_xchg; reflexivity]]; vm_compute in H).
  rename H into Hr.
  eexists. split; [exact Hr |]. split; [reflexivity |]. split; [reflexivity |].
  intros d Hd. by apply (proj1 (spinlock_mutual_exclusion _ Hr)).
Defined.

End Protocol.
