(* ===== verification/Mlfq.v ===== *)
(** * The run queues of the MLFQ scheduler

    push, pop and remove of "xv6 modified/proc.c" on the five circular queues
    [queue[0..4]] (64 slots each) with their [face], [back] and [sz] indices, and
    the aging loop of the MLFQ scheduler.  The queues are modelled as the memory
    the code uses, including the read of [queue[i][-1]] that push performs on an
    empty queue; [ring] is the abstract FIFO list a queue stands for. *)

From S2P Require Import Prelude ProcTable.

Section ops.
Context {X : Type}.
Implicit Types (k : kstate X) (a i j lo hi : Z) (b p : nat).

(** [queue[i][j]].  The array is flat, so [queue[i][-1]] is the last slot of
    row i-1, and [queue[0][-1]] is whatever lies below the array. *)
Definition qcell k i j : option nat :=
  let n := NPROC * i + j in
  if n =? -1 then below_queue k else default None (zlookup (queue k) n).

Definition set_qcell i j (v : option nat) k : kstate X :=
  k <| queue := zupd (queue k) (NPROC * i + j) v |>.

Definition set_face i v k : kstate X := k <| face := zupd (face k) i v |>.
Definition set_back i v k : kstate X := k <| back := zupd (back k) i v |>.
Definition set_sz i v k : kstate X := k <| sz := zupd (sz k) i v |>.

Definition points_to (c : option nat) b : bool := bool_decide (c = Some b).

Definition found_in k i b lo hi : bool :=
  existsb (fun j => points_to (qcell k i j) b) (zrange lo hi).

(** Is [b] in queue [i]?  The body of push's duplicate check. *)
Definition scan k b i : bool :=
  if zget (face k) i <=? zget (back k) i then
    found_in k i b (zget (face k) i) (zget (back k) i)
  else
    found_in k i b (zget (face k) i) (NPROC - 1) || found_in k i b 0 (zget (back k) i).

Definition is_full k a : bool :=
  (zget (face k) a =? zget (back k) a + 1)
  || ((zget (face k) a =? 0) && (zget (back k) a =? NPROC - 1)).

(** The code after the label [yono]. *)
Definition append_proc a b k : kstate X :=
  let k := modp k b (fun q => q <| curtime := 0 |> <| waittime := 0 |>) in
  let k := if zget (face k) a =? -1 then set_face a 0 k else k in
  let k := set_back a ((zget (back k) a + 1) mod NPROC) k in
  let k := set_sz a (s32 (zget (sz k) a + 1)) k in
  set_qcell a (zget (back k) a) (Some b) k.

Definition push a b k : kstate X :=
  if zget (face k) a =? -1 then append_proc a b k
  else if existsb (scan k b) (zrange 0 4) then k
  else if is_full k a then cprintf k "queue full\n"
  else append_proc a b k.

Definition pop a k : option nat * kstate X :=
  if zget (face k) a =? -1 then (None, cprintf k "can't pop from empty\n")
  else
    let p := qcell k a (zget (face k) a) in
    let k := set_sz a (s32 (zget (sz k) a - 1)) k in
    let k :=
      if negb (zget (face k) a =? zget (back k) a) then
        set_face a ((zget (face k) a + 1) mod NPROC) k
      else set_back a (-1) (set_face a (-1) k) in
    (p, k).

(** First [j] of [lo..hi] with [queue[i][j] == p], or -1. *)
Definition search k i p lo hi : Z :=
  default (-1) (List.find (fun j => points_to (qcell k i j) p) (zrange lo hi)).

(** [for (j = hi; j >= lo; j--) queue[i][j] = queue[i][j-1];] *)
Definition shift_up i hi lo k : kstate X :=
  fold_left (fun k j => set_qcell i j (qcell k i (j - 1)) k) (zdown hi lo) k.

Definition bump_face i k : kstate X :=
  set_face i ((zget (face k) i + 1) mod NPROC) k.

Definition remove i p k : kstate X :=
  let f := zget (face k) i in
  let r := zget (back k) i in
  if f =? r then set_back i (-1) (set_face i (-1) k)
  else if f <=? r then
    let m := search k i p f r in
    if m =? -1 then k
    else if m =? f then bump_face i k
    else bump_face i (shift_up i m (f + 1) k)
  else
    let m := search k i p f (NPROC - 1) in
    let m := if m =? -1 then search k i p 0 r else m in
    if m =? -1 then k
    else if m =? f then bump_face i k
    else if f <? m then bump_face i (shift_up i m (f + 1) k)
    else
      let k := fold_left (fun k j =>
                 if j =? 0 then set_qcell i j (qcell k i (NPROC - 1)) k
                 else set_qcell i j (qcell k i (j - 1)) k) (zdown m 0) k in
      bump_face i (shift_up i (NPROC - 1) (f + 1) k).

(** One iteration of an aging loop: promote the process in [queue[i][j]] when it
    has waited more than [age] ticks.  A null slot is never reached (the
    invariant [wf_queues] below). *)
Definition age_slot i j k : kstate X :=
  match qcell k i j with
  | None => k
  | Some p =>
      if age <? waittime (getp k p) then
        let k := remove i p k in
        let k := modp k p (fun q => q <| qn := qn q - 1 |>) in
        push (i - 1) p k
      else k
  end.

(** [for (; j <= bound; j++)], the bound re-read from memory every time round.
    An index never exceeds 63, so 64 units of fuel run the loop to its end. *)
Fixpoint age_loop (fuel : nat) (bound : kstate X -> Z) i j k : kstate X :=
  match fuel with
  | O => k
  | S fuel =>
      if j <=? bound k then age_loop fuel bound i (j + 1) (age_slot i j k) else k
  end.

Definition age_queue k i : kstate X :=
  if zget (face k) i =? -1 then k
  else if zget (face k) i <=? zget (back k) i then
    age_loop 64 (fun k => zget (back k) i) i (zget (face k) i) k
  else
    let k := age_loop 64 (fun _ => NPROC - 1) i (zget (face k) i) k in
    age_loop 64 (fun k => zget (back k) i) i 0 k.

(** Lines 488-530 of scheduler(): queues 1 to 4 are scanned for old processes. *)
Definition age_all k : kstate X := fold_left age_queue (zrange 1 4) k.

(** Lines 532-544: pop from the first queue that is not empty. *)
Fixpoint pick_from (qs : list Z) k : option nat * kstate X :=
  match qs with
  | [] => (None, k)
  | i :: qs => if negb (zget (face k) i =? -1) then pop i k else pick_from qs k
  end.
Definition pick k : option nat * kstate X := pick_from (zrange 0 4) k.
End ops.

(** ** What the queue operations leave alone

    [strip] forgets the three fields of a process they write, [core] the queues
    and those fields: two states with the same [core] differ only in scheduling
    data. *)

Section core.
Context {X : Type}.
Implicit Types (k : kstate X) (p : nat).

Definition strip (r : proc) : proc := r <| waittime := 0 |> <| curtime := 0 |> <| qn := 0 |>.

Definition core k : kstate X :=
  k <| procs := strip <$> procs k |> <| face := [] |> <| back := [] |> <| sz := [] |>
    <| queue := [] |> <| console := [] |>.

Lemma core_getp k k' p : core k' = core k -> strip (getp k' p) = strip (getp k p).
Proof.
  intros E. apply (f_equal (fun k => procs k !! p)) in E. cbn in E.
  rewrite !list_lookup_fmap in E. unfold getp.
  destruct (procs k' !! p), (procs k !! p); cbn in *; congruence.
Qed.

Lemma core_length k k' : core k' = core k -> length (procs k') = length (procs k).
Proof.
  intros E. apply (f_equal (fun k => length (procs k))) in E. cbn in E.
  by rewrite !length_fmap in E.
Qed.

Lemma core_modp k p f : (forall r, strip (f r) = strip r) -> core (modp k p f) = core k.
Proof.
  intros Hf.
  assert (E : strip <$> alter f p (procs k) = strip <$> procs k); cycle 1.
  { unfold core, modp. cbn [procs upd]. by rewrite E. }
  apply list_eq. intros i. rewrite !list_lookup_fmap.
  destruct (decide (p = i)) as [->|Hne].
  - rewrite list_lookup_alter_eq. destruct (procs k !! i); cbn; [by rewrite Hf | done].
  - by rewrite list_lookup_alter_ne.
Qed.

Lemma core_append_proc a p k : core (append_proc a p k) = core k.
Proof.
  unfold append_proc. set (k1 := modp k p _).
  assert (E : core k1 = core k) by (by apply core_modp).
  clearbody k1. rewrite <- E. by destruct (zget (face k1) a =? -1).
Qed.

Lemma core_push a p k : core (push a p k) = core k.
Proof. unfold push. repeat case_test; rewrite ?core_append_proc; reflexivity. Qed.

Lemma core_fold {A} (f : kstate X -> A -> kstate X) l k :
  (forall k x, core (f k x) = core k) -> core (fold_left f l k) = core k.
Proof. intros Hf. revert k. induction l as [|x l IH]; intros k; cbn; [done | by rewrite IH, Hf]. Qed.

Lemma core_remove i p k : core (remove i p k) = core k.
Proof.
  assert (Hs : forall hi lo k, core (bump_face i (shift_up i hi lo k)) = core k).
  { intros hi lo k0. change (core (shift_up i hi lo k0) = core k0). by apply core_fold. }
  unfold remove. cbn zeta. repeat case_test; rewrite ?Hs; try reflexivity.
  all: apply core_fold; intros k0 j; by destruct (j =? 0).
Qed.

Lemma core_age_slot i j k : core (age_slot i j k) = core k.
Proof.
  unfold age_slot. destruct (qcell k i j) as [p|]; [| done].
  case_test; [| done]. rewrite core_push, core_modp by done. apply core_remove.
Qed.

Lemma core_age_loop fuel bound i j k : core (age_loop fuel bound i j k) = core k.
Proof.
  revert j k. induction fuel as [|fuel IH]; intros j k; cbn [age_loop]; [done |].
  case_test; [| done]. by rewrite IH, core_age_slot.
Qed.

Lemma core_age_all k : core (age_all k) = core k.
Proof.
  apply core_fold. intros k0 i. unfold age_queue. cbn zeta.
  repeat case_test; rewrite ?core_age_loop; reflexivity.
Qed.

Lemma core_pop a k : core (snd (pop a k)) = core k.
Proof. unfold pop. repeat case_test; reflexivity. Qed.

Lemma core_pick k : core (snd (pick k)) = core k.
Proof.
  unfold pick. generalize (zrange 0 4) as l. induction l as [|i l IH]; cbn [pick_from]; [done |].
  case_test; [apply core_pop | done].
Qed.
End core.
#[export] Hint Rewrite @core_push @core_remove @core_age_all @core_pop @core_pick : proctable.

(** ** The abstract queues *)

Section spec.
Context {X : Type}.
Implicit Types (k : kstate X) (a i j : Z) (b p : nat).

Definition is_empty k i : Prop := zget (face k) i = -1.
#[export] Instance is_empty_dec k i : Decision (is_empty k i).
Proof. unfold is_empty. apply _. Defined.

Definition qlen k i : Z :=
  if zget (face k) i =? -1 then 0
  else (zget (back k) i - zget (face k) i) mod NPROC + 1.

(** Queue [i] as a list, the next process to pop first. *)
Definition ring k i : list (option nat) :=
  window NPROC (qcell k i) (zget (face k) i) (qlen k i).

Definition wf_row k i : Prop :=
  (zget (face k) i = -1 /\ zget (back k) i = -1) \/
  (0 <= zget (face k) i < NPROC /\ 0 <= zget (back k) i < NPROC).

Definition wf_arrays k : Prop :=
  length (face k) = 5%nat /\ length (back k) = 5%nat /\ length (sz k) = 5%nat /\
  length (queue k) = 320%nat.

(** The invariant of the run queues: indices in range, and every queued pointer
    points into the process table. *)
Definition wf_queues k : Prop :=
  wf_arrays k /\
  forall i, 0 <= i < 5 ->
    wf_row k i /\
    forall c, c ∈ ring k i -> exists p, c = Some p /\ (p < length (procs k))%nat.

(** push's duplicate check misreads an empty queue [i]: it looks at
    [queue[i][-1]].  [ghost k b] says that it meets [b] there. *)
Definition ghost k b : Prop :=
  exists i, 0 <= i < 5 /\ is_empty k i /\ qcell k i (-1) = Some b.

Definition queued k b : Prop := exists i, 0 <= i < 5 /\ Some b ∈ ring k i.
End spec.

Section facts.
Context {X : Type}.
Implicit Types (k : kstate X) (a i j : Z) (b p : nat).

Lemma qlen_empty k i : is_empty k i -> qlen k i = 0.
Proof. unfold qlen, is_empty. by intros ->. Qed.

Lemma qlen_ne k i :
  ~ is_empty k i -> qlen k i = (zget (back k) i - zget (face k) i) mod NPROC + 1.
Proof. unfold qlen, is_empty. intros H%Z.eqb_neq. by rewrite H. Qed.

Lemma qlen_range k i : 0 <= qlen k i <= NPROC.
Proof.
  unfold qlen. case_match; [done |].
  pose proof (Z.mod_pos_bound (zget (back k) i - zget (face k) i) NPROC eq_refl). lia.
Qed.

Lemma qlen_pos k i : ~ is_empty k i -> 0 < qlen k i.
Proof.
  intros H. rewrite qlen_ne by done.
  pose proof (Z.mod_pos_bound (zget (back k) i - zget (face k) i) NPROC eq_refl). lia.
Qed.

Lemma ring_empty k i : is_empty k i <-> ring k i = [].
Proof.
  split.
  - intros H. unfold ring. rewrite qlen_empty by done. by apply window_nil.
  - intros H. apply dec_stable. intros Hne%qlen_pos.
    apply (f_equal length) in H. unfold ring in H. rewrite length_window in H.
    cbn in H. lia.
Qed.

Lemma qcell_set k i j v i' j' :
  wf_arrays k -> 0 <= i < 5 -> 0 <= j < NPROC -> 0 <= i' < 5 -> 0 <= j' < NPROC ->
  qcell (set_qcell i j v k) i' j' =
  if decide (i' = i /\ j' = j) then v else qcell k i' j'.
Proof.
  intros (_ & _ & _ & Hq) Hi Hj Hi' Hj'. unfold qcell, set_qcell in *. cbn.
  rewrite (proj2 (Z.eqb_neq (64 * i' + j') (-1))) by lia.
  case_decide as Hd.
  - destruct Hd as [-> ->]. rewrite zlookup_zupd_eq; [done | unfold zlen; lia].
  - rewrite zlookup_zupd_ne; [done | lia].
Qed.

(** The part of [qcell] that the rows other than [i] see is untouched by writes
    to row [i]. *)
Lemma qcell_set_other k i j v i' j' :
  wf_arrays k -> 0 <= i < 5 -> 0 <= j < NPROC -> 0 <= i' < 5 -> 0 <= j' < NPROC ->
  i' <> i -> qcell (set_qcell i j v k) i' j' = qcell k i' j'.
Proof. intros. rewrite qcell_set by done. rewrite decide_False by tauto. done. Qed.

Lemma found_in_spec k i b lo hi :
  found_in k i b lo hi = true <->
  exists j, lo <= j <= hi /\ qcell k i j = Some b.
Proof.
  unfold found_in. rewrite existsb_elem_of. unfold points_to.
  setoid_rewrite elem_of_zrange. setoid_rewrite bool_decide_eq_true. done.
Qed.

(** Positions of a circular queue: the slots the code enumerates are the slots
    of the window. *)
Lemma slots_of_ring k i (P : Z -> Prop) :
  wf_row k i -> ~ is_empty k i ->
  let f := zget (face k) i in let r := zget (back k) i in
  (exists t, 0 <= t < qlen k i /\ P ((f + t) mod NPROC)) <->
  (if f <=? r then exists j, f <= j <= r /\ P j
   else (exists j, f <= j <= NPROC - 1 /\ P j) \/ (exists j, 0 <= j <= r /\ P j)).
Proof.
  intros [[Hf _]|[Hf Hr]] Hne f r; [contradiction |].
  rewrite qlen_ne by done. fold f r. fold f in Hf; fold r in Hr.
  destruct (Z.leb_spec f r) as [Hfr|Hfr].
  - rewrite (Z.mod_small (r - f)) by lia. split.
    + intros (t & Ht & HP). exists (f + t).
      rewrite Z.mod_small in HP by lia. split; [lia | done].
    + intros (j & Hj & HP). exists (j - f). split; [lia |].
      rewrite Z.mod_small by lia. by replace (f + (j - f)) with j by lia.
  - replace ((r - f) mod 64) with (r - f + 64)
      by (apply (Z.mod_unique_pos _ _ (-1)); lia).
    split.
    + intros (t & Ht & HP). destruct (decide (f + t < 64)).
      * left. exists (f + t). rewrite Z.mod_small in HP by lia. split; [lia | done].
      * right. exists (f + t - 64). split; [lia |].
        by rewrite (Z.mod_unique_pos (f + t) 64 1 (f + t - 64)) by lia.
    + intros [(j & Hj & HP)|(j & Hj & HP)].
      * exists (j - f). split; [lia |]. rewrite Z.mod_small by lia.
        by replace (f + (j - f)) with j by lia.
      * exists (j + 64 - f). split; [lia |].
        replace (f + (j + 64 - f)) with (j + 1 * 64) by lia.
        rewrite Z_mod_plus_full, Z.mod_small by lia. done.
Qed.

Lemma scan_spec k b i :
  wf_row k i -> ~ is_empty k i -> scan k b i = true <-> Some b ∈ ring k i.
Proof.
  intros Hwf Hne. unfold ring. rewrite elem_of_window.
  pose proof (slots_of_ring k i (fun j => Some b = qcell k i j) Hwf Hne) as Hs.
  cbn zeta in Hs. rewrite Hs. clear Hs. unfold scan.
  destruct (_ <=? _); rewrite ?orb_true_iff, !found_in_spec; firstorder congruence.
Qed.

Lemma scan_empty k b i :
  wf_row k i -> is_empty k i -> scan k b i = true <-> qcell k i (-1) = Some b.
Proof.
  intros [[Hf Hr]|[Hf _]] He; [| unfold is_empty in He; lia].
  unfold scan. rewrite Hf, Hr, Z.leb_refl.
  rewrite found_in_spec. split.
  - intros (j & Hj & H). by replace j with (-1) in H by lia.
  - intros H. exists (-1). split; [lia | done].
Qed.

(** What the duplicate check of push computes. *)
Lemma dup_check_spec k b :
  (forall i, 0 <= i < 5 -> wf_row k i) ->
  existsb (scan k b) (zrange 0 4) = true <-> queued k b \/ ghost k b.
Proof.
  intros Hwf. rewrite existsb_elem_of. setoid_rewrite elem_of_zrange. split.
  - intros (i & Hi & Hs). destruct (decide (is_empty k i)) as [He|He].
    + right. exists i. rewrite <- scan_empty by (try apply Hwf; done || lia).
      split_and!; try lia; done.
    + left. exists i. rewrite <- scan_spec by (try apply Hwf; done || lia).
      split; [lia | done].
  - intros [(i & Hi & Hin)|(i & Hi & He & Hc)]; exists i; (split; [lia |]).
    + rewrite scan_spec; [done | apply Hwf; lia |].
      intros Hem%ring_empty. rewrite Hem in Hin. by apply elem_of_nil in Hin.
    + by rewrite scan_empty by (apply Hwf || done; lia).
Qed.

Lemma is_full_spec k a :
  wf_row k a -> ~ is_empty k a -> is_full k a = true <-> qlen k a = NPROC.
Proof.
  intros [[Hf _]|[Hf Hr]] Hne; [contradiction |].
  unfold is_full. rewrite qlen_ne by done. 
  rewrite orb_true_iff, andb_true_iff, !Z.eqb_eq.
  pose proof (Z.div_mod (zget (back k) a - zget (face k) a) 64 ltac:(lia)).
  pose proof (Z.mod_pos_bound (zget (back k) a - zget (face k) a) 64 ltac:(lia)).
  lia.
Qed.
End facts.

Section refinement.
Context {X : Type}.
Implicit Types (k : kstate X) (a i j : Z) (b p : nat).

Lemma ring_frame k k' i :
  zget (face k') i = zget (face k) i -> zget (back k') i = zget (back k) i ->
  (forall j, 0 <= j < NPROC -> qcell k' i j = qcell k i j) ->
  ring k' i = ring k i.
Proof.
  intros Hf Hb Hc. unfold ring.
  replace (qlen k' i) with (qlen k i) by (unfold qlen; by rewrite Hf, Hb).
  apply window_ext. intros t Ht. rewrite Hf. apply Hc.
  apply Z.mod_pos_bound. done.
Qed.

Lemma wf_row_frame k k' i :
  zget (face k') i = zget (face k) i -> zget (back k') i = zget (back k) i ->
  wf_row k i -> wf_row k' i.
Proof. unfold wf_row. intros -> ->. done. Qed.

(** Re-establish the invariant after an operation on queue [a]. *)
Lemma wf_queues_update k k' a :
  wf_queues k -> wf_arrays k' -> length (procs k') = length (procs k) ->
  (forall i, 0 <= i < 5 -> i <> a ->
    zget (face k') i = zget (face k) i /\ zget (back k') i = zget (back k) i /\
    forall j, 0 <= j < NPROC -> qcell k' i j = qcell k i j) ->
  wf_row k' a ->
  (forall c, c ∈ ring k' a -> exists p, c = Some p /\ (p < length (procs k))%nat) ->
  wf_queues k'.
Proof.
  intros [Ha Hq] Ha' Hlen Hother Hrow Hring. split; [done |].
  intros i Hi. destruct (decide (i = a)) as [->|Hne].
  - split; [done |]. by rewrite Hlen.
  - destruct (Hother i Hi Hne) as (Hf & Hb & Hc), (Hq i Hi) as [Hr Hin].
    split; [by eapply wf_row_frame |].
    rewrite (ring_frame k k' i Hf Hb Hc), Hlen. done.
Qed.

Lemma append_proc_arrays a b k :
  wf_arrays k -> 0 <= a < 5 ->
  let k' := append_proc a b k in
  let s := (zget (back k) a + 1) mod NPROC in
  wf_arrays k' /\
  face k' = (if zget (face k) a =? -1 then zupd (face k) a 0 else face k) /\
  back k' = zupd (back k) a s /\
  queue k' = zupd (queue k) (NPROC * a + s) (Some b) /\
  below_queue k' = below_queue k /\
  length (procs k') = length (procs k).
Proof.
  intros (Hf & Hb & Hs & Hq) Ha k' s.
  assert (Hback : back k' = zupd (back k) a s).
  { subst k' s. unfold append_proc. cbn. by destruct (_ =? -1). }
  assert (Hqueue : queue k' = zupd (queue k) (NPROC * a + s) (Some b)).
  { subst k' s. unfold append_proc. cbn.
    destruct (_ =? -1); cbn;
      rewrite zget_zupd_eq by (unfold zlen; lia); done. }
  assert (Hface : face k' = if zget (face k) a =? -1 then zupd (face k) a 0 else face k).
  { subst k'. unfold append_proc. cbn. by destruct (_ =? -1). }
  split_and!; try done.
  - unfold wf_arrays. rewrite Hface, Hback, Hqueue.
    destruct (_ =? -1); rewrite ?length_zupd; split_and!; try done;
      subst k'; unfold append_proc; cbn; destruct (_ =? -1); cbn;
      by rewrite length_zupd.
  - subst k'. unfold append_proc. cbn. by destruct (_ =? -1).
  - subst k'. unfold append_proc. cbn.
    destruct (_ =? -1); cbn; by rewrite length_alter.
Qed.

Lemma append_proc_cell a b k i j :
  wf_arrays k -> 0 <= a < 5 -> wf_row k a -> 0 <= i < 5 -> 0 <= j < NPROC ->
  qcell (append_proc a b k) i j =
  if decide (i = a /\ j = (zget (back k) a + 1) mod NPROC) then Some b
  else qcell k i j.
Proof.
  intros Hwf Ha Hrow Hi Hj.
  destruct (append_proc_arrays a b k Hwf Ha) as (_ & _ & _ & Hq & Hbl & _).
  rewrite <- (qcell_set k a ((zget (back k) a + 1) mod NPROC) (Some b) i j); try done.
  - unfold qcell at 1. by rewrite Hq, Hbl.
  - by apply Z.mod_pos_bound.
Qed.

Lemma append_proc_frame a b k i :
  wf_arrays k -> 0 <= a < 5 -> wf_row k a -> 0 <= i < 5 -> i <> a ->
  let k' := append_proc a b k in
  zget (face k') i = zget (face k) i /\ zget (back k') i = zget (back k) i /\
  forall j, 0 <= j < NPROC -> qcell k' i j = qcell k i j.
Proof.
  intros Hwf Ha Hrow Hi Hne k'.
  destruct (append_proc_arrays a b k Hwf Ha) as (_ & Hf & Hb & _). fold k' in Hf, Hb.
  split_and!.
  - rewrite Hf. destruct (_ =? -1); [by apply zget_zupd_ne | done].
  - rewrite Hb. by apply zget_zupd_ne.
  - intros j Hj. subst k'. rewrite append_proc_cell by done.
    by rewrite decide_False by tauto.
Qed.

(** The abstract effect of the enqueue: the process becomes the last one. *)
(** Writing the cell behind the back of a ring that is not full appends to it. *)
Lemma window_push {A} (c c' : Z -> A) f r x :
  let s := (r + 1) mod NPROC in
  (r - f) mod NPROC + 1 < NPROC ->
  (forall j, 0 <= j < NPROC -> c' j = if decide (j = s) then x else c j) ->
  window NPROC c' f ((s - f) mod NPROC + 1) = window NPROC c f ((r - f) mod NPROC + 1) ++ [x].
Proof.
  intros s Hlen Hcell. assert (Hs : 0 <= s < NPROC) by (by apply Z.mod_pos_bound).
  set (d := (r - f) mod NPROC) in *.
  assert (Hd : (s - f) mod NPROC = d + 1).
  { subst s d. rewrite Zminus_mod_idemp_l. replace (r + 1 - f) with ((r - f) + 1) by lia.
    rewrite <- (Zplus_mod_idemp_l (r - f)). apply Z.mod_small.
    pose proof (Z.mod_pos_bound (r - f) NPROC). lia. }
  assert (Hsf : (f + (d + 1)) mod NPROC = s).
  { rewrite <- Hd, Zplus_mod_idemp_r. replace (f + (s - f)) with s by lia. by apply Z.mod_small. }
  rewrite Hd, window_snoc by (subst d; pose proof (Z.mod_pos_bound (r - f) NPROC); lia).
  f_equal; [|rewrite Hcell by (apply Z.mod_pos_bound; lia); by rewrite decide_True].
  apply window_ext. intros t Ht. rewrite Hcell by (apply Z.mod_pos_bound; lia).
  rewrite decide_False; [done |]. intros Heq. rewrite <- Hsf in Heq.
  assert ((t - (d + 1)) mod NPROC = 0).
  { replace (t - (d + 1)) with ((f + t) - (f + (d + 1))) by lia.
    rewrite Zminus_mod, Heq, Z.sub_diag. done. }
  pose proof (Z.div_mod (t - (d + 1)) NPROC). lia.
Qed.

Lemma append_proc_ring a b k :
  wf_arrays k -> 0 <= a < 5 -> wf_row k a -> qlen k a < NPROC ->
  wf_row (append_proc a b k) a /\
  ring (append_proc a b k) a = ring k a ++ [Some b].
Proof.
  intros Hwf Ha Hrow Hlen. set (k' := append_proc a b k).
  destruct (append_proc_arrays a b k Hwf Ha) as (_ & Hf & Hb & _). fold k' in Hf, Hb.
  set (s := (zget (back k) a + 1) mod NPROC) in *.
  assert (Hs : 0 <= s < NPROC) by (by apply Z.mod_pos_bound).
  destruct Hwf as (Hlf & Hlb & Hwf').
  assert (Hback : zget (back k') a = s)
    by (rewrite Hb; apply zget_zupd_eq; unfold zlen; lia).
  assert (Hface : zget (face k') a = if zget (face k) a =? -1 then 0 else zget (face k) a).
  { rewrite Hf. destruct (_ =? -1); [| done]. apply zget_zupd_eq. unfold zlen. lia. }
  assert (Hcell : forall j, 0 <= j < NPROC ->
            qcell k' a j = if decide (j = s) then Some b else qcell k a j).
  { intros j Hj. subst k'. rewrite append_proc_cell by done. fold s.
    destruct (decide (j = s)); [by rewrite decide_True | by rewrite decide_False by tauto]. }
  clearbody k'. destruct Hrow as [[Hf0 Hb0]|[Hf0 Hb0]].
  - rewrite Hf0, Z.eqb_refl in Hface.
    assert (Hs0 : s = 0) by (subst s; by rewrite Hb0).
    split; [right; lia |].
    rewrite (proj1 (ring_empty k a) Hf0). cbn [app]. unfold ring, qlen.
    rewrite Hface, Hback, Hs0.
    change (if 0 =? -1 then 0 else (0 - 0) mod NPROC + 1) with 1.
    rewrite window_cons, window_nil, Hcell by done. by rewrite decide_True.
  - rewrite (proj2 (Z.eqb_neq (zget (face k) a) (-1))) in Hface by lia.
    cbv iota in Hface.
    split; [right; lia |].
    assert (Hne : ~ is_empty k a) by (unfold is_empty; lia).
    rewrite qlen_ne in Hlen by done.
    unfold ring. rewrite !qlen_ne by (done || unfold is_empty; lia). rewrite Hface, Hback.
    by apply window_push.
Qed.
End refinement.

Section push_pop.
Context {X : Type}.
Implicit Types (k : kstate X) (a i j : Z) (b p : nat).

(** push, branch by branch. *)
Lemma push_cases a b k :
  wf_queues k -> 0 <= a < 5 ->
  (push a b k = append_proc a b k /\ qlen k a < NPROC /\
    (is_empty k a \/ ~ is_empty k a /\ ~ queued k b /\ ~ ghost k b)) \/
  (push a b k = k /\ ~ is_empty k a /\ (queued k b \/ ghost k b)) \/
  (push a b k = cprintf k "queue full\n" /\ qlen k a = NPROC /\ ~ is_empty k a /\
    ~ queued k b /\ ~ ghost k b).
Proof.
  intros [Hwa Hwf] Ha. unfold push.
  destruct (zget (face k) a =? -1) eqn:E; bool_to_prop.
  { left. split; [done |]. rewrite qlen_empty by done. split; [lia | by left]. }
  assert (Hrows : forall i, 0 <= i < 5 -> wf_row k i) by (intros i Hi; by apply Hwf).
  destruct (existsb (scan k b) (zrange 0 4)) eqn:Ed.
  { right. left. rewrite dup_check_spec in Ed by done. done. }
  assert (Hnd : ~ (queued k b \/ ghost k b))
    by (rewrite <- dup_check_spec, Ed by done; done).
  pose proof (is_full_spec k a (Hrows a Ha) E) as Hfull.
  pose proof (qlen_range k a).
  destruct (is_full k a).
  - right. right. split_and!; tauto.
  - left. split; [done |]. split; [| right; tauto].
    destruct (decide (qlen k a = NPROC)) as [He|He]; [| lia].
    apply Hfull in He. done.
Qed.

Lemma append_proc_wf a b k :
  wf_queues k -> 0 <= a < 5 -> (b < length (procs k))%nat -> qlen k a < NPROC ->
  wf_queues (append_proc a b k).
Proof.
  intros Hwf Ha Hb Hlen. destruct (Hwf) as [Hwa Hrows].
  destruct (Hrows a Ha) as [Hra Hin].
  destruct (append_proc_ring a b k Hwa Ha Hra Hlen) as [Hr' Hring].
  destruct (append_proc_arrays a b k Hwa Ha) as (Hwa' & _ & _ & _ & _ & Hp).
  apply (wf_queues_update k _ a); try done.
  - intros i Hi Hne. by apply append_proc_frame.
  - rewrite Hring. intros c. rewrite elem_of_app, list_elem_of_singleton.
    intros [Hc| ->]; [by apply Hin | eauto].
Qed.

Lemma push_wf a b k :
  wf_queues k -> 0 <= a < 5 -> (b < length (procs k))%nat -> wf_queues (push a b k).
Proof.
  intros Hwf Ha Hb.
  destruct (push_cases a b k Hwf Ha) as [(-> & Hlen & _)|[(-> & _)|(-> & _)]];
    [by apply append_proc_wf | done | done].
Qed.

Lemma push_ring_other a b k i :
  wf_queues k -> 0 <= a < 5 -> 0 <= i < 5 -> i <> a ->
  ring (push a b k) i = ring k i.
Proof.
  intros Hwf Ha Hi Hne. destruct (Hwf) as [Hwa Hrows].
  destruct (push_cases a b k Hwf Ha) as [(-> & _)|[(-> & _)|(-> & _)]]; try done.
  destruct (append_proc_frame a b k i Hwa Ha) as (? & ? & ?); try done.
  - by apply Hrows.
  - by apply ring_frame.
Qed.

Lemma length_procs_push a b k :
  wf_arrays k -> 0 <= a < 5 -> length (procs (push a b k)) = length (procs k).
Proof.
  intros Hwa Ha. destruct (append_proc_arrays a b k Hwa Ha) as (_ & _ & _ & _ & _ & H).
  unfold push. by repeat case_match.
Qed.

(** pop: what it returns, what it leaves, and what it does not touch. *)
Lemma pop_arrays a k :
  wf_arrays k -> 0 <= a < 5 -> ~ is_empty k a ->
  let k' := snd (pop a k) in
  wf_arrays k' /\ procs k' = procs k /\
  (forall i j, qcell k' i j = qcell k i j) /\
  (forall i, i <> a ->
    zget (face k') i = zget (face k) i /\ zget (back k') i = zget (back k) i) /\
  if zget (face k) a =? zget (back k) a
  then zget (face k') a = -1 /\ zget (back k') a = -1
  else zget (face k') a = (zget (face k) a + 1) mod NPROC /\
       zget (back k') a = zget (back k) a.
Proof.
  intros (Hf & Hb & Hs & Hq) Ha Hne. apply Z.eqb_neq in Hne.
  unfold pop, wf_arrays. rewrite Hne. cbn.
  destruct (zget (face k) a =? zget (back k) a); cbn; split_and!; try done;
    rewrite ?length_zupd; try done;
    intros; rewrite ?zget_zupd_ne, ?zget_zupd_eq by (done || unfold zlen; lia); done.
Qed.

Lemma pop_ring_self a k :
  wf_queues k -> 0 <= a < 5 -> ~ is_empty k a ->
  wf_row (snd (pop a k)) a /\ ring k a = fst (pop a k) :: ring (snd (pop a k)) a.
Proof.
  intros [Hwa Hrows] Ha Hne. destruct (Hrows a Ha) as [Hra _].
  destruct (pop_arrays a k Hwa Ha Hne) as (_ & _ & Hc & _ & Hself).
  assert (Hfst : fst (pop a k) = qcell k a (zget (face k) a))
    by (unfold pop; by rewrite (proj2 (Z.eqb_neq _ _) Hne)).
  rewrite Hfst. clear Hfst. set (k' := snd (pop a k)) in *. clearbody k'.
  destruct Hra as [[Hf0 _]|[Hf0 Hb0]]; [done |].
  unfold ring at 1. rewrite window_cons by (done || by apply qlen_pos).
  rewrite (Z.mod_small (zget (face k) a)) by lia. rewrite qlen_ne by done.
  destruct (zget (face k) a =? zget (back k) a) eqn:E; bool_to_prop;
    destruct Hself as [Hf' Hb'].
  - split; [by left |]. f_equal. rewrite (proj1 (ring_empty k' a)) by done.
    rewrite window_nil; [done |]. by rewrite E, Z.sub_diag.
  - assert (Hm : 0 <= (zget (face k) a + 1) mod 64 < 64) by (apply Z.mod_pos_bound; lia).
    split; [right; lia |]. f_equal. unfold ring.
    rewrite (qlen_ne k') by (unfold is_empty; lia).
    rewrite Hf', Hb', Zminus_mod_idemp_r.
    replace ((zget (back k) a - (zget (face k) a + 1)) mod 64 + 1)
      with ((zget (back k) a - zget (face k) a) mod 64 + 1 - 1).
    + apply window_ext. intros t Ht. by rewrite Hc.
    + Z.to_euclidean_division_equations. lia.
Qed.

Lemma pop_ring a k :
  wf_queues k -> 0 <= a < 5 -> ~ is_empty k a ->
  wf_queues (snd (pop a k)) /\
  ring k a = fst (pop a k) :: ring (snd (pop a k)) a /\
  (forall i, 0 <= i < 5 -> i <> a -> ring (snd (pop a k)) i = ring k i).
Proof.
  intros Hwf Ha Hne. destruct (Hwf) as [Hwa Hrows].
  destruct (pop_arrays a k Hwa Ha Hne) as (Hwa' & Hp & Hc & Ho & _).
  destruct (pop_ring_self a k Hwf Ha Hne) as [Hr' Hring].
  split_and!; try done.
  - apply (wf_queues_update k _ a); try done.
    + by rewrite Hp.
    + intros i Hi Hia. destruct (Ho i Hia) as [? ?]. auto.
    + intros c Hcin. apply (Hrows a Ha). rewrite Hring. by right.
  - intros i Hi Hia. destruct (Ho i Hia) as [? ?]. apply ring_frame; auto.
Qed.
End push_pop.

Section remove.
Context {X : Type}.
Implicit Types (k : kstate X) (a i j lo hi m : Z) (b p : nat).

(** What a loop over the slots of row [i] leaves alone. *)
Definition row_frame i k k' : Prop :=
  wf_arrays k' /\ face k' = face k /\ back k' = back k /\ procs k' = procs k /\
  forall i' j', 0 <= i' < 5 -> i' <> i -> 0 <= j' < NPROC ->
    qcell k' i' j' = qcell k i' j'.

Lemma row_frame_refl i k : wf_arrays k -> row_frame i k k.
Proof. intros (? & ? & ? & ?). by split_and!. Qed.

Lemma row_frame_trans i k1 k2 k3 :
  row_frame i k1 k2 -> row_frame i k2 k3 -> row_frame i k1 k3.
Proof.
  intros (Hw1 & Hf1 & Hb1 & Hp1 & Hc1) (Hw2 & Hf2 & Hb2 & Hp2 & Hc2).
  split; [done |]. split_and!; try congruence.
  intros i' j' Hi' Hne Hj'. by rewrite Hc2, Hc1.
Qed.

Lemma row_frame_set i j v k :
  wf_arrays k -> 0 <= i < 5 -> 0 <= j < NPROC -> row_frame i k (set_qcell i j v k).
Proof.
  intros Hw Hi Hj. split.
  - destruct Hw as (H1 & H2 & H3 & H4). split_and!; try done. cbn.
    by rewrite length_zupd.
  - split_and!; try done. intros i' j' Hi' Hne Hj'. by apply qcell_set_other.
Qed.

Lemma search_spec k i p lo hi :
  0 <= lo ->
  (search k i p lo hi = -1 /\ forall j, lo <= j <= hi -> qcell k i j <> Some p) \/
  (lo <= search k i p lo hi <= hi /\
   qcell k i (search k i p lo hi) = Some p /\
   forall j, lo <= j < search k i p lo hi -> qcell k i j <> Some p).
Proof.
  unfold search. remember (Z.to_nat (hi - lo + 1)) as n eqn:Hn.
  revert lo Hn. induction n as [|n IH]; intros lo Hn Hlo.
  - left. rewrite zrange_nil by lia. split; [done | lia].
  - rewrite zrange_cons by lia. cbn [List.find].
    destruct (points_to (qcell k i lo) p) eqn:E; unfold points_to in E; bool_to_prop.
    + right. cbn. split_and!; [lia | lia | done | lia].
    + destruct (IH (lo + 1)) as [[Hs Hall]|(Hs & Hc & Hall)]; [lia | lia | |].
      * left. split; [done |]. intros j Hj.
        destruct (decide (j = lo)) as [->|]; [done | apply Hall; lia].
      * right. split_and!; try lia; [done |]. intros j Hj.
        destruct (decide (j = lo)) as [->|]; [done | apply Hall; lia].
Qed.

(** The slot remove finds: in the order of the queue, the first one with [p]. *)
Definition locate k i p : Z :=
  if zget (face k) i <=? zget (back k) i
  then search k i p (zget (face k) i) (zget (back k) i)
  else
    let m := search k i p (zget (face k) i) (NPROC - 1) in
    if m =? -1 then search k i p 0 (zget (back k) i) else m.

Definition offset k i m : Z := (m - zget (face k) i) mod NPROC.

Lemma locate_slot k i p :
  0 <= zget (face k) i -> 
  let f := zget (face k) i in
  let r := zget (back k) i in
  let m := locate k i p in
  (m = -1 /\ forall j, (f <= j <= r \/ r < f /\ (f <= j <= NPROC - 1 \/ 0 <= j <= r)) ->
     qcell k i j <> Some p) \/
  (qcell k i m = Some p /\
   (f <= m /\ (m <= r \/ r < f /\ m <= NPROC - 1) /\
      (forall j, f <= j < m -> qcell k i j <> Some p) \/
    0 <= m <= r /\ r < f /\
      (forall j, f <= j <= NPROC - 1 \/ 0 <= j < m -> qcell k i j <> Some p))).
Proof.
  intros Hf f r m. unfold m, locate. fold f r.
  destruct (Z.leb_spec f r) as [Hfr|Hfr].
  - destruct (search_spec k i p f r Hf) as [[-> Hall]|(Hm & Hc & Hall)].
    + left. split; [done |]. intros j Hj. apply Hall. lia.
    + right. split; [done |]. left. split_and!; [lia | lia | done].
  - destruct (search_spec k i p f (NPROC - 1) Hf) as [[-> Hall1]|(Hm & Hc & Hall)].
    + destruct (search_spec k i p 0 r ltac:(lia)) as [[Hm Hall]|(Hm & Hc & Hall)];
        cbn zeta; rewrite Z.eqb_refl.
      * left. split; [done |].
        intros j [?|[_ [?|?]]]; [lia | by apply Hall1 | by apply Hall].
      * right. split; [done |]. right. split_and!; [lia | lia | lia |].
        intros j [?|?]; [by apply Hall1 | by apply Hall].
    + cbn zeta. rewrite (proj2 (Z.eqb_neq _ _)) by lia.
      right. split; [done |]. left. split_and!; [lia | lia | done].
Qed.

Lemma locate_spec k i p :
  wf_row k i -> ~ is_empty k i ->
  let f := zget (face k) i in
  let m := locate k i p in
  let d := offset k i m in
  (m = -1 /\ Some p ∉ ring k i) \/
  (0 <= m < NPROC /\ 0 <= d < qlen k i /\ m = (f + d) mod NPROC /\
   (m < f -> m <= zget (back k) i < f) /\
   ring k i !! Z.to_nat d = Some (Some p) /\
   forall t, 0 <= t < d -> qcell k i ((f + t) mod NPROC) <> Some p).
Proof.
  intros Hrow Hne f m d. pose proof (qlen_ne k i Hne) as Hq. fold f in Hq.
  destruct (Hrow) as [[Hf _]|[Hf Hr]]; [done |]. fold f in Hf.
  set (r := zget (back k) i) in *.
  destruct (locate_slot k i p ltac:(fold f; lia)) as [[Hm Hall]|[Hc Hm]];
    fold f m r in Hm; try fold m in Hc.
  - left. split; [done |]. fold f r in Hall. unfold ring. rewrite elem_of_window. fold f.
    intros Hex. pose proof (slots_of_ring k i (fun j => Some p = qcell k i j) Hrow Hne) as Hs.
    cbn zeta in Hs. fold f r in Hs. rewrite Hs in Hex. clear Hs.
    destruct (Z.leb_spec f r); [destruct Hex as (j & Hj & Hj') |
      destruct Hex as [(j & Hj & Hj')|(j & Hj & Hj')]]; apply (Hall j); auto; lia.
  - right. assert (Hm64 : 0 <= m < 64) by lia.
    assert (Hd : d = if decide (m < f) then m - f + 64 else m - f).
    { unfold d, offset. fold f. case_decide.
      - symmetry. apply (Z.mod_unique_pos _ _ (-1)); lia.
      - apply Z.mod_small. lia. }
    assert (Hq' : qlen k i = if decide (r < f) then r - f + 64 + 1 else r - f + 1).
    { rewrite Hq. destruct (decide (r < f)); f_equal.
      - symmetry. apply (Z.mod_unique_pos _ _ (-1)); lia.
      - apply Z.mod_small. lia. }
    assert (Hmd : m = (f + d) mod 64).
    { unfold d, offset. fold f. rewrite Zplus_mod_idemp_r.
      replace (f + (m - f)) with m by lia. by rewrite Z.mod_small. }
    assert (Hdr : 0 <= d < qlen k i) by (rewrite Hd, Hq'; repeat case_decide; lia).
    split_and!; try done; try lia.
    + unfold ring. fold f. rewrite lookup_window by lia.
      rewrite Z2Nat.id by lia. by rewrite <- Hmd, Hc.
    + intros t Ht. rewrite Hd in Ht.
      destruct Hm as [(Hfm & _ & Hall)|(Hmr & Hrf & Hall)]; apply Hall.
      * rewrite decide_False in Ht by lia. rewrite Z.mod_small by lia. lia.
      * rewrite decide_True in Ht by lia. destruct (decide (f + t < 64)).
        -- rewrite Z.mod_small by lia. lia.
        -- rewrite <- (Z.mod_unique_pos (f + t) 64 1 (f + t - 64)) by lia. lia.
Qed.

Lemma shift_up_spec i hi lo k :
  wf_arrays k -> 0 <= i < 5 -> 1 <= lo -> hi < NPROC ->
  row_frame i k (shift_up i hi lo k) /\
  forall x, 0 <= x < NPROC ->
    qcell (shift_up i hi lo k) i x =
    if decide (lo <= x <= hi) then qcell k i (x - 1) else qcell k i x.
Proof.
  intros Hw Hi Hlo. unfold shift_up. remember (Z.to_nat (hi - lo + 1)) as n eqn:Hn.
  revert hi k Hw Hn. induction n as [|n IH]; intros hi k Hw Hn Hhi.
  - rewrite zdown_nil by lia. split; [by apply row_frame_refl |].
    intros x Hx. by rewrite decide_False by lia.
  - rewrite zdown_cons by lia. cbn [fold_left].
    set (k1 := set_qcell i hi (qcell k i (hi - 1)) k).
    assert (Hk1 : row_frame i k k1) by (apply row_frame_set; done || lia).
    destruct (IH (hi - 1) k1) as [Hfr Hc]; [apply Hk1 | lia | lia |].
    split; [by eapply row_frame_trans |].
    intros x Hx. rewrite Hc by done.
    assert (Hk1c : forall y, 0 <= y < 64 ->
              qcell k1 i y = if decide (y = hi) then qcell k i (hi - 1) else qcell k i y).
    { intros y Hy. unfold k1. rewrite qcell_set by (done || lia).
      destruct (decide (y = hi)); [by rewrite decide_True | by rewrite decide_False by tauto]. }
    destruct (decide (lo <= x <= hi - 1)).
    + rewrite Hk1c, decide_False, decide_True by lia. done.
    + rewrite Hk1c by done. destruct (decide (x = hi)) as [->|].
      * by rewrite decide_True by lia.
      * by rewrite decide_False by lia.
Qed.

(** The loop that moves the wrapped part, [j == 0] taking the last slot. *)
Definition shift_wrap i m k : kstate X :=
  fold_left (fun k j =>
    if j =? 0 then set_qcell i j (qcell k i (NPROC - 1)) k
    else set_qcell i j (qcell k i (j - 1)) k) (zdown m 0) k.

Lemma shift_wrap_step i m k :
  0 < m -> shift_wrap i m k = shift_wrap i (m - 1) (set_qcell i m (qcell k i (m - 1)) k).
Proof.
  intros Hm. unfold shift_wrap. rewrite (zdown_cons m) by lia. cbn [fold_left].
  by rewrite (proj2 (Z.eqb_neq m 0)) by lia.
Qed.

Lemma shift_wrap_spec i m k :
  wf_arrays k -> 0 <= i < 5 -> 0 <= m < NPROC - 1 ->
  row_frame i k (shift_wrap i m k) /\
  forall x, 0 <= x < NPROC ->
    qcell (shift_wrap i m k) i x =
    if decide (x = 0) then qcell k i (NPROC - 1)
    else if decide (x <= m) then qcell k i (x - 1) else qcell k i x.
Proof.
  intros Hw Hi. remember (Z.to_nat m) as n eqn:Hn.
  revert m k Hw Hn. induction n as [|n IH]; intros m k Hw Hn Hm.
  - replace m with 0 by lia. unfold shift_wrap.
    rewrite zdown_cons, zdown_nil by lia. cbn [fold_left Z.eqb].
    split; [apply row_frame_set; done || lia |].
    intros x Hx. rewrite qcell_set by (done || lia).
    destruct (decide (x = 0)); [by rewrite decide_True | by rewrite !decide_False by lia].
  - rewrite shift_wrap_step by lia.
    set (k1 := set_qcell i m (qcell k i (m - 1)) k).
    assert (Hk1 : row_frame i k k1) by (apply row_frame_set; done || lia).
    destruct (IH (m - 1) k1) as [Hfr Hc]; [apply Hk1 | lia | lia |].
    split; [by eapply row_frame_trans |].
    intros x Hx. rewrite Hc by done.
    assert (Hk1c : forall y, 0 <= y < 64 ->
              qcell k1 i y = if decide (y = m) then qcell k i (m - 1) else qcell k i y).
    { intros y Hy. unfold k1. rewrite qcell_set by (done || lia).
      destruct (decide (y = m)); [by rewrite decide_True | by rewrite decide_False by tauto]. }
    repeat case_decide; rewrite Hk1c by lia; repeat case_decide; try lia; try done.
    by subst.
Qed.

(** The state of the slots just before [face[i]] moves. *)
Definition shifted i m k : kstate X :=
  let f := zget (face k) i in
  if m =? f then k
  else if f <? m then shift_up i m (f + 1) k
  else shift_up i (NPROC - 1) (f + 1) (shift_wrap i m k).

Lemma remove_unfold i p k :
  0 <= zget (face k) i -> zget (face k) i <> zget (back k) i ->
  remove i p k =
  let m := locate k i p in if m =? -1 then k else bump_face i (shifted i m k).
Proof.
  intros Hf Hne. pose proof (locate_slot k i p Hf) as Hl. cbn zeta in Hl.
  unfold remove. rewrite (proj2 (Z.eqb_neq _ _) Hne).
  unfold locate in *. revert Hl.
  destruct (Z.leb_spec (zget (face k) i) (zget (back k) i)) as [Hfr|Hfr]; intros Hl.
  - cbn zeta in *. set (m := search k i p _ _) in *. unfold shifted.
    destruct (m =? -1) eqn:Em; [done |]. destruct (m =? zget (face k) i) eqn:Ef; [done |].
    bool_to_prop. by rewrite (proj2 (Z.ltb_lt _ _)) by lia.
  - cbn zeta in *.
    set (m := if search k i p (zget (face k) i) (NPROC - 1) =? -1 then _ else _).
    unfold shifted.
    destruct (m =? -1) eqn:Em; [done |]. destruct (m =? zget (face k) i); [done |].
    by destruct (_ <? m).
Qed.

Lemma shifted_spec i m k :
  wf_arrays k -> 0 <= i < 5 -> 0 <= zget (face k) i < NPROC -> 0 <= m < NPROC ->
  (m < zget (face k) i -> m <= zget (back k) i < zget (face k) i) ->
  let f := zget (face k) i in
  row_frame i k (shifted i m k) /\
  forall t, 0 <= t < NPROC - 1 ->
    qcell (shifted i m k) i ((f + 1 + t) mod NPROC) =
    if decide (t < offset k i m) then qcell k i ((f + t) mod NPROC)
    else qcell k i ((f + 1 + t) mod NPROC).
Proof.
  intros Hw Hi Hf Hm Hwrap f. fold f in Hf, Hwrap. unfold shifted, offset. fold f.
  assert (Hmod : forall y, 0 <= y < 128 -> y mod 64 = if decide (y < 64) then y else y - 64).
  { intros y Hy. case_decide; [apply Z.mod_small; lia |].
    symmetry. apply (Z.mod_unique_pos _ _ 1); lia. }
  assert (Hb64 : forall y, 0 <= y mod 64 < 64) by (intros y; apply Z.mod_pos_bound; lia).
  destruct (Z.eqb_spec m f) as [->|Hne]; [| destruct (Z.ltb_spec f m) as [Hlt|Hge]].
  - rewrite Z.sub_diag, Zmod_0_l. split; [by apply row_frame_refl |].
    intros t Ht. by rewrite decide_False by lia.
  - destruct (shift_up_spec i m (f + 1) k Hw Hi) as [Hfr Hc]; [lia | lia |].
    split; [done |]. intros t Ht. rewrite Hc by apply Hb64.
    rewrite (Z.mod_small (m - f)) by lia. rewrite !Hmod by lia.
    repeat case_decide; try lia; try done; f_equal; lia.
  - destruct (shift_wrap_spec i m k Hw Hi) as [Hfr1 Hc1]; [lia |].
    destruct (shift_up_spec i (NPROC - 1) (f + 1) (shift_wrap i m k)) as [Hfr2 Hc2];
      [apply Hfr1 | done | lia | lia |].
    split; [by eapply row_frame_trans |]. intros t Ht.
    rewrite Hc2 by apply Hb64.
    replace ((m - f) mod 64) with (m - f + 64) by (apply (Z.mod_unique_pos _ _ (-1)); lia).
    rewrite !Hmod by lia.
    repeat case_decide; try lia; rewrite Hc1 by lia; repeat case_decide; try lia;
      try done; f_equal; lia.
Qed.
End remove.

Section remove_spec.
Context {X : Type}.
Implicit Types (k : kstate X) (a i j m : Z) (b p : nat).

Lemma clear_row_ring i k :
  wf_queues k -> 0 <= i < 5 ->
  let k' := set_back i (-1) (set_face i (-1) k) in
  wf_queues k' /\ ring k' i = [] /\
  (forall i', 0 <= i' < 5 -> i' <> i -> ring k' i' = ring k i').
Proof.
  intros Hwf Hi k'. destruct (Hwf) as [(Hf & Hb & Hs & Hq) Hrows].
  assert (He : zget (face k') i = -1 /\ zget (back k') i = -1).
  { cbn. rewrite !zget_zupd_eq by (unfold zlen; lia). done. }
  assert (Ho : forall i', i' <> i -> zget (face k') i' = zget (face k) i' /\
                zget (back k') i' = zget (back k) i').
  { intros i' Hne. cbn. rewrite !zget_zupd_ne by done. done. }
  assert (Hr : ring k' i = []) by (apply ring_empty, He).
  split_and!; try done.
  - apply (wf_queues_update k _ i); try done.
    + by split_and!; cbn; rewrite ?length_zupd.
    + intros i' Hi' Hne. destruct (Ho i' Hne). by split_and!.
    + by left.
    + rewrite Hr. by intros c ?%elem_of_nil.
  - intros i' Hi' Hne. destruct (Ho i' Hne). by apply ring_frame.
Qed.

Lemma bump_face_ring i m k :
  wf_queues k -> 0 <= i < 5 -> ~ is_empty k i ->
  zget (face k) i <> zget (back k) i ->
  0 <= m < NPROC -> offset k i m < qlen k i ->
  (m < zget (face k) i -> m <= zget (back k) i < zget (face k) i) ->
  let k' := bump_face i (shifted i m k) in
  wf_queues k' /\ ring k' i = delete (Z.to_nat (offset k i m)) (ring k i) /\
  (forall i', 0 <= i' < 5 -> i' <> i -> ring k' i' = ring k i').
Proof.
  intros Hwf Hi Hne Hfb Hm Hoff Hwrap k'. destruct (Hwf) as [Hw Hrows].
  destruct (Hrows i Hi) as [[[Hf _]|[Hf Hb]] Hin]; [done |].
  destruct (shifted_spec i m k Hw Hi Hf Hm Hwrap) as [(Hw1 & Hf1 & Hb1 & Hp1 & Ho1) Hc1].
  assert (Hface : zget (face k') i = (zget (face k) i + 1) mod NPROC).
  { subst k'. unfold bump_face. cbn. rewrite Hf1. apply zget_zupd_eq.
    unfold zlen. destruct Hw as (-> & _). lia. }
  assert (Hback : zget (back k') i = zget (back k) i) by (subst k'; cbn; by rewrite Hb1).
  assert (Hcell : forall i' j', qcell k' i' j' = qcell (shifted i m k) i' j') by done.
  assert (Hm64 : 0 <= (zget (face k) i + 1) mod 64 < 64) by (apply Z.mod_pos_bound; lia).
  assert (Hd0 : 0 <= offset k i m) by (apply Z.mod_pos_bound; lia).
  assert (Hring : ring k' i = delete (Z.to_nat (offset k i m)) (ring k i)).
  { unfold ring. rewrite (qlen_ne k' i) by (unfold is_empty; lia).
    rewrite Hface, Hback, Zminus_mod_idemp_r.
    replace ((zget (back k) i - (zget (face k) i + 1)) mod 64 + 1) with (qlen k i - 1).
    - apply window_delete; [done | lia |]. intros t Ht. rewrite Hcell. apply Hc1.
      pose proof (qlen_range k i). lia.
    - rewrite qlen_ne by done. Z.to_euclidean_division_equations. lia. }
  assert (Hother : forall i', 0 <= i' < 5 -> i' <> i ->
    zget (face k') i' = zget (face k) i' /\ zget (back k') i' = zget (back k) i' /\
    forall j, 0 <= j < 64 -> qcell k' i' j = qcell k i' j).
  { intros i' Hi' Hne'. split_and!.
    - subst k'. unfold bump_face. cbn. rewrite Hf1. by apply zget_zupd_ne.
    - subst k'. cbn. by rewrite Hb1.
    - intros j Hj. rewrite Hcell. by apply Ho1. }
  split_and!; [| done |].
  - apply (wf_queues_update k _ i); try done.
    + destruct Hw1 as (H1 & H2 & H3 & H4). subst k'. unfold bump_face.
      split_and!; cbn; rewrite ?length_zupd; done.
    + subst k'. cbn. by rewrite Hp1.
    + right. lia.
    + rewrite Hring. intros c Hcin. apply Hin.
      eapply elem_of_sublist; [done | apply sublist_delete].
  - intros i' Hi' Hne'. destruct (Hother i' Hi' Hne') as (? & ? & ?). by apply ring_frame.
Qed.

(** remove takes the first occurrence of [p] out of queue [i] and keeps the order
    of the others. *)
Lemma remove_ring i p k :
  wf_queues k -> 0 <= i < 5 -> Some p ∈ ring k i ->
  wf_queues (remove i p k) /\
  (exists l1 l2, ring k i = l1 ++ (Some p :: l2) /\ (Some p ∉ l1) /\
                 ring (remove i p k) i = l1 ++ l2) /\
  (forall i', 0 <= i' < 5 -> i' <> i -> ring (remove i p k) i' = ring k i').
Proof.
  intros Hwf Hi Hin. destruct (Hwf) as [Hw Hrows].
  assert (Hne : ~ is_empty k i).
  { intros He%ring_empty. rewrite He in Hin. by apply elem_of_nil in Hin. }
  destruct (Hrows i Hi) as [Hrow _].
  destruct (decide (zget (face k) i = zget (back k) i)) as [Hfb|Hfb].
  - assert (remove i p k = set_back i (-1) (set_face i (-1) k)) as ->
      by (unfold remove; by rewrite (proj2 (Z.eqb_eq _ _) Hfb)).
    destruct (clear_row_ring i k Hwf Hi) as (Hwf' & Hr & Ho). split_and!; try done.
    exists [], []. split_and!; [| apply not_elem_of_nil | apply Hr].
    unfold ring in *. rewrite qlen_ne in * by done. rewrite Hfb, Z.sub_diag in *.
    apply elem_of_window in Hin as (t & Ht & ->).
    assert (t = 0) as -> by (change (0 mod 64) with 0 in Ht; lia).
    change (0 mod 64 + 1) with 1. rewrite window_cons, window_nil by lia.
    by rewrite Z.add_0_r.
  - assert (Hf0 : 0 <= zget (face k) i) by (destruct Hrow as [[? _]|?]; [done | lia]).
    rewrite remove_unfold by done. cbn zeta.
    destruct (locate_spec k i p Hrow Hne) as [[_ Hn]|(Hm & Hd & _ & Hwrap & Hl & Hfirst)];
      [done |].
    rewrite (proj2 (Z.eqb_neq _ _)) by lia.
    set (m := locate k i p) in *. set (d := offset k i m) in *.
    destruct (bump_face_ring i m k) as (Hwf' & Hr & Ho); try done; [lia |].
    split_and!; try done. fold d in Hr.
    exists (take (Z.to_nat d) (ring k i)), (drop (S (Z.to_nat d)) (ring k i)).
    split_and!.
    + symmetry. by apply take_drop_middle.
    + intros (t & Ht)%list_elem_of_lookup. apply lookup_take_Some in Ht as [Ht Htd].
      unfold ring in Ht. rewrite lookup_window in Ht by lia.
      injection Ht as Ht. apply (Hfirst (Z.of_nat t)); [lia | done].
    + rewrite Hr. apply delete_take_drop.
Qed.
End remove_spec.

(** ** The aging pass keeps the invariant

    The loops re-read slots that may have left the queue, so the invariant also
    covers the stale slots: [wf_cells]. *)
Section aging.
Context {X : Type}.
Implicit Types (k : kstate X) (a i j m : Z) (b p : nat).

Definition wf_cells k : Prop :=
  forall n p, queue k !! n = Some (Some p) -> (p < length (procs k))%nat.

Definition mlfq_inv k : Prop := wf_queues k /\ wf_cells k.

Lemma qcell_valid k i j p :
  wf_cells k -> NPROC * i + j <> -1 -> qcell k i j = Some p ->
  (p < length (procs k))%nat.
Proof.
  intros Hc Hn. unfold qcell. rewrite (proj2 (Z.eqb_neq _ _) Hn).
  unfold zlookup. case_decide; [| done].
  destruct (queue k !! _) as [c|] eqn:E; cbn; [| done]. intros ->. by eapply Hc.
Qed.

Lemma set_qcell_cells i j v k :
  wf_cells k -> (forall p, v = Some p -> (p < length (procs k))%nat) ->
  wf_cells (set_qcell i j v k).
Proof.
  intros Hc Hv n p. cbn. unfold zupd. case_decide; [| apply Hc].
  rewrite list_lookup_insert_Some. intros [(_ & Hvp & _)|[_ Hq]]; [by apply Hv | by eapply Hc].
Qed.

Lemma copy_cell_cells i j i' j' k :
  wf_cells k -> NPROC * i' + j' <> -1 -> wf_cells (set_qcell i j (qcell k i' j') k).
Proof.
  intros Hc Hn. apply set_qcell_cells; [done |]. intros p. by apply qcell_valid.
Qed.

Lemma shifted_cells i m k :
  wf_cells k -> 0 <= i -> 0 <= zget (face k) i -> wf_cells (shifted i m k).
Proof.
  intros Hc Hi Hf. unfold shifted, shift_up, shift_wrap.
  assert (Hup : forall hi lo k, 1 <= lo -> wf_cells k ->
    wf_cells (fold_left (fun k j => set_qcell i j (qcell k i (j - 1)) k) (zdown hi lo) k)).
  { intros hi lo k0 Hlo H0. apply (fold_left_inv wf_cells); [done |].
    intros y j. unfold zdown. rewrite elem_of_reverse, elem_of_zrange.
    intros Hj Hy. apply copy_cell_cells; [done | lia]. }
  destruct (m =? _); [done |]. destruct (_ <? m); [apply Hup; done || lia |].
  apply Hup; [lia |]. apply (fold_left_inv wf_cells); [done |].
  intros y j. unfold zdown. rewrite elem_of_reverse, elem_of_zrange.
  intros Hj Hy. destruct (Z.eqb_spec j 0); apply copy_cell_cells; done || lia.
Qed.

Lemma remove_inv i p k : mlfq_inv k -> 0 <= i < 5 -> mlfq_inv (remove i p k).
Proof.
  intros [Hwf Hc] Hi. destruct (Hwf) as [Hw Hrows]. destruct (Hrows i Hi) as [Hrow _].
  destruct (decide (zget (face k) i = zget (back k) i)) as [Hfb|Hfb].
  - unfold remove. rewrite (proj2 (Z.eqb_eq _ _) Hfb).
    destruct (clear_row_ring i k Hwf Hi) as (Hwf' & _). split; [done | exact Hc].
  - destruct (Hrow) as [[H1 H2]|[H1 _]]; [congruence |].
    assert (Hne : ~ is_empty k i) by (unfold is_empty; lia).
    rewrite remove_unfold by (done || lia). cbn zeta.
    destruct (locate_spec k i p Hrow Hne) as [[-> _]|(Hm & Hd & _ & Hwrap & _)]; [done |].
    rewrite (proj2 (Z.eqb_neq _ _)) by lia. split.
    + destruct (bump_face_ring i (locate k i p) k) as (? & _); done || lia.
    + unfold bump_face. intros n q. cbn. apply shifted_cells; done || lia.
Qed.

Lemma procs_remove i p k :
  wf_queues k -> 0 <= i < 5 -> procs (remove i p k) = procs k.
Proof.
  intros [Hw Hrows] Hi. destruct (Hrows i Hi) as [Hrow _].
  destruct (decide (zget (face k) i = zget (back k) i)) as [Hfb|Hfb].
  - unfold remove. by rewrite (proj2 (Z.eqb_eq _ _) Hfb).
  - destruct (Hrow) as [[H1 H2]|[H1 _]]; [congruence |].
    assert (Hne : ~ is_empty k i) by (unfold is_empty; lia).
    rewrite remove_unfold by (done || lia). cbn zeta.
    destruct (locate_spec k i p Hrow Hne) as [[-> _]|(Hm & _ & _ & Hwrap & _)]; [done |].
    rewrite (proj2 (Z.eqb_neq _ _)) by lia.
    destruct (shifted_spec i (locate k i p) k Hw Hi) as [(_ & _ & _ & Hp & _) _]; done.
Qed.

Lemma push_inv a b k :
  mlfq_inv k -> 0 <= a < 5 -> (b < length (procs k))%nat -> mlfq_inv (push a b k).
Proof.
  intros [Hwf Hc] Ha Hb. split; [by apply push_wf |].
  destruct (push_cases a b k Hwf Ha) as [(-> & _)|[(-> & _)|(-> & _)]]; try exact Hc.
  destruct (append_proc_arrays a b k (proj1 Hwf) Ha) as (_ & _ & _ & Hq & _ & Hp).
  intros n p. rewrite Hq, Hp. unfold zupd. case_decide; [| apply Hc].
  rewrite list_lookup_insert_Some. intros [(_ & [= ->] & _)|[_ Hn]]; [done | by eapply Hc].
Qed.

Lemma modp_inv k p f : mlfq_inv k -> mlfq_inv (modp k p f).
Proof.
  intros [[Hw Hrows] Hc]. split; [split; [done |] |].
  - intros i Hi. rewrite length_procs_modp. apply (Hrows i Hi).
  - intros n q. rewrite length_procs_modp. apply Hc.
Qed.

Lemma age_slot_inv i j k :
  mlfq_inv k -> 1 <= i < 5 -> 0 <= j ->
  mlfq_inv (age_slot i j k) /\ length (procs (age_slot i j k)) = length (procs k).
Proof.
  intros Hinv Hi Hj. unfold age_slot. destruct (qcell k i j) as [p|] eqn:Ec; [| done].
  destruct (_ <? _); [| done].
  apply qcell_valid in Ec as Hp; [| apply Hinv | lia].
  assert (Hr : mlfq_inv (remove i p k)) by (apply remove_inv; done || lia).
  pose proof (procs_remove i p k (proj1 Hinv) ltac:(lia)) as Hpr.
  set (k1 := modp (remove i p k) p _).
  assert (H1 : mlfq_inv k1) by (by apply modp_inv).
  assert (Hl : length (procs k1) = length (procs k))
    by (unfold k1; rewrite length_procs_modp; congruence).
  split; [apply push_inv; done || lia |].
  rewrite length_procs_push; [done | apply H1 | lia].
Qed.

Lemma age_loop_inv fuel bound i j k :
  mlfq_inv k -> 1 <= i < 5 -> 0 <= j ->
  mlfq_inv (age_loop fuel bound i j k) /\
  length (procs (age_loop fuel bound i j k)) = length (procs k).
Proof.
  revert j k. induction fuel as [|fuel IH]; intros j k Hinv Hi Hj; cbn [age_loop]; [done |].
  destruct (j <=? bound k); [| done].
  destruct (age_slot_inv i j k Hinv Hi Hj) as [H1 H2].
  destruct (IH (j + 1) (age_slot i j k)) as [H3 H4]; [done | done | lia |].
  split; congruence.
Qed.

Lemma age_queue_inv k i :
  mlfq_inv k -> 1 <= i < 5 ->
  mlfq_inv (age_queue k i) /\ length (procs (age_queue k i)) = length (procs k).
Proof.
  intros Hinv Hi. unfold age_queue. destruct (Z.eqb_spec (zget (face k) i) (-1)) as [|Hne];
    [done |].
  destruct (proj2 (proj1 Hinv) i ltac:(lia)) as [[[? _]|[Hf _]] _]; [done |].
  destruct (_ <=? _); [apply age_loop_inv; done || lia |]. cbn zeta.
  destruct (age_loop_inv 64 (fun _ => NPROC - 1) i (zget (face k) i) k) as [H1 H2];
    [done | done | lia |].
  edestruct (age_loop_inv 64) as [H3 H4]; [exact H1 | exact Hi | |
    split; [exact H3 | rewrite H4; exact H2]]. lia.
Qed.

Lemma age_all_inv k :
  mlfq_inv k -> mlfq_inv (age_all k) /\ length (procs (age_all k)) = length (procs k).
Proof.
  intros Hinv. unfold age_all.
  apply (fold_left_inv (fun k' => mlfq_inv k' /\ length (procs k') = length (procs k)));
    [done |].
  intros y i Hi%elem_of_zrange [H1 H2].
  destruct (age_queue_inv y i H1) as [H3 H4]; [lia |]. split; congruence.
Qed.

(** Fuel: an aging loop visits at most the 64 slots of a row, so more fuel than
    64 does not change it. *)
Lemma age_loop_fuel fuel extra bound i j k :
  (forall k, mlfq_inv k -> bound k <= NPROC - 1) ->
  mlfq_inv k -> 1 <= i < 5 -> 0 <= j -> NPROC - j <= Z.of_nat fuel ->
  age_loop (fuel + extra) bound i j k = age_loop fuel bound i j k.
Proof.
  intros Hb. revert j k. induction fuel as [|fuel IH]; intros j k Hinv Hi Hj Hf.
  - cbn [Nat.add]. destruct extra; [done |]. cbn [age_loop].
    specialize (Hb k Hinv). by rewrite (proj2 (Z.leb_gt _ _)) by lia.
  - cbn [Nat.add age_loop]. destruct (_ <=? _); [| done].
    apply IH; [apply age_slot_inv; done | done | lia | lia].
Qed.
End aging.

Section pick.
Context {X : Type}.
Implicit Types (k : kstate X) (i j : Z).

Lemma pick_from_spec k lo :
  wf_queues k -> 0 <= lo ->
  ((forall i, lo <= i < 5 -> is_empty k i) /\ pick_from (zrange lo 4) k = (None, k)) \/
  (exists i, lo <= i < 5 /\ (forall j, lo <= j < i -> is_empty k j) /\ ~ is_empty k i /\
     pick_from (zrange lo 4) k = pop i k).
Proof.
  intros Hwf. remember (Z.to_nat (5 - lo)) as n eqn:Hn.
  revert lo Hn. induction n as [|n IH]; intros lo Hn Hlo.
  - left. rewrite zrange_nil by lia. split; [lia | done].
  - rewrite zrange_cons by lia. cbn [pick_from].
    destruct (Z.eqb_spec (zget (face k) lo) (-1)) as [He|He]; cbn [negb].
    + destruct (IH (lo + 1)) as [[Hall Hp]|(i & Hi & Hall & Hne & Hp)]; [lia | lia | |].
      * left. split; [| done]. intros i Hi.
        destruct (decide (i = lo)) as [->|]; [done | apply Hall; lia].
      * right. exists i. split_and!; try lia; try done. intros j Hj.
        destruct (decide (j = lo)) as [->|]; [done | apply Hall; lia].
    + right. exists lo. split_and!; try lia; done.
Qed.

Lemma boot_inv below (x : X) : mlfq_inv (boot_state below x).
Proof.
  split; [split; [done |] |].
  - intros i Hi. assert (Hc : i = 0 \/ i = 1 \/ i = 2 \/ i = 3 \/ i = 4) by lia.
    destruct Hc as [-> |[-> |[-> |[-> | ->]]]];
      (split; [by left | cbn; by intros c ?%elem_of_nil]).
  - intros n p. cbn -[replicate]. rewrite lookup_replicate. by intros [? ?].
Qed.

Lemma length_procs_boot below (x : X) : length (procs (boot_state below x)) = 64%nat.
Proof. done. Qed.
End pick.

(** ** Correctness of the run queues *)

(** All of the state but the arrays of the queues. *)
Definition unqueued {X} (k : kstate X) : kstate X :=
  k <| face := [] |> <| back := [] |> <| sz := [] |> <| queue := [] |>.

Lemma append_proc_unqueued {X} a b (k : kstate X) :
  unqueued (append_proc a b k) = modp (unqueued k) b (fun q => q <| curtime := 0 |> <| waittime := 0 |>) /\
  sz (append_proc a b k) = zupd (sz k) a (s32 (zget (sz k) a + 1)).
Proof. unfold append_proc. cbn. by destruct (_ =? -1). Qed.

Lemma pop_unqueued {X} a (k : kstate X) : ~ is_empty k a ->
  unqueued (snd (pop a k)) = unqueued k /\ queue (snd (pop a k)) = queue k /\
  sz (snd (pop a k)) = zupd (sz k) a (s32 (zget (sz k) a - 1)).
Proof.
  intros He. unfold pop. destruct (zget (face k) a =? -1) eqn:E; bool_to_prop; [done |].
  cbn. by destruct (negb _).
Qed.

(** C1: push, on well-formed queues, keeps them well formed and leaves every other
    queue alone.  If the queue is empty, or [b] is in no queue, not met in the stale slot
    before an empty queue, and the queue does not hold 64 processes, [b] becomes its last
    element: the queue's count goes up, [b]'s waittime and curtime are reset, and nothing
    else of the state changes.  If the queue is not empty and [b] is already in some queue,
    or met in that stale slot, nothing changes; if it is full, only the message is printed.
    The duplicate check is skipped for an empty queue. *)
Theorem push_refines {X} (k : kstate X) (a : Z) (b : nat) :
  mlfq_inv k -> 0 <= a < 5 -> (b < length (procs k))%nat ->
  mlfq_inv (push a b k) /\
  (forall i, 0 <= i < 5 -> i <> a -> ring (push a b k) i = ring k i) /\
  (is_empty k a -> ring k a = []) /\
  (is_empty k a \/ ~ queued k b /\ ~ ghost k b /\ length (ring k a) <> 64%nat ->
     ring (push a b k) a = ring k a ++ [Some b] /\
     waittime (getp (push a b k) b) = 0 /\ curtime (getp (push a b k) b) = 0 /\
     sz (push a b k) = zupd (sz k) a (s32 (zget (sz k) a + 1)) /\
     unqueued (push a b k) = modp (unqueued k) b (fun q => q <| curtime := 0 |> <| waittime := 0 |>)) /\
  (~ is_empty k a -> queued k b \/ ghost k b -> push a b k = k) /\
  (~ is_empty k a -> ~ queued k b -> ~ ghost k b -> length (ring k a) = 64%nat ->
     push a b k = cprintf k "queue full\n").
Proof.
  intros [Hwf Hc] Ha Hb. split; [by apply push_inv |].
  split; [by intros; apply push_ring_other |]. split; [by intros ?%ring_empty |].
  destruct (Hwf) as [Hwa Hrows]. destruct (Hrows a Ha) as [Hrow _].
  pose proof (length_window NPROC (qcell k a) (zget (face k) a) (qlen k a)) as Hlen.
  fold (ring k a) in Hlen. pose proof (qlen_range k a).
  destruct (push_cases a b k Hwf Ha)
    as [(-> & Hl & Hcase)|[(-> & Hne & Hd)|(-> & Hl & Hne & Hq & Hg)]].
  - destruct (append_proc_ring a b k Hwa Ha Hrow Hl) as [_ Hr].
    destruct (append_proc_unqueued a b k) as [Hu Hz].
    split_and!; [| tauto | lia].
    intros _. split_and!; [done | | | done | done];
      unfold append_proc; cbn; unfold getp; destruct (_ =? -1); cbn;
        rewrite list_lookup_alter_eq; apply lookup_lt_is_Some in Hb as [q ->]; done.
  - split_and!; [tauto | done | tauto].
  - split_and!; [| tauto | done]. intros [He|(_ & _ & Hn)]; [done | lia].
Qed.

Lemma push_refines_witness :
  ring (push 2 7 (boot_state None tt)) 2 = [Some 7%nat].
Proof.
  destruct (push_refines (boot_state None tt) 2 7) as (_ & _ & He & H & _).
  - apply boot_inv.
  - lia.
  - rewrite length_procs_boot. lia.
  - destruct H as [-> _]; [left; reflexivity |]. rewrite He; reflexivity.
Defined.

(** C2: the scheduler's choice.  On well-formed queues, [pick] (the loop of
    scheduler() that calls pop) returns null exactly when all five queues are empty;
    otherwise it pops the head of the first queue that is not empty, so a process of
    queue i runs only when queues 0..i-1 are empty; apart from that queue's ends and count
    the whole state is as before. *)
Theorem pick_highest {X} (k : kstate X) :
  wf_queues k ->
  ((forall i, 0 <= i < 5 -> ring k i = []) /\ pick k = (None, k)) \/
  exists i p, 0 <= i < 5 /\ (forall j, 0 <= j < i -> ring k j = []) /\
    fst (pick k) = Some p /\ (p < length (procs k))%nat /\
    ring k i = Some p :: ring (snd (pick k)) i /\
    (forall j, 0 <= j < 5 -> j <> i -> ring (snd (pick k)) j = ring k j) /\
    wf_queues (snd (pick k)) /\
    sz (snd (pick k)) = zupd (sz k) i (s32 (zget (sz k) i - 1)) /\
    queue (snd (pick k)) = queue k /\ unqueued (snd (pick k)) = unqueued k.
Proof.
  intros Hwf. unfold pick.
  destruct (pick_from_spec k 0 Hwf) as [[Hall ->]|(i & Hi & Hall & Hne & ->)]; [lia | |].
  - left. split; [| done]. intros i Hi. by apply ring_empty, Hall.
  - right. destruct (pop_ring i k Hwf ltac:(lia) Hne) as (Hwf' & Hr & Ho).
    destruct (proj2 (proj2 Hwf i ltac:(lia)) (fst (pop i k))) as (p & Hp & Hlt).
    { rewrite Hr. by left. }
    destruct (pop_unqueued i k Hne) as (Hu & Hq & Hz).
    exists i, p. rewrite Hp in Hr. split_and!; try done; try lia.
    intros j Hj. apply ring_empty, Hall. lia.
Qed.

Lemma pick_highest_witness :
  exists i p, 0 <= i < 5 /\
    fst (pick (push 3 5 (boot_state None tt))) = Some p /\
    ring (push 3 5 (boot_state None tt)) i =
      Some p :: ring (snd (pick (push 3 5 (boot_state None tt)))) i.
Proof.
  destruct (pick_highest (push 3 5 (boot_state None tt))) as [[_ H]|(i & p & Hi & _ & Hp & _ & Hr & _)].
  - apply push_wf; [apply boot_inv | lia | rewrite length_procs_boot; lia].
  - vm_compute in H. discriminate H.
  - exists i, p. split; [exact Hi |]. split; [exact Hp | exact Hr].
Defined.

(** C3: remove takes the first occurrence of [p] out of queue [i], in all three
    cases of the code (one element, contiguous, wrapped around the end of the
    array), keeps the order of the remaining processes, and leaves the other queues
    and the invariant intact. *)
Theorem remove_refines {X} (k : kstate X) (i : Z) (p : nat) :
  mlfq_inv k -> 0 <= i < 5 -> Some p ∈ ring k i ->
  mlfq_inv (remove i p k) /\
  (exists l1 l2, ring k i = l1 ++ (Some p :: l2) /\ (Some p ∉ l1) /\
                 ring (remove i p k) i = l1 ++ l2) /\
  (forall i', 0 <= i' < 5 -> i' <> i -> ring (remove i p k) i' = ring k i').
Proof.
  intros Hinv Hi Hin. split; [by apply remove_inv |].
  by destruct (remove_ring i p k (proj1 Hinv) Hi Hin) as (_ & H1 & H2).
Qed.

Lemma remove_refines_witness :
  mlfq_inv (remove 1 4 (push 1 9 (push 1 4 (boot_state None tt)))) /\
  ring (remove 1 4 (push 1 9 (push 1 4 (boot_state None tt)))) 0 =
  ring (push 1 9 (push 1 4 (boot_state None tt))) 0.
Proof.
  destruct (remove_refines (push 1 9 (push 1 4 (boot_state None tt))) 1 4) as (H1 & _ & H3).
  - apply push_inv; [apply push_inv; [apply boot_inv | lia | rewrite length_procs_boot; lia]
                    | lia |].
    vm_compute. lia.
  - lia.
  - vm_compute. left.
  - split; [exact H1 | apply H3; lia].
Defined.

(** A run that loses a process.  Processes 0 and 1 take turns in queue 1 until
    process 0 sits in slot 63; process 2 waits in queue 0; then process 0 has
    waited 19 ticks. *)
Fixpoint rotate (n : nat) (k : kstate unit) : kstate unit :=
  match n with
  | O => k
  | S n =>
      let '(p, k) := pop 1 k in
      rotate n (match p with Some p => push 1 p k | None => k end)
  end.

Definition aged_out : kstate unit :=
  let k := push 1 0 (push 1 1 (boot_state None tt)) in
  let k := snd (pop 1 (rotate 62 k)) in
  let k := modp k 0 (fun q => q <| state := RUNNABLE |> <| waittime := 19 |> <| qn := 1 |>) in
  push 0 2 k.

(** Push can drop a process.  In the state above process 0 is RUNNABLE, is the
    only element of queue 1 and has waited longer than [age]; the aging pass removes
    it from queue 1 and decrements its qn, but the push into queue 0 returns early,
    because the duplicate check on the empty queue 2 reads [queue[2][-1]], the stale
    slot [queue[1][63]] that still holds process 0.  Afterwards process 0 is in no
    queue, so the scheduler never runs it again. *)
Theorem aging_loses_process :
  ring aged_out 1 = [Some 0%nat] /\ state (getp aged_out 0) = RUNNABLE /\
  age < waittime (getp aged_out 0) /\
  let k := age_all aged_out in
  state (getp k 0) = RUNNABLE /\ qn (getp k 0) = 0 /\
  (forall i, 0 <= i < 5 -> Some 0%nat ∉ ring k i) /\
  fst (pick k) = Some 2%nat.
Proof.
  split; [vm_compute; reflexivity |]. split; [vm_compute; reflexivity |].
  split; [vm_compute; reflexivity |]. cbn zeta.
  split; [vm_compute; reflexivity |]. split; [vm_compute; reflexivity |].
  split; [| vm_compute; reflexivity].
  intros i Hi. assert (Hc : i = 0 \/ i = 1 \/ i = 2 \/ i = 3 \/ i = 4) by lia.
  destruct Hc as [-> |[-> |[-> |[-> | ->]]]];
    apply (bool_decide_eq_false _); vm_compute; reflexivity.
Qed.
