(* ===== verification/MlfqInv.v ===== *)
(** * Who is in the run queues

    The invariant that ties the MLFQ queues to the process table: a queued process
    is RUNNABLE, sits in the queue its [qn] names, and is queued once.  push, pop
    and the aging pass of the scheduler keep it; the aging loops only ever look at
    slots that are in use. *)

From S2P Require Import Prelude ProcTable Mlfq.

Section own.
Context {X : Type}.
Implicit Types (k : kstate X) (a i j : Z) (b p : nat).

Definition queues_own k : Prop :=
  mlfq_inv k /\
  (forall i, 0 <= i < 5 -> NoDup (ring k i)) /\
  (forall i p, 0 <= i < 5 -> Some p ∈ ring k i ->
     qn (getp k p) = i /\ state (getp k p) = RUNNABLE).

(** In a state with [queues_own] a process is queued in one queue only. *)
Lemma queues_own_disjoint k i i' p :
  queues_own k -> 0 <= i < 5 -> 0 <= i' < 5 ->
  Some p ∈ ring k i -> Some p ∈ ring k i' -> i = i'.
Proof.
  intros (_ & _ & H) Hi Hi' H1 H2.
  destruct (H i p Hi H1), (H i' p Hi' H2). congruence.
Qed.

(** Transfer along a change that keeps the rings (or shrinks them) and the fields
    of the queued processes. *)
Lemma queues_own_shrink k k' :
  queues_own k -> mlfq_inv k' ->
  (forall i, 0 <= i < 5 -> ring k' i `sublist_of` ring k i) ->
  (forall i p, 0 <= i < 5 -> Some p ∈ ring k' i ->
     qn (getp k' p) = qn (getp k p) /\ state (getp k' p) = state (getp k p)) ->
  queues_own k'.
Proof.
  intros (_ & Hnd & Hq) Hinv Hsub Hf. split_and!; [apply Hinv.. | |].
  - intros i Hi. eapply sublist_NoDup; [by apply Hnd | by apply Hsub].
  - intros i p Hi Hp. destruct (Hf i p Hi Hp) as [-> ->]. apply Hq; [done |].
    eapply elem_of_sublist; [done | by apply Hsub].
Qed.

Lemma getp_push a b k p :
  strip (getp (push a b k) p) = strip (getp k p) /\
  qn (getp (push a b k) p) = qn (getp k p).
Proof.
  split; [apply core_getp, core_push |].
  assert (H : forall k, qn (getp (append_proc a b k) p) = qn (getp k p)); cycle 1.
  { unfold push. repeat case_test; rewrite ?H; done. }
  clear k. intros k. unfold append_proc. set (k1 := modp k b _).
  assert (E : qn (getp k1 p) = qn (getp k p)).
  { unfold k1, modp, getp. cbn. destruct (decide (b = p)) as [->|Hne].
    - rewrite list_lookup_alter_eq. by destruct (procs k !! p).
    - by rewrite list_lookup_alter_ne. }
  clearbody k1. rewrite <- E. by destruct (zget (face k1) a =? -1).
Qed.

Lemma getp_push_ne a b k q : q <> b -> getp (push a b k) q = getp k q.
Proof.
  intros Hne.
  assert (H : forall k, getp (append_proc a b k) q = getp k q); cycle 1.
  { unfold push. repeat case_test; rewrite ?H; done. }
  clear k. intros k. unfold append_proc.
  assert (E : getp (modp k b (fun q => q <| curtime := 0 |> <| waittime := 0 |>)) q = getp k q)
    by (by apply getp_modp_ne).
  rewrite <- E. set (k1 := modp k b _). clearbody k1. by destruct (zget (face k1) a =? -1).
Qed.

Lemma getp_push_self a b k :
  getp (push a b k) b = getp k b \/
  getp (push a b k) b = (getp k b) <| curtime := 0 |> <| waittime := 0 |>.
Proof.
  assert (H : forall k, getp (append_proc a b k) b = getp k b \/
     getp (append_proc a b k) b = (getp k b) <| curtime := 0 |> <| waittime := 0 |>); cycle 1.
  { unfold push. repeat case_test; auto. }
  clear k. intros k. unfold append_proc. set (f := fun q : proc => q <| curtime := 0 |> <| waittime := 0 |>).
  assert (E : getp (modp k b f) b = getp k b \/ getp (modp k b f) b = f (getp k b)).
  { destruct (decide (b < length (procs k))%nat); [right; by apply getp_modp_eq |].
    left. unfold getp. rewrite !lookup_ge_None_2; [done | lia |].
    rewrite length_procs_modp. lia. }
  set (k1 := modp k b f) in *. clearbody k1. by destruct (zget (face k1) a =? -1).
Qed.

Lemma state_strip r r' : strip r = strip r' -> state r = state r'.
Proof. intros E. exact (f_equal state E). Qed.

(** push of a RUNNABLE process that is in no queue, into the queue it belongs to. *)
Lemma push_own a b k :
  queues_own k -> 0 <= a < 5 -> (b < length (procs k))%nat ->
  ~ queued k b -> qn (getp k b) = a -> state (getp k b) = RUNNABLE ->
  queues_own (push a b k).
Proof.
  intros (Hinv & Hnd & Hq) Ha Hb Hnq Hqn Hst.
  assert (Hf : forall p, qn (getp (push a b k) p) = qn (getp k p) /\
                         state (getp (push a b k) p) = state (getp k p)).
  { intros p. destruct (getp_push a b k p) as [E1 E2]. split; [done | by apply state_strip]. }
  assert (Hring : ring (push a b k) a = ring k a \/
                  ring (push a b k) a = ring k a ++ [Some b]).
  { destruct (push_cases a b k (proj1 Hinv) Ha) as [(-> & Hl & _)|[(-> & _)|(-> & _)]];
      [right | by left | by left].
    apply append_proc_ring; try done; apply (proj1 Hinv); done. }
  assert (Hother := push_ring_other a b k).
  split_and!; [by apply push_inv.. | |].
  - intros i Hi. destruct (decide (i = a)) as [->|Hne]; [| rewrite Hother; try done; [by apply Hnd | apply Hinv]].
    destruct Hring as [->| ->]; [by apply Hnd |].
    apply NoDup_app. split_and!; [by apply Hnd | | apply NoDup_singleton].
    intros c Hc ->%list_elem_of_singleton. apply Hnq. by exists a.
  - intros i p Hi Hp. destruct (Hf p) as [-> ->].
    destruct (decide (i = a)) as [->|Hne].
    + destruct Hring as [E|E]; rewrite E in Hp; [by apply Hq |].
      apply elem_of_snoc in Hp as [Hp|[= ->]]; [by apply Hq | done].
    + rewrite Hother in Hp; try done; [by apply Hq | apply Hinv].
Qed.

Lemma pop_own a k :
  queues_own k -> 0 <= a < 5 -> ~ is_empty k a ->
  exists p, fst (pop a k) = Some p /\ (p < length (procs k))%nat /\
    queues_own (snd (pop a k)) /\ ~ queued (snd (pop a k)) p /\
    qn (getp k p) = a /\ state (getp k p) = RUNNABLE.
Proof.
  intros Hown Ha Hne. pose proof Hown as (Hinv & Hnd & Hq).
  destruct (pop_ring a k (proj1 Hinv) Ha Hne) as (Hwf & Hr & Ho).
  destruct (proj2 (proj1 Hinv) a Ha) as [_ Hin].
  destruct (Hin (fst (pop a k))) as (p & Hp & Hlt); [rewrite Hr; by left |].
  rewrite Hp in Hr. destruct (Hq a p Ha) as [Hqn Hst]; [rewrite Hr; by left |].
  assert (Hprocs : procs (snd (pop a k)) = procs k) by (unfold pop; by repeat case_test).
  assert (Hcells : wf_cells (snd (pop a k))).
  { pose proof (proj2 Hinv) as Hc. unfold wf_cells, pop in *. by repeat case_test. }
  exists p. split_and!; try done.
  - apply (queues_own_shrink k); [done | done | |].
    + intros i Hi. destruct (decide (i = a)) as [->|Hia]; [| by rewrite Ho].
      rewrite Hr. by apply sublist_cons.
    + intros i q Hi _. unfold getp. by rewrite Hprocs.
  - intros (i & Hi & Hip). destruct (decide (i = a)) as [->|Hia].
    + specialize (Hnd a Ha). rewrite Hr in Hnd. by apply NoDup_cons in Hnd as [? _].
    + rewrite Ho in Hip by done. destruct (Hq i p Hi Hip). congruence.
Qed.

(** ** Aging *)

Lemma remove_own i p k :
  queues_own k -> 0 <= i < 5 -> Some p ∈ ring k i ->
  queues_own (remove i p k) /\ ~ queued (remove i p k) p.
Proof.
  intros Hown Hi Hin. pose proof Hown as (Hinv & Hnd & Hq).
  destruct (remove_ring i p k (proj1 Hinv) Hi Hin) as (Hwf & (l1 & l2 & E & _ & E') & Ho).
  pose proof (procs_remove i p k (proj1 Hinv) Hi) as Hprocs. split.
  - apply (queues_own_shrink k); [done | by apply remove_inv | |].
    + intros j Hj. destruct (decide (j = i)) as [->|Hji]; [| by rewrite Ho].
      rewrite E, E'. apply sublist_app; [done | by apply sublist_cons].
    + intros j q Hj _. unfold getp. by rewrite Hprocs.
  - intros (j & Hj & Hjp). destruct (decide (j = i)) as [->|Hji].
    + specialize (Hnd i Hi). rewrite E in Hnd. rewrite E' in Hjp.
      apply NoDup_app in Hnd as (_ & Hd & [Hp _]%NoDup_cons).
      apply elem_of_app in Hjp as [Hjp|Hjp]; [| done].
      apply (Hd _ Hjp). by left.
    + rewrite Ho in Hjp by done. destruct (Hq j p Hj Hjp), (Hq i p Hi Hin). congruence.
Qed.

(** The slots of row [i] that are in use. *)
Definition live k i j : Prop :=
  if zget (face k) i <=? zget (back k) i
  then zget (face k) i <= j <= zget (back k) i
  else zget (face k) i <= j < NPROC \/ 0 <= j <= zget (back k) i.

Lemma live_ring k i j :
  wf_queues k -> 0 <= i < 5 -> ~ is_empty k i -> live k i j -> qcell k i j ∈ ring k i.
Proof.
  intros [_ Hrows] Hi Hne Hl. destruct (Hrows i Hi) as [Hrow _].
  unfold ring. apply elem_of_window.
  pose proof (slots_of_ring k i (fun n => qcell k i j = qcell k i n) Hrow Hne) as Hs.
  cbn zeta in Hs. apply Hs. clear Hs. unfold live in Hl.
  destruct (_ <=? _); [by exists j |].
  destruct Hl; [left | right]; exists j; (split; [lia | done]).
Qed.

(** The indices of row [i] after remove and after push into another row. *)
Lemma remove_index i p k :
  wf_queues k -> 0 <= i < 5 -> Some p ∈ ring k i ->
  let k' := remove i p k in
  if decide (zget (face k) i = zget (back k) i)
  then zget (face k') i = -1 /\ zget (back k') i = -1
  else zget (face k') i = (zget (face k) i + 1) mod NPROC /\
       zget (back k') i = zget (back k) i.
Proof.
  intros Hwf Hi Hin. destruct (Hwf) as [Hw Hrows]. destruct (Hrows i Hi) as [Hrow _].
  assert (Hne : ~ is_empty k i).
  { intros He%ring_empty. rewrite He in Hin. by apply elem_of_nil in Hin. }
  destruct (Hw) as (Lf & Lb & _). cbn zeta. case_decide as Hfb.
  - unfold remove. rewrite (proj2 (Z.eqb_eq _ _) Hfb). cbn.
    rewrite !zget_zupd_eq by (unfold zlen; lia). done.
  - destruct Hrow as [[? _]|[Hf Hb]]; [done |].
    rewrite remove_unfold by (lia || done). cbn zeta.
    destruct (locate_spec k i p (or_intror (conj Hf Hb)) Hne)
      as [[_ Hn]|(Hm & _ & _ & Hwrap & _)]; [done |].
    rewrite (proj2 (Z.eqb_neq _ _)) by lia.
    destruct (shifted_spec i (locate k i p) k Hw Hi Hf Hm Hwrap) as [(Hw1 & Hf1 & Hb1 & _) _].
    unfold bump_face. cbn. rewrite Hf1, Hb1. rewrite zget_zupd_eq by (unfold zlen; lia). done.
Qed.

Lemma push_index a b k i :
  wf_queues k -> 0 <= a < 5 -> 0 <= i < 5 -> i <> a ->
  zget (face (push a b k)) i = zget (face k) i /\
  zget (back (push a b k)) i = zget (back k) i.
Proof.
  intros Hwf Ha Hi Hne.
  destruct (push_cases a b k Hwf Ha) as [(-> & _)|[(-> & _)|(-> & _)]]; try done.
  destruct (append_proc_frame a b k i) as (? & ? & _); try done; apply Hwf; done.
Qed.

(** How one iteration moves the indices of its row. *)
Definition moved k k' i : Prop :=
  (zget (face k') i = zget (face k) i /\ zget (back k') i = zget (back k) i) \/
  (zget (face k) i = zget (back k) i /\ zget (face k') i = -1 /\ zget (back k') i = -1) \/
  (zget (face k) i <> zget (back k) i /\
   zget (face k') i = (zget (face k) i + 1) mod NPROC /\ zget (back k') i = zget (back k) i).

Lemma age_slot_own i j k :
  queues_own k -> 1 <= i < 5 -> ~ is_empty k i -> live k i j ->
  queues_own (age_slot i j k) /\ moved k (age_slot i j k) i.
Proof.
  intros Hown Hi Hne Hl. pose proof Hown as (Hinv & Hnd & Hq).
  pose proof (live_ring k i j (proj1 Hinv) ltac:(lia) Hne Hl) as Hin.
  unfold age_slot. destruct (proj2 (proj1 Hinv) i ltac:(lia)) as [_ Hp].
  destruct (Hp _ Hin) as (p & Ep & Hlt). rewrite Ep in *.
  case_test; [| by split; [| left]]. cbn zeta.
  destruct (Hq i p ltac:(lia) Hin) as [Hqn Hst].
  destruct (remove_own i p k Hown ltac:(lia) Hin) as [Hown1 Hnq].
  pose proof (remove_index i p k (proj1 Hinv) ltac:(lia) Hin) as Hidx. cbn zeta in Hidx.
  pose proof (procs_remove i p k (proj1 Hinv) ltac:(lia)) as Hprocs.
  set (k1 := remove i p k) in *.
  assert (Hg1 : getp k1 p = getp k p) by (unfold getp; by rewrite Hprocs).
  set (k2 := modp k1 p (fun q => q <| qn := qn q - 1 |>)).
  assert (Hg2 : getp k2 p = (getp k p) <| qn := i - 1 |>).
  { subst k2. rewrite getp_modp_eq by (by rewrite Hprocs). by rewrite Hg1, Hqn. }
  assert (Hown2 : queues_own k2).
  { apply (queues_own_shrink k1); [done | apply modp_inv, Hown1 | done |].
    intros i' q Hi' Hiq. subst k2. rewrite getp_modp_ne; [done |].
    intros <-. apply Hnq. by exists i'. }
  split.
  - apply push_own; rewrite ?Hg2; try done; [lia |].
    unfold k2. by rewrite length_procs_modp, Hprocs.
  - destruct (push_index (i - 1) p k2 i) as [Ef Eb]; [apply Hown2 | lia.. |].
    unfold moved. rewrite Ef, Eb. change (face k2) with (face k1).
    change (back k2) with (back k1). case_decide; tauto.
Qed.

(** The cursor of an aging loop is on a slot in use whenever the loop goes on. *)
Definition cursor_ok k i j : Prop :=
  ~ is_empty k i -> zget (face k) i <= j \/ zget (back k) i < zget (face k) i.

Lemma row_range k i :
  wf_queues k -> 0 <= i < 5 -> ~ is_empty k i ->
  0 <= zget (face k) i < NPROC /\ 0 <= zget (back k) i < NPROC.
Proof. intros [_ H] Hi Hne. destruct (H i Hi) as [[[? _]|?] _]; done. Qed.

Lemma age_loop_back_own fuel i j k :
  queues_own k -> 1 <= i < 5 -> 0 <= j -> cursor_ok k i j ->
  queues_own (age_loop fuel (fun k => zget (back k) i) i j k).
Proof.
  revert j k. induction fuel as [|fuel IH]; intros j k Hown Hi Hj Hc; cbn [age_loop]; [done |].
  case_test; [| done].
  assert (Hne : ~ is_empty k i).
  { intros He. destruct (proj2 (proj1 (proj1 Hown)) i ltac:(lia)) as [[[_ ?]|[? _]] _];
      unfold is_empty in He; lia. }
  destruct (row_range k i) as [Hf Hb]; [apply Hown | lia | done |].
  specialize (Hc Hne).
  assert (Hl : live k i j) by (unfold live; destruct (Z.leb_spec (zget (face k) i) (zget (back k) i)); lia).
  destruct (age_slot_own i j k Hown Hi Hne Hl) as [Hown' Hm].
  apply IH; [done | done | lia |]. intros Hne'. unfold is_empty in Hne'.
  destruct Hm as [[-> ->]|[(_ & ? & _)|(? & -> & ->)]]; [lia | lia |].
  Z.to_euclidean_division_equations. lia.
Qed.

Lemma age_loop_wrap_own fuel i j k :
  queues_own k -> 1 <= i < 5 -> ~ is_empty k i ->
  (zget (back k) i < zget (face k) i <= j \/ j = NPROC /\ cursor_ok k i 0) ->
  let k' := age_loop fuel (fun _ => NPROC - 1) i j k in
  queues_own k' /\ cursor_ok k' i 0.
Proof.
  revert j k. induction fuel as [|fuel IH]; intros j k Hown Hi Hne Hc; cbn [age_loop].
  { split; [done |]. intros _. destruct Hc as [?|[_ Hc]]; [lia | by apply Hc]. }
  case_test; cycle 1.
  { split; [done |]. intros _. destruct Hc as [?|[_ Hc]]; [lia | by apply Hc]. }
  destruct Hc as [Hc|[-> _]]; [| lia].
  destruct (row_range k i) as [Hf Hb]; [apply Hown | lia | done |].
  assert (Hl : live k i j) by (unfold live; destruct (Z.leb_spec (zget (face k) i) (zget (back k) i)); lia).
  destruct (age_slot_own i j k Hown Hi Hne Hl) as [Hown' Hm].
  assert (Hm' : zget (back (age_slot i j k)) i = zget (back k) i /\
    (zget (face (age_slot i j k)) i = zget (face k) i \/
     zget (face (age_slot i j k)) i = (zget (face k) i + 1) mod 64)).
  { destruct Hm as [[? ?]|[(? & _ & _)|(_ & ? & ?)]]; [tauto | lia | tauto]. }
  destruct Hm' as [Eb Ef].
  assert (Hr : 0 <= zget (face (age_slot i j k)) i < 64)
    by (destruct Ef as [->| ->]; [lia | apply Z.mod_pos_bound; lia]).
  apply IH; [done | done | unfold is_empty; lia |].
  unfold cursor_ok. rewrite Eb. Z.to_euclidean_division_equations. lia.
Qed.

Lemma age_queue_own k i : queues_own k -> 1 <= i < 5 -> queues_own (age_queue k i).
Proof.
  intros Hown Hi. unfold age_queue. destruct (Z.eqb_spec (zget (face k) i) (-1)) as [|Hne];
    [done |].
  destruct (row_range k i) as [Hf Hb]; [apply Hown | lia | done |].
  destruct (Z.leb_spec (zget (face k) i) (zget (back k) i)).
  - apply age_loop_back_own; [done | done | lia |]. intros _. lia.
  - cbn zeta. edestruct (age_loop_wrap_own 64 i) as [H1 H2];
      [exact Hown | exact Hi | exact Hne | left; split; [eassumption | apply Z.le_refl] |].
    apply age_loop_back_own; [exact H1 | exact Hi | lia | exact H2].
Qed.

Lemma age_all_own k : queues_own k -> queues_own (age_all k).
Proof.
  intros H. unfold age_all. apply fold_left_inv; [done |].
  intros k' i Hin%elem_of_zrange Hk'. apply age_queue_own; [done | lia].
Qed.

(** [p] is what the scheduler picks in [k]: the head of the first queue that is
    not empty. *)
Definition picked k p : Prop :=
  exists i rest, 0 <= i < 5 /\ (forall j, 0 <= j < i -> ring k j = []) /\
    ring k i = Some p :: rest /\ qn (getp k p) = i /\ state (getp k p) = RUNNABLE /\
    (p < length (procs k))%nat.

Lemma pick_own k :
  queues_own k ->
  ((forall i, 0 <= i < 5 -> ring k i = []) /\ pick k = (None, k)) \/
  exists p, fst (pick k) = Some p /\ picked k p /\ queues_own (snd (pick k)) /\
    ~ queued (snd (pick k)) p /\ procs (snd (pick k)) = procs k.
Proof.
  intros Hown. pose proof Hown as (Hinv & _). unfold pick.
  destruct (pick_from_spec k 0 (proj1 Hinv)) as [[He ->]|(i & Hi & Hlow & Hne & ->)]; [lia | |].
  - left. split; [| done]. intros i Hi. apply ring_empty, He. lia.
  - right. destruct (pop_own i k Hown Hi Hne) as (p & Hp & Hlt & Hown' & Hnq & Hqn & Hst).
    destruct (pop_ring i k (proj1 Hinv) Hi Hne) as (_ & Hr & _). rewrite Hp in Hr.
    exists p. split_and!; try done; [| unfold pop; by repeat case_test].
    exists i, (ring (snd (pop i k)) i). split_and!; try done; try lia.
    intros j Hj. apply ring_empty, Hlow. lia.
Qed.

(** Fields of an unqueued process, or fields the queues do not depend on. *)
Lemma modp_own k p f :
  queues_own k ->
  (queued k p -> forall r, qn (f r) = qn r /\ state (f r) = state r) ->
  queues_own (modp k p f).
Proof.
  intros Hown Hf. apply (queues_own_shrink k); [done | apply modp_inv, Hown | |].
  - intros i Hi. by change (ring (modp k p f) i) with (ring k i).
  - intros i q Hi Hq. change (ring (modp k p f) i) with (ring k i) in Hq.
    destruct (decide (p = q)) as [<-|Hne]; [| by rewrite getp_modp_ne].
    destruct (proj2 (proj1 (proj1 Hown)) i Hi) as [_ Hin].
    destruct (Hin _ Hq) as (p' & [= <-] & Hlt).
    rewrite getp_modp_eq by done. apply Hf. by exists i.
Qed.

Lemma boot_own below (x : X) : queues_own (boot_state below x).
Proof.
  split; [apply boot_inv |].
  assert (He : forall i, 0 <= i < 5 -> ring (boot_state below x) i = []).
  { intros i Hi. apply ring_empty. unfold is_empty. cbn.
    assert (i = 0 \/ i = 1 \/ i = 2 \/ i = 3 \/ i = 4) as [-> |[-> |[-> |[-> | ->]]]] by lia;
      reflexivity. }
  split.
  - intros i Hi. rewrite He by done. constructor.
  - intros i p Hi. rewrite He by done. by intros ?%elem_of_nil.
Qed.

Lemma boot_unqueued below (x : X) p : ~ queued (boot_state below x) p.
Proof.
  intros (i & Hi & Hp). destruct (boot_own below x) as (_ & _ & H).
  destruct (H i p Hi Hp) as [_ Hst]. by rewrite getp_boot in Hst.
Qed.
End own.

(** C6: aging keeps the queues consistent.  If every queued process is RUNNABLE,
    sits in the queue its qn names and is queued once, then this still holds after
    the aging pass of the scheduler and after the choice that follows it; the
    choice takes the head of the highest queue that is not empty and leaves it in
    no queue; and the aging loop over a queue is finished after the 64 steps the
    model gives it. *)
Theorem aging_ownership {X} (k : kstate X) :
  queues_own k ->
  queues_own (age_all k) /\
  (fst (pick (age_all k)) = None \/
   exists p, fst (pick (age_all k)) = Some p /\ picked (age_all k) p /\
     queues_own (snd (pick (age_all k))) /\ ~ queued (snd (pick (age_all k))) p) /\
  (forall i extra, 1 <= i < 5 -> ~ is_empty k i ->
     age_loop (64 + extra) (fun k => zget (back k) i) i (zget (face k) i) k =
     age_loop 64 (fun k => zget (back k) i) i (zget (face k) i) k).
Proof.
  intros Hown. pose proof (age_all_own k Hown) as H1.
  split; [exact H1 |]. split.
  - destruct (pick_own (age_all k) H1) as [[_ ->]|(p & Hp & Hpk & Ho & Hq & _)];
      [by left | right; by exists p].
  - intros i extra Hi Hne. destruct Hown as [Hinv _].
    destruct (row_range k i) as [Hf _]; [apply Hinv | lia | exact Hne |].
    apply age_loop_fuel; [| exact Hinv | lia | lia | lia].
    intros k' [[_ Hrows] _]. destruct (Hrows i ltac:(lia)) as [[[_ ?]|[_ ?]] _]; lia.
Qed.

(** A RUNNABLE process of queue 3 that has waited for 20 ticks moves to queue 2. *)
Definition one_waiting : kstate unit :=
  let k := modp (boot_state None tt) 7 (fun r => r <| state := RUNNABLE |> <| qn := 3 |>) in
  modp (push 3 7 k) 7 (fun r => r <| waittime := 20 |>).

Lemma aging_ownership_witness :
  queues_own one_waiting /\ queues_own (age_all one_waiting) /\
  ring (age_all one_waiting) 2 = [Some 7%nat] /\ qn (getp (age_all one_waiting) 7) = 2.
Proof.
  assert (H : queues_own one_waiting).
  { apply modp_own; [| done]. apply push_own.
    - apply modp_own; [apply boot_own | by intros ?%boot_unqueued].
    - lia.
    - vm_compute. lia.
    - exact (boot_unqueued None tt 7).
    - reflexivity.
    - reflexivity. }
  split; [exact H |]. split; [| split; vm_compute; reflexivity].
  exact (proj1 (aging_ownership one_waiting H)).
Defined.
