(* ===== verification/Sched.v ===== *)
(** * The scheduler

    scheduler() of proc.c in its four builds (ROUND_ROBIN, FCFS, MLFQ, PBS), one
    pass of the outer loop per definition, with switchuvm and switchkvm of vm.c.
    What a process does between [swtch(&c->scheduler, p->context)] and its return
    is the parameter [run]; the class [RunOk] states what the scheduler relies
    on.  A pass returns the dispatches it made, each with the state it was chosen
    in. *)

From S2P Require Import Prelude ProcTable Spinlock Mlfq MlfqInv.

Section ops.
Context {X : Type} (run : nat -> kstate X -> kstate X).
Implicit Types (k : kstate X) (p q : nat).

(** ** Switching address spaces (vm.c) *)

Definition switchuvm (op : option nat) : M (kstate X) unit := fun k =>
  match op with
  | None => Panic "switchuvm: no process"
  | Some p =>
      if kstack (getp k p) =? 0 then Panic "switchuvm: no kstack"
      else if pgdir (getp k p) =? 0 then Panic "switchuvm: no pgdir"
      else
        let k := set_intr k (pushcli (intr_of k)) in
        let k := k <| ts_esp0 := u32 (kstack (getp k p) + KSTACKSIZE) |> in
        let k := k <| cr3 := V2P (pgdir (getp k p)) |> in
        match popcli (intr_of k) with
        | inl c => Ok tt (set_intr k c)
        | inr msg => Panic msg
        end
  end.

Definition switchkvm : M (kstate X) unit := modify (fun k => k <| cr3 := V2P (kpgdir k) |>).

Definition sti : M (kstate X) unit := modify (fun k => k <| fl_if := true |>).

Definition is_state k p (st : procstate) : bool := bool_decide (state (getp k p) = st).

Definition set_state (st : procstate) p k : kstate X := modp k p (fun r => r <| state := st |>).
Definition count_run p k : kstate X := modp k p (fun r => r <| nrun := s32 (nrun r + 1) |>).

(** [swtch(&(c->scheduler), p->context); switchkvm(); c->proc = 0;] *)
Definition swtch_to p : M (kstate X) unit :=
  modify (run p);;
  switchkvm;;
  modify (fun k => k <| cpu_proc := None |>).

Definition dispatch : Type := kstate X * nat.

(** ** ROUND_ROBIN *)

Definition rr_dispatch p : M (kstate X) unit :=
  modify (fun k => k <| cpu_proc := Some p |>);;
  switchuvm (Some p);;
  modify (count_run p);;
  modify (set_state RUNNING p);;
  swtch_to p.

Fixpoint rr_loop (ps : list nat) : M (kstate X) (list dispatch) :=
  match ps with
  | [] => mret []
  | p :: ps =>
      k0 ← gets id;
      if negb (is_state k0 p RUNNABLE) then rr_loop ps
      else
        rr_dispatch p;;
        t ← rr_loop ps;
        mret ((k0, p) :: t)
  end.

Definition rr_pass : M (kstate X) (list dispatch) :=
  sti;;
  acquire LkPtable;;
  ps ← gets all_procs;
  t ← rr_loop ps;
  release LkPtable;;
  mret t.

(** ** FCFS *)

Definition fcfs_choose k (pro : option nat) p : option nat :=
  if negb (is_state k p RUNNABLE) then pro
  else match pro with
       | None => Some p
       | Some r => if ctime (getp k p) <? ctime (getp k r) then Some p else pro
       end.

Definition fcfs_pick k : option nat := fold_left (fcfs_choose k) (all_procs k) None.

(** The [p->nrun++] before the switch runs after the loop, when [p] is
    [&ptable.proc[NPROC]]: it writes behind the table. *)
Definition fcfs_dispatch p : M (kstate X) unit :=
  modify (fun k => k <| past_nrun := s32 (past_nrun k + 1) |>);;
  modify (fun k => k <| cpu_proc := Some p |>);;
  switchuvm (Some p);;
  modify (set_state RUNNING p);;
  swtch_to p.

Definition fcfs_pass : M (kstate X) (list dispatch) :=
  sti;;
  acquire LkPtable;;
  k0 ← gets id;
  t ← match fcfs_pick k0 with
      | None => mret []
      | Some p => fcfs_dispatch p;; mret [(k0, p)]
      end;
  release LkPtable;;
  mret t.

(** ** MLFQ *)

Definition mlfq_dispatch p : M (kstate X) unit :=
  modify (fun k => modp k p (fun r => r <| waittime := 0 |> <| curtime := 0 |>));;
  modify (count_run p);;
  modify (fun k => k <| cpu_proc := Some p |>);;
  switchuvm (Some p);;
  modify (set_state RUNNING p);;
  swtch_to p.

(** After the switch: a process that used up its slice moves one queue down; a
    RUNNABLE process goes to the tail of its queue. *)
Definition mlfq_requeue p k : kstate X :=
  if is_state k p RUNNABLE then
    let k :=
      if flagq (getp k p) =? 1 then
        let k := modp k p (fun r => r <| flagq := 0 |> <| curtime := 0 |> <| waittime := 0 |>) in
        if negb (qn (getp k p) =? 4) then modp k p (fun r => r <| qn := qn r + 1 |>) else k
      else modp k p (fun r => r <| curtime := 0 |>) in
    push (qn (getp k p)) p k
  else k.

Definition mlfq_pass : M (kstate X) (list dispatch) :=
  sti;;
  acquire LkPtable;;
  modify age_all;;
  k0 ← gets id;
  let '(op, k1) := pick k0 in
  modify (fun _ => k1);;
  t ← match op with
      | Some p =>
          if is_state k1 p RUNNABLE then
            mlfq_dispatch p;;
            modify (mlfq_requeue p);;
            mret [(k0, p)]
          else mret []
      | None => mret []
      end;
  release LkPtable;;
  mret t.

(** ** PBS *)

Definition pbs_choose k (hp ekaur : nat) : nat :=
  if negb (is_state k ekaur RUNNABLE) then hp
  else if priority (getp k ekaur) <? priority (getp k hp) then ekaur else hp.

(** The two inner loops: [ekaur] runs over p+1 .. NPROC-1, then 0 .. p-1. *)
Definition pbs_pick k p : nat :=
  let n := length (procs k) in
  let hp := fold_left (pbs_choose k) (seq (S p) (n - S p)) p in
  fold_left (pbs_choose k) (seq 0 p) hp.

Definition pbs_dispatch p : M (kstate X) unit :=
  modify (count_run p);;
  modify (fun k => k <| cpu_proc := Some p |>);;
  switchuvm (Some p);;
  modify (set_state RUNNING p);;
  swtch_to p.

(** One iteration of the loop over the table with its cursor [p].  The dispatched
    process becomes the cursor, so the loop goes on behind it; at the end of the
    table the outer loop releases the lock, enables interrupts and starts over. *)
Definition pbs_iter p : M (kstate X) (nat * list dispatch) :=
  k0 ← gets id;
  if (p <? length (procs k0))%nat then
    if negb (is_state k0 p RUNNABLE) then mret (S p, [])
    else
      let hp := pbs_pick k0 p in
      pbs_dispatch hp;; mret (S hp, [(k0, hp)])
  else
    release LkPtable;;
    sti;;
    acquire LkPtable;;
    mret (0%nat, []).

Fixpoint pbs_iters (n : nat) p : M (kstate X) (nat * list dispatch) :=
  match n with
  | O => mret (p, [])
  | S n =>
      r ← pbs_iter p;
      r' ← pbs_iters n (fst r);
      mret (fst r', snd r ++ snd r')
  end.
End ops.

(** ** What the scheduler relies on *)

Section spec.
Context {X : Type}.
Implicit Types (k : kstate X) (p q : nat).

(** Between passes the CPU holds no lock; inside a pass it holds [ptable.lock]
    and nothing else, with interrupts off. *)
Definition idle k : Prop := held k = [] /\ ncli k = 0.
Definition locked k : Prop := held k = [LkPtable] /\ ncli k = 1 /\ fl_if k = false.

(** Every process past its creation has a kernel stack and an address space. *)
Definition has_image (st : procstate) : bool :=
  match st with UNUSED | EMBRYO => false | _ => true end.
Definition ready k : Prop := forall p,
  has_image (state (getp k p)) = true -> kstack (getp k p) <> 0 /\ pgdir (getp k p) <> 0.

(** The state in which the scheduler switches to [p]. *)
Definition running p k : Prop :=
  locked k /\ cpu_proc k = Some p /\ state (getp k p) = RUNNING /\
  (p < length (procs k))%nat /\ ts_esp0 k = u32 (kstack (getp k p) + KSTACKSIZE) /\
  cr3 k = V2P (pgdir (getp k p)).

(** A process comes back to the scheduler holding [ptable.lock] only ("It is the
    process's job to release ptable.lock and then reacquire it before jumping back
    to us"); it leaves the other RUNNABLE processes RUNNABLE, since only the
    scheduler takes a process out of that state. *)
Class RunOk (run : nat -> kstate X -> kstate X) : Prop := {
  run_locked p k : running p k -> locked (run p k);
  run_length p k : running p k -> length (procs (run p k)) = length (procs k);
  run_ready p k : running p k -> ready k -> ready (run p k);
  run_runnable p q k :
    running p k -> q <> p -> state (getp k q) = RUNNABLE ->
    state (getp (run p k) q) = RUNNABLE }.

Definition same_queues k k1 : Prop :=
  face k1 = face k /\ back k1 = back k /\ sz k1 = sz k /\
  queue k1 = queue k /\ below_queue k1 = below_queue k.

(** [k1] is the state [p] is switched to, chosen in [k]: bookkeeping of [p], and of
    no other process. *)
Record launched p k k1 : Prop := {
  la_running : running p k1;
  la_length : length (procs k1) = length (procs k);
  la_other q : q <> p -> getp k1 q = getp k q;
  la_kstack : kstack (getp k1 p) = kstack (getp k p) /\ kstack (getp k p) <> 0;
  la_pgdir : pgdir (getp k1 p) = pgdir (getp k p) /\ pgdir (getp k p) <> 0;
  la_qn : qn (getp k1 p) = qn (getp k p);
  la_priority : priority (getp k1 p) = priority (getp k p);
  la_queues : same_queues k k1 }.

Lemma launched_ready p k k1 : launched p k k1 -> ready k -> ready k1.
Proof.
  intros L Hr q Hq. destruct (decide (q = p)) as [->|Hne].
  - destruct (la_kstack _ _ _ L), (la_pgdir _ _ _ L). split; congruence.
  - rewrite (la_other _ _ _ L) in * by done. by apply Hr.
Qed.

Lemma push_pop_locked c :
  0 < i_ncli c -> i_if c = false -> popcli (pushcli c) = inl c.
Proof.
  destruct c as [n i f]. cbn. intros Hn ->. unfold popcli, pushcli. cbn.
  destruct (n =? 0) eqn:E; bool_to_prop; [lia |]. cbn.
  destruct (n + 1 - 1 <? 0) eqn:E1; bool_to_prop; [lia |].
  destruct (n + 1 - 1 =? 0) eqn:E2; bool_to_prop; [lia |].
  cbn. by replace (n + 1 - 1) with n by lia.
Qed.

Lemma switchuvm_ok p k :
  locked k -> kstack (getp k p) <> 0 -> pgdir (getp k p) <> 0 ->
  switchuvm (Some p) k
  = Ok tt (k <| ts_esp0 := u32 (kstack (getp k p) + KSTACKSIZE) |>
             <| cr3 := V2P (pgdir (getp k p)) |>).
Proof.
  intros (Hh & Hn & Hf) Hk Hp. unfold switchuvm.
  case_test; [done |]. case_test; [done |].
  set (c := pushcli (intr_of k)). cbn zeta.
  match goal with |- context [popcli (intr_of ?k')] =>
    replace (popcli (intr_of k')) with (popcli c) by (by subst c; destruct (pushcli _)) end.
  subst c. rewrite push_pop_locked by (cbn; lia || done).
  by destruct k.
Qed.

Lemma release_locked k :
  locked k ->
  release LkPtable k
  = Ok tt (k <| held := [] |> <| ncli := 0 |> <| fl_if := intena k |>).
Proof.
  intros (Hh & Hn & Hf). unfold release, holding, popcli. rewrite Hh. cbn.
  rewrite Hf, Hn. destruct k; cbn in *. subst. by destruct intena.
Qed.

Lemma acquire_idle k :
  idle k ->
  acquire LkPtable k
  = Ok tt (k <| held := [LkPtable] |> <| ncli := 1 |> <| intena := fl_if k |>
             <| fl_if := false |>).
Proof.
  intros (Hh & Hn). unfold acquire, holding, pushcli. destruct k; cbn in *. subst.
  reflexivity.
Qed.
End spec.

(** ** Dispatching *)

Section dispatch.
Context {X : Type} (run : nat -> kstate X -> kstate X).
Implicit Types (k : kstate X) (p q : nat).

Definition back_from p k : kstate X :=
  (run p k) <| cr3 := V2P (kpgdir (run p k)) |> <| cpu_proc := None |>.

Definition can_run p k : Prop :=
  locked k /\ (p < length (procs k))%nat /\
  kstack (getp k p) <> 0 /\ pgdir (getp k p) <> 0.

(** Bookkeeping that leaves the memory image of [p] alone. *)
Definition bookkeeping (f : proc -> proc) : Prop := forall r,
  kstack (f r) = kstack r /\ pgdir (f r) = pgdir r /\ qn (f r) = qn r /\
  priority (f r) = priority r.

Lemma launched_intro p k f k1 :
  can_run p k -> bookkeeping f ->
  procs k1 = alter (fun r => (f r) <| state := RUNNING |>) p (procs k) ->
  held k1 = held k -> ncli k1 = ncli k -> fl_if k1 = fl_if k ->
  cpu_proc k1 = Some p ->
  ts_esp0 k1 = u32 (kstack (getp k p) + KSTACKSIZE) ->
  cr3 k1 = V2P (pgdir (getp k p)) ->
  same_queues k k1 ->
  launched p k k1.
Proof.
  intros (Hl & Hp & Hks & Hpg) Hf Hprocs Hh Hn Hi Hc Ht H3 Hq.
  destruct (Hf (getp k p)) as (F1 & F2 & F3 & F4).
  assert (Hgp : getp k1 p = (f (getp k p)) <| state := RUNNING |>).
  { unfold getp. rewrite Hprocs, list_lookup_alter_eq.
    by destruct (lookup_lt_is_Some_2 _ _ Hp) as [r ->]. }
  assert (Hlen : length (procs k1) = length (procs k)) by (by rewrite Hprocs, length_alter).
  constructor; rewrite ?Hgp; cbn; try done.
  - split_and!; rewrite ?Hgp, ?Hlen; cbn; try done; [| by rewrite F1 | by rewrite F2].
    destruct Hl as (L1 & L2 & L3). split_and!; congruence.
  - intros q Hne. unfold getp. rewrite Hprocs, list_lookup_alter_ne; done.
Qed.

(** Run the statements of a dispatch whose bookkeeping is [f]. *)
Ltac read_after_alter :=
  first
    [ done
    | cbn; erewrite getp_alter;
      [| unfold modp; cbn; rewrite ?list_alter_alter; reflexivity | done]; done ].

Ltac run_dispatch f :=
  let Hk := fresh in let Hp := fresh in
  intros Hc; pose proof Hc as (Hl & Hlt & Hk & Hp);
  unfold mbind, M_bind, modify, set_state, count_run; cbn beta iota;
  rewrite switchuvm_ok;
  [ cbn beta iota; eexists; split; [reflexivity |]; split;
    [ apply (launched_intro _ _ f _ Hc);
      [ by intros r | unfold modp; cbn; rewrite ?list_alter_alter; reflexivity
      | read_after_alter ..]
    | unfold modp; cbn; rewrite ?list_alter_alter; repeat split]
  | done | read_after_alter | read_after_alter ].

Lemma rr_dispatch_ok p k :
  can_run p k ->
  exists k1, rr_dispatch run p k = Ok tt (back_from p k1) /\ launched p k k1 /\
    procs k1 = alter (fun r => r <| nrun := s32 (nrun r + 1) |> <| state := RUNNING |>)
                     p (procs k).
Proof.
  unfold rr_dispatch.
  run_dispatch (fun r : proc => r <| nrun := s32 (nrun r + 1) |>).
Qed.

Lemma fcfs_dispatch_ok p k :
  can_run p k ->
  exists k1, fcfs_dispatch run p k = Ok tt (back_from p k1) /\ launched p k k1 /\
    procs k1 = alter (fun r => r <| state := RUNNING |>) p (procs k) /\
    past_nrun k1 = s32 (past_nrun k + 1).
Proof.
  unfold fcfs_dispatch. run_dispatch (fun r : proc => r).
Qed.

Lemma mlfq_dispatch_ok p k :
  can_run p k ->
  exists k1, mlfq_dispatch run p k = Ok tt (back_from p k1) /\ launched p k k1 /\
    procs k1 = alter (fun r => r <| waittime := 0 |> <| curtime := 0 |>
                                 <| nrun := s32 (nrun r + 1) |> <| state := RUNNING |>)
                     p (procs k).
Proof.
  unfold mlfq_dispatch.
  run_dispatch (fun r : proc => r <| waittime := 0 |> <| curtime := 0 |>
                                  <| nrun := s32 (nrun r + 1) |>).
Qed.

Lemma pbs_dispatch_ok p k :
  can_run p k ->
  exists k1, pbs_dispatch run p k = Ok tt (back_from p k1) /\ launched p k k1 /\
    procs k1 = alter (fun r => r <| nrun := s32 (nrun r + 1) |> <| state := RUNNING |>)
                     p (procs k).
Proof.
  unfold pbs_dispatch.
  run_dispatch (fun r : proc => r <| nrun := s32 (nrun r + 1) |>).
Qed.

(** What holds when the process is back. *)
Lemma back_from_ok `{!RunOk run} p k k1 :
  launched p k k1 -> ready k ->
  locked (back_from p k1) /\ ready (back_from p k1) /\
  length (procs (back_from p k1)) = length (procs k) /\
  (forall q, q <> p -> state (getp k q) = RUNNABLE ->
             state (getp (back_from p k1) q) = RUNNABLE).
Proof.
  intros L Hr. pose proof (la_running _ _ _ L) as Hrun. split_and!.
  - exact (run_locked (run:=run) p k1 Hrun).
  - exact (run_ready (run:=run) p k1 Hrun (launched_ready p k k1 L Hr)).
  - rewrite <- (la_length _ _ _ L). exact (run_length (run:=run) p k1 Hrun).
  - intros q Hq Hst. rewrite <- (la_other _ _ _ L q Hq) in Hst.
    exact (run_runnable (run:=run) p q k1 Hrun Hq Hst).
Qed.

(** The lock is taken at the start of a pass. *)
Lemma begin_pass k :
  idle k ->
  exists k1, (sti ≫= fun _ => acquire LkPtable) k = Ok tt k1 /\ locked k1 /\
             procs k1 = procs k /\ past_nrun k1 = past_nrun k /\ same_queues k k1.
Proof.
  intros Hi. unfold sti, modify, mbind, M_bind.
  rewrite acquire_idle by done. eexists. split; [reflexivity |]. repeat split.
Qed.

Lemma is_state_spec k p st : is_state k p st = true <-> state (getp k p) = st.
Proof. unfold is_state. apply bool_decide_eq_true. Qed.

Lemma runnable_can_run p k :
  locked k -> ready k -> (p < length (procs k))%nat ->
  state (getp k p) = RUNNABLE -> can_run p k.
Proof.
  intros Hl Hr Hp Hst. destruct (Hr p) as [H1 H2]; [by rewrite Hst |].
  repeat split; try done; apply Hl.
Qed.

Lemma rr_loop_ok `{!RunOk run} ps k :
  NoDup ps -> (forall p, p ∈ ps -> (p < length (procs k))%nat) -> locked k -> ready k ->
  exists t k', rr_loop run ps k = Ok t k' /\ locked k' /\
    (snd <$> t) `sublist_of` ps /\
    Forall (fun d => state (getp (fst d) (snd d)) = RUNNABLE) t /\
    (forall p, p ∈ ps -> state (getp k p) = RUNNABLE -> p ∈ snd <$> t).
Proof.
  revert k. induction ps as [|p ps IH]; intros k Hnd Hin Hl Hr; cbn.
  - eexists [], k. split_and!; done.
  - apply NoDup_cons in Hnd as [Hp Hnd].
    destruct (is_state k p RUNNABLE) eqn:E; unfold mbind, M_bind; cbn [gets]; unfold id;
      rewrite E; cbn [negb].
    + apply is_state_spec in E.
      destruct (rr_dispatch_ok p k) as (k1 & -> & L & _).
      { apply runnable_can_run; try done. apply Hin. by left. }
      destruct (back_from_ok p k k1 L Hr) as (Hl' & Hr' & Hlen & Hst).
      destruct (IH (back_from p k1)) as (t & k' & E' & Hl2 & Hs & Hf & Hall); try done.
      { intros q Hq. rewrite Hlen. apply Hin. by right. }
      unfold mbind, M_bind in E'. rewrite E'.
      exists ((k, p) :: t), k'. split_and!; try done.
      * cbn. by constructor.
      * by constructor.
      * intros q [->|Hq]%elem_of_cons Hrun; cbn; [by left | right].
        apply Hall; [done |]. apply Hst; [by intros -> | done].
    + destruct (IH k) as (t & k' & E' & Hl2 & Hs & Hf & Hall); try done.
      { intros q Hq. apply Hin. by right. }
      exists t, k'. split_and!; try done; [by constructor |].
      intros q [->|Hq]%elem_of_cons Hrun; [| by apply Hall].
      apply is_state_spec in Hrun. congruence.
Qed.

(** [p] is the RUNNABLE process of [l] that was created first (the one with the
    lowest index, if several were created in the same tick). *)
Definition oldest k (l : list nat) p : Prop :=
  p ∈ l /\ state (getp k p) = RUNNABLE /\
  forall q, q ∈ l -> state (getp k q) = RUNNABLE ->
    ctime (getp k p) <= ctime (getp k q) /\
    (ctime (getp k q) = ctime (getp k p) -> (p <= q)%nat).

Lemma fcfs_pick_prefix k n :
  match fold_left (fcfs_choose k) (seq 0 n) None with
  | Some p => oldest k (seq 0 n) p
  | None => forall q, q ∈ seq 0 n -> state (getp k q) <> RUNNABLE
  end.
Proof.
  induction n as [|n IH]; [cbn; by intros q ?%elem_of_nil |].
  rewrite seq_S, fold_left_app. cbn [fold_left plus].
  set (o := fold_left _ _ _) in *. unfold fcfs_choose.
  destruct (is_state k n RUNNABLE) eqn:E; cbn [negb].
  - apply is_state_spec in E. destruct o as [p|].
    + destruct IH as (Hp & Hst & Hmin). pose proof Hp as Hp'. apply elem_of_seq in Hp'.
      case_test; (split_and!; [apply elem_of_snoc; auto | done |]);
        intros q [Hq| ->]%elem_of_snoc Hq2; try lia;
        pose proof Hq as Hq'; apply elem_of_seq in Hq'; destruct (Hmin q Hq Hq2); lia.
    + split_and!; [apply elem_of_snoc; auto | done |].
      intros q [Hq| ->]%elem_of_snoc Hst; [| lia].
      by destruct (IH q Hq).
  - assert (Hn : state (getp k n) <> RUNNABLE) by (rewrite <- is_state_spec; congruence).
    destruct o as [p|].
    + destruct IH as (Hp & Hst & Hmin). split_and!; [apply elem_of_snoc; auto | done |].
      intros q [Hq| ->]%elem_of_snoc Hq2; [by apply Hmin | done].
    + intros q [Hq| ->]%elem_of_snoc; [by apply IH | done].
Qed.

Lemma fcfs_pick_spec k :
  match fcfs_pick k with
  | Some p => oldest k (all_procs k) p
  | None => forall q, q ∈ all_procs k -> state (getp k q) <> RUNNABLE
  end.
Proof. apply fcfs_pick_prefix. Qed.

(** The table in cyclic order from [p]: the order in which PBS looks at it. *)
Definition cyc (n p : nat) : list nat := seq p (n - p) ++ seq 0 p.

(** [hp] is RUNNABLE and the first of [l] whose priority value is minimal among
    the RUNNABLE processes of [l]. *)
Definition first_min k (l : list nat) hp : Prop :=
  exists l1 l2, l = l1 ++ hp :: l2 /\ state (getp k hp) = RUNNABLE /\
    (forall q, q ∈ l1 -> state (getp k q) = RUNNABLE ->
               priority (getp k hp) < priority (getp k q)) /\
    (forall q, q ∈ l2 -> state (getp k q) = RUNNABLE ->
               priority (getp k hp) <= priority (getp k q)).

Lemma first_min_choose k l hp e :
  first_min k l hp -> first_min k (l ++ [e]) (pbs_choose k hp e).
Proof.
  intros (l1 & l2 & -> & Hst & H1 & H2). unfold pbs_choose.
  destruct (is_state k e RUNNABLE) eqn:E; cbn [negb]; [case_test |].
  - apply is_state_spec in E. exists (l1 ++ hp :: l2), []. split_and!; [done | done | |].
    + intros q [Hq|[-> |Hq]%elem_of_cons]%elem_of_app Hq2; [| lia |].
      * specialize (H1 q Hq Hq2). lia.
      * specialize (H2 q Hq Hq2). lia.
    + by intros q ?%elem_of_nil.
  - exists l1, (l2 ++ [e]). rewrite <- app_assoc. split_and!; try done.
    intros q [Hq| ->]%elem_of_snoc Hq2; [by apply H2 | lia].
  - exists l1, (l2 ++ [e]). rewrite <- app_assoc. split_and!; try done.
    intros q [Hq| ->]%elem_of_snoc Hq2; [by apply H2 |].
    apply is_state_spec in Hq2. congruence.
Qed.

Lemma first_min_fold k l l' hp :
  first_min k l hp -> first_min k (l ++ l') (fold_left (pbs_choose k) l' hp).
Proof.
  revert l hp. induction l' as [|e l' IH]; intros l hp H; cbn; [by rewrite app_nil_r |].
  rewrite cons_middle, app_assoc. apply IH. by apply first_min_choose.
Qed.

Lemma pbs_pick_spec k p :
  (p < length (procs k))%nat -> state (getp k p) = RUNNABLE ->
  first_min k (cyc (length (procs k)) p) (pbs_pick k p).
Proof.
  intros Hp Hst. unfold pbs_pick, cyc.
  replace (length (procs k) - p)%nat with (S (length (procs k) - S p)) by lia.
  cbn [seq]. apply first_min_fold.
  change (p :: seq (S p) (length (procs k) - S p))
    with ([p] ++ seq (S p) (length (procs k) - S p)).
  apply first_min_fold. exists [], []. split_and!; try done;
    by intros q ?%elem_of_nil.
Qed.

(** [q] is RUNNABLE and no RUNNABLE process comes before it in priority. *)
Definition favoured q k : Prop :=
  state (getp k q) = RUNNABLE /\
  forall r, state (getp k r) = RUNNABLE -> priority (getp k q) <= priority (getp k r).

(** How far the cursor [c] of the loop is from [q]. *)
Definition dist (n c q : nat) : nat := if (c <=? q)%nat then q - c else q + S n - c.

Lemma cyc_lookup n p i x :
  (p <= n)%nat -> cyc n p !! i = Some x ->
  ((i < n - p)%nat /\ x = (p + i)%nat) \/
  ((n - p <= i)%nat /\ (x < p)%nat /\ x = (i - (n - p))%nat).
Proof.
  intros Hp. unfold cyc. intros [H|[Hl H]]%lookup_app_Some.
  - apply lookup_seq in H. lia.
  - rewrite length_seq in *. apply lookup_seq in H. lia.
Qed.

Lemma pbs_pick_closer k p q :
  (p < length (procs k))%nat -> (q < length (procs k))%nat ->
  state (getp k p) = RUNNABLE -> favoured q k -> pbs_pick k p <> q ->
  (pbs_pick k p < length (procs k))%nat /\
  (dist (length (procs k)) (S (pbs_pick k p)) q < dist (length (procs k)) p q)%nat.
Proof.
  intros Hp Hq Hst [Hq1 Hq2] Hne.
  destruct (pbs_pick_spec k p Hp Hst) as (l1 & l2 & El & Hst' & H1 & H2).
  assert (Hin : q ∈ cyc (length (procs k)) p).
  { unfold cyc. rewrite elem_of_app, !elem_of_seq. lia. }
  rewrite El in Hin. apply elem_of_app in Hin as [Hin|Hin].
  { specialize (H1 q Hin Hq1). specialize (Hq2 _ Hst'). lia. }
  apply elem_of_cons in Hin as [->|Hin]; [done |].
  apply list_elem_of_lookup in Hin as [j Hj].
  set (n := length (procs k)) in *. set (hp := pbs_pick k p) in *.
  assert (E1 : cyc n p !! length l1 = Some hp) by (rewrite El; by apply list_lookup_middle).
  assert (E2 : cyc n p !! (length l1 + S j)%nat = Some q).
  { rewrite El, lookup_app_r by lia. by replace (length l1 + S j - length l1)%nat with (S j) by lia. }
  apply cyc_lookup in E1; [| lia]. apply cyc_lookup in E2; [| lia].
  unfold dist. destruct (Nat.leb_spec (S hp) q), (Nat.leb_spec p q); lia.
Qed.

Lemma getp_beyond k p : (length (procs k) <= p)%nat -> getp k p = zero_proc.
Proof. intros H. unfold getp. by rewrite lookup_ge_None_2. Qed.

Lemma first_min_favoured k p hp :
  (p <= length (procs k))%nat ->
  first_min k (cyc (length (procs k)) p) hp -> favoured hp k.
Proof.
  intros Hp (l1 & l2 & El & Hst & H1 & H2). split; [done |]. intros r Hr.
  destruct (decide (r < length (procs k))%nat) as [Hl|Hl]; cycle 1.
  { rewrite getp_beyond in Hr by lia. done. }
  assert (Hin : r ∈ cyc (length (procs k)) p).
  { unfold cyc. rewrite elem_of_app, !elem_of_seq. lia. }
  rewrite El in Hin. apply elem_of_app in Hin as [Hin|[->|Hin]%elem_of_cons].
  - specialize (H1 r Hin Hr). lia.
  - lia.
  - by apply H2.
Qed.

Lemma favoured_launched p q k k1 :
  p <> q -> launched p k k1 -> favoured q k -> favoured q k1.
Proof.
  intros Hpq L [H1 H2]. destruct (la_running _ _ _ L) as (_ & _ & Hst & _).
  rewrite <- (la_other _ _ _ L q) in H1 by done. split; [done |].
  intros r Hr. destruct (decide (r = p)) as [->|Hne]; [congruence |].
  rewrite !(la_other _ _ _ L) in * by done. by apply H2.
Qed.

(** The end of the table: the lock is released and taken again. *)
Lemma pbs_wrap k :
  locked k ->
  exists k1, (release LkPtable ≫= fun _ => sti ≫= fun _ => acquire LkPtable) k = Ok tt k1 /\
             locked k1 /\ procs k1 = procs k.
Proof.
  intros Hl. unfold mbind, M_bind. rewrite release_locked by done.
  unfold sti, modify. rewrite acquire_idle by done.
  eexists. split; [reflexivity |]. repeat split.
Qed.

(** An iteration whose cursor is not on a RUNNABLE process moves the cursor. *)
Lemma pbs_iter_skip q c k :
  locked k -> (c <= length (procs k))%nat -> (q < length (procs k))%nat ->
  state (getp k c) <> RUNNABLE -> state (getp k q) = RUNNABLE ->
  exists c' k', pbs_iter run c k = Ok (c', []) k' /\ locked k' /\ procs k' = procs k /\
    (c' <= length (procs k))%nat /\
    (dist (length (procs k)) c' q < dist (length (procs k)) c q)%nat.
Proof.
  intros Hl Hc Hq Hst Hqst.
  assert (Hcq : c <> q) by (intros ->; done).
  unfold pbs_iter, gets. unfold mbind at 1, M_bind at 1. unfold id.
  destruct (Nat.ltb_spec c (length (procs k))) as [Hlt|Hge].
  - destruct (is_state k c RUNNABLE) eqn:E; [by apply is_state_spec in E |].
    cbn [negb]. exists (S c), k. split_and!; try done.
    unfold dist. destruct (Nat.leb_spec (S c) q), (Nat.leb_spec c q); lia.
  - destruct (pbs_wrap k Hl) as (k1 & E & Hl1 & Hp1). unfold mbind, M_bind in *.
    destruct (release LkPtable k) as [[] k2|]; [| done].
    destruct (sti k2) as [[] k3|]; [| done]. rewrite E.
    exists 0%nat, k1. split_and!; try done; [lia |].
    unfold dist. destruct (Nat.leb_spec 0 q), (Nat.leb_spec c q); lia.
Qed.

Lemma pbs_iter_dispatch `{!RunOk run} c k :
  locked k -> ready k -> (c < length (procs k))%nat -> state (getp k c) = RUNNABLE ->
  exists k1, pbs_iter run c k
             = Ok (S (pbs_pick k c), [(k, pbs_pick k c)]) (back_from (pbs_pick k c) k1) /\
    launched (pbs_pick k c) k k1 /\ favoured (pbs_pick k c) k /\
    (pbs_pick k c < length (procs k))%nat.
Proof.
  intros Hl Hr Hlt E. pose proof (pbs_pick_spec k c Hlt E) as Hmin.
  pose proof (first_min_favoured k c _ ltac:(lia) Hmin) as Hfav.
  assert (Hpl : (pbs_pick k c < length (procs k))%nat).
  { destruct (decide (pbs_pick k c < length (procs k))%nat); [done |].
    destruct Hfav as [Hst _]. rewrite getp_beyond in Hst by lia. done. }
  destruct (pbs_dispatch_ok (pbs_pick k c) k) as (k1 & Ed & L & _).
  { apply runnable_can_run; try done. apply Hfav. }
  exists k1. split_and!; try done; [| apply Hfav..].
  unfold pbs_iter, gets, mbind, M_bind, id.
  rewrite (proj2 (Nat.ltb_lt _ _) Hlt), (proj2 (is_state_spec k c RUNNABLE) E).
  cbn [negb]. by rewrite Ed.
Qed.

Lemma pbs_iters_S m c k c1 t1 k1 c2 t2 k2 :
  pbs_iter run c k = Ok (c1, t1) k1 -> pbs_iters run m c1 k1 = Ok (c2, t2) k2 ->
  pbs_iters run (S m) c k = Ok (c2, t1 ++ t2) k2.
Proof. intros E1 E2. cbn. unfold mbind, M_bind. rewrite E1. cbn [fst]. by rewrite E2. Qed.

Lemma procs_same k k' : procs k' = procs k -> forall p, getp k' p = getp k p.
Proof. intros E p. unfold getp. by rewrite E. Qed.

Section pbs.
Context `{!RunOk run} (q : nat).
(** While other processes run, [q] stays RUNNABLE and nobody overtakes it. *)
Hypothesis keep : forall p k,
  p <> q -> running p k -> favoured q k -> priority (getp k q) <= priority (getp k p) ->
  favoured q (run p k).

Lemma pbs_reaches d c k :
  (dist (length (procs k)) c q <= d)%nat -> (c <= length (procs k))%nat ->
  (q < length (procs k))%nat -> locked k -> ready k -> favoured q k ->
  exists m c' t k' kq, (m <= S d)%nat /\ pbs_iters run m c k = Ok (c', t ++ [(kq, q)]) k' /\
    Forall (fun e => favoured (snd e) (fst e)) (t ++ [(kq, q)]).
Proof.
  revert c k. induction d as [d IH] using lt_wf_ind; intros c k Hd Hc Hq Hl Hr Hf.
  destruct (decide (state (getp k c) = RUNNABLE)) as [E|E].
  - assert (Hlt : (c < length (procs k))%nat).
    { destruct (decide (c < length (procs k))%nat); [done |].
      rewrite getp_beyond in E by lia. done. }
    destruct (pbs_iter_dispatch c k Hl Hr Hlt E) as (k1 & Ei & L & Hfav & Hpl).
    destruct (decide (pbs_pick k c = q)) as [Epq|Hpq].
    + exists 1%nat, (S q), [], (back_from q k1), k. rewrite Epq in *. split; [lia |].
      split; [| by constructor]. by apply (pbs_iters_S 0 c k _ _ _ (S q) [] _ Ei).
    + destruct (back_from_ok (pbs_pick k c) k k1 L Hr) as (Hl' & Hr' & Hlen & _).
      destruct (pbs_pick_closer k c q Hlt Hq E Hf Hpq) as [_ Hdist].
      destruct (IH (d - 1)%nat ltac:(lia) (S (pbs_pick k c)) (back_from (pbs_pick k c) k1))
        as (m & c' & t & k' & kq & Hm & Em & HF); rewrite ?Hlen; try done; try lia.
      { apply (keep (pbs_pick k c) k1 Hpq (la_running _ _ _ L)).
        - by apply (favoured_launched (pbs_pick k c) q k).
        - rewrite (la_other _ _ _ L q), (la_priority _ _ _ L) by done.
          apply Hf, Hfav. }
      exists (S m), c', ((k, pbs_pick k c) :: t), k', kq. split; [lia |].
      split; [by apply (pbs_iters_S m c k _ _ _ _ _ _ Ei Em) | by constructor].
  - destruct (pbs_iter_skip q c k Hl Hc Hq E (proj1 Hf))
      as (c1 & k1 & Ei & Hl1 & Hp1 & Hc1 & Hdist).
    pose proof (procs_same k k1 Hp1) as Hg.
    destruct (IH (d - 1)%nat ltac:(lia) c1 k1)
      as (m & c' & t & k' & kq & Hm & Em & HF); rewrite ?Hp1; try done; try lia.
    + intros p. rewrite Hg. apply Hr.
    + split; [rewrite Hg; apply Hf |]. intros r. rewrite !Hg. apply Hf.
    + exists (S m), c', t, k', kq. split; [lia |].
      split; [by apply (pbs_iters_S m c k _ _ _ _ _ _ Ei Em) | done].
Qed.
End pbs.

(** ** MLFQ *)

(** What the MLFQ build relies on besides [RunOk]: a process that comes back
    RUNNABLE has not been queued meanwhile and has a queue number in range. *)
Class RunMlfq : Prop := run_own p k :
  running p k -> queues_own k -> ~ queued k p -> 0 <= qn (getp k p) <= 4 ->
  queues_own (run p k) /\
  (state (getp (run p k) p) = RUNNABLE ->
   ~ queued (run p k) p /\ 0 <= qn (getp (run p k) p) <= 4).

Definition next_queue (r : proc) : Z :=
  if flagq r =? 1 then Z.min 4 (qn r + 1) else qn r.

(** The process table entry that mlfq_requeue leaves, before the push. *)
Lemma mlfq_requeue_unfold p k :
  state (getp k p) = RUNNABLE -> (p < length (procs k))%nat -> qn (getp k p) <= 4 ->
  exists f, mlfq_requeue p k = push (next_queue (getp k p)) p (modp k p f) /\
    qn (f (getp k p)) = next_queue (getp k p) /\
    state (f (getp k p)) = RUNNABLE /\ flagq (f (getp k p)) <> 1.
Proof.
  intros Hst Hp Hq. unfold mlfq_requeue, next_queue.
  rewrite (proj2 (is_state_spec k p RUNNABLE) Hst). cbn zeta.
  destruct (flagq (getp k p) =? 1) eqn:E; bool_to_prop.
  - set (f0 := fun r : proc => r <| flagq := 0 |> <| curtime := 0 |> <| waittime := 0 |>).
    rewrite (getp_modp_eq k p f0 Hp). change (qn (f0 (getp k p))) with (qn (getp k p)).
    case_test.
    + assert (Hlt : qn (getp k p) <> 4) by done.
      set (f1 := fun r : proc => r <| qn := qn r + 1 |>).
      exists (fun r => f1 (f0 r)).
      assert (Em : modp (modp k p f0) p f1 = modp k p (fun r => f1 (f0 r))).
      { unfold modp. cbn [procs upd]. by rewrite list_alter_alter. }
      rewrite Em, getp_modp_eq by done. cbn. split_and!; try done; f_equal; lia.
    + exists f0. rewrite getp_modp_eq by done. cbn. split_and!; try done; f_equal; lia.
  - exists (fun r => r <| curtime := 0 |>). by rewrite getp_modp_eq by done.
Qed.

Lemma mlfq_requeue_own p k :
  queues_own k -> ~ queued k p -> (p < length (procs k))%nat ->
  0 <= qn (getp k p) <= 4 -> queues_own (mlfq_requeue p k).
Proof.
  intros Hown Hnq Hp Hq. destruct (decide (state (getp k p) = RUNNABLE)) as [Hst|Hst]; cycle 1.
  { unfold mlfq_requeue. destruct (is_state k p RUNNABLE) eqn:E; [| done].
    by apply is_state_spec in E. }
  destruct (mlfq_requeue_unfold p k Hst Hp ltac:(lia)) as (f & -> & Hqf & Hsf & _).
  assert (Hown' : queues_own (modp k p f)) by (by apply modp_own).
  apply push_own; rewrite ?getp_modp_eq; try done.
  - unfold next_queue. case_test; lia.
  - by rewrite length_procs_modp.
Qed.

Lemma core_locked k k' : core k' = core k -> locked k -> locked k'.
Proof.
  intros E (H1 & H2 & H3). split_and!.
  - by rewrite <- H1; apply (f_equal held E).
  - by rewrite <- H2; apply (f_equal ncli E).
  - by rewrite <- H3; apply (f_equal fl_if E).
Qed.

Lemma core_ready k k' : core k' = core k -> ready k -> ready k'.
Proof.
  intros E Hr p Hst. pose proof (core_getp k k' p E) as Ep.
  destruct (Hr p) as [H1 H2];
    [by rewrite <- Hst; symmetry; apply (f_equal (fun r => has_image (state r))) in Ep |].
  split; [apply (f_equal kstack) in Ep | apply (f_equal pgdir) in Ep]; cbn in Ep; congruence.
Qed.

Lemma mlfq_requeue_locked p k : locked k -> locked (mlfq_requeue p k).
Proof.
  intros Hl. unfold mlfq_requeue. cbn zeta.
  repeat case_test; first [done | eapply core_locked; [apply core_push | done]].
Qed.

Lemma same_queues_ring k k1 i : same_queues k k1 -> ring k1 i = ring k i.
Proof.
  intros (Qf & Qb & _ & Qq & Qu). unfold ring, qlen. rewrite Qf, Qb.
  apply window_ext. intros t _. unfold qcell. by rewrite Qq, Qu.
Qed.

Lemma same_queues_inv k k1 :
  same_queues k k1 -> length (procs k1) = length (procs k) -> mlfq_inv k -> mlfq_inv k1.
Proof.
  intros Hs Hlen [[(W1 & W2 & W3 & W4) Hrows] Hc].
  pose proof (fun i => same_queues_ring k k1 i Hs) as Hring.
  destruct Hs as (Qf & Qb & Qs & Qq & Qu). split; [| unfold wf_cells; by rewrite Qq, Hlen].
  split; [by rewrite <- Qf, <- Qb, <- Qs, <- Qq in * |].
  intros i Hi. rewrite Hring, Hlen. unfold wf_row. rewrite Qf, Qb. by apply Hrows.
Qed.

Lemma queues_own_eq k k1 :
  procs k1 = procs k -> same_queues k k1 -> queues_own k -> queues_own k1.
Proof.
  intros Hp Hq Hown.
  apply (queues_own_shrink k); [done | | by intros i _; rewrite (same_queues_ring k k1) |].
  - apply (same_queues_inv k); [done | by rewrite Hp | apply Hown].
  - intros i p _ _. unfold getp. by rewrite Hp.
Qed.

Lemma mlfq_switch_ok `{!RunOk run, !RunMlfq} p k :
  locked k -> ready k -> queues_own k -> ~ queued k p -> 0 <= qn (getp k p) <= 4 ->
  (p < length (procs k))%nat -> state (getp k p) = RUNNABLE ->
  exists k', (mlfq_dispatch run p ≫= fun _ => modify (mlfq_requeue p)) k = Ok tt k' /\
    locked k' /\ queues_own k'.
Proof.
  intros Hl Hr Hown Hnq Hqn Hp Hst.
  destruct (mlfq_dispatch_ok p k) as (k1 & E & L & Hpr); [by apply runnable_can_run |].
  destruct (back_from_ok p k k1 L Hr) as (Hl2 & _ & Hlen & _).
  pose proof (la_running _ _ _ L) as Hrun.
  pose proof (fun i => same_queues_ring k k1 i (la_queues _ _ _ L)) as Hring.
  assert (Hnq1 : ~ queued k1 p).
  { intros (i & Hi & Hip). apply Hnq. exists i. by rewrite <- Hring. }
  assert (Hown1 : queues_own k1).
  { apply (queues_own_shrink k); [done | | by intros i Hi; rewrite Hring |].
    - by apply (same_queues_inv k); [apply L.. | apply Hown].
    - intros i q Hi Hq. rewrite (la_other _ _ _ L); [done |].
      intros ->. apply Hnq1. by exists i. }
  destruct (run_own p k1 Hrun Hown1 Hnq1) as [Hown2 Hback]; [by rewrite (la_qn _ _ _ L) |].
  exists (mlfq_requeue p (back_from p k1)). split_and!.
  - unfold mbind, M_bind. by rewrite E.
  - by apply mlfq_requeue_locked.
  - change (queues_own (mlfq_requeue p (back_from p k1))).
    destruct (decide (state (getp (run p k1) p) = RUNNABLE)) as [Hb|Hb].
    + destruct (Hback Hb). apply mlfq_requeue_own; try done. by rewrite Hlen.
    + unfold mlfq_requeue. destruct (is_state (back_from p k1) p RUNNABLE) eqn:Ei; [| done].
      by apply is_state_spec in Ei.
Qed.
End dispatch.

(** ** A process that only computes

    Up to the next clock tick, where yield() makes it RUNNABLE and switches back:
    an instance of what the scheduler relies on. *)

Definition yields {X} (p : nat) (k : kstate X) : kstate X := set_state RUNNABLE p k.

#[export] Instance yields_RunOk {X} : RunOk (X:=X) yields.
Proof.
  constructor; unfold yields, set_state.
  - intros p k (Hl & _). exact Hl.
  - intros p k _. by rewrite length_procs_modp.
  - intros p k (_ & _ & Hst & Hlt & _) Hr q Hq. destruct (decide (p = q)) as [<-|Hne].
    + rewrite getp_modp_eq by done. apply Hr. by rewrite Hst.
    + rewrite getp_modp_ne in * by done. by apply Hr.
  - intros p q k _ Hne Hq. by rewrite getp_modp_ne.
Qed.

#[export] Instance yields_RunMlfq {X} : RunMlfq (X:=X) yields.
Proof.
  intros p k (_ & _ & _ & Hlt & _) Hown Hnq Hqn. unfold yields, set_state.
  split; [by apply modp_own |]. intros _. by rewrite getp_modp_eq by done.
Qed.

(** A table with three processes that can run: 4 and 9 in the same priority class,
    6 behind them; 9 was created first. *)
Definition three_ready : kstate unit :=
  let mk ct pr := fun r : proc =>
    r <| state := RUNNABLE |> <| kstack := 2147487744 |> <| pgdir := 2147491840 |>
      <| ctime := ct |> <| priority := pr |> in
  modp (modp (modp (boot_state None tt) 4 (mk 12 60)) 6 (mk 11 80)) 9 (mk 10 60).

Lemma three_ready_getp q :
  getp three_ready q =
  if decide (q = 9%nat) then getp three_ready 9
  else if decide (q = 6%nat) then getp three_ready 6
  else if decide (q = 4%nat) then getp three_ready 4 else zero_proc.
Proof.
  repeat case_decide; subst; try done. unfold three_ready.
  rewrite !getp_modp_ne by done. apply getp_boot.
Qed.

Lemma three_ready_ok : idle three_ready /\ ready three_ready /\ length (procs three_ready) = 64%nat.
Proof.
  split; [done |]. split; [| done]. intros q. rewrite (three_ready_getp q).
  repeat case_decide; done.
Qed.

(** C27: round robin is fair.  A pass of the ROUND_ROBIN scheduler dispatches
    RUNNABLE processes only, in table order and each at most once, and dispatches
    every process that was RUNNABLE when the pass began; it takes and gives back
    ptable.lock without panicking. *)
Theorem rr_pass_fair {X} (run : nat -> kstate X -> kstate X) `{!RunOk run} (k : kstate X) :
  idle k -> ready k ->
  exists t k', rr_pass run k = Ok t k' /\ idle k' /\
    (snd <$> t) `sublist_of` all_procs k /\
    Forall (fun d => state (getp (fst d) (snd d)) = RUNNABLE) t /\
    (forall p, (p < length (procs k))%nat -> state (getp k p) = RUNNABLE -> p ∈ snd <$> t).
Proof.
  intros Hi Hr. destruct (begin_pass k Hi) as (k1 & E1 & Hl & Hp & _).
  pose proof (procs_same k k1 Hp) as Hg.
  assert (Hap : all_procs k1 = all_procs k) by (unfold all_procs; by rewrite Hp).
  destruct (rr_loop_ok run (all_procs k1) k1) as (t & k2 & E2 & Hl2 & Hs & Hf & Hall).
  - apply NoDup_seq.
  - intros p Hin. unfold all_procs in Hin. apply elem_of_seq in Hin. lia.
  - done.
  - intros p. rewrite Hg. apply Hr.
  - exists t. eexists. split_and!; [| | by rewrite <- Hap | done |].
    + unfold rr_pass. unfold mbind, M_bind in *.
      destruct (sti k) as [[] k0|]; [| done]. rewrite E1. cbn [gets].
      rewrite E2, release_locked by done. reflexivity.
    + done.
    + intros p Hlt Hst. apply Hall; [| by rewrite Hg]. rewrite Hap.
      apply elem_of_seq. lia.
Qed.

Lemma rr_pass_fair_witness :
  exists t k', rr_pass yields three_ready = Ok t k' /\ idle k' /\
    4%nat ∈ snd <$> t /\ 6%nat ∈ snd <$> t /\ 9%nat ∈ snd <$> t.
Proof.
  destruct three_ready_ok as (Hi & Hr & Hlen).
  destruct (rr_pass_fair yields three_ready Hi Hr) as (t & k' & E & Hk & _ & _ & Hall).
  exists t, k'. split; [exact E |]. split; [exact Hk |].
  split; [| split]; apply Hall; rewrite ?Hlen; first [lia | reflexivity].
Defined.

(** The body of a pass that dispatches one process, run under the lock. *)
Lemma fcfs_pass_run {X} (run : nat -> kstate X -> kstate X) `{!RunOk run} (k : kstate X) :
  idle k -> ready k ->
  exists k1 k', locked k1 /\ procs k1 = procs k /\ past_nrun k1 = past_nrun k /\
  match fcfs_pick k1 with
  | None => fcfs_pass run k = Ok [] k' /\ procs k' = procs k /\ past_nrun k' = past_nrun k
  | Some p => fcfs_pass run k = Ok [(k1, p)] k' /\ exists k2,
      launched p k1 k2 /\ procs k' = procs (run p k2) /\ past_nrun k' = past_nrun (run p k2) /\
      procs k2 = alter (fun r => r <| state := RUNNING |>) p (procs k) /\
      past_nrun k2 = s32 (past_nrun k + 1)
  end /\ idle k'.
Proof.
  intros Hi Hr.
  destruct (begin_pass k Hi) as (kl & E1 & Hl & Hprocs & Hpast & _).
  assert (Hrl : ready kl) by (intros p; rewrite (procs_same k kl Hprocs); apply Hr).
  assert (E : fcfs_pass run k = (t ← match fcfs_pick kl with
      | None => mret []
      | Some p => fcfs_dispatch run p;; mret [(kl, p)] end; release LkPtable;; mret t) kl).
  { unfold fcfs_pass. unfold mbind, M_bind in *.
    destruct (sti k) as [[] k0|]; [| done]. by rewrite E1. }
  rewrite E. clear E E1. unfold mbind, M_bind. exists kl.
  pose proof (fcfs_pick_spec kl) as Hp. destruct (fcfs_pick kl) as [p|] eqn:E.
  - destruct Hp as (Hin & Hst & _). apply elem_of_seq in Hin.
    destruct (fcfs_dispatch_ok run p kl) as (k2 & Ed & L & Hpr & Hn).
    { apply runnable_can_run; try done. lia. }
    destruct (back_from_ok run p kl k2 L Hrl) as (Hl2 & _).
    rewrite Ed. cbn [mret M_ret]. rewrite release_locked by done. eexists.
    split_and!; try done. exists k2. rewrite <- Hprocs, <- Hpast. by split_and!.
  - cbn [mret M_ret]. rewrite release_locked by done. eexists. by split_and!.
Qed.

(** First come, first served.  A pass of the FCFS scheduler dispatches the
    RUNNABLE process with the smallest creation time (the first one in the table if
    several were created in the same tick), and dispatches nothing exactly when no
    process is RUNNABLE; it never panics and gives ptable.lock back. *)
Theorem fcfs_pass_oldest {X} (run : nat -> kstate X -> kstate X) `{!RunOk run} (k : kstate X) :
  idle k -> ready k ->
  exists t k', fcfs_pass run k = Ok t k' /\ idle k' /\
    ((t = [] /\ forall q, (q < length (procs k))%nat -> state (getp k q) <> RUNNABLE) \/
     exists k0 p, t = [(k0, p)] /\ oldest k (all_procs k) p).
Proof.
  intros Hi Hr. destruct (fcfs_pass_run run k Hi Hr) as (k1 & k' & _ & Hp & _ & H & Hk').
  pose proof (procs_same k k1 Hp) as Hg. pose proof (fcfs_pick_spec k1) as Hspec.
  assert (Hap : all_procs k1 = all_procs k) by (unfold all_procs; by rewrite Hp).
  destruct (fcfs_pick k1) as [p|].
  - destruct H as (E & _). exists [(k1, p)], k'. split_and!; try done. right. exists k1, p.
    split; [done |]. destruct Hspec as (H1 & H2 & H3). rewrite Hap, Hg in *.
    split_and!; try done. intros q. specialize (H3 q). by rewrite !Hg in H3.
  - destruct H as (E & _). exists [], k'. split_and!; try done. left. split; [done |].
    intros q Hq. rewrite <- Hg. apply Hspec. rewrite Hap. apply elem_of_seq. lia.
Qed.

Lemma fcfs_pass_oldest_witness :
  exists k0 k', fcfs_pass yields three_ready = Ok [(k0, 9%nat)] k'.
Proof.
  destruct three_ready_ok as (Hi & Hr & Hlen).
  destruct (fcfs_pass_oldest yields three_ready Hi Hr)
    as (t & k' & E & _ & [[_ H]|(k0 & p & Et & Hin & Hst & Hmin)]).
  - destruct (H 9%nat); rewrite ?Hlen; [lia | reflexivity].
  - exists k0, k'. rewrite E, Et. destruct (Hmin 9%nat) as [H _]; [| reflexivity |].
    + apply elem_of_seq. rewrite Hlen. lia.
    + revert Hst H. rewrite (three_ready_getp p).
      destruct (decide (p = 9%nat)) as [->|]; [reflexivity |].
      repeat case_decide; vm_compute; intros; congruence.
Defined.

(** FCFS never counts a dispatch.  The statement [p->nrun++] of the FCFS build
    runs with [p] one past the table, so when the process only computes, its [nrun]
    (and every other one) is the same after the pass, and the word behind the table
    is incremented instead. *)
Theorem fcfs_nrun_uncounted {X} (k : kstate X) :
  idle k -> ready k -> (exists p, (p < length (procs k))%nat /\ state (getp k p) = RUNNABLE) ->
  exists t k', fcfs_pass yields k = Ok t k' /\ length t = 1%nat /\
    past_nrun k' = s32 (past_nrun k + 1) /\ forall q, nrun (getp k' q) = nrun (getp k q).
Proof.
  intros Hi Hr (p0 & Hp0 & Hst0).
  destruct (fcfs_pass_run yields k Hi Hr) as (k1 & k' & _ & Hp & _ & H & _).
  pose proof (fcfs_pick_spec k1) as Hspec. destruct (fcfs_pick k1) as [p|]; cycle 1.
  { destruct (Hspec p0); [apply elem_of_seq; rewrite Hp; lia | by rewrite (procs_same k k1)]. }
  destruct H as (E & k2 & L & Hpr & Hpn & Hpr2 & Hpn2).
  exists [(k1, p)], k'. split_and!; try done; [by rewrite Hpn |].
  intros q. assert (Hq : procs k' = alter (fun r => r <| state := RUNNING |> <| state := RUNNABLE |>) p (procs k)).
  { rewrite Hpr. unfold yields, set_state, modp. cbn [procs upd]. by rewrite Hpr2, list_alter_alter. }
  destruct (decide (p = q)) as [<-|Hne]; [| by erewrite getp_alter_ne].
  destruct (la_running _ _ _ L) as (_ & _ & _ & Hlt & _).
  erewrite getp_alter; [| done |]; [done |]. by rewrite (la_length _ _ _ L), Hp in Hlt.
Qed.

Lemma fcfs_nrun_uncounted_witness :
  exists t k', fcfs_pass yields three_ready = Ok t k' /\
    past_nrun k' = 1 /\ nrun (getp k' 9) = 0.
Proof.
  destruct three_ready_ok as (Hi & Hr & Hlen).
  destruct (fcfs_nrun_uncounted three_ready Hi Hr) as (t & k' & E & _ & Hn & Hq).
  - exists 9%nat. rewrite Hlen. split; [lia | reflexivity].
  - exists t, k'. split; [exact E |]. split; [rewrite Hn; reflexivity |].
    rewrite Hq. reflexivity.
Defined.

(** C28: priority scheduling does not starve the favourites.  Every process that
    the PBS scheduler dispatches is RUNNABLE with the best (lowest) priority value
    at that moment; and a process [q] that stays RUNNABLE with the best value while
    the others run is dispatched within 65 iterations of the loop over the table,
    wherever its cursor [c] is: processes of equal priority are served in turn. *)
Theorem pbs_no_starvation {X} (run : nat -> kstate X -> kstate X) `{!RunOk run}
    (q c : nat) (k : kstate X) :
  (forall p k, p <> q -> running p k -> favoured q k ->
     priority (getp k q) <= priority (getp k p) -> favoured q (run p k)) ->
  length (procs k) = 64%nat -> (c <= 64)%nat -> (q < 64)%nat ->
  locked k -> ready k -> favoured q k ->
  exists m c' t k' kq, (m <= 65)%nat /\
    pbs_iters run m c k = Ok (c', t ++ [(kq, q)]) k' /\
    Forall (fun d => favoured (snd d) (fst d)) (t ++ [(kq, q)]).
Proof.
  intros Hkeep Hlen Hc Hq Hl Hr Hf.
  destruct (pbs_reaches run q Hkeep 64 c k) as (m & c' & t & k' & kq & Hm & H);
    rewrite ?Hlen; try done.
  - unfold dist. destruct (Nat.leb_spec c q); lia.
  - exists m, c', t, k', kq. by split.
Qed.

Lemma yields_keeps {X} (q p : nat) (k : kstate X) :
  p <> q -> running p k -> favoured q k ->
  priority (getp k q) <= priority (getp k p) -> favoured q (yields p k).
Proof.
  intros Hne (_ & _ & Hst & Hlt & _) [H1 H2] Hpr. unfold yields, set_state.
  split; [by rewrite getp_modp_ne |]. intros r Hr. rewrite (getp_modp_ne k p q) by done.
  destruct (decide (p = r)) as [<-|Hpr'].
  - by rewrite getp_modp_eq by done.
  - rewrite getp_modp_ne in * by done. by apply H2.
Qed.

Definition in_pass {X} (k : kstate X) : kstate X := k <| held := [LkPtable] |> <| ncli := 1 |>.

Lemma in_pass_ok {X} (k : kstate X) q :
  fl_if k = false -> ready k -> favoured q k ->
  locked (in_pass k) /\ ready (in_pass k) /\ favoured q (in_pass k) /\
  length (procs (in_pass k)) = length (procs k).
Proof. intros Hf Hr Hq. split; [done |]. split; [exact Hr |]. split; [exact Hq | done]. Qed.

(** With the cursor just behind process 4, process 4 is dispatched after process 9. *)
Lemma pbs_no_starvation_witness :
  exists m c' t k' kq, (m <= 65)%nat /\
    pbs_iters yields m 5 (in_pass three_ready) = Ok (c', t ++ [(kq, 4%nat)]) k'.
Proof.
  destruct three_ready_ok as (_ & Hr & Hlen).
  assert (Hf : favoured 4 three_ready).
  { split; [reflexivity |]. intros r. rewrite (three_ready_getp r).
    repeat case_decide; vm_compute; congruence. }
  destruct (in_pass_ok three_ready 4 eq_refl Hr Hf) as (H1 & H2 & H3 & H4).
  rewrite Hlen in H4.
  destruct (pbs_no_starvation yields 4 5 (in_pass three_ready)
              (yields_keeps 4) H4 ltac:(lia) ltac:(lia) H1 H2 H3)
    as (m & c' & t & k' & kq & Hm & E & _).
  exists m, c', t, k', kq. split; [exact Hm | exact E].
Defined.

(** What follows the aging loops in a pass. *)
Definition mlfq_rest {X} (run : nat -> kstate X -> kstate X) (ka : kstate X) :
    M (kstate X) (list dispatch) :=
  t ← match fst (pick ka) with
      | Some p =>
          if is_state (snd (pick ka)) p RUNNABLE then
            mlfq_dispatch run p;; modify (mlfq_requeue p);; mret [(ka, p)]
          else mret []
      | None => mret []
      end;
  release LkPtable;; mret t.

Lemma mlfq_pass_unfold {X} (run : nat -> kstate X -> kstate X) (k k1 : kstate X) :
  (sti ≫= fun _ => acquire LkPtable) k = Ok tt k1 ->
  mlfq_pass run k = mlfq_rest run (age_all k1) (snd (pick (age_all k1))).
Proof.
  intros E1. unfold mlfq_pass, mlfq_rest. unfold mbind, M_bind in *.
  destruct (sti k) as [[] k0|]; [| done]. rewrite E1. cbn [modify gets]. unfold id.
  by destruct (pick (age_all k1)) as [op k2].
Qed.

Lemma mlfq_rest_ok {X} (run : nat -> kstate X -> kstate X) `{!RunOk run, !RunMlfq run}
    (ka : kstate X) :
  locked ka -> ready ka -> queues_own ka ->
  exists t k', mlfq_rest run ka (snd (pick ka)) = Ok t k' /\ idle k' /\ queues_own k' /\
    ((t = [] /\ forall i, 0 <= i < 5 -> ring ka i = []) \/
     exists p, t = [(ka, p)] /\ picked ka p).
Proof.
  intros Hl Hr Hown. unfold mlfq_rest.
  destruct (pick_own ka Hown) as [[Hempty ->]|(p & Ep & Hpk & Hown3 & Hnq & Hprocs)].
  - exists []. eexists. split.
    { cbn [fst snd]. unfold mbind, M_bind. cbn [mret M_ret].
      rewrite release_locked by done. reflexivity. }
    split; [done |]. split; [done |]. by left.
  - rewrite Ep. set (k2 := snd (pick ka)) in *.
    pose proof (core_locked ka k2 (core_pick ka) Hl) as Hl2.
    pose proof (core_ready ka k2 (core_pick ka) Hr) as Hr2.
    pose proof (procs_same ka k2 Hprocs) as Hg. clearbody k2.
    pose proof Hpk as (i & l & Hi & _ & _ & Hqn & Hst & Hlt).
    rewrite (proj2 (is_state_spec k2 p RUNNABLE)) by (by rewrite Hg).
    destruct (mlfq_switch_ok run p k2) as (k3 & E3 & Hl3 & Hown4); rewrite ?Hg, ?Hprocs; try done;
      [lia |].
    exists [(ka, p)]. eexists. split.
    + unfold mbind, M_bind in *. destruct (mlfq_dispatch run p k2) as [[] k4|]; [| done].
      rewrite E3. cbn [mret M_ret]. rewrite release_locked by done. reflexivity.
    + split; [done |]. split; [done |]. right. by exists p.
Qed.

(** C26: a pass of the MLFQ scheduler.  From a state in which the queues are
    consistent with the process table, the pass ages the waiting processes, then
    dispatches the head of the highest queue that is not empty, if there is one;
    afterwards the queues are consistent again, in particular the process that ran
    is queued at most once; ptable.lock is given back and nothing panics. *)
Theorem mlfq_pass_ok {X} (run : nat -> kstate X -> kstate X) `{!RunOk run, !RunMlfq run}
    (k : kstate X) :
  idle k -> ready k -> queues_own k ->
  exists k1 t k', mlfq_pass run k = Ok t k' /\ idle k' /\ queues_own k' /\
    procs k1 = procs k /\ same_queues k k1 /\
    ((t = [] /\ forall i, 0 <= i < 5 -> ring (age_all k1) i = []) \/
     exists p, t = [(age_all k1, p)] /\ picked (age_all k1) p).
Proof.
  intros Hi Hr Hown. destruct (begin_pass k Hi) as (k1 & E1 & Hl & Hp & _ & Hq).
  assert (Hown1 : queues_own k1) by (by apply (queues_own_eq k)).
  assert (Hr1 : ready k1) by (intros p; rewrite (procs_same k k1 Hp); apply Hr).
  destruct (mlfq_rest_ok run (age_all k1)) as (t & k' & E & H1 & H2 & H3).
  - exact (core_locked k1 _ (core_age_all k1) Hl).
  - exact (core_ready k1 _ (core_age_all k1) Hr1).
  - exact (age_all_own k1 Hown1).
  - exists k1, t, k'. rewrite (mlfq_pass_unfold run k k1 E1).
    split; [exact E |]. split; [exact H1 |]. split; [exact H2 |].
    split; [exact Hp |]. split; [exact Hq | exact H3].
Qed.

(** Process 7 waits in queue 3 for longer than [age]. *)
Definition aged_ready : kstate unit :=
  modp one_waiting 7 (fun r => r <| kstack := 2147487744 |> <| pgdir := 2147491840 |>).

Lemma mlfq_pass_ok_witness :
  exists t k', mlfq_pass yields aged_ready = Ok t k' /\ queues_own k' /\ snd <$> t = [7%nat].
Proof.
  assert (Hown : queues_own aged_ready).
  { apply modp_own; [| done]. apply modp_own; [| done]. apply push_own.
    - apply modp_own; [apply boot_own | by intros ?%boot_unqueued].
    - lia.
    - vm_compute. lia.
    - exact (boot_unqueued None tt 7).
    - reflexivity.
    - reflexivity. }
  assert (Hr : ready aged_ready).
  { intros q. destruct (decide (7%nat = q)) as [<-|Hne]; [by vm_compute |].
    unfold aged_ready, one_waiting. rewrite !getp_modp_ne by done.
    destruct (getp_push 3 7 (modp (boot_state None tt) 7 (fun r => r <| state := RUNNABLE |> <| qn := 3 |>)) q)
      as [E%state_strip _]. rewrite E, getp_modp_ne, getp_boot by done. done. }
  destruct (mlfq_pass_ok yields aged_ready (conj eq_refl eq_refl) Hr Hown)
    as (k1 & t & k' & E & _ & Hown' & _).
  exists t, k'. split; [exact E |]. split; [exact Hown' |].
  assert (Hd : match mlfq_pass yields aged_ready with
               | Ok t _ => snd <$> t
               | Panic _ => []
               end = [7%nat]) by (vm_compute; reflexivity).
  by rewrite E in Hd.
Defined.
