(* ===== verification/Proc.v ===== *)
(** * Processes

    The rest of proc.c: allocation, fork, exit, wait and waitx, sleep and wakeup,
    kill, yield, set_priority, preempt, the accounting done at every tick, and the
    listings showps and procdump.

    Code of other files that these functions call is behind the class [Services];
    code that gives up the CPU is written with a parameter [away]: what the rest
    of the machine does from the [swtch] in sched() until the scheduler switches
    back to this process. *)

From S2P Require Import Prelude ProcTable Spinlock CString Printf Mlfq MlfqInv Sched.

(** Operations of kalloc.c, vm.c, file.c, fs.c and log.c that proc.c calls.
    Addresses are integers (0 is null), files and inodes are table indices. *)
Class Services (X : Type) := {
  kalloc : M (kstate X) Z;
  kfree : Z -> M (kstate X) unit;
  setupkvm : M (kstate X) Z;
  inituvm : Z -> M (kstate X) unit;
  allocuvm : Z -> Z -> Z -> M (kstate X) Z;
  deallocuvm : Z -> Z -> Z -> M (kstate X) Z;
  copyuvm : Z -> Z -> M (kstate X) Z;
  freevm : Z -> M (kstate X) unit;
  filedup : nat -> M (kstate X) nat;
  fileclose : nat -> M (kstate X) unit;
  idup : option nat -> M (kstate X) (option nat);
  iput : option nat -> M (kstate X) unit;
  namei_root : M (kstate X) (option nat);
  begin_op : M (kstate X) unit;
  end_op : M (kstate X) unit }.

Section ops.
Context {X : Type} (pol : policy).
Implicit Types (k : kstate X) (p q : nat).

(** The constants of mmu.h that userinit uses. *)
Definition SEG_UCODE : Z := 3.
Definition SEG_UDATA : Z := 4.
Definition DPL_USER : Z := 3.
Definition FL_IF : Z := 512.
Abbreviation PGSIZE := 4096 (only parsing).

Definition mlfq_on : bool := bool_decide (pol = MLFQ).

(** myproc(); a null pointer dereference is a page fault in the kernel. *)
Definition myproc : M (kstate X) nat := fun k =>
  match cpu_proc k with Some p => Ok p k | None => Panic "trap" end.

Definition upd_proc p (f : proc -> proc) : M (kstate X) unit := modify (fun k => modp k p f).

(** ** allocproc *)

Definition find_unused k : option nat :=
  List.find (fun p => is_state k p UNUSED) (all_procs k).

Definition init_proc (id now : Z) (r : proc) : proc :=
  r <| qnt := replicate 5 0 |> <| state := EMBRYO |> <| pid := id |> <| ctime := now |>
    <| etime := 0 |> <| runtime := 0 |> <| waittime := 0 |> <| qn := 0 |>
    <| curtime := 0 |> <| nrun := 0 |> <| priority := 60 |> <| flagq := 0 |>.

(** The code entry points forkret and trapret are addresses of the kernel. *)
Context (forkret_addr : Z).

Definition allocproc `{Services X} : M (kstate X) (option nat) :=
  acquire LkPtable;;
  slot ← gets find_unused;
  match slot with
  | None => release LkPtable;; mret None
  | Some p =>
      modify (fun k =>
        (modp k p (init_proc (nextpid k) (ticks k))) <| nextpid := s32 (nextpid k + 1) |>);;
      release LkPtable;;
      a ← kalloc;
      upd_proc p (fun r => r <| kstack := a |>);;
      if a =? 0 then
        upd_proc p (fun r => r <| state := UNUSED |>);; mret None
      else
        upd_proc p (fun r => r <| ctx := zero_context <| ctx_eip := forkret_addr |> |>);;
        mret (Some p)
  end.

(** [np->state = RUNNABLE] under ptable.lock, with the MLFQ build's push. *)
Definition make_runnable p : M (kstate X) unit :=
  acquire LkPtable;;
  upd_proc p (fun r => r <| state := RUNNABLE |>);;
  (if mlfq_on then modify (push 0 p) else mret tt);;
  release LkPtable.

Definition userinit `{Services X} (initcode_name : list Z) : M (kstate X) unit :=
  op ← allocproc;
  modify (fun k => k <| initproc := op |>);;
  match op with
  | None => panic "trap"
  | Some p =>
      pg ← setupkvm;
      upd_proc p (fun r => r <| pgdir := pg |>);;
      if pg =? 0 then panic "userinit: out of memory?"
      else
        inituvm pg;;
        upd_proc p (fun r => r <| proc_sz := PGSIZE |>);;
        upd_proc p (fun r => r <| tf := zero_trapframe
          <| tf_cs := Z.lor (Z.shiftl SEG_UCODE 3) DPL_USER |>
          <| tf_ds := Z.lor (Z.shiftl SEG_UDATA 3) DPL_USER |>
          <| tf_es := Z.lor (Z.shiftl SEG_UDATA 3) DPL_USER |>
          <| tf_ss := Z.lor (Z.shiftl SEG_UDATA 3) DPL_USER |>
          <| tf_eflags := FL_IF |> <| tf_esp := PGSIZE |> <| tf_eip := 0 |> |>);;
        upd_proc p (fun r => r <| name := safestrcpy16 (name r) initcode_name |>);;
        root ← namei_root;
        upd_proc p (fun r => r <| cwd := root |>);;
        make_runnable p
  end.

(** ** growproc and fork *)

Definition growproc `{Services X} (n : Z) : M (kstate X) Z :=
  cur ← myproc;
  r ← gets (fun k => getp k cur);
  sz' ← (if 0 <? n then allocuvm (pgdir r) (proc_sz r) (u32 (proc_sz r + n))
         else if n <? 0 then deallocuvm (pgdir r) (proc_sz r) (u32 (proc_sz r + n))
         else mret (proc_sz r));
  if negb (n =? 0) && (sz' =? 0) then mret (-1)
  else
    upd_proc cur (fun r => r <| proc_sz := sz' |>);;
    switchuvm (Some cur);;
    mret 0.

(** [for(i = 0; i < NOFILE; i++) if(curproc->ofile[i]) np->ofile[i] = filedup(...)] *)
Definition dup_files `{Services X} (cur np : nat) : M (kstate X) unit :=
  forM (seq 0 16) (fun i =>
    r ← gets (fun k => getp k cur);
    match ofile r !! i with
    | Some (Some f) =>
        f' ← filedup f;
        upd_proc np (fun r => r <| ofile := <[i := Some f']> (ofile r) |>)
    | _ => mret tt
    end).

(** fork() when copyuvm fails, and when it succeeds; [c] is the parent's entry. *)
Definition fork_undo `{Services X} (np : nat) : M (kstate X) Z :=
  s ← gets (fun k => kstack (getp k np));
  kfree s;;
  upd_proc np (fun r => r <| kstack := 0 |> <| state := UNUSED |>);;
  mret (-1).

Definition fork_fill `{Services X} (cur np : nat) (c : proc) : M (kstate X) Z :=
  upd_proc np (fun r => r <| proc_sz := proc_sz c |> <| parent := Some cur |>
                          <| tf := tf c |>);;
  upd_proc np (fun r => r <| tf := (tf r) <| tf_eax := 0 |> |>);;
  dup_files cur np;;
  d ← idup (cwd c);
  upd_proc np (fun r => r <| cwd := d |>);;
  upd_proc np (fun r => r <| name := safestrcpy16 (name r) (name c) |>);;
  id ← gets (fun k => pid (getp k np));
  make_runnable np;;
  mret id.

Definition fork `{Services X} : M (kstate X) Z :=
  cur ← myproc;
  op ← allocproc;
  match op with
  | None => mret (-1)
  | Some np =>
      c ← gets (fun k => getp k cur);
      pg ← copyuvm (pgdir c) (proc_sz c);
      upd_proc np (fun r => r <| pgdir := pg |>);;
      if pg =? 0 then fork_undo np else fork_fill cur np c
  end.

(** ** Sleeping and waking *)

Definition wake_one (c : option channel) k p : kstate X :=
  if is_state k p SLEEPING && bool_decide (chan (getp k p) = c) then
    let k := set_state RUNNABLE p k in
    if mlfq_on then
      let k := modp k p (fun r => r <| curtime := 0 |>) in
      push (qn (getp k p)) p k
    else k
  else k.

Definition wakeup1 (c : option channel) k : kstate X :=
  fold_left (wake_one c) (all_procs k) k.

Definition wakeup (c : option channel) : M (kstate X) unit :=
  acquire LkPtable;; modify (wakeup1 c);; release LkPtable.

(** sched(): the four tests, then the switch.  [away] is what happens until the
    scheduler switches back. *)
Definition sched_checks : M (kstate X) unit := fun k =>
  match cpu_proc k with
  | None => Panic "trap"
  | Some p =>
      if negb (holding k LkPtable) then Panic "sched ptable.lock"
      else if negb (ncli k =? 1) then Panic "sched locks"
      else if is_state k p RUNNING then Panic "sched running"
      else if fl_if k then Panic "sched interruptible"
      else Ok tt k
  end.

Definition sched (away : kstate X -> kstate X) : M (kstate X) unit :=
  sched_checks;;
  i ← gets intena;
  modify away;;
  modify (fun k => k <| intena := i |>).

Definition yield_enter : M (kstate X) unit :=
  acquire LkPtable;;
  p ← myproc;
  (if mlfq_on then upd_proc p (fun r => r <| curtime := 0 |> <| waittime := 0 |>)
   else mret tt);;
  upd_proc p (fun r => r <| state := RUNNABLE |>).

Definition yield (away : kstate X -> kstate X) : M (kstate X) unit :=
  yield_enter;;
  sched away;;
  release LkPtable.

(** sleep() up to its call of sched(), and what follows it. *)
Definition sleep_enter (c : option channel) (lk : option spinlock) : M (kstate X) unit :=
  op ← gets cpu_proc;
  match op, lk with
  | None, _ => panic "sleep"
  | _, None => panic "sleep without lk"
  | Some p, Some lk =>
      (if bool_decide (lk <> LkPtable) then acquire LkPtable;; release lk else mret tt);;
      upd_proc p (fun r => r <| chan := c |> <| state := SLEEPING |>)
  end.

Definition sleep_leave (p : nat) (lk : spinlock) : M (kstate X) unit :=
  upd_proc p (fun r => r <| chan := None |>);;
  if bool_decide (lk <> LkPtable) then release LkPtable;; acquire lk else mret tt.

Definition sleep (away : kstate X -> kstate X) (c : option channel) (lk : option spinlock) :
    M (kstate X) unit :=
  sleep_enter c lk;;
  sched away;;
  p ← myproc;
  match lk with
  | Some lk => sleep_leave p lk
  | None => mret tt
  end.

(** The body of kill's loop once the process is found. *)
Definition strike p k : kstate X :=
  let k := modp k p (fun r => r <| killed := 1 |>) in
  if is_state k p SLEEPING then
    let k := set_state RUNNABLE p k in
    if mlfq_on then push (qn (getp k p)) p k else k
  else k.

(** The first slot with a given pid. *)
Definition find_pid k (id : Z) : option nat :=
  List.find (fun p => pid (getp k p) =? id) (all_procs k).

Definition kill (id : Z) : M (kstate X) Z :=
  acquire LkPtable;;
  op ← gets (fun k => find_pid k id);
  match op with
  | Some p => modify (strike p);; release LkPtable;; mret 0
  | None => release LkPtable;; mret (-1)
  end.

(** ** exit *)

Definition close_files `{Services X} (cur : nat) : M (kstate X) unit :=
  forM (seq 0 16) (fun fd =>
    r ← gets (fun k => getp k cur);
    match ofile r !! fd with
    | Some (Some f) =>
        fileclose f;;
        upd_proc cur (fun r => r <| ofile := <[fd := None]> (ofile r) |>)
    | _ => mret tt
    end).

(** The loop that passes abandoned children to init. *)
Definition reparent_one (cur : nat) k p : kstate X :=
  if bool_decide (parent (getp k p) = Some cur) then
    let k := modp k p (fun r => r <| parent := initproc k |>) in
    if is_state k p ZOMBIE then wakeup1 (ChProc <$> initproc k) k else k
  else k.

Definition reparent (cur : nat) k : kstate X :=
  fold_left (reparent_one cur) (all_procs k) k.

(** What exit() does under ptable.lock, up to its call of sched(). *)
Definition exit_locked (cur : nat) k : kstate X :=
  let k := wakeup1 (ChProc <$> parent (getp k cur)) k in
  let k := reparent cur k in
  modp k cur (fun r => r <| etime := s32 (ticks k) |> <| state := ZOMBIE |>).

Definition exit_enter `{Services X} : M (kstate X) unit :=
  cur ← myproc;
  i ← gets initproc;
  if bool_decide (i = Some cur) then panic "init exiting"
  else
    close_files cur;;
    begin_op;;
    d ← gets (fun k => cwd (getp k cur));
    iput d;;
    end_op;;
    upd_proc cur (fun r => r <| cwd := None |>);;
    acquire LkPtable;;
    modify (exit_locked cur).

(** A process that the scheduler runs again after its exit panics. *)
Definition exit `{Services X} (away : kstate X -> kstate X) : M (kstate X) unit :=
  exit_enter;;
  sched away;;
  panic "zombie exit".

(** ** wait and waitx *)

Definition has_child (cur : nat) k p : bool := bool_decide (parent (getp k p) = Some cur).

Definition find_zombie (cur : nat) k : option nat :=
  List.find (fun p => has_child cur k p && is_state k p ZOMBIE) (all_procs k).

Definition havekids (cur : nat) k : bool := existsb (has_child cur k) (all_procs k).

Definition reap `{Services X} p : M (kstate X) unit :=
  r ← gets (fun k => getp k p);
  kfree (kstack r);;
  upd_proc p (fun r => r <| kstack := 0 |>);;
  freevm (pgdir r);;
  upd_proc p (fun r => r <| pid := 0 |> <| parent := None |>).

Definition bury p : M (kstate X) unit :=
  upd_proc p (fun r => r <| name := <[0%nat := 0]> (name r) |> <| killed := 0 |>
                         <| state := UNUSED |>).

(** One turn of the loop of wait(): the return value, or [None] when the process
    has to sleep. *)
Definition wait_scan `{Services X} (cur : nat) : M (kstate X) (option Z) :=
  k ← gets (fun k => k);
  match find_zombie cur k with
  | Some p =>
      reap p;;
      bury p;;
      release LkPtable;;
      mret (Some (pid (getp k p)))
  | None =>
      if negb (havekids cur k) || negb (killed (getp k cur) =? 0) then
        release LkPtable;; mret (Some (-1))
      else mret None
  end.

(** The loop, given what happens during each of its sleeps. *)
Fixpoint wait_loop `{Services X} (cur : nat) (aways : list (kstate X -> kstate X)) :
    M (kstate X) (option Z) :=
  r ← wait_scan cur;
  match r, aways with
  | Some v, _ => mret (Some v)
  | None, [] => mret None
  | None, away :: aways =>
      sleep away (Some (ChProc cur)) (Some LkPtable);;
      wait_loop cur aways
  end.

Definition wait `{Services X} (aways : list (kstate X -> kstate X)) : M (kstate X) (option Z) :=
  cur ← myproc;
  acquire LkPtable;;
  wait_loop cur aways.

(** waitx: the same, returning the pair [( *wtime, *rtime)] with the pid. *)
Definition waitx_times (now : Z) (r : proc) : Z * Z :=
  let w := s32 (s32 (s32 now - ctime r) - runtime r) in
  (if w <? 0 then s32 (-1 * w) else w, runtime r).

Definition waitx_scan `{Services X} (cur : nat) : M (kstate X) (option (Z * option (Z * Z))) :=
  k ← gets (fun k => k);
  match find_zombie cur k with
  | Some p =>
      reap p;;
      now ← gets ticks;
      upd_proc p (fun r => r <| etime := s32 now |>);;
      r ← gets (fun k => getp k p);
      bury p;;
      release LkPtable;;
      mret (Some (pid (getp k p), Some (waitx_times now r)))
  | None =>
      if negb (havekids cur k) || negb (killed (getp k cur) =? 0) then
        release LkPtable;; mret (Some (-1, None))
      else mret None
  end.

Fixpoint waitx_loop `{Services X} (cur : nat) (aways : list (kstate X -> kstate X)) :
    M (kstate X) (option (Z * option (Z * Z))) :=
  r ← waitx_scan cur;
  match r, aways with
  | Some v, _ => mret (Some v)
  | None, [] => mret None
  | None, away :: aways =>
      sleep away (Some (ChProc cur)) (Some LkPtable);;
      waitx_loop cur aways
  end.

Definition waitx `{Services X} (aways : list (kstate X -> kstate X)) :
    M (kstate X) (option (Z * option (Z * Z))) :=
  cur ← myproc;
  acquire LkPtable;;
  waitx_loop cur aways.

(** ** Priorities and accounting *)

Definition set_priority (new_priority id : Z) : M (kstate X) Z :=
  acquire LkPtable;;
  k ← gets (fun k => k);
  match find_pid k id with
  | Some p =>
      upd_proc p (fun r => r <| priority := new_priority |>);;
      release LkPtable;;
      mret (priority (getp k p))
  | None =>
      release LkPtable;;
      modify (fun k => cprintf k "NO such pid found\n");;
      mret (-1)
  end.

(** preempt(prior, i): is there a process that should run instead? *)
Definition preempt (prior i : Z) : M (kstate X) Z :=
  acquire LkPtable;;
  k ← gets (fun k => k);
  let better p :=
    (if i =? 1 then priority (getp k p) <=? prior else priority (getp k p) <? prior)
    && negb (pid (getp k p) =? 0) in
  release LkPtable;;
  mret (if existsb better (all_procs k) then 1 else 0).

(** The accounting of one clock tick. *)
Definition tick_proc (r : proc) : proc :=
  if bool_decide (state r <> RUNNING) then r <| waittime := s32 (waittime r + 1) |>
  else
    let r := r <| runtime := s32 (runtime r + 1) |> in
    if mlfq_on then
      let r := r <| curtime := s32 (curtime r + 1) |> in
      r <| qnt := zupd (qnt r) (qn r) (s32 (zget (qnt r) (qn r) + 1)) |>
    else r.

Definition change_ticks : M (kstate X) unit :=
  acquire LkPtable;;
  modify (fun k => fold_left (fun k p => modp k p tick_proc) (all_procs k) k);;
  release LkPtable.

(** ** Listings of the process table *)

(** [cprintf(fmt, ...)] in a kernel state. *)
Definition printk (fmt : string) (args : list carg) : M (kstate X) unit :=
  match cprintf_text fmt args with
  | Some text => modify (fun k => cprintf k text)
  | None => panic "undefined"
  end.

(** [yo[a->state]] of showps and [states[p->state]] of procdump. *)
Definition state_name (st : procstate) : string :=
  match st with
  | UNUSED => "UNUSED" | EMBRYO => "EMBRYO" | SLEEPING => "SLEEPING"
  | RUNNABLE => "RUNNABLE" | RUNNING => "RUNNING" | ZOMBIE => "ZOMBIE"
  end.
Definition state_abbrev (st : procstate) : string :=
  match st with
  | UNUSED => "unused" | EMBRYO => "embryo" | SLEEPING => "sleep "
  | RUNNABLE => "runble" | RUNNING => "run   " | ZOMBIE => "zombie"
  end.

Definition ps_row (r : proc) : list carg :=
  [AInt (pid r); AInt (priority r); AStr (Some (state_name (state r))); AInt (runtime r);
   AInt (waittime r); AInt (nrun r); AInt (qn r)] ++
  ((fun i => AInt (zget (qnt r) i)) <$> [0; 1; 2; 3; 4]).

Definition showps : M (kstate X) Z :=
  acquire LkPtable;;
  printk "\nPID  Priority  State  r_time  w_time  n_run  cur_q     q0     q1      q2       q3        q4\n" [];;
  ps ← gets all_procs;
  forM ps (fun p =>
    r ← gets (fun k => getp k p);
    if pid r =? 0 then mret tt
    else printk "%d\t%d\t%s  %d\t%d\t%d\t%d\t%d\t%d\t%d\t%d\t%d\n" (ps_row r));;
  release LkPtable;;
  mret 0.

(** getcallerpcs of spinlock.c: follow the chain of saved frame pointers; [peek] reads
    a word of kernel memory. *)
Fixpoint caller_pcs (n : nat) (peek : Z -> Z) (ebp : Z) : list Z :=
  match n with
  | O => []
  | S n' =>
      if (ebp =? 0) || (ebp <? KERNBASE) || (ebp =? 4294967295) then replicate n 0
      else peek (u32 (ebp + 4)) :: caller_pcs n' peek (peek ebp)
  end.
Definition getcallerpcs (peek : Z -> Z) (v : Z) : list Z := caller_pcs 10 peek (u32 (v - 8)).

(** [for(i=0; i<10 && pc[i] != 0; i++) cprintf(" %p", pc[i]);] *)
Fixpoint print_pcs (pcs : list Z) : M (kstate X) unit :=
  match pcs with
  | [] => mret tt
  | pc :: pcs => if pc =? 0 then mret tt else printk " %p" [AInt pc];; print_pcs pcs
  end.

Definition procdump (peek : Z -> Z) : M (kstate X) unit :=
  ps ← gets all_procs;
  forM ps (fun p =>
    r ← gets (fun k => getp k p);
    if bool_decide (state r = UNUSED) then mret tt
    else
      printk "%d %s %s" [AInt (pid r); AStr (Some (state_abbrev (state r)));
                         AStr (Some (cstring (name r)))];;
      (if bool_decide (state r = SLEEPING)
       then print_pcs (getcallerpcs peek (u32 (ctx_ebp (ctx r) + 8))) else mret tt);;
      printk "\n" []).
End ops.
