(* ===== verification/ProcSpec.v ===== *)
(** * Processes: what proc.c guarantees

    Lemmas and theorems about the operations of Proc.v: wakeup and sleep, fork,
    exit and wait, kill, the accounting of a tick, and the lock discipline. *)

From S2P Require Import Prelude CString ProcTable Spinlock Mlfq MlfqInv Sched Proc.

(** ** Loops over the process table *)

Section loops.
Context {X : Type}.
Implicit Types (k : kstate X) (p q : nat).

(** The state without the process table and the run queues. *)
Definition glob k : kstate X := (core k) <| procs := [] |>.

Lemma glob_modp k p f : glob (modp k p f) = glob k.
Proof. reflexivity. Qed.

Lemma glob_push a p k : glob (push a p k) = glob k.
Proof. unfold glob. by rewrite core_push. Qed.

Lemma glob_fold {A} (f : kstate X -> A -> kstate X) l k :
  (forall k x, glob (f k x) = glob k) -> glob (fold_left f l k) = glob k.
Proof.
  intros Hf. revert k. induction l as [|x l IH]; intros k; cbn; [done | by rewrite IH, Hf].
Qed.

Lemma glob_cpu k k' : glob k' = glob k -> same_cpu k k'.
Proof.
  intros E. split_and!; [apply (f_equal held E) | apply (f_equal ncli E)
    | apply (f_equal intena E) | apply (f_equal fl_if E)].
Qed.

(** A loop body that writes the entry of its own process only. *)
Record local_body (body : kstate X -> nat -> kstate X) : Prop := {
  lb_other k p q : q <> p -> getp (body k p) q = getp k q;
  lb_length k p : length (procs (body k p)) = length (procs k) }.

Lemma fold_local_other body l k q :
  local_body body -> q ∉ l -> getp (fold_left body l k) q = getp k q.
Proof.
  intros Hb. revert k. induction l as [|p l IH]; intros k Hq; cbn; [done |].
  apply not_elem_of_cons in Hq as [Hqp Hq]. rewrite IH by done. by apply Hb.
Qed.

Lemma fold_local_length body l k :
  local_body body -> length (procs (fold_left body l k)) = length (procs k).
Proof.
  intros Hb. revert k. induction l as [|p l IH]; intros k; cbn; [done |].
  rewrite IH. by apply Hb.
Qed.

(** Each process is visited once, in a state where its entry is the original. *)
Lemma fold_local_visit body l k p :
  local_body body -> NoDup l -> p ∈ l ->
  exists k', getp k' p = getp k p /\ length (procs k') = length (procs k) /\
             getp (fold_left body l k) p = getp (body k' p) p.
Proof.
  intros Hb. revert k. induction l as [|q l IH]; intros k Hnd Hp; [by apply elem_of_nil in Hp |].
  apply NoDup_cons in Hnd as [Hq Hnd]. cbn. apply elem_of_cons in Hp as [->|Hp].
  - exists k. split_and!; try done. by apply fold_local_other.
  - destruct (IH (body k q) Hnd Hp) as (k' & E1 & E2 & E3).
    exists k'. split_and!; try done.
    + rewrite E1. apply Hb. by intros ->.
    + rewrite E2. by apply Hb.
Qed.

Lemma all_procs_spec k p : p ∈ all_procs k <-> (p < length (procs k))%nat.
Proof. unfold all_procs. rewrite elem_of_seq. lia. Qed.

Lemma all_procs_NoDup k : NoDup (all_procs k).
Proof. apply NoDup_seq. Qed.

(** The loop over the whole table, seen through a projection of the entries. *)
Lemma fold_procs {A} (f : proc -> A) (g : proc -> A) body k p :
  local_body body ->
  (forall k p, (p < length (procs k))%nat -> f (getp (body k p) p) = g (getp k p)) ->
  f zero_proc = g zero_proc ->
  f (getp (fold_left body (all_procs k) k) p) = g (getp k p).
Proof.
  intros Hb Hg Hz. destruct (decide (p < length (procs k))%nat) as [Hp|Hp].
  - destruct (fold_local_visit body (all_procs k) k p Hb (all_procs_NoDup k))
      as (k' & E1 & E2 & ->); [by apply all_procs_spec |].
    rewrite Hg by lia. by rewrite E1.
  - rewrite !getp_beyond; [done | lia |]. rewrite fold_local_length by done. lia.
Qed.
End loops.

(** ** Process identifiers *)

(** No two slots share a pid, and [nextpid] is fresh. *)
Definition pids_ok {X} (k : kstate X) : Prop :=
  0 < nextpid k /\ (forall p, pid (getp k p) < nextpid k) /\
  (forall p q, pid (getp k p) = pid (getp k q) -> pid (getp k p) <> 0 -> p = q).

(** One slot gets the next pid, or loses its pid. *)
Lemma pids_ok_alloc {X} (k k' : kstate X) np :
  pids_ok k -> nextpid k' = nextpid k + 1 -> pid (getp k' np) = nextpid k ->
  (forall q, q <> np -> pid (getp k' q) = pid (getp k q)) -> pids_ok k'.
Proof.
  intros (H0 & H1 & H2) Hn Hp Ho. split; [lia |]. split.
  - intros p. destruct (decide (p = np)) as [->|Hne]; [lia |].
    rewrite (Ho p Hne). specialize (H1 p). lia.
  - intros p q. pose proof (H1 p). pose proof (H1 q).
    destruct (decide (p = np)) as [->|Hp'], (decide (q = np)) as [->|Hq'];
      rewrite ?Hp, ?Ho by done; [done | lia | lia | apply H2].
Qed.

Lemma pids_ok_free {X} (k k' : kstate X) z :
  pids_ok k -> nextpid k' = nextpid k -> pid (getp k' z) = 0 ->
  (forall q, q <> z -> pid (getp k' q) = pid (getp k q)) -> pids_ok k'.
Proof.
  intros (H0 & H1 & H2) Hn Hp Ho. split; [lia |]. split.
  - intros p. destruct (decide (p = z)) as [->|Hne]; [lia |].
    rewrite (Ho p Hne), Hn. apply H1.
  - intros p q. destruct (decide (p = z)) as [->|Hp'], (decide (q = z)) as [->|Hq'];
      rewrite ?Hp, ?Ho by done; [done | done | congruence | apply H2].
Qed.

(** ** wakeup *)

Section wakeup.
Context {X : Type} (pol : policy).
Implicit Types (k : kstate X) (p q : nat).

(** The entry of a process after a wakeup of channel [c]. *)
Definition woken (c : option channel) (r : proc) : proc :=
  if bool_decide (state r = SLEEPING) && bool_decide (chan r = c)
  then r <| state := RUNNABLE |> else r.

Lemma wake_one_local c : local_body (wake_one (X:=X) pol c).
Proof.
  constructor; intros k p; unfold wake_one.
  - intros q Hne. repeat case_test; try done; rewrite ?getp_push_ne; try done;
      unfold set_state; by rewrite ?getp_modp_ne.
  - repeat case_test; try done;
      [rewrite (core_length _ _ (core_push _ _ _)) |]; unfold set_state;
      by rewrite ?length_procs_modp.
Qed.

Lemma wake_one_self c k p :
  (p < length (procs k))%nat ->
  strip (getp (wake_one pol c k p) p) = strip (woken c (getp k p)) /\
  (mlfq_on pol = false -> getp (wake_one pol c k p) p = woken c (getp k p)).
Proof.
  intros Hp. unfold wake_one, woken, is_state.
  destruct (_ && _); [| done]. unfold set_state.
  destruct (mlfq_on pol) eqn:Em; [| by rewrite getp_modp_eq].
  split; [| done]. cbn zeta. set (k1 := modp k p _).
  rewrite (proj1 (getp_push _ _ _ _)), getp_modp_eq by (unfold k1; by rewrite length_procs_modp).
  unfold k1. by rewrite getp_modp_eq.
Qed.

Lemma wakeup1_getp c k p :
  strip (getp (wakeup1 pol c k) p) = strip (woken c (getp k p)).
Proof.
  apply (fold_procs strip (fun r => strip (woken c r))); [apply wake_one_local | | done].
  intros k' q Hq. by apply wake_one_self.
Qed.

Lemma wakeup1_state c k p :
  state (getp (wakeup1 pol c k) p) = state (woken c (getp k p)).
Proof. apply state_strip, wakeup1_getp. Qed.

Lemma glob_wakeup1 c k : glob (wakeup1 pol c k) = glob k.
Proof.
  apply glob_fold. intros k' p. unfold wake_one, set_state.
  repeat case_test; rewrite ?glob_push, ?glob_modp; done.
Qed.

Lemma length_wakeup1 c k : length (procs (wakeup1 pol c k)) = length (procs k).
Proof. apply fold_local_length, wake_one_local. Qed.

(** The run queues under the MLFQ build: a sleeping process is in no queue, so it is
    queued once when it is woken. *)
Definition qn_range k : Prop := forall p, 0 <= qn (getp k p) < 5.

Lemma sleeping_unqueued k p :
  queues_own k -> state (getp k p) <> RUNNABLE -> ~ queued k p.
Proof.
  intros (_ & _ & H) Hst (i & Hi & Hp). by destruct (H i p Hi Hp).
Qed.

Lemma wake_one_own c k p :
  (p < length (procs k))%nat -> queues_own k -> qn_range k ->
  queues_own (wake_one pol c k p) /\ qn_range (wake_one pol c k p).
Proof.
  intros Hp Hown Hqn. unfold wake_one. destruct (is_state k p SLEEPING && _) eqn:E; [| done].
  apply andb_true_iff in E as [Hst%is_state_spec _].
  assert (Hnq : ~ queued k p) by (apply sleeping_unqueued; [done | congruence]).
  assert (H1 : queues_own (set_state RUNNABLE p k)) by (by apply modp_own).
  assert (Hq1 : forall f, (forall r, qn (f r) = qn r) -> forall k, qn_range k -> qn_range (modp k p f)).
  { intros f Hf k' Hk' q. destruct (decide (p = q)) as [<-|Hne]; [| by rewrite getp_modp_ne].
    destruct (decide (p < length (procs k'))%nat).
    - rewrite getp_modp_eq, Hf by done. apply Hk'.
    - rewrite getp_beyond by (rewrite length_procs_modp; lia). done. }
  assert (Hq2 : qn_range (set_state RUNNABLE p k)) by (by apply Hq1).
  destruct (mlfq_on pol); [| done]. cbn zeta.
  set (k1 := modp (set_state RUNNABLE p k) p _).
  assert (Hq3 : qn_range k1) by (by apply Hq1).
  assert (Hg : getp k1 p = (getp k p) <| state := RUNNABLE |> <| curtime := 0 |>).
  { unfold k1, set_state. by rewrite !getp_modp_eq by (rewrite ?length_procs_modp; done). }
  split.
  - apply push_own; rewrite ?Hg; try done.
    + apply modp_own; [done | by intros ?%Hnq].
    + exact (Hqn p).
    + unfold k1, set_state. by rewrite !length_procs_modp.
  - intros q. rewrite (proj2 (getp_push _ _ _ _)). apply Hq3.
Qed.

Lemma wakeup1_own c k :
  queues_own k -> qn_range k -> queues_own (wakeup1 pol c k) /\ qn_range (wakeup1 pol c k).
Proof.
  intros Hown Hqn. unfold wakeup1.
  assert (H : forall l k, (forall p, p ∈ l -> (p < length (procs k))%nat) -> queues_own k -> qn_range k ->
     queues_own (fold_left (wake_one pol c) l k) /\ qn_range (fold_left (wake_one pol c) l k)).
  { clear. induction l as [|p l IH]; intros k Hl Hown Hqn; cbn; [done |].
    destruct (wake_one_own c k p) as [H1 H2]; [apply Hl; by left | done.. |].
    apply IH; try done. intros q Hq. rewrite (lb_length _ (wake_one_local c)).
    apply Hl. by right. }
  apply H; try done. intros p. apply all_procs_spec.
Qed.
End wakeup.

(** ** exit *)

Section exit.
Context {X : Type} (pol : policy).
Implicit Types (k : kstate X) (p q : nat).

Definition kid (cur : nat) (r : proc) : bool := bool_decide (parent r = Some cur).
Definition zombie_kid (cur : nat) (r : proc) : bool :=
  kid cur r && bool_decide (state r = ZOMBIE).

(** The entry of a process after part of the loop: [a] if it was visited, [w] if a
    zombie child of [cur] was met and [c], the channel of init, woken. *)
Definition adopt (cur : nat) (init : option nat) (a w : bool) (r : proc) : proc :=
  let r := if a && kid cur r then r <| parent := init |> else r in
  if w then woken (ChProc <$> init) r else r.

(** Case analysis on the tests of an entry written out field by field. *)
Ltac entry_cases :=
  unfold adopt, woken, kid, strip; cbn;
  repeat (match goal with |- context [bool_decide ?P] => destruct (bool_decide_reflect P) end;
          cbn in *; subst; try done); try done.

Lemma adopt_strip cur init a w r : strip (adopt cur init a w r) = adopt cur init a w (strip r).
Proof. destruct r, a, w; entry_cases. Qed.

Lemma woken_woken c r : woken c (woken c r) = woken c r.
Proof.
  unfold woken. destruct (bool_decide (state r = SLEEPING) && _) eqn:E; [done | by rewrite E].
Qed.

Lemma woken_adopt c cur init a r :
  woken c (adopt cur init a false r) = adopt cur init a false (woken c r).
Proof.
  unfold adopt, kid, woken. destruct a; [| done]. cbn [andb].
  destruct (bool_decide (parent r = Some cur)) eqn:E, (bool_decide (state r = SLEEPING)) eqn:E1,
    (bool_decide (chan r = c)) eqn:E2; cbn; rewrite ?E1, ?E2; cbn; by rewrite ?E.
Qed.

Lemma adopt_split cur init a w r :
  adopt cur init a w r =
  (if w then woken (ChProc <$> init) else id) (adopt cur init a false r).
Proof. by destruct w. Qed.

Lemma adopt_adopt cur init a1 w1 a2 w2 r :
  init <> Some cur ->
  adopt cur init a2 w2 (adopt cur init a1 w1 r) = adopt cur init (a1 || a2) (w1 || w2) r.
Proof.
  intros Hi.
  assert (H0 : adopt cur init a2 false (adopt cur init a1 false r) = adopt cur init (a1 || a2) false r).
  { unfold adopt, kid. destruct a1, a2; cbn; try done.
    destruct (bool_decide_reflect (parent r = Some cur)); cbn; by rewrite bool_decide_eq_false_2. }
  rewrite (adopt_split _ _ _ w2), (adopt_split _ _ a1 w1), (adopt_split _ _ _ (w1 || w2)), <- H0.
  destruct w1, w2; cbn [orb]; unfold id; rewrite ?woken_adopt, ?woken_woken; done.
Qed.

Lemma zombie_kid_strip cur r : zombie_kid cur (strip r) = zombie_kid cur r.
Proof. done. Qed.

Lemma zombie_kid_adopt cur init w r : zombie_kid cur (adopt cur init false w r) = zombie_kid cur r.
Proof.
  destruct w; [| done]. unfold zombie_kid, adopt, woken, kid. cbn [andb].
  destruct (bool_decide_reflect (state r = SLEEPING)) as [E|]; [| done].
  destruct (bool_decide (chan r = _)); [| done]. cbn. by rewrite E.
Qed.

Lemma glob_reparent_one cur k p : glob (reparent_one pol cur k p) = glob k.
Proof. unfold reparent_one. repeat case_test; rewrite ?glob_wakeup1, ?glob_modp; done. Qed.

Lemma initproc_glob k k' : glob k' = glob k -> initproc k' = initproc k.
Proof. intros E. exact (f_equal initproc E). Qed.

Lemma reparent_one_getp cur k p q :
  (p < length (procs k))%nat ->
  strip (getp (reparent_one pol cur k p) q) =
  strip (adopt cur (initproc k) (bool_decide (q = p)) (zombie_kid cur (getp k p)) (getp k q)).
Proof.
  intros Hp. unfold reparent_one, zombie_kid, adopt.
  change (bool_decide (parent (getp k p) = Some cur)) with (kid cur (getp k p)).
  destruct (kid cur (getp k p)) eqn:Ek; cbn [andb]; cycle 1.
  { destruct (bool_decide_reflect (q = p)) as [->|]; cbn [andb]; [by rewrite Ek | done]. }
  cbn zeta. set (k1 := modp k p _).
  assert (Hg : getp k1 q = if bool_decide (q = p) && kid cur (getp k q)
                           then (getp k q) <| parent := initproc k |> else getp k q).
  { unfold k1. destruct (bool_decide_reflect (q = p)) as [->|Hne]; cbn [andb].
    - by rewrite getp_modp_eq, Ek.
    - by rewrite getp_modp_ne. }
  assert (Hst : state (getp k1 p) = state (getp k p)) by (unfold k1; by rewrite getp_modp_eq).
  unfold is_state. rewrite Hst. change (initproc k1) with (initproc k).
  destruct (bool_decide (state (getp k p) = ZOMBIE)); rewrite ?wakeup1_getp, Hg; done.
Qed.

Lemma length_reparent_one cur k p :
  length (procs (reparent_one pol cur k p)) = length (procs k).
Proof.
  unfold reparent_one. repeat case_test; rewrite ?length_wakeup1, ?length_procs_modp; done.
Qed.

Lemma reparent_loop_getp cur l k q :
  initproc k <> Some cur -> NoDup l -> (forall p, p ∈ l -> (p < length (procs k))%nat) ->
  strip (getp (fold_left (reparent_one pol cur) l k) q) =
  strip (adopt cur (initproc k) (bool_decide (q ∈ l))
           (existsb (fun p => zombie_kid cur (getp k p)) l) (getp k q)).
Proof.
  intros Hi. revert k Hi. induction l as [|p l IH]; intros k Hi Hnd Hl; cbn [fold_left existsb].
  { by rewrite bool_decide_eq_false_2 by (by intros ?%elem_of_nil). }
  apply NoDup_cons in Hnd as [Hpl Hnd].
  pose proof (initproc_glob _ _ (glob_reparent_one cur k p)) as Hinit.
  assert (Hp : (p < length (procs k))%nat) by (apply Hl; by left).
  rewrite IH; rewrite ?Hinit; try done; cycle 1.
  { intros p' Hp'. rewrite length_reparent_one. apply Hl. by right. }
  assert (Hz : existsb (fun p' => zombie_kid cur (getp (reparent_one pol cur k p) p')) l
               = existsb (fun p' => zombie_kid cur (getp k p')) l).
  { clear IH Hnd Hl. induction l as [|p' l IHl]; cbn; [done |].
    apply not_elem_of_cons in Hpl as [Hne Hpl]. rewrite IHl by done. f_equal.
    rewrite <- zombie_kid_strip, reparent_one_getp, zombie_kid_strip by done.
    rewrite (bool_decide_eq_false_2 (p' = p)) by congruence. apply zombie_kid_adopt. }
  rewrite Hz, !adopt_strip, reparent_one_getp, adopt_strip, adopt_adopt by done. f_equal.
  destruct (bool_decide_reflect (q = p)) as [->|Hne]; cbn [orb].
  - by rewrite bool_decide_eq_true_2 by (by left).
  - apply bool_decide_ext. rewrite elem_of_cons. split; [by right | by intros [?|?]].
Qed.

Lemma reparent_getp cur k q :
  initproc k <> Some cur ->
  strip (getp (reparent pol cur k) q) =
  strip (adopt cur (initproc k) true
           (existsb (fun p => zombie_kid cur (getp k p)) (all_procs k)) (getp k q)).
Proof.
  intros Hi. unfold reparent.
  rewrite reparent_loop_getp; [| done | apply all_procs_NoDup | intros p; apply all_procs_spec].
  destruct (bool_decide_reflect (q ∈ all_procs k)) as [|Hq]; [done |].
  rewrite all_procs_spec in Hq. rewrite getp_beyond by lia.
  by destruct (existsb _ _).
Qed.

Lemma glob_reparent cur k : glob (reparent pol cur k) = glob k.
Proof. apply glob_fold. intros k' p. apply glob_reparent_one. Qed.

Lemma length_reparent cur k : length (procs (reparent pol cur k)) = length (procs k).
Proof.
  unfold reparent. generalize (all_procs k) as l. intros l. revert k.
  induction l as [|p l IH]; intros k; cbn; [done |]. by rewrite IH, length_reparent_one.
Qed.

Lemma zombie_kid_wakeup cur c k p :
  zombie_kid cur (getp (wakeup1 pol c k) p) = zombie_kid cur (getp k p).
Proof.
  rewrite <- zombie_kid_strip, wakeup1_getp, zombie_kid_strip.
  unfold zombie_kid, kid, woken.
  destruct (bool_decide_reflect (state (getp k p) = SLEEPING)) as [E|]; [| done].
  destruct (bool_decide (chan (getp k p) = c)); [| done]. cbn. by rewrite E.
Qed.

(** The table after exit's critical section, up to the scheduling data. *)
Lemma exit_locked_getp cur k q :
  initproc k <> Some cur -> (cur < length (procs k))%nat ->
  strip (getp (exit_locked pol cur k) q) =
  let r := adopt cur (initproc k) true
             (existsb (fun p => zombie_kid cur (getp k p)) (all_procs k))
             (woken (ChProc <$> parent (getp k cur)) (getp k q)) in
  strip (if bool_decide (q = cur)
         then r <| etime := s32 (ticks k) |> <| state := ZOMBIE |> else r).
Proof.
  intros Hi Hc. unfold exit_locked. set (c := ChProc <$> parent (getp k cur)).
  cbn zeta. set (k1 := wakeup1 pol c k). set (k2 := reparent pol cur k1).
  assert (Eg : glob k2 = glob k) by (unfold k2; rewrite glob_reparent; apply glob_wakeup1).
  assert (Et : ticks k2 = ticks k) by exact (f_equal ticks Eg).
  assert (Ei : initproc k1 = initproc k) by (exact (f_equal initproc (glob_wakeup1 pol c k))).
  assert (Ez : existsb (fun p => zombie_kid cur (getp k1 p)) (all_procs k1)
             = existsb (fun p => zombie_kid cur (getp k p)) (all_procs k)).
  { unfold all_procs, k1. rewrite length_wakeup1. induction (seq _ _) as [|p l IH]; cbn; [done |].
    by rewrite IH, zombie_kid_wakeup. }
  assert (E2 : strip (getp k2 q) = strip (adopt cur (initproc k) true
    (existsb (fun p => zombie_kid cur (getp k p)) (all_procs k)) (woken c (getp k q)))).
  { unfold k2. rewrite reparent_getp, Ez, Ei, !adopt_strip by congruence.
    unfold k1. by rewrite wakeup1_getp. }
  rewrite Et. destruct (bool_decide_reflect (q = cur)) as [->|Hne].
  - rewrite getp_modp_eq; cycle 1.
    { unfold k2, k1. by rewrite length_reparent, length_wakeup1. }
    apply (f_equal (fun r => r <| etime := s32 (ticks k) |> <| state := ZOMBIE |>)) in E2.
    exact E2.
  - by rewrite getp_modp_ne.
Qed.

Lemma glob_exit_locked cur k : glob (exit_locked pol cur k) = glob k.
Proof. unfold exit_locked. cbn zeta. by rewrite glob_modp, glob_reparent, glob_wakeup1. Qed.

Lemma length_exit_locked cur k : length (procs (exit_locked pol cur k)) = length (procs k).
Proof.
  unfold exit_locked. cbn zeta. by rewrite length_procs_modp, length_reparent, length_wakeup1.
Qed.

Lemma woken_parent c r : parent (woken c r) = parent r.
Proof. unfold woken. by case_test. Qed.
Lemma woken_state c r :
  state (woken c r) = if bool_decide (state r = SLEEPING) && bool_decide (chan r = c)
                      then RUNNABLE else state r.
Proof. unfold woken. by case_test. Qed.

Lemma woken_hit c r : state r = SLEEPING -> chan r = c -> state (woken c r) = RUNNABLE.
Proof. intros H1 H2. unfold woken. by rewrite !bool_decide_eq_true_2. Qed.
Lemma woken_cases c r :
  woken c r = r \/ (state r = SLEEPING /\ chan r = c /\ state (woken c r) = RUNNABLE).
Proof.
  unfold woken. destruct (bool_decide_reflect (state r = SLEEPING)); [| by left].
  destruct (bool_decide_reflect (chan r = c)); [by right | by left].
Qed.

Lemma adopt_parent cur init w r :
  parent (adopt cur init true w r) = if bool_decide (parent r = Some cur) then init else parent r.
Proof.
  unfold adopt, kid. cbn [andb].
  destruct w; rewrite ?woken_parent; by destruct (bool_decide (parent r = Some cur)).
Qed.

Lemma adopt_state cur init a w r :
  state (adopt cur init a w r) = if w then state (woken (ChProc <$> init) r) else state r.
Proof. unfold adopt. destruct w; rewrite ?woken_state; by destruct (a && kid cur r). Qed.

Lemma exit_locked_parent cur k q :
  initproc k <> Some cur -> (cur < length (procs k))%nat ->
  parent (getp (exit_locked pol cur k) q) =
  if bool_decide (parent (getp k q) = Some cur) then initproc k else parent (getp k q).
Proof.
  intros Hi Hc. pose proof (f_equal parent (exit_locked_getp cur k q Hi Hc)) as E. cbn in E.
  rewrite E, <- (woken_parent (ChProc <$> parent (getp k cur)) (getp k q)).
  destruct (bool_decide (q = cur)); apply adopt_parent.
Qed.

Lemma exit_locked_state cur k q :
  initproc k <> Some cur -> (cur < length (procs k))%nat ->
  state (getp (exit_locked pol cur k) q) =
  if bool_decide (q = cur) then ZOMBIE
  else let r := woken (ChProc <$> parent (getp k cur)) (getp k q) in
       if existsb (fun p => zombie_kid cur (getp k p)) (all_procs k)
       then state (woken (ChProc <$> initproc k) r) else state r.
Proof.
  intros Hi Hc. pose proof (f_equal state (exit_locked_getp cur k q Hi Hc)) as E. cbn in E.
  rewrite E. destruct (bool_decide (q = cur)); [done |]. apply adopt_state.
Qed.
End exit.

(** C29: what exit() guarantees under ptable.lock.  The process becomes a ZOMBIE
    that records the current tick; every child of it is handed to init and no other
    parent link changes; a parent sleeping in wait() becomes RUNNABLE, and so does
    init when it inherits a zombie; no other process changes its state. *)
Theorem exit_hands_over {X} (pol : policy) (k : kstate X) (cur : nat) :
  initproc k <> Some cur -> (cur < length (procs k))%nat ->
  let k' := exit_locked pol cur k in
  state (getp k' cur) = ZOMBIE /\ etime (getp k' cur) = s32 (ticks k) /\
  (forall q, parent (getp k' q) =
     if bool_decide (parent (getp k q) = Some cur) then initproc k else parent (getp k q)) /\
  (forall q, parent (getp k cur) = Some q \/
             (initproc k = Some q /\ exists z, (z < length (procs k))%nat /\
                state (getp k z) = ZOMBIE /\ parent (getp k z) = Some cur) ->
     q <> cur -> state (getp k q) = SLEEPING -> chan (getp k q) = Some (ChProc q) ->
     state (getp k' q) = RUNNABLE) /\
  (forall q, q <> cur -> state (getp k' q) <> state (getp k q) ->
     state (getp k q) = SLEEPING /\ state (getp k' q) = RUNNABLE /\
     (chan (getp k q) = ChProc <$> parent (getp k cur) \/
      chan (getp k q) = ChProc <$> initproc k)).
Proof.
  intros Hi Hc k'. pose proof (fun q => exit_locked_state pol cur k q Hi Hc) as Hst.
  fold k' in Hst. split_and!.
  - by rewrite Hst, bool_decide_eq_true_2.
  - pose proof (f_equal etime (exit_locked_getp pol cur k cur Hi Hc)) as E.
    cbn in E. by rewrite bool_decide_eq_true_2 in E.
  - intros q. by apply exit_locked_parent.
  - intros q Hq Hne Hs Hch. rewrite Hst, bool_decide_eq_false_2 by done. cbn zeta.
    destruct Hq as [Hp|[Hq (z & Hz & Hzs & Hzp)]].
    + assert (Hr : state (woken (ChProc <$> parent (getp k cur)) (getp k q)) = RUNNABLE).
      { apply woken_hit; [done | by rewrite Hp]. }
      destruct (existsb _ _); [| done].
      by destruct (woken_cases (ChProc <$> initproc k)
        (woken (ChProc <$> parent (getp k cur)) (getp k q))) as [->|(_ & _ & ?)].
    + assert (Hex : existsb (fun p => zombie_kid cur (getp k p)) (all_procs k) = true).
      { apply existsb_elem_of. exists z. rewrite all_procs_spec. split; [done |].
        apply andb_true_intro; split; by apply bool_decide_eq_true_2. }
      rewrite Hex.
      destruct (woken_cases (ChProc <$> parent (getp k cur)) (getp k q)) as [->|(_ & _ & Hr)].
      * apply woken_hit; [done | by rewrite Hq].
      * by destruct (woken_cases (ChProc <$> initproc k)
          (woken (ChProc <$> parent (getp k cur)) (getp k q))) as [->|(_ & _ & ?)].
  - intros q Hne. rewrite Hst, bool_decide_eq_false_2 by done. cbn zeta.
    set (r := woken _ (getp k q)). intros Hch.
    assert (Hr : r = getp k q \/ (state (getp k q) = SLEEPING /\
      chan (getp k q) = ChProc <$> parent (getp k cur) /\ state r = RUNNABLE)) by apply woken_cases.
    destruct (existsb _ _); [| destruct Hr as [Hr|(? & ? & ?)]; [congruence | auto]].
    destruct (woken_cases (ChProc <$> initproc k) r) as [E|(E1 & E2 & E3)].
    + rewrite E in *. destruct Hr as [Hr|(? & ? & ?)]; [congruence | auto].
    + destruct Hr as [Hr|(? & ? & ?)]; [rewrite Hr in *; auto | congruence].
Qed.

(** A family: init (0) and process 1 sleep in wait(); 2, a child of 1, runs; 3, a
    child of 2, is a zombie. *)
Definition family {X} (x : X) : kstate X :=
  let mk st id par ch := fun r : proc =>
    r <| state := st |> <| pid := id |> <| parent := par |> <| chan := ch |>
      <| kstack := 2147487744 |> <| pgdir := 2147491840 |> <| priority := 60 |> in
  let k := boot_state None x in
  let k := modp k 0 (mk SLEEPING 1 None (Some (ChProc 0))) in
  let k := modp k 1 (mk SLEEPING 2 (Some 0%nat) (Some (ChProc 1))) in
  let k := modp k 2 (mk RUNNING 3 (Some 1%nat) None) in
  let k := modp k 3 (mk ZOMBIE 4 (Some 2%nat) None) in
  k <| initproc := Some 0%nat |> <| nextpid := 5 |> <| ticks := 70 |> <| cpu_proc := Some 2%nat |>.

Lemma exit_hands_over_witness :
  let k := family tt in
  let k' := exit_locked MLFQ 2 k in
  state (getp k' 2) = ZOMBIE /\ state (getp k' 1) = RUNNABLE /\ state (getp k' 0) = RUNNABLE /\
  parent (getp k' 3) = Some 0%nat.
Proof.
  cbn zeta.
  destruct (exit_hands_over MLFQ (family tt) 2) as (H1 & _ & H2 & H3 & _);
    [discriminate | vm_compute; lia |].
  split; [exact H1 |]. split; [| split].
  - apply H3; [left; reflexivity | lia | reflexivity | reflexivity].
  - apply H3; [| lia | reflexivity | reflexivity]. right. split; [reflexivity |].
    exists 3%nat. split; [vm_compute; lia |]. split; reflexivity.
  - rewrite H2. reflexivity.
Defined.

(** ** wait *)

(** What proc.c assumes of the services it calls while it manipulates the table:
    they leave everything but the other components alone ([intena] is only
    meaningful inside a critical section). *)
Definition only_rest {X} (k k' : kstate X) : Prop :=
  exists x i, k' = k <| rest := x |> <| intena := i |> /\ (0 < ncli k -> i = intena k).

Class ServicesFrame (X : Type) `{Services X} : Prop := {
  kalloc_frame k a k' : kalloc k = Ok a k' -> only_rest k k';
  kfree_frame a k k' : kfree a k = Ok tt k' -> only_rest k k';
  copyuvm_frame pg n k a k' : copyuvm pg n k = Ok a k' -> only_rest k k';
  freevm_frame pg k k' : freevm pg k = Ok tt k' -> only_rest k k';
  filedup_frame f k a k' : filedup f k = Ok a k' -> only_rest k k';
  idup_frame d k a k' : idup d k = Ok a k' -> only_rest k k' }.

Section wait.
Context {X : Type} (pol : policy) `{ServicesFrame X}.
Implicit Types (k : kstate X) (p q : nat).

Lemma only_rest_procs k k' : only_rest k k' -> procs k' = procs k.
Proof. by intros (x & i & -> & _). Qed.

Lemma only_rest_locked k k' : only_rest k k' -> locked k -> locked k'.
Proof. by intros (x & i & -> & _) (H1 & H2 & H3). Qed.

Definition freed (z : nat) k : Prop :=
  returns (kfree (kstack (getp k z)) k) /\
  forall k1, kfree (kstack (getp k z)) k = Ok tt k1 ->
    returns (freevm (pgdir (getp k z)) (modp k1 z (fun r => r <| kstack := 0 |>))).

(** The entry of a reaped process. *)
Definition reaped (r : proc) : proc :=
  r <| kstack := 0 |> <| pid := 0 |> <| parent := None |>
    <| name := <[0%nat := 0]> (name r) |> <| killed := 0 |> <| state := UNUSED |>.

Lemma reap_bury z k :
  locked k -> (z < length (procs k))%nat -> freed z k ->
  exists k', (reap z;; bury z) k = Ok tt k' /\ locked k' /\
    procs k' = alter reaped z (procs k) /\ nextpid k' = nextpid k.
Proof.
  intros Hl Hz [([] & k1 & E1) Hfree]. destruct (Hfree k1 E1) as ([] & k3 & E3).
  pose proof (kfree_frame _ _ _ E1) as F1. pose proof (freevm_frame _ _ _ E3) as F3.
  eexists. split.
  - unfold reap, bury, upd_proc, gets, modify, mbind, M_bind. rewrite E1, E3. reflexivity.
  - split; [| split].
    + apply (only_rest_locked k k1 F1) in Hl. by apply (only_rest_locked _ k3 F3).
    + unfold modp. cbn [procs upd]. rewrite (only_rest_procs _ _ F3). cbn [procs upd modp].
      rewrite (only_rest_procs _ _ F1), !list_alter_alter. done.
    + destruct F3 as (x3 & i3 & -> & _), F1 as (x1 & i1 & -> & _). done.
Qed.

Lemma find_zombie_spec cur k :
  match find_zombie cur k with
  | Some z => (z < length (procs k))%nat /\ parent (getp k z) = Some cur /\
              state (getp k z) = ZOMBIE
  | None => forall z, (z < length (procs k))%nat -> parent (getp k z) = Some cur ->
              state (getp k z) <> ZOMBIE
  end.
Proof.
  unfold find_zombie. destruct (List.find _ _) as [z|] eqn:E.
  - apply List.find_some in E as [Hin Hz]. apply list_elem_of_In, all_procs_spec in Hin.
    unfold has_child in Hz. bool_to_prop. apply is_state_spec in H2. done.
  - intros z Hz Hp Hst.
    pose proof (List.find_none _ _ E z (proj1 (list_elem_of_In _ _) (proj2 (all_procs_spec k z) Hz))) as Hn.
    cbn in Hn. unfold has_child in Hn. rewrite bool_decide_eq_true_2 in Hn by done. cbn in Hn.
    apply is_state_spec in Hst. congruence.
Qed.

(** The children of [cur], and the first of them that is a zombie. *)
Definition child_of k (cur c : nat) : Prop := (c < length (procs k))%nat /\ parent (getp k c) = Some cur.
Definition first_zombie k (cur z : nat) : Prop :=
  child_of k cur z /\ state (getp k z) = ZOMBIE /\
  forall c, child_of k cur c -> (c < z)%nat -> state (getp k c) <> ZOMBIE.

Lemma find_zombie_first cur k z : find_zombie cur k = Some z <-> first_zombie k cur z.
Proof.
  assert (Hone : forall c, child_of k cur c -> has_child cur k c && is_state k c ZOMBIE = false -> state (getp k c) <> ZOMBIE).
  { intros c [_ Hp] Hb Hst%is_state_spec. unfold has_child in Hb. rewrite bool_decide_eq_true_2 in Hb by done. cbn in Hb. congruence. }
  assert (Hfst : forall z, find_zombie cur k = Some z -> first_zombie k cur z).
  { intros y E. pose proof (find_zombie_spec cur k) as Hs. rewrite E in Hs. destruct Hs as (H1 & H2 & H3). split; [done |]. split; [done |].
    intros c Hc Hlt. apply Hone; [done |]. apply (find_seq_before _ _ 0 y c E); [lia | done]. }
  split; [apply Hfst |]. intros (Hc & Hst & Hmin). pose proof (find_zombie_spec cur k) as Hs.
  destruct (find_zombie cur k) as [y|] eqn:E; [| by destruct Hc as [? ?]; destruct (Hs z)].
  destruct (Hfst y eq_refl) as (Hy & Hys & Hymin). f_equal.
  destruct (lt_eq_lt_dec y z) as [ [Hlt| ->] |Hlt]; [by destruct (Hmin y Hy Hlt) | done | by destruct (Hymin z Hc Hlt)].
Qed.

Lemma havekids_spec cur k :
  havekids cur k = true <-> exists c, (c < length (procs k))%nat /\ parent (getp k c) = Some cur.
Proof.
  unfold havekids. rewrite existsb_elem_of. unfold has_child.
  split; intros (c & H1 & H2); exists c; rewrite all_procs_spec in *;
    rewrite bool_decide_eq_true in *; done.
Qed.
End wait.

(** The tests of sched() pass for a process that has left the RUNNING state and
    holds ptable.lock only. *)
Lemma sched_checks_ok {X} (k : kstate X) (cur : nat) :
  locked k -> cpu_proc k = Some cur -> state (getp k cur) <> RUNNING ->
  sched_checks k = Ok tt k.
Proof.
  intros (H1 & H2 & H3) Hc Hst. unfold sched_checks, holding. rewrite Hc, H1, H2, H3.
  rewrite bool_decide_eq_true_2 by (by left). cbn.
  destruct (is_state k cur RUNNING) eqn:E; [by apply is_state_spec in E | done].
Qed.

Lemma sleep_enter_ptable {X} (c : option channel) (k : kstate X) (cur : nat) :
  locked k -> cpu_proc k = Some cur -> (cur < length (procs k))%nat ->
  (sleep_enter c (Some LkPtable);; sched_checks) k
  = Ok tt (modp k cur (fun r => r <| chan := c |> <| state := SLEEPING |>)).
Proof.
  intros Hl Hc Hlt. unfold sleep_enter, upd_proc, gets, modify, mbind, M_bind. rewrite Hc.
  rewrite bool_decide_eq_false_2 by (intros Hne; by apply Hne). cbn [mret M_ret].
  apply (sched_checks_ok _ cur); [done | done |]. by rewrite getp_modp_eq.
Qed.

(** The state inside a critical section of ptable.lock entered from [k]. *)
Definition in_cs {X} (k : kstate X) : kstate X :=
  k <| held := [LkPtable] |> <| ncli := 1 |> <| intena := fl_if k |> <| fl_if := false |>.

(** wait(), by what the scan finds. *)
Lemma wait_cases {X} `{ServicesFrame X} (cur : nat)
    (aways : list (kstate X -> kstate X)) (k : kstate X) :
  idle k -> cpu_proc k = Some cur -> (cur < length (procs k))%nat ->
  (forall z, find_zombie cur k = Some z -> freed z (in_cs k)) ->
  match find_zombie cur k with
  | Some z => exists k', wait aways k = Ok (Some (pid (getp k z))) k' /\ idle k' /\
      procs k' = alter reaped z (procs k) /\ (pids_ok k -> pids_ok k')
  | None =>
      if negb (havekids cur k) || negb (killed (getp k cur) =? 0) then
        exists k', wait aways k = Ok (Some (-1)) k' /\ idle k' /\ procs k' = procs k
      else
        wait [] k = Ok None (in_cs k) /\
        exists ks, (sleep_enter (Some (ChProc cur)) (Some LkPtable);; sched_checks) (in_cs k)
                   = Ok tt ks /\ locked ks /\
          procs ks = alter (fun r => r <| chan := Some (ChProc cur) |> <| state := SLEEPING |>)
                           cur (procs k)
  end.
Proof.
  intros Hi Hc Hlt Hfree.
  assert (Hw : forall aw, wait aw k = wait_loop cur aw (in_cs k)).
  { intros aw. unfold wait, myproc, mbind, M_bind. rewrite Hc, acquire_idle by done. done. }
  assert (Hl : locked (in_cs k)) by done.
  assert (Hscan : wait_scan cur (in_cs k) =
    match find_zombie cur k with
    | Some z => (reap z;; bury z;; release LkPtable;; mret (Some (pid (getp k z)))) (in_cs k)
    | None => (if negb (havekids cur k) || negb (killed (getp k cur) =? 0)
               then release LkPtable;; mret (Some (-1)) else mret None) (in_cs k)
    end) by (unfold wait_scan, gets, mbind at 1, M_bind at 1; by destruct (find_zombie _ _)).
  pose proof (find_zombie_spec cur k) as Hz.
  destruct (find_zombie cur k) as [z|]; [| destruct (_ || _)].
  - destruct Hz as (Hzl & _). destruct (reap_bury z (in_cs k)) as (k1 & E1 & Hl1 & Hp1 & Hn1); auto.
    exists (k1 <| held := [] |> <| ncli := 0 |> <| fl_if := intena k1 |>).
    split; [| split; [done |]; split; [done |]]; cycle 1.
    { intros Hpids. apply (pids_ok_free k _ z); [done | exact Hn1 | |].
      - by rewrite (getp_alter k _ z reaped).
      - intros q Hq. by rewrite (getp_alter_ne k _ z q reaped). }
    rewrite Hw.
    assert (Es : wait_scan cur (in_cs k) = Ok (Some (pid (getp k z)))
      (k1 <| held := [] |> <| ncli := 0 |> <| fl_if := intena k1 |>)); cycle 1.
    { destruct aways; cbn [wait_loop]; unfold mbind, M_bind; by rewrite Es. }
    rewrite Hscan. unfold mbind, M_bind in *. destruct (reap z (in_cs k)) as [[] k0|]; [| done].
    rewrite E1, release_locked by done. done.
  - exists ((in_cs k) <| held := [] |> <| ncli := 0 |> <| fl_if := intena (in_cs k) |>).
    split; [| by split]. rewrite Hw. destruct aways; cbn [wait_loop]; unfold mbind, M_bind in *;
      rewrite Hscan, release_locked by done; done.
  - split; [rewrite Hw; cbn [wait_loop]; unfold mbind, M_bind in *; by rewrite Hscan |].
    eexists. split; [by apply sleep_enter_ptable | by split_and!].
Qed.

(** C30: wait(), called by process [cur].  Of the entries of the table whose parent is [cur],
    the first ZOMBIE is freed (pid, parent, killed and kstack are cleared, the state is
    UNUSED) and its pid returned; no other entry changes, so pids stay unique.  If no child
    is a zombie, it returns -1 when there is no child or the caller has been killed, and
    otherwise goes to sleep on its own entry, still holding ptable.lock when it reaches
    sched(), whose tests pass. *)
Theorem wait_spec {X} `{ServicesFrame X} (cur : nat)
    (aways : list (kstate X -> kstate X)) (k : kstate X) :
  idle k -> cpu_proc k = Some cur -> (cur < length (procs k))%nat ->
  (forall z, first_zombie k cur z -> freed z (in_cs k)) ->
  (forall z, first_zombie k cur z ->
     exists k', wait aways k = Ok (Some (pid (getp k z))) k' /\ idle k' /\
       procs k' = alter reaped z (procs k) /\ (pids_ok k -> pids_ok k')) /\
  ((forall c, child_of k cur c -> state (getp k c) <> ZOMBIE) ->
     ((forall c, ~ child_of k cur c) \/ killed (getp k cur) <> 0 ->
        exists k', wait aways k = Ok (Some (-1)) k' /\ idle k' /\ procs k' = procs k) /\
     (forall c, child_of k cur c -> killed (getp k cur) = 0 ->
        wait [] k = Ok None (in_cs k) /\
        exists ks, (sleep_enter (Some (ChProc cur)) (Some LkPtable);; sched_checks) (in_cs k)
                   = Ok tt ks /\ locked ks /\
          procs ks = alter (fun r => r <| chan := Some (ChProc cur) |> <| state := SLEEPING |>)
                           cur (procs k))).
Proof.
  intros Hi Hc Hlt Hfree.
  pose proof (wait_cases cur aways k Hi Hc Hlt ltac:(intros z Hz%find_zombie_first; by apply Hfree)) as H1.
  split; [intros z Hz%find_zombie_first; by rewrite Hz in H1 |].
  intros Hno. assert (find_zombie cur k = None) as E.
  { destruct (find_zombie cur k) as [z|] eqn:E; [| done]. apply find_zombie_first in E as (Hch & Hst & _). by destruct (Hno z Hch). }
  rewrite E in H1. pose proof (havekids_spec cur k) as Hk. split.
  - intros Hor. destruct (havekids cur k); cbn [negb orb] in H1; [| done].
    destruct Hor as [Hor|Hor]; [| by rewrite (proj2 (Z.eqb_neq _ _) Hor) in H1].
    destruct (proj1 Hk eq_refl) as (c & Hcl & Hcp). by destruct (Hor c).
  - intros c Hch Hkl. rewrite (proj2 Hk (ex_intro _ c Hch)), Hkl in H1. exact H1.
Qed.

(** A machine whose only other component is a list of free pages. *)
Definition take_page : M (kstate (list Z)) Z := fun k =>
  match rest k with
  | [] => Ok 0 k
  | a :: l => Ok a (k <| rest := l |>)
  end.
Definition give_page (a : Z) : M (kstate (list Z)) unit := fun k =>
  if a =? 0 then Panic "kfree" else Ok tt (k <| rest := a :: rest k |>).

#[export] Instance page_services : Services (list Z) := {
  kalloc := take_page;
  kfree := give_page;
  setupkvm := take_page;
  inituvm _ := mret tt;
  allocuvm _ _ n := mret n;
  deallocuvm _ _ n := mret n;
  copyuvm _ _ := take_page;
  freevm := give_page;
  filedup f := mret f;
  fileclose _ := mret tt;
  idup d := mret d;
  iput _ := mret tt;
  namei_root := mret (Some 0%nat);
  begin_op := mret tt;
  end_op := mret tt }.

Lemma only_rest_refl {X} (k : kstate X) : only_rest k k.
Proof. exists (rest k), (intena k). split; [by destruct k | done]. Qed.

Lemma only_rest_set {X} (k : kstate X) x : only_rest k (k <| rest := x |>).
Proof. exists x, (intena k). split; [by destruct k | done]. Qed.

Lemma take_page_frame k a k' : take_page k = Ok a k' -> only_rest k k'.
Proof.
  unfold take_page. destruct (rest k); intros [= _ <-];
    [apply only_rest_refl | apply only_rest_set].
Qed.

Lemma give_page_frame a k k' : give_page a k = Ok tt k' -> only_rest k k'.
Proof. unfold give_page. case_test; intros [= <-]. apply only_rest_set. Qed.

#[export] Instance page_services_frame : ServicesFrame (list Z).
Proof.
  constructor; intros *; cbn [kalloc kfree copyuvm freevm filedup idup page_services];
    first [apply take_page_frame | apply give_page_frame
          | intros [= _ <-]; apply only_rest_refl].
Qed.

(** After process 2 has exited, process 1 runs again and calls wait(). *)
Definition orphaned : kstate (list Z) :=
  (exit_locked MLFQ 2 (family [])) <| cpu_proc := Some 1%nat |>.

Lemma wait_spec_witness :
  exists k', wait [] orphaned = Ok (Some 3) k' /\ idle k' /\ state (getp k' 2) = UNUSED.
Proof.
  pose proof (wait_spec 1 [] orphaned) as H.
  assert (Hz : first_zombie orphaned 1 2) by (apply find_zombie_first; vm_compute; reflexivity).
  destruct H as [H _].
  - vm_compute. split; reflexivity.
  - vm_compute. reflexivity.
  - vm_compute. lia.
  - intros z Hz'%find_zombie_first. assert (z = 2%nat) as -> by (vm_compute in Hz'; congruence).
    split; [vm_compute; eauto |].
    intros k1 E1. vm_compute in E1. injection E1 as <-. vm_compute. eauto.
  - destruct (H 2%nat Hz) as (k' & Hw & Hi & Hp & _).
    exists k'. split; [rewrite Hw; vm_compute; reflexivity |]. split; [exact Hi |].
    unfold getp. rewrite Hp. vm_compute. reflexivity.
Defined.

(** A sleeping parent is never forgotten.  When a child of a process that sleeps
    in wait() exits, the parent becomes RUNNABLE, and the scan it makes when it runs
    again finds a ZOMBIE child, so it does not go back to sleep. *)
Theorem exit_ends_wait {X} (pol : policy) (k : kstate X) (par cur : nat) :
  initproc k <> Some cur -> (cur < length (procs k))%nat -> par <> cur ->
  parent (getp k cur) = Some par -> state (getp k par) = SLEEPING ->
  chan (getp k par) = Some (ChProc par) ->
  let k' := exit_locked pol cur k in
  state (getp k' par) = RUNNABLE /\ exists z, find_zombie par k' = Some z.
Proof.
  intros Hi Hc Hne Hp Hst Hch k'. split.
  - unfold k'. rewrite exit_locked_state, bool_decide_eq_false_2 by done. cbn zeta.
    assert (Hr : state (woken (ChProc <$> parent (getp k cur)) (getp k par)) = RUNNABLE)
      by (apply woken_hit; [done | by rewrite Hp]).
    destruct (existsb _ _); [| done].
    by destruct (woken_cases (ChProc <$> initproc k)
      (woken (ChProc <$> parent (getp k cur)) (getp k par))) as [->|(_ & _ & ?)].
  - pose proof (find_zombie_spec par k') as Hz. destruct (find_zombie par k') as [z|]; [by exists z |].
    exfalso. apply (Hz cur); unfold k'.
    + by rewrite length_exit_locked.
    + rewrite exit_locked_parent, Hp, bool_decide_eq_false_2 by congruence. done.
    + by rewrite exit_locked_state, bool_decide_eq_true_2.
Qed.

Lemma exit_ends_wait_witness :
  let k' := exit_locked PBS 2 (family tt) in
  state (getp k' 1) = RUNNABLE /\ exists z, find_zombie 1 k' = Some z.
Proof.
  apply (exit_ends_wait PBS (family tt) 1 2);
    [discriminate | vm_compute; lia | lia | reflexivity | reflexivity | reflexivity].
Defined.

(** The wait time that readme_byme.md documents: end time - ctime - runtime, with
    [etime] as exit() recorded it. *)
Definition documented_wtime (r : proc) : Z := etime r - ctime r - runtime r.

(** Waitx().  It reaps like wait() and reports the run time and
    [ticks - ctime - runtime] at the moment of the call.  It overwrites the end time
    that exit() stored, so the reported wait time exceeds the documented one by the
    ticks that the process spent as a zombie. *)
Theorem waitx_reports {X} `{ServicesFrame X} (cur z : nat) (k : kstate X) :
  idle k -> cpu_proc k = Some cur -> find_zombie cur k = Some z -> freed z (in_cs k) ->
  let r := getp k z in
  0 <= ctime r -> 0 <= runtime r -> ctime r + runtime r <= etime r ->
  etime r <= ticks k -> ticks k < 2 ^ 31 ->
  exists k', waitx [] k
    = Ok (Some (pid r, Some (documented_wtime r + (ticks k - etime r), runtime r))) k' /\
    idle k' /\ procs k' = alter (fun r => (reaped r) <| etime := ticks k |>) z (procs k).
Proof.
  intros Hi Hc Hz Hfree r H1 H2 H3 H4 H5.
  assert (Hw : waitx [] k = waitx_loop cur [] (in_cs k)).
  { unfold waitx, myproc, mbind, M_bind. rewrite Hc, acquire_idle by done. done. }
  pose proof (find_zombie_spec cur k) as Hs. rewrite Hz in Hs. destruct Hs as (Hzl & _).
  destruct Hfree as [([] & k1 & E1) Hfree]. destruct (Hfree k1 E1) as ([] & k3 & E3).
  pose proof (kfree_frame _ _ _ E1) as F1. pose proof (freevm_frame _ _ _ E3) as F3.
  assert (Ht : ticks k3 = ticks k).
  { destruct F3 as (x3 & i3 & -> & _), F1 as (x1 & i1 & -> & _). done. }
  assert (Hl3 : locked k3).
  { apply (only_rest_locked _ k3 F3), (only_rest_locked _ k1 F1). done. }
  assert (Hp3 : procs k3 = alter (fun r => r <| kstack := 0 |>) z (procs k)).
  { rewrite (only_rest_procs _ _ F3). cbn [procs upd modp]. by rewrite (only_rest_procs _ _ F1). }
  assert (Hlen3 : length (procs k3) = length (procs k)) by (by rewrite Hp3, length_alter).
  assert (Hg3 : getp k3 z = r <| kstack := 0 |>) by (by apply getp_alter).
  rewrite Hw. cbn [waitx_loop]. unfold waitx_scan, reap, bury, upd_proc, gets, modify, mbind, M_bind.
  change (find_zombie cur (in_cs k)) with (find_zombie cur k). rewrite Hz.
  change (getp (in_cs k) z) with r in *. rewrite E1, E3.
  rewrite !getp_modp_eq by (rewrite ?length_procs_modp; lia). rewrite Hg3.
  rewrite release_locked by done. eexists. split; [| split].
  - unfold mret, M_ret, waitx_times, documented_wtime. cbn. rewrite Ht.
    rewrite (s32_small (ticks k)), (s32_small (ticks k - ctime r)),
      (s32_small (ticks k - ctime r - runtime r)) by (unfold is_s32; lia).
    case_test; [lia |].
    replace (ticks k - ctime r - runtime r)
      with (etime r - ctime r - runtime r + (ticks k - etime r)) by lia. reflexivity.
  - done.
  - unfold modp. cbn [procs upd]. rewrite Hp3, !list_alter_alter. done.
Qed.

Lemma waitx_reports_witness :
  exists k', waitx [] (orphaned <| ticks := 80 |>) = Ok (Some (3, Some (80, 0))) k' /\ idle k'.
Proof.
  set (k := orphaned <| ticks := 80 |>).
  assert (Hz : find_zombie 1 k = Some 2%nat) by (vm_compute; reflexivity).
  assert (Hf : freed 2 (in_cs k)).
  { split; [vm_compute; eauto |].
    intros k1 E1. vm_compute in E1. injection E1 as <-. vm_compute. eauto. }
  destruct (waitx_reports 1 2 k) as (k' & E & Hi & _);
    [split; reflexivity | vm_compute; reflexivity | exact Hz | exact Hf
    | vm_compute; congruence .. |].
  exists k'. split; [rewrite E; vm_compute; reflexivity | exact Hi].
Defined.

(** ** fork *)

(** filedup and idup return the reference they were given. *)
Class ServicesDup (X : Type) `{Services X} : Prop := {
  filedup_same f k a k' : filedup f k = Ok a k' -> a = f;
  idup_same d k a k' : idup d k = Ok a k' -> a = d }.

#[export] Instance page_services_dup : ServicesDup (list Z).
Proof. constructor; intros *; cbn; by intros [= <- _]. Qed.

Section fork.
Context {X : Type} (pol : policy) `{!Services X, !ServicesFrame X, !ServicesDup X}.
Context (forkret_addr : Z).
Implicit Types (k : kstate X) (p q : nat).

Lemma find_unused_spec k p :
  find_unused k = Some p -> (p < length (procs k))%nat /\ state (getp k p) = UNUSED.
Proof.
  intros [Hin Hp]%List.find_some. apply list_elem_of_In, all_procs_spec in Hin.
  by apply is_state_spec in Hp.
Qed.

(** After the critical section of allocproc, and after the stack is recorded. *)
Definition reserve p k : kstate X :=
  (modp k p (init_proc (nextpid k) (ticks k))) <| nextpid := s32 (nextpid k + 1) |>
    <| held := [] |> <| ncli := 0 |> <| intena := fl_if k |>.
Definition with_stack p (a : Z) k : kstate X :=
  modp (modp k p (fun r => r <| kstack := a |>)) p
    (fun r => r <| ctx := zero_context <| ctx_eip := forkret_addr |> |>).

Lemma allocproc_slot k p :
  idle k -> find_unused k = Some p ->
  allocproc forkret_addr k =
  (a ← kalloc;
   upd_proc p (fun r => r <| kstack := a |>);;
   if a =? 0 then upd_proc p (fun r => r <| state := UNUSED |>);; mret None
   else upd_proc p (fun r => r <| ctx := zero_context <| ctx_eip := forkret_addr |> |>);;
        mret (Some p)) (reserve p k).
Proof.
  intros Hi Hf. unfold allocproc, gets, modify, mbind at 1 2 3 4, M_bind at 1 2 3 4.
  rewrite acquire_idle by done.
  change (find_unused (k <| held := _ |> <| ncli := _ |> <| intena := _ |> <| fl_if := _ |>))
    with (find_unused k). rewrite Hf.
  rewrite release_locked by done. unfold reserve, modp. destruct k; cbn in *. done.
Qed.

Lemma allocproc_none k :
  idle k -> find_unused k = None ->
  exists k', allocproc forkret_addr k = Ok None k' /\ procs k' = procs k /\ idle k'.
Proof.
  intros Hi Hf. unfold allocproc, gets, modify, mbind, M_bind. rewrite acquire_idle by done.
  change (find_unused (k <| held := _ |> <| ncli := _ |> <| intena := _ |> <| fl_if := _ |>))
    with (find_unused k). rewrite Hf.
  rewrite release_locked by done. eexists. split; [reflexivity | done].
Qed.

(** [k'] differs from [k] in the entry of [np] and in the other components only. *)
Record child_frame (np : nat) k k' : Prop := {
  cf_idle : held k' = held k /\ ncli k' = ncli k /\ fl_if k' = fl_if k;
  cf_globals : nextpid k' = nextpid k /\ ticks k' = ticks k /\ initproc k' = initproc k /\
               cpu_proc k' = cpu_proc k;
  cf_queues : same_queues k k';
  cf_length : length (procs k') = length (procs k);
  cf_other q : q <> np -> getp k' q = getp k q }.

Lemma child_frame_refl np k : child_frame np k k.
Proof. by constructor. Qed.

Lemma child_frame_trans np k1 k2 k3 :
  child_frame np k1 k2 -> child_frame np k2 k3 -> child_frame np k1 k3.
Proof.
  intros [(A1 & A2 & A3) (B1 & B2 & B3 & B4) (C1 & C2 & C3 & C4 & C5) D E]
         [(A1' & A2' & A3') (B1' & B2' & B3' & B4') (C1' & C2' & C3' & C4' & C5') D' E'].
  constructor; unfold same_queues; [split_and!; congruence.. | congruence |].
  intros q Hq. rewrite E', E; done.
Qed.

Lemma child_frame_rest np k k' : only_rest k k' -> child_frame np k k'.
Proof. by intros (x & i & -> & _). Qed.

Lemma child_frame_modp np k f : child_frame np k (modp k np f).
Proof.
  constructor; try done; [apply length_procs_modp |].
  intros q Hq. by apply getp_modp_ne.
Qed.

Lemma only_rest_getp k k' q : only_rest k k' -> getp k' q = getp k q.
Proof. by intros (x & i & -> & _). Qed.

(** One slot of the file table of the child, and all of them. *)
Definition inherit (l : list (option nat)) (i : nat) (l' : list (option nat)) : list (option nat) :=
  match l !! i with Some (Some f) => <[i := Some f]> l' | _ => l' end.

Lemma dup_files_loop cur np l k k' :
  cur <> np -> (np < length (procs k))%nat ->
  forM l (fun i =>
    r ← gets (fun k => getp k cur);
    match ofile r !! i with
    | Some (Some f) =>
        f' ← filedup f;
        upd_proc np (fun r => r <| ofile := <[i := Some f']> (ofile r) |>)
    | _ => mret tt
    end) k = Ok tt k' ->
  child_frame np k k' /\
  getp k' np = (getp k np) <| ofile :=
    fold_left (fun l' i => inherit (ofile (getp k cur)) i l') l (ofile (getp k np)) |>.
Proof.
  intros Hne. revert k. induction l as [|i l IH]; intros k Hnp E; cbn [forM fold_left] in *.
  { injection E as <-. split; [apply child_frame_refl |]. by destruct (getp k np). }
  apply bind_Ok in E as ([] & k1 & E1 & E2).
  apply bind_Ok in E1 as (r & k0 & [= <- <-] & E1). unfold inherit at 2.
  assert (Hstep : child_frame np k k1 /\ getp k1 np = (getp k np) <| ofile :=
    match ofile (getp k cur) !! i with
    | Some (Some f) => <[i := Some f]> (ofile (getp k np))
    | _ => ofile (getp k np) end |>).
  { destruct (ofile (getp k cur) !! i) as [[f|]|];
      [| injection E1 as <-; split; [apply child_frame_refl | by destruct (getp k np)] ..].
    apply bind_Ok in E1 as (f' & k2 & E3 & [= <-]).
    pose proof (filedup_same _ _ _ _ E3) as ->. apply filedup_frame in E3.
    split; [by eapply child_frame_trans; [apply child_frame_rest | apply child_frame_modp] |].
    rewrite getp_modp_eq by (by rewrite (only_rest_procs _ _ E3)).
    by rewrite (only_rest_getp _ _ _ E3). }
  destruct Hstep as [F1 G1].
  destruct (IH k1) as [F2 G2]; [by rewrite (cf_length _ _ _ F1) | done |].
  split; [by eapply child_frame_trans |].
  rewrite G2, G1, (cf_other _ _ _ F1 cur Hne). done.
Qed.

Lemma inherit_lookup (l : list (option nat)) (ix : list nat) (l' : list (option nat)) j :
  NoDup ix -> length l = length l' ->
  fold_left (fun l' i => inherit l i l') ix l' !! j =
  match l !! j with
  | Some (Some f) => if bool_decide (j ∈ ix) then Some (Some f) else l' !! j
  | _ => l' !! j
  end.
Proof.
  intros Hnd. revert l'. induction ix as [|i ix IH]; intros l' Hlen; cbn [fold_left].
  { destruct (l !! j) as [[f|]|]; try done. }
  apply NoDup_cons in Hnd as [Hi Hnd].
  rewrite IH; [| done | unfold inherit; destruct (l !! i) as [[?|]|]; rewrite ?length_insert; done].
  destruct (decide (i = j)) as [->|Hij].
  - unfold inherit. destruct (l !! j) as [[f|]|] eqn:E; try done.
    rewrite (bool_decide_eq_false_2 (j ∈ ix)), (bool_decide_eq_true_2 (j ∈ j :: ix)) by (done || by left).
    apply list_lookup_insert_eq. apply lookup_lt_Some in E. lia.
  - assert (E : inherit l i l' !! j = l' !! j).
    { unfold inherit. destruct (l !! i) as [[?|]|]; try done. by rewrite list_lookup_insert_ne. }
    rewrite E. destruct (l !! j) as [[f|]|]; try done.
    assert (Hiff : bool_decide (j ∈ i :: ix) = bool_decide (j ∈ ix)).
    { apply bool_decide_ext. rewrite elem_of_cons. split; [by intros [?|?] | by right]. }
    by rewrite Hiff.
Qed.

(** make_runnable leaves the lock and the other processes alone. *)
Lemma make_runnable_ok np k :
  idle k -> (np < length (procs k))%nat -> curtime (getp k np) = 0 -> waittime (getp k np) = 0 ->
  exists k', make_runnable pol np k = Ok tt k' /\ idle k' /\
    getp k' np = (getp k np) <| state := RUNNABLE |> /\
    (forall q, q <> np -> getp k' q = getp k q) /\ nextpid k' = nextpid k /\
    length (procs k') = length (procs k) /\
    (mlfq_on pol = true -> queues_own k -> ~ queued k np -> qn (getp k np) = 0 -> queues_own k').
Proof.
  intros Hi Hnp H1 H2. unfold make_runnable, upd_proc, modify, mbind, M_bind.
  rewrite acquire_idle by done. set (k0 := modp _ np _).
  assert (Hg : getp k0 np = (getp k np) <| state := RUNNABLE |>) by (by apply (getp_alter k)).
  assert (Hl : locked (push 0 np k0)) by (apply (core_locked k0); [apply core_push | done]).
  destruct (mlfq_on pol); unfold mret, M_ret; cbn beta iota; rewrite release_locked by done;
    eexists; (split; [reflexivity |]); (split; [done |]).
  - split_and!.
    + change (getp (push 0 np k0) np = (getp k np) <| state := RUNNABLE |>).
      destruct (getp_push_self 0 np k0) as [->| ->]; rewrite Hg; [done |].
      destruct (getp k np); cbn in *. by subst.
    + intros q Hq. change (getp (push 0 np k0) q = getp k q). rewrite getp_push_ne by done.
      by apply (getp_alter_ne k k0 np q (fun r => r <| state := RUNNABLE |>)).
    + exact (f_equal nextpid (core_push 0 np k0)).
    + cbn. rewrite (core_length _ _ (core_push 0 np k0)). cbn. apply length_alter.
    + intros _ Hown Hnq Hqn. change (queues_own (push 0 np k0)).
      apply push_own; rewrite ?Hg; try done; [by apply modp_own | by unfold k0; rewrite length_procs_modp].
  - split_and!; [done | | done | | done].
    + intros q Hq. by apply (getp_alter_ne k _ np q (fun r => r <| state := RUNNABLE |>)).
    + cbn. apply length_alter.
Qed.

Definition upd_child (cur np : nat) (pg : Z) (c : proc) k : kstate X :=
  modp (modp (modp k np (fun r => r <| pgdir := pg |>)) np
    (fun r => r <| proc_sz := proc_sz c |> <| parent := Some cur |> <| tf := tf c |>)) np
    (fun r => r <| tf := (tf r) <| tf_eax := 0 |> |>).

(** The entry of the child, from its slot [r] and its parent's entry [c]. *)
Definition forked (cur : nat) (id now a pg : Z) (files : list (option nat)) (c r : proc) : proc :=
  (init_proc id now r) <| kstack := a |> <| ctx := zero_context <| ctx_eip := forkret_addr |> |>
    <| pgdir := pg |> <| proc_sz := proc_sz c |> <| parent := Some cur |>
    <| tf := (tf c) <| tf_eax := 0 |> |> <| ofile := files |> <| cwd := cwd c |>
    <| name := safestrcpy16 (name r) (name c) |> <| state := RUNNABLE |>.

(** The calls fork makes, all successful. *)
Record fork_serves (cur np : nat) (a pg : Z) k (k6 : kstate X) : Prop := {
  fs_stack : a <> 0;
  fs_dir : pg <> 0;
  fs_calls : exists k2 k3 k5,
    kalloc (reserve np k) = Ok a k2 /\
    copyuvm (pgdir (getp k cur)) (proc_sz (getp k cur)) (with_stack np a k2) = Ok pg k3 /\
    dup_files cur np (upd_child cur np pg (getp k cur) k3) = Ok tt k5 /\
    idup (cwd (getp k cur)) k5 = Ok (cwd (getp k cur)) k6 }.

(** The child just before it is made RUNNABLE, and that the rest is untouched. *)
Lemma fork_body cur np a pg k k6 :
  idle k -> cur <> np -> (np < length (procs k))%nat -> fork_serves cur np a pg k k6 ->
  let c := getp k cur in
  let k8 := modp (modp k6 np (fun r => r <| cwd := cwd c |>)) np
                 (fun r => r <| name := safestrcpy16 (name r) (name c) |>) in
  child_frame np (reserve np k) k8 /\
  getp k8 np = (forked cur (nextpid k) (ticks k) a pg
    (fold_left (fun l' i => inherit (ofile c) i l') (seq 0 16) (ofile (getp k np)))
    c (getp k np)) <| state := EMBRYO |>.
Proof.
  intros Hi Hne Hnp [_ _ (k2 & k3 & k5 & E2 & E3 & E5 & E6)] c k8.
  assert (F2 : child_frame np (reserve np k) k2) by (eapply child_frame_rest, kalloc_frame, E2).
  assert (F2' : child_frame np k2 (with_stack np a k2))
    by (eapply child_frame_trans; apply child_frame_modp).
  assert (F3 : child_frame np (with_stack np a k2) k3) by (eapply child_frame_rest, copyuvm_frame, E3).
  assert (F3' : child_frame np k3 (upd_child cur np pg c k3))
    by (do 2 (eapply child_frame_trans; [| apply child_frame_modp]); apply child_frame_modp).
  assert (L1 : length (procs (reserve np k)) = length (procs k)) by apply length_procs_modp.
  assert (F03 : child_frame np (reserve np k) (upd_child cur np pg c k3)) by eauto using child_frame_trans.
  pose proof (cf_length _ _ _ F03) as L3. pose proof (cf_length _ _ _ F2) as L2.
  pose proof (cf_length _ _ _ F3') as L3'.
  assert (Hnp3 : (np < length (procs (upd_child cur np pg c k3)))%nat) by lia.
  destruct (dup_files_loop cur np (seq 0 16) _ k5 Hne Hnp3 E5) as [F5 G5].
  pose proof (idup_frame _ _ _ _ E6) as R6.
  assert (F6 : child_frame np k5 k8).
  { eapply child_frame_trans; [by apply child_frame_rest |].
    eapply child_frame_trans; apply child_frame_modp. }
  split; [eauto using child_frame_trans |].
  pose proof (cf_length _ _ _ F5) as L5.
  assert (L6 : length (procs k6) = length (procs k5)) by (by rewrite (only_rest_procs _ _ R6)).
  assert (Gc : getp (upd_child cur np pg c k3) cur = c).
  { rewrite (cf_other _ _ _ F03 cur Hne). by apply getp_modp_ne. }
  unfold k8. rewrite !getp_modp_eq by (rewrite ?length_procs_modp; lia).
  rewrite (only_rest_getp _ _ _ R6), G5, Gc. unfold upd_child.
  rewrite !getp_modp_eq by (rewrite ?length_procs_modp; lia).
  rewrite (only_rest_getp _ _ _ (copyuvm_frame _ _ _ _ _ E3)). unfold with_stack.
  rewrite !getp_modp_eq by (rewrite ?length_procs_modp; lia).
  rewrite (only_rest_getp _ _ _ (kalloc_frame _ _ _ E2)).
  change (getp (reserve np k) np) with (getp (modp k np (init_proc (nextpid k) (ticks k))) np).
  rewrite getp_modp_eq by done. unfold forked. by destruct (getp k np).
Qed.

Lemma fork_has_slot cur np a k k2 :
  idle k -> cpu_proc k = Some cur -> find_unused k = Some np -> cur <> np ->
  kalloc (reserve np k) = Ok a k2 -> a <> 0 ->
  fork pol forkret_addr k =
  (pg ← copyuvm (pgdir (getp k cur)) (proc_sz (getp k cur));
   upd_proc np (fun r => r <| pgdir := pg |>);;
   if pg =? 0 then fork_undo np else fork_fill pol cur np (getp k cur)) (with_stack np a k2).
Proof.
  intros Hi Hc Hf Hne E2 Ha. unfold fork, myproc, mbind at 1, M_bind at 1. rewrite Hc.
  unfold mbind at 1, M_bind at 1. rewrite (allocproc_slot k np Hi Hf).
  unfold mbind at 1, M_bind at 1. rewrite E2.
  unfold upd_proc at 1, modify at 1, mbind at 1, M_bind at 1.
  rewrite (proj2 (Z.eqb_neq a 0) Ha).
  assert (Gc : getp (with_stack np a k2) cur = getp k cur).
  { unfold with_stack. rewrite !getp_modp_ne by done.
    rewrite (only_rest_getp _ _ _ (kalloc_frame _ _ _ E2)). by apply getp_modp_ne. }
  rewrite <- Gc. done.
Qed.

Lemma fork_unfold cur np a pg k k6 :
  idle k -> cpu_proc k = Some cur -> find_unused k = Some np -> cur <> np ->
  fork_serves cur np a pg k k6 ->
  let c := getp k cur in
  let k8 := modp (modp k6 np (fun r => r <| cwd := cwd c |>)) np
                 (fun r => r <| name := safestrcpy16 (name r) (name c) |>) in
  fork pol forkret_addr k = (make_runnable pol np;; mret (pid (getp k8 np))) k8.
Proof.
  intros Hi Hc Hf Hne [Ha Hpg (k2 & k3 & k5 & E2 & E3 & E5 & E6)].
  rewrite (fork_has_slot cur np a k k2 Hi Hc Hf Hne E2 Ha). cbn zeta.
  rewrite (bind_run _ _ _ _ _ E3). erewrite bind_run by reflexivity. cbn beta.
  rewrite (proj2 (Z.eqb_neq pg 0) Hpg). unfold fork_fill.
  do 2 (erewrite bind_run by reflexivity). rewrite (bind_run _ _ _ _ _ E5).
  rewrite (bind_run _ _ _ _ _ E6). done.
Qed.

Lemma child_frame_own np k k8 :
  queues_own k -> state (getp k np) = UNUSED -> child_frame np (reserve np k) k8 ->
  queues_own k8 /\ ~ queued k8 np.
Proof.
  intros Hown Hst F. pose proof (cf_queues _ _ _ F) as Q.
  assert (Q' : same_queues k k8) by exact Q.
  assert (Hnq : ~ queued k8 np).
  { intros (i & Hi & Hin). rewrite (same_queues_ring k k8) in Hin by done.
    destruct Hown as (_ & _ & H). destruct (H i np Hi Hin). congruence. }
  split; [| done]. apply (queues_own_shrink k); [done | | |].
  - apply (same_queues_inv k); [done | | apply Hown].
    rewrite (cf_length _ _ _ F). apply length_procs_modp.
  - intros i _. by rewrite (same_queues_ring k k8).
  - intros i q Hi Hq. assert (Hne : q <> np) by (intros ->; apply Hnq; by exists i).
    rewrite (cf_other _ _ _ F q Hne).
    by rewrite (getp_alter_ne k (reserve np k) np q (init_proc (nextpid k) (ticks k))).
Qed.
End fork.

(** C31: fork().  When a slot is free and the memory for a kernel stack and a copy of
    the address space is there, fork returns the next pid to the parent and leaves a
    RUNNABLE child in the slot with that pid, the parent's size, registers (except
    eax = 0), current directory, name and open files, and fresh accounting; no other
    entry changes, ptable.lock is released, with MLFQ the queues stay consistent, and
    pids stay unique until nextpid reaches the largest int. *)
Theorem fork_child {X} (pol : policy) `{!Services X, !ServicesFrame X, !ServicesDup X}
    (fa : Z) (cur np : nat) (a pg : Z) (k k6 : kstate X) :
  idle k -> cpu_proc k = Some cur -> find_unused k = Some np ->
  state (getp k cur) <> UNUSED -> length (ofile (getp k cur)) = length (ofile (getp k np)) ->
  fork_serves fa cur np a pg k k6 ->
  exists k' files,
    fork pol fa k = Ok (nextpid k) k' /\ idle k' /\ nextpid k' = s32 (nextpid k + 1) /\
    (forall q, q <> np -> getp k' q = getp k q) /\
    getp k' np = forked fa cur (nextpid k) (ticks k) a pg files (getp k cur) (getp k np) /\
    (forall i, (i < 16)%nat -> files !! i =
       match ofile (getp k cur) !! i with
       | Some (Some f) => Some (Some f)
       | _ => ofile (getp k np) !! i
       end) /\
    (pol = MLFQ -> queues_own k -> queues_own k') /\
    (pids_ok k -> nextpid k < 2 ^ 31 - 1 -> pids_ok k').
Proof.
  intros Hi Hc Hf Hst Hlen Hs. destruct (find_unused_spec k np Hf) as [Hnp Hun].
  assert (Hne : cur <> np) by congruence.
  destruct (fork_body fa cur np a pg k k6 Hi Hne Hnp Hs) as [F G].
  rewrite (fork_unfold pol fa cur np a pg k k6 Hi Hc Hf Hne Hs).
  set (k8 := modp _ np _) in *. set (files := fold_left _ _ _) in *.
  assert (Hi8 : idle k8).
  { destruct (cf_idle _ _ _ F) as (H1 & H2 & _). split; [by rewrite H1 | by rewrite H2]. }
  assert (L8 : length (procs k8) = length (procs k))
    by (rewrite (cf_length _ _ _ F); apply length_procs_modp).
  destruct (make_runnable_ok pol np k8) as (k' & Er & Hi' & Gn & Go & Hn & _ & Hq);
    [done | lia | by rewrite G.. |].
  assert (Hn' : nextpid k' = s32 (nextpid k + 1)).
  { rewrite Hn. by destruct (cf_globals _ _ _ F) as (-> & _). }
  assert (Ho : forall q, q <> np -> getp k' q = getp k q).
  { intros q Hqn. rewrite Go, (cf_other _ _ _ F) by done.
    by apply (getp_alter_ne k (reserve np k) np q (init_proc (nextpid k) (ticks k))). }
  exists k', files. split_and!.
  - unfold mbind, M_bind. rewrite Er, G. done.
  - exact Hi'.
  - exact Hn'.
  - exact Ho.
  - rewrite Gn, G. unfold forked. by rewrite !state_twice.
  - intros i Hi16. unfold files. rewrite inherit_lookup by (done || apply NoDup_seq).
    destruct (ofile (getp k cur) !! i) as [[f|]|]; try done.
    by rewrite bool_decide_eq_true_2 by (apply elem_of_seq; lia).
  - intros -> Hown. destruct (child_frame_own np k k8 Hown Hun F) as [H1 H2].
    apply Hq; [done | done | done | by rewrite G].
  - intros Hpids Hmax. apply (pids_ok_alloc k k' np); [done | | by rewrite Gn, G |].
    + rewrite Hn', s32_small; [done |]. destruct Hpids as (? & _). unfold is_s32. lia.
    + intros q Hqn. by rewrite Ho.
Qed.

(** Process 2 of the family forks; slot 4 is free and there are three free pages. *)
Lemma fork_child_witness :
  exists k', fork MLFQ 4096 (family [8192; 12288; 16384]) = Ok 5 k' /\ idle k' /\
    state (getp k' 4) = RUNNABLE /\ parent (getp k' 4) = Some 2%nat /\ pid (getp k' 4) = 5.
Proof.
  set (k := family [8192; 12288; 16384]).
  assert (Hs : exists k6, fork_serves 4096 2 4 8192 12288 k k6).
  { eexists. constructor; [lia | lia |]. do 3 eexists.
    split; [vm_compute; reflexivity |]. split; [vm_compute; reflexivity |].
    split; [vm_compute; reflexivity | vm_compute; reflexivity]. }
  destruct Hs as [k6 Hs].
  destruct (fork_child MLFQ 4096 2 4 8192 12288 k k6) as (k' & files & E & Hi & _ & _ & G & _);
    [split; reflexivity | reflexivity | vm_compute; reflexivity | vm_compute; congruence
    | vm_compute; reflexivity | exact Hs |].
  exists k'. split; [rewrite E; vm_compute; reflexivity |]. split; [exact Hi |].
  rewrite G. split; [reflexivity |]. split; vm_compute; reflexivity.
Defined.

(** The slot after its page directory is stored. *)
Lemma fork_slot_entry {X} `{!Services X, !ServicesFrame X} (fa : Z) (np : nat) (a : Z)
    (k2 k3 : kstate X) (d n pg : Z) :
  (np < length (procs k2))%nat -> copyuvm d n (with_stack fa np a k2) = Ok pg k3 ->
  let kp := modp k3 np (fun r => r <| pgdir := pg |>) in
  child_frame np k2 kp /\
  getp kp np = (getp k2 np) <| kstack := a |> <| ctx := zero_context <| ctx_eip := fa |> |>
                           <| pgdir := pg |>.
Proof.
  intros Hnp E3 kp. pose proof (copyuvm_frame _ _ _ _ _ E3) as R3.
  assert (Fw : child_frame np k2 (with_stack fa np a k2))
    by (eapply child_frame_trans; apply child_frame_modp).
  assert (L3 : length (procs k3) = length (procs k2)).
  { rewrite (only_rest_procs _ _ R3). apply (cf_length _ _ _ Fw). }
  split.
  - eapply child_frame_trans; [exact Fw |].
    eapply child_frame_trans; [by apply child_frame_rest | apply child_frame_modp].
  - unfold kp. rewrite getp_modp_eq, (only_rest_getp _ _ _ R3) by lia. unfold with_stack.
    by rewrite !getp_modp_eq by (rewrite ?length_procs_modp; lia).
Qed.

(** The end of a failed fork: the slot is UNUSED again. *)
Lemma fork_undone {X} `{!Services X, !ServicesFrame X} (np : nat) (k kf : kstate X) f :
  idle k -> (np < length (procs k))%nat -> state (getp k np) = UNUSED ->
  find_unused k = Some np -> child_frame np (reserve np k) kf ->
  pid (getp kf np) = nextpid k -> (forall r, pid (f r) = pid r /\ state (f r) = UNUSED) ->
  let k' := modp kf np f in
  idle k' /\ forall q, state (getp k' q) = state (getp k q) /\
    (getp k' q = getp k q \/ find_unused k = Some q /\ pid (getp k' q) = nextpid k).
Proof.
  intros Hi Hnp Hun Hf F Hpid Hff k'. split.
  { destruct (cf_idle _ _ _ F) as (H1 & H2 & _). split; [exact H1 | exact H2]. }
  assert (Hl : length (procs kf) = length (procs k))
    by (rewrite (cf_length _ _ _ F); apply length_procs_modp).
  intros q. unfold k'. destruct (decide (np = q)) as [<-|Hne].
  - rewrite getp_modp_eq by lia. destruct (Hff (getp kf np)) as [-> ->]. by split; [| right].
  - rewrite getp_modp_ne, (cf_other _ _ _ F q) by done.
    rewrite (getp_alter_ne k (reserve np k) np q (init_proc (nextpid k) (ticks k))) by done. auto.
Qed.

(** Fork() that fails.  Without a free slot, without a page for the kernel stack,
    or without memory for the copy of the address space, fork returns -1, every
    process keeps its entry, the slot it tried to use is UNUSED again and the lock is
    released.  The slot keeps the pid that was assigned to it. *)
Theorem fork_failure {X} (pol : policy) `{!Services X, !ServicesFrame X}
    (fa : Z) (cur : nat) (k : kstate X) :
  idle k -> cpu_proc k = Some cur -> state (getp k cur) <> UNUSED ->
  (find_unused k = None \/
   exists np, find_unused k = Some np /\
     ((exists k2, kalloc (reserve np k) = Ok 0 k2) \/
      exists a k2 k3, a <> 0 /\ kalloc (reserve np k) = Ok a k2 /\
        copyuvm (pgdir (getp k cur)) (proc_sz (getp k cur)) (with_stack fa np a k2) = Ok 0 k3 /\
        exists k4, kfree a (modp k3 np (fun r => r <| pgdir := 0 |>)) = Ok tt k4)) ->
  exists k', fork pol fa k = Ok (-1) k' /\ idle k' /\
    forall q, state (getp k' q) = state (getp k q) /\
      (getp k' q = getp k q \/ find_unused k = Some q /\ pid (getp k' q) = nextpid k).
Proof.
  intros Hi Hc Hst [Hf|(np & Hf & H)].
  { unfold fork, myproc, mbind at 1, M_bind at 1. rewrite Hc. unfold mbind at 1, M_bind at 1.
    destruct (allocproc_none fa k Hi Hf) as (k' & -> & Hp & Hi'). exists k'.
    split; [done |]. split; [done |]. intros q. rewrite (procs_same k k' Hp). auto. }
  destruct (find_unused_spec k np Hf) as [Hnp Hun].
  assert (Hne : cur <> np) by congruence.
  assert (Hl1 : length (procs (reserve np k)) = length (procs k)) by apply length_procs_modp.
  assert (Hg1 : pid (getp (reserve np k) np) = nextpid k)
    by (by rewrite (getp_alter k (reserve np k) np (init_proc (nextpid k) (ticks k)))).
  destruct H as [(k2 & E2)|(a & k2 & k3 & Ha & E2 & E3 & k4 & E4)];
    pose proof (kalloc_frame _ _ _ E2) as R2; pose proof (child_frame_rest np _ _ R2) as F2;
    pose proof (cf_length _ _ _ F2) as L2.
  - eexists. split.
    + unfold fork, myproc, mbind at 1, M_bind at 1. rewrite Hc. unfold mbind at 1, M_bind at 1.
      rewrite (allocproc_slot fa k np Hi Hf). unfold mbind at 1, M_bind at 1. rewrite E2. reflexivity.
    + apply fork_undone; try done.
      * eapply child_frame_trans; [exact F2 | apply child_frame_modp].
      * rewrite getp_modp_eq by lia. cbn. by rewrite (only_rest_getp _ _ _ R2).
  - set (kp := modp k3 np (fun r => r <| pgdir := 0 |>)) in *.
    destruct (fork_slot_entry fa np a k2 k3 _ _ 0 ltac:(lia) E3) as [Fp Gp]. fold kp in Fp, Gp.
    pose proof (kfree_frame _ _ _ E4) as R4.
    exists (modp k4 np (fun r => r <| kstack := 0 |> <| state := UNUSED |>)). split.
    + rewrite (fork_has_slot pol fa cur np a k k2 Hi Hc Hf Hne E2 Ha).
      unfold mbind at 1, M_bind at 1. rewrite E3. unfold upd_proc, modify, mbind at 1, M_bind at 1.
      fold kp. unfold fork_undo, gets, upd_proc, modify, mbind, M_bind. cbn [Z.eqb].
      rewrite Gp. cbn [kstack upd]. by rewrite E4.
    + apply fork_undone; try done.
      * eapply child_frame_trans; [exact F2 |]. eapply child_frame_trans; [exact Fp |].
        by apply child_frame_rest.
      * rewrite (only_rest_getp _ _ _ R4), Gp. cbn. by rewrite (only_rest_getp _ _ _ R2).
Qed.

Lemma fork_failure_witness :
  exists k', fork PBS 4096 (family []) = Ok (-1) k' /\ idle k' /\ state (getp k' 4) = UNUSED.
Proof.
  destruct (fork_failure PBS 4096 2 (family [])) as (k' & E & Hi & Hq);
    [split; reflexivity | reflexivity | vm_compute; congruence | |].
  - right. exists 4%nat. split; [vm_compute; reflexivity |]. left. eexists. vm_compute. reflexivity.
  - exists k'. split; [exact E |]. split; [exact Hi |].
    destruct (Hq 4%nat) as [-> _]. vm_compute. reflexivity.
Defined.

(** ** wakeup, kill and the table scans under ptable.lock *)

(** Wakeup().  Called without ptable.lock, it makes RUNNABLE exactly the
    processes that sleep on the channel and changes no other field of any process
    except scheduling data; the lock and the interrupt state are restored, and the
    MLFQ queues stay consistent. *)
Theorem wakeup_exact {X} (pol : policy) (c : option channel) (k : kstate X) :
  wf_locks k -> LkPtable ∉ held k ->
  exists k', wakeup pol c k = Ok tt k' /\ wf_locks k' /\
    held k' = held k /\ ncli k' = ncli k /\ fl_if k' = fl_if k /\
    (forall p, strip (getp k' p) = strip (woken c (getp k p))) /\
    (queues_own k -> qn_range k -> queues_own k').
Proof.
  intros Hwf Hlk.
  destruct (locked_section LkPtable (modify (wakeup1 pol c)) k tt (wakeup1 pol c (enter LkPtable k)))
    as (i & E & Hw); [done.. | apply glob_cpu, glob_wakeup1 |].
  eexists. split; [| split; [exact Hw |]].
  - rewrite <- E. unfold wakeup, modify, mbind, M_bind, mret, M_ret.
    destruct (acquire LkPtable k) as [[] k1|]; [| done].
    by destruct (release LkPtable _) as [[] k2|].
  - split_and!; try done.
    + intros p. exact (wakeup1_getp pol c (enter LkPtable k) p).
    + intros Hown Hqn. set (kw := wakeup1 pol c (enter LkPtable k)).
      apply (queues_own_eq kw); [done | by split_and! |].
      apply wakeup1_own; [by apply (queues_own_eq k); [done | split_and! | done] | exact Hqn].
Qed.

Lemma wakeup_exact_witness :
  exists k', wakeup MLFQ (Some (ChProc 1)) (family tt) = Ok tt k' /\
    state (getp k' 1) = RUNNABLE /\ state (getp k' 0) = SLEEPING.
Proof.
  destruct (wakeup_exact MLFQ (Some (ChProc 1)) (family tt)) as (k' & E & _ & _ & _ & _ & H & _).
  - split; [constructor |]. split; [reflexivity |]. split; cbn; lia.
  - cbn. apply not_elem_of_nil.
  - exists k'. split; [exact E |].
    split; [rewrite (state_strip _ _ (H 1%nat)) | rewrite (state_strip _ _ (H 0%nat))];
      vm_compute; reflexivity.
Defined.

(** Taking and releasing the lock does not touch the table. *)
Definition out_cs {X} (k : kstate X) : kstate X :=
  k <| held := [] |> <| ncli := 0 |> <| fl_if := intena k |>.

Lemma procs_in_cs {X} (k : kstate X) : procs (in_cs k) = procs k.
Proof. reflexivity. Qed.
Lemma procs_out_cs {X} (k : kstate X) : procs (out_cs k) = procs k.
Proof. reflexivity. Qed.
Lemma getp_in_cs {X} (k : kstate X) p : getp (in_cs k) p = getp k p.
Proof. reflexivity. Qed.
Lemma getp_out_cs {X} (k : kstate X) p : getp (out_cs k) p = getp k p.
Proof. reflexivity. Qed.
Lemma out_cs_own {X} (k : kstate X) : queues_own k -> queues_own (out_cs k).
Proof. by apply queues_own_eq; [| split_and!]. Qed.
Lemma in_cs_own {X} (k : kstate X) : queues_own k -> queues_own (in_cs k).
Proof. by apply queues_own_eq; [| split_and!]. Qed.
Lemma acquire_in_cs {X} (k : kstate X) : idle k -> acquire LkPtable k = Ok tt (in_cs k).
Proof. apply acquire_idle. Qed.
Lemma release_out_cs {X} (k : kstate X) : locked k -> release LkPtable k = Ok tt (out_cs k).
Proof. apply release_locked. Qed.
Lemma out_cs_idle {X} (k : kstate X) : idle (out_cs k).
Proof. done. Qed.
Lemma find_pid_in_cs {X} (k : kstate X) id : find_pid (in_cs k) id = find_pid k id.
Proof. reflexivity. Qed.
Lemma glob_locked {X} (k k' : kstate X) : glob k' = glob k -> locked k -> locked k'.
Proof.
  intros H (L1 & L2 & L3). destruct (glob_cpu _ _ H) as (E1 & E2 & _ & E4).
  split_and!; congruence.
Qed.

Lemma find_pid_spec {X} (k : kstate X) id :
  match find_pid k id with
  | Some p => (p < length (procs k))%nat /\ pid (getp k p) = id
  | None => forall p, (p < length (procs k))%nat -> pid (getp k p) <> id
  end.
Proof.
  unfold find_pid. destruct (List.find _ _) as [p|] eqn:E.
  - apply List.find_some in E as [Hin Hp]. apply list_elem_of_In, all_procs_spec in Hin.
    bool_to_prop. done.
  - intros p Hp Hpid.
    pose proof (List.find_none _ _ E p (proj1 (list_elem_of_In _ _) (proj2 (all_procs_spec k p) Hp))) as Hn.
    cbn in Hn. bool_to_prop. done.
Qed.

(** The entry of a killed process: marked, and awake. *)
Definition struck (r : proc) : proc :=
  let r := r <| killed := 1 |> in
  if bool_decide (state r = SLEEPING) then r <| state := RUNNABLE |> else r.

Lemma strike_ok {X} (pol : policy) (p : nat) (k : kstate X) :
  (p < length (procs k))%nat ->
  strip (getp (strike pol p k) p) = strip (struck (getp k p)) /\
  (forall q, q <> p -> getp (strike pol p k) q = getp k q) /\
  glob (strike pol p k) = glob k /\ length (procs (strike pol p k)) = length (procs k) /\
  (queues_own k -> qn_range k -> queues_own (strike pol p k)).
Proof.
  intros Hlt. unfold strike. set (k1 := modp k p _).
  assert (G1 : getp k1 p = (getp k p) <| killed := 1 |>) by (by apply getp_modp_eq).
  assert (Hown1 : queues_own k -> queues_own k1) by (intros Hown; by apply modp_own).
  assert (Hl1 : length (procs k1) = length (procs k)) by apply length_procs_modp.
  assert (O1 : forall q, q <> p -> getp k1 q = getp k q) by (intros q Hq; by apply getp_modp_ne).
  cbn zeta. unfold is_state, struck. rewrite G1. cbn [state upd].
  destruct (bool_decide_reflect (state (getp k p) = SLEEPING)) as [Hst|Hst];
    [| split_and!; [by rewrite G1 | done | done | done | auto]].
  set (k2 := set_state RUNNABLE p k1).
  assert (G2 : getp k2 p = (getp k p) <| killed := 1 |> <| state := RUNNABLE |>).
  { unfold k2, set_state. rewrite getp_modp_eq by lia. by rewrite G1. }
  assert (O2 : forall q, q <> p -> getp k2 q = getp k q).
  { intros q Hq. unfold k2, set_state. rewrite getp_modp_ne by done. by apply O1. }
  assert (Hown2 : queues_own k -> queues_own k2 /\ ~ queued k2 p).
  { intros Hown. assert (Hnq : ~ queued k1 p).
    { apply sleeping_unqueued; [by apply Hown1 |]. rewrite G1. cbn. congruence. }
    split; [| done]. by apply modp_own; [apply Hown1 |]. }
  assert (Hl2 : length (procs k2) = length (procs k))
    by (unfold k2, set_state; by rewrite length_procs_modp).
  destruct (mlfq_on pol); split_and!.
  - rewrite (proj1 (getp_push _ _ _ _)). by rewrite G2.
  - intros q Hq. rewrite getp_push_ne by done. by apply O2.
  - rewrite glob_push. done.
  - by rewrite (core_length _ _ (core_push _ _ _)).
  - intros Hown Hqn. destruct (Hown2 Hown). apply push_own; rewrite ?G2; try done.
    + exact (Hqn p).
    + by rewrite Hl2.
  - by rewrite G2.
  - exact O2.
  - done.
  - done.
  - intros Hown _. by apply Hown2.
Qed.

(** Kill().  It marks the process with the pid, waking it when it sleeps, and
    returns 0; or returns -1 when there is no such pid.  No other process changes,
    the lock is released, and the MLFQ queues stay consistent. *)
Theorem kill_spec {X} (pol : policy) (id : Z) (k : kstate X) :
  idle k ->
  exists k', idle k' /\
  match find_pid k id with
  | None => kill pol id k = Ok (-1) k' /\ procs k' = procs k
  | Some p => kill pol id k = Ok 0 k' /\
      strip (getp k' p) = strip (struck (getp k p)) /\
      (forall q, q <> p -> getp k' q = getp k q) /\
      (queues_own k -> qn_range k -> queues_own k')
  end.
Proof.
  intros Hi. pose proof (find_pid_spec k id) as Hp.
  unfold kill. rewrite (bind_run _ _ _ _ _ (acquire_in_cs k Hi)).
  erewrite bind_run by reflexivity. rewrite find_pid_in_cs.
  destruct (find_pid k id) as [p|]; cycle 1.
  { rewrite (bind_run _ _ _ _ _ (release_out_cs (in_cs k) ltac:(done))).
    exists (out_cs (in_cs k)). split; [apply out_cs_idle | split; reflexivity]. }
  destruct Hp as [Hlt _]. erewrite bind_run by reflexivity.
  destruct (strike_ok pol p (in_cs k) Hlt) as (H1 & H2 & H3 & _ & H4).
  set (ks := strike pol p (in_cs k)) in *. clearbody ks.
  rewrite (bind_run _ _ _ _ _ (release_out_cs ks (glob_locked _ _ H3 ltac:(done)))).
  exists (out_cs ks). split; [apply out_cs_idle |]. split; [reflexivity |].
  rewrite getp_out_cs. split; [by rewrite <- (getp_in_cs k) |]. split.
  - intros q Hq. rewrite getp_out_cs, <- (getp_in_cs k). by apply H2.
  - intros Hown Hqn. apply out_cs_own, H4; [by apply in_cs_own |].
    intros q. rewrite getp_in_cs. apply Hqn.
Qed.

Lemma kill_spec_witness :
  exists k', kill MLFQ 2 (family tt) = Ok 0 k' /\ idle k' /\ state (getp k' 1) = RUNNABLE.
Proof.
  destruct (kill_spec MLFQ 2 (family tt)) as (k' & Hi & H); [split; reflexivity |].
  assert (E : find_pid (family tt) 2 = Some 1%nat) by (vm_compute; reflexivity).
  rewrite E in H. destruct H as (Hk & H1 & _). exists k'. split; [exact Hk |].
  split; [exact Hi |]. rewrite (state_strip _ _ H1). vm_compute. reflexivity.
Defined.

Lemma find_unused_eq {X} (k k' : kstate X) :
  length (procs k') = length (procs k) ->
  (forall q, state (getp k' q) = state (getp k q)) -> find_unused k' = find_unused k.
Proof.
  intros Hl Hs. unfold find_unused, all_procs. rewrite Hl. apply find_ext.
  intros q. unfold is_state. by rewrite Hs.
Qed.

Lemma killed_strip r : killed (strip r) = killed r.
Proof. by destruct r. Qed.

Lemma killed_struck r : killed (struck r) = 1.
Proof. destruct r. unfold struck. cbn. by case_test. Qed.

Lemma state_struck r : state r <> SLEEPING -> state (struck r) = state r.
Proof. destruct r. unfold struck. cbn. intros H. by rewrite bool_decide_eq_false_2. Qed.

Lemma killed_forked fa cur id now a pg files c r :
  killed (forked fa cur id now a pg files c r) = killed r.
Proof. destruct r. vm_compute. reflexivity. Qed.

(** Kill(0) poisons a free slot.  A slot that has never been used, or has been
    reaped, has pid 0, so kill(0) succeeds and marks the first such slot as killed;
    allocproc does not clear the mark, so the next process created in that slot is
    born killed. *)
Theorem kill_zero_poisons {X} (pol : policy) (k : kstate X) (np : nat) :
  idle k -> find_pid k 0 = Some np -> find_unused k = Some np ->
  exists k', kill pol 0 k = Ok 0 k' /\ idle k' /\ find_unused k' = Some np /\
    forall fa cur id now a pg files c, killed (forked fa cur id now a pg files c (getp k' np)) = 1.
Proof.
  intros Hi Hp Hu. destruct (find_unused_spec k np Hu) as [Hlt Hun].
  unfold kill. rewrite (bind_run _ _ _ _ _ (acquire_in_cs k Hi)).
  erewrite bind_run by reflexivity. rewrite find_pid_in_cs, Hp.
  erewrite bind_run by reflexivity.
  destruct (strike_ok pol np (in_cs k) Hlt) as (H1 & H2 & H3 & Hlen & _).
  set (ks := strike pol np (in_cs k)) in *. clearbody ks.
  rewrite (bind_run _ _ _ _ _ (release_out_cs ks (glob_locked _ _ H3 ltac:(done)))).
  rewrite getp_in_cs in H1.
  assert (Hst : forall q, state (getp ks q) = state (getp k q)).
  { intros q. destruct (decide (q = np)) as [->|Hq]; [| by rewrite H2, getp_in_cs].
    rewrite (state_strip _ _ H1). apply state_struck. congruence. }
  exists (out_cs ks). split; [reflexivity |]. split; [apply out_cs_idle |]. split.
  - rewrite <- Hu. apply find_unused_eq; [by rewrite procs_out_cs, <- (procs_in_cs k) |].
    intros q. rewrite getp_out_cs. apply Hst.
  - intros *. rewrite getp_out_cs, killed_forked, <- killed_strip, H1, killed_strip.
    apply killed_struck.
Qed.

Lemma kill_zero_poisons_witness :
  exists k', kill PBS 0 (family tt) = Ok 0 k' /\ killed (getp k' 4) = 1 /\ find_unused k' = Some 4%nat.
Proof.
  destruct (kill_zero_poisons PBS (family tt) 4) as (k' & E & _ & Hu & Hk);
    [split; reflexivity | vm_compute; reflexivity | vm_compute; reflexivity |].
  exists k'. split; [exact E |]. split; [| exact Hu].
  exact (Hk 0 0%nat 0 0 0 0 [] zero_proc).
Defined.

(** ** Accounting and priorities *)

Section accounting.
Context {X : Type} (pol : policy).
Implicit Types (k : kstate X).

Definition tick_all k : kstate X :=
  fold_left (fun k p => modp k p (tick_proc pol)) (all_procs k) k.

Lemma tick_local : local_body (fun k p => modp (X:=X) k p (tick_proc pol)).
Proof.
  constructor; intros k p; [intros q Hq; by apply getp_modp_ne | apply length_procs_modp].
Qed.

Lemma tick_all_getp k p :
  (p < length (procs k))%nat -> getp (tick_all k) p = tick_proc pol (getp k p).
Proof.
  intros Hp. destruct (fold_local_visit _ (all_procs k) k p tick_local (all_procs_NoDup k))
    as (k' & E1 & E2 & E3); [by apply all_procs_spec |].
  unfold tick_all. rewrite E3, getp_modp_eq by lia. by rewrite E1.
Qed.

Lemma tick_all_length k : length (procs (tick_all k)) = length (procs k).
Proof. apply (fold_local_length _ _ _ tick_local). Qed.

Lemma tick_all_glob k : glob (tick_all k) = glob k.
Proof. apply glob_fold. intros k' p. apply glob_modp. Qed.
End accounting.

(** The accounting of a tick.  change_ticks adds one tick to exactly one of
    runtime and waittime of every slot of the table: to runtime when the process is
    RUNNING (then, with MLFQ, also to curtime and to the count of its queue), to
    waittime otherwise - also for slots that are UNUSED, SLEEPING or ZOMBIE. *)
Theorem change_ticks_spec {X} (pol : policy) (k : kstate X) :
  idle k ->
  exists k', change_ticks pol k = Ok tt k' /\ idle k' /\
    forall p, (p < length (procs k))%nat ->
      let r := getp k p in let r' := getp k' p in
      state r' = state r /\
      (state r = RUNNING ->
         runtime r' = s32 (runtime r + 1) /\ waittime r' = waittime r /\
         (pol = MLFQ -> curtime r' = s32 (curtime r + 1)) /\
         (pol = MLFQ -> qnt r' = zupd (qnt r) (qn r) (s32 (zget (qnt r) (qn r) + 1)))) /\
      (state r <> RUNNING ->
         waittime r' = s32 (waittime r + 1) /\ runtime r' = runtime r).
Proof.
  intros Hi. unfold change_ticks. rewrite (bind_run _ _ _ _ _ (acquire_in_cs k Hi)).
  erewrite bind_run by reflexivity. fold (tick_all pol (in_cs k)).
  rewrite release_out_cs by (apply (glob_locked (in_cs k)); [apply tick_all_glob | done]).
  exists (out_cs (tick_all pol (in_cs k))). split; [reflexivity |]. split; [apply out_cs_idle |].
  intros p Hp. rewrite getp_out_cs, tick_all_getp, getp_in_cs by (by rewrite procs_in_cs).
  cbn zeta. unfold tick_proc. destruct (bool_decide_reflect (state (getp k p) <> RUNNING)) as [H|H].
  - split_and!; [done | done |]. intros _. done.
  - apply dec_stable in H. unfold mlfq_on.
    destruct (bool_decide_reflect (pol = MLFQ)); (split_and!; [done | | done]);
      intros _; split_and!; done.
Qed.

Lemma change_ticks_spec_witness :
  exists k', change_ticks MLFQ (family tt) = Ok tt k' /\
    runtime (getp k' 2) = 1 /\ waittime (getp k' 1) = 1 /\ waittime (getp k' 63) = 1.
Proof.
  destruct (change_ticks_spec MLFQ (family tt)) as (k' & E & _ & H); [split; reflexivity |].
  exists k'. split; [exact E |].
  destruct (H 2%nat) as (_ & H2 & _); [vm_compute; lia |].
  destruct (H 1%nat) as (_ & _ & H1); [vm_compute; lia |].
  destruct (H 63%nat) as (_ & _ & H3); [vm_compute; lia |].
  destruct H2 as (-> & _); [reflexivity |]. destruct H1 as (-> & _); [discriminate |].
  destruct H3 as (-> & _); [discriminate |]. split; [reflexivity |]. split; reflexivity.
Defined.

(** Preempt().  It returns 1 exactly when some slot with a pid has a priority
    value below [prior] (not above it, when [i] is 1), whatever the state of that
    process; the table is only read.  In particular, at a clock tick ([i] = 1) a
    running process always finds itself, so it is preempted even when it is alone. *)
Theorem preempt_spec {X} (prior i : Z) (k : kstate X) :
  idle k ->
  exists r k', preempt prior i k = Ok r k' /\ idle k' /\ procs k' = procs k /\
    (r = 0 \/ r = 1) /\
    (r = 1 <-> exists p, (p < length (procs k))%nat /\ pid (getp k p) <> 0 /\
       (priority (getp k p) < prior \/ i = 1 /\ priority (getp k p) = prior)) /\
    (forall p, i = 1 -> (p < length (procs k))%nat -> pid (getp k p) <> 0 ->
       priority (getp k p) = prior -> r = 1).
Proof.
  intros Hi. unfold preempt. rewrite (bind_run _ _ _ _ _ (acquire_in_cs k Hi)).
  erewrite bind_run by reflexivity. cbn beta zeta.
  rewrite (bind_run _ _ _ _ _ (release_out_cs (in_cs k) ltac:(done))).
  set (better := fun p => _ && _).
  assert (Hb : existsb better (all_procs (in_cs k)) = true <->
    exists p, (p < length (procs k))%nat /\ pid (getp k p) <> 0 /\
       (priority (getp k p) < prior \/ i = 1 /\ priority (getp k p) = prior)).
  { rewrite existsb_elem_of. unfold better.
    split; intros (p & H1 & H2); exists p; rewrite all_procs_spec, procs_in_cs, getp_in_cs in *.
    - apply andb_true_iff in H2 as [H2 H3]. bool_to_prop. split_and!; [done | done |].
      destruct (i =? 1) eqn:E; bool_to_prop; lia.
    - destruct H2 as [H2 H3]. split; [done |]. apply andb_true_iff. split.
      + destruct (Z.eqb_spec i 1); [apply Z.leb_le | apply Z.ltb_lt]; lia.
      + apply negb_true_iff, Z.eqb_neq, H2. }
  eexists _, (out_cs (in_cs k)). split; [reflexivity |].
  split; [apply out_cs_idle |]. split; [by rewrite procs_out_cs, procs_in_cs |].
  destruct (existsb better (all_procs (in_cs k))).
  - split; [by right |]. split; [| done]. split; [intros _; by apply Hb | done].
  - split; [by left |]. split; [split; [done | by intros H%Hb] |].
    intros p -> Hp Hpid Hpr. assert (false = true); [| done]. apply Hb. exists p. auto.
Qed.

Lemma preempt_spec_witness :
  exists k', preempt 60 1 (family tt) = Ok 1 k' /\ procs k' = procs (family tt).
Proof.
  destruct (preempt_spec 60 1 (family tt)) as (r & k' & E & _ & Hp & _ & _ & H);
    [split; reflexivity |].
  exists k'. split; [| exact Hp]. rewrite E, (H 2%nat); [reflexivity | reflexivity | | |].
  - vm_compute. lia.
  - discriminate.
  - reflexivity.
Defined.

(** Set_priority().  It stores the new priority in the first slot with the pid
    and returns the old one; without such a slot it prints a message and returns -1,
    changing nothing. *)
Theorem set_priority_spec {X} (new_priority id : Z) (k : kstate X) :
  idle k ->
  exists k', idle k' /\
  match find_pid k id with
  | Some p => set_priority new_priority id k = Ok (priority (getp k p)) k' /\
      procs k' = alter (fun r => r <| priority := new_priority |>) p (procs k)
  | None => set_priority new_priority id k = Ok (-1) k' /\ procs k' = procs k /\
      console k' = console k ++ ["NO such pid found\n"%string]
  end.
Proof.
  intros Hi. unfold set_priority. rewrite (bind_run _ _ _ _ _ (acquire_in_cs k Hi)).
  erewrite bind_run by reflexivity. rewrite find_pid_in_cs.
  destruct (find_pid k id) as [p|].
  - erewrite bind_run by reflexivity. set (k1 := modp (in_cs k) p _).
    rewrite (bind_run _ _ _ _ _ (release_out_cs k1 ltac:(done))), getp_in_cs.
    exists (out_cs k1). split; [apply out_cs_idle |]. split; reflexivity.
  - rewrite (bind_run _ _ _ _ _ (release_out_cs (in_cs k) ltac:(done))).
    exists (cprintf (out_cs (in_cs k)) "NO such pid found\n"). split; [done |].
    split; [reflexivity |]. split; reflexivity.
Qed.

Lemma set_priority_spec_witness :
  exists k', set_priority 30 3 (family tt) = Ok 60 k' /\ priority (getp k' 2) = 30.
Proof.
  destruct (set_priority_spec 30 3 (family tt)) as (k' & _ & H); [split; reflexivity |].
  assert (E : find_pid (family tt) 3 = Some 2%nat) by (vm_compute; reflexivity).
  rewrite E in H. destruct H as [H1 H2]. exists k'. split; [rewrite H1; reflexivity |].
  unfold getp. rewrite H2. vm_compute. reflexivity.
Defined.
