(* ===== verification/Syscall.v ===== *)
(** * System calls

    syscall.c: fetching arguments from the stack of the calling process and the
    dispatch on the number in eax; sysproc.c: the system calls about processes and
    time.  The system calls of sysfile.c are behind the class [FileCalls], the memory
    of the current process behind [UserMem].

    A system call that blocks has a list [aways]: what the machine does during each
    of its sleeps.  It returns [None] when the list ends while it is asleep, and when
    the process has exited. *)

From S2P Require Import Prelude CString Printf ProcTable Spinlock Mlfq Sched Proc.

(** Bytes of the address space the CPU runs in. *)
Class UserMem (X : Type) := {
  uload : kstate X -> Z -> Z;
  ustore : Z -> Z -> kstate X -> kstate X }.

(** The system calls of sysfile.c, by number. *)
Class FileCalls (X : Type) := file_call : Z -> M (kstate X) (option Z).

Section ops.
Context {X : Type} (pol : policy) `{!Services X, !UserMem X, !FileCalls X}.
Context (forkret_addr : Z).
Implicit Types (k : kstate X).

(** ** Arguments *)

(** The int at a user address, low byte first. *)
Definition uword k (a : Z) : Z :=
  s32 (uload k a + 2 ^ 8 * uload k (u32 (a + 1)) + 2 ^ 16 * uload k (u32 (a + 2))
       + 2 ^ 24 * uload k (u32 (a + 3))).

Definition ustore_word (a w : Z) k : kstate X :=
  ustore (u32 (a + 3)) (u8 (Z.shiftr w 24))
    (ustore (u32 (a + 2)) (u8 (Z.shiftr w 16))
      (ustore (u32 (a + 1)) (u8 (Z.shiftr w 8)) (ustore a (u8 w) k))).

(** [None] is the return value -1; otherwise what is stored through the pointer. *)
Definition fetchint (addr : Z) : M (kstate X) (option Z) :=
  cur ← myproc;
  k ← gets (fun k => k);
  let sz := proc_sz (getp k cur) in
  if (sz <=? addr) || (sz <? u32 (addr + 4)) then mret None
  else mret (Some (uword k addr)).

(** [for(s = *pp; s < ep; s++) if( *s == 0) return s - *pp;] with [n] bytes to [ep]. *)
Fixpoint scan_str (n : nat) k (s len : Z) : option Z :=
  match n with
  | O => None
  | S n => if uload k s =? 0 then Some len else scan_str n k (u32 (s + 1)) (len + 1)
  end.

(** The string's address and length. *)
Definition fetchstr (addr : Z) : M (kstate X) (option (Z * Z)) :=
  cur ← myproc;
  k ← gets (fun k => k);
  let sz := proc_sz (getp k cur) in
  if sz <=? addr then mret None
  else mret (pair addr <$> scan_str (Z.to_nat (sz - addr)) k addr 0).

Definition argint (n : Z) : M (kstate X) (option Z) :=
  cur ← myproc;
  esp ← gets (fun k => tf_esp (tf (getp k cur)));
  fetchint (u32 (esp + 4 + 4 * n)).

Definition argptr (n size : Z) : M (kstate X) (option Z) :=
  cur ← myproc;
  oi ← argint n;
  match oi with
  | None => mret None
  | Some i =>
      sz ← gets (fun k => proc_sz (getp k cur));
      if (size <? 0) || (sz <=? u32 i) || (sz <? u32 (u32 i + size)) then mret None
      else mret (Some (u32 i))
  end.

Definition argstr (n : Z) : M (kstate X) (option (Z * Z)) :=
  oa ← argint n;
  match oa with
  | None => mret None
  | Some addr => fetchstr (u32 addr)
  end.

(** ** sysproc.c *)

Definition ret (z : Z) : M (kstate X) (option Z) := mret (Some z).

Definition sys_fork : M (kstate X) (option Z) := v ← fork pol forkret_addr; ret v.

(** exit() up to the switch to the scheduler, from which it does not come back. *)
Definition sys_exit : M (kstate X) (option Z) := exit_enter pol;; sched_checks;; mret None.

Definition sys_wait (aways : list (kstate X -> kstate X)) : M (kstate X) (option Z) := wait aways.

Definition sys_kill : M (kstate X) (option Z) :=
  o ← argint 0;
  match o with None => ret (-1) | Some pid => v ← kill pol pid; ret v end.

Definition sys_getpid : M (kstate X) (option Z) :=
  cur ← myproc;
  v ← gets (fun k => pid (getp k cur));
  ret v.

Definition sys_sbrk : M (kstate X) (option Z) :=
  o ← argint 0;
  match o with
  | None => ret (-1)
  | Some n =>
      cur ← myproc;
      addr ← gets (fun k => s32 (proc_sz (getp k cur)));
      v ← growproc n;
      if v <? 0 then ret (-1) else ret addr
  end.

(** [while(ticks - ticks0 < n)]: unsigned, since ticks is. *)
Fixpoint sleep_loop (n ticks0 : Z) (aways : list (kstate X -> kstate X)) :
    M (kstate X) (option Z) :=
  now ← gets ticks;
  if u32 (now - ticks0) <? u32 n then
    cur ← myproc;
    dead ← gets (fun k => killed (getp k cur));
    if negb (dead =? 0) then release LkTicks;; ret (-1)
    else
      match aways with
      | [] => mret None
      | away :: aways =>
          sleep away (Some ChTicks) (Some LkTicks);;
          sleep_loop n ticks0 aways
      end
  else release LkTicks;; ret 0.

Definition sys_sleep (aways : list (kstate X -> kstate X)) : M (kstate X) (option Z) :=
  o ← argint 0;
  match o with
  | None => ret (-1)
  | Some n =>
      acquire LkTicks;;
      ticks0 ← gets ticks;
      sleep_loop n ticks0 aways
  end.

Definition sys_uptime : M (kstate X) (option Z) :=
  acquire LkTicks;;
  xticks ← gets ticks;
  release LkTicks;;
  ret (s32 xticks).

(** [waitx(wtime, rtime)] stores both numbers through the checked pointers. *)
Definition sys_waitx (aways : list (kstate X -> kstate X)) : M (kstate X) (option Z) :=
  ow ← argptr 0 4;
  match ow with
  | None => ret (-1)
  | Some wtime =>
      orr ← argptr 1 4;
      match orr with
      | None => ret (-1)
      | Some rtime =>
          r ← waitx aways;
          match r with
          | Some (id, Some (w, r)) =>
              modify (ustore_word rtime r);;
              modify (ustore_word wtime w);;
              ret id
          | Some (id, None) => ret id
          | None => mret None
          end
      end
  end.

Definition sys_set_priority : M (kstate X) (option Z) :=
  o1 ← argint 0;
  match o1 with
  | None => ret (-1)
  | Some new_priority =>
      o2 ← argint 1;
      match o2 with
      | None => ret (-1)
      | Some id => v ← set_priority new_priority id; ret v
      end
  end.

Definition sys_showps : M (kstate X) (option Z) := v ← showps; ret v.

(** ** The dispatch *)

(** [syscalls[num]]; the numbers of syscall.h. *)
Definition syscalls (aways : list (kstate X -> kstate X)) (num : Z) :
    option (M (kstate X) (option Z)) :=
  match num with
  | 1 => Some sys_fork
  | 2 => Some sys_exit
  | 3 => Some (sys_wait aways)
  | 6 => Some sys_kill
  | 11 => Some sys_getpid
  | 12 => Some sys_sbrk
  | 13 => Some (sys_sleep aways)
  | 14 => Some sys_uptime
  | 22 => Some (sys_waitx aways)
  | 23 => Some sys_set_priority
  | 24 => Some sys_showps
  | _ => if (1 <=? num) && (num <=? 21) then Some (file_call num) else None
  end.

(** [true] when the call has returned to the process. *)
Definition syscall (aways : list (kstate X -> kstate X)) : M (kstate X) bool :=
  cur ← myproc;
  num ← gets (fun k => s32 (tf_eax (tf (getp k cur))));
  let set_eax v := upd_proc cur (fun r => r <| tf := (tf r) <| tf_eax := u32 v |> |>) in
  match (if 0 <? num then syscalls aways num else None) with
  | Some call =>
      r ← call;
      match r with
      | Some v => set_eax v;; mret true
      | None => mret false
      end
  | None =>
      r ← gets (fun k => getp k cur);
      printk "%d %s: unknown sys call %d\n"
        [AInt (pid r); AStr (Some (cstring (name r))); AInt num];;
      set_eax (-1);;
      mret true
  end.
End ops.

(** ** What the checks guarantee *)

Section facts.
Context {X : Type} `{!UserMem X}.
Implicit Types (k : kstate X).

Lemma myproc_ok k cur : cpu_proc k = Some cur -> myproc k = Ok cur k.
Proof. intros E. unfold myproc. by rewrite E. Qed.

(** The word an argument is read from lies inside the process. *)
Lemma fetchint_ok k cur addr :
  cpu_proc k = Some cur -> 0 <= proc_sz (getp k cur) <= KERNBASE -> is_u32 addr ->
  fetchint addr k
  = Ok (if decide (addr + 4 <= proc_sz (getp k cur)) then Some (uword k addr) else None) k.
Proof.
  intros Hc Hsz Ha. unfold fetchint. rewrite (bind_run _ _ _ _ _ (myproc_ok k cur Hc)).
  erewrite bind_run by reflexivity. cbn zeta. unfold is_u32 in Ha. case_test; case_decide; try done.
  - destruct E as [E|E]; bool_to_prop; [lia |]. rewrite u32_small in E; unfold is_u32; lia.
  - bool_to_prop. rewrite u32_small in *; unfold is_u32; lia.
Qed.

Lemma argint_ok k cur n :
  cpu_proc k = Some cur -> 0 <= proc_sz (getp k cur) <= KERNBASE ->
  let a := u32 (tf_esp (tf (getp k cur)) + 4 + 4 * n) in
  argint n k = Ok (if decide (a + 4 <= proc_sz (getp k cur)) then Some (uword k a) else None) k.
Proof.
  intros Hc Hsz a. unfold argint. rewrite (bind_run _ _ _ _ _ (myproc_ok k cur Hc)).
  erewrite bind_run by reflexivity. apply fetchint_ok; [done | done | apply u32_range].
Qed.

Lemma scan_str_ok k n s len l :
  0 <= s -> s + Z.of_nat n <= 2 ^ 32 -> scan_str n k s len = Some l ->
  len <= l < len + Z.of_nat n /\ uload k (s + (l - len)) = 0 /\
  forall i, 0 <= i < l - len -> uload k (s + i) <> 0.
Proof.
  revert s len. induction n as [|n IH]; intros s len Hs Hn E; [done |].
  cbn [scan_str] in E. destruct (uload k s =? 0) eqn:E0; bool_to_prop.
  - injection E as <-. rewrite Z.sub_diag, Z.add_0_r. split_and!; [lia.. | done |].
    intros i Hi. lia.
  - destruct n as [|n]; [done |]. rewrite u32_succ in E by lia.
    destruct (IH (s + 1) (len + 1)) as (H1 & H2 & H3); [lia | lia | done |].
    split_and!; [lia.. | |].
    + rewrite <- H2. f_equal. lia.
    + intros i Hi. destruct (decide (i = 0)) as [->|Hne]; [by rewrite Z.add_0_r |].
      replace (s + i) with (s + 1 + (i - 1)) by lia. apply H3. lia.
Qed.
End facts.

(** C37: system call arguments stay inside the process.  For a process whose size is
    at most KERNBASE, fetching an argument never panics and changes nothing; an int
    is read only when its four bytes lie below the size; a pointer to a block is
    accepted only when the whole block does (no wrap-around slips through); a string
    is accepted only when it is terminated below the size, and its length is that of
    the C string. *)
Theorem syscall_args_in_bounds {X} `{!UserMem X} (k : kstate X) (cur : nat) (n : Z) :
  cpu_proc k = Some cur -> 0 <= proc_sz (getp k cur) <= KERNBASE ->
  let sz := proc_sz (getp k cur) in
  let a := u32 (tf_esp (tf (getp k cur)) + 4 + 4 * n) in
  (exists o, argint n k = Ok o k /\ (is_Some o <-> a + 4 <= sz)) /\
  (forall size, is_s32 size -> exists o, argptr n size k = Ok o k /\
     forall p, o = Some p -> 0 <= size /\ 0 <= p /\ p + size <= sz) /\
  (exists o, argstr n k = Ok o k /\
     forall p len, o = Some (p, len) -> 0 <= p /\ 0 <= len /\ p + len < sz /\
       uload k (p + len) = 0 /\ forall i, 0 <= i < len -> uload k (p + i) <> 0).
Proof.
  intros Hc Hsz sz a. pose proof (argint_ok k cur n Hc Hsz) as Hi. fold a sz in Hi.
  split_and!.
  - eexists. split; [exact Hi |]. case_decide; split; intros H1; try done; lia || by destruct H1.
  - intros size Hsize. unfold argptr. rewrite (bind_run _ _ _ _ _ (myproc_ok k cur Hc)).
    rewrite (bind_run _ _ _ _ _ Hi). case_decide; [| by eexists].
    erewrite bind_run by reflexivity. fold sz. pose proof (u32_range (uword k a)) as Hr.
    case_test; eexists; (split; [reflexivity |]); [done |]. intros p [= <-].
    unfold is_u32, is_s32 in *.
    rewrite (u32_small (u32 (uword k a) + size)) in * by (unfold is_u32; lia). lia.
  - unfold argstr. rewrite (bind_run _ _ _ _ _ Hi). case_decide; [| by eexists].
    unfold fetchstr. rewrite (bind_run _ _ _ _ _ (myproc_ok k cur Hc)).
    erewrite bind_run by reflexivity. fold sz. cbn zeta.
    pose proof (u32_range (uword k a)) as Hr. unfold is_u32 in Hr.
    case_test; eexists; (split; [reflexivity |]); [done |]. intros p len E'.
    destruct (scan_str _ _ _ _) as [l|] eqn:Es; [| done]. injection E' as <- <-.
    apply scan_str_ok in Es as (H1 & H2 & H3); [| lia..]. rewrite Z.sub_0_r in *.
    split_and!; [lia.. | done | done].
Qed.

(** A machine whose only other component is the memory of one process. *)
#[export] Instance flat_memory : UserMem memory := {
  uload k a := rest k a;
  ustore a b k := k <| rest := store (rest k) a b |> }.

(** Process 0 of 4096 bytes, in a system call with its stack pointer at 4000; its
    arguments are 16 and 4000, and the string at 16 is "sh". *)
Definition calling : kstate memory :=
  (modp (boot_state None (write (write (fun _ => 0) 4004 [16; 0; 0; 0; 160; 15; 0; 0]) 16
                                [115; 104; 0])) 0
        (fun r => r <| proc_sz := 4096 |> <| state := RUNNING |>
                    <| tf := (tf r) <| tf_esp := 4000 |> |>)) <| cpu_proc := Some 0%nat |>.

Lemma syscall_args_in_bounds_witness :
  argint 0 calling = Ok (Some 16) calling /\ argstr 0 calling = Ok (Some (16, 2)) calling /\
  argptr 1 96 calling = Ok (Some 4000) calling /\ argptr 1 97 calling = Ok None calling.
Proof.
  assert (Hc : cpu_proc calling = Some 0%nat) by reflexivity.
  assert (Hsz : proc_sz (getp calling 0) = 4096) by (vm_compute; reflexivity).
  destruct (syscall_args_in_bounds calling 0 0 Hc) as ((o & E & _) & _ & (os & Es & _));
    [rewrite Hsz; lia |].
  destruct (syscall_args_in_bounds calling 0 1 Hc) as (_ & H & _); [rewrite Hsz; lia |].
  destruct (H 96) as (o1 & E1 & _); [unfold is_s32; lia |].
  destruct (H 97) as (o2 & E2 & _); [unfold is_s32; lia |].
  assert (Hget : forall {A} (m : M (kstate memory) A) a b,
    m calling = Ok a calling ->
    match m calling with Ok x _ => Some x | Panic _ => None end = Some b ->
    m calling = Ok b calling) by (intros A m x b -> [= ->]; reflexivity).
  split; [| split; [| split]]; (eapply Hget; [eassumption | vm_compute; reflexivity]).
Defined.

Lemma release_ticks {X} lk (k k' : kstate X) : release lk k = Ok tt k' -> ticks k' = ticks k.
Proof.
  unfold release. case_test; [done |]. cbn zeta.
  destruct (popcli _) as [c|msg]; [| done]. by intros [= <-].
Qed.

Lemma sleep_loop_elapsed {X} (n t0 : Z) aways (k k' : kstate X) :
  sleep_loop n t0 aways k = Ok (Some 0) k' -> u32 n <= u32 (ticks k' - t0).
Proof.
  revert k. induction aways as [|away aways IH]; intros k E; cbn [sleep_loop] in E;
    apply bind_Ok in E as (now & k1 & [= <- <-] & E).
  all: destruct (u32 (ticks k - t0) <? u32 n) eqn:Et.
  all: try (apply bind_Ok in E as ([] & k2 & E2 & [= <-]);
            rewrite (release_ticks _ _ _ E2); bool_to_prop; lia).
  all: apply bind_Ok in E as (cur & k2 & E2 & E);
       apply bind_Ok in E as (dead & k3 & E3 & E); destruct (negb (dead =? 0));
       [by apply bind_Ok in E as ([] & k4 & E4 & [=]) |].
  - done.
  - apply bind_Ok in E as ([] & k4 & _ & E). by eapply IH.
Qed.

(** Sleep(n).  The call returns 0 only when at least [n] clock ticks have passed
    since it was made, whatever wakes the process in between; with [n = 0] it
    returns at once.  A negative [n] counts as an unsigned number: the process goes
    to sleep for at least 2^31 ticks. *)
Theorem sys_sleep_spec {X} `{!UserMem X} (k : kstate X) (cur : nat) (n : Z)
    (aways : list (kstate X -> kstate X)) :
  wf_locks k -> LkTicks ∉ held k -> cpu_proc k = Some cur -> is_s32 n ->
  argint 0 k = Ok (Some n) k ->
  (forall k', sys_sleep aways k = Ok (Some 0) k' ->
     u32 n <= u32 (ticks k' - ticks k) /\ (n < 0 -> 2 ^ 31 <= u32 (ticks k' - ticks k))) /\
  (n = 0 -> exists k', sys_sleep aways k = Ok (Some 0) k' /\ ticks k' = ticks k /\ wf_locks k') /\
  (n <> 0 -> killed (getp k cur) = 0 ->
     sys_sleep [] k = Ok None (enter LkTicks k)).
Proof.
  intros Hwf Hlk Hc Hn Harg. unfold sys_sleep. rewrite !(bind_run _ _ _ _ _ Harg).
  rewrite !(bind_run _ _ _ _ _ (acquire_ok LkTicks k Hlk)).
  assert (Hneg : n < 0 -> u32 n = n + 2 ^ 32).
  { intros H. unfold u32, is_s32 in *. symmetry. apply (Z.mod_unique_pos _ _ (-1)); lia. }
  split_and!.
  - intros k' E. erewrite bind_run in E by reflexivity. apply sleep_loop_elapsed in E.
    change (ticks (enter LkTicks k)) with (ticks k) in E. split; [exact E |].
    intros H. rewrite Hneg in E by done. unfold is_s32 in Hn. lia.
  - intros ->. erewrite bind_run by reflexivity.
    destruct (release_enter LkTicks k (enter LkTicks k)) as (i & Hr & Hw); [done.. |].
    exists (unlocked i k (enter LkTicks k)). split; [| done].
    assert (Hz : (u32 (ticks (enter LkTicks k) - ticks (enter LkTicks k)) <? u32 0) = false)
      by (by rewrite Z.sub_diag).
    destruct aways; cbn [sleep_loop]; erewrite bind_run by reflexivity; rewrite Hz;
      by rewrite (bind_run _ _ _ _ _ Hr).
  - intros Hne Hk. erewrite bind_run by reflexivity. cbn [sleep_loop].
    erewrite bind_run by reflexivity. rewrite Z.sub_diag.
    assert (Hlt : (u32 0 <? u32 n) = true).
    { apply Z.ltb_lt. change (u32 0) with 0. destruct (decide (n < 0)); [rewrite Hneg by done |];
        unfold is_s32 in *; [lia | rewrite u32_small; unfold is_u32; lia]. }
    rewrite Hlt. rewrite (bind_run _ _ _ _ _ (myproc_ok (enter LkTicks k) cur Hc)).
    erewrite bind_run by reflexivity. change (getp (enter LkTicks k) cur) with (getp k cur).
    by rewrite Hk.
Qed.

Lemma sys_sleep_spec_witness : sys_sleep [] calling = Ok None (enter LkTicks calling).
Proof.
  assert (Harg : argint 0 calling = Ok (Some 16) calling) by (vm_compute; reflexivity).
  destruct (sys_sleep_spec calling 0 16 []) as (_ & _ & H).
  - split; [constructor |]. split; [reflexivity |]. split; cbn; lia.
  - cbn. apply not_elem_of_nil.
  - reflexivity.
  - unfold is_s32. lia.
  - exact Harg.
  - apply H; [lia | vm_compute; reflexivity].
Defined.
