(* ===== verification/Trap.v ===== *)
(** * Traps and interrupts

    trap() of trap.c: system calls, the clock interrupt with the accounting of a
    tick, the other device interrupts, faults, and the decision of each scheduling
    policy whether the running process gives up the CPU.  The drivers' handlers are
    behind the class [Drivers]; [cpu] is the number of the CPU (cpuid()). *)

From S2P Require Import Prelude CString Printf ProcTable Spinlock Mlfq MlfqInv Sched.
From S2P Require Import Proc ProcSpec Syscall.

(** Handlers of ide.c, kbd.c and uart.c. *)
Class Drivers (X : Type) := {
  ideintr : M (kstate X) unit;
  kbdintr : M (kstate X) unit;
  uartintr : M (kstate X) unit }.

(** traps.h *)
Abbreviation T_SYSCALL := 64 (only parsing).
Abbreviation T_IRQ0 := 32 (only parsing).
Abbreviation IRQ_TIMER := 0 (only parsing).
Abbreviation IRQ_KBD := 1 (only parsing).
Abbreviation IRQ_COM1 := 4 (only parsing).
Abbreviation IRQ_IDE := 14 (only parsing).
Abbreviation IRQ_SPURIOUS := 31 (only parsing).

Section ops.
Context {X : Type} (pol : policy) (cpu cr2 : Z).
Context `{!Services X, !UserMem X, !FileCalls X, !Drivers X} (forkret_addr : Z).
Implicit Types (k : kstate X) (t : trapframe).

(** How a trap ends: back to the interrupted code, or never. *)
Inductive trap_end := Resumes | Gone.

(** exit() from inside trap(). *)
Definition die : M (kstate X) trap_end := exit_enter pol;; sched_checks;; mret Gone.

Definition timer : M (kstate X) unit :=
  if cpu =? 0 then
    acquire LkTicks;;
    modify (fun k => k <| ticks := u32 (ticks k + 1) |>);;
    change_ticks pol;;
    wakeup pol (Some ChTicks);;
    release LkTicks
  else mret tt.

(** The default case: a fault. *)
Definition fault t : M (kstate X) unit :=
  op ← gets cpu_proc;
  match op with
  | Some p =>
      if Z.land (tf_cs t) 3 =? 0 then panic "trap"
      else
        r ← gets (fun k => getp k p);
        printk "pid %d %s: trap %d err %d on cpu %d eip 0x%x addr 0x%x--kill proc\n"
          [AInt (pid r); AStr (Some (cstring (name r))); AInt (tf_trapno t);
           AInt (tf_err t); AInt cpu; AInt (tf_eip t); AInt cr2];;
        upd_proc p (fun r => r <| killed := 1 |>)
  | None => panic "trap"
  end.

(** The switch over [tf->trapno]; lapiceoi only talks to the interrupt controller. *)
Definition interrupt t : M (kstate X) unit :=
  let n := tf_trapno t in
  if n =? T_IRQ0 + IRQ_TIMER then timer
  else if n =? T_IRQ0 + IRQ_IDE then ideintr
  else if n =? T_IRQ0 + IRQ_IDE + 1 then mret tt
  else if n =? T_IRQ0 + IRQ_KBD then kbdintr
  else if n =? T_IRQ0 + IRQ_COM1 then uartintr
  else if (n =? T_IRQ0 + 7) || (n =? T_IRQ0 + IRQ_SPURIOUS) then
    printk "cpu%d: spurious interrupt at %x:%x\n" [AInt cpu; AInt (tf_cs t); AInt (tf_eip t)]
  else fault t.

(** [myproc() && myproc()->killed && (tf->cs&3) == DPL_USER] *)
Definition must_exit t k : bool :=
  match cpu_proc k with
  | Some p => negb (killed (getp k p) =? 0) && (Z.land (tf_cs t) 3 =? DPL_USER)
  | None => false
  end.

(** Does the running process give up the CPU?  One case per build; FCFS has none. *)
Definition must_yield t : M (kstate X) bool :=
  op ← gets cpu_proc;
  k ← gets (fun k => k);
  match op with
  | Some p =>
      let tick := tf_trapno t =? T_IRQ0 + IRQ_TIMER in
      if negb (is_state k p RUNNING) then mret false
      else
        match pol with
        | ROUND_ROBIN => mret tick
        | FCFS => mret false
        | PBS =>
            r ← preempt (priority (getp k p)) (if tick then 1 else 0);
            mret (negb (r =? 0))
        | MLFQ =>
            if tick && (zget (slices k) (qn (getp k p)) <=? curtime (getp k p)) then
              upd_proc p (fun r => r <| flagq := 1 |>);; mret true
            else mret false
        end
  | None => mret false
  end.

(** [away] is what the machine does while the process is off the CPU, [aways] the
    sleeps of a system call. *)
Definition trap (away : kstate X -> kstate X) (aways : list (kstate X -> kstate X)) t :
    M (kstate X) trap_end :=
  if tf_trapno t =? T_SYSCALL then
    cur ← myproc;
    dead ← gets (fun k => killed (getp k cur));
    if negb (dead =? 0) then die
    else
      upd_proc cur (fun r => r <| tf := t |>);;
      back ← syscall pol forkret_addr aways;
      if negb back then mret Gone
      else
        cur ← myproc;
        dead ← gets (fun k => killed (getp k cur));
        if negb (dead =? 0) then die else mret Resumes
  else
    interrupt t;;
    x ← gets (must_exit t);
    if (x : bool) then die
    else
      y ← must_yield t;
      (if (y : bool) then yield pol away else mret tt);;
      x ← gets (must_exit t);
      if negb (bool_decide (pol = FCFS)) && x then die else mret Resumes.

(** [n] interrupts, one after the other. *)
Fixpoint interrupts (n : nat) (away : kstate X -> kstate X) t : M (kstate X) unit :=
  match n with
  | O => mret tt
  | S n => trap away [] t;; interrupts n away t
  end.
End ops.

(** ** The clock interrupt *)

Section timer.
Context {X : Type} (pol : policy).
Implicit Types (k : kstate X) (p q : nat).

(** A critical section inside another one restores the CPU exactly. *)
Lemma nested_section lk (f : kstate X -> kstate X) k :
  0 < ncli k -> fl_if k = false -> lk ∉ held k ->
  (forall k, same_cpu k (f k)) ->
  (acquire lk;; modify f;; release lk) k
  = Ok tt (unlocked (intena k) k (f (enter lk k))).
Proof.
  intros Hn Hf Hlk Hcpu. rewrite (bind_run _ _ _ _ _ (acquire_ok lk k Hlk)).
  erewrite bind_run by reflexivity.
  destruct (Hcpu (enter lk k)) as (E1 & E2 & E3 & E4).
  set (k' := f (enter lk k)) in *. clearbody k'. unfold release, holding.
  assert (Hh : held k' = lk :: held k) by (by rewrite E1).
  rewrite Hh, bool_decide_eq_true_2 by (by left). cbn [negb].
  rewrite filter_head_ne by done.
  assert (Hi : intr_of (k' <| held := held k |>) = pushcli (intr_of k)).
  { unfold intr_of at 1. cbn [ncli intena fl_if upd]. rewrite E2, E3, E4.
    cbn -[pushcli intr_of]. by destruct (pushcli (intr_of k)). }
  cbn zeta. rewrite Hi, push_pop_locked by done. reflexivity.
Qed.

(** Everything but the fields of the CPU that locks use. *)
Record same_mem k k' : Prop := {
  sm_procs : procs k' = procs k;
  sm_queues : same_queues k k';
  sm_ticks : ticks k' = ticks k;
  sm_slices : slices k' = slices k;
  sm_cpu : cpu_proc k' = cpu_proc k }.

Lemma same_mem_enter lk k : same_mem k (enter lk k).
Proof. constructor; [done | by split_and! | done..]. Qed.

Lemma same_mem_unlocked i k k' : same_mem k' (unlocked i k k').
Proof. constructor; [done | by split_and! | done..]. Qed.

Lemma same_mem_getp k k' p : same_mem k k' -> getp k' p = getp k p.
Proof. intros H. unfold getp. by rewrite (sm_procs _ _ H). Qed.

Lemma same_mem_own k k' : same_mem k k' -> queues_own k -> queues_own k'.
Proof. intros H. apply queues_own_eq; apply H. Qed.

Lemma same_mem_qn k k' : same_mem k k' -> qn_range k -> qn_range k'.
Proof. intros H Hq p. rewrite (same_mem_getp _ _ _ H). apply Hq. Qed.

(** The same with the states of the section left abstract. *)
Lemma nested_section_mem lk (f : kstate X -> kstate X) k :
  0 < ncli k -> fl_if k = false -> lk ∉ held k ->
  (forall k, glob (f k) = glob k) ->
  exists e k', (acquire lk;; modify f;; release lk) k = Ok tt k' /\
    same_mem k e /\ same_mem (f e) k' /\ same_cpu k k'.
Proof.
  intros Hn Hf Hlk Hg. exists (enter lk k), (unlocked (intena k) k (f (enter lk k))).
  split_and!; [| apply same_mem_enter | apply same_mem_unlocked | done..].
  apply nested_section; [done.. |]. intros k'. apply glob_cpu, Hg.
Qed.

Lemma section_mem lk k k' :
  wf_locks k -> lk ∉ held k -> same_cpu (enter lk k) k' ->
  exists k1, release lk k' = Ok tt k1 /\ same_mem k' k1 /\
    held k1 = held k /\ ncli k1 = ncli k /\ fl_if k1 = fl_if k.
Proof.
  intros Hwf Hlk Hc. destruct (release_enter lk k k' Hwf Hlk Hc) as (i & E & _).
  exists (unlocked i k k'). split_and!; [done | apply same_mem_unlocked | done..].
Qed.

Lemma glob_fields k k' :
  glob k' = glob k -> ticks k' = ticks k /\ slices k' = slices k /\ cpu_proc k' = cpu_proc k.
Proof.
  intros E. split_and!;
    [exact (f_equal ticks E) | exact (f_equal slices E) | exact (f_equal cpu_proc E)].
Qed.

Lemma wf_locks_idle k : idle k -> wf_locks k.
Proof.
  intros [Hh Hn]. split_and!; rewrite ?Hh; [constructor | done |].
  split; cbn; [lia | intros; lia].
Qed.

(** A RUNNING process does not see the wakeups. *)
Lemma wakeup1_awake c k p :
  state (getp k p) <> SLEEPING -> getp (wakeup1 pol c k) p = getp k p.
Proof.
  intros Hst. unfold wakeup1. destruct (decide (p < length (procs k))%nat) as [Hp|Hp].
  - destruct (fold_local_visit (wake_one pol c) (all_procs k) k p (wake_one_local pol c)
                (all_procs_NoDup k)) as (k' & E1 & E2 & ->); [by apply all_procs_spec |].
    unfold wake_one, is_state. rewrite bool_decide_eq_false_2 by congruence. done.
  - apply fold_local_other; [apply wake_one_local |]. by rewrite all_procs_spec.
Qed.

Lemma tick_proc_keeps r :
  qn (tick_proc pol r) = qn r /\ state (tick_proc pol r) = state r /\
  killed (tick_proc pol r) = killed r.
Proof. unfold tick_proc. repeat case_test; done. Qed.

Lemma tick_all_own k :
  queues_own k -> qn_range k -> queues_own (tick_all pol k) /\ qn_range (tick_all pol k).
Proof.
  intros Hown Hqn. split.
  - unfold tick_all. apply fold_left_inv; [done |]. intros k' p _ H. apply modp_own; [done |].
    intros _ r. by destruct (tick_proc_keeps r) as (? & ? & _).
  - intros p. destruct (decide (p < length (procs k))%nat) as [Hp|Hp].
    + rewrite tick_all_getp by done. destruct (tick_proc_keeps (getp k p)) as (-> & _). apply Hqn.
    + rewrite getp_beyond; [done |]. rewrite tick_all_length. lia.
Qed.

(** The state after a clock interrupt on CPU 0. *)
Record ticked k k' : Prop := {
  ti_idle : idle k';
  ti_ticks : ticks k' = u32 (ticks k + 1);
  ti_cpu : cpu_proc k' = cpu_proc k;
  ti_slices : slices k' = slices k;
  ti_length : length (procs k') = length (procs k);
  ti_running p : state (getp k p) = RUNNING -> (p < length (procs k))%nat ->
    getp k' p = tick_proc pol (getp k p);
  ti_sleepers p : (p < length (procs k))%nat -> state (getp k p) = SLEEPING ->
    chan (getp k p) = Some ChTicks -> state (getp k' p) = RUNNABLE;
  ti_own : queues_own k -> qn_range k -> queues_own k' /\ qn_range k' }.

Lemma ticked_intro k k1 e2 k3 e3 k4 :
  same_mem k k1 ->
  same_mem (k1 <| ticks := u32 (ticks k1 + 1) |>) e2 -> same_mem (tick_all pol e2) k3 ->
  same_mem k3 e3 -> same_mem (wakeup1 pol (Some ChTicks) e3) k4 -> idle k4 ->
  ticked k k4.
Proof.
  intros S1 S2 S3 S4 S5 Hi. set (k2 := k1 <| ticks := _ |>) in S2.
  assert (Hg2 : forall p, getp e2 p = getp k p).
  { intros p. rewrite (same_mem_getp _ _ _ S2). exact (same_mem_getp _ _ p S1). }
  assert (Hl2 : length (procs e2) = length (procs k)).
  { rewrite (sm_procs _ _ S2). exact (f_equal length (sm_procs _ _ S1)). }
  assert (Hl3 : length (procs e3) = length (procs k)).
  { by rewrite (sm_procs _ _ S4), (sm_procs _ _ S3), tick_all_length. }
  assert (Hg3 : forall p, (p < length (procs k))%nat -> getp e3 p = tick_proc pol (getp k p)).
  { intros p Hp. rewrite (same_mem_getp _ _ _ S4), (same_mem_getp _ _ _ S3).
    rewrite tick_all_getp, Hg2; [done | by rewrite Hl2]. }
  destruct (glob_fields _ _ (tick_all_glob pol e2)) as (T1 & T2 & T3).
  destruct (glob_fields _ _ (glob_wakeup1 pol (Some ChTicks) e3)) as (W1 & W2 & W3).
  constructor.
  - done.
  - rewrite (sm_ticks _ _ S5), W1, (sm_ticks _ _ S4), (sm_ticks _ _ S3), T1, (sm_ticks _ _ S2).
    unfold k2. cbn. by rewrite (sm_ticks _ _ S1).
  - rewrite (sm_cpu _ _ S5), W3, (sm_cpu _ _ S4), (sm_cpu _ _ S3), T3, (sm_cpu _ _ S2).
    exact (sm_cpu _ _ S1).
  - rewrite (sm_slices _ _ S5), W2, (sm_slices _ _ S4), (sm_slices _ _ S3), T2, (sm_slices _ _ S2).
    exact (sm_slices _ _ S1).
  - by rewrite (sm_procs _ _ S5), length_wakeup1.
  - intros p Hst Hp. rewrite (same_mem_getp _ _ _ S5), wakeup1_awake; rewrite Hg3 by done; [done |].
    destruct (tick_proc_keeps (getp k p)) as (_ & -> & _). congruence.
  - intros p Hp Hst Hch. rewrite (same_mem_getp _ _ _ S5), wakeup1_state, Hg3 by done.
    unfold woken. destruct (tick_proc_keeps (getp k p)) as (_ & -> & _).
    assert (chan (tick_proc pol (getp k p)) = chan (getp k p)) as ->
      by (unfold tick_proc; repeat case_test; done).
    by rewrite !bool_decide_eq_true_2.
  - intros Hown Hqn.
    assert (Ho2 : queues_own k2).
    { apply (queues_own_eq k1); [done | by split_and! | by apply (same_mem_own k)]. }
    destruct (tick_all_own e2) as [Ho3 Hq3];
      [by apply (same_mem_own k2) | intros p; rewrite Hg2; apply Hqn |].
    destruct (wakeup1_own pol (Some ChTicks) e3) as [Ho4 Hq4];
      [by do 2 (eapply same_mem_own; [done |]) | by do 2 (eapply same_mem_qn; [done |]) |].
    split; [by eapply same_mem_own | by eapply same_mem_qn].
Qed.

Lemma timer_ok k : idle k -> exists k', timer pol 0 k = Ok tt k' /\ ticked k k'.
Proof.
  intros Hi. pose proof (wf_locks_idle k Hi) as Hwf. destruct Hi as [Hh Hn].
  unfold timer. cbn [Z.eqb].
  assert (Hlk : LkTicks ∉ held k) by (rewrite Hh; apply not_elem_of_nil).
  rewrite (bind_run _ _ _ _ _ (acquire_ok LkTicks k Hlk)).
  pose proof (same_mem_enter LkTicks k) as S1.
  assert (C1 : held (enter LkTicks k) = [LkTicks] /\ ncli (enter LkTicks k) = 1 /\
               fl_if (enter LkTicks k) = false).
  { unfold enter, set_intr, pushcli, intr_of. cbn. rewrite Hh, Hn. done. }
  remember (enter LkTicks k) as k1 eqn:Ek1. destruct C1 as (H1 & N1 & F1).
  erewrite bind_run by reflexivity. set (k2 := k1 <| ticks := _ |>).
  destruct (nested_section_mem LkPtable (tick_all pol) k2) as (e2 & k3 & E3 & S2 & S3 & C3);
    [change (ncli k2) with (ncli k1); lia | exact F1 | change (held k2) with (held k1);
     rewrite H1; by rewrite list_elem_of_singleton | intros; apply tick_all_glob |].
  unfold change_ticks. rewrite (bind_run _ _ _ _ _ E3).
  assert (C3' : same_cpu k1 k3) by exact C3. destruct C3' as (Hh3 & Hn3 & Hi3 & Hf3).
  destruct (nested_section_mem LkPtable (wakeup1 pol (Some ChTicks)) k3)
    as (e3 & k4 & E4 & S4 & S5 & C4);
    [lia | congruence | rewrite Hh3, H1; by rewrite list_elem_of_singleton
     | intros; apply glob_wakeup1 |].
  unfold wakeup. rewrite (bind_run _ _ _ _ _ E4).
  destruct (section_mem LkTicks k k4) as (k5 & E5 & S6 & Hh5 & Hn5 & _); [done | done | |].
  { rewrite <- Ek1. destruct C4 as (? & ? & ? & ?). split_and!; congruence. }
  exists k5. split; [exact E5 |].
  assert (Hi5 : idle k5) by (split; congruence).
  assert (S7 : same_mem (wakeup1 pol (Some ChTicks) e3) k5).
  { destruct S5 as [P1 Q1 T1 L1 U1], S6 as [P2 Q2 T2 L2 U2]. constructor; try congruence.
    destruct Q1 as (?&?&?&?&?), Q2 as (?&?&?&?&?). split_and!; congruence. }
  by apply (ticked_intro k k1 e2 k3 e3).
Qed.
End timer.

(** ** The time slice of the MLFQ build *)

Section slice.
Context {X : Type} `{!Services X, !UserMem X, !FileCalls X, !Drivers X} (cr2 : Z).
Implicit Types (k : kstate X) (p : nat) (t : trapframe).

(** Process [p] is on the CPU, in user mode, not killed. *)
Record computing p k : Prop := {
  co_idle : idle k;
  co_cpu : cpu_proc k = Some p;
  co_slot : (p < length (procs k))%nat;
  co_running : state (getp k p) = RUNNING;
  co_alive : killed (getp k p) = 0;
  co_slices : slices k = [1; 2; 4; 8; 16];
  co_qn : 0 <= qn (getp k p) < 5 }.

Definition slice (q : Z) : Z := zget [1; 2; 4; 8; 16] q.

Lemma tick_running r :
  state r = RUNNING ->
  tick_proc MLFQ r = r <| runtime := s32 (runtime r + 1) |> <| curtime := s32 (curtime r + 1) |>
                       <| qnt := zupd (qnt r) (qn r) (s32 (zget (qnt r) (qn r) + 1)) |>.
Proof.
  intros H. unfold tick_proc. rewrite bool_decide_eq_false_2 by (by intros ?). by destruct r.
Qed.

Lemma computing_tick p k k' : computing p k -> ticked MLFQ k k' -> computing p k'.
Proof.
  intros [Hi Hc Hs Hr Ha Hsl Hq] T. pose proof (ti_running _ _ _ T p Hr Hs) as E.
  destruct (tick_proc_keeps MLFQ (getp k p)) as (E1 & E2 & E3). constructor.
  - apply T.
  - by rewrite (ti_cpu _ _ _ T).
  - by rewrite (ti_length _ _ _ T).
  - by rewrite E, E2.
  - by rewrite E, E3.
  - by rewrite (ti_slices _ _ _ T).
  - by rewrite E, E1.
Qed.

(** The decision after a tick. *)
Lemma must_yield_ok p k t :
  computing p k -> tf_trapno t = 32 ->
  must_yield MLFQ t k =
  if slice (qn (getp k p)) <=? curtime (getp k p)
  then Ok true (modp k p (fun r => r <| flagq := 1 |>)) else Ok false k.
Proof.
  intros C Ht. unfold must_yield. erewrite bind_run by reflexivity.
  erewrite bind_run by reflexivity. rewrite (co_cpu _ _ C), Ht.
  rewrite (proj2 (is_state_spec k p RUNNING) (co_running _ _ C)). cbn [negb andb].
  rewrite (co_slices _ _ C). change (32 =? 32 + 0) with true. cbn [andb].
  unfold slice. by case_test.
Qed.

Lemma must_exit_no p k t : computing p k -> must_exit t k = false.
Proof. intros C. unfold must_exit. by rewrite (co_cpu _ _ C), (co_alive _ _ C). Qed.

(** yield() up to the switch. *)
Lemma yield_enter_ok p k :
  computing p k ->
  exists k', (yield_enter MLFQ;; sched_checks) k = Ok tt k' /\ locked k' /\
    same_queues k k' /\ ticks k' = ticks k /\ cpu_proc k' = cpu_proc k /\
    procs k' = alter (fun r => r <| curtime := 0 |> <| waittime := 0 |> <| state := RUNNABLE |>)
                     p (procs k).
Proof.
  intros [Hi Hc Hs Hr _ _ _].
  set (f := fun r : proc => r <| curtime := 0 |> <| waittime := 0 |>).
  set (k1 := modp (in_cs k) p f). set (k2 := set_state RUNNABLE p k1).
  assert (E : yield_enter MLFQ k = Ok tt k2).
  { unfold yield_enter. rewrite (bind_run _ _ _ _ _ (acquire_in_cs k Hi)).
    rewrite (bind_run _ _ _ _ _ (myproc_ok (in_cs k) p Hc)). reflexivity. }
  exists k2. split; [| split_and!; try done].
  - rewrite (bind_run _ _ _ _ _ E). unfold sched_checks.
    change (cpu_proc k2) with (cpu_proc k). rewrite Hc.
    change (holding k2 LkPtable) with true. change (ncli k2) with 1. cbn [negb Z.eqb Pos.eqb].
    destruct (is_state k2 p RUNNING) eqn:E2; [| done].
    apply is_state_spec in E2. unfold k2, set_state in E2.
    rewrite getp_modp_eq in E2 by (unfold k1; by rewrite length_procs_modp). done.
  - unfold k2, set_state, k1, modp. cbn [procs upd]. by rewrite list_alter_alter, procs_in_cs.
Qed.

Lemma slice_max q : 0 <= q < 5 -> 1 <= slice q <= 16.
Proof.
  intros Hq. assert (Hin : q ∈ zrange 0 4) by (apply elem_of_zrange; lia).
  repeat (apply elem_of_cons in Hin as [-> | Hin]; [vm_compute; done |]).
  by apply elem_of_nil in Hin.
Qed.

Context (forkret_addr : Z).
Abbreviation trap := (trap MLFQ 0 cr2 forkret_addr).
Abbreviation interrupts := (interrupts MLFQ 0 cr2 forkret_addr).

(** A clock interrupt, up to the decision. *)
Lemma trap_timer p t away aways k k1 :
  tf_trapno t = 32 -> timer MLFQ 0 k = Ok tt k1 -> computing p k1 ->
  trap away aways t k =
  (y ← must_yield MLFQ t;
   (if (y : bool) then yield MLFQ away else mret tt);;
   x ← gets (must_exit t);
   if negb (bool_decide (MLFQ = FCFS)) && x then die MLFQ else mret Resumes) k1.
Proof.
  intros Ht E1 C1. unfold Trap.trap, interrupt. rewrite Ht.
  change (32 =? T_SYSCALL) with false. change (32 =? T_IRQ0 + IRQ_TIMER) with true. cbn beta iota zeta.
  rewrite (bind_run _ _ _ _ _ E1). erewrite bind_run by reflexivity.
  by rewrite (must_exit_no p k1 t C1).
Qed.

(** What a tick does to the process on the CPU. *)
Record ran p (n : Z) k k' : Prop := {
  ra_computing : computing p k';
  ra_length : length (procs k') = length (procs k);
  ra_ticks : u32 (ticks k') = u32 (ticks k + n);
  ra_curtime : curtime (getp k' p) = curtime (getp k p) + n;
  ra_qn : qn (getp k' p) = qn (getp k p);
  ra_runtime : s32 (runtime (getp k' p)) = s32 (runtime (getp k p) + n);
  ra_own : queues_own k -> qn_range k -> queues_own k' /\ qn_range k' }.

Lemma timer_ran p k : computing p k -> 0 <= curtime (getp k p) < slice (qn (getp k p)) ->
  exists k1, timer MLFQ 0 k = Ok tt k1 /\ ran p 1 k k1 /\ ticked MLFQ k k1.
Proof.
  intros C Hcur. destruct (timer_ok MLFQ k (co_idle _ _ C)) as (k1 & E1 & T). exists k1. split; [done |]. split; [| done].
  pose proof (ti_running _ _ _ T p (co_running _ _ C) (co_slot _ _ C)) as G1.
  rewrite tick_running in G1 by apply C. pose proof (slice_max _ (co_qn _ _ C)).
  constructor; [by apply (computing_tick p k) | apply T | | | by rewrite G1 | | apply T].
  - by rewrite (ti_ticks _ _ _ T), u32_idem.
  - rewrite G1. cbn [curtime upd]. apply s32_small. unfold is_s32. lia.
  - rewrite G1. cbn [runtime upd]. apply s32_idem.
Qed.

(** A tick inside the slice: the process goes on. *)
Lemma trap_short p t k :
  computing p k -> tf_trapno t = 32 -> 0 <= curtime (getp k p) -> curtime (getp k p) + 1 < slice (qn (getp k p)) ->
  exists k1, ran p 1 k k1 /\ forall away aways, trap away aways t k = Ok Resumes k1.
Proof.
  intros C Ht H0 Hcur. destruct (timer_ran p k C ltac:(lia)) as (k1 & E1 & RN & _). exists k1. split; [done |]. intros away aways.
  pose proof (ra_computing _ _ _ _ RN) as C1. rewrite (trap_timer p t away aways k k1 Ht E1 C1).
  pose proof (must_yield_ok p k1 t C1 Ht) as Ey. rewrite (ra_curtime _ _ _ _ RN), (ra_qn _ _ _ _ RN) in Ey.
  rewrite (proj2 (Z.leb_gt _ _)) in Ey by lia. rewrite (bind_run _ _ _ _ _ Ey).
  erewrite bind_run by reflexivity. erewrite bind_run by reflexivity. by rewrite (must_exit_no p k1 t C1).
Qed.

Lemma ran_trans p n m k k1 k2 : ran p n k k1 -> ran p m k1 k2 -> ran p (n + m) k k2.
Proof.
  intros [A1 A2 A3 A4 A5 A6 A7] [B1 B2 B3 B4 B5 B6 B7]. constructor; try congruence.
  - rewrite B3, <- u32_add_u32_l, A3, u32_add_u32_l. f_equal. lia.
  - lia.
  - rewrite B6, <- s32_add_s32_l, A6, s32_add_s32_l. f_equal. lia.
  - intros H1 H2. destruct (A7 H1 H2). auto.
Qed.

Lemma interrupts_short p t (m : nat) : forall k,
  computing p k -> tf_trapno t = 32 -> 0 <= curtime (getp k p) ->
  curtime (getp k p) + Z.of_nat m < slice (qn (getp k p)) ->
  exists k', (forall away, interrupts m away t k = Ok tt k') /\ ran p (Z.of_nat m) k k'.
Proof.
  induction m as [|m IH]; intros k C Ht H0 Hm.
  { exists k. split; [done |]. constructor; try done; rewrite ?Z.add_0_r; done. }
  destruct (trap_short p t k C Ht H0 ltac:(lia)) as (k1 & RN & E1).
  destruct (IH k1) as (k' & E' & RN'); [apply RN | done | rewrite (ra_curtime _ _ _ _ RN); lia | rewrite (ra_curtime _ _ _ _ RN), (ra_qn _ _ _ _ RN); lia |].
  exists k'. split.
  - intros away. cbn [Trap.interrupts]. rewrite (bind_run _ _ _ _ _ (E1 away [])). apply E'.
  - replace (Z.of_nat (S m)) with (1 + Z.of_nat m) by lia. by eapply ran_trans.
Qed.

Lemma interrupts_add away t (n m : nat) : forall k k', interrupts n away t k = Ok tt k' -> interrupts (n + m) away t k = interrupts m away t k'.
Proof.
  induction n as [|n IH]; intros k k' E; [by injection E as -> |]. cbn [Trap.interrupts Nat.add] in *.
  apply bind_Ok in E as (r & k1 & E1 & E2). rewrite (bind_run _ _ _ _ _ E1). by apply IH.
Qed.

(** The process as it is when it reaches sched() at the end of its slice. *)
Record preempted p k (ks : kstate X) : Prop := {
  pe_locked : locked ks;
  pe_length : length (procs ks) = length (procs k);
  pe_ticks : ticks ks = u32 (ticks k + 1);
  pe_cpu : cpu_proc ks = Some p;
  pe_state : state (getp ks p) = RUNNABLE;
  pe_alive : killed (getp ks p) = 0;
  pe_flagq : flagq (getp ks p) = 1;
  pe_qn : qn (getp ks p) = qn (getp k p);
  pe_runtime : runtime (getp ks p) = s32 (runtime (getp k p) + 1);
  pe_own : queues_own k -> qn_range k -> queues_own ks /\ ~ queued ks p }.

(** The last tick of the slice: the process gives up the CPU, and goes on when the
    scheduler has put it back. *)
Lemma trap_last p t k :
  computing p k -> tf_trapno t = 32 -> 0 <= curtime (getp k p) -> curtime (getp k p) + 1 = slice (qn (getp k p)) ->
  exists ks, preempted p k ks /\
    forall away aways, locked (away ks) -> cpu_proc (away ks) = Some p -> killed (getp (away ks) p) = 0 ->
      exists k', trap away aways t k = Ok Resumes k' /\ idle k' /\ procs k' = procs (away ks) /\ same_queues (away ks) k'.
Proof.
  intros C Ht H0 Hcur. destruct (timer_ran p k C ltac:(lia)) as (k1 & E1 & RN & T).
  pose proof (ra_computing _ _ _ _ RN) as C1. pose proof (must_yield_ok p k1 t C1 Ht) as Ey.
  rewrite (ra_curtime _ _ _ _ RN), (ra_qn _ _ _ _ RN), (proj2 (Z.leb_le _ _)) in Ey by lia.
  set (k2 := modp k1 p _) in Ey.
  assert (G2 : getp k2 p = (getp k1 p) <| flagq := 1 |>) by (apply getp_modp_eq, C1).
  assert (C2 : computing p k2).
  { destruct C1 as [A1 A2 A3 A4 A5 A6 A7]. constructor; rewrite ?G2; try done. unfold k2. by rewrite length_procs_modp. }
  destruct (yield_enter_ok p k2 C2) as (ks & E3 & Hl & Hq3 & Ht3 & Hc3 & Hp3).
  pose proof (getp_alter k2 ks p _ Hp3 (co_slot _ _ C2)) as G3. rewrite G2 in G3.
  pose proof (ti_running _ _ _ T p (co_running _ _ C) (co_slot _ _ C)) as G1. rewrite tick_running in G1 by apply C.
  exists ks. split.
  - constructor; try (by rewrite G3); try (rewrite G3, G1; done); [done | | | | |].
    + rewrite Hp3, length_alter. unfold k2. rewrite length_procs_modp. apply RN.
    + rewrite Ht3. exact (ti_ticks _ _ _ T).
    + rewrite Hc3. apply C2.
    + rewrite G3. apply C1.
    + intros Hown Hqr. destruct (ra_own _ _ _ _ RN Hown Hqr) as [Ho1 _].
      assert (Hnq : ~ queued k2 p).
      { apply sleeping_unqueued; [by apply modp_own |]. rewrite G2. cbn. rewrite (co_running _ _ C1). done. }
      split; [| intros (i & Hi & Hin); apply Hnq; exists i; by rewrite <- (same_queues_ring k2 ks i Hq3)].
      apply (queues_own_eq (modp k2 p (fun r => r <| curtime := 0 |> <| waittime := 0 |> <| state := RUNNABLE |>))); [done | done |].
      apply modp_own; [by apply modp_own | by intros ?%Hnq].
  - intros away aways La Ca Ka. rewrite (trap_timer p t away aways k k1 Ht E1 C1), (bind_run _ _ _ _ _ Ey).
    set (ka := (away ks) <| intena := intena ks |>). assert (La' : locked ka) by exact La.
    assert (Eyield : yield MLFQ away k2 = Ok tt (ka <| held := [] |> <| ncli := 0 |> <| fl_if := intena ka |>)).
    { apply bind_Ok in E3 as ([] & k2' & E3 & E4). unfold yield. rewrite (bind_run _ _ _ _ _ E3).
      assert (E5 : sched away k2' = Ok tt ka).
      { unfold sched. rewrite (bind_run _ _ _ _ _ E4). done. }
      rewrite (bind_run _ _ _ _ _ E5). by apply release_locked. }
    rewrite (bind_run _ _ _ _ _ Eyield). erewrite bind_run by reflexivity.
    assert (Hx : must_exit t (ka <| held := [] |> <| ncli := 0 |> <| fl_if := intena ka |>) = false).
    { unfold must_exit. cbn [cpu_proc ka upd]. rewrite Ca. change (killed (getp _ p)) with (killed (getp (away ks) p)). by rewrite Ka. }
    rewrite Hx, andb_false_r. eexists. split; [reflexivity |]. split_and!; done.
Qed.
End slice.

(** A process that is not queued finds room in its queue. *)
Lemma ring_room {X} (k : kstate X) (p : nat) (i : Z) :
  queues_own k -> ~ queued k p -> (p < length (procs k))%nat -> length (procs k) = 64%nat ->
  0 <= i < 5 -> qlen k i < NPROC.
Proof.
  intros (Hinv & Hnd & _) Hnq Hp H64 Hi. destruct (proj2 (proj1 Hinv) i Hi) as [_ Hin].
  assert (Hlen : (length (Some p :: ring k i) <= length (Some <$> seq 0 64))%nat).
  { apply submseteq_length, NoDup_submseteq.
    - constructor; [| by apply Hnd]. intros Hq. apply Hnq. by exists i.
    - intros c Hc. apply list_elem_of_fmap. apply elem_of_cons in Hc as [->|Hc].
      + exists p. split; [done |]. apply elem_of_seq. lia.
      + destruct (Hin c Hc) as (q & -> & Hq). exists q. split; [done |]. apply elem_of_seq. lia. }
  cbn [length] in Hlen. unfold ring in Hlen.
  rewrite length_window, length_fmap, length_seq in Hlen. lia.
Qed.

Lemma mlfq_requeue_ring {X} (p : nat) (k : kstate X) :
  queues_own k -> ~ queued k p -> (p < length (procs k))%nat -> length (procs k) = 64%nat ->
  0 <= qn (getp k p) <= 4 -> state (getp k p) = RUNNABLE -> ~ ghost k p ->
  ring (mlfq_requeue p k) (next_queue (getp k p)) = ring k (next_queue (getp k p)) ++ [Some p].
Proof.
  intros Hown Hnq Hp H64 Hq Hst Hg.
  destruct (mlfq_requeue_unfold p k Hst Hp ltac:(lia)) as (f & -> & _).
  set (q := next_queue (getp k p)).
  assert (Hq5 : 0 <= q < 5) by (unfold q, next_queue; case_test; lia).
  pose proof (ring_room k p q Hown Hnq Hp H64 Hq5) as Hroom.
  assert (Hwf : wf_queues (modp k p f)) by apply modp_inv, Hown.
  change (ring k q) with (ring (modp k p f) q).
  change (qlen k q) with (qlen (modp k p f) q) in Hroom.
  assert (Hnq' : ~ queued (modp k p f) p) by exact Hnq.
  assert (Hg' : ~ ghost (modp k p f) p) by exact Hg.
  destruct (push_cases q p (modp k p f) Hwf Hq5) as [(-> & Hl & _)|[(_ & _ & H)|(_ & H & _)]].
  - apply append_proc_ring; [apply Hwf | done | by apply Hwf | done].
  - by destruct H.
  - lia.
Qed.

(** C32: a process that uses up its time slice is demoted.  A process of queue [q] that
    only computes keeps the CPU through the clock interrupts of its slice of 2^q ticks, less
    those already on its clock: every trap() but the last returns to it, whatever the rest of
    the machine would do.  The last one marks it, makes it RUNNABLE and gives up the CPU with
    ptable.lock held; trap() returns to the process with what the machine has made of that
    state meanwhile.  The scheduler then puts it at the end of queue min(q + 1, 4), unless the
    duplicate check of push misreads a stale slot for it ([ghost]).  Its run time and the
    clock have advanced by the ticks of the slice, and the run queues stay consistent. *)
Theorem mlfq_slice_demotes {X} `{!Services X, !UserMem X, !FileCalls X, !Drivers X}
    (cr2 forkret_addr : Z) (t : trapframe) (p : nat) (k : kstate X) :
  computing p k -> tf_trapno t = 32 -> length (procs k) = 64%nat ->
  queues_own k -> qn_range k ->
  0 <= curtime (getp k p) < slice (qn (getp k p)) ->
  let n := slice (qn (getp k p)) - curtime (getp k p) in
  (forall m, 0 <= m < n -> exists km, (forall away, interrupts MLFQ 0 cr2 forkret_addr (Z.to_nat m) away t k = Ok tt km) /\
     computing p km /\ curtime (getp km p) = curtime (getp k p) + m) /\
  exists ks, locked ks /\ cpu_proc ks = Some p /\ killed (getp ks p) = 0 /\
    state (getp ks p) = RUNNABLE /\ flagq (getp ks p) = 1 /\ qn (getp ks p) = qn (getp k p) /\
    ticks ks = u32 (ticks k + n) /\
    runtime (getp ks p) = s32 (runtime (getp k p) + n) /\
    (forall away, locked (away ks) -> cpu_proc (away ks) = Some p -> killed (getp (away ks) p) = 0 ->
       exists k', interrupts MLFQ 0 cr2 forkret_addr (Z.to_nat n) away t k = Ok tt k' /\
         idle k' /\ procs k' = procs (away ks) /\ same_queues (away ks) k') /\
    queues_own (mlfq_requeue p ks) /\
    (~ ghost ks p ->
       ring (mlfq_requeue p ks) (Z.min 4 (qn (getp k p) + 1))
       = ring ks (Z.min 4 (qn (getp k p) + 1)) ++ [Some p]).
Proof.
  intros C Ht H64 Hown Hqr Hcur n. split.
  { intros m Hm. destruct (interrupts_short cr2 forkret_addr p t (Z.to_nat m) k C Ht) as (km & E & RN); [lia | lia |].
    exists km. split; [done |]. split; [apply RN |]. rewrite (ra_curtime _ _ _ _ RN). lia. }
  destruct (interrupts_short cr2 forkret_addr p t (Z.to_nat (n - 1)) k C Ht) as (km & Em & RN); [lia | lia |].
  rewrite Z2Nat.id in RN by lia. destruct (ra_own _ _ _ _ RN Hown Hqr) as [Hom Hqm].
  destruct (trap_last cr2 forkret_addr p t km (ra_computing _ _ _ _ RN) Ht) as (ks & PE & Hret);
    [rewrite (ra_curtime _ _ _ _ RN); lia | rewrite (ra_curtime _ _ _ _ RN), (ra_qn _ _ _ _ RN); lia |].
  destruct (pe_own _ _ _ PE Hom Hqm) as [Hos Hnq]. pose proof (co_qn _ _ C). pose proof (co_slot _ _ C).
  assert (Hlen : length (procs ks) = length (procs k)) by (rewrite (pe_length _ _ _ PE); apply RN).
  assert (Hq : qn (getp ks p) = qn (getp k p)) by (rewrite (pe_qn _ _ _ PE); apply RN).
  assert (Enext : next_queue (getp ks p) = Z.min 4 (qn (getp k p) + 1)).
  { unfold next_queue. by rewrite (pe_flagq _ _ _ PE), Hq. }
  exists ks. split_and!; [apply PE | apply PE | apply PE | apply PE | apply PE | done | | | | |].
  - rewrite (pe_ticks _ _ _ PE), <- u32_add_u32_l, (ra_ticks _ _ _ _ RN), u32_add_u32_l. f_equal. lia.
  - rewrite (pe_runtime _ _ _ PE), <- s32_add_s32_l, (ra_runtime _ _ _ _ RN), s32_add_s32_l. f_equal. lia.
  - intros away H1 H2 H3. destruct (Hret away [] H1 H2 H3) as (k' & E' & Hk'). exists k'. split; [| done].
    replace (Z.to_nat n) with (Z.to_nat (n - 1) + 1)%nat by lia. rewrite (interrupts_add _ _ _ _ _ _ _ _ (Em away)). cbn. by rewrite (bind_run _ _ _ _ _ E').
  - apply mlfq_requeue_own; [done | done | by rewrite Hlen | rewrite Hq; lia].
  - intros Hg. rewrite <- Enext. apply mlfq_requeue_ring; rewrite ?Hlen; try done; [rewrite Hq; lia | apply PE].
Qed.

(** The other components of the toy machine of ProcSpec: no user memory, no files,
    no devices. *)
#[export] Instance toy_memory : UserMem (list Z) := { uload _ _ := 0; ustore _ _ k := k }.
#[export] Instance toy_files : FileCalls (list Z) := fun _ => mret (Some (-1)).
#[export] Instance toy_drivers : Drivers (list Z) :=
  { ideintr := mret tt; kbdintr := mret tt; uartintr := mret tt }.

(** One process, running, in queue 2. *)
Definition alone : kstate (list Z) :=
  (modp (boot_state None []) 0 (fun r => r <| state := RUNNING |> <| pid := 1 |> <| qn := 2 |>))
    <| cpu_proc := Some 0%nat |>.

Lemma alone_getp p : p <> 0%nat -> getp alone p = zero_proc.
Proof.
  intros Hp. change (getp alone p) with
    (getp (modp (boot_state None ([] : list Z)) 0
             (fun r => r <| state := RUNNING |> <| pid := 1 |> <| qn := 2 |>)) p).
  rewrite getp_modp_ne by done. apply getp_boot.
Qed.

Lemma mlfq_slice_demotes_witness :
  exists ks k' : kstate (list Z), interrupts MLFQ 0 0 0 4 (set_state RUNNING 0) (zero_trapframe <| tf_trapno := 32 |>) alone = Ok tt k' /\
    ticks ks = 4 /\ state (getp ks 0) = RUNNABLE /\ procs k' = procs (set_state RUNNING 0 ks).
Proof.
  assert (Hq : qn (getp alone 0) = 2) by (vm_compute; reflexivity).
  assert (Hc : curtime (getp alone 0) = 0) by (vm_compute; reflexivity).
  destruct (mlfq_slice_demotes 0 0 (zero_trapframe <| tf_trapno := 32 |>) 0 alone)
    as (_ & ks & Hl & Hcpu & Hk & Hst & _ & _ & Htk & _ & Hrun & _).
  - constructor; try (vm_compute; reflexivity).
    + split; vm_compute; reflexivity.
    + change (length (procs alone)) with 64%nat. lia.
    + rewrite Hq. lia.
  - reflexivity.
  - reflexivity.
  - apply (queues_own_eq (modp (boot_state None []) 0
      (fun r => r <| state := RUNNING |> <| pid := 1 |> <| qn := 2 |>)));
      [reflexivity | split; [reflexivity |]; split; [reflexivity |]; split; [reflexivity |];
                     split; reflexivity |].
    apply modp_own; [apply boot_own |]. intros Hb. exfalso. by apply (boot_unqueued None ([] : list Z) 0).
  - intros p. destruct (decide (p = 0%nat)) as [->|Hp]; [rewrite Hq; lia |].
    rewrite alone_getp by done. cbn. lia.
  - rewrite Hq, Hc. vm_compute. split; [discriminate | reflexivity].
  - rewrite Hq, Hc in *. destruct (Hrun (set_state RUNNING 0)) as (k' & E & _ & Hp & _).
    + exact Hl.
    + exact Hcpu.
    + unfold set_state, getp, modp. cbn. destruct (decide (0 < length (procs ks))%nat) as [H|H].
      * rewrite list_lookup_alter_eq. apply lookup_lt_is_Some in H as [q Hq0]. unfold getp in Hk. rewrite Hq0 in *. exact Hk.
      * rewrite lookup_ge_None_2; [reflexivity |]. rewrite length_alter. lia.
    + exists ks, k'. split; [exact E |]. rewrite Htk. split; [vm_compute; reflexivity |]. split; [exact Hst | exact Hp].
Defined.
