(* ===== verification/MergeSort.v ===== *)
(** * Three merge sorts on one array

    "Assignment concurrency /q1/Q1.c": normal_mergeSort, mergeSort with a process per
    half (the array is shared memory) and threaded_mergeSort with a thread per half.
    A program is a tree of single reads and writes of the array; [Fork] starts two
    programs that run in parallel and waits for both.  fork() and pthread_create are
    taken to succeed. *)

From stdpp Require Import sorting.
From S2P Require Import Prelude.

(** ** Programs on a shared array *)

Inductive cmd :=
  | Done
  | Read (i : Z) (k : Z -> cmd)
  | Write (i v : Z) (k : cmd)
  | Fork (c1 c2 : cmd) (k : cmd).

(** One access by one of the running threads. *)
Inductive cstep : cmd * list Z -> cmd * list Z -> Prop :=
  | cs_read i k a : cstep (Read i k, a) (k (zget a i), a)
  | cs_write i v k a : cstep (Write i v k, a) (k, zupd a i v)
  | cs_left c1 c1' c2 k a a' :
      cstep (c1, a) (c1', a') -> cstep (Fork c1 c2 k, a) (Fork c1' c2 k, a')
  | cs_right c1 c2 c2' k a a' :
      cstep (c2, a) (c2', a') -> cstep (Fork c1 c2 k, a) (Fork c1 c2' k, a')
  | cs_join k a : cstep (Fork Done Done k, a) (k, a).

(** The execution that runs the first thread to its end before the second. *)
Fixpoint seq_run (c : cmd) (a : list Z) : list Z :=
  match c with
  | Done => a
  | Read i k => seq_run (k (zget a i)) a
  | Write i v k => seq_run k (zupd a i v)
  | Fork c1 c2 k => seq_run k (seq_run c2 (seq_run c1 a))
  end.

(** ** Q1.c *)

Section ops.
Implicit Types (k : cmd).

Definition swap (x y : Z) k : cmd :=
  Read x (fun t => Read y (fun v => Write x v (Write y t k))).

(** [for(j=i; j<=high; j++) if(arr[j]<mi) { mi=arr[j]; mini=j; }] *)
Fixpoint find_min (js : list Z) (mi mini : Z) (k : Z -> cmd) : cmd :=
  match js with
  | [] => k mini
  | j :: js =>
      Read j (fun v =>
        if v <? mi then Read j (fun v => find_min js v j k)
        else find_min js mi mini k)
  end.

(** The selection sort of short ranges. *)
Fixpoint selection (js : list Z) (high : Z) k : cmd :=
  match js with
  | [] => k
  | i :: js =>
      Read i (fun mi =>
        find_min (zrange i high) mi i (fun mini => swap i mini (selection js high k)))
  end.

(** merge(arr, l, m, r): the copies [L] and [R] are local. *)
Fixpoint read_cells (js : list Z) (k : list Z -> cmd) : cmd :=
  match js with
  | [] => k []
  | i :: js => Read i (fun v => read_cells js (fun l => k (v :: l)))
  end.

Fixpoint merge_write (fuel : nat) (L R : list Z) (pos : Z) k : cmd :=
  match fuel with
  | O => k
  | S fuel =>
      match L, R with
      | x :: L', y :: R' =>
          if x <=? y then Write pos x (merge_write fuel L' R (pos + 1) k)
          else Write pos y (merge_write fuel L R' (pos + 1) k)
      | x :: L', [] => Write pos x (merge_write fuel L' [] (pos + 1) k)
      | [], y :: R' => Write pos y (merge_write fuel [] R' (pos + 1) k)
      | [], [] => k
      end
  end.

Definition merge (l m r : Z) k : cmd :=
  read_cells (zrange l m) (fun L =>
    read_cells (zrange (m + 1) r) (fun R =>
      merge_write (length L + length R) L R l k)).

Definition mid (low high : Z) : Z := low + (high - low) / 2.

(** The recursions halve the range; [n] bounds their depth. *)
Fixpoint normal_sort (n : nat) (low high : Z) k : cmd :=
  match n with
  | O => k
  | S n =>
      if low <=? high - 4 then
        normal_sort n low (mid low high)
          (normal_sort n (mid low high + 1) high (merge low (mid low high) high k))
      else selection (zrange low high) high k
  end.

(** mergeSort: two children with fork(), two waitpid(), then the merge. *)
Fixpoint fork_sort (n : nat) (low high : Z) k : cmd :=
  match n with
  | O => k
  | S n =>
      if low <=? high - 4 then
        Fork (fork_sort n low (mid low high) Done)
             (fork_sort n (mid low high + 1) high Done)
             (merge low (mid low high) high k)
      else selection (zrange low high) high k
  end.

(** threaded_mergeSort: two pthread_create, two pthread_join, then the merge. *)
Fixpoint thread_sort (n : nat) (l r : Z) k : cmd :=
  match n with
  | O => k
  | S n =>
      if r <? l then k
      else if l <=? r - 4 then
        Fork (thread_sort n l (mid l r) Done)
             (thread_sort n (mid l r + 1) r Done)
             (merge l (mid l r) r k)
      else selection (zrange l r) r k
  end.

Definition depth (low high : Z) : nat := S (Z.to_nat (high - low)).
Definition normal_mergeSort (low high : Z) : cmd := normal_sort (depth low high) low high Done.
Definition mergeSort (low high : Z) : cmd := fork_sort (depth low high) low high Done.
Definition threaded_mergeSort (low high : Z) : cmd := thread_sort (depth low high) low high Done.
End ops.

(** ** Interleavings of programs without races *)

Section races.
Implicit Types (c : cmd) (a b : list Z).

(** Every access of the program is in [lo..hi]. *)
Inductive within (lo hi : Z) : cmd -> Prop :=
  | wi_done : within lo hi Done
  | wi_read i k : lo <= i <= hi -> (forall v, within lo hi (k v)) -> within lo hi (Read i k)
  | wi_write i v k : lo <= i <= hi -> within lo hi k -> within lo hi (Write i v k)
  | wi_fork c1 c2 k :
      within lo hi c1 -> within lo hi c2 -> within lo hi k -> within lo hi (Fork c1 c2 k).

(** Threads that run in parallel use disjoint ranges. *)
Inductive racefree : cmd -> Prop :=
  | rf_done : racefree Done
  | rf_read i k : (forall v, racefree (k v)) -> racefree (Read i k)
  | rf_write i v k : racefree k -> racefree (Write i v k)
  | rf_fork lo1 hi1 lo2 hi2 c1 c2 k :
      hi1 < lo2 -> within lo1 hi1 c1 -> within lo2 hi2 c2 ->
      racefree c1 -> racefree c2 -> racefree k -> racefree (Fork c1 c2 k).

(** [a] and [b] are equal on the cells that satisfy [P]. *)
Definition agree (P : Z -> Prop) a b : Prop :=
  length a = length b /\ forall i, P i -> zget a i = zget b i.

Lemma agree_ext P a b : agree P a b -> agree (fun i => ~ P i) a b -> (forall i, Decision (P i)) -> a = b.
Proof.
  intros [Hl H1] [_ H2] Hd. apply zlist_ext; [done |]. intros i Hi.
  rewrite !zlookup_zget by (unfold zlen in *; lia). f_equal. destruct (Hd i); auto.
Qed.

Lemma zget_out a i v : ~ (0 <= i < zlen a) -> zupd a i v = a.
Proof.
  intros H. unfold zupd. case_decide; [| done]. apply list_insert_ge. unfold zlen in H. lia.
Qed.

Lemma agree_zupd P a b i v : agree P a b -> agree P (zupd a i v) (zupd b i v).
Proof.
  intros [Hl H]. split; [by rewrite !length_zupd |]. intros j Hj.
  destruct (decide (i = j)) as [->|Hne]; [| rewrite !zget_zupd_ne by done; auto].
  destruct (decide (0 <= j < zlen a)) as [Hr|Hr].
  - rewrite !zget_zupd_eq by (unfold zlen in *; lia). done.
  - rewrite !zget_out by (unfold zlen in *; lia). auto.
Qed.

Lemma seq_run_length c a : length (seq_run c a) = length a.
Proof.
  revert a. induction c as [|i k IH|i v k IH|c1 IH1 c2 IH2 k IH]; intros a; cbn; [done | | |].
  - apply IH.
  - by rewrite IH, length_zupd.
  - by rewrite IH, IH2, IH1.
Qed.

(** A program changes only cells of its range, and the result there depends only on
    the cells of its range. *)
Lemma seq_run_out lo hi c a :
  within lo hi c -> agree (fun i => ~ lo <= i <= hi) (seq_run c a) a.
Proof.
  intros H. revert a. induction H as [|i k Hi _ IH|i v k Hi _ IH|c1 c2 k _ IH1 _ IH2 _ IH];
    intros a; cbn; [done | apply IH | |].
  - destruct (IH (zupd a i v)) as [Hl Hz]. split; [by rewrite Hl, length_zupd |].
    intros j Hj. rewrite Hz by done. apply zget_zupd_ne. intros ->. done.
  - split; [by rewrite !seq_run_length |]. intros j Hj.
    rewrite (proj2 (IH _)), (proj2 (IH2 _)), (proj2 (IH1 _)) by done. done.
Qed.

Lemma seq_run_in lo hi c a b :
  within lo hi c -> agree (fun i => lo <= i <= hi) a b ->
  agree (fun i => lo <= i <= hi) (seq_run c a) (seq_run c b).
Proof.
  intros H. revert a b. induction H as [|i k Hi _ IH|i v k Hi _ IH|c1 c2 k _ IH1 _ IH2 _ IH];
    intros a b Hab; cbn; [done | | |].
  - rewrite (proj2 Hab i Hi). by apply IH.
  - apply IH. by apply agree_zupd.
  - apply IH, IH2, IH1, Hab.
Qed.

(** A step of a program on [a] is also a step on any array equal in its range. *)
Lemma step_frame lo hi c a c' a' b :
  cstep (c, a) (c', a') -> within lo hi c -> agree (fun i => lo <= i <= hi) a b ->
  within lo hi c' /\ agree (fun i => ~ lo <= i <= hi) a' a /\
  exists b', cstep (c, b) (c', b') /\ agree (fun i => lo <= i <= hi) a' b' /\
    agree (fun i => ~ lo <= i <= hi) b' b.
Proof.
  intros Hs. remember (c, a) as x eqn:Ex. remember (c', a') as y eqn:Ey.
  revert c a c' a' b Ex Ey.
  induction Hs as [i k a0|i v k a0|c1 c1' c2 k a0 a0' _ IH|c1 c2 c2' k a0 a0' _ IH|k a0];
    intros c a c' a' b [= <- <-] [= <- <-] Hw Hab; inversion Hw; subst.
  - split; [auto |]. split; [done |]. exists b.
    rewrite (proj2 Hab i) by done. split; [constructor | done].
  - split; [done |].
    assert (Hout : forall a, agree (fun j => ~ lo <= j <= hi) (zupd a i v) a).
    { intros a1. split; [apply length_zupd |]. intros j Hj. apply zget_zupd_ne. intros ->. done. }
    split; [apply Hout |]. exists (zupd b i v).
    split; [constructor |]. split; [by apply agree_zupd | apply Hout].
  - destruct (IH _ _ _ _ b eq_refl eq_refl) as (W & O & b' & S' & I & O'); [done.. |].
    split; [by constructor |]. split; [done |]. exists b'. split; [by constructor | done].
  - destruct (IH _ _ _ _ b eq_refl eq_refl) as (W & O & b' & S' & I & O'); [done.. |].
    split; [by constructor |]. split; [done |]. exists b'. split; [by constructor | done].
  - split; [done |]. split; [done |]. exists b. split; [constructor | done].
Qed.

(** A step of a race-free program does not change what its sequential run computes. *)
Lemma step_seq_run c : forall a c' a',
  racefree c -> cstep (c, a) (c', a') -> racefree c' /\ seq_run c' a' = seq_run c a.
Proof.
  induction c as [|i k IH|i v k IH|c1 IH1 c2 IH2 k IH]; intros a c' a' Hr Hs;
    inversion Hs; subst; inversion Hr; subst; try (split; [auto | done]).
  - destruct (IH1 a c1' a') as [R E]; [done.. |].
    destruct (step_frame lo1 hi1 c1 a c1' a' a) as (W & _); [done | done | done |].
    split; [by eapply rf_fork |]. cbn. by rewrite E.
  - assert (Hb : agree (fun i => lo2 <= i <= hi2) a (seq_run c1 a)).
    { destruct (seq_run_out lo1 hi1 c1 a) as [Hl Ho]; [done |].
      split; [done |]. intros i Hi. symmetry. apply Ho. lia. }
    destruct (step_frame lo2 hi2 c2 a c2' a' _ ltac:(done) ltac:(done) Hb)
      as (W & O & b' & S' & I & O').
    destruct (IH2 _ _ _ ltac:(done) S') as [R E].
    split; [by eapply rf_fork |]. cbn. f_equal. rewrite <- E. f_equal.
    apply (agree_ext (fun i => lo2 <= i <= hi2)); [| | intros; apply _].
    + destruct (seq_run_out lo1 hi1 c1 a') as [Hl Ho]; [done |].
      split; [rewrite Hl; apply I |]. intros i Hi. rewrite Ho by lia. by apply I.
    + split; [rewrite seq_run_length; apply I |]. intros i Hi. rewrite (proj2 O') by done.
      destruct (decide (lo1 <= i <= hi1)) as [H1|H1].
      * apply (seq_run_in lo1 hi1); [done | | done].
        split; [apply O |]. intros j Hj. apply (proj2 O). lia.
      * rewrite !(proj2 (seq_run_out lo1 hi1 c1 _ ltac:(done))) by done. by apply (proj2 O).
Qed.

(** Every complete interleaving ends in the same array. *)
Lemma steps_seq_run c a c' a' :
  rtc cstep (c, a) (c', a') -> racefree c -> racefree c' /\ seq_run c' a' = seq_run c a.
Proof.
  intros H. remember (c, a) as x eqn:Ex. remember (c', a') as y eqn:Ey. revert c a Ex.
  induction H as [x|x y z Hs H IH]; intros c a -> Hr.
  - by injection Ey as -> ->.
  - destruct y as [c1 a1]. destruct (step_seq_run c a c1 a1) as [R1 E1]; [done.. |].
    destruct (IH Ey c1 a1) as [R2 E2]; [done.. |]. split; [done | congruence].
Qed.

(** Every program either is finished or can go on, and no execution is infinite. *)
Lemma step_progress c a : c = Done \/ exists x, cstep (c, a) x.
Proof.
  induction c as [|i k _|i v k _|c1 IH1 c2 IH2 k _]; [by left | right.. ].
  - eexists. constructor.
  - eexists. constructor.
  - destruct IH1 as [->|([c1' a'] & H)]; [| eexists; by apply cs_left].
    destruct IH2 as [->|([c2' a'] & H)]; [eexists; apply cs_join | eexists; by apply cs_right].
Qed.

Definition csucc (c' c : cmd) : Prop := exists a a', cstep (c, a) (c', a').

Lemma cmd_terminates c : Acc csucc c.
Proof.
  induction c as [|i k IH|i v k IH|c1 IH1 c2 IH2 k IH].
  - constructor. intros c' (a & a' & H). inversion H.
  - constructor. intros c' (a & a' & H). inversion H; subst. apply IH.
  - constructor. intros c' (a & a' & H). inversion H; subst. apply IH.
  - revert c2 IH2. induction IH1 as [c1 _ IH1]. intros c2 IH2.
    induction IH2 as [c2 Hc2 IH2].
    constructor. intros c' (a & a' & H). inversion H; subst.
    + apply IH1; [by exists a, a' | by constructor].
    + apply IH2. by exists a, a'.
    + done.
Qed.
End races.

(** ** The sequential sorts *)

Section sorting.
Implicit Types (a : list Z).

(** [a'] is [a] with the range [low..high] sorted. *)
Record sorts (low high : Z) a a' : Prop := {
  so_perm : a' ≡ₚ a;
  so_out : agree (fun i => ~ low <= i <= high) a' a;
  so_from i : low <= i <= high -> exists j, low <= j <= high /\ zget a' i = zget a j;
  so_sorted i j : low <= i -> i <= j -> j <= high -> zget a' i <= zget a' j }.

Definition swapped a (x y : Z) : list Z := zupd (zupd a x (zget a y)) y (zget a x).

Lemma seq_run_swap x y k a : seq_run (swap x y k) a = seq_run k (swapped a x y).
Proof. done. Qed.

Lemma swapped_get a x y i :
  0 <= x < zlen a -> 0 <= y < zlen a ->
  zget (swapped a x y) i
  = if decide (i = y) then zget a x else if decide (i = x) then zget a y else zget a i.
Proof.
  intros Hx Hy. unfold swapped. case_decide as E1; [subst | case_decide as E2; [subst |]].
  - by rewrite zget_zupd_eq by (rewrite zlen_zupd; lia).
  - by rewrite zget_zupd_ne, zget_zupd_eq by (done || lia).
  - by rewrite !zget_zupd_ne by done.
Qed.

Lemma swapped_perm a x y : 0 <= x < zlen a -> 0 <= y < zlen a -> swapped a x y ≡ₚ a.
Proof.
  intros Hx Hy. unfold swapped. rewrite !zupd_to_nat by lia.
  apply Permutation_insert_swap; rewrite <- zlookup_to_nat by lia; by apply zlookup_zget.
Qed.

(** The index that find_min passes on. *)
Fixpoint argmin a (js : list Z) (mi mini : Z) : Z :=
  match js with
  | [] => mini
  | j :: js => if zget a j <? mi then argmin a js (zget a j) j else argmin a js mi mini
  end.

Lemma seq_run_find_min js mi mini k a :
  seq_run (find_min js mi mini k) a = seq_run (k (argmin a js mi mini)) a.
Proof.
  revert mi mini. induction js as [|j js IH]; intros mi mini; cbn; [done |].
  case_test; cbn; apply IH.
Qed.

Lemma argmin_spec a js mini :
  let m := argmin a js (zget a mini) mini in
  (m = mini \/ m ∈ js) /\ zget a m <= zget a mini /\ forall j, j ∈ js -> zget a m <= zget a j.
Proof.
  revert mini. induction js as [|j js IH]; intros mini; cbn.
  - split; [by left |]. split; [lia |]. by intros j ?%elem_of_nil.
  - case_test; [destruct (IH j) as (H1 & H2 & H3) | destruct (IH mini) as (H1 & H2 & H3)];
      cbn in *; (split; [destruct H1; [| right; by right] | split; [lia |]]).
    + rewrite H. right. by left.
    + intros i [->|Hi]%elem_of_cons; auto.
    + by left.
    + intros i [->|Hi]%elem_of_cons; [lia | auto].
Qed.

(** The selection sort as a function on arrays. *)
Definition selected a (js : list Z) (high : Z) : list Z :=
  fold_left (fun a i => swapped a i (argmin a (zrange i high) (zget a i) i)) js a.

Lemma seq_run_selection js high k a :
  seq_run (selection js high k) a = seq_run k (selected a js high).
Proof.
  revert a. induction js as [|i js IH]; intros a; cbn [selection]; [done |].
  cbn [seq_run]. rewrite seq_run_find_min, seq_run_swap, IH. done.
Qed.

Lemma sorts_refl low high a : high < low -> sorts low high a a.
Proof. intros H. constructor; [done | done | lia | lia]. Qed.

(** Put the smallest element first, then sort the rest. *)
Lemma sorts_step low high a a1 a' :
  low <= high -> a1 ≡ₚ a -> agree (fun i => ~ low <= i <= high) a1 a ->
  (forall i, low <= i <= high -> exists j, low <= j <= high /\ zget a1 i = zget a j) ->
  (forall j, low <= j <= high -> zget a1 low <= zget a1 j) ->
  sorts (low + 1) high a1 a' -> sorts low high a a'.
Proof.
  intros Hle Hp [Hl Ho] Hf Hmin [Hp' [Hl' Ho'] Hf' Hs']. constructor.
  - by rewrite Hp'.
  - split; [congruence |]. intros i Hi. rewrite Ho', Ho; [done | lia | lia].
  - intros i Hi. destruct (decide (i = low)) as [->|Hne].
    + rewrite Ho' by lia. apply Hf. lia.
    + destruct (Hf' i) as (j & Hj & ->); [lia |]. apply Hf. lia.
  - intros i j H1 H2 H3. destruct (decide (i = low)) as [->|Hne]; [| apply Hs'; lia].
    rewrite (Ho' low) by lia. destruct (decide (j = low)) as [->|Hnj]; [rewrite Ho' by lia; lia |].
    destruct (Hf' j) as (j' & Hj' & ->); [lia |]. apply Hmin. lia.
Qed.

Lemma selected_sorts (n : nat) low high a :
  0 <= low -> high < zlen a -> high - low + 1 = Z.of_nat n ->
  sorts low high a (selected a (zrange low high) high).
Proof.
  revert low a. induction n as [|n IH]; intros low a Hlow Hhigh Hn.
  { rewrite zrange_nil by lia. apply sorts_refl. lia. }
  rewrite zrange_cons by lia. unfold selected. cbn [fold_left].
  set (m := argmin a (zrange low high) (zget a low) low).
  destruct (argmin_spec a (zrange low high) low) as (Hm & _ & Hmin). fold m in Hm, Hmin. clearbody m.
  assert (Hm' : low <= m <= high) by (rewrite elem_of_zrange in Hm; lia).
  pose proof (fun i => swapped_get a low m i ltac:(lia) ltac:(lia)) as Hg.
  apply (sorts_step low high a (swapped a low m)).
  - lia.
  - apply swapped_perm; lia.
  - split; [unfold swapped; by rewrite !length_zupd |].
    intros i Hi. rewrite Hg, !decide_False by lia. done.
  - intros i Hi. rewrite Hg. repeat case_decide; [exists low | exists m | exists i]; split; done || lia.
  - intros j Hj. rewrite !Hg. rewrite (decide_True (P := low = low)) by done.
    assert (forall j, low <= j <= high -> zget a m <= zget a j) as Hall
      by (intros i Hi; apply Hmin, elem_of_zrange; lia).
    repeat case_decide; subst; auto with lia.
  - apply IH; [lia | unfold swapped; rewrite !zlen_zupd; lia | lia].
Qed.

(** ** merge *)

Definition slice a (low high : Z) : list Z := zget a <$> zrange low high.

Definition zwrite a (pos : Z) (w : list Z) : list Z :=
  take (Z.to_nat pos) a ++ w ++ drop (Z.to_nat pos + length w) a.

Lemma zwrite_cons a pos v w :
  0 <= pos < zlen a -> zwrite (zupd a pos v) (pos + 1) w = zwrite a pos (v :: w).
Proof.
  intros Hp. unfold zwrite, zlen in *. rewrite zupd_to_nat by lia.
  replace (Z.to_nat (pos + 1)) with (S (Z.to_nat pos)) by lia.
  rewrite (take_S_r _ _ v) by (apply list_lookup_insert_eq; lia).
  rewrite take_insert_ge, drop_insert_lt by lia. rewrite <- app_assoc. cbn. do 4 f_equal. lia.
Qed.

Lemma zget_zwrite a pos w i :
  0 <= pos -> pos + zlen w <= zlen a ->
  zget (zwrite a pos w) i = if decide (pos <= i < pos + zlen w) then zget w (i - pos) else zget a i.
Proof.
  intros Hp Hl. unfold zget, zwrite, zlen in *. unfold zlookup.
  destruct (decide (0 <= i)) as [Hi|Hi]; cycle 1.
  { by rewrite decide_False by lia. }
  destruct (decide (i < pos)) as [H1|H1].
  { rewrite decide_False by lia. rewrite lookup_app_l by (rewrite length_take; lia).
    f_equal. apply lookup_take_lt. lia. }
  rewrite lookup_app_r by (rewrite length_take; lia). rewrite length_take, Nat.min_l by lia.
  case_decide as H2.
  - rewrite decide_True by lia. rewrite lookup_app_l by lia. do 2 f_equal. lia.
  - rewrite lookup_app_r by lia. rewrite lookup_drop. do 2 f_equal. lia.
Qed.

Lemma length_slice a low high : zlen (slice a low high) = Z.max 0 (high - low + 1).
Proof. unfold slice, zlen, zrange. rewrite length_fmap, length_seqZ. lia. Qed.

Lemma slice_get a low high i :
  low <= high -> 0 <= i <= high - low -> zget (slice a low high) i = zget a (low + i).
Proof.
  intros Hle Hi. unfold zget at 1, slice, zlookup, zrange. rewrite decide_True by lia.
  rewrite list_lookup_fmap, lookup_seqZ_lt by lia. cbn. f_equal. lia.
Qed.

Lemma slice_app a l m r :
  l <= m + 1 -> m <= r -> slice a l m ++ slice a (m + 1) r = slice a l r.
Proof.
  intros H1 H2. unfold slice, zrange. rewrite <- fmap_app. f_equal.
  replace (r - l + 1) with ((m - l + 1) + (r - (m + 1) + 1)) by lia.
  pose proof (seqZ_app l (m - l + 1) (r - (m + 1) + 1)) as E.
  rewrite E by lia. by replace (l + (m - l + 1)) with (m + 1) by lia.
Qed.

Lemma zwrite_slice a low high :
  0 <= low <= high -> high < zlen a -> zwrite a low (slice a low high) = a.
Proof.
  intros H1 H2. pose proof (length_slice a low high) as Hl.
  apply zlist_ext.
  - unfold zwrite, zlen in *. rewrite !length_app, length_take, length_drop. lia.
  - intros i Hi. assert (Hz : zlen (zwrite a low (slice a low high)) = zlen a).
    { unfold zwrite, zlen in *. rewrite !length_app, length_take, length_drop. lia. }
    rewrite !zlookup_zget by lia. f_equal. rewrite zget_zwrite by lia.
    case_decide; [| done]. rewrite slice_get by lia. f_equal. lia.
Qed.

Lemma seq_run_read_cells js k a :
  seq_run (read_cells js k) a = seq_run (k (zget a <$> js)) a.
Proof.
  revert k. induction js as [|i js IH]; intros k; cbn; [done |]. apply IH.
Qed.

Lemma seq_run_merge_write (fuel : nat) L R pos k a :
  fuel = (length L + length R)%nat -> 0 <= pos -> pos + zlen L + zlen R <= zlen a ->
  seq_run (merge_write fuel L R pos k) a = seq_run k (zwrite a pos (list_merge Z.le L R)).
Proof.
  revert L R pos a.
  induction fuel as [|fuel IH]; intros L R pos a Hf Hp Hl.
  { destruct L, R; cbn in Hf; try lia. cbn. f_equal. unfold zwrite. cbn.
    rewrite Nat.add_0_r. symmetry. apply take_drop. }
  assert (Hstep : forall L' R' v, fuel = (length L' + length R')%nat ->
    zlen L' + zlen R' + 1 = zlen L + zlen R ->
    seq_run (Write pos v (merge_write fuel L' R' (pos + 1) k)) a
    = seq_run k (zwrite a pos (v :: list_merge Z.le L' R'))).
  { intros L' R' v Hf' Hl'. cbn [seq_run]. unfold zlen in *.
    rewrite IH by (rewrite ?length_zupd; lia). rewrite zwrite_cons; [done |].
    unfold zlen. lia. }
  destruct L as [|x L], R as [|y R]; cbn [merge_write].
  - cbn in Hf. lia.
  - rewrite Hstep; [by rewrite list_merge_nil_l | cbn in *; lia | unfold zlen; cbn; lia].
  - rewrite Hstep; [by rewrite list_merge_nil_r | cbn in *; lia | unfold zlen; cbn; lia].
  - rewrite list_merge_cons. case_test; [rewrite decide_True by done | rewrite decide_False by lia];
      (rewrite Hstep; [done | cbn in *; lia | unfold zlen; cbn; lia]).
Qed.

Lemma Sorted_get (w : list Z) i j :
  Sorted Z.le w -> 0 <= i -> i <= j -> j < zlen w -> zget w i <= zget w j.
Proof.
  intros Hw%Sorted_StronglySorted; [| intros ? ? ?; lia]. revert i j.
  induction Hw as [|x w _ IH Hx]; intros i j Hi Hij Hj; [unfold zlen in Hj; cbn in Hj; lia |].
  assert (Hcons : forall n, 0 <= n -> zget (x :: w) n = if decide (n = 0) then x else zget w (n - 1)).
  { intros n Hn. unfold zget, zlookup. rewrite decide_True by lia. case_decide; [by subst |].
    rewrite decide_True by lia. by replace (Z.to_nat n) with (S (Z.to_nat (n - 1))) by lia. }
  rewrite !Hcons by lia. unfold zlen in *. cbn in Hj.
  destruct (decide (i = 0)), (decide (j = 0)); try lia; [| apply IH; unfold zlen; lia].
  rewrite Forall_forall in Hx. apply Hx.
  pose proof (zlookup_zget w (j - 1) ltac:(unfold zlen; lia)) as E.
  rewrite zlookup_to_nat in E by lia. by eapply list_elem_of_lookup_2.
Qed.

Definition sorted_in a (low high : Z) : Prop :=
  forall i j, low <= i -> i <= j -> j <= high -> zget a i <= zget a j.

Lemma slice_Sorted a low high : sorted_in a low high -> Sorted Z.le (slice a low high).
Proof.
  intros H. unfold slice, zrange. set (n := high - low + 1).
  assert (Hn : n <= high - low + 1) by lia. clearbody n. revert low H Hn.
  destruct (decide (0 <= n)) as [H0|H0]; [| intros; by rewrite seqZ_nil by lia].
  revert n H0. refine (natlike_ind _ _ _); [intros; by rewrite seqZ_nil by lia |].
  intros n H0 IH low H Hn. rewrite seqZ_cons by lia. rewrite Z.pred_succ. cbn [fmap list_fmap].
  constructor.
  - apply (IH (Z.succ low)); [intros i j ???; apply H; lia | lia].
  - destruct (decide (n = 0)) as [->|Hne]; [by rewrite seqZ_nil by lia |].
    rewrite seqZ_cons by lia. cbn. constructor. apply H; lia.
Qed.

Lemma merge_sorts l m r a :
  0 <= l -> l <= m < r -> r < zlen a -> sorted_in a l m -> sorted_in a (m + 1) r ->
  exists a', sorts l r a a' /\ forall k, seq_run (merge l m r k) a = seq_run k a'.
Proof.
  intros Hl Hm Hr HL HR. set (w := list_merge Z.le (slice a l m) (slice a (m + 1) r)).
  assert (Hw : w ≡ₚ slice a l r).
  { unfold w. rewrite merge_Permutation, slice_app by lia. done. }
  assert (Hlen : zlen w = r - l + 1).
  { unfold zlen. rewrite (Permutation_length Hw). fold (zlen (slice a l r)).
    rewrite length_slice. lia. }
  assert (Hs : Sorted Z.le w) by (apply Sorted_list_merge; [intros ? ?; lia | by apply slice_Sorted..]).
  exists (zwrite a l w). split.
  - constructor.
    + rewrite <- (zwrite_slice a l r) at 2 by lia. unfold zwrite.
      rewrite (Permutation_length Hw). by rewrite Hw.
    + split; [unfold zwrite, zlen in *; rewrite !length_app, length_take, length_drop; lia |].
      intros i Hi. rewrite zget_zwrite by lia. by rewrite decide_False by lia.
    + intros i Hi. rewrite zget_zwrite, decide_True by lia.
      assert (Hin : zget w (i - l) ∈ slice a l r).
      { rewrite <- Hw. pose proof (zlookup_zget w (i - l) ltac:(lia)) as E.
        rewrite zlookup_to_nat in E by lia. by eapply list_elem_of_lookup_2. }
      apply list_elem_of_fmap in Hin as (j & -> & Hj%elem_of_zrange). eauto.
    + intros i j H1 H2 H3. rewrite !zget_zwrite, !decide_True by lia.
      apply Sorted_get; [done | lia..].
  - intros k. unfold merge. rewrite seq_run_read_cells, seq_run_read_cells.
    fold (slice a l m) (slice a (m + 1) r). apply seq_run_merge_write; [done | done |].
    rewrite !length_slice. lia.
Qed.

(** Two sorted halves, then the merge. *)
Lemma sorts_halves l m r a a1 a2 :
  0 <= l -> l <= m < r -> r < zlen a -> sorts l m a a1 -> sorts (m + 1) r a1 a2 ->
  exists a', sorts l r a a' /\ forall k, seq_run (merge l m r k) a2 = seq_run k a'.
Proof.
  intros Hl Hm Hr [P1 [L1 O1] F1 S1] [P2 [L2 O2] F2 S2].
  destruct (merge_sorts l m r a2) as (a' & [P3 [L3 O3] F3 S3] & E).
  - done.
  - done.
  - unfold zlen in *. lia.
  - intros i j H1 H2 H3. rewrite !O2 by lia. by apply S1.
  - intros i j H1 H2 H3. by apply S2.
  - exists a'. split; [| done].
    assert (Hback : forall i, l <= i <= r -> exists j, l <= j <= r /\ zget a2 i = zget a j).
    { intros i Hi. destruct (decide (i <= m)) as [Him|Him].
      - rewrite O2 by lia. destruct (F1 i) as (j & Hj & ->); [lia |]. exists j. split; [lia | done].
      - destruct (F2 i) as (j & Hj & ->); [lia |]. rewrite O1 by lia. exists j. split; [lia | done]. }
    constructor.
    + by rewrite P3, P2.
    + split; [congruence |]. intros i Hi. rewrite O3, O2, O1 by lia. done.
    + intros i Hi. destruct (F3 i Hi) as (j & Hj & ->). by apply Hback.
    + done.
Qed.

Lemma mid_bounds low high : low <= high - 4 -> low <= mid low high < high.
Proof.
  intros H. unfold mid. pose proof (Z.div_pos (high - low) 2 ltac:(lia) ltac:(lia)).
  pose proof (Z.div_lt (high - low) 2 ltac:(lia) ltac:(lia)). lia.
Qed.

(** A sorting program: what it leaves in the array, for any continuation. *)
Definition sorter (s : Z -> Z -> cmd -> cmd) (low high : Z) : Prop :=
  forall a, 0 <= low -> high < zlen a ->
    exists a', sorts low high a a' /\ forall k, seq_run (s low high k) a = seq_run k a'.

Lemma selection_sorter low high : sorter (fun l h k => selection (zrange l h) h k) low high.
Proof.
  intros a Hl Hh. exists (selected a (zrange low high) high). split.
  - destruct (decide (low <= high)) as [Hle|Hgt].
    + apply (selected_sorts (Z.to_nat (high - low + 1))); lia.
    + rewrite zrange_nil by lia. apply sorts_refl. lia.
  - intros k. apply seq_run_selection.
Qed.

Lemma zlen_sorts low high a a' : sorts low high a a' -> zlen a' = zlen a.
Proof. intros [_ [H _] _ _]. unfold zlen. by rewrite H. Qed.

Lemma sorter_halves s low high a :
  low <= high - 4 -> 0 <= low -> high < zlen a ->
  sorter s low (mid low high) -> sorter s (mid low high + 1) high ->
  exists a1 a2 a', sorts low high a a' /\
    (forall k, seq_run (s low (mid low high) k) a = seq_run k a1) /\
    (forall k, seq_run (s (mid low high + 1) high k) a1 = seq_run k a2) /\
    (forall k, seq_run (merge low (mid low high) high k) a2 = seq_run k a').
Proof.
  intros Hle Hl Hh H1 H2. pose proof (mid_bounds low high Hle) as Hm.
  destruct (H1 a) as (a1 & S1 & E1); [lia.. |].
  destruct (H2 a1) as (a2 & S2 & E2); [lia | rewrite (zlen_sorts _ _ _ _ S1); lia |].
  destruct (sorts_halves low (mid low high) high a a1 a2) as (a' & S' & E'); [done.. |].
  by exists a1, a2, a'.
Qed.

Lemma depth_halves n low high :
  (depth low high <= S n)%nat -> low <= high - 4 ->
  (depth low (mid low high) <= n)%nat /\ (depth (mid low high + 1) high <= n)%nat.
Proof. intros Hn Hle. pose proof (mid_bounds low high Hle). unfold depth in *. lia. Qed.

Lemma normal_sorter n low high : (depth low high <= n)%nat -> sorter (normal_sort n) low high.
Proof.
  revert low high. induction n as [|n IH]; intros low high Hn; [unfold depth in Hn; lia |].
  intros a Hl Hh. cbn [normal_sort]. case_test; [| by apply selection_sorter].
  destruct (depth_halves _ _ _ Hn E).
  destruct (sorter_halves (normal_sort n) low high a) as (a1 & a2 & a' & S & E1 & E2 & E3); auto.
  exists a'. split; [done |]. intros k. by rewrite E1, E2, E3.
Qed.

Lemma fork_sorter n low high : (depth low high <= n)%nat -> sorter (fork_sort n) low high.
Proof.
  revert low high. induction n as [|n IH]; intros low high Hn; [unfold depth in Hn; lia |].
  intros a Hl Hh. cbn [fork_sort]. case_test; [| by apply selection_sorter].
  destruct (depth_halves _ _ _ Hn E).
  destruct (sorter_halves (fork_sort n) low high a) as (a1 & a2 & a' & S & E1 & E2 & E3); auto.
  exists a'. split; [done |]. intros k. cbn [seq_run]. by rewrite E1, E2, E3.
Qed.

Lemma thread_sorter n low high : (depth low high <= n)%nat -> sorter (thread_sort n) low high.
Proof.
  revert low high. induction n as [|n IH]; intros low high Hn; [unfold depth in Hn; lia |].
  intros a Hl Hh. cbn [thread_sort].
  case_test; [exists a; split; [apply sorts_refl; lia | done] |].
  case_test; [| by apply selection_sorter]. destruct (depth_halves _ _ _ Hn E0).
  destruct (sorter_halves (thread_sort n) low high a) as (a1 & a2 & a' & S & E1 & E2 & E3); auto.
  exists a'. split; [done |]. intros k. cbn [seq_run]. by rewrite E1, E2, E3.
Qed.
End sorting.

(** ** The parallel sorts have no races *)

Section racefree.

(** A property of programs that is closed under reads and writes of cells in a range
    holds of the building blocks. *)
Record closed (low high : Z) (P : cmd -> Prop) : Prop := {
  cl_read i (k : Z -> cmd) : low <= i <= high -> (forall v, P (k v)) -> P (Read i k);
  cl_write i v k : low <= i <= high -> P k -> P (Write i v k) }.

Lemma within_closed low high : closed low high (within low high).
Proof. split; intros; by constructor. Qed.

Lemma racefree_closed low high : closed low high racefree.
Proof. split; intros; by constructor. Qed.

Context (low high : Z) (P : cmd -> Prop) (HP : closed low high P).

Lemma closed_find_min js mi mini (k : Z -> cmd) :
  (forall j, j ∈ js -> low <= j <= high) -> low <= mini <= high ->
  (forall m, low <= m <= high -> P (k m)) -> P (find_min js mi mini k).
Proof.
  intros Hjs Hmini Hk. revert mi mini Hmini.
  induction js as [|j js IH]; intros mi mini Hmini; cbn [find_min]; [auto |].
  assert (Hj : low <= j <= high) by (apply Hjs; by left).
  assert (Hjs' : forall j, j ∈ js -> low <= j <= high) by (intros i Hi; apply Hjs; by right).
  apply HP; [done |]. intros v. case_test; [apply HP; [done |]; intros v' |]; apply IH; auto.
Qed.

Lemma closed_selection js k :
  (forall j, j ∈ js -> low <= j <= high) -> P k -> P (selection js high k).
Proof.
  intros Hjs Hk. induction js as [|j js IH]; cbn [selection]; [done |].
  assert (Hj : low <= j <= high) by (apply Hjs; by left).
  assert (Hjs' : forall j, j ∈ js -> low <= j <= high) by (intros i Hi; apply Hjs; by right).
  apply HP; [done |]. intros v. apply closed_find_min; [| done |].
  - intros i Hi%elem_of_zrange. lia.
  - intros m Hm. unfold swap. do 2 (apply HP; [done |]; intros ?). do 2 (apply HP; [done |]). auto.
Qed.

Lemma closed_read_cells js (k : list Z -> cmd) :
  (forall j, j ∈ js -> low <= j <= high) ->
  (forall l, length l = length js -> P (k l)) -> P (read_cells js k).
Proof.
  intros Hjs. revert k. induction js as [|j js IH]; intros k Hk; cbn [read_cells]; [by apply Hk |].
  apply HP; [apply Hjs; by left |]. intros v. apply IH; [intros i Hi; apply Hjs; by right |].
  intros l Hl. apply Hk. cbn. by rewrite Hl.
Qed.

Lemma closed_merge_write fuel L R pos k :
  low <= pos -> pos + Z.of_nat (length L + length R) <= high + 1 -> P k ->
  P (merge_write fuel L R pos k).
Proof.
  intros Hp Hl Hk. revert L R pos Hp Hl.
  induction fuel as [|fuel IH]; intros L R pos Hp Hl; cbn [merge_write]; [done |].
  destruct L as [|x L], R as [|y R]; [done | | |]; cbn [length] in *.
  - apply HP; [lia |]. apply IH; cbn; lia.
  - apply HP; [lia |]. apply IH; cbn; lia.
  - case_test; (apply HP; [lia |]; apply IH; cbn; lia).
Qed.

Lemma closed_merge m k : low <= m < high -> P k -> P (merge low m high k).
Proof.
  intros Hm Hk. unfold merge.
  apply closed_read_cells; [intros j Hj%elem_of_zrange; lia |]. intros L HL.
  apply closed_read_cells; [intros j Hj%elem_of_zrange; lia |]. intros R HR.
  apply closed_merge_write; [lia | | done]. unfold zrange in *.
  rewrite length_seqZ in HL, HR. lia.
Qed.
End racefree.

Section parallel.

Lemma within_weaken lo hi lo' hi' c : within lo hi c -> lo' <= lo -> hi <= hi' -> within lo' hi' c.
Proof. intros H Hlo Hhi. induction H; constructor; auto with lia. Qed.

Lemma fork_within n low high k :
  low <= high -> within low high k -> within low high (fork_sort n low high k).
Proof.
  revert low high k. induction n as [|n IH]; intros low high k Hle Hk; cbn [fork_sort]; [done |].
  case_test.
  - pose proof (mid_bounds low high ltac:(lia)). constructor.
    + apply (within_weaken low (mid low high)); [apply IH; [lia | constructor] | lia | lia].
    + apply (within_weaken (mid low high + 1) high); [apply IH; [lia | constructor] | lia | lia].
    + apply (closed_merge _ _ _ (within_closed low high)); [lia | done].
  - apply (closed_selection _ _ _ (within_closed low high)); [| done].
    intros j Hj%elem_of_zrange. lia.
Qed.

Lemma fork_racefree n low high k : racefree k -> racefree (fork_sort n low high k).
Proof.
  revert low high k. induction n as [|n IH]; intros low high k Hk; cbn [fork_sort]; [done |].
  case_test.
  - pose proof (mid_bounds low high ltac:(lia)).
    apply (rf_fork low (mid low high) (mid low high + 1) high).
    + lia.
    + apply fork_within; [lia | constructor].
    + apply fork_within; [lia | constructor].
    + apply IH. constructor.
    + apply IH. constructor.
    + apply (closed_merge _ _ _ (racefree_closed low high)); [lia | done].
  - apply (closed_selection _ _ _ (racefree_closed low high)); [| done].
    intros j Hj%elem_of_zrange. lia.
Qed.

(** On a range that is not empty the threads do what the processes do. *)
Lemma thread_fork_sort n l r k : l <= r -> thread_sort n l r k = fork_sort n l r k.
Proof.
  revert l r k. induction n as [|n IH]; intros l r k Hle; cbn; [done |].
  case_test; [lia |]. case_test; [| done].
  pose proof (mid_bounds l r ltac:(lia)). by rewrite !IH by lia.
Qed.

Lemma thread_racefree n l r k : racefree k -> racefree (thread_sort n l r k).
Proof.
  intros Hk. destruct (decide (l <= r)) as [Hle|Hgt].
  - rewrite thread_fork_sort by done. by apply fork_racefree.
  - destruct n; cbn [thread_sort]; [done |]. case_test; [done | lia].
Qed.

(** Sorted and a permutation of the input: there is one such array. *)
Lemma sorts_all a a' : sorts 0 (zlen a - 1) a a' -> Sorted Z.le a'.
Proof.
  intros H. pose proof (zlen_sorts _ _ _ _ H) as Hl.
  assert (E : slice a' 0 (zlen a - 1) = a').
  { apply zlist_ext.
    - pose proof (length_slice a' 0 (zlen a - 1)). unfold zlen in *. lia.
    - intros i Hi. rewrite length_slice in Hi.
      rewrite !zlookup_zget by (rewrite ?length_slice; lia). f_equal.
      rewrite slice_get by lia. done. }
  rewrite <- E. apply slice_Sorted. intros i j ???. by apply H.
Qed.
End parallel.

(** C25: the three merge sorts.  Whatever the interleaving of the single reads and writes
    of the processes (or threads), mergeSort and threaded_mergeSort never get stuck
    before they are done, have no infinite execution, and end with the same array as
    the sequential normal_mergeSort: the sorted permutation of the input. *)
Theorem mergesort_parallel (a : list Z) :
  let sorted_a := merge_sort Z.le a in
  seq_run (normal_mergeSort 0 (zlen a - 1)) a = sorted_a /\
  Sorted Z.le sorted_a /\ sorted_a ≡ₚ a /\
  forall c, c = mergeSort 0 (zlen a - 1) \/ c = threaded_mergeSort 0 (zlen a - 1) ->
    (forall a', rtc cstep (c, a) (Done, a') -> a' = sorted_a) /\
    (forall c' a', rtc cstep (c, a) (c', a') -> c' = Done \/ exists x, cstep (c', a') x) /\
    Acc csucc c.
Proof.
  intros sorted_a.
  assert (Hs : Sorted Z.le sorted_a) by (apply Sorted_merge_sort; intros ? ?; lia).
  assert (Hp : sorted_a ≡ₚ a) by apply merge_sort_Permutation.
  assert (Huniq : forall s, sorter s 0 (zlen a - 1) -> seq_run (s 0 (zlen a - 1) Done) a = sorted_a).
  { intros s H. destruct (H a) as (a' & Ha & ->); [lia | lia |]. cbn.
    apply (Sorted_unique Z.le); [by eapply sorts_all | done |]. by rewrite (so_perm _ _ _ _ Ha). }
  split; [by apply Huniq, normal_sorter |]. split; [done |]. split; [done |].
  intros c Hc. assert (Hr : racefree c /\ seq_run c a = sorted_a).
  { destruct Hc as [-> | ->]; split.
    - apply fork_racefree. constructor.
    - by apply Huniq, fork_sorter.
    - apply thread_racefree. constructor.
    - by apply Huniq, thread_sorter. }
  destruct Hr as [Hr E]. split_and!.
  - intros a' H. apply steps_seq_run in H as [_ H]; [| done]. cbn in H. congruence.
  - intros c' a' _. apply step_progress.
  - apply cmd_terminates.
Qed.
