(* ===== verification/Vaccine.v ===== *)
(** * The vaccination simulation

    "Assignment concurrency /q2/Q2.c": a thread per student, zone and company, with a
    mutex per zone (taken by students) and per company (taken by zones).  One step is
    one statement of one thread on the shared data; sleeping is a step that any
    number of steps of others may precede.  The results of rand() are arguments of
    the steps; probabilities are not modelled, so a test may go either way.

    [delivered] and [lost] are history variables: the doses that companies have
    handed to zones, and those that a zone overwrote with a new batch. *)

From S2P Require Import Prelude.

(** ** Random numbers *)

(** [rand()%(b-a+1)+a], for a result [r] of rand(). *)
Definition randoms (r a b : Z) : Z := s32 (Z.rem r (s32 (s32 (b - a) + 1)) + a).

(** ** State *)

(** Where a student thread is: asleep before (another) round; at the loop head for
    zone [i]; holding the mutex of [i] before the test of slots, before [slots--], in
    the loop of student_slotmein at cell [j], returning [r] from it; releasing the
    mutex of a zone without slots; finished; past the end of student_slotmein. *)
Inductive spc :=
  | SArrive (i : nat) | STry (i : nat) | SHeld (i : nat) | SDec (i : nat)
  | SScan (i j : nat) | SRet (i : nat) (r : Z) | SPass (i : nat) | SGone | SFell (i : nat).

Record student := mkstudent {
  s_treated : Z; s_chance : Z; s_zone : Z; s_pc : spc }.
#[export] Instance student_eta : Eta student := fun s =>
  mkstudent (s_treated s) (s_chance s) (s_zone s) (s_pc s).

(** zone_start: initialising cell [j]; looking for a batch at company [i]; holding its
    mutex; before and after [no_of_batches--]; in the loop over zones_under; releasing the mutex
    with [f]; at the loop on capacity.  zone_2: clearing cell [j]; taking doses;
    opening [a] slots; waiting; clearing again. *)
Inductive zpc :=
  | ZInit (j : nat) | ZSeek (i : nat) | ZHeld (i : nat) | ZDec (i : nat) | ZCap (i : nat)
  | ZRec (i j : nat) | ZRel (i : nat) (f : bool) | ZTop | ZClr1 (j : nat) | ZTake
  | ZSlots (a : Z) | ZWait | ZClr2 (j : nat) | ZEnd.

Record zone := mkzone {
  z_slots : Z; z_capacity : Z; z_filled : list Z; z_stati : list Z;
  z_comp : Z; z_pc : zpc }.
#[export] Instance zone_eta : Eta zone := fun z =>
  mkzone (z_slots z) (z_capacity z) (z_filled z) (z_stati z) (z_comp z) (z_pc z).

(** comp_start: before and after the sleep with [x] doses and [y] batches; waiting for
    the batches to go; comp_2: scanning zones_under at [j] with [flag]. *)
Inductive cpc :=
  | CStart | CMake (x y : Z) | CPut (y : Z) | CWait | CScan (j : nat) (flag : bool)
  | CClear | CEnd.

Record comp := mkcomp {
  c_batches : Z; c_per : Z; c_zones : list Z; c_pc : cpc }.
#[export] Instance comp_eta : Eta comp := fun c =>
  mkcomp (c_batches c) (c_per c) (c_zones c) (c_pc c).

Record sim := mksim {
  students : list student; zones : list zone; comps : list comp;
  zmutex : list (option nat); cmutex : list (option nat);
  over : bool; delivered : Z; lost : Z }.
#[export] Instance sim_eta : Eta sim := fun s =>
  mksim (students s) (zones s) (comps s) (zmutex s) (cmutex s) (over s) (delivered s) (lost s).

(** main() up to the creation of the threads; shared memory starts as zeros. *)
Definition student0 : student := mkstudent 0 1 (-1) (SArrive 0).
Definition zone0 : zone := mkzone 0 0 (replicate 8 0) (replicate 8 0) (-1) (ZInit 0).
Definition comp0 : comp := mkcomp 0 0 (replicate 5 0) CStart.
Definition start (ns nz nc : nat) : sim :=
  mksim (replicate ns student0) (replicate nz zone0) (replicate nc comp0)
        (replicate nz None) (replicate nc None) false 0 0.

Section steps.
Implicit Types (s : sim).

Definition set_student (t : nat) (st : student) s : sim :=
  s <| students := <[t := st]> (students s) |>.
Definition set_zone (t : nat) (z : zone) s : sim := s <| zones := <[t := z]> (zones s) |>.
Definition set_comp (t : nat) (c : comp) s : sim := s <| comps := <[t := c]> (comps s) |>.
Definition set_zmutex (i : nat) (o : option nat) s : sim := s <| zmutex := <[i := o]> (zmutex s) |>.
Definition set_cmutex (i : nat) (o : option nat) s : sim := s <| cmutex := <[i := o]> (cmutex s) |>.

(** ** Students *)

(** student_slotmein at cell [j]; [x] is the result of the antibody test. *)
Definition slotmein (t i j : nat) (x : Z) (st : student) (z : zone) s : sim :=
  if (j <? 8)%nat then
    if default 0 (z_filled z !! j) =? -1 then
      let z := z <| z_filled := <[j := Z.of_nat t]> (z_filled z) |>
                 <| z_stati := <[j := x]> (z_stati z) |> in
      let st := st <| s_treated := x |> <| s_chance := s_chance st + 1 |> in
      let r := if (s_chance st =? 4) || (x =? 1) then 1 else 0 in
      set_student t (st <| s_pc := SRet i r |>) (set_zone i z s)
    else set_student t (st <| s_pc := SScan i (S j) |>) s
  else set_student t (st <| s_pc := SFell i |>) s.

Definition student_step (t : nat) (x : Z) s : option sim :=
  st ← students s !! t;
  let goto pc := set_student t (st <| s_pc := pc |>) s in
  match s_pc st with
  | SArrive i => Some (goto (STry i))
  | STry i =>
      match zmutex s !! i with
      | None => Some (goto (STry 0))
      | Some None => Some (set_zmutex i (Some t) (goto (SHeld i)))
      | Some (Some _) => None
      end
  | SHeld i =>
      z ← zones s !! i;
      Some (goto (if 0 <? z_slots z then SDec i else SPass i))
  | SDec i =>
      z ← zones s !! i;
      Some (set_student t (st <| s_zone := Z.of_nat i |> <| s_pc := SScan i 0 |>)
              (set_zone i (z <| z_slots := z_slots z - 1 |>) s))
  | SScan i j => z ← zones s !! i; Some (slotmein t i j x st z s)
  | SRet i r =>
      Some (set_zmutex i None (goto (if r =? 1 then SGone else SArrive (S i))))
  | SPass i => Some (set_zmutex i None (goto (STry (S i))))
  | SGone | SFell _ => None
  end.

(** ** Zones *)

(** zone_start, one statement. *)
Definition zone_step (t : nat) s : option sim :=
  z ← zones s !! t;
  let goto pc := set_zone t (z <| z_pc := pc |>) s in
  let clear j pc := Some (set_zone t (z <| z_filled := <[j := -1]> (z_filled z) |>
                                        <| z_stati := <[j := -1]> (z_stati z) |>
                                        <| z_pc := pc |>) s) in
  match z_pc z with
  | ZInit j =>
      if (j <? 8)%nat then
        Some (set_zone t (z <| z_filled := <[j := -1]> (z_filled z) |> <| z_pc := ZInit (S j) |>) s)
      else Some (goto (ZSeek 0))
  | ZSeek i =>
      match cmutex s !! i with
      | None => Some (goto (ZSeek 0))
      | Some None => Some (set_cmutex i (Some t) (goto (ZHeld i)))
      | Some (Some _) => None
      end
  | ZHeld i =>
      c ← comps s !! i;
      Some (goto (if 0 <? c_batches c then ZDec i else ZRel i false))
  | ZDec i =>
      c ← comps s !! i;
      Some (set_comp i (c <| c_batches := c_batches c - 1 |>) (goto (ZCap i)))
  | ZCap i =>
      c ← comps s !! i;
      Some ((set_zone t (z <| z_capacity := c_per c |> <| z_comp := Z.of_nat i |>
                           <| z_pc := ZRec i 0 |>) s)
              <| delivered := delivered s + c_per c |> <| lost := lost s + z_capacity z |>)
  | ZRec i j =>
      c ← comps s !! i;
      if (j <? 5)%nat then
        if default 0 (c_zones c !! j) =? -1 then
          Some (set_comp i (c <| c_zones := <[j := Z.of_nat t]> (c_zones c) |>)
                  (goto (ZRel i true)))
        else Some (goto (ZRec i (S j)))
      else Some (goto (ZRel i false))
  | ZRel i f => Some (set_cmutex i None (goto (if f then ZTop else ZSeek (S i))))
  | ZTop =>
      Some (goto (if 0 <? z_capacity z then ZClr1 0 else if over s then ZEnd else ZSeek 0))
  | ZClr1 j => if (j <? 8)%nat then clear j (ZClr1 (S j)) else Some (goto ZTake)
  | ZTake =>
      let a := Z.min (z_capacity z) 8 in
      Some (set_zone t (z <| z_capacity := z_capacity z - a |> <| z_pc := ZSlots a |>) s)
  | ZSlots a => Some (set_zone t (z <| z_slots := a |> <| z_pc := ZWait |>) s)
  | ZWait => if (0 <? z_slots z) && negb (over s) then None else Some (goto (ZClr2 0))
  | ZClr2 j =>
      if (j <? 8)%nat then clear j (ZClr2 (S j))
      else Some (goto (if over s then ZEnd else ZTop))
  | ZEnd => None
  end.

(** ** Companies *)

(** comp_start and comp_2; [x] and [y] are the two random numbers. *)
Definition comp_step (t : nat) (x y : Z) s : option sim :=
  c ← comps s !! t;
  let goto pc := set_comp t (c <| c_pc := pc |>) s in
  match c_pc c with
  | CStart =>
      Some (set_comp t (c <| c_zones := replicate 5 (-1) |>
                          <| c_pc := CMake (randoms x 10 20) (randoms y 1 5) |>) s)
  | CMake x y => Some (set_comp t (c <| c_per := x |> <| c_pc := CPut y |>) s)
  | CPut y => Some (set_comp t (c <| c_batches := y |> <| c_pc := CWait |>) s)
  | CWait =>
      if over s then Some (goto CEnd)
      else if 0 <? c_batches c then None
      else Some (goto (CScan 0 false))
  | CScan j flag =>
      if (j <? 5)%nat then
        let u := default (-1) (c_zones c !! j) in
        let busy := match (if u =? -1 then None else zones s !! Z.to_nat u) with
                    | Some z => 0 <? z_capacity z
                    | None => false
                    end in
        Some (goto (CScan (S j) (flag || busy)))
      else if negb flag then Some (goto CClear)
      else if over s then Some (goto CEnd)
      else Some (goto (CScan 0 false))
  | CClear => Some (set_comp t (c <| c_zones := replicate 5 (-1) |> <| c_pc := CStart |>) s)
  | CEnd => None
  end.

(** main() after all students have been joined. *)
Definition is_gone (st : student) : bool := match s_pc st with SGone => true | _ => false end.
Definition main_step s : option sim :=
  if forallb is_gone (students s) then Some (s <| over := true |>) else None.

(** ** Executions *)

(** The thread that moves next, with the random numbers it draws. *)
Inductive event :=
  | EStudent (t : nat) (x : bool) | EZone (t : nat) | EComp (t : nat) (x y : nat) | EMain.

Definition sim_step (e : event) s : option sim :=
  match e with
  | EStudent t x => student_step t (if x then 1 else 0) s
  | EZone t => zone_step t s
  | EComp t x y => comp_step t (Z.of_nat x) (Z.of_nat y) s
  | EMain => main_step s
  end.

Fixpoint sim_run (es : list event) s : option sim :=
  match es with
  | [] => Some s
  | e :: es => s' ← sim_step e s; sim_run es s'
  end.

Inductive reachable (ns nz nc : nat) : sim -> Prop :=
  | reach_start : reachable ns nz nc (start ns nz nc)
  | reach_event s e s' : reachable ns nz nc s -> sim_step e s = Some s' -> reachable ns nz nc s'.
End steps.

(** ** Invariant *)

Section invariant.
Implicit Types (s : sim) (st : student) (z : zone) (c : comp).

Definition zsum {A} (f : A -> Z) (l : list A) : Z := foldr (fun x n => f x + n) 0 l.

Lemma zsum_insert {A} (f : A -> Z) l i x y :
  l !! i = Some x -> zsum f (<[i := y]> l) = zsum f l - f x + f y.
Proof.
  revert i. induction l as [|a l IH]; intros [|i] H; [done | done | |]; cbn in H.
  - injection H as ->. change (f y + zsum f l = f x + zsum f l - f x + f y). lia.
  - change (f a + zsum f (<[i := y]> l) = f a + zsum f l - f x + f y). rewrite (IH i H). lia.
Qed.

(** The zone whose mutex a student holds. *)
Definition section (pc : spc) : option nat :=
  match pc with
  | SHeld i | SDec i | SScan i _ | SRet i _ | SPass i | SFell i => Some i
  | _ => None
  end.

(** The company whose mutex a zone holds. *)
Definition csection (pc : zpc) : option nat :=
  match pc with
  | ZHeld i | ZDec i | ZCap i | ZRec i _ | ZRel i _ => Some i
  | _ => None
  end.

(** Students: never more than three shots, and a reason to leave. *)
Definition student_ok st : Prop :=
  1 <= s_chance st <= 4 /\
  match s_pc st with
  | SRet _ r => (r = 1 /\ (s_chance st = 4 \/ s_treated st = 1)) \/ (r = 0 /\ s_chance st <= 3)
  | SGone => s_chance st = 4 \/ s_treated st = 1
  | _ => s_chance st <= 3
  end.

(** Zones: slots are open only while the zone waits for them to be used. *)
Definition zone_ok (ov : bool) z : Prop :=
  0 <= z_slots z <= 8 /\ 0 <= z_capacity z <= 20 /\
  (forall a, z_pc z = ZSlots a -> 0 <= a <= 8) /\
  (0 < z_slots z ->
     z_pc z = ZWait \/ ov = true /\ (z_pc z = ZEnd \/ exists j, z_pc z = ZClr2 j)).

(** Companies: there are batches only while the company waits for them to be taken. *)
Definition comp_ok c : Prop :=
  0 <= c_batches c <= 5 /\ 0 <= c_per c <= 20 /\
  match c_pc c with
  | CMake x y => c_batches c = 0 /\ 0 <= x <= 20 /\ 0 <= y <= 5
  | CPut y => c_batches c = 0 /\ 0 <= y <= 5
  | CWait | CEnd => True
  | _ => c_batches c = 0
  end.

(** Doses of a zone: in stock, about to be offered, offered; of a student: being
    given (a slot is taken, no cell yet), given. *)
Definition zone_doses z : Z :=
  z_capacity z + z_slots z + match z_pc z with ZSlots a => a | _ => 0 end.
Definition student_doses st : Z :=
  (s_chance st - 1) + match s_pc st with SScan _ _ | SFell _ => 1 | _ => 0 end.

Record vinv s : Prop := {
  vi_student t st : students s !! t = Some st -> student_ok st;
  vi_zone i z : zones s !! i = Some z -> zone_ok (over s) z;
  vi_comp i c : comps s !! i = Some c -> comp_ok c;
  vi_mutex t st i : students s !! t = Some st -> section (s_pc st) = Some i ->
    zmutex s !! i = Some (Some t);
  vi_dec t st i z : students s !! t = Some st -> s_pc st = SDec i ->
    zones s !! i = Some z -> 0 < z_slots z;
  vi_cmutex t z i : zones s !! t = Some z -> csection (z_pc z) = Some i ->
    cmutex s !! i = Some (Some t);
  vi_cdec t z i c : zones s !! t = Some z -> z_pc z = ZDec i ->
    comps s !! i = Some c -> 0 < c_batches c;
  vi_over t st : over s = true -> students s !! t = Some st -> s_pc st = SGone;
  vi_doses : delivered s = lost s + zsum zone_doses (zones s) + zsum student_doses (students s) }.

Lemma randoms_range r a b :
  0 <= r -> 0 <= a -> a <= b -> b < 2 ^ 31 - 1 -> a <= randoms r a b <= b.
Proof.
  intros Hr Ha Hab Hb. unfold randoms.
  rewrite (s32_small (b - a)) by (unfold is_s32; lia).
  rewrite (s32_small (b - a + 1)) by (unfold is_s32; lia).
  pose proof (Z.rem_bound_pos r (b - a + 1) ltac:(lia) ltac:(lia)).
  rewrite s32_small by (unfold is_s32; lia). lia.
Qed.

Lemma lookup_insert_cases {A} (l : list A) i j x y :
  <[i := x]> l !! j = Some y -> (i = j /\ y = x /\ (i < length l)%nat) \/ (i <> j /\ l !! j = Some y).
Proof.
  intros H. destruct (decide (i = j)) as [->|Hne].
  - destruct (decide (j < length l)%nat) as [Hl|Hl].
    + rewrite list_lookup_insert_eq in H by done. injection H as <-. by left.
    + rewrite lookup_ge_None_2 in H by (rewrite length_insert; lia). done.
  - rewrite list_lookup_insert_ne in H by done. by right.
Qed.

Lemma zsum_replicate {A} (f : A -> Z) n x : zsum f (replicate n x) = Z.of_nat n * f x.
Proof. induction n as [|n IH]; cbn [replicate zsum foldr]; [lia |]. fold (zsum f (replicate n x)). lia. Qed.

Lemma start_inv ns nz nc : vinv (start ns nz nc).
Proof.
  constructor; cbn [students zones comps zmutex cmutex over delivered lost start].
  - intros t st [-> _]%lookup_replicate. split; cbn; lia.
  - intros i z [-> _]%lookup_replicate. split_and!; cbn; (lia || done).
  - intros i c [-> _]%lookup_replicate. split_and!; cbn; (lia || done).
  - intros t st i [-> _]%lookup_replicate. done.
  - intros t st i z [-> _]%lookup_replicate. done.
  - intros t z i [-> _]%lookup_replicate. done.
  - intros t z i c [-> _]%lookup_replicate. done.
  - done.
  - rewrite !zsum_replicate. change (zone_doses zone0) with 0.
    change (student_doses student0) with 0. lia.
Qed.

(** A student moves: what has to be checked. *)
Lemma vinv_student s t st st' zs mu :
  vinv s -> students s !! t = Some st -> over s = false -> student_ok st' ->
  (forall i z, zs !! i = Some z -> zone_ok false z) ->
  (forall i z, zs !! i = Some z -> exists y, zones s !! i = Some y /\ z_pc z = z_pc y) ->
  (forall i, section (s_pc st') = Some i -> mu !! i = Some (Some t)) ->
  (forall i u, u <> t -> zmutex s !! i = Some (Some u) -> mu !! i = Some (Some u)) ->
  (forall i z, s_pc st' = SDec i -> zs !! i = Some z -> 0 < z_slots z) ->
  (forall u su i z, u <> t -> students s !! u = Some su -> s_pc su = SDec i ->
     zs !! i = Some z -> 0 < z_slots z) ->
  zsum zone_doses zs + student_doses st' = zsum zone_doses (zones s) + student_doses st ->
  vinv (s <| students := <[t := st']> (students s) |> <| zones := zs |> <| zmutex := mu |>).
Proof.
  intros I Hst Hov Hok Hz Hzpc Hm Hm' Hd Hd' Hs.
  constructor; cbn [students zones comps zmutex cmutex over delivered lost upd].
  - intros u su [(<- & -> & _)|(Hne & Hu)]%lookup_insert_cases; [done | by eapply vi_student].
  - rewrite Hov. done.
  - apply I.
  - intros u su i [(<- & -> & _)|(Hne & Hu)]%lookup_insert_cases Hsec; [by apply Hm |].
    apply Hm'; [done |]. by eapply vi_mutex.
  - intros u su i z [(<- & -> & _)|(Hne & Hu)]%lookup_insert_cases Hpc Hzi;
      [by eapply Hd | by eapply (Hd' u su)].
  - intros u z i (y & Hy & ->)%Hzpc. by apply I.
  - intros u z i c (y & Hy & ->)%Hzpc. by eapply I.
  - congruence.
  - rewrite (zsum_insert _ _ _ _ _ Hst). pose proof (vi_doses s I). lia.
Qed.

(** The same for a student that touches no zone and no mutex. *)
Lemma vinv_goto s t st st' :
  vinv s -> students s !! t = Some st -> over s = false -> student_ok st' ->
  (section (s_pc st') = section (s_pc st) \/ section (s_pc st') = None) ->
  (forall i z, s_pc st' = SDec i -> zones s !! i = Some z -> 0 < z_slots z) ->
  student_doses st' = student_doses st ->
  vinv (set_student t st' s).
Proof.
  intros I Hst Hov Hok Hsec Hd Hs.
  assert (E : set_student t st' s
    = s <| students := <[t := st']> (students s) |> <| zones := zones s |> <| zmutex := zmutex s |>)
    by (by destruct s). rewrite E.
  apply (vinv_student s t st); try done.
  - rewrite <- Hov. apply I.
  - eauto.
  - intros i Hi. destruct Hsec as [Hsec|Hsec]; [| congruence].
    apply (vi_mutex s I t st); congruence.
  - intros u su i z _ Hu Hpc Hz. by eapply (vi_dec s I u).
  - lia.
Qed.

(** Taking and releasing a mutex. *)
Lemma vinv_lock s t st st' i :
  vinv s -> students s !! t = Some st -> over s = false -> student_ok st' ->
  zmutex s !! i = Some None -> section (s_pc st') = Some i ->
  (forall i, s_pc st' <> SDec i) -> student_doses st' = student_doses st ->
  vinv (set_zmutex i (Some t) (set_student t st' s)).
Proof.
  intros I Hst Hov Hok Hfree Hsec Hd Hs.
  assert (E : set_zmutex i (Some t) (set_student t st' s)
    = s <| students := <[t := st']> (students s) |> <| zones := zones s |>
        <| zmutex := <[i := Some t]> (zmutex s) |>) by (by destruct s). rewrite E.
  apply (vinv_student s t st); try done.
  - rewrite <- Hov. apply I.
  - eauto.
  - intros j Hj. rewrite Hsec in Hj. injection Hj as <-.
    apply list_lookup_insert_eq. by eapply lookup_lt_Some.
  - intros j u Hu Hj. rewrite list_lookup_insert_ne; [done |]. intros ->. congruence.
  - intros j z Hj. by destruct (Hd j).
  - intros u su j z _ Hu Hpc Hz. by eapply (vi_dec s I u).
  - lia.
Qed.

Lemma vinv_unlock s t st st' i :
  vinv s -> students s !! t = Some st -> over s = false -> student_ok st' ->
  section (s_pc st) = Some i -> section (s_pc st') = None ->
  student_doses st' = student_doses st ->
  vinv (set_zmutex i None (set_student t st' s)).
Proof.
  intros I Hst Hov Hok Hsec Hsec' Hs.
  assert (E : set_zmutex i None (set_student t st' s)
    = s <| students := <[t := st']> (students s) |> <| zones := zones s |>
        <| zmutex := <[i := None]> (zmutex s) |>) by (by destruct s). rewrite E.
  pose proof (vi_mutex s I t st i Hst Hsec) as Hmine.
  apply (vinv_student s t st); try done.
  - rewrite <- Hov. apply I.
  - eauto.
  - congruence.
  - intros j u Hu Hj. rewrite list_lookup_insert_ne; [done |]. intros ->. congruence.
  - intros j z Hj. by rewrite Hj in Hsec'.
  - intros u su j z _ Hu Hpc Hz. by eapply (vi_dec s I u).
  - lia.
Qed.

(** A student changes the zone whose mutex it holds. *)
Lemma vinv_zone_student s t st st' i z z' :
  vinv s -> students s !! t = Some st -> over s = false -> student_ok st' ->
  zones s !! i = Some z -> zone_ok false z' -> z_pc z' = z_pc z ->
  section (s_pc st) = Some i -> section (s_pc st') = Some i -> (forall i, s_pc st' <> SDec i) ->
  zone_doses z' + student_doses st' = zone_doses z + student_doses st ->
  vinv (set_student t st' (set_zone i z' s)).
Proof.
  intros I Hst Hov Hok Hz Hz' Hpc' Hsec Hsec' Hd Hs.
  assert (E : set_student t st' (set_zone i z' s)
    = s <| students := <[t := st']> (students s) |> <| zones := <[i := z']> (zones s) |>
        <| zmutex := zmutex s |>) by (by destruct s). rewrite E.
  pose proof (vi_mutex s I t st i Hst Hsec) as Hmine.
  apply (vinv_student s t st); try done.
  - intros j y [(<- & -> & _)|(Hne & Hy)]%lookup_insert_cases; [done |].
    rewrite <- Hov. by eapply vi_zone.
  - intros j y [(<- & -> & _)|(Hne & Hy)]%lookup_insert_cases; eauto.
  - intros j Hj. congruence.
  - intros j y Hj. by destruct (Hd j).
  - intros u su j y Hu Hsu Hpc [(<- & -> & _)|(Hne & Hy)]%lookup_insert_cases.
    + pose proof (vi_mutex s I u su i Hsu) as H. rewrite Hpc in H. specialize (H eq_refl). congruence.
    + by eapply (vi_dec s I u).
  - rewrite (zsum_insert _ _ _ _ _ Hz). lia.
Qed.

Lemma student_step_inv t (x : bool) s s' :
  vinv s -> student_step t (if x then 1 else 0) s = Some s' -> vinv s'.
Proof.
  intros I E. unfold student_step in E.
  destruct (students s !! t) as [st|] eqn:Hst; [| done]. cbn [mbind option_bind] in E.
  assert (Hov : over s = false).
  { destruct (over s) eqn:Ho; [| done]. rewrite (vi_over s I t st Ho Hst) in E. done. }
  destruct (vi_student s I t st Hst) as [Hc Hpc].
  destruct (s_pc st) as [i|i|i|i|i j|i r|i| |i] eqn:Epc; try done.
  - injection E as <-. apply (vinv_goto s t st); try done; [by right | cbn].
    unfold student_doses. rewrite Epc. cbn. lia.
  - destruct (zmutex s !! i) as [[u|]|] eqn:Em; [done | |]; injection E as <-.
    + apply (vinv_lock s t st); try done. unfold student_doses. rewrite Epc. done.
    + apply (vinv_goto s t st); try done; [by right |]. unfold student_doses. rewrite Epc. done.
  - destruct (zones s !! i) as [z|] eqn:Hz; [| done]. injection E as <-.
    apply (vinv_goto s t st); try done.
    + split; [done |]. cbn. by case_test.
    + left. rewrite Epc. cbn. by case_test.
    + intros j y. cbn. case_test; [| done]. intros [= <-] Hy. simplify_eq. done.
    + unfold student_doses. rewrite Epc. cbn. by case_test.
  - destruct (zones s !! i) as [z|] eqn:Hz; [| done]. injection E as <-.
    pose proof (vi_dec s I t st i z Hst Epc Hz) as Hpos.
    pose proof (vi_zone s I i z Hz) as (Z1 & Z2 & Z3 & Z4). rewrite Hov in Z4.
    apply (vinv_zone_student s t st _ i z); try done; [| by rewrite Epc |].
    + split_and!; cbn; [lia.. | done |]. intros _. apply Z4. lia.
    + unfold zone_doses, student_doses. rewrite Epc. cbn. lia.
  - destruct (zones s !! i) as [z|] eqn:Hz; [| done]. injection E as <-.
    unfold slotmein. case_test; [case_test |].
    + apply (vinv_zone_student s t st _ i z); try done; [| | by rewrite Epc |].
      * split; [cbn; lia |]. cbn. destruct x; cbn; rewrite ?orb_true_r; [left; tauto |].
        rewrite orb_false_r. destruct (s_chance st + 1 =? 4) eqn:E4; bool_to_prop; [left | right]; lia.
      * pose proof (vi_zone s I i z Hz) as (Z1 & Z2 & Z3 & Z4). rewrite Hov in Z4. done.
      * unfold zone_doses, student_doses. rewrite Epc. cbn. lia.
    + apply (vinv_goto s t st); try done; [by left; rewrite Epc |].
      unfold student_doses. by rewrite Epc.
    + apply (vinv_goto s t st); try done; [by left; rewrite Epc |].
      unfold student_doses. by rewrite Epc.
  - injection E as <-. apply (vinv_unlock s t st); try done.
    + split; [done |]. cbn. case_test; cbn; lia.
    + by rewrite Epc.
    + cbn. by case_test.
    + unfold student_doses. rewrite Epc. cbn. by case_test.
  - injection E as <-. apply (vinv_unlock s t st); try done; [by rewrite Epc |].
    unfold student_doses. by rewrite Epc.
Qed.

(** A zone moves. *)
Lemma vinv_zone s t z z' cs cm d l :
  vinv s -> zones s !! t = Some z -> zone_ok (over s) z' ->
  (forall i c, cs !! i = Some c -> comp_ok c) ->
  (forall i, csection (z_pc z') = Some i -> cm !! i = Some (Some t)) ->
  (forall i u, u <> t -> cmutex s !! i = Some (Some u) -> cm !! i = Some (Some u)) ->
  (forall i c, z_pc z' = ZDec i -> cs !! i = Some c -> 0 < c_batches c) ->
  (forall u y i c, u <> t -> zones s !! u = Some y -> z_pc y = ZDec i ->
     cs !! i = Some c -> 0 < c_batches c) ->
  (0 < z_slots z -> 0 < z_slots z') ->
  d - l - zone_doses z' = delivered s - lost s - zone_doses z ->
  vinv (s <| zones := <[t := z']> (zones s) |> <| comps := cs |> <| cmutex := cm |>
          <| delivered := d |> <| lost := l |>).
Proof.
  intros I Hz Hok Hcs Hm Hm' Hd Hd' Hpos Hs. constructor; cbn [students zones comps zmutex cmutex over delivered lost upd].
  - apply I.
  - intros i y [(<- & -> & _)|(Hne & Hy)]%lookup_insert_cases; [done | by eapply vi_zone].
  - done.
  - apply I.
  - intros u su i y Hu Hpc [(<- & -> & _)|(Hne & Hy)]%lookup_insert_cases;
      [apply Hpos; by eapply (vi_dec s I u) | by eapply (vi_dec s I u)].
  - intros u y i [(<- & -> & _)|(Hne & Hy)]%lookup_insert_cases Hsec; [by apply Hm |].
    apply Hm'; [done |]. by eapply vi_cmutex.
  - intros u y i c [(<- & -> & _)|(Hne & Hy)]%lookup_insert_cases Hpc Hc;
      [by eapply Hd | by eapply (Hd' u y)].
  - apply I.
  - rewrite (zsum_insert _ _ _ _ _ Hz). pose proof (vi_doses s I). lia.
Qed.

(** The same for a zone that changes itself and a mutex. *)
Lemma vinv_zone_self s t z z' cm :
  vinv s -> zones s !! t = Some z -> zone_ok (over s) z' ->
  (forall i, csection (z_pc z') = Some i -> cm !! i = Some (Some t)) ->
  (forall i u, u <> t -> cmutex s !! i = Some (Some u) -> cm !! i = Some (Some u)) ->
  (forall i c, z_pc z' = ZDec i -> comps s !! i = Some c -> 0 < c_batches c) ->
  (0 < z_slots z -> 0 < z_slots z') -> zone_doses z' = zone_doses z ->
  vinv ((set_zone t z' s) <| cmutex := cm |>).
Proof.
  intros I Hz Hok Hm Hm' Hd Hpos Hs.
  assert (E : (set_zone t z' s) <| cmutex := cm |>
    = s <| zones := <[t := z']> (zones s) |> <| comps := comps s |> <| cmutex := cm |>
        <| delivered := delivered s |> <| lost := lost s |>) by (by destruct s). rewrite E.
  apply (vinv_zone s t z); try done; [apply I | | lia].
  intros u y i c _ Hy Hpc Hc. by eapply (vi_cdec s I u).
Qed.

(** ... for one that takes or releases a mutex, *)
Lemma vinv_zone_lock s t z z' i :
  vinv s -> zones s !! t = Some z -> zone_ok (over s) z' ->
  cmutex s !! i = Some None -> csection (z_pc z') = Some i -> (forall i, z_pc z' <> ZDec i) ->
  (0 < z_slots z -> 0 < z_slots z') -> zone_doses z' = zone_doses z ->
  vinv (set_cmutex i (Some t) (set_zone t z' s)).
Proof.
  intros I Hz Hok Hfree Hsec Hd Hpos Hs. apply (vinv_zone_self s t z); try done.
  - intros j Hj. rewrite Hsec in Hj. injection Hj as <-.
    apply list_lookup_insert_eq. by eapply lookup_lt_Some.
  - intros j u Hu Hj. cbn. rewrite list_lookup_insert_ne; [done |]. intros ->. congruence.
  - intros j c Hj. by destruct (Hd j).
Qed.

Lemma vinv_zone_unlock s t z z' i :
  vinv s -> zones s !! t = Some z -> zone_ok (over s) z' ->
  csection (z_pc z) = Some i -> csection (z_pc z') = None ->
  (0 < z_slots z -> 0 < z_slots z') -> zone_doses z' = zone_doses z ->
  vinv (set_cmutex i None (set_zone t z' s)).
Proof.
  intros I Hz Hok Hsec Hsec' Hpos Hs. apply (vinv_zone_self s t z); try done.
  - congruence.
  - intros j u Hu Hj. cbn. rewrite list_lookup_insert_ne; [done |]. intros ->.
    pose proof (vi_cmutex s I t z j Hz Hsec). congruence.
  - intros j c Hj. by rewrite Hj in Hsec'.
Qed.

(** ... for one that touches only itself, *)
Lemma vinv_zone_only s t z z' :
  vinv s -> zones s !! t = Some z -> zone_ok (over s) z' ->
  (csection (z_pc z') = csection (z_pc z) \/ csection (z_pc z') = None) ->
  (forall i c, z_pc z' = ZDec i -> comps s !! i = Some c -> 0 < c_batches c) ->
  (0 < z_slots z -> 0 < z_slots z') -> zone_doses z' = zone_doses z ->
  vinv (set_zone t z' s).
Proof.
  intros I Hz Hok Hsec Hd Hpos Hs.
  assert (E : set_zone t z' s = (set_zone t z' s) <| cmutex := cmutex s |>) by (by destruct s).
  rewrite E. apply (vinv_zone_self s t z); try done.
  intros i Hi. destruct Hsec as [Hsec|Hsec]; [| congruence].
  apply (vi_cmutex s I t z); congruence.
Qed.

Lemma vinv_zone_out s t z z' :
  vinv s -> zones s !! t = Some z -> zone_ok (over s) z' -> csection (z_pc z') = None ->
  (0 < z_slots z -> 0 < z_slots z') -> zone_doses z' = zone_doses z ->
  vinv (set_zone t z' s).
Proof.
  intros I Hz Hok Hsec Hpos Hs. apply (vinv_zone_only s t z); try done; [by right |].
  intros i c Hpc. by rewrite Hpc in Hsec.
Qed.

(** ... and for one that also changes the company whose mutex it holds. *)
Lemma vinv_zone_comp s t z z' i c c' :
  vinv s -> zones s !! t = Some z -> zone_ok (over s) z' -> comps s !! i = Some c -> comp_ok c' ->
  csection (z_pc z) = Some i -> csection (z_pc z') = Some i -> (forall i, z_pc z' <> ZDec i) ->
  (0 < z_slots z -> 0 < z_slots z') -> zone_doses z' = zone_doses z ->
  vinv (set_comp i c' (set_zone t z' s)).
Proof.
  intros I Hz Hok Hc Hc' Hsec Hsec' Hd Hpos Hs.
  assert (E : set_comp i c' (set_zone t z' s)
    = s <| zones := <[t := z']> (zones s) |> <| comps := <[i := c']> (comps s) |>
        <| cmutex := cmutex s |> <| delivered := delivered s |> <| lost := lost s |>)
    by (by destruct s). rewrite E.
  pose proof (vi_cmutex s I t z i Hz Hsec) as Hmine.
  apply (vinv_zone s t z); try done; [| | | | lia].
  - intros j y [(<- & -> & _)|(Hne & Hy)]%lookup_insert_cases; [done | by eapply vi_comp].
  - intros j Hj. congruence.
  - intros j y Hj. by destruct (Hd j).
  - intros u y j k Hu Hy Hpc [(<- & -> & _)|(Hne & Hk)]%lookup_insert_cases.
    + pose proof (vi_cmutex s I u y i Hy) as H. rewrite Hpc in H. specialize (H eq_refl). congruence.
    + by eapply (vi_cdec s I u).
Qed.

(** A zone that is neither waiting nor finished has no open slot. *)
Lemma zone_ok_closed ov z :
  zone_ok ov z -> z_pc z <> ZWait -> z_pc z <> ZEnd -> (forall j, z_pc z <> ZClr2 j) -> z_slots z = 0.
Proof.
  intros (H1 & _ & _ & H4) N1 N2 N3. destruct (decide (0 < z_slots z)) as [Hp|]; [| lia].
  destruct (H4 Hp) as [|(_ & [|(j & Hj)])]; [done | done | by destruct (N3 j)].
Qed.

Lemma zone_ok_idle ov z z' :
  zone_ok ov z -> z_slots z = 0 -> z_slots z' = 0 -> 0 <= z_capacity z' <= 20 ->
  (forall a, z_pc z' = ZSlots a -> 0 <= a <= 8) -> zone_ok ov z'.
Proof. intros H E E' Hc Ha. split_and!; [lia.. | done | lia]. Qed.

(** A step of a zone that changes no slot, no capacity and nothing shared. *)
Ltac zone_idles s t z Epc :=
  apply (vinv_zone_out s t z); try done; try (by apply (zone_ok_idle _ z));
  unfold zone_doses; by rewrite Epc.

(** A zone with the mutex of a company looks at its batches, *)
Lemma zone_tests_inv s t z i c :
  vinv s -> zones s !! t = Some z -> comps s !! i = Some c -> z_pc z = ZHeld i -> z_slots z = 0 ->
  vinv (set_zone t (z <| z_pc := if 0 <? c_batches c then ZDec i else ZRel i false |>) s).
Proof.
  intros I Hz Hc Epc Hcl. pose proof (vi_zone s I t z Hz) as Hok. pose proof Hok as (_ & Z2 & _).
  apply (vinv_zone_only s t z); try done.
  - apply (zone_ok_idle _ z); try done. cbn. by case_test.
  - left. rewrite Epc. cbn. by case_test.
  - intros j k. cbn. case_test; [| done]. intros [= <-] Hk. simplify_eq. done.
  - unfold zone_doses. rewrite Epc. cbn. by case_test.
Qed.

(** counts one down, *)
Lemma zone_orders_inv s t z i c :
  vinv s -> zones s !! t = Some z -> comps s !! i = Some c -> z_pc z = ZDec i -> z_slots z = 0 ->
  vinv (set_comp i (c <| c_batches := c_batches c - 1 |>) (set_zone t (z <| z_pc := ZCap i |>) s)).
Proof.
  intros I Hz Hc Epc Hcl. pose proof (vi_zone s I t z Hz) as Hok. pose proof Hok as (_ & Z2 & _).
  pose proof (vi_cdec s I t z i c Hz Epc Hc) as Hb. destruct (vi_comp s I i c Hc) as (C1 & C2 & C3).
  apply (vinv_zone_comp s t z _ i c); try done; try (by apply (zone_ok_idle _ z)); try (by rewrite Epc).
  - split_and!; cbn; [lia.. |]. destruct (c_pc c); lia || done.
  - unfold zone_doses. by rewrite Epc.
Qed.

(** and takes it. *)
Lemma zone_takes_inv s t z i c :
  vinv s -> zones s !! t = Some z -> comps s !! i = Some c -> z_pc z = ZCap i ->
  vinv ((set_zone t (z <| z_capacity := c_per c |> <| z_comp := Z.of_nat i |> <| z_pc := ZRec i 0 |>) s)
    <| delivered := delivered s + c_per c |> <| lost := lost s + z_capacity z |>).
Proof.
  intros I Hz Hc Epc. pose proof (vi_zone s I t z Hz) as Hok. pose proof (zone_ok_closed _ _ Hok) as Hcl.
  rewrite Epc in Hcl. specialize (Hcl ltac:(done) ltac:(done) ltac:(done)).
  set (z' := z <| z_capacity := c_per c |> <| z_comp := Z.of_nat i |> <| z_pc := ZRec i 0 |>).
  assert (E : (set_zone t z' s) <| delivered := delivered s + c_per c |>
                                 <| lost := lost s + z_capacity z |>
    = s <| zones := <[t := z']> (zones s) |> <| comps := comps s |> <| cmutex := cmutex s |>
        <| delivered := delivered s + c_per c |> <| lost := lost s + z_capacity z |>)
    by (by destruct s). rewrite E.
  destruct (vi_comp s I i c Hc) as (_ & C2 & _).
  apply (vinv_zone s t z); try done; [by apply (zone_ok_idle _ z) | apply I | | |].
  - intros j [= <-]. apply (vi_cmutex s I t z i Hz). by rewrite Epc.
  - intros u y j k _ Hy Hpc Hk. by eapply (vi_cdec s I u).
  - unfold zone_doses. rewrite Epc. cbn. lia.
Qed.

Lemma zone_step_inv t s s' : vinv s -> zone_step t s = Some s' -> vinv s'.
Proof.
  intros I E. unfold zone_step in E.
  destruct (zones s !! t) as [z|] eqn:Hz; [| done]. cbn [mbind option_bind] in E.
  pose proof (vi_zone s I t z Hz) as Hok. pose proof (Hok) as (Z1 & Z2 & Z3 & Z4).
  pose proof (zone_ok_closed _ _ Hok) as Hcl.
  destruct (z_pc z) as [j|i|i|i|i|i j|i f| |j| |a| |j|] eqn:Epc; try done;
    try (specialize (Hcl ltac:(done) ltac:(done) ltac:(done))).
  - destruct (j <? 8)%nat; injection E as <-; zone_idles s t z Epc.
  - destruct (cmutex s !! i) as [[u|]|] eqn:Em; [done | |]; injection E as <-;
      [apply (vinv_zone_lock s t z); try done; [by apply (zone_ok_idle _ z) |] | zone_idles s t z Epc].
    unfold zone_doses; by rewrite Epc.
  - destruct (comps s !! i) as [c|] eqn:Hc; [| done]. injection E as <-. by apply zone_tests_inv.
  - destruct (comps s !! i) as [c|] eqn:Hc; [| done]. injection E as <-. by apply zone_orders_inv.
  - destruct (comps s !! i) as [c|] eqn:Hc; [| done]. injection E as <-. by apply zone_takes_inv.
  - destruct (comps s !! i) as [c|] eqn:Hc; [| done]. cbn [mbind option_bind] in E.
    destruct (j <? 5)%nat; [destruct (default 0 (c_zones c !! j) =? -1) |]; injection E as <-;
      [apply (vinv_zone_comp s t z _ i c) | apply (vinv_zone_only s t z) | apply (vinv_zone_only s t z)];
      try done; try (by apply (zone_ok_idle _ z)); try (by rewrite Epc); try (by left; rewrite Epc);
      try (unfold zone_doses; by rewrite Epc).
    apply (vi_comp s I i c Hc).
  - injection E as <-. apply (vinv_zone_unlock s t z); try done.
    + apply (zone_ok_idle _ z); try done. cbn. by destruct f.
    + by rewrite Epc.
    + cbn. by destruct f.
    + unfold zone_doses. rewrite Epc. cbn. by destruct f.
  - injection E as <-. apply (vinv_zone_out s t z); try done.
    + apply (zone_ok_idle _ z); try done. intros a. cbn. repeat case_test; done.
    + cbn. by repeat case_test.
    + unfold zone_doses. rewrite Epc. cbn. repeat case_test; done.
  - destruct (j <? 8)%nat; injection E as <-; zone_idles s t z Epc.
  - injection E as <-. apply (vinv_zone_out s t z); try done.
    + apply (zone_ok_idle _ z); cbn; [done | done | done | lia |]. intros a [= <-]. lia.
    + unfold zone_doses. rewrite Epc. cbn. lia.
  - injection E as <-. pose proof (Z3 a eq_refl). apply (vinv_zone_out s t z); try done.
    + split_and!; cbn; [lia.. | done | by left].
    + cbn. lia.
    + unfold zone_doses. rewrite Epc. cbn. lia.
  - destruct ((0 <? z_slots z) && negb (over s)) eqn:Ew; [done |]. injection E as <-.
    apply (vinv_zone_out s t z); try done; [| unfold zone_doses; by rewrite Epc].
    split_and!; cbn; [lia.. | done |]. intros Hpos. right.
    apply Z.ltb_lt in Hpos. rewrite Hpos in Ew. apply negb_false_iff in Ew. eauto.
  - assert (Hov : 0 < z_slots z -> over s = true) by (intros Hp; destruct (Z4 Hp) as [|[H _]]; done).
    destruct (j <? 8)%nat; injection E as <-; apply (vinv_zone_out s t z); try done;
      try (cbn; by case_test); try (unfold zone_doses; rewrite Epc; cbn; by repeat case_test).
    + split_and!; cbn; [lia.. | done |]. intros Hp. right. split; [auto | eauto].
    + split_and!; cbn; [lia.. | by case_test |]. intros Hp. rewrite (Hov Hp). auto.
Qed.

Lemma comp_step_inv t (x y : nat) s s' :
  vinv s -> comp_step t (Z.of_nat x) (Z.of_nat y) s = Some s' -> vinv s'.
Proof.
  intros I E. unfold comp_step in E.
  destruct (comps s !! t) as [c|] eqn:Hc; [| done]. cbn [mbind option_bind] in E.
  destruct (vi_comp s I t c Hc) as (C1 & C2 & C3).
  assert (Hset : forall c', comp_ok c' -> c_batches c' = c_batches c \/ c_batches c = 0 ->
    vinv (set_comp t c' s)).
  { intros c' Hok Hb. pose proof (fun u z => vi_cdec s I u z t c) as Hd.
    destruct I. constructor; try done; cbn [zones comps upd set_comp].
    - intros i c0 [(<- & -> & _)|(Hne & Hy)]%lookup_insert_cases; eauto.
    - intros u z i c0 Hz Hpc [(<- & -> & _)|(Hne & Hy)]%lookup_insert_cases; [| eauto].
      specialize (Hd u z Hz Hpc Hc). lia. }
  pose proof (randoms_range (Z.of_nat x) 10 20 ltac:(lia) ltac:(lia) ltac:(lia) ltac:(lia)).
  pose proof (randoms_range (Z.of_nat y) 1 5 ltac:(lia) ltac:(lia) ltac:(lia) ltac:(lia)).
  destruct (c_pc c) as [|x0 y0|y0| |j flag| |] eqn:Epc; try done;
    repeat match type of E with context [if ?b then _ else _] =>
      lazymatch b with context [match _ with _ => _ end] => fail | _ => destruct b eqn:? end end;
    try done; injection E as <-; bool_to_prop; (apply Hset; [split_and!; cbn; done || lia | cbn; lia]).
Qed.

Lemma main_step_inv s s' : vinv s -> main_step s = Some s' -> vinv s'.
Proof.
  intros I E. unfold main_step in E. destruct (forallb is_gone (students s)) eqn:Eg; [| done].
  injection E as <-.
  assert (Hgone : forall t st, students s !! t = Some st -> s_pc st = SGone).
  { intros t st Ht. rewrite forallb_forall in Eg.
    specialize (Eg st (proj1 (list_elem_of_In _ _) (list_elem_of_lookup_2 _ _ _ Ht))).
    unfold is_gone in Eg. by destruct (s_pc st). }
  destruct I as [I1 I2 I3 I4 I5 I6 I7 I8 I9]. constructor; try done.
  - intros i z Hz. destruct (I2 i z Hz) as (Z1 & Z2 & Z3 & Z4).
    split; [exact Z1 |]. split; [exact Z2 |]. split; [exact Z3 |]. intros Hp. destruct (Z4 Hp) as [|[_ ?]]; auto.
  - intros t st _ Ht. by apply (Hgone t).
Qed.

Lemma reachable_inv ns nz nc s : reachable ns nz nc s -> vinv s.
Proof.
  induction 1 as [|s e s' _ I E]; [apply start_inv |].
  destruct e as [t x|t|t x y|]; cbn in E.
  - by eapply student_step_inv.
  - by eapply zone_step_inv.
  - by eapply comp_step_inv.
  - by eapply main_step_inv.
Qed.
End invariant.

(** C39: the simulation is consistent in every interleaving.  In every reachable state,
    the doses delivered by the companies are exactly those in stock, offered as
    slots, being given and given to students, plus those lost when a zone overwrote
    its stock; no student gets more than three shots, and a student who has left has
    tested positive or has had three; a zone never has fewer than 0 or more than 8
    open slots, and a company never fewer than 0 or more than 5 batches; no two students
    are in the critical section of one zone, and no two zones in that of one company. *)
Theorem vaccine_invariant (ns nz nc : nat) (s : sim) :
  reachable ns nz nc s ->
  delivered s = lost s + zsum zone_doses (zones s) + zsum student_doses (students s) /\
  (forall t st, students s !! t = Some st ->
     1 <= s_chance st <= 4 /\ (s_pc st = SGone -> s_chance st = 4 \/ s_treated st = 1)) /\
  (forall i z, zones s !! i = Some z -> 0 <= z_slots z <= 8 /\ 0 <= z_capacity z <= 20) /\
  (forall t u st su i, students s !! t = Some st -> students s !! u = Some su ->
     section (s_pc st) = Some i -> section (s_pc su) = Some i -> t = u) /\
  (forall i c, comps s !! i = Some c -> 0 <= c_batches c <= 5) /\
  (forall t u z y i, zones s !! t = Some z -> zones s !! u = Some y ->
     csection (z_pc z) = Some i -> csection (z_pc y) = Some i -> t = u).
Proof.
  intros I%reachable_inv. split; [apply I |]. split_and!.
  - intros t st Ht. destruct (vi_student s I t st Ht) as [H1 H2]. split; [done |].
    intros E. by rewrite E in H2.
  - intros i z Hz. by destruct (vi_zone s I i z Hz) as (? & ? & _).
  - intros t u st su i Ht Hu Hst Hsu.
    pose proof (vi_mutex s I t st i Ht Hst). pose proof (vi_mutex s I u su i Hu Hsu). congruence.
  - intros i c Hc. by destruct (vi_comp s I i c Hc) as (? & _).
  - intros t u z y i Ht Hu Hz Hy.
    pose proof (vi_cmutex s I t z i Ht Hz). pose proof (vi_cmutex s I u y i Hu Hy). congruence.
Qed.

Lemma sim_run_reachable ns nz nc es s s' :
  reachable ns nz nc s -> sim_run es s = Some s' -> reachable ns nz nc s'.
Proof.
  revert s. induction es as [|e es IH]; intros s H E; cbn in E; [by injection E as <- |].
  destruct (sim_step e s) as [s1|] eqn:E1; [| done]. eapply IH; [| done]. by econstructor.
Qed.

(** A company makes one batch of ten; two zones look for it, the first one takes it and
    opens eight slots, the student is vaccinated in one of them, and the second zone finds no batch. *)
Definition delivery : list event :=
  [EComp 0 0 0; EComp 0 0 0; EComp 0 0 0] ++ replicate 9 (EZone 0) ++ replicate 9 (EZone 1) ++
  replicate 18 (EZone 0) ++ replicate 5 (EStudent 0 true) ++
  [EZone 1; EZone 1].

Lemma vaccine_invariant_witness :
  exists s, sim_run delivery (start 1 2 1) = Some s /\
    delivered s = 10 /\ map z_capacity (zones s) = [2; 0] /\ map z_slots (zones s) = [7; 0] /\
    map s_pc (students s) = [SRet 0 1] /\ map z_pc (zones s) = [ZWait; ZRel 0 false] /\
    delivered s = lost s + zsum zone_doses (zones s) + zsum student_doses (students s).
Proof.
  destruct (sim_run delivery (start 1 2 1)) as [s|] eqn:E; [| vm_compute in E; discriminate].
  exists s. split; [reflexivity |].
  pose proof (proj1 (vaccine_invariant 1 2 1 s
                  (sim_run_reachable 1 2 1 _ _ s (reach_start 1 2 1) E))) as H.
  vm_compute in E. injection E as <-. do 5 (split; [reflexivity |]). exact H.
Defined.

(** One company with one batch of 16 doses, one zone, 16 students.  Students 0 to 6 are
    vaccinated; student 7 takes the last slot of the first round and is delayed
    before student_slotmein; the zone clears its cells twice and opens eight slots;
    student 7 goes on and fills a cell of the second round; so do students 8 to 14,
    and student 15 takes the last slot. *)
Definition visit (t n : nat) : list event := replicate (6 + n) (EStudent t true).
Definition slot_race : list event :=
  replicate 3 (EComp 0 6 0) ++ replicate 27 (EZone 0) ++
  concat ((fun t => visit t t) <$> seq 0 7) ++ replicate 4 (EStudent 7 true) ++
  replicate 22 (EZone 0) ++ replicate 2 (EStudent 7 true) ++
  concat ((fun t => visit (7 + t) t) <$> seq 1 7) ++ replicate 13 (EStudent 15 true).

(** Student_slotmein can run off its end.  A student takes its slot before it looks
    for a free cell, and the zone reopens its slots as soon as the count is 0, without
    the mutex; so a student can fill a cell that belongs to the next round, and a
    later student who got a slot finds all eight cells taken.  The function then
    returns no value, though its caller tests it; the student has used up a dose
    without being vaccinated. *)
Theorem slotmein_no_free_cell :
  exists s, sim_run slot_race (start 16 1 1) = Some s /\ reachable 16 1 1 s /\
    (s_pc <$> students s !! 15%nat) = Some (SFell 0) /\
    (s_chance <$> students s !! 15%nat) = Some 1 /\
    zsum (fun st => s_chance st - 1) (students s) = 15 /\ delivered s = 16 /\
    zsum zone_doses (zones s) = 0.
Proof.
  destruct (sim_run slot_race (start 16 1 1)) as [s|] eqn:E; [| vm_compute in E; discriminate].
  exists s. split; [done |]. split; [by eapply sim_run_reachable; [constructor |] |].
  vm_compute in E. injection E as <-. vm_compute. split_and!; reflexivity.
Qed.
