(* ===== verification/Festival.v ===== *)
(** * The festival simulation

    "Assignment concurrency /q3/Q3.c": a thread per artist.  Everything the threads do
    to the stages happens under the mutex [mut], so a critical section is one step;
    sleeping is a step that any number of steps of others may precede.  A signal on an
    artist's condition variable [hmm] wakes the thread if it is waiting at that
    moment and is lost otherwise. *)

From S2P Require Import Prelude.

Inductive instrument := Piano | Guitar | Violin | Bass | Singer.
#[export] Instance instrument_eq_dec : EqDecision instrument.
Proof. solve_decision. Defined.

Inductive stagetype := Acoustic | Electric.
#[export] Instance stagetype_eq_dec : EqDecision stagetype.
Proof. solve_decision. Defined.

(** An artist has not arrived; is about to search for a stage; waits for one (in
    pthread_cond_timedwait); performs; has joined a musician but does not wait for
    the end yet; waits for it; takes the two extra seconds; is about to call
    perf_ends; wants a t-shirt; is collecting it; is done; has left. *)
Inductive apc :=
  | AArrive | ASearch | AWait | APerform | AJoined | ABlocked | AExtra | AEnds
  | AShirt | ACollect | ADone | ALeft.
#[export] Instance apc_eq_dec : EqDecision apc.
Proof. solve_decision. Defined.

Record artist := mkartist {
  a_instr : instrument; a_stage : option nat; a_imp : bool; a_waiting : bool; a_pc : apc }.
#[export] Instance artist_eta : Eta artist := fun a =>
  mkartist (a_instr a) (a_stage a) (a_imp a) (a_waiting a) (a_pc a).

(** [performers[0]] and [performers[1]]; -1 is [None]. *)
Record stage := mkstage { st_type : stagetype; perf0 : option nat; perf1 : option nat }.
#[export] Instance stage_eta : Eta stage := fun s => mkstage (st_type s) (perf0 s) (perf1 s).

(** [sem] is the semaphore of the coordinators. *)
Record fest := mkfest { artists : list artist; stages : list stage; sem : Z }.
#[export] Instance fest_eta : Eta fest := fun f => mkfest (artists f) (stages f) (sem f).

(** main(): the artists by instrument, then the acoustic and the electric stages. *)
Definition opening (l : list instrument) (na ne nc : nat) : fest :=
  mkfest ((fun i => mkartist i None false false AArrive) <$> l)
         (replicate na (mkstage Acoustic None None) ++ replicate ne (mkstage Electric None None))
         (Z.of_nat nc).

Section steps.
Implicit Types (f : fest) (a : artist) (t x : nat).

(** stage_req: 0 for the violin, 1 for the bass, 2 for the others. *)
Definition stage_req (i : instrument) : Z :=
  match i with Violin => 0 | Bass => 1 | _ => 2 end.

Definition set_artist t a f : fest := f <| artists := <[t := a]> (artists f) |>.
Definition set_stage x (s : stage) f : fest := f <| stages := <[x := s]> (stages f) |>.

(** ** Searching for a stage *)

(** Two of the loops of artist_wait: the first free stage of the required type. *)
Definition find_typed (ty : stagetype) f : option nat :=
  fst <$> list_find (fun s => st_type s = ty /\ perf0 s = None) (stages f).

(** The third: a stage to join, or a free one. *)
Definition can_join (i : instrument) f (s : stage) : bool :=
  match perf0 s with
  | Some p =>
      bool_decide (i = Singer) &&
      match artists f !! p with Some b => bool_decide (a_instr b <> Singer) | None => false end
  | None => false
  end.

Definition suits (i : instrument) f (s : stage) : bool :=
  bool_decide (perf1 s = None) && (can_join i f s || bool_decide (perf0 s = None)).

Definition find_any (i : instrument) f : option nat :=
  fst <$> list_find (fun s => suits i f s = true) (stages f).

(** [stages[i]->performers[0]=curr_artist->id; curr_artist->stage_assigned=i;] *)
Definition take_stage t x a f : fest :=
  set_artist t (a <| a_stage := Some x |> <| a_pc := APerform |>)
    (f <| stages := alter (fun s => s <| perf0 := Some t |>) x (stages f) |>).

(** The singer's branch, which sets the musician's imp_flag. *)
Definition join_stage t x a f : fest :=
  let f := set_artist t (a <| a_stage := Some x |> <| a_pc := AJoined |>)
             (f <| stages := alter (fun s => s <| perf1 := Some t |>) x (stages f) |>) in
  match stages f !! x ≫= perf0 with
  | Some p => f <| artists := alter (fun b => b <| a_imp := true |>) p (artists f) |>
  | None => f
  end.

(** The critical section of artist_wait. *)
Definition artist_wait t a f : fest :=
  match
    (if stage_req (a_instr a) =? 0 then find_typed Acoustic f
     else if stage_req (a_instr a) =? 1 then find_typed Electric f
     else find_any (a_instr a) f)
  with
  | Some x =>
      match stages f !! x with
      | Some s =>
          if (stage_req (a_instr a) =? 2) && can_join (a_instr a) f s then join_stage t x a f
          else take_stage t x a f
      | None => f
      end
  | None => set_artist t (a <| a_waiting := true |> <| a_pc := AWait |>) f
  end.

(** ** The end of a performance *)

(** [pthread_cond_signal(&artists[i]->hmm)]: a waiting artist searches again, a
    waiting singer goes on to the t-shirt. *)
Definition signal (i : nat) f : fest :=
  match artists f !! i with
  | Some b =>
      match a_pc b with
      | AWait => set_artist i (b <| a_pc := ASearch |>) f
      | ABlocked => set_artist i (b <| a_pc := AShirt |>) f
      | _ => f
      end
  | None => f
  end.

(** All four branches of perf_ends do this for a waiting artist [i]. *)
Definition hand_over (x i : nat) f : fest :=
  let f := signal i f in
  let f := f <| stages := alter (fun s => s <| perf0 := None |>) x (stages f) |> in
  let f := match stages f !! x ≫= perf1 with Some p => signal p f | None => f end in
  f <| stages := alter (fun s => s <| perf1 := None |>) x (stages f) |>.

(** The loop of perf_ends by artist [t]; [num] counts the signals. *)
Fixpoint perf_loop (js : list nat) (num : nat) t x f : fest :=
  match js with
  | [] => f
  | i :: js =>
      if (num <? 2)%nat then
        match artists f !! i with
        | Some b =>
            if negb (i =? t)%nat && a_waiting b then perf_loop js (S num) t x (hand_over x i f)
            else perf_loop js num t x f
        | None => f
        end
      else f
  end.

Definition perf_ends t x f : fest := perf_loop (seq 0 (length (artists f))) 0 t x f.

(** ** Steps of an artist *)

(** [timeout] says that pthread_cond_timedwait gives up. *)
Definition artist_step t (timeout : bool) f : option fest :=
  a ← artists f !! t;
  let goto pc := set_artist t (a <| a_pc := pc |>) f in
  match a_pc a with
  | AArrive => Some (goto ASearch)
  | ASearch => Some (artist_wait t a f)
  | AWait => if timeout then Some (goto ALeft) else None
  | APerform => Some (goto (if a_imp a then AExtra else AEnds))
  | AJoined => Some (goto ABlocked)
  | ABlocked => None
  | AExtra => Some (goto AEnds)
  | AEnds =>
      x ← a_stage a;
      Some (perf_ends t x (goto AShirt))
  | AShirt => if 0 <? sem f then Some ((goto ACollect) <| sem := sem f - 1 |>) else None
  | ACollect => Some ((goto ADone) <| sem := sem f + 1 |>)
  | ADone | ALeft => None
  end.

(** A condition variable may also wake its thread without a signal. *)
Definition spurious t f : option fest :=
  a ← artists f !! t;
  match a_pc a with AWait | ABlocked => Some (signal t f) | _ => None end.

Inductive fevent := FArtist (t : nat) (timeout : bool) | FSpurious (t : nat).

Definition fest_step (e : fevent) f : option fest :=
  match e with
  | FArtist t timeout => artist_step t timeout f
  | FSpurious t => spurious t f
  end.

Fixpoint fest_run (es : list fevent) f : option fest :=
  match es with
  | [] => Some f
  | e :: es => f' ← fest_step e f; fest_run es f'
  end.

Inductive held_fest (l : list instrument) (na ne nc : nat) : fest -> Prop :=
  | hf_open : held_fest l na ne nc (opening l na ne nc)
  | hf_step f e f' : held_fest l na ne nc f -> fest_step e f = Some f' -> held_fest l na ne nc f'.
End steps.

(** ** The invariant *)

Section invariant.
Implicit Types (f : fest) (a b : artist) (t x : nat) (s : stage).

Definition performing (p : apc) : bool :=
  match p with APerform | AExtra | AEnds => true | _ => false end.
Definition collects (a : artist) : bool := bool_decide (a_pc a = ACollect).
Definition collecting f : Z := Z.of_nat (length (List.filter collects (artists f))).

Definition right_type (i : instrument) (ty : stagetype) : Prop :=
  (i = Violin -> ty = Acoustic) /\ (i = Bass -> ty = Electric).

(** A performing artist owns a stage of the right type. *)
Definition owns_stage f : Prop := forall t a,
  artists f !! t = Some a -> performing (a_pc a) = true ->
  exists x s, a_stage a = Some x /\ stages f !! x = Some s /\ perf0 s = Some t /\
              right_type (a_instr a) (st_type s).

(** The second performer of a stage is a singer beside one who is not. *)
Definition duets f : Prop := forall x s q,
  stages f !! x = Some s -> perf1 s = Some q ->
  exists b p c, artists f !! q = Some b /\ a_instr b = Singer /\
                perf0 s = Some p /\ artists f !! p = Some c /\ a_instr c <> Singer.

Definition shirts (nc : nat) f : Prop := sem f + collecting f = Z.of_nat nc /\ 0 <= sem f.

Record fest_ok (nc : nat) f : Prop := mkfest_ok {
  fo_stage : owns_stage f; fo_duet : duets f; fo_shirt : shirts nc f }.

(** A change of an artist that takes no stage and no t-shirt. *)
Definition calm (a a' : artist) : Prop :=
  a_instr a' = a_instr a /\ a_stage a' = a_stage a /\
  (performing (a_pc a') = true -> performing (a_pc a) = true) /\ collects a' = collects a.

Lemma filter_insert_length (l : list artist) t a a' :
  l !! t = Some a ->
  Z.of_nat (length (List.filter collects (<[t := a']> l))) + Z.b2z (collects a) =
  Z.of_nat (length (List.filter collects l)) + Z.b2z (collects a').
Proof.
  revert t; induction l as [|b l IH]; intros [|t] H; simplify_eq/=.
  - destruct (collects a), (collects a'); cbn [length Z.b2z]; lia.
  - specialize (IH t H); destruct (collects b); cbn [length]; lia.
Qed.

Lemma lookup_insert_split (l : list artist) t u a a' b :
  <[t := a']> l !! u = Some b -> l !! t = Some a ->
  (u = t /\ b = a') \/ (u <> t /\ l !! u = Some b).
Proof.
  intros H Ht. destruct (decide (u = t)) as [->|Hn].
  - rewrite list_lookup_insert_eq in H by eauto using lookup_lt_Some. left; naive_solver.
  - rewrite list_lookup_insert_ne in H by congruence. auto.
Qed.

Lemma instr_kept (l : list artist) t a a' u b :
  l !! t = Some a -> a_instr a' = a_instr a -> l !! u = Some b ->
  exists b', <[t := a']> l !! u = Some b' /\ a_instr b' = a_instr b.
Proof.
  intros Ht Hi Hu. destruct (decide (u = t)) as [->|Hn].
  - exists a'. rewrite list_lookup_insert_eq by eauto using lookup_lt_Some. naive_solver.
  - exists b. rewrite list_lookup_insert_ne by congruence. auto.
Qed.

Lemma alter_as_insert (g : artist -> artist) (l : list artist) t a :
  l !! t = Some a -> alter g t l = <[t := g a]> l.
Proof.
  intros Ht. apply list_eq. intros j. destruct (decide (t = j)) as [<-|Hn].
  - by rewrite list_lookup_alter_eq, list_lookup_insert_eq, Ht by eauto using lookup_lt_Some.
  - by rewrite list_lookup_alter_ne, list_lookup_insert_ne.
Qed.

Lemma duets_artist f t a a' :
  duets f -> artists f !! t = Some a -> a_instr a' = a_instr a -> duets (set_artist t a' f).
Proof.
  intros HD Ht Hi x s q Hx Hq. destruct (HD x s q Hx Hq) as (b & p & c & ? & ? & ? & ? & ?).
  destruct (instr_kept (artists f) t a a' q b) as (b' & ? & ?); auto.
  destruct (instr_kept (artists f) t a a' p c) as (c' & ? & ?); auto.
  exists b', p, c'. repeat split; cbn; auto; congruence.
Qed.

Lemma shirts_same nc f t a a' S :
  shirts nc f -> artists f !! t = Some a -> collects a' = collects a ->
  shirts nc (set_artist t a' (f <| stages := S |>)).
Proof.
  intros [HS HS'] Ht Hc. pose proof (filter_insert_length _ _ _ a' Ht) as HL. rewrite Hc in HL.
  split; [|done]. unfold collecting in *; cbn in *. lia.
Qed.

Lemma ok_calm nc f t a a' :
  fest_ok nc f -> artists f !! t = Some a -> calm a a' -> fest_ok nc (set_artist t a' f).
Proof.
  intros [HO HD HS] Ht (Hi & Hst & Hp & Hc). split.
  - intros u b Hu Hb. cbn in Hu.
    destruct (lookup_insert_split _ _ _ _ _ _ Hu Ht) as [[-> ->]|[_ Hu']]; [|by apply (HO u b)].
    rewrite Hi, Hst. apply (HO t a Ht). auto.
  - by apply (duets_artist f t a).
  - by apply (shirts_same nc f t a a' (stages f)).
Qed.

Lemma signal_ok nc i f : fest_ok nc f -> fest_ok nc (signal i f).
Proof.
  intros H. unfold signal. destruct (artists f !! i) as [b|] eqn:E; [|done].
  destruct (a_pc b) eqn:Ep; try done; (eapply ok_calm; [done..|]);
    unfold calm, collects; cbn; rewrite Ep; naive_solver.
Qed.

Lemma signal_stages i f : stages (signal i f) = stages f.
Proof. unfold signal. destruct (artists f !! i) as [b|]; [|done]. by destruct (a_pc b). Qed.

(** Nobody performs on the stage. *)
Definition vacant x f : Prop := forall u b,
  artists f !! u = Some b -> performing (a_pc b) = true -> a_stage b <> Some x.

Lemma vacant_signal x i f : vacant x f -> vacant x (signal i f).
Proof.
  intros HV. unfold signal. destruct (artists f !! i) as [b|] eqn:E; [|done].
  destruct (a_pc b) eqn:Ep; try done; intros u c Hu Hc; cbn in Hu;
    destruct (lookup_insert_split _ _ _ _ _ _ Hu E) as [[-> ->]|[_ Hu']]; eauto; discriminate.
Qed.

(** Clearing a stage nobody performs on. *)
Lemma ok_clear0 nc x f :
  fest_ok nc f -> vacant x f -> (forall s, stages f !! x = Some s -> perf1 s = None) ->
  fest_ok nc (f <| stages := alter (fun s => s <| perf0 := None |>) x (stages f) |>).
Proof.
  intros [HO HD HS] HV H1. split; [| |done].
  - intros u b Hu Hb. destruct (HO u b Hu Hb) as (y & s & Hy & Hs & ?).
    exists y, s. split; [done|]. cbn. rewrite list_lookup_alter_ne; [done|].
    intros ->. by apply (HV u b).
  - intros y s q Hy Hq. cbn in Hy. destruct (decide (x = y)) as [<-|Hn].
    + rewrite list_lookup_alter_eq in Hy. apply fmap_Some in Hy as (s0 & Hs0 & ->).
      cbn in Hq. by rewrite (H1 s0 Hs0) in Hq.
    + rewrite list_lookup_alter_ne in Hy by done. by apply (HD y s q).
Qed.

Lemma ok_clear1 nc x f :
  fest_ok nc f ->
  fest_ok nc (f <| stages := alter (fun s => s <| perf1 := None |>) x (stages f) |>).
Proof.
  intros [HO HD HS]. split; [| |done].
  - intros u b Hu Hb. destruct (HO u b Hu Hb) as (y & s & Hy & Hs & ?).
    destruct (decide (x = y)) as [<-|Hn].
    + exists x, (s <| perf1 := None |>). cbn. by rewrite list_lookup_alter_eq, Hs.
    + exists y, s. cbn. by rewrite list_lookup_alter_ne.
  - intros y s q Hy Hq. cbn in Hy. destruct (decide (x = y)) as [<-|Hn].
    + rewrite list_lookup_alter_eq in Hy. apply fmap_Some in Hy as (s0 & Hs0 & ->). done.
    + rewrite list_lookup_alter_ne in Hy by done. by apply (HD y s q).
Qed.

Lemma signal_stage_comm i f S : signal i (f <| stages := S |>) = (signal i f) <| stages := S |>.
Proof.
  unfold signal; cbn. destruct (artists f !! i) as [b|]; [|done]. by destruct (a_pc b).
Qed.

Lemma hand_over_eq x i f :
  hand_over x i f =
  (let g := signal i f in
   let g := match stages f !! x ≫= perf1 with Some p => signal p g | None => g end in
   let g := g <| stages := alter (fun s => s <| perf1 := None |>) x (stages g) |> in
   g <| stages := alter (fun s => s <| perf0 := None |>) x (stages g) |>).
Proof.
  assert (HP : alter (fun s => s <| perf0 := None |>) x (stages f) !! x ≫= perf1 =
               stages f !! x ≫= perf1).
  { rewrite list_lookup_alter_eq. by destruct (stages f !! x). }
  assert (HC : forall l : list stage, alter (fun s => s <| perf1 := None |>) x
                 (alter (fun s => s <| perf0 := None |>) x l) =
               alter (fun s => s <| perf0 := None |>) x
                 (alter (fun s => s <| perf1 := None |>) x l)).
  { intros l. apply list_eq. intros j. destruct (decide (x = j)) as [<-|Hn].
    - rewrite !list_lookup_alter_eq. by destruct (l !! x).
    - by rewrite !list_lookup_alter_ne. }
  unfold hand_over. cbn zeta.
  change (stages (_ <| stages := ?S |>)) with S. rewrite signal_stages, HP.
  destruct (stages f !! x ≫= perf1) as [p|]; cbn; rewrite ?signal_stage_comm, ?signal_stages;
    cbn; by rewrite ?signal_stages, HC.
Qed.

Lemma hand_over_ok nc x i f :
  fest_ok nc f -> vacant x f -> fest_ok nc (hand_over x i f) /\ vacant x (hand_over x i f).
Proof.
  intros H HV. rewrite hand_over_eq. cbn zeta.
  set (g := match stages f !! x ≫= perf1 with Some p => signal p (signal i f) | None => signal i f end).
  assert (Hg : fest_ok nc g /\ vacant x g).
  { unfold g. destruct (stages f !! x ≫= perf1); split;
      repeat first [apply signal_ok | apply vacant_signal]; done. }
  destruct Hg as [Hg HVg]. clearbody g. split; [|exact HVg].
  apply ok_clear0; [by apply ok_clear1|exact HVg|]. cbn. intros s.
  rewrite list_lookup_alter_eq. intros (s0 & _ & ->)%fmap_Some. done.
Qed.

Lemma perf_loop_ok nc x t js : forall num f,
  fest_ok nc f -> vacant x f -> fest_ok nc (perf_loop js num t x f).
Proof.
  induction js as [|i js IH]; intros num f H HV; cbn [perf_loop]; [done|].
  destruct (num <? 2)%nat; [|done]. destruct (artists f !! i) as [b|]; [|done].
  destruct (negb (i =? t)%nat && a_waiting b); [|auto].
  destruct (hand_over_ok nc x i f H HV). auto.
Qed.

(** perf_ends changes nothing when no other artist has ever waited. *)
Lemma perf_ends_nobody t x f :
  (forall i b, artists f !! i = Some b -> i <> t -> a_waiting b = false) -> perf_ends t x f = f.
Proof.
  intros HW. unfold perf_ends. generalize 0%nat (seq 0 (length (artists f))).
  intros num l. revert num. induction l as [|i l IH]; intros num; cbn [perf_loop]; [done|].
  destruct (num <? 2)%nat; [|done]. destruct (artists f !! i) as [b|] eqn:E; [|done].
  destruct (Nat.eqb_spec i t); cbn; [done|]. by rewrite (HW i b).
Qed.

(** Leaving the stage. *)
Lemma ends_ok nc f t a x :
  fest_ok nc f -> artists f !! t = Some a -> a_pc a = AEnds -> a_stage a = Some x ->
  fest_ok nc (perf_ends t x (set_artist t (a <| a_pc := AShirt |>) f)).
Proof.
  intros H Ht Hpc Hx. apply perf_loop_ok.
  - eapply ok_calm; [done..|]. unfold calm, collects; cbn. rewrite Hpc. naive_solver.
  - destruct (fo_stage _ _ H t a Ht) as (x' & s & ? & Hs & Hp & _); [by rewrite Hpc|].
    intros u b Hu Hb Hbx. cbn in Hu.
    destruct (lookup_insert_split _ _ _ _ _ _ Hu Ht) as [[-> ->]|[Hn Hu']]; [discriminate|].
    destruct (fo_stage _ _ H u b Hu' Hb) as (y & s' & ? & ? & ? & _). simplify_eq.
Qed.

(** ** Taking a stage *)

Lemma take_stage_ok nc f t a x s :
  fest_ok nc f -> artists f !! t = Some a -> a_pc a = ASearch ->
  stages f !! x = Some s -> perf0 s = None -> right_type (a_instr a) (st_type s) ->
  fest_ok nc (take_stage t x a f).
Proof.
  intros [HO HD HS] Ht Hpc Hx H0 Hr. unfold take_stage. split.
  - intros u b Hu Hb. cbn in Hu.
    destruct (lookup_insert_split _ _ _ _ _ _ Hu Ht) as [[-> ->]|[Hn Hu']].
    + exists x, (s <| perf0 := Some t |>). cbn. by rewrite list_lookup_alter_eq, Hx.
    + destruct (HO u b Hu' Hb) as (y & s' & ? & Hs' & ? & ?). exists y, s'. cbn.
      rewrite list_lookup_alter_ne by (intros ->; congruence). done.
  - apply (duets_artist _ t a); [|done..]. intros y s' q Hy Hq. cbn in Hy |- *.
    destruct (decide (x = y)) as [<-|Hn].
    + rewrite list_lookup_alter_eq, Hx in Hy. simplify_eq/=.
      destruct (HD x s q Hx Hq) as (? & ? & ? & ? & ? & ? & _). congruence.
    + rewrite list_lookup_alter_ne in Hy by done. by apply (HD y s' q).
  - apply (shirts_same nc f t a); [done..|]. unfold collects; cbn. by rewrite Hpc.
Qed.

Lemma join_ok nc f t a x s :
  fest_ok nc f -> artists f !! t = Some a -> a_pc a = ASearch ->
  stages f !! x = Some s -> perf1 s = None -> can_join (a_instr a) f s = true ->
  fest_ok nc (join_stage t x a f).
Proof.
  intros [HO HD HS] Ht Hpc Hx H1 Hj. unfold can_join in Hj.
  destruct (perf0 s) as [p|] eqn:Hp; [|done].
  apply andb_true_iff in Hj as [Hi Hb]. apply bool_decide_eq_true in Hi.
  destruct (artists f !! p) as [b|] eqn:Eb; [|done]. apply bool_decide_eq_true in Hb.
  assert (HP : alter (fun s => s <| perf1 := Some t |>) x (stages f) !! x ≫= perf0 = Some p).
  { by rewrite list_lookup_alter_eq, Hx. }
  unfold join_stage. cbn zeta.
  change (stages (set_artist _ _ (_ <| stages := ?S |>))) with S. rewrite HP.
  set (a' := a <| a_stage := Some x |> <| a_pc := AJoined |>).
  set (g := set_artist t a' (f <| stages := alter (fun s => s <| perf1 := Some t |>) x (stages f) |>)).
  assert (Hg : fest_ok nc g); [split|].
  - intros u c Hu Hc. cbn in Hu.
    destruct (lookup_insert_split _ _ _ _ _ _ Hu Ht) as [[-> ->]|[Hn Hu']]; [discriminate|].
    destruct (HO u c Hu' Hc) as (y & s' & ? & Hs' & ? & ?). destruct (decide (x = y)) as [<-|Hn'].
    + exists x, (s' <| perf1 := Some t |>). cbn. by rewrite list_lookup_alter_eq, Hs'.
    + exists y, s'. cbn. by rewrite list_lookup_alter_ne.
  - apply (duets_artist _ t a); [|done..]. intros y s' q Hy Hq. cbn in Hy |- *.
    destruct (decide (x = y)) as [<-|Hn].
    + rewrite list_lookup_alter_eq, Hx in Hy. simplify_eq/=. exists a, p, b. auto.
    + rewrite list_lookup_alter_ne in Hy by done. by apply (HD y s' q).
  - apply (shirts_same nc f t a); [done..|]. unfold collects; cbn. by rewrite Hpc.
  - assert (Hgp : exists b', artists g !! p = Some b' /\ a_instr b' = a_instr b).
    { apply (instr_kept _ _ a); done. }
    destruct Hgp as (b' & Hb' & _). clearbody g.
    replace (g <| artists := _ |>) with (set_artist p (b' <| a_imp := true |>) g).
    + apply (ok_calm _ _ _ b'); [done..|]. unfold calm, collects; cbn. naive_solver.
    + unfold set_artist. destruct g as [A S m]. cbn in *. f_equal.
      by rewrite (alter_as_insert _ _ _ _ Hb').
Qed.
End invariant.

Section steps_ok.
Implicit Types (f : fest) (a b : artist) (t x : nat) (s : stage).

Lemma find_typed_Some ty f x :
  find_typed ty f = Some x ->
  exists s, stages f !! x = Some s /\ st_type s = ty /\ perf0 s = None.
Proof.
  unfold find_typed. intros ([y s] & (Hs & Hp & _)%list_find_Some & ->)%fmap_Some. by exists s.
Qed.

Lemma find_any_Some i f x :
  find_any i f = Some x ->
  exists s, stages f !! x = Some s /\ perf1 s = None /\
            (can_join i f s = true \/ can_join i f s = false /\ perf0 s = None).
Proof.
  unfold find_any. intros ([y s] & (Hs & Hf & _)%list_find_Some & ->)%fmap_Some.
  exists s. split; [done|]. unfold suits in Hf.
  apply andb_true_iff in Hf as [H1 H2]. apply bool_decide_eq_true in H1. split; [done|].
  destruct (can_join i f s); [by left|]. right. by apply bool_decide_eq_true in H2.
Qed.

Lemma artist_wait_ok nc f t a :
  fest_ok nc f -> artists f !! t = Some a -> a_pc a = ASearch -> fest_ok nc (artist_wait t a f).
Proof.
  intros H Ht Hpc. unfold artist_wait.
  destruct (if stage_req (a_instr a) =? 0 then _ else _) as [x|] eqn:E.
  2: { eapply ok_calm; [done..|]. unfold calm, collects; cbn. rewrite Hpc. naive_solver. }
  destruct (a_instr a) eqn:Ei; cbn in E |- *;
    first [apply find_typed_Some in E as (s & Hs & Hty & H0)
          |apply find_any_Some in E as (s & Hs & H1 & Hj)]; rewrite Hs.
  3,4: eapply take_stage_ok; [done..|]; rewrite Ei; by split.
  all: destruct Hj as [Hj|[Hj Hf]]; rewrite Hj;
       [eapply join_ok; [done..|by rewrite Ei]
       |eapply take_stage_ok; [done..|]; rewrite Ei; by split].
Qed.

(** The semaphore counts the free coordinators. *)
Lemma ok_shirt nc f t a pc m :
  fest_ok nc f -> artists f !! t = Some a -> performing pc = false -> 0 <= m ->
  m = sem f + Z.b2z (collects a) - Z.b2z (bool_decide (pc = ACollect)) ->
  fest_ok nc ((set_artist t (a <| a_pc := pc |>) f) <| sem := m |>).
Proof.
  intros [HO HD [HS HS']] Ht Hp Hm Hm'. split.
  - intros u b Hu Hb. cbn in Hu.
    destruct (lookup_insert_split _ _ _ _ _ _ Hu Ht) as [[-> ->]|[_ Hu']]; [|by apply (HO u b)].
    cbn in Hb. congruence.
  - by apply (duets_artist f t a).
  - pose proof (filter_insert_length _ _ _ (a <| a_pc := pc |>) Ht) as HL.
    split; [|done]. unfold collecting in *. unfold collects in HL at 4. cbn in *. lia.
Qed.

Lemma ok_goto nc f t a pc :
  fest_ok nc f -> artists f !! t = Some a -> a_pc a <> ACollect -> pc <> ACollect ->
  (performing pc = true -> performing (a_pc a) = true) ->
  fest_ok nc (set_artist t (a <| a_pc := pc |>) f).
Proof.
  intros H Ht Hn Hn' Hp. eapply ok_calm; [done..|]. unfold calm, collects; cbn.
  rewrite !bool_decide_eq_false_2 by done. auto.
Qed.

Lemma artist_step_ok nc t timeout f f' :
  fest_ok nc f -> artist_step t timeout f = Some f' -> fest_ok nc f'.
Proof.
  intros H. unfold artist_step. destruct (artists f !! t) as [a|] eqn:Ht; [|done].
  cbn [mbind option_bind].
  assert (Hgo : forall pc, a_pc a <> ACollect -> pc <> ACollect ->
            (performing pc = true -> performing (a_pc a) = true) ->
            fest_ok nc (set_artist t (a <| a_pc := pc |>) f)) by (intros; by apply ok_goto).
  destruct (a_pc a) eqn:Hpc; intros HE; simplify_eq; auto.
  - by apply artist_wait_ok.
  - destruct timeout; simplify_eq. auto.
  - destruct (a_imp a); auto.
  - destruct (a_stage a) as [x|] eqn:Hx; simplify_eq/=. by apply ends_ok.
  - destruct (Z.ltb_spec 0 (sem f)); simplify_eq.
    apply ok_shirt; [done..|lia|]. unfold collects. rewrite Hpc.
    change (sem f - 1 = sem f + 0 - 1). lia.
  - apply ok_shirt; [done..| |].
    + destruct (fo_shirt _ _ H). lia.
    + unfold collects. rewrite Hpc. change (sem f + 1 = sem f + 1 - 0). lia.
Qed.

Lemma fest_step_ok nc e f f' : fest_ok nc f -> fest_step e f = Some f' -> fest_ok nc f'.
Proof.
  destruct e as [t timeout|t]; cbn; [apply artist_step_ok|]. intros H. unfold spurious.
  destruct (artists f !! t) as [a|]; [|done]. cbn.
  destruct (a_pc a); intros [= <-]; by apply signal_ok.
Qed.

Lemma opening_ok l na ne nc : fest_ok nc (opening l na ne nc).
Proof.
  split.
  - intros t a (i & -> & _)%list_lookup_fmap_Some Hp. discriminate.
  - intros x s q [Hx|[_ Hx]]%lookup_app_Some Hq;
      apply lookup_replicate in Hx as [-> _]; discriminate.
  - split; [|cbn; lia]. unfold collecting. cbn [artists opening sem].
    assert (List.filter collects ((fun i => mkartist i None false false AArrive) <$> l) = []) as ->;
      [|cbn; lia]. induction l; auto.
Qed.

Lemma held_ok l na ne nc f : held_fest l na ne nc f -> fest_ok nc f.
Proof. induction 1; eauto using opening_ok, fest_step_ok. Qed.

Lemma fest_run_held l na ne nc es : forall f f',
  held_fest l na ne nc f -> fest_run es f = Some f' -> held_fest l na ne nc f'.
Proof.
  induction es as [|e es IH]; cbn; intros f f' H; [naive_solver|].
  destruct (fest_step e f) as [g|] eqn:E; [|done]. cbn. apply IH. by eapply hf_step.
Qed.
End steps_ok.

(** ** Properties *)

(** C38: in every state the festival can reach, whatever the order of the threads, the
    timeouts and the spurious wake-ups: two artists perform at the same time only on
    different stages; a violin is on an acoustic stage and a bass on an electric one; an
    artist entered as second performer of a stage is a singer who joined someone who is
    not; and at most as many artists collect a t-shirt as there are coordinators. *)
Theorem festival_invariant (l : list instrument) (na ne nc : nat) (f : fest)
    (H : held_fest l na ne nc f) :
  (forall t u a b x, artists f !! t = Some a -> artists f !! u = Some b ->
     performing (a_pc a) = true -> performing (a_pc b) = true ->
     a_stage a = Some x -> a_stage b = Some x -> t = u) /\
  (forall t a, artists f !! t = Some a -> performing (a_pc a) = true ->
     exists x s, a_stage a = Some x /\ stages f !! x = Some s /\ perf0 s = Some t /\
                 (a_instr a = Violin -> st_type s = Acoustic) /\
                 (a_instr a = Bass -> st_type s = Electric)) /\
  (forall x s q, stages f !! x = Some s -> perf1 s = Some q ->
     exists b p c, artists f !! q = Some b /\ a_instr b = Singer /\
                   perf0 s = Some p /\ artists f !! p = Some c /\ a_instr c <> Singer) /\
  collecting f <= Z.of_nat nc.
Proof.
  destruct (held_ok _ _ _ _ _ H) as [HO HD [HS HS']]. repeat split.
  - intros t u a b x Ht Hu Ha Hb Hx Hx'.
    destruct (HO t a Ht Ha) as (y & s & ? & ? & ? & _).
    destruct (HO u b Hu Hb) as (z & s' & ? & ? & ? & _). simplify_eq. done.
  - intros t a Ht Ha. destruct (HO t a Ht Ha) as (x & s & ? & ? & ? & [? ?]). naive_solver.
  - exact HD.
  - lia.
Qed.

(** A duet on an acoustic stage while the violin waits. *)
Lemma festival_invariant_witness : exists f,
  fest_run [FArtist 0 false; FArtist 0 false; FArtist 1 false; FArtist 1 false;
            FArtist 2 false; FArtist 2 false]
    (opening [Guitar; Singer; Violin] 1 0 1) = Some f /\
  a_pc <$> artists f = [APerform; AJoined; AWait] /\ collecting f <= 1.
Proof.
  eexists. split; [vm_compute; reflexivity|]. split; [vm_compute; reflexivity|].
  apply (festival_invariant [Guitar; Singer; Violin] 1 0 1).
  apply (fest_run_held _ _ _ _
    [FArtist 0 false; FArtist 0 false; FArtist 1 false; FArtist 1 false;
     FArtist 2 false; FArtist 2 false] (opening [Guitar; Singer; Violin] 1 0 1));
    [apply hf_open|]. vm_compute; reflexivity.
Defined.

(** Perf_ends does nothing at all, neither freeing its stage nor waking the singer who
    joined, when no other artist has waited for a stage.  A guitarist and a singer on one
    stage show both consequences: the guitarist is done, the stage still carries the
    guitarist's name, and the singer, who joined during or even after the performance,
    waits for ever, since no thread has a step left. *)
Theorem stage_never_vacated :
  (forall t x f, (forall i b, artists f !! i = Some b -> i <> t -> a_waiting b = false) ->
     perf_ends t x f = f) /\
  (forall late : bool, exists es f,
     (forall e, In e es -> exists t, e = FArtist t false) /\
     fest_run es (opening [Guitar; Singer] 1 0 1) = Some f /\
     a_pc <$> artists f = [ADone; ABlocked] /\
     perf0 <$> stages f = [Some 0%nat] /\
     forall t timeout, artist_step t timeout f = None).
Proof.
  split; [exact perf_ends_nobody|]. intros late.
  set (g n := replicate n (FArtist 0 false)). set (s := replicate 3 (FArtist 1 false)).
  destruct late;
    [exists (g 6%nat ++ s)|exists (g 2%nat ++ s ++ g 5%nat)]; eexists;
    (split; [|split; [vm_compute; reflexivity|split; [reflexivity|split; [reflexivity|]]]]);
    first [intros [|[|t]] timeout; reflexivity
          |intros e He; cbn in He; intuition (subst; eauto)].
Qed.
