(* ===== verification/Bytes.v ===== *)
(** * Bytes and words

    The layout of C data in a disk block: a block is the list of its bytes, [slice] and
    [splice] read and write a range of it, and the fields of an on-disk struct are
    little-endian. *)

From S2P Require Import Prelude.

Definition BSIZE : Z := 512.

(** ** Ranges of a list *)

Definition slice {A} (l : list A) (o n : Z) : list A := take (Z.to_nat n) (drop (Z.to_nat o) l).
Definition splice {A} (l : list A) (o : Z) (w : list A) : list A :=
  take (Z.to_nat o) l ++ w ++ drop (Z.to_nat o + length w) l.

Section ranges.
Context {A : Type}.
Implicit Types (l w : list A) (o n i : Z).

Lemma zlookup_out l i : ~ (0 <= i < zlen l) -> zlookup l i = None.
Proof. intros H. apply eq_None_not_Some. by rewrite zlookup_is_Some. Qed.

Lemma zlen_slice l o n : 0 <= o -> 0 <= n -> o + n <= zlen l -> zlen (slice l o n) = n.
Proof. intros Ho Hn H. unfold slice, zlen in *. rewrite length_take, length_drop. lia. Qed.

Lemma zlookup_slice l o n i : 0 <= o -> 0 <= i < n -> zlookup (slice l o n) i = zlookup l (o + i).
Proof.
  intros Ho Hi. rewrite !zlookup_to_nat by lia. unfold slice.
  rewrite lookup_take_lt, lookup_drop by lia. f_equal. lia.
Qed.

(** A splice at the end makes the list longer. *)
Lemma zlen_splice_ext l o w : 0 <= o <= zlen l -> zlen (splice l o w) = Z.max (zlen l) (o + zlen w).
Proof. intros Ho. unfold splice, zlen in *. rewrite !length_app, length_take, length_drop. lia. Qed.

Lemma zlookup_splice_ext l o w i : 0 <= o <= zlen l -> zlookup (splice l o w) i =
  if decide (o <= i < o + zlen w) then zlookup w (i - o) else zlookup l i.
Proof.
  intros Ho. destruct (decide (0 <= i)) as [Hi|Hi].
  2: { rewrite decide_False, !zlookup_out; [done|lia..]. }
  unfold splice, zlen in *. rewrite zlookup_to_nat by done. case_decide as Hd.
  - rewrite zlookup_to_nat by lia. rewrite lookup_app_r by (rewrite length_take; lia).
    rewrite length_take, lookup_app_l by lia. f_equal. lia.
  - rewrite zlookup_to_nat by done. destruct (decide (i < o)).
    + rewrite lookup_app_l by (rewrite length_take; lia). apply lookup_take_lt. lia.
    + rewrite lookup_app_r by (rewrite length_take; lia). rewrite length_take.
      rewrite lookup_app_r by lia. rewrite lookup_drop. f_equal. lia.
Qed.

Lemma zlen_splice l o w : 0 <= o -> o + zlen w <= zlen l -> zlen (splice l o w) = zlen l.
Proof. intros Ho H. assert (0 <= zlen w) by (unfold zlen; lia). rewrite zlen_splice_ext; lia. Qed.

Lemma zlookup_splice l o w i : 0 <= o -> o + zlen w <= zlen l ->
  zlookup (splice l o w) i = if decide (o <= i < o + zlen w) then zlookup w (i - o) else zlookup l i.
Proof. intros Ho H. assert (0 <= zlen w) by (unfold zlen; lia). apply zlookup_splice_ext. lia. Qed.

Lemma zlist_ext' l w : zlen l = zlen w -> (forall i, 0 <= i < zlen l -> zlookup l i = zlookup w i) -> l = w.
Proof. intros Hl H. apply zlist_ext; [unfold zlen in Hl; lia|done]. Qed.

Lemma slice_splice_eq l o w : 0 <= o -> o + zlen w <= zlen l -> slice (splice l o w) o (zlen w) = w.
Proof.
  intros Ho H. assert (0 <= zlen w) by (unfold zlen; lia). apply zlist_ext'.
  - rewrite zlen_slice; [done|done|done|by rewrite zlen_splice].
  - rewrite zlen_slice by (rewrite ?zlen_splice; lia). intros i Hi.
    rewrite zlookup_slice, zlookup_splice, decide_True by lia. f_equal. lia.
Qed.

Lemma slice_splice_ne l o w o' n : 0 <= o -> o + zlen w <= zlen l -> 0 <= o' -> 0 <= n -> o' + n <= zlen l ->
  o' + n <= o \/ o + zlen w <= o' -> slice (splice l o w) o' n = slice l o' n.
Proof.
  intros Ho H Ho' Hn Hl Hd. apply zlist_ext'.
  - rewrite !zlen_slice; rewrite ?zlen_splice; lia.
  - rewrite zlen_slice by (rewrite ?zlen_splice; lia). intros i Hi.
    by rewrite !zlookup_slice, zlookup_splice, decide_False by lia.
Qed.

(** A range inside a range. *)
Lemma slice_slice l o n o' n' : 0 <= o -> 0 <= o' -> 0 <= n' -> o' + n' <= n -> o + n <= zlen l ->
  slice (slice l o n) o' n' = slice l (o + o') n'.
Proof.
  intros Ho Ho' Hn' Hn H. apply zlist_ext'; [rewrite !zlen_slice; rewrite ?zlen_slice; lia|].
  rewrite zlen_slice by (rewrite ?zlen_slice; lia). intros i Hi.
  rewrite !zlookup_slice by lia. f_equal. lia.
Qed.

Lemma splice_slice l o n : 0 <= o -> 0 <= n -> o + n <= zlen l -> splice l o (slice l o n) = l.
Proof.
  intros Ho Hn H. pose proof (zlen_slice l o n Ho Hn H) as Hs. apply zlist_ext'; [apply zlen_splice; lia|].
  rewrite zlen_splice by lia. intros i Hi. rewrite zlookup_splice by lia. rewrite Hs.
  case_decide; [|done]. rewrite zlookup_slice by lia. f_equal. lia.
Qed.

Lemma splice_over (l w0 w1 w2 : list A) o : 0 <= o -> o + zlen (w0 ++ w1) <= zlen l -> zlen w2 = zlen w0 ->
  splice (splice l o (w0 ++ w1)) o w2 = splice l o (w2 ++ w1).
Proof.
  intros Ho Hl Hw. unfold zlen in *. rewrite length_app in Hl. unfold splice.
  assert (Ht : length (take (Z.to_nat o) l) = Z.to_nat o) by (rewrite length_take; lia).
  rewrite take_app_le, take_ge by lia. rewrite drop_app_ge, <- !app_assoc by lia. do 2 f_equal.
  rewrite drop_app_ge by lia. replace (Z.to_nat o + length w2 - length (take (Z.to_nat o) l) - length w0)%nat with 0%nat by lia.
  rewrite drop_0, !length_app. f_equal. rewrite ?Ht. f_equal. lia.
Qed.

Lemma slice_app_l l w o n : 0 <= o -> 0 <= n -> o + n <= zlen l -> slice (l ++ w) o n = slice l o n.
Proof.
  intros Ho Hn H. unfold slice, zlen in *. rewrite drop_app_le, take_app_le; [done|rewrite length_drop|]; lia.
Qed.

Lemma Forall_slice (P : A -> Prop) l o n : Forall P l -> Forall P (slice l o n).
Proof. intros H. by apply Forall_take, Forall_drop. Qed.

Lemma Forall_splice (P : A -> Prop) l o w : Forall P l -> Forall P w -> Forall P (splice l o w).
Proof. intros H Hw. apply Forall_app. split; [by apply Forall_take|]. apply Forall_app. split; [done|by apply Forall_drop]. Qed.
End ranges.

(** ** Little-endian numbers *)

Fixpoint of_le (l : list Z) : Z :=
  match l with
  | [] => 0
  | b :: l => b + 256 * of_le l
  end.

Fixpoint to_le (k : nat) (z : Z) : list Z :=
  match k with
  | O => []
  | S k => z mod 256 :: to_le k (z / 256)
  end.

Lemma length_to_le k : forall z, length (to_le k z) = k.
Proof. induction k as [|k IH]; intros z; cbn; [done|by rewrite IH]. Qed.

Lemma zlen_to_le k z : zlen (to_le k z) = Z.of_nat k.
Proof. unfold zlen. by rewrite length_to_le. Qed.

Lemma to_le_bytes k : forall z, Forall is_u8 (to_le k z).
Proof.
  induction k as [|k IH]; intros z; cbn; constructor; [|done]. by apply Z.mod_pos_bound.
Qed.

Lemma of_to_le k : forall z, of_le (to_le k z) = z mod 256 ^ Z.of_nat k.
Proof.
  induction k as [|k IH]; intros z; cbn [to_le of_le].
  - by rewrite Z.mod_1_r.
  - rewrite IH, Nat2Z.inj_succ, Z.pow_succ_r by lia.
    rewrite (Z.rem_mul_r z 256 (256 ^ Z.of_nat k)); [done|done|]. apply Z.pow_pos_nonneg; lia.
Qed.

Lemma of_le_range l : Forall is_u8 l -> 0 <= of_le l < 256 ^ zlen l.
Proof.
  induction 1 as [|b l Hb Hl IH]; cbn [of_le]; [done|]. unfold zlen in *. cbn [length].
  rewrite Nat2Z.inj_succ, Z.pow_succ_r by lia. unfold is_u8 in Hb. lia.
Qed.

Lemma to_of_le l : Forall is_u8 l -> to_le (length l) (of_le l) = l.
Proof.
  induction 1 as [|b l Hb Hl IH]; cbn [of_le to_le length]; [done|].
  unfold is_u8 in Hb. rewrite (Z.mul_comm 256), Z.mod_add, Z.div_add by done.
  rewrite Z.mod_small, Z.div_small by lia. by rewrite Z.add_0_l, IH.
Qed.

(** The field of [k] bytes at offset [o]. *)
Definition fget (k : nat) (l : list Z) (o : Z) : Z := of_le (slice l o (Z.of_nat k)).
Definition fput (k : nat) (l : list Z) (o z : Z) : list Z := splice l o (to_le k z).

Section fields.
Implicit Types (l : list Z) (o z : Z) (k : nat).

Lemma zlen_fput k l o z : 0 <= o -> o + Z.of_nat k <= zlen l -> zlen (fput k l o z) = zlen l.
Proof. intros Ho H. apply zlen_splice; [done|]. by rewrite zlen_to_le. Qed.

Lemma fget_fput_eq k l o z : 0 <= o -> o + Z.of_nat k <= zlen l -> fget k (fput k l o z) o = z mod 256 ^ Z.of_nat k.
Proof.
  intros Ho H. unfold fget, fput.
  assert (Hs : slice (splice l o (to_le k z)) o (zlen (to_le k z)) = to_le k z)
    by (apply slice_splice_eq; rewrite ?zlen_to_le; done).
  rewrite zlen_to_le in Hs. by rewrite Hs, of_to_le.
Qed.

Lemma fget_fput_ne k j l o o' z : 0 <= o -> o + Z.of_nat k <= zlen l -> 0 <= o' -> o' + Z.of_nat j <= zlen l ->
  o' + Z.of_nat j <= o \/ o + Z.of_nat k <= o' -> fget j (fput k l o z) o' = fget j l o'.
Proof.
  intros Ho H Ho' H' Hd. unfold fget, fput. f_equal. apply slice_splice_ne; rewrite ?zlen_to_le; lia.
Qed.

Lemma fget_range k l o : Forall is_u8 l -> 0 <= o -> o + Z.of_nat k <= zlen l -> 0 <= fget k l o < 256 ^ Z.of_nat k.
Proof.
  intros Hl Ho H. unfold fget.
  pose proof (of_le_range _ (Forall_slice is_u8 l o (Z.of_nat k) Hl)) as Hr. rewrite zlen_slice in Hr by lia. done.
Qed.

Lemma fput_bytes k l o z : Forall is_u8 l -> Forall is_u8 (fput k l o z).
Proof. intros H. apply Forall_splice; [done|apply to_le_bytes]. Qed.

Lemma fget_splice_ne k l o w o' : 0 <= o -> o + zlen w <= zlen l -> 0 <= o' -> o' + Z.of_nat k <= zlen l ->
  o' + Z.of_nat k <= o \/ o + zlen w <= o' -> fget k (splice l o w) o' = fget k l o'.
Proof. intros Ho H Ho' H' Hd. unfold fget. f_equal. apply slice_splice_ne; lia. Qed.
End fields.

(** The signed 16-bit type [short]. *)
Definition s16 (x : Z) : Z := (x + 2 ^ 15) mod 2 ^ 16 - 2 ^ 15.
Definition is_s16 (x : Z) : Prop := - 2 ^ 15 <= x < 2 ^ 15.

Lemma s16_range x : is_s16 (s16 x).
Proof. unfold is_s16, s16. pose proof (Z.mod_pos_bound (x + 2 ^ 15) (2 ^ 16) ltac:(lia)). lia. Qed.

Lemma s16_mod x : is_s16 x -> s16 (x mod 256 ^ 2) = x.
Proof.
  intros H. unfold s16, is_s16 in *. change (256 ^ 2) with (2 ^ 16).
  rewrite Zplus_mod_idemp_l, Z.mod_small; lia.
Qed.

(** ** Blocks as words

    The buffer cache and the log handle a block as its 128 words. *)

Definition bytes_of (w : list Z) : list Z := w ≫= to_le 4.

Fixpoint words_of (l : list Z) : list Z :=
  match l with
  | a :: b :: c :: d :: l => of_le [a; b; c; d] :: words_of l
  | _ => []
  end.

Lemma bytes_of_cons x w : bytes_of (x :: w) = to_le 4 x ++ bytes_of w.
Proof. done. Qed.

Lemma length_bytes_of w : length (bytes_of w) = (4 * length w)%nat.
Proof.
  induction w as [|x w IH]; [done|]. rewrite bytes_of_cons, length_app, length_to_le, IH. cbn [length]. lia.
Qed.

Lemma words_of_bytes_of w : Forall is_u32 w -> words_of (bytes_of w) = w.
Proof.
  induction 1 as [|x w Hx Hw IH]; [done|]. rewrite bytes_of_cons.
  change (of_le (to_le 4 x) :: words_of (bytes_of w) = x :: w). f_equal; [|done]. rewrite of_to_le. change (256 ^ Z.of_nat 4) with (2 ^ 32).
  by apply Z.mod_small.
Qed.

Lemma bytes_of_words_of l : Forall is_u8 l -> (4 | zlen l) -> bytes_of (words_of l) = l.
Proof.
  intros H [n Hn]. assert (exists k, length l = (4 * k)%nat) as [k Hk].
  { exists (Z.to_nat n). unfold zlen in Hn. lia. }
  clear n Hn. revert l H Hk. induction k as [|k IH]; intros l H Hk.
  { by destruct l; [|cbn in Hk; lia]. }
  destruct l as [|a [|b [|c [|d l]]]]; cbn in Hk; try lia.
  cbn [words_of]. rewrite bytes_of_cons, IH; [|by repeat (apply Forall_cons in H as [_ H])|lia].
  change 4%nat with (length [a; b; c; d]).
  rewrite to_of_le; [done|]. repeat (apply Forall_cons in H as [? H]). by repeat apply Forall_cons_2.
Qed.

Lemma words_of_ok l : Forall is_u8 l -> (4 | zlen l) -> Forall is_u32 (words_of l) /\ 4 * zlen (words_of l) = zlen l.
Proof.
  intros H Hd. split.
  - clear Hd. assert (HP : forall n l, (length l <= n)%nat -> Forall is_u8 l -> Forall is_u32 (words_of l)).
    { induction n as [|n IH]; intros [|a [|b [|c [|d l']]]] Hl Hf; cbn [words_of]; try constructor;
        cbn in Hl; try lia.
      - repeat (apply Forall_cons in Hf as [? Hf]). unfold is_u8, is_u32 in *. cbn. lia.
      - apply IH; [lia|]. by repeat (apply Forall_cons in Hf as [_ Hf]). }
    by apply (HP (length l)).
  - rewrite <- (bytes_of_words_of l H Hd) at 2. unfold zlen. rewrite length_bytes_of. lia.
Qed.
