(* ===== verification/Bio.v ===== *)
(** * The buffer cache

    bio.c, with the sleep locks of sleeplock.c and the disk of memide.c, whose [iderw] has
    the contract of ide.c's without its request queue.  The model runs one process at a
    time: the spin locks around a single step are left to Spinlock.v, and waiting for a
    buffer another process has locked is the outcome [Panic] with its own message.

    A block is its list of 32-bit words.  The doubly linked list of the cache is [order],
    most recently used first, of indices into [bcache.buf].  [writes] records the writes
    to the disk in order, which is what a crash can cut short. *)

From S2P Require Import Prelude Bytes.
From stdpp Require Import gmap.
#[local] Open Scope Z_scope.



Definition NBUF : nat := 30.
Definition B_VALID : Z := 2.
Definition B_DIRTY : Z := 4.
Definition block0 : list Z := replicate 128 0.

Record buf := mkbuf {
  b_flags : Z; b_dev : Z; b_blockno : Z; b_locked : bool; b_pid : Z; b_refcnt : Z;
  b_data : list Z }.
#[export] Instance buf_eta : Eta buf := fun b =>
  mkbuf (b_flags b) (b_dev b) (b_blockno b) (b_locked b) (b_pid b) (b_refcnt b) (b_data b).

Record bio := mkbio {
  barr : list buf; order : list nat; disk : list (list Z); writes : list (Z * list Z) }.
#[export] Instance bio_eta : Eta bio := fun s => mkbio (barr s) (order s) (disk s) (writes s).

Definition buf0 : buf := mkbuf 0 0 0 false 0 0 block0.

(** binit: every buffer is put in front of the list. *)
Definition binit (D : list (list Z)) : bio :=
  mkbio (replicate NBUF buf0) (fold_left (fun l i => i :: l) (seq 0 NBUF) []) D [].

Section ops.
Context (pid : Z). (* myproc()->pid *)
Implicit Types (s : bio) (i : nat) (n : Z).

Definition the_buf i s : buf := default buf0 (barr s !! i).
Definition upd_buf i (f : buf -> buf) : M bio unit :=
  modify (fun s => s <| barr := alter f i (barr s) |>).

(** ** sleeplock.c *)

Definition acquiresleep i : M bio unit :=
  b ← gets (the_buf i);
  if b_locked b then panic "acquiresleep: locked"
  else upd_buf i (fun b => b <| b_locked := true |> <| b_pid := pid |>).

Definition releasesleep i : M bio unit :=
  upd_buf i (fun b => b <| b_locked := false |> <| b_pid := 0 |>).

Definition holdingsleep i : M bio bool :=
  b ← gets (the_buf i); mret (b_locked b && (b_pid b =? pid)).

(** ** memide.c *)

Definition iderw i : M bio unit :=
  h ← holdingsleep i;
  if negb h then panic "iderw: buf not locked" else
  b ← gets (the_buf i);
  if Z.land (b_flags b) (Z.lor B_VALID B_DIRTY) =? B_VALID then panic "iderw: nothing to do" else
  if negb (b_dev b =? 1) then panic "iderw: request not for disk 1" else
  D ← gets disk;
  if zlen D <=? b_blockno b then panic "iderw: block out of range" else
  (if negb (Z.land (b_flags b) B_DIRTY =? 0) then
     upd_buf i (fun b => b <| b_flags := Z.land (b_flags b) (Z.lnot B_DIRTY) |>);;
     modify (fun s => s <| disk := zupd (disk s) (b_blockno b) (b_data b) |>
                        <| writes := writes s ++ [(b_blockno b, b_data b)] |>)
   else upd_buf i (fun b => b <| b_data := zget D (b_blockno b) |>));;
  upd_buf i (fun b => b <| b_flags := Z.lor (b_flags b) B_VALID |>).

(** ** bio.c *)

Definition cached (dev n : Z) s i : bool :=
  (b_dev (the_buf i s) =? dev) && (b_blockno (the_buf i s) =? n).
Definition unused s i : bool :=
  (b_refcnt (the_buf i s) =? 0) && (Z.land (b_flags (the_buf i s)) B_DIRTY =? 0).

Definition bget (dev n : Z) : M bio nat :=
  hit ← gets (fun s => find (cached dev n s) (order s));
  match hit with
  | Some i =>
      upd_buf i (fun b => b <| b_refcnt := b_refcnt b + 1 |>);;
      acquiresleep i;;
      mret i
  | None =>
      free ← gets (fun s => find (unused s) (rev (order s)));
      match free with
      | Some i =>
          upd_buf i (fun b => b <| b_dev := dev |> <| b_blockno := n |> <| b_flags := 0 |>
                                <| b_refcnt := 1 |>);;
          acquiresleep i;;
          mret i
      | None => panic "bget: no buffers"
      end
  end.

Definition bread (dev n : Z) : M bio nat :=
  i ← bget dev n;
  b ← gets (the_buf i);
  (if Z.land (b_flags b) B_VALID =? 0 then iderw i else mret tt);;
  mret i.

Definition bwrite i : M bio unit :=
  h ← holdingsleep i;
  if negb h then panic "bwrite" else
  upd_buf i (fun b => b <| b_flags := Z.lor (b_flags b) B_DIRTY |>);;
  iderw i.

Definition brelse i : M bio unit :=
  h ← holdingsleep i;
  if negb h then panic "brelse" else
  releasesleep i;;
  upd_buf i (fun b => b <| b_refcnt := b_refcnt b - 1 |>);;
  b ← gets (the_buf i);
  if b_refcnt b =? 0 then
    modify (fun s => s <| order := i :: List.filter (fun j => negb (j =? i)%nat) (order s) |>)
  else mret tt.

(** ** What the cache stands for

    [O] holds the contents of the dirty blocks and [H] the buffers of the blocks in use.
    Every other valid buffer agrees with the disk. *)

Definition held_as (H : gmap Z nat) i (b : buf) : Prop :=
  H !! b_blockno b = Some i /\ b_locked b = true /\ b_pid b = pid /\ b_refcnt b = 1 \/
  H !! b_blockno b = None /\ b_locked b = false /\ b_refcnt b = 0.

Definition content (D : list (list Z)) (O : gmap Z (list Z)) n : option (list Z) :=
  match O !! n with Some d => Some d | None => zlookup D n end.

Definition buf_ok D O (H : gmap Z nat) i (b : buf) : Prop :=
  b_dev b = 1 /\ held_as H i b /\ content D O (b_blockno b) = Some (b_data b) /\
  b_flags b = (if decide (is_Some (O !! b_blockno b)) then 6 else 2) \/
  b_dev b = 0 /\ b_locked b = false /\ b_refcnt b = 0 /\ b_flags b = 0.

Record cache_ok (s : bio) (O : gmap Z (list Z)) (H : gmap Z nat) : Prop := mkcache_ok {
  co_len : length (barr s) = NBUF;
  co_order : order s ≡ₚ seq 0 NBUF;
  co_key : forall i j b c, barr s !! i = Some b -> barr s !! j = Some c ->
    b_dev b = 1 -> b_dev c = 1 -> b_blockno b = b_blockno c -> i = j;
  co_buf : forall i b, barr s !! i = Some b -> buf_ok (disk s) O H i b;
  co_dirty : forall n, is_Some (O !! n) ->
    exists i b, barr s !! i = Some b /\ b_dev b = 1 /\ b_blockno b = n;
  co_held : forall n i, H !! n = Some i ->
    exists b, barr s !! i = Some b /\ b_dev b = 1 /\ b_blockno b = n }.
End ops.

(** ** Running the operations on a buffer *)

Section run.
Context (pid : Z).
Implicit Types (s : bio) (i : nat) (n : Z) (b : buf).

Definition put_buf i b s : bio := s <| barr := <[i := b]> (barr s) |>.

Lemma the_buf_at i s b : barr s !! i = Some b -> the_buf i s = b.
Proof. unfold the_buf. by intros ->. Qed.

Lemma put_buf_at i s b b' : barr s !! i = Some b -> barr (put_buf i b' s) !! i = Some b'.
Proof. intros H. cbn. apply list_lookup_insert_eq. eauto using lookup_lt_Some. Qed.

Lemma put_put i b b' s : put_buf i b' (put_buf i b s) = put_buf i b' s.
Proof. unfold put_buf. cbn. by rewrite list_insert_insert_eq. Qed.

Lemma upd_run i f s b : barr s !! i = Some b -> upd_buf i f s = Ok tt (put_buf i (f b) s).
Proof.
  intros H. unfold upd_buf, modify, put_buf.
  assert (alter f i (barr s) = <[i := f b]> (barr s)) as ->; [|done].
  apply list_eq. intros j. destruct (decide (i = j)) as [<-|Hn].
  - by rewrite list_lookup_alter_eq, list_lookup_insert_eq, H by eauto using lookup_lt_Some.
  - by rewrite list_lookup_alter_ne, list_lookup_insert_ne.
Qed.

Lemma acquiresleep_run i s b :
  barr s !! i = Some b -> b_locked b = false ->
  acquiresleep pid i s = Ok tt (put_buf i (b <| b_locked := true |> <| b_pid := pid |>) s).
Proof.
  intros H HL. unfold acquiresleep. erewrite bind_run by reflexivity.
  rewrite (the_buf_at _ _ _ H), HL. by rewrite (upd_run _ _ _ _ H).
Qed.

Lemma holdingsleep_run i s b :
  barr s !! i = Some b -> b_locked b = true -> b_pid b = pid -> holdingsleep pid i s = Ok true s.
Proof.
  intros H HL HP. unfold holdingsleep. erewrite bind_run by reflexivity.
  by rewrite (the_buf_at _ _ _ H), HL, HP, Z.eqb_refl.
Qed.

Lemma iderw_read i s b :
  barr s !! i = Some b -> b_locked b = true -> b_pid b = pid -> b_flags b = 0 -> b_dev b = 1 ->
  b_blockno b < zlen (disk s) ->
  iderw pid i s =
  Ok tt (put_buf i (b <| b_data := zget (disk s) (b_blockno b) |> <| b_flags := 2 |>) s).
Proof.
  intros H HL HP HF HD Hn. unfold iderw.
  erewrite bind_run by by eapply holdingsleep_run.
  cbn [negb]. erewrite bind_run by reflexivity.
  rewrite (the_buf_at _ _ _ H), HF, HD.
  change (Z.land 0 (Z.lor B_VALID B_DIRTY) =? B_VALID) with false. cbn [Z.eqb Pos.eqb negb].
  erewrite bind_run by reflexivity. rewrite (proj2 (Z.leb_gt _ _) Hn).
  erewrite bind_run by exact (upd_run _ _ _ _ H).
  erewrite upd_run by by eapply put_buf_at. cbn. by rewrite put_put, HF.
Qed.

Lemma iderw_write i s b :
  barr s !! i = Some b -> b_locked b = true -> b_pid b = pid -> b_flags b = 6 -> b_dev b = 1 ->
  b_blockno b < zlen (disk s) ->
  iderw pid i s =
  Ok tt (put_buf i (b <| b_flags := 2 |>)
    (s <| disk := zupd (disk s) (b_blockno b) (b_data b) |>
       <| writes := writes s ++ [(b_blockno b, b_data b)] |>)).
Proof.
  intros H HL HP HF HD Hn. unfold iderw.
  erewrite bind_run by by eapply holdingsleep_run.
  cbn [negb]. erewrite bind_run by reflexivity.
  rewrite (the_buf_at _ _ _ H), HF, HD.
  change (Z.land 6 (Z.lor B_VALID B_DIRTY) =? B_VALID) with false. cbn [Z.eqb Pos.eqb negb].
  erewrite bind_run by reflexivity. rewrite (proj2 (Z.leb_gt _ _) Hn).
  erewrite bind_run.
  2: { change (negb (Z.land 6 B_DIRTY =? 0)) with true. cbv iota.
       erewrite bind_run by exact (upd_run _ _ _ _ H). reflexivity. }
  erewrite upd_run by by eapply put_buf_at. cbn. unfold put_buf; cbn.
  by rewrite list_insert_insert_eq, HF.
Qed.

Lemma bwrite_run i s b :
  barr s !! i = Some b -> b_locked b = true -> b_pid b = pid -> b_flags b = 2 \/ b_flags b = 6 ->
  b_dev b = 1 -> b_blockno b < zlen (disk s) ->
  bwrite pid i s =
  Ok tt (put_buf i (b <| b_flags := 2 |>)
    (s <| disk := zupd (disk s) (b_blockno b) (b_data b) |>
       <| writes := writes s ++ [(b_blockno b, b_data b)] |>)).
Proof.
  intros H HL HP HF HD Hn. unfold bwrite.
  erewrite bind_run by by eapply holdingsleep_run.
  cbn [negb]. erewrite bind_run by exact (upd_run _ _ _ _ H).
  erewrite iderw_write; [|by eapply put_buf_at|cbn; auto..].
  - unfold put_buf; cbn. by rewrite list_insert_insert_eq.
  - destruct HF as [-> | ->]; reflexivity.
Qed.

Lemma brelse_run i s b :
  barr s !! i = Some b -> b_locked b = true -> b_pid b = pid -> b_refcnt b = 1 ->
  brelse pid i s =
  Ok tt ((put_buf i (b <| b_locked := false |> <| b_pid := 0 |> <| b_refcnt := 0 |>) s)
           <| order := i :: List.filter (fun j => negb (j =? i)%nat) (order s) |>).
Proof.
  intros H HL HP HR. unfold brelse.
  erewrite bind_run by by eapply holdingsleep_run.
  cbn [negb]. erewrite bind_run by exact (upd_run _ _ _ _ H).
  erewrite bind_run by (eapply upd_run; by eapply put_buf_at).
  erewrite bind_run by reflexivity.
  erewrite the_buf_at by (eapply put_buf_at; by eapply put_buf_at).
  cbn. rewrite HR. cbn. by rewrite put_put.
Qed.
End run.

(** ** The invariant *)

Section spec.
Context (pid : Z).
Implicit Types (s : bio) (i : nat) (n : Z) (b : buf) (O : gmap Z (list Z)) (H : gmap Z nat).
Abbreviation cache_ok := (cache_ok pid).
Abbreviation buf_ok := (buf_ok pid).

(** One buffer and the entries of its block change. *)
Lemma cache_set s s' O H O' H' i b b' :
  cache_ok s O H -> barr s !! i = Some b -> barr s' = <[i := b']> (barr s) ->
  order s' ≡ₚ order s -> b_dev b' = 1 -> buf_ok (disk s') O' H' i b' ->
  (forall j c, j <> i -> barr s !! j = Some c -> b_dev c = 1 -> b_blockno c <> b_blockno b') ->
  (forall m, m <> b_blockno b' ->
     O' !! m = O !! m /\ H' !! m = H !! m /\ zlookup (disk s') m = zlookup (disk s) m) ->
  (b_dev b = 1 -> b_blockno b <> b_blockno b' ->
     O !! b_blockno b = None /\ H !! b_blockno b = None) ->
  (forall k, H' !! b_blockno b' = Some k -> k = i) ->
  cache_ok s' O' H'.
Proof.
  intros [HL HO HK HB HD HH] Hi Hs' Hor Hdev Hok Hne Hsame Hold Hheld.
  assert (Hat : barr s' !! i = Some b')
    by (rewrite Hs', list_lookup_insert_eq; eauto using lookup_lt_Some).
  assert (Hother : forall j, j <> i -> barr s' !! j = barr s !! j)
    by (intros; rewrite Hs', list_lookup_insert_ne; auto).
  split.
  - by rewrite Hs', length_insert.
  - by rewrite Hor.
  - intros j k c d Hj Hk Hc Hd E. destruct (decide (j = i)) as [->|Hj'], (decide (k = i)) as [->|Hk'].
    + done.
    + rewrite Hother in Hk by done. rewrite Hat in Hj. simplify_eq. exfalso. eapply Hne; eauto.
    + rewrite Hother in Hj by done. rewrite Hat in Hk. simplify_eq. exfalso. eapply Hne; eauto.
    + rewrite Hother in Hj, Hk by done. eauto.
  - intros j c Hj. destruct (decide (j = i)) as [->|Hj']; [congruence|].
    rewrite Hother in Hj by done. destruct (HB j c Hj) as [(Hc & Hh & Hct & Hf)|Hc]; [left|by right].
    destruct (Hsame (b_blockno c)) as (EO & EH & ED); [by eapply Hne|].
    unfold held_as, content in *. rewrite EO, EH, ED. done.
  - intros m Hm. destruct (decide (m = b_blockno b')) as [->|Hn]; [by exists i, b'|].
    destruct (Hsame m Hn) as (EO & _ & _). rewrite EO in Hm.
    destruct (HD m Hm) as (j & c & Hj & Hc & <-).
    exists j, c. rewrite Hother; [done|]. intros ->. simplify_eq.
    destruct (Hold Hc Hn) as [E _]. rewrite E in Hm. by destruct Hm.
  - intros m k Hm. destruct (decide (m = b_blockno b')) as [->|Hn].
    { rewrite (Hheld k Hm). by exists b'. }
    destruct (Hsame m Hn) as (_ & EH & _). rewrite EH in Hm.
    destruct (HH m k Hm) as (c & Hk & Hc & <-). exists c. rewrite Hother; [done|].
    intros ->. simplify_eq. destruct (Hold Hc Hn) as [_ E]. congruence.
Qed.

(** The same when the buffer keeps its block. *)
Lemma cache_upd s s' O H O' H' i b b' :
  cache_ok s O H -> barr s !! i = Some b -> barr s' = <[i := b']> (barr s) ->
  order s' ≡ₚ order s -> b_dev b = 1 -> b_dev b' = 1 -> b_blockno b' = b_blockno b ->
  buf_ok (disk s') O' H' i b' ->
  (forall m, m <> b_blockno b ->
     O' !! m = O !! m /\ H' !! m = H !! m /\ zlookup (disk s') m = zlookup (disk s) m) ->
  (forall k, H' !! b_blockno b = Some k -> k = i) ->
  cache_ok s' O' H'.
Proof.
  intros HC Hi Hs' Hor Hd Hd' Hn Hok Hsame Hh.
  eapply cache_set; try done; rewrite ?Hn; try done.
  intros j c Hj Hc Hcd E. apply Hj. by eapply (co_key _ _ _ _ HC).
Qed.

Lemma in_order s O H i : cache_ok s O H -> i ∈ order s <-> exists b, barr s !! i = Some b.
Proof.
  intros HC. rewrite (co_order _ _ _ _ HC), elem_of_seq.
  change (exists b, barr s !! i = Some b) with (is_Some (barr s !! i)).
  rewrite lookup_lt_is_Some, (co_len _ _ _ _ HC). lia.
Qed.

Lemma find_in {A} (P : A -> bool) (l : list A) x : find P l = Some x -> x ∈ l /\ P x = true.
Proof. intros [Hin HP]%find_some. split; [by apply list_elem_of_In|done]. Qed.

Lemma find_out {A} (P : A -> bool) (l : list A) x : find P l = None -> x ∈ l -> P x = false.
Proof. intros Hf Hx%list_elem_of_In. by eapply find_none. Qed.

(** Moving an entry to the front of the list. *)
Lemma to_front (l : list nat) i :
  NoDup l -> i ∈ l -> l ≡ₚ i :: List.filter (fun j => negb (j =? i)%nat) l.
Proof.
  induction 1 as [|j l Hj _ IH]; [by intros ?%elem_of_nil|].
  intros Hi. cbn. destruct (Nat.eqb_spec j i) as [->|Hn]; cbn.
  - f_equiv. clear IH Hi. induction l as [|k l IH]; cbn; [done|].
    apply not_elem_of_cons in Hj as [Hk Hj]. destruct (Nat.eqb_spec k i); [congruence|cbn].
    f_equiv. auto.
  - apply elem_of_cons in Hi as [->|Hi]; [done|]. rewrite (IH Hi) at 1. apply perm_swap.
Qed.

(** The buffer of a block in use, and what it holds. *)
Lemma held_buf s O H n i :
  cache_ok s O H -> H !! n = Some i ->
  exists b, barr s !! i = Some b /\ b_dev b = 1 /\ b_blockno b = n /\
    b_locked b = true /\ b_pid b = pid /\ b_refcnt b = 1 /\
    content (disk s) O n = Some (b_data b) /\
    b_flags b = (if decide (is_Some (O !! n)) then 6 else 2).
Proof.
  intros HC Hn. destruct (co_held _ _ _ _ HC n i Hn) as (b & Hb & Hd & <-).
  exists b. destruct (co_buf _ _ _ _ HC i b Hb) as [(_ & Hh & Hc & Hf)|(? & _)]; [|congruence].
  destruct Hh as [(_ & ? & ? & ?)|(? & _)]; [|congruence]. auto 10.
Qed.

Lemma held_data s O H n i :
  cache_ok s O H -> H !! n = Some i -> content (disk s) O n = Some (b_data (the_buf i s)).
Proof.
  intros HC Hn. destruct (held_buf _ _ _ _ _ HC Hn) as (b & Hb & _ & _ & _ & _ & _ & Hc & _).
  by rewrite (the_buf_at _ _ _ Hb).
Qed.

(** A full cache holds as many different busy blocks as it has buffers. *)
Lemma cache_full s O H :
  cache_ok s O H -> find (unused s) (rev (order s)) = None ->
  (NBUF <= size (dom O ∪ dom H : gset Z))%nat.
Proof.
  intros HC Hf. set (l := (fun i => b_blockno (the_buf i s)) <$> seq 0 NBUF).
  assert (Hbusy : forall i, (i < NBUF)%nat -> exists b, barr s !! i = Some b /\ b_dev b = 1 /\
            (is_Some (O !! b_blockno b) \/ is_Some (H !! b_blockno b))).
  { intros i Hi. rewrite <- (co_len _ _ _ _ HC) in Hi. apply lookup_lt_is_Some in Hi as [b Hb].
    exists b. assert (Hu : unused s i = false).
    { eapply find_out; [done|]. apply list_elem_of_In. rewrite <- in_rev. apply list_elem_of_In.
      eapply in_order; eauto. }
    unfold unused in Hu. rewrite (the_buf_at _ _ _ Hb) in Hu.
    destruct (co_buf _ _ _ _ HC i b Hb) as [(Hd & Hh & _ & Hfl)|(_ & _ & Hr & Hfl)].
    2: { by rewrite Hr, Hfl in Hu. }
    split; [done|split; [done|]]. destruct Hh as [(-> & _)|(_ & _ & Hr)]; [eauto|].
    rewrite Hr, Hfl in Hu. destruct (decide (is_Some (O !! b_blockno b))); [by left|done]. }
  transitivity (length l). { unfold l. by rewrite length_fmap, length_seq. }
  rewrite <- (size_list_to_set (C := gset Z) l).
  - apply subseteq_size. intros n. rewrite elem_of_list_to_set. unfold l.
    intros (i & -> & Hi)%list_elem_of_fmap. apply elem_of_seq in Hi.
    destruct (Hbusy i) as (b & Hb & _ & Hin); [lia|]. rewrite (the_buf_at _ _ _ Hb).
    rewrite elem_of_union, !elem_of_dom. done.
  - apply NoDup_fmap_2_strong; [|apply NoDup_seq]. intros i j Hi%elem_of_seq Hj%elem_of_seq E.
    destruct (Hbusy i) as (b & Hb & Hbd & _); [lia|]. destruct (Hbusy j) as (c & Hc & Hcd & _); [lia|].
    rewrite (the_buf_at _ _ _ Hb), (the_buf_at _ _ _ Hc) in E. by eapply (co_key _ _ _ _ HC).
Qed.

(** What an operation leaves alone. *)
Definition same_disk s s' : Prop := disk s' = disk s /\ writes s' = writes s.

Lemma bread_hit s O H n i :
  cache_ok s O H -> H !! n = None -> find (cached 1 n s) (order s) = Some i ->
  exists s', bread pid 1 n s = Ok i s' /\ cache_ok s' O (<[n := i]> H) /\ same_disk s s'.
Proof.
  intros HC HH Hf. pose proof (find_in _ _ _ Hf) as [Hin Hk].
  apply (in_order _ _ _ _ HC) in Hin as [b Hb].
  unfold cached in Hk. rewrite (the_buf_at _ _ _ Hb) in Hk. bool_to_prop. subst n.
  destruct (co_buf _ _ _ _ HC i b Hb) as [(Hd & Hh & Hc & Hfl)|(? & _)]; [|congruence].
  destruct Hh as [(? & _)|(_ & HL & HR)]; [congruence|].
  set (b1 := b <| b_refcnt := 1 |> <| b_locked := true |> <| b_pid := pid |>).
  exists (put_buf i b1 s). split; [|split; [|done]].
  - unfold bread. erewrite bind_run.
    2: { unfold bget. erewrite bind_run by reflexivity. rewrite Hf.
         erewrite bind_run by exact (upd_run _ _ _ _ Hb).
         erewrite bind_run by (eapply acquiresleep_run; [by eapply put_buf_at|done]).
         rewrite put_put. reflexivity. }
    erewrite bind_run by reflexivity. rewrite HR. change (0 + 1) with 1. fold b1.
    erewrite the_buf_at by by eapply put_buf_at. change (b_flags b1) with (b_flags b). rewrite Hfl.
    by destruct (decide _).
  - eapply (cache_upd s _ O H _ _ i b b1); try done.
    + left. split; [done|]. split; [left; cbn; by rewrite lookup_insert_eq|]. split; done.
    + intros m Hm. by rewrite lookup_insert_ne.
    + intros k. rewrite lookup_insert_eq. congruence.
Qed.

Lemma bread_miss s O H n i :
  cache_ok s O H -> 0 <= n < zlen (disk s) ->
  find (cached 1 n s) (order s) = None -> find (unused s) (rev (order s)) = Some i ->
  exists s', bread pid 1 n s = Ok i s' /\ cache_ok s' O (<[n := i]> H) /\ same_disk s s'.
Proof.
  intros HC Hn Hf Hu. pose proof (find_in _ _ _ Hu) as [Hin Hk].
  assert (Hin' : i ∈ order s).
  { apply list_elem_of_In. apply in_rev. by apply list_elem_of_In. }
  apply (in_order _ _ _ _ HC) in Hin' as [b Hb].
  unfold unused in Hk. rewrite (the_buf_at _ _ _ Hb) in Hk. bool_to_prop.
  assert (Hnot : forall j c, barr s !! j = Some c -> b_dev c = 1 -> b_blockno c <> n).
  { intros j c Hj Hd E. assert (Hc : cached 1 n s j = false)
      by (eapply find_out; [done|eapply in_order; eauto]).
    unfold cached in Hc. rewrite (the_buf_at _ _ _ Hj), Hd, E, !Z.eqb_refl in Hc. done. }
  assert (HO : O !! n = None).
  { apply eq_None_not_Some. intros (j & c & Hj & Hd & E)%(co_dirty _ _ _ _ HC). by eapply Hnot. }
  assert (HL : b_locked b = false).
  { destruct (co_buf _ _ _ _ HC i b Hb) as [(_ & [(_ & _ & _ & ?)|(_ & ? & _)] & _)|(_ & ? & _)];
      [lia|done|done]. }
  set (b1 := mkbuf 2 1 n true pid 1 (zget (disk s) n)).
  exists (put_buf i b1 s). split; [|split; [|done]].
  - unfold bread. erewrite bind_run.
    2: { unfold bget. erewrite bind_run by reflexivity. rewrite Hf.
         erewrite bind_run by reflexivity. rewrite Hu.
         erewrite bind_run by exact (upd_run _ _ _ _ Hb).
         erewrite bind_run by (eapply acquiresleep_run; [by eapply put_buf_at|done]).
         rewrite put_put. reflexivity. }
    erewrite bind_run by reflexivity.
    erewrite the_buf_at by by eapply put_buf_at.
    match goal with |- context [if ?c then iderw _ _ else _] => change c with true end.
    cbv iota. erewrite bind_run; [reflexivity|]. erewrite iderw_read; [|by eapply put_buf_at|cbn; auto..].
    + rewrite put_put. reflexivity.
    + lia.
  - eapply (cache_set s _ O H _ _ i b b1); try done.
    + left. split; [done|]. split; [left; cbn; by rewrite lookup_insert_eq|].
      unfold content; cbn. rewrite HO. split; [by apply zlookup_zget|].
      destruct (decide _) as [[? ?]|]; [congruence|done].
    + intros j c _ Hj Hd. by eapply Hnot.
    + intros m Hm. by rewrite lookup_insert_ne.
    + intros Hd _. destruct (co_buf _ _ _ _ HC i b Hb) as [(_ & Hh & _ & Hfl)|(? & _)]; [|congruence].
      split; [|destruct Hh as [(_ & _ & _ & ?)|(? & _)]; [lia|done]].
      rewrite Hfl in *. destruct (decide _) as [|Hno]; [done|]. by apply eq_None_not_Some.
    + intros k. cbn. rewrite lookup_insert_eq. congruence.
Qed.

Lemma bread_ok s O H n :
  cache_ok s O H -> H !! n = None -> 0 <= n < zlen (disk s) ->
  is_Some (O !! n) \/ (size (dom O ∪ dom H : gset Z) < NBUF)%nat ->
  exists i s', bread pid 1 n s = Ok i s' /\ cache_ok s' O (<[n := i]> H) /\ same_disk s s'.
Proof.
  intros HC HH Hn Hroom. destruct (find (cached 1 n s) (order s)) as [i|] eqn:Hf.
  { exists i. by apply bread_hit. }
  destruct (find (unused s) (rev (order s))) as [i|] eqn:Hu.
  { exists i. by apply bread_miss. }
  destruct Hroom as [(i & b & Hb & Hd & Hbn)%(co_dirty _ _ _ _ HC)|Hroom].
  - assert (Hc : cached 1 n s i = false) by (eapply find_out; [done|eapply in_order; eauto]).
    unfold cached in Hc. rewrite (the_buf_at _ _ _ Hb), Hd, Hbn, !Z.eqb_refl in Hc. done.
  - apply (cache_full _ _ _ HC) in Hu. lia.
Qed.

Lemma brelse_ok s O H n i :
  cache_ok s O H -> H !! n = Some i ->
  exists s', brelse pid i s = Ok tt s' /\ cache_ok s' O (delete n H) /\ same_disk s s'.
Proof.
  intros HC Hn. destruct (held_buf _ _ _ _ _ HC Hn) as (b & Hb & Hd & Hbn & HL & HP & HR & Hc & Hf).
  subst n. eexists. split; [by apply (brelse_run _ _ _ _ Hb)|]. split; [|done].
  eapply cache_upd; [done..|reflexivity| |done|done|reflexivity| | |].
  - cbn. assert (Hp : order s ≡ₚ i :: List.filter (fun j => negb (j =? i)%nat) (order s)).
    { assert (HN : NoDup (order s)) by (rewrite (co_order _ _ _ _ HC); apply NoDup_seq).
      apply to_front; [done|]. eapply in_order; eauto. }
    by rewrite <- Hp.
  - left. cbn. split; [done|]. split; [right; cbn; by rewrite lookup_delete_eq|]. done.
  - intros m Hm. by rewrite lookup_delete_ne.
  - intros k. by rewrite lookup_delete_eq.
Qed.
(** Change the contents of a buffer, then write it to the disk. *)
Lemma bwrite_ok s O H n i (g : list Z -> list Z) :
  cache_ok s O H -> H !! n = Some i -> 0 <= n < zlen (disk s) ->
  exists s', (upd_buf i (fun b => b <| b_data := g (b_data b) |>);; bwrite pid i) s = Ok tt s' /\
    cache_ok s' (delete n O) H /\
    disk s' = zupd (disk s) n (g (b_data (the_buf i s))) /\
    writes s' = writes s ++ [(n, g (b_data (the_buf i s)))].
Proof.
  intros HC Hn Hr. destruct (held_buf _ _ _ _ _ HC Hn) as (b & Hb & Hd & Hbn & HL & HP & HR & Hc & Hf).
  rewrite (the_buf_at _ _ _ Hb). subst n. eexists. split; [|split; [|split]].
  - erewrite bind_run by exact (upd_run _ _ _ _ Hb).
    eapply bwrite_run; [by eapply put_buf_at|cbn; auto..|apply Hr].
    rewrite Hf. destruct (decide _); auto.
  - eapply (cache_upd s _ O H _ _ i b); [done|done| |reflexivity|done| | | | |].
    + cbn. rewrite list_insert_insert_eq. reflexivity.
    + done.
    + done.
    + left. cbn. split; [done|]. split; [left; cbn; auto|]. unfold content.
      rewrite lookup_delete_eq, zlookup_zupd_eq by done. split; [done|].
      destruct (decide _) as [[? ?]|]; done.
    + intros m Hm. cbn. by rewrite lookup_delete_ne, zlookup_zupd_ne.
    + intros k. congruence.
  - done.
  - done.
Qed.

(** Change the contents of a buffer and mark it dirty. *)
Lemma dirty_ok s O H n i (g : list Z -> list Z) :
  cache_ok s O H -> H !! n = Some i ->
  exists s', (upd_buf i (fun b => b <| b_data := g (b_data b) |>);;
              upd_buf i (fun b => b <| b_flags := Z.lor (b_flags b) B_DIRTY |>)) s = Ok tt s' /\
    cache_ok s' (<[n := g (b_data (the_buf i s))]> O) H /\ same_disk s s'.
Proof.
  intros HC Hn. destruct (held_buf _ _ _ _ _ HC Hn) as (b & Hb & Hd & Hbn & HL & HP & HR & Hc & Hf).
  rewrite (the_buf_at _ _ _ Hb). subst n. eexists. split; [|split].
  - erewrite bind_run by exact (upd_run _ _ _ _ Hb).
    exact (upd_run _ _ _ _ (put_buf_at _ _ _ _ Hb)).
  - eapply (cache_upd s _ O H _ _ i b); [done|done| |reflexivity|done| | | | |].
    + cbn. rewrite list_insert_insert_eq. reflexivity.
    + done.
    + done.
    + left. cbn. split; [done|]. split; [left; cbn; auto|]. unfold content.
      rewrite lookup_insert_eq. split; [done|].
      assert (is_Some (Some (g (b_data b)))) as Hyes by eauto. rewrite (decide_True _ _ Hyes).
      rewrite Hf. by destruct (decide (is_Some (O !! b_blockno b))).
    + intros m Hm. cbn. by rewrite lookup_insert_ne.
    + intros k. congruence.
  - done.
Qed.

(** A cache at boot. *)
Lemma binit_ok D : cache_ok (binit D) ∅ ∅.
Proof.
  assert (Hat : forall i b, barr (binit D) !! i = Some b -> b = buf0)
    by (intros i b; cbn [barr binit]; intros [-> _]%lookup_replicate; done).
  split; [done| | | | |].
  - exact (bool_decide_unpack (order (binit D) ≡ₚ seq 0 NBUF) I).
  - intros i j b c Hb _ Hd. by rewrite (Hat _ _ Hb) in Hd.
  - intros i b Hb. rewrite (Hat _ _ Hb). by right.
  - intros n [? ?]. done.
  - intros n i ?. done.
Qed.
End spec.
