(* ===== verification/Log.v ===== *)
(** * The write-ahead log

    log.c on the buffer cache of Bio.v.  A crash keeps the disk, that is the writes that
    reached it, and loses everything else; booting runs [initlog] on an empty cache.
    The spin lock of the log is held for one step at a time; [begin_op] returns false
    where the code sleeps. *)

From S2P Require Import Prelude Bytes Bio.
From stdpp Require Import gmap.
#[local] Open Scope Z_scope.

Definition MAXOPBLOCKS : Z := 10.
Definition LOGSIZE : Z := 30.

(** [lh_n] and [lh_block] are the header [log.lh]. *)
Record logst := mklog {
  lbio : bio; l_start : Z; l_size : Z; l_outstanding : Z; l_committing : bool; l_dev : Z;
  lh_n : Z; lh_block : list Z }.
#[export] Instance logst_eta : Eta logst := fun l =>
  mklog (lbio l) (l_start l) (l_size l) (l_outstanding l) (l_committing l) (l_dev l)
        (lh_n l) (lh_block l).

(** The kernel at boot, on a disk. *)
Definition boot (D : list (list Z)) : logst :=
  mklog (binit D) 0 0 0 false 0 0 (replicate 30 0).

Definition with_bio (L : logst) (s : bio) : logst := L <| lbio := s |>.

Section ops.
Context (pid : Z).
Implicit Types (L : logst).

Definition onbio {A} (m : M bio A) : M logst A := fun L =>
  match m (lbio L) with
  | Ok a s => Ok a (with_bio L s)
  | Panic msg => Panic msg
  end.

Definition data_of (i : nat) : M logst (list Z) := onbio (gets (fun s => b_data (the_buf i s))).
Definition set_data (i : nat) (g : list Z -> list Z) : M bio unit :=
  upd_buf i (fun b => b <| b_data := g (b_data b) |>).

(** [memmove(to->data, from->data, BSIZE); bwrite(to);] *)
Definition copy_to (i j : nat) : M logst unit :=
  d ← data_of j; onbio (set_data i (fun _ => d);; bwrite pid i).

Definition install_one (tail : Z) : M logst unit :=
  dev ← gets l_dev; start ← gets l_start; bl ← gets lh_block;
  lbuf ← onbio (bread pid dev (start + tail + 1));
  dbuf ← onbio (bread pid dev (zget bl tail));
  copy_to dbuf lbuf;;
  onbio (brelse pid lbuf);;
  onbio (brelse pid dbuf).

Definition install_trans : M logst unit :=
  n ← gets lh_n; forM (zrange 0 (n - 1)) install_one.

Definition read_head : M logst unit :=
  dev ← gets l_dev; start ← gets l_start;
  i ← onbio (bread pid dev start);
  lh ← data_of i;
  modify (fun L => L <| lh_n := zget lh 0 |>);;
  forM (zrange 0 (zget lh 0 - 1)) (fun k =>
    modify (fun L => L <| lh_block := zupd (lh_block L) k (zget lh (k + 1)) |>));;
  onbio (brelse pid i).

(** The words of the header block after the assignments of write_head. *)
Definition head_words (n : Z) (bl w : list Z) : list Z :=
  fold_left (fun w k => zupd w (k + 1) (zget bl k)) (zrange 0 (n - 1)) (zupd w 0 n).

Definition write_head : M logst unit :=
  dev ← gets l_dev; start ← gets l_start; n ← gets lh_n; bl ← gets lh_block;
  i ← onbio (bread pid dev start);
  onbio (set_data i (head_words n bl);; bwrite pid i);;
  onbio (brelse pid i).

Definition recover_from_log : M logst unit :=
  read_head;;
  install_trans;;
  modify (fun L => L <| lh_n := 0 |>);;
  write_head.

(** readsb of fs.c reads block 1; its words 3 and 4 are nlog and logstart. *)
Definition readsb (dev : Z) : M logst (list Z) :=
  i ← onbio (bread pid dev 1); d ← data_of i; onbio (brelse pid i);; mret d.

Definition initlog (dev : Z) : M logst unit :=
  if BSIZE <=? 4 * (1 + LOGSIZE) then panic "initlog: too big logheader" else
  sb ← readsb dev;
  modify (fun L => L <| l_start := zget sb 4 |> <| l_size := zget sb 3 |> <| l_dev := dev |>);;
  recover_from_log.

Definition begin_op : M logst bool :=
  c ← gets l_committing; n ← gets lh_n; o ← gets l_outstanding;
  if (c : bool) then mret false
  else if LOGSIZE <? n + (o + 1) * MAXOPBLOCKS then mret false
  else modify (fun L => L <| l_outstanding := o + 1 |>);; mret true.

Definition write_log_one (tail : Z) : M logst unit :=
  dev ← gets l_dev; start ← gets l_start; bl ← gets lh_block;
  to ← onbio (bread pid dev (start + tail + 1));
  from ← onbio (bread pid dev (zget bl tail));
  copy_to to from;;
  onbio (brelse pid from);;
  onbio (brelse pid to).

Definition write_log : M logst unit :=
  n ← gets lh_n; forM (zrange 0 (n - 1)) write_log_one.

Definition commit : M logst unit :=
  n ← gets lh_n;
  if 0 <? n then
    write_log;;
    write_head;;
    install_trans;;
    modify (fun L => L <| lh_n := 0 |>);;
    write_head
  else mret tt.

Definition end_op : M logst unit :=
  modify (fun L => L <| l_outstanding := l_outstanding L - 1 |>);;
  c ← gets l_committing; o ← gets l_outstanding;
  if (c : bool) then panic "log.committing" else
  if o =? 0 then
    modify (fun L => L <| l_committing := true |>);;
    commit;;
    modify (fun L => L <| l_committing := false |>)
  else mret tt.

(** The loop of log_write: the first slot that has the block, or the end. *)
Definition log_slot (blockno : Z) L : Z :=
  default (lh_n L) (find (fun k => zget (lh_block L) k =? blockno) (zrange 0 (lh_n L - 1))).

Definition log_write (i : nat) : M logst unit :=
  n ← gets lh_n; size ← gets l_size; o ← gets l_outstanding;
  if (LOGSIZE <=? n) || (size - 1 <=? n) then panic "too big a transaction" else
  if o <? 1 then panic "log_write outside of trans" else
  b ← onbio (gets (the_buf i));
  k ← gets (log_slot (b_blockno b));
  modify (fun L => L <| lh_block := zupd (lh_block L) k (b_blockno b) |>);;
  (if k =? n then modify (fun L => L <| lh_n := lh_n L + 1 |>) else mret tt);;
  onbio (upd_buf i (fun b => b <| b_flags := Z.lor (b_flags b) B_DIRTY |>)).

(** The use of the log that its comment describes: read a block, modify it, hand it to
    the log and release it. *)
Definition log_update (u : Z * (list Z -> list Z)) : M logst unit :=
  i ← onbio (bread pid 1 (fst u));
  onbio (set_data i (snd u));;
  log_write i;;
  onbio (brelse pid i).

(** A system call that makes such updates between begin_op and end_op. *)
Definition transaction (us : list (Z * (list Z -> list Z))) : M logst unit :=
  ok ← begin_op;
  if (ok : bool) then forM us log_update;; end_op else panic "begin_op waits".
End ops.

(** ** Replaying writes on a disk *)

Section replay.
Implicit Types (D : list (list Z)) (W : list (Z * list Z)) (m : Z).

Definition replay D W : list (list Z) := fold_left (fun D w => zupd D (fst w) (snd w)) W D.

Lemma replay_app D W W' : replay D (W ++ W') = replay (replay D W) W'.
Proof. apply fold_left_app. Qed.

Lemma zlen_replay W : forall D, zlen (replay D W) = zlen D.
Proof. induction W as [|w W IH]; intros D; cbn; [done|]. unfold replay in IH. by rewrite IH, zlen_zupd. Qed.

Lemma replay_out W : forall D m, m ∉ W.*1 -> zlookup (replay D W) m = zlookup D m.
Proof.
  induction W as [|[k d] W IH]; intros D m Hm; cbn; [done|].
  apply not_elem_of_cons in Hm as [Hk Hm]. unfold replay in IH.
  rewrite IH, zlookup_zupd_ne; auto.
Qed.

Lemma replay_in W : forall D m d,
  NoDup W.*1 -> (m, d) ∈ W -> 0 <= m < zlen D -> zlookup (replay D W) m = Some d.
Proof.
  induction W as [|[k e] W IH]; intros D m d HN Hin Hr; [by apply elem_of_nil in Hin|].
  apply NoDup_cons in HN as [Hk HN]. apply elem_of_cons in Hin as [E|Hin].
  - simplify_eq. cbn. pose proof (replay_out W (zupd D k e) k Hk) as E. unfold replay in E.
    rewrite E. by apply zlookup_zupd_eq.
  - apply (IH (zupd D k e)); [done..|]. by rewrite zlen_zupd.
Qed.

(** Writing again what is already there. *)
Lemma replay_again W k D m :
  NoDup W.*1 -> Forall (fun w => 0 <= fst w < zlen D) W ->
  zlookup (replay (replay D (take k W)) W) m = zlookup (replay D W) m.
Proof.
  intros HN HF. destruct (decide (m ∈ W.*1)) as [Hm|Hm].
  - apply list_elem_of_fmap in Hm as ([m' d] & -> & Hin). cbn.
    assert (Hr : 0 <= m' < zlen D) by (rewrite Forall_forall in HF; apply (HF _ Hin)).
    rewrite !(replay_in _ _ m' d); auto. by rewrite zlen_replay.
  - rewrite !replay_out; auto. rewrite <- (take_drop k W), fmap_app in Hm.
    by apply not_elem_of_app in Hm as [? _].
Qed.
End replay.

(** ** Headers *)

(** [bs] is the list of blocks in the header [n], [bl]. *)
Definition lists (n : Z) (bl bs : list Z) : Prop :=
  n = zlen bs /\ forall t, 0 <= t < zlen bs -> zlookup bl t = zlookup bs t.

(** The header block [w] on the disk lists [bs]. *)
Definition heads (w bs : list Z) : Prop :=
  zlen w = 128 /\ zget w 0 = zlen bs /\
  forall t, 0 <= t < zlen bs -> zlookup w (t + 1) = zlookup bs t.

Lemma head_words_ok n bl bs w :
  lists n bl bs -> zlen bs <= LOGSIZE -> zlen w = 128 -> heads (head_words n bl w) bs.
Proof.
  intros [-> Hbl] Hle Hw. unfold head_words.
  assert (HI : forall k v, 0 <= k <= zlen bs -> zlen v = 128 ->
    let r := fold_left (fun w k => zupd w (k + 1) (zget bl k)) (zrange k (zlen bs - 1)) v in
    zlen r = 128 /\ (forall t, t <= k -> zlookup r t = zlookup v t) /\
    (forall t, k <= t < zlen bs -> zlookup r (t + 1) = zlookup bs t)).
  { intros k v Hk. remember (Z.to_nat (zlen bs - k)) as f eqn:Ef. revert k v Hk Ef.
    induction f as [|f IH]; intros k v Hk Ef Hv r.
    { unfold r. rewrite zrange_nil by lia. cbn. split; [done|]. split; [done|]. lia. }
    unfold r. rewrite zrange_cons by lia. cbn.
    destruct (IH (k + 1) (zupd v (k + 1) (zget bl k))) as (H1 & H2 & H3);
      [lia|lia|by rewrite zlen_zupd|]. split; [done|]. split.
    - intros t Ht. rewrite H2, zlookup_zupd_ne by lia. done.
    - intros t Ht. destruct (decide (t = k)) as [->|Hn]; [|apply H3; lia].
      unfold LOGSIZE in Hle. rewrite H2, zlookup_zupd_eq by lia. rewrite <- Hbl by lia. symmetry.
      apply zlookup_zget. apply zlookup_is_Some. rewrite Hbl by lia. apply zlookup_is_Some. lia. }
  destruct (HI 0 (zupd w 0 (zlen bs))) as (H1 & H2 & H3); [unfold zlen; lia|by rewrite zlen_zupd|].
  split; [done|]. split; [|intros t Ht; apply H3; lia].
  unfold zget at 1. rewrite H2 by lia. rewrite zlookup_zupd_eq by lia. done.
Qed.

(** ** The operations on the cache *)

Section ops_ok.
Context (pid : Z).
Implicit Types (L : logst) (s : bio) (O : gmap Z (list Z)) (a b : Z).
Abbreviation cache_ok := (cache_ok pid).

Lemma onbio_run {A} (m : M bio A) L x s :
  m (lbio L) = Ok x s -> onbio m L = Ok x (with_bio L s).
Proof. unfold onbio. by intros ->. Qed.

(** Where a write goes. *)
Definition wrote s s' W : Prop := disk s' = replay (disk s) W /\ writes s' = writes s ++ W.

Lemma open_two s O a b :
  cache_ok s O ∅ -> a <> b -> 0 <= a < zlen (disk s) -> 0 <= b < zlen (disk s) ->
  (size O < NBUF)%nat -> is_Some (O !! b) \/ (S (size O) < NBUF)%nat ->
  exists i j s1 s2, bread pid 1 a s = Ok i s1 /\ bread pid 1 b s1 = Ok j s2 /\
    cache_ok s2 O (<[b := j]> (<[a := i]> ∅)) /\ same_disk s s2.
Proof.
  intros HC Hab Ha Hb Hs Hr.
  destruct (bread_ok pid s O ∅ a HC) as (i & s1 & E1 & HC1 & [D1 W1]); [done|done| |].
  { right. rewrite dom_empty_L, union_empty_r_L, size_dom. done. }
  destruct (bread_ok pid s1 O _ b HC1) as (j & s2 & E2 & HC2 & [D2 W2]);
    [by rewrite lookup_insert_ne|by rewrite D1| |].
  { destruct Hr as [?|Hr]; [by left|right]. rewrite dom_insert_L, dom_empty_L, union_empty_r_L.
    rewrite size_union_alt, size_dom.
    assert (size ({[a]} ∖ dom O : gset Z) <= 1)%nat; [|lia].
    rewrite <- (size_singleton (C := gset Z) a). by apply subseteq_size, subseteq_difference_l. }
  exists i, j, s1, s2. unfold same_disk. rewrite D2, W2, D1, W1. done.
Qed.

Lemma close_two s O a b i j :
  cache_ok s O (<[b := j]> (<[a := i]> ∅)) -> a <> b ->
  exists s1 s2, brelse pid i s = Ok tt s1 /\ brelse pid j s1 = Ok tt s2 /\
    cache_ok s2 O ∅ /\ same_disk s s2.
Proof.
  intros HC Hab.
  destruct (brelse_ok pid s O _ a i HC) as (s1 & E1 & HC1 & [D1 W1]);
    [by rewrite lookup_insert_ne, lookup_insert_eq|].
  rewrite delete_insert_ne, delete_insert_id in HC1 by (done || by rewrite lookup_empty).
  destruct (brelse_ok pid s1 O _ b j HC1) as (s2 & E2 & HC2 & [D2 W2]); [by rewrite lookup_insert_eq|].
  rewrite delete_insert_id in HC2 by by rewrite lookup_empty.
  exists s1, s2. unfold same_disk. rewrite D2, W2, D1, W1. done.
Qed.

Lemma copy_to_ok L O H n i j d :
  cache_ok (lbio L) O H -> H !! n = Some i -> 0 <= n < zlen (disk (lbio L)) ->
  b_data (the_buf j (lbio L)) = d ->
  exists s, copy_to pid i j L = Ok tt (with_bio L s) /\ cache_ok s (delete n O) H /\
    wrote (lbio L) s [(n, d)].
Proof.
  intros HC Hn Hr <-. destruct (bwrite_ok pid _ _ _ n i (fun _ => b_data (the_buf j (lbio L))) HC Hn Hr)
    as (s & E & HC' & HD & HW).
  exists s. split; [|exact (conj HC' (conj HD HW))]. unfold copy_to, data_of.
  erewrite bind_run by by apply onbio_run.
  match goal with |- onbio ?m ?K = _ => exact (onbio_run m K tt s E) end.
Qed.
Lemma install_one_ok L O tail h d :
  cache_ok (lbio L) O ∅ -> l_dev L = 1 -> zget (lh_block L) tail = h ->
  l_start L + tail + 1 <> h -> 0 <= l_start L + tail + 1 < zlen (disk (lbio L)) ->
  0 <= h < zlen (disk (lbio L)) -> (size O < NBUF)%nat ->
  is_Some (O !! h) \/ (S (size O) < NBUF)%nat ->
  content (disk (lbio L)) O (l_start L + tail + 1) = Some d ->
  exists s, install_one pid tail L = Ok tt (with_bio L s) /\ cache_ok s (delete h O) ∅ /\
    wrote (lbio L) s [(h, d)].
Proof.
  intros HC Hdev Hh Hne Ha Hb Hs Hr Hd. unfold install_one.
  do 3 (erewrite bind_run by reflexivity). rewrite Hdev, Hh.
  destruct (open_two _ _ _ _ HC Hne Ha Hb Hs Hr) as (i & j & s1 & s2 & E1 & E2 & HC2 & [D2 W2]).
  erewrite bind_run by by apply onbio_run. erewrite bind_run by by apply onbio_run.
  rewrite <- D2 in Ha, Hb, Hd.
  rewrite (held_data pid s2 O _ (l_start L + tail + 1) i HC2) in Hd
    by by rewrite lookup_insert_ne, lookup_insert_eq.
  simplify_eq.
  edestruct (copy_to_ok (with_bio L s2) O _ (zget (lh_block L) tail) j i
                (b_data (the_buf i s2)) HC2)
    as (s3 & E3 & HC3 & [D3 W3]); [by rewrite lookup_insert_eq|done|reflexivity|].
  destruct (close_two _ _ _ _ _ _ HC3 Hne) as (s4 & s5 & E4 & E5 & HC5 & [D5 W5]).
  exists s5. split; [|split; [done|]].
  - erewrite bind_run by exact E3. erewrite bind_run by by apply onbio_run.
    by rewrite (onbio_run _ _ tt s5).
  - split; [rewrite D5, D3; cbn; by rewrite D2|rewrite W5, W3; cbn; by rewrite W2].
Qed.

Lemma write_log_one_ok L O tail h d :
  cache_ok (lbio L) O ∅ -> l_dev L = 1 -> zget (lh_block L) tail = h ->
  l_start L + tail + 1 <> h -> 0 <= l_start L + tail + 1 < zlen (disk (lbio L)) ->
  0 <= h < zlen (disk (lbio L)) -> (size O < NBUF)%nat -> O !! h = Some d ->
  O !! (l_start L + tail + 1) = None ->
  exists s, write_log_one pid tail L = Ok tt (with_bio L s) /\ cache_ok s O ∅ /\
    wrote (lbio L) s [(l_start L + tail + 1, d)].
Proof.
  intros HC Hdev Hh Hne Ha Hb Hs Hd HO. unfold write_log_one.
  do 3 (erewrite bind_run by reflexivity). rewrite Hdev, Hh.
  destruct (open_two _ _ _ _ HC Hne Ha Hb Hs) as (i & j & s1 & s2 & E1 & E2 & HC2 & [D2 W2]);
    [left; eauto|].
  erewrite bind_run by by apply onbio_run. erewrite bind_run by by apply onbio_run.
  assert (Hdj : b_data (the_buf j s2) = d).
  { assert (E : content (disk s2) O h = Some (b_data (the_buf j s2)))
      by (eapply held_data; [done|by rewrite lookup_insert_eq]).
    unfold content in E. rewrite Hd in E. congruence. }
  rewrite <- D2 in Ha, Hb.
  edestruct (copy_to_ok (with_bio L s2) O _ (l_start L + tail + 1) i j d HC2)
    as (s3 & E3 & HC3 & [D3 W3]); [by rewrite lookup_insert_ne, lookup_insert_eq|done|done|].
  rewrite delete_id in HC3 by done. rewrite insert_insert_ne in HC3 by done.
  destruct (close_two _ _ _ _ _ _ HC3 (not_eq_sym Hne)) as (s4 & s5 & E4 & E5 & HC5 & [D5 W5]).
  exists s5. split; [|split; [done|]].
  - erewrite bind_run by exact E3. erewrite bind_run by by apply onbio_run.
    by rewrite (onbio_run _ _ tt s5).
  - split; [rewrite D5, D3; cbn; by rewrite D2|rewrite W5, W3; cbn; by rewrite W2].
Qed.
End ops_ok.

(** ** The loops *)

Section loops.
Context (pid st sz : Z) (Hst : 0 <= st).
Implicit Types (L : logst) (s : bio) (O : gmap Z (list Z)) (W : list (Z * list Z)).
Abbreviation cache_ok := (cache_ok pid).

(** The blocks [W] with their contents, from entry [k] of the header on; each is a block
    behind the log. *)
Definition entries L k W : Prop :=
  NoDup W.*1 /\ forall t h d, W !! t = Some (h, d) ->
    zget (lh_block L) (k + Z.of_nat t) = h /\ st + sz <= h < zlen (disk (lbio L)) /\
    k + Z.of_nat t + 1 < sz.

Definition log_clear O : Prop := forall m, m < st + sz -> O !! m = None.

Lemma entries_tail L s k h d W :
  entries L k ((h, d) :: W) -> zlen (disk s) = zlen (disk (lbio L)) ->
  entries (with_bio L s) (k + 1) W.
Proof.
  intros [HN HE] HD. split; [by apply NoDup_cons in HN as [_ ?]|]. intros t h' d' Ht.
  destruct (HE (S t) h' d' Ht) as (H1 & H2 & H3). cbn. rewrite HD.
  replace (k + 1 + Z.of_nat t) with (k + Z.of_nat (S t)) by lia. done.
Qed.

(** The writes of write_log: the blocks of the log, from [a] on. *)
Fixpoint log_blocks (a : Z) W : list (Z * list Z) :=
  match W with
  | [] => []
  | (_, d) :: W => (a, d) :: log_blocks (a + 1) W
  end.

Lemma wrote_app s1 s2 s3 W1 W2 : wrote s1 s2 W1 -> wrote s2 s3 W2 -> wrote s1 s3 (W1 ++ W2).
Proof.
  intros [D1 E1] [D2 E2]. split; [by rewrite replay_app, <- D1|by rewrite app_assoc, <- E1].
Qed.

Lemma wrote_zlen s s' W : wrote s s' W -> zlen (disk s') = zlen (disk s).
Proof. intros [-> _]. apply zlen_replay. Qed.

Lemma write_loop W : forall L O k,
  cache_ok (lbio L) O ∅ -> l_dev L = 1 -> l_start L = st -> 0 <= k -> (size O < NBUF)%nat ->
  log_clear O -> entries L k W -> (forall h d, (h, d) ∈ W -> O !! h = Some d) ->
  exists s, forM (zrange k (k + zlen W - 1)) (write_log_one pid) L = Ok tt (with_bio L s) /\
    cache_ok s O ∅ /\ wrote (lbio L) s (log_blocks (st + k + 1) W).
Proof.
  induction W as [|[h d] W IH]; intros L O k HC Hdev Hs Hk HO Hlow HE Hd.
  { exists (lbio L). rewrite zrange_nil by (unfold zlen; cbn; lia). split; [by destruct L|]. split; [done|].
    split; cbn; [done|by rewrite app_nil_r]. }
  destruct (proj2 HE 0%nat h d eq_refl) as (Hh & Hr & Ht). rewrite Z.add_0_r in Hh, Ht.
  edestruct (write_log_one_ok pid L O k h d) as (s & E & HC1 & HW); rewrite ?Hs; try done; try lia.
  { by apply Hd; left. }
  { apply Hlow. lia. }
  edestruct (IH (with_bio L s) O (k + 1)) as (s' & E' & HC' & HW'); try done; [lia| | |].
  { eapply entries_tail; [done|by eapply wrote_zlen]. }
  { intros h' d' Hin. apply Hd. by right. }
  exists s'. split; [|split; [done|]].
  - replace (k + zlen ((h, d) :: W) - 1) with (k + 1 + zlen W - 1) by (unfold zlen; cbn; lia).
    rewrite zrange_cons by (unfold zlen; lia). cbn [forM]. erewrite bind_run by exact E. exact E'.
  - cbn. change ((st + k + 1, d) :: ?l) with ([(st + k + 1, d)] ++ l).
    eapply wrote_app; [rewrite Hs in HW; exact HW|].
    by replace (st + k + 1 + 1) with (st + (k + 1) + 1) by lia.
Qed.

(** There is room for a block: it is cached, or the cache has two free buffers. *)
Definition room O (h : Z) : Prop := is_Some (O !! h) \/ (S (size O) < NBUF)%nat.

Lemma room_delete O h h' : h <> h' -> room O h' -> room (delete h O) h'.
Proof.
  intros Hn [Hs|Hs]; [left; by rewrite lookup_delete_ne|right].
  destruct (O !! h) as [x|] eqn:E; [|by rewrite delete_id].
  rewrite map_size_delete, E. lia.
Qed.

Lemma install_loop W : forall L O k,
  cache_ok (lbio L) O ∅ -> l_dev L = 1 -> l_start L = st -> 0 <= k -> (size O < NBUF)%nat ->
  log_clear O -> entries L k W -> (forall h, h ∈ W.*1 -> room O h) ->
  (forall t h d, W !! t = Some (h, d) ->
     zlookup (disk (lbio L)) (st + (k + Z.of_nat t) + 1) = Some d) ->
  exists s O', forM (zrange k (k + zlen W - 1)) (install_one pid) L = Ok tt (with_bio L s) /\
    cache_ok s O' ∅ /\ wrote (lbio L) s W /\
    (forall m, O' !! m = if decide (m ∈ W.*1) then None else O !! m).
Proof.
  induction W as [|[h d] W IH]; intros L O k HC Hdev Hs Hk HO Hlow HE Hroom Hd.
  { exists (lbio L), O. rewrite zrange_nil by (unfold zlen; cbn; lia). split; [by destruct L|]. split; [done|].
    split; [split; cbn; [done|by rewrite app_nil_r]|]. done. }
  destruct (proj2 HE 0%nat h d eq_refl) as (Hh & Hr & Ht). rewrite Z.add_0_r in Hh, Ht.
  pose proof (Hd 0%nat h d eq_refl) as Hd0. rewrite Z.add_0_r in Hd0.
  edestruct (install_one_ok pid L O k h d) as (s & E & HC1 & HW); rewrite ?Hs; try done; try lia.
  { apply (Hroom h). by left. }
  { unfold content. rewrite Hlow by lia. done. }
  assert (HN := proj1 HE). apply NoDup_cons in HN as [Hnh HN].
  edestruct (IH (with_bio L s) (delete h O) (k + 1)) as (s' & O' & E' & HC' & HW' & HO');
    try done; [lia| | | | | |].
  { eapply Nat.le_lt_trans; [|exact HO]. apply map_subseteq_size, delete_subseteq. }
  { intros m Hm. rewrite lookup_delete_None. right. auto. }
  { eapply entries_tail; [done|by eapply wrote_zlen]. }
  { intros h' Hh'. apply room_delete; [|by apply Hroom; right]. intros ->. done. }
  { intros t h' d' Htl. specialize (Hd (S t) h' d' Htl). destruct (proj2 HE (S t) h' d' Htl) as (_ & _ & ?).
    cbn [lbio with_bio upd]. destruct HW as [-> _]. cbn.
    rewrite zlookup_zupd_ne by lia. by replace (k + 1 + Z.of_nat t) with (k + Z.of_nat (S t)) by lia. }
  exists s', O'. split; [|split; [done|split]].
  - replace (k + zlen ((h, d) :: W) - 1) with (k + 1 + zlen W - 1) by (unfold zlen; cbn; lia).
    rewrite zrange_cons by (unfold zlen; lia). cbn [forM]. erewrite bind_run by exact E. exact E'.
  - change ((h, d) :: W) with ([(h, d)] ++ W). eapply wrote_app; [exact HW|exact HW'].
  - intros m. rewrite HO'. cbn [fmap list_fmap fst]. destruct (decide (m = h)) as [->|Hn].
    + rewrite lookup_delete_eq. rewrite (decide_True (P := h ∈ h :: W.*1)) by by left.
      by destruct (decide _).
    + rewrite lookup_delete_ne by done. destruct (decide (m ∈ W.*1)) as [Hi|Hi].
      * rewrite decide_True; [done|by right].
      * rewrite decide_False; [done|]. by rewrite not_elem_of_cons.
Qed.
End loops.

(** ** The header and recovery *)

Section head.
Context (pid : Z).
Implicit Types (L : logst) (s : bio) (O : gmap Z (list Z)) (W : list (Z * list Z)).
Abbreviation cache_ok := (cache_ok pid).

Lemma empty_room : (size (∅ : gmap Z (list Z)) < NBUF)%nat.
Proof. rewrite map_size_empty. unfold NBUF. lia. Qed.

Lemma open_one s O a :
  cache_ok s O ∅ -> 0 <= a < zlen (disk s) -> is_Some (O !! a) \/ (size O < NBUF)%nat ->
  exists i s', bread pid 1 a s = Ok i s' /\ cache_ok s' O (<[a := i]> ∅) /\ same_disk s s'.
Proof.
  intros HC Ha Hs. apply bread_ok; [done..|].
  by rewrite dom_empty_L, union_empty_r_L, size_dom.
Qed.

Lemma close_one s O a i :
  cache_ok s O (<[a := i]> ∅) ->
  exists s', brelse pid i s = Ok tt s' /\ cache_ok s' O ∅ /\ same_disk s s'.
Proof.
  intros HC. destruct (brelse_ok pid s O _ a i HC) as (s' & E & HC' & Hd);
    [by rewrite lookup_insert_eq|].
  rewrite delete_insert_id in HC' by by rewrite lookup_empty. eauto.
Qed.

Lemma write_head_ok L O w :
  cache_ok (lbio L) O ∅ -> l_dev L = 1 -> 0 <= l_start L < zlen (disk (lbio L)) ->
  (size O < NBUF)%nat -> O !! l_start L = None -> zlookup (disk (lbio L)) (l_start L) = Some w ->
  exists s, write_head pid L = Ok tt (with_bio L s) /\ cache_ok s O ∅ /\
    wrote (lbio L) s [(l_start L, head_words (lh_n L) (lh_block L) w)].
Proof.
  intros HC Hdev Hr HO Hn Hw. unfold write_head. do 4 (erewrite bind_run by reflexivity).
  rewrite Hdev.
  destruct (open_one _ _ _ HC Hr (or_intror HO)) as (i & s1 & E1 & HC1 & [D1 W1]).
  rewrite <- D1 in Hr, Hw.
  destruct (bwrite_ok pid s1 O _ _ i (head_words (lh_n L) (lh_block L)) HC1
              (lookup_insert_eq _ _ _) Hr) as (s2 & E2 & HC2 & D2 & W2).
  rewrite delete_id in HC2 by done.
  destruct (close_one _ _ _ _ HC2) as (s3 & E3 & HC3 & [D3 W3]).
  assert (Hd : b_data (the_buf i s1) = w).
  { assert (E : content (disk s1) O (l_start L) = Some (b_data (the_buf i s1)))
      by (eapply held_data; [done|by rewrite lookup_insert_eq]).
    unfold content in E. rewrite Hn, Hw in E. congruence. }
  rewrite Hd in D2, W2. exists s3. split; [|split; [done|]].
  - erewrite bind_run by by apply onbio_run. erewrite bind_run by (apply onbio_run; exact E2).
    by rewrite (onbio_run _ _ tt s3).
  - split; [by rewrite D3, D2, D1|by rewrite W3, W2, W1].
Qed.

(** The loop of read_head. *)
Lemma read_loop (w bs : list Z) : forall k L,
  0 <= k <= zlen bs -> zlen bs <= zlen (lh_block L) ->
  (forall t, 0 <= t < zlen bs -> zlookup w (t + 1) = zlookup bs t) ->
  (forall t, 0 <= t < k -> zlookup (lh_block L) t = zlookup bs t) ->
  exists bl, forM (zrange k (zlen bs - 1)) (fun k =>
    modify (fun L => L <| lh_block := zupd (lh_block L) k (zget w (k + 1)) |>)) L =
    Ok tt (L <| lh_block := bl |>) /\
    zlen bl = zlen (lh_block L) /\ lists (zlen bs) bl bs.
Proof.
  intros k. remember (Z.to_nat (zlen bs - k)) as f eqn:Ef. revert k Ef.
  induction f as [|f IH]; intros k Ef L Hk Hl Hw Hbl.
  { exists (lh_block L). rewrite zrange_nil by lia. split; [by destruct L|]. split; [done|].
    split; [done|]. intros t Ht. apply Hbl. lia. }
  rewrite zrange_cons by lia. cbn [forM]. erewrite bind_run by reflexivity.
  destruct (IH (k + 1) ltac:(lia) (L <| lh_block := zupd (lh_block L) k (zget w (k + 1)) |>))
    as (bl & E & Hz & HL); [lia|cbn; by rewrite zlen_zupd|done| |].
  2: { exists bl. rewrite E. split; [done|]. split; [|done]. rewrite Hz. cbn. apply zlen_zupd. }
  intros t Ht. cbn. destruct (decide (t = k)) as [->|Hn].
  - rewrite zlookup_zupd_eq by lia. rewrite <- Hw by lia. symmetry. apply zlookup_zget.
    apply zlookup_is_Some. rewrite Hw by lia. apply zlookup_is_Some. lia.
  - rewrite zlookup_zupd_ne by done. apply Hbl. lia.
Qed.

Lemma read_head_ok L w bs :
  cache_ok (lbio L) ∅ ∅ -> l_dev L = 1 -> 0 <= l_start L < zlen (disk (lbio L)) ->
  zlookup (disk (lbio L)) (l_start L) = Some w -> heads w bs -> zlen bs <= zlen (lh_block L) ->
  exists s bl, read_head pid L = Ok tt (with_bio (L <| lh_n := zlen bs |> <| lh_block := bl |>) s) /\
    cache_ok s ∅ ∅ /\ same_disk (lbio L) s /\ zlen bl = zlen (lh_block L) /\
    lists (zlen bs) bl bs.
Proof.
  intros HC Hdev Hr Hw (Hlen & Hn & Hbs) Hl. unfold read_head.
  do 2 (erewrite bind_run by reflexivity). rewrite Hdev.
  destruct (open_one _ _ _ HC Hr) as (i & s1 & E1 & HC1 & [D1 W1]);
    [right; apply empty_room|].
  destruct (close_one _ _ _ _ HC1) as (s2 & E2 & HC2 & [D2 W2]).
  assert (Hd : b_data (the_buf i s1) = w).
  { assert (E : content (disk s1) ∅ (l_start L) = Some (b_data (the_buf i s1)))
      by (eapply held_data; [done|by rewrite lookup_insert_eq]).
    rewrite D1 in E. unfold content in E. rewrite lookup_empty, Hw in E. congruence. }
  destruct (read_loop w bs 0 (with_bio (L <| lh_n := zlen bs |>) s1)) as (bl & E & Hz & HL);
    [unfold zlen; lia|done|done|lia|].
  exists s2, bl. split; [|split; [done|split; [|done]]].
  2: { unfold same_disk. by rewrite D2, W2. }
  erewrite bind_run by by apply onbio_run. erewrite bind_run by (apply onbio_run; reflexivity).
  cbn [lbio with_bio upd]. rewrite Hd, Hn. erewrite bind_run by reflexivity.
  erewrite bind_run by exact E. by rewrite (onbio_run _ _ tt s2).
Qed.
End head.

(** ** Recovery and commit *)

Section crash.
Context (pid st sz : Z).
Implicit Types (L : logst) (s : bio) (O : gmap Z (list Z)) (W : list (Z * list Z))
  (D : list (list Z)).
Abbreviation cache_ok := (cache_ok pid).

(** The super block in block 1 places the log of [sz] blocks at [st]. *)
Definition layout D : Prop :=
  2 <= st /\ 1 <= sz <= Z.of_nat NBUF /\ st + sz <= zlen D /\
  exists sb, zlookup D 1 = Some sb /\ zget sb 3 = sz /\ zget sb 4 = st.

(** The blocks of the log on the disk hold the contents of the writes [W], all to
    blocks behind the log. *)
Definition logged D W : Prop :=
  NoDup W.*1 /\ forall t h d, W !! t = Some (h, d) ->
    st + sz <= h < zlen D /\ Z.of_nat t + 1 < sz /\ zlookup D (st + Z.of_nat t + 1) = Some d.

(** The header on the disk lists them too. *)
Definition on_disk D W : Prop :=
  logged D W /\ exists w, zlookup D st = Some w /\ heads w W.*1.

(** The log component between system calls. *)
Record log_ready L : Prop := mklog_ready {
  lr_dev : l_dev L = 1; lr_start : l_start L = st; lr_size : l_size L = sz;
  lr_out : l_outstanding L = 0; lr_com : l_committing L = false;
  lr_n : lh_n L = 0; lr_block : zlen (lh_block L) = LOGSIZE }.

Lemma logged_len D W : 1 <= sz -> logged D W -> zlen W < sz.
Proof.
  intros Hsz (_ & H). destruct W as [|w W] using rev_ind; [unfold zlen; cbn; lia|].
  destruct w as [h d]. destruct (H (length W) h d) as (_ & Ht & _).
  { by rewrite lookup_app_r, Nat.sub_diag by lia. }
  unfold zlen. rewrite length_app. cbn. lia.
Qed.

Lemma logged_home D W h : logged D W -> h ∈ W.*1 -> st + sz <= h < zlen D.
Proof.
  intros [_ H] ([h' d] & -> & [t Ht]%list_elem_of_lookup)%list_elem_of_fmap. by apply (H t h' d).
Qed.

Lemma lists_get n bl W t h d :
  lists n bl W.*1 -> W !! t = Some (h, d) -> zget bl (Z.of_nat t) = h.
Proof.
  intros [_ HL] Ht. assert (Hl : (W.*1) !! t = Some h) by by rewrite list_lookup_fmap, Ht.
  unfold zget. rewrite HL, zlookup_of_nat, Hl; [done|].
  apply lookup_lt_Some in Hl. unfold zlen. lia.
Qed.

Lemma readsb_ok L sb :
  cache_ok (lbio L) ∅ ∅ -> 1 < zlen (disk (lbio L)) -> zlookup (disk (lbio L)) 1 = Some sb ->
  exists s, readsb pid 1 L = Ok sb (with_bio L s) /\ cache_ok s ∅ ∅ /\ same_disk (lbio L) s.
Proof.
  intros HC Hr Hsb. unfold readsb.
  destruct (open_one pid _ _ 1 HC) as (i & s1 & E1 & HC1 & [D1 W1]); [lia|right; apply empty_room|].
  destruct (close_one pid _ _ _ _ HC1) as (s2 & E2 & HC2 & [D2 W2]).
  assert (Hd : b_data (the_buf i s1) = sb).
  { assert (E : content (disk s1) ∅ 1 = Some (b_data (the_buf i s1)))
      by (eapply held_data; [done|by rewrite lookup_insert_eq]).
    rewrite D1 in E. unfold content in E. rewrite lookup_empty, Hsb in E. congruence. }
  exists s2. split; [|split; [done|]].
  - erewrite bind_run by by apply onbio_run. erewrite bind_run by (apply onbio_run; reflexivity).
    erewrite bind_run by by apply onbio_run. cbn [lbio with_bio upd]. by rewrite Hd.
  - unfold same_disk. by rewrite D2, W2.
Qed.

Lemma install_trans_ok L O W :
  cache_ok (lbio L) O ∅ -> l_dev L = 1 -> l_start L = st -> 0 <= st -> (size O < NBUF)%nat ->
  lists (lh_n L) (lh_block L) W.*1 -> logged (disk (lbio L)) W ->
  (forall m, is_Some (O !! m) -> m ∈ W.*1) -> (forall h, h ∈ W.*1 -> room O h) ->
  exists s, install_trans pid L = Ok tt (with_bio L s) /\ cache_ok s ∅ ∅ /\ wrote (lbio L) s W.
Proof.
  intros HC Hdev Hst H0 Hs HL HW HO Hroom.
  edestruct (install_loop pid st sz H0 W L O 0) as (s & O' & E & HC' & HW' & HO'); try done.
  - intros m Hm. apply eq_None_not_Some. intros Hin%HO. pose proof (logged_home _ _ _ HW Hin). lia.
  - split; [apply HW|]. intros t h d Ht. destruct (proj2 HW t h d Ht) as (Hr & Ht' & _).
    rewrite Z.add_0_l. split; [by eapply lists_get|done].
  - intros t h d Ht. destruct (proj2 HW t h d Ht) as (_ & _ & Hd). by rewrite Z.add_0_l.
  - exists s. split; [|split; [|done]].
    + unfold install_trans. erewrite bind_run by reflexivity. rewrite (proj1 HL).
      rewrite <- E. unfold zlen. by rewrite length_fmap.
    + assert (O' = ∅) as ->; [|done]. apply map_eq. intros m. rewrite HO', lookup_empty.
      destruct (decide (m ∈ W.*1)) as [|Hn]; [done|]. apply eq_None_not_Some. auto.
Qed.

(** The common end of recovery and commit. *)
Definition finish : M logst unit :=
  install_trans pid;; modify (fun L => L <| lh_n := 0 |>);; write_head pid.

Lemma finish_ok L O W w :
  cache_ok (lbio L) O ∅ -> l_dev L = 1 -> l_start L = st -> layout (disk (lbio L)) ->
  (size O < NBUF)%nat -> lists (lh_n L) (lh_block L) W.*1 -> logged (disk (lbio L)) W ->
  (forall m, is_Some (O !! m) -> m ∈ W.*1) -> (forall h, h ∈ W.*1 -> room O h) ->
  zlookup (disk (lbio L)) st = Some w -> zlen w = 128 ->
  exists s w0, finish L = Ok tt (with_bio (L <| lh_n := 0 |>) s) /\
    cache_ok s ∅ ∅ /\ heads w0 [] /\ wrote (lbio L) s (W ++ [(st, w0)]).
Proof.
  intros HC Hdev Hst (H2 & Hsz & Hlen & _) Hs HL HW HO Hroom Hw Hz.
  destruct (install_trans_ok L O W) as (s2 & E2 & HC2 & HW2); try done; [lia|].
  assert (Hd2 : zlookup (disk s2) st = Some w).
  { destruct HW2 as [-> _]. rewrite replay_out; [done|].
    intros Hin. pose proof (logged_home _ _ _ HW Hin). lia. }
  destruct (write_head_ok pid (with_bio (L <| lh_n := 0 |>) s2) ∅ w) as (s3 & E3 & HC3 & HW3);
    cbn; rewrite ?Hst; try done.
  { rewrite (wrote_zlen _ _ _ HW2). lia. } { apply empty_room. }
  cbn in HW3. rewrite Hst in HW3.
  exists s3, (head_words 0 (lh_block L) w). split; [|split; [done|split]].
  - unfold finish. erewrite bind_run by exact E2. erewrite bind_run by reflexivity. exact E3.
  - apply head_words_ok; [split; [done|]|unfold zlen, LOGSIZE; cbn; lia|done].
    intros t Ht. unfold zlen in Ht. cbn in Ht. lia.
  - by eapply wrote_app.
Qed.

Lemma recover_ok L W :
  cache_ok (lbio L) ∅ ∅ -> l_dev L = 1 -> l_start L = st -> layout (disk (lbio L)) ->
  on_disk (disk (lbio L)) W -> zlen (lh_block L) = LOGSIZE ->
  exists s bl w0, recover_from_log pid L =
      Ok tt (with_bio (L <| lh_n := 0 |> <| lh_block := bl |>) s) /\
    cache_ok s ∅ ∅ /\ zlen bl = LOGSIZE /\ heads w0 [] /\
    wrote (lbio L) s (W ++ [(st, w0)]).
Proof.
  intros HC Hdev Hst HLay [HW (w & Hw & Hh)] Hbl. pose proof HLay as (H2 & Hsz & Hlen & _).
  pose proof (logged_len _ _ (proj1 Hsz) HW) as HWl. unfold NBUF in Hsz.
  destruct (read_head_ok pid L w W.*1) as (s1 & bl & E1 & HC1 & [D1 W1] & Hz & HL);
    rewrite ?Hst; try done.
  { lia. }
  { unfold zlen in *. rewrite length_fmap, Hbl. unfold LOGSIZE. lia. }
  destruct (finish_ok (with_bio (L <| lh_n := zlen W.*1 |> <| lh_block := bl |>) s1) ∅ W w)
    as (s2 & w0 & E2 & HC2 & Hw0 & [D2 W2]); cbn; rewrite ?D1; try done.
  { apply empty_room. }
  { intros m [? ?]. done. }
  { intros h _. right. rewrite map_size_empty. unfold NBUF. lia. }
  { apply Hh. }
  exists s2, bl, w0. split; [|split; [done|split; [by rewrite Hz|split; [done|]]]].
  - unfold recover_from_log. erewrite bind_run by exact E1. exact E2.
  - cbn in D2, W2. rewrite D1 in D2. rewrite W1 in W2. by split.
Qed.

Lemma initlog_ok D W :
  layout D -> on_disk D W ->
  exists L w0, initlog pid 1 (boot D) = Ok tt L /\ cache_ok (lbio L) ∅ ∅ /\ log_ready L /\
    heads w0 [] /\ wrote (binit D) (lbio L) (W ++ [(st, w0)]).
Proof.
  intros HL HW. pose proof HL as (H2 & Hsz & Hlen & sb & Hsb & H3 & H4).
  unfold initlog. change (BSIZE <=? 4 * (1 + LOGSIZE)) with false. cbv iota.
  destruct (readsb_ok (boot D) sb) as (s1 & E1 & HC1 & [D1 W1]); [apply binit_ok|cbn; lia|done|].
  erewrite bind_run by exact E1. erewrite bind_run by reflexivity. rewrite H3, H4.
  set (L1 := _ : logst). destruct (recover_ok L1 W) as (s & bl & w0 & E & HC & Hz & Hw & HW');
    try done; [cbn; by rewrite D1..|].
  eexists _, w0. split; [exact E|]. split; [done|]. split; [by split|]. split; [done|].
  destruct HW' as [HD HWr]. cbn in HD, HWr. rewrite D1 in HD. rewrite W1 in HWr. by split.
Qed.

(** ** The state inside a transaction

    [bs] are the blocks in the header and [O] their new contents. *)

Record session L O (H : gmap Z nat) (bs : list Z) : Prop := mksession {
  tr_cache : cache_ok (lbio L) O H; tr_dev : l_dev L = 1; tr_start : l_start L = st;
  tr_size : l_size L = sz; tr_layout : layout (disk (lbio L));
  tr_clean : on_disk (disk (lbio L)) []; tr_lists : lists (lh_n L) (lh_block L) bs;
  tr_block : zlen (lh_block L) = LOGSIZE; tr_nodup : NoDup bs; tr_len : zlen bs < sz;
  tr_home : forall h, h ∈ bs -> st + sz <= h < zlen (disk (lbio L));
  tr_dirty : forall m, is_Some (O !! m) <-> m ∈ bs }.
Abbreviation trans L O bs := (session L O ∅ bs).

(** The writes that make the new contents. *)
Definition news O (bs : list Z) : list (Z * list Z) := (fun h => (h, default [] (O !! h))) <$> bs.

Lemma news_fst O bs : (news O bs).*1 = bs.
Proof. unfold news. rewrite <- list_fmap_compose. apply list_fmap_id. Qed.

Lemma news_in O bs h d : (forall m, is_Some (O !! m) <-> m ∈ bs) -> (h, d) ∈ news O bs -> O !! h = Some d.
Proof.
  intros HO (h' & E & Hin)%list_elem_of_fmap. simplify_eq. apply HO in Hin as [d Hd]. by rewrite Hd.
Qed.

Lemma log_blocks_fst W : forall a, (log_blocks a W).*1 = seqZ a (zlen W).
Proof.
  induction W as [|[h d] W IH]; intros a; [done|].
  rewrite seqZ_cons by (unfold zlen; cbn; lia). cbn. f_equal. rewrite IH.
  f_equal; unfold zlen; cbn; lia.
Qed.

Lemma log_blocks_lookup W : forall a t h d,
  W !! t = Some (h, d) -> (a + Z.of_nat t, d) ∈ log_blocks a W.
Proof.
  induction W as [|[h' d'] W IH]; intros a [|t] h d Ht; simplify_eq/=.
  - rewrite Z.add_0_r. by left.
  - right. replace (a + Z.of_nat (S t)) with (a + 1 + Z.of_nat t) by lia. by eapply IH.
Qed.

(** The log on the disk after write_log and write_head. *)
Lemma logged_after D W w1 :
  0 <= st -> st + sz <= zlen D -> NoDup W.*1 -> zlen W < sz ->
  (forall h, h ∈ W.*1 -> st + sz <= h < zlen D) ->
  logged (replay D (log_blocks (st + 1) W ++ [(st, w1)])) W.
Proof.
  intros H0 Hl HN HW Hh. split; [done|]. intros t h d Ht.
  assert (Hin : h ∈ W.*1). { apply list_elem_of_fmap. exists (h, d). eauto using list_elem_of_lookup_2. }
  pose proof (lookup_lt_Some _ _ _ Ht). unfold zlen in HW. rewrite zlen_replay.
  split; [auto|]. split; [lia|]. rewrite replay_app. cbn.
  rewrite zlookup_zupd_ne by lia. apply replay_in.
  - rewrite log_blocks_fst. apply NoDup_seqZ.
  - replace (st + Z.of_nat t + 1) with (st + 1 + Z.of_nat t) by lia. by eapply log_blocks_lookup.
  - lia.
Qed.

Lemma trans_room L O H bs :
  session L O H bs -> (size O < NBUF)%nat /\ log_clear st sz O.
Proof.
  intros T. pose proof (tr_layout _ _ _ _ T) as (_ & Hsz & _). split.
  - assert (E : dom O = list_to_set (C := gset Z) bs).
    { apply set_eq. intros m. rewrite elem_of_dom, elem_of_list_to_set. apply (tr_dirty _ _ _ _ T). }
    rewrite <- size_dom, E, size_list_to_set by apply T. pose proof (tr_len _ _ _ _ T) as Hl.
    unfold zlen in Hl. lia.
  - intros m Hm. apply eq_None_not_Some. intros Hin%(tr_dirty _ _ _ _ T).
    pose proof (tr_home _ _ _ _ T m Hin). lia.
Qed.

Lemma layout_replay D W : layout D -> 1 ∉ W.*1 -> layout (replay D W).
Proof.
  intros (H2 & Hsz & HlD & sb & Hsb & H34) H1. unfold layout. rewrite zlen_replay.
  split; [done|]. split; [done|]. split; [done|]. exists sb. by rewrite replay_out.
Qed.

(** The first half of commit: up to the write of the header that commits. *)
Lemma log_out_ok L O bs :
  trans L O bs ->
  exists s w1, (write_log pid;; write_head pid) L = Ok tt (with_bio L s) /\
    cache_ok s O ∅ /\ heads w1 bs /\ wrote (lbio L) s (log_blocks (st + 1) (news O bs) ++ [(st, w1)]).
Proof.
  intros T. destruct (trans_room _ _ _ _ T) as [Hs Hlow].
  destruct T as [HC Hdev Hst _ (H2 & Hsz & HlD & _) (_ & w & Hw & Hlw & _) HL _ HN Hlen Hhome HO].
  set (W := news O bs). assert (EW : W.*1 = bs) by apply news_fst.
  assert (EL : zlen W = zlen bs) by (unfold zlen, W, news; by rewrite length_fmap).
  edestruct (write_loop pid st sz ltac:(lia) W L O 0) as (s1 & E1 & HC1 & HW1); try done.
  { split; [by rewrite EW|]. intros t h d Ht. rewrite Z.add_0_l.
    split; [eapply lists_get; [by rewrite EW|done]|]. split.
    - apply Hhome. rewrite <- EW. apply list_elem_of_fmap. exists (h, d). eauto using list_elem_of_lookup_2.
    - apply lookup_lt_Some in Ht. unfold zlen in *. lia. }
  { intros h d. by apply news_in. }
  rewrite Z.add_0_l, Z.add_0_r in *.
  destruct (write_head_ok pid (with_bio L s1) O w) as (s2 & E2 & HC2 & HW2); cbn; rewrite ?Hst; try done.
  { rewrite (wrote_zlen _ _ _ HW1). lia. } { apply Hlow. lia. }
  { destruct HW1 as [-> _]. rewrite replay_out; [done|]. rewrite log_blocks_fst, elem_of_seqZ. lia. }
  cbn in HW2. rewrite Hst in HW2.
  exists s2, (head_words (lh_n L) (lh_block L) w). split; [|split; [done|split; [|by eapply wrote_app]]].
  - erewrite bind_run; [exact E2|].
    unfold write_log. erewrite bind_run by reflexivity. rewrite (proj1 HL), <- EL. exact E1.
  - apply head_words_ok; [done|unfold LOGSIZE, NBUF in *; lia|done].
Qed.

Lemma commit_ok L O bs :
  trans L O bs -> bs <> [] ->
  exists s w1 w0, commit pid L = Ok tt (with_bio (L <| lh_n := 0 |>) s) /\
    cache_ok s ∅ ∅ /\ heads w1 bs /\ heads w0 [] /\
    wrote (lbio L) s
      ((log_blocks (st + 1) (news O bs) ++ [(st, w1)]) ++ news O bs ++ [(st, w0)]).
Proof.
  intros T Hne. destruct (log_out_ok _ _ _ T) as (s2 & w1 & E2 & HC2 & Hw1 & HW2).
  destruct (trans_room _ _ _ _ T) as [Hs _].
  destruct T as [_ Hdev Hst _ HLay _ HL _ HN Hlen Hhome HO].
  pose proof HLay as (H2 & Hsz & HlD & _). set (W := news O bs) in *.
  assert (EW : W.*1 = bs) by apply news_fst.
  assert (EL : zlen W = zlen bs) by (unfold zlen, W, news; by rewrite length_fmap).
  destruct (finish_ok (with_bio L s2) O W w1) as (s3 & w0 & E3 & HC3 & Hw0 & HW3); try done;
    cbn; rewrite ?(proj1 HW2).
  { apply layout_replay; [done|]. rewrite fmap_app, log_blocks_fst, elem_of_app, elem_of_seqZ.
    cbn. rewrite list_elem_of_singleton. lia. }
  { by rewrite EW. }
  { apply logged_after; rewrite ?EW; try done; lia. }
  { intros m. rewrite EW. apply HO. }
  { intros h Hh. left. apply HO. by rewrite <- EW. }
  { rewrite replay_app. cbn. rewrite zlookup_zupd_eq; [done|]. rewrite zlen_replay. lia. }
  { apply Hw1. }
  exists s3, w1, w0. split; [|split; [done|split; [done|split; [done|by eapply wrote_app]]]].
  unfold commit. erewrite bind_run by reflexivity. rewrite (proj1 HL).
  rewrite (proj2 (Z.ltb_lt _ _)) by (unfold zlen; destruct bs; [done|cbn; lia]).
  apply bind_Ok in E2 as (u & s1 & E1 & E2). erewrite bind_run by exact E1.
  erewrite bind_run by exact E2. exact E3.
Qed.

(** ** log_write *)

Lemma zlookup_snoc (l : list Z) x t :
  zlookup (l ++ [x]) t = if decide (t = zlen l) then Some x else zlookup l t.
Proof.
  destruct (decide (t = zlen l)) as [->|Hn].
  - unfold zlen. by rewrite zlookup_of_nat, lookup_app_r, Nat.sub_diag by lia.
  - destruct (decide (0 <= t < zlen l)) as [Hr|Hr].
    + rewrite !zlookup_to_nat by lia. unfold zlen in *. by rewrite lookup_app_l by lia.
    + assert (forall k : list Z, zlen k = zlen l \/ zlen k = zlen l + 1 -> zlookup k t = None) as HN.
      { intros k Hk. apply eq_None_not_Some. intros ?%zlookup_is_Some. lia. }
      rewrite !HN; [done|by left|right]. unfold zlen. rewrite length_app. cbn. lia.
Qed.

Lemma log_slot_ok L h bs :
  lists (lh_n L) (lh_block L) bs ->
  ((h ∈ bs) /\ 0 <= log_slot h L < lh_n L /\ zlookup bs (log_slot h L) = Some h) \/
  ((h ∉ bs) /\ log_slot h L = lh_n L).
Proof.
  intros [Hn HL]. unfold log_slot.
  destruct (find _ _) as [k|] eqn:E; cbn.
  - left. apply find_in in E as [Hk%elem_of_zrange Hh%Z.eqb_eq].
    assert (Hz : zlookup bs k = Some h).
    { rewrite <- HL, <- Hh by lia. apply zlookup_zget. apply zlookup_is_Some.
      rewrite HL by lia. apply zlookup_is_Some. lia. }
    split; [|split; [lia|done]]. rewrite zlookup_to_nat in Hz by lia. eauto using list_elem_of_lookup_2.
  - right. split; [|done]. intros [t Ht]%list_elem_of_lookup.
    pose proof (lookup_lt_Some _ _ _ Ht). assert (Hr : Z.of_nat t ∈ zrange 0 (lh_n L - 1)).
    { apply elem_of_zrange. unfold zlen in Hn. lia. }
    pose proof (find_out _ _ _ E Hr) as Hf. apply Z.eqb_neq in Hf. apply Hf. unfold zget.
    rewrite HL by (unfold zlen; lia). by rewrite zlookup_of_nat, Ht.
Qed.

(** The header after an update of block [h]. *)
Definition add_block (bs : list Z) (h : Z) : list Z := if decide (h ∈ bs) then bs else bs ++ [h].

Lemma elem_of_add_block bs h m : m ∈ add_block bs h <-> m = h \/ m ∈ bs.
Proof.
  unfold add_block. destruct (decide (h ∈ bs)); [|rewrite elem_of_snoc; tauto].
  split; [auto|by intros [->|?]].
Qed.

Lemma log_slot_lists L h bs :
  lists (lh_n L) (lh_block L) bs -> zlen bs < zlen (lh_block L) ->
  lists (if log_slot h L =? lh_n L then lh_n L + 1 else lh_n L)
        (zupd (lh_block L) (log_slot h L) h) (add_block bs h).
Proof.
  intros HL Hlen. pose proof HL as [Hn Ht]. unfold add_block.
  destruct (log_slot_ok L h bs HL) as [(Hin & Hk & Hz)|(Hin & ->)].
  - rewrite decide_True by done. rewrite (proj2 (Z.eqb_neq _ _)) by lia. split; [done|].
    intros t Hr. destruct (decide (t = log_slot h L)) as [->|Hne].
    + rewrite zlookup_zupd_eq by lia. by rewrite Hz.
    + rewrite zlookup_zupd_ne by done. auto.
  - rewrite decide_False by done. rewrite Z.eqb_refl. split; [unfold zlen in *; rewrite length_app; cbn; lia|].
    intros t Hr. rewrite zlookup_snoc. destruct (decide (t = zlen bs)) as [->|Hne].
    + rewrite Hn, zlookup_zupd_eq; [done|unfold zlen in *; lia].
    + rewrite zlookup_zupd_ne by lia. apply Ht. unfold zlen in *. rewrite length_app in Hr. cbn in Hr. lia.
Qed.

Lemma log_write_run L s s' i h :
  lh_n L < sz - 1 -> sz <= Z.of_nat NBUF -> l_size L = sz -> 1 <= l_outstanding L ->
  b_blockno (the_buf i s) = h ->
  upd_buf i (fun b => b <| b_flags := Z.lor (b_flags b) B_DIRTY |>) s = Ok tt s' ->
  log_write i (with_bio L s) =
  Ok tt (with_bio (L <| lh_block := zupd (lh_block L) (log_slot h L) h |>
           <| lh_n := if log_slot h L =? lh_n L then lh_n L + 1 else lh_n L |>) s').
Proof.
  intros Hn Hsz Hsize Ho Hh E. unfold log_write. do 3 (erewrite bind_run by reflexivity).
  cbn [lh_n l_size l_outstanding with_bio upd]. rewrite Hsize.
  unfold NBUF, LOGSIZE in *. rewrite (proj2 (Z.leb_gt _ _)), (proj2 (Z.leb_gt _ _)) by lia.
  cbn [orb]. rewrite (proj2 (Z.ltb_ge _ _)) by lia.
  erewrite bind_run by (apply onbio_run; reflexivity). cbn [lbio with_bio upd]. rewrite Hh.
  erewrite bind_run by reflexivity. erewrite bind_run by reflexivity.
  change (log_slot h (with_bio (with_bio L s) s)) with (log_slot h L).
  destruct (log_slot h L =? lh_n L); (erewrite bind_run by reflexivity);
    by rewrite (onbio_run _ _ tt s').
Qed.

Lemma trans_update L O H bs h x s :
  session L O H bs -> zlen bs < sz - 1 -> st + sz <= h < zlen (disk (lbio L)) ->
  cache_ok s (<[h := x]> O) H -> disk s = disk (lbio L) ->
  session (with_bio (L <| lh_block := zupd (lh_block L) (log_slot h L) h |>
           <| lh_n := if log_slot h L =? lh_n L then lh_n L + 1 else lh_n L |>) s)
    (<[h := x]> O) H (add_block bs h).
Proof.
  intros [HC Hdev Hst Hsize HLay Hcl HL Hbl HN Hlen' Hhome HO] Hlen Hh HC' HD.
  pose proof HLay as (H2 & Hsz & HlD & _).
  split; cbn; rewrite ?HD; try done.
  - apply log_slot_lists; [done|]. rewrite Hbl. unfold LOGSIZE, NBUF in *. lia.
  - by rewrite zlen_zupd.
  - unfold add_block. destruct (decide (h ∈ bs)); [done|]. apply NoDup_app. split; [done|].
    split; [|apply NoDup_singleton]. intros m Hm ->%list_elem_of_singleton. done.
  - unfold add_block. destruct (decide (h ∈ bs)); unfold zlen in *; [lia|].
    rewrite length_app. cbn. lia.
  - intros m [->|Hm]%elem_of_add_block; auto.
  - intros m. rewrite elem_of_add_block, lookup_insert_is_Some, HO.
    split; [intuition congruence|]. intros [->|?]; [by left|]. destruct (decide (h = m)); auto.
Qed.

Lemma log_update_ok L O bs h g d :
  trans L O bs -> 1 <= l_outstanding L -> zlen bs < sz - 1 ->
  st + sz <= h < zlen (disk (lbio L)) -> content (disk (lbio L)) O h = Some d ->
  exists L', log_update pid (h, g) L = Ok tt L' /\ trans L' (<[h := g d]> O) (add_block bs h) /\
    same_disk (lbio L) (lbio L') /\ l_outstanding L' = l_outstanding L /\
    l_committing L' = l_committing L.
Proof.
  intros T Hout Hlen Hh Hd. destruct (trans_room _ _ _ _ T) as [Hs Hlow].
  pose proof (tr_layout _ _ _ _ T) as (H2 & Hsz & HlD & _). pose proof (tr_cache _ _ _ _ T) as HC.
  pose proof (tr_lists _ _ _ _ T) as HL. pose proof (tr_size _ _ _ _ T) as Hsize.
  destruct (open_one pid _ _ h HC) as (i & s1 & E1 & HC1 & [D1 W1]); [lia|by right|].
  assert (Hdi : b_data (the_buf i s1) = d).
  { assert (E : content (disk s1) O h = Some (b_data (the_buf i s1)))
      by (eapply held_data; [done|by rewrite lookup_insert_eq]).
    rewrite D1, Hd in E. congruence. }
  destruct (dirty_ok pid s1 O _ h i g HC1) as (s2 & E2 & HC2 & [D2 W2]); [by rewrite lookup_insert_eq|].
  rewrite Hdi in HC2. apply bind_Ok in E2 as ([] & s12 & E12 & E2).
  destruct (close_one pid _ _ _ _ HC2) as (s3 & E3 & HC3 & [D3 W3]).
  assert (Hno : b_blockno (the_buf i s12) = h).
  { destruct (held_buf pid _ _ _ _ i HC1 (lookup_insert_eq _ _ _)) as (b & Hb & _ & Hbn & _).
    rewrite (upd_run _ _ _ _ Hb) in E12. injection E12 as <-.
    rewrite (the_buf_at _ _ _ (put_buf_at _ _ _ _ Hb)). exact Hbn. }
  exists (with_bio (L <| lh_block := zupd (lh_block L) (log_slot h L) h |>
            <| lh_n := if log_slot h L =? lh_n L then lh_n L + 1 else lh_n L |>) s3).
  split; [|split; [|split; [|done]]].
  - unfold log_update. cbn [fst snd]. erewrite bind_run by (apply onbio_run; exact E1).
    erewrite bind_run by (apply onbio_run; exact E12).
    erewrite bind_run.
    2: { apply (log_write_run (with_bio L s1) s12 s2 i h); cbn; try done; [rewrite (proj1 HL)|]; lia. }
    by rewrite (onbio_run _ _ tt s3).
  - apply (trans_update L O ∅ bs h (g d) s3); try done. by rewrite D3, D2, D1.
  - unfold same_disk. cbn. by rewrite D3, W3, D2, W2, D1, W1.
Qed.

(** ** What a disk means: its contents after recovery *)

Definition same_files (D V : list (list Z)) : Prop :=
  forall m, st + sz <= m -> zlookup D m = zlookup V m.

Definition means D V : Prop := layout D /\ exists W, on_disk D W /\ same_files (replay D W) V.

Lemma take_snoc {A} (l : list A) x k :
  take k (l ++ [x]) = take k l \/ (length l < k)%nat /\ take k (l ++ [x]) = l ++ [x].
Proof.
  destruct (decide (k <= length l)%nat); [left; by rewrite take_app_le|right].
  split; [lia|]. apply take_ge. rewrite length_app. cbn. lia.
Qed.

Lemma take_split {A} (l k : list A) n :
  take n (l ++ k) = take n l \/ take n (l ++ k) = l ++ take (n - length l) k.
Proof.
  destruct (decide (n <= length l)%nat); [left; by rewrite take_app_le|right].
  rewrite take_app. f_equal. apply take_ge. lia.
Qed.

Lemma take_fst_sub (W : list (Z * list Z)) k m : m ∈ (take k W).*1 -> m ∈ W.*1.
Proof.
  rewrite !list_elem_of_fmap. intros (w & -> & Hw). exists w. split; [done|].
  by apply (subseteq_take k W) in Hw.
Qed.

Lemma on_disk_empty D w : zlookup D st = Some w -> heads w [] -> on_disk D [].
Proof. intros Hw Hh. split; [|eauto]. split; [apply NoDup_nil_2|]. intros t h d Ht. by rewrite lookup_nil in Ht. Qed.

(** Installing the log, cut anywhere, keeps the meaning of the disk. *)
Lemma install_prefix D W w0 k :
  layout D -> on_disk D W -> heads w0 [] ->
  means (replay D (take k (W ++ [(st, w0)]))) (replay D W).
Proof.
  intros HL [HW (w & Hw & Hh)] Hw0. pose proof HL as (H2 & Hsz & HlD & _).
  assert (Hout : forall m j, m < st + sz -> zlookup (replay D (take j W)) m = zlookup D m).
  { intros m j Hm. apply replay_out. intros Hin%take_fst_sub.
    pose proof (logged_home _ _ _ HW Hin). lia. }
  destruct (take_snoc W (st, w0) k) as [->|[_ ->]].
  - split. { apply layout_replay; [done|]. intros Hin%take_fst_sub.
             pose proof (logged_home _ _ _ HW Hin). lia. }
    exists W. split; [split|].
    + split; [apply HW|]. intros t h d Ht. destruct (proj2 HW t h d Ht) as (Hr & Ht' & Hd).
      rewrite zlen_replay. split; [done|]. split; [done|]. rewrite Hout by lia. done.
    + exists w. rewrite Hout by lia. done.
    + intros m _. apply replay_again; [apply HW|]. apply Forall_forall. intros [h d] Hin.
      assert (h ∈ W.*1) as Hh' by (apply list_elem_of_fmap; by exists (h, d)).
      pose proof (logged_home _ _ _ HW Hh'). cbn. lia.
  - assert (HW1 : (st ∉ W.*1) /\ (1 ∉ W.*1)).
    { split; intros Hin; pose proof (logged_home _ _ _ HW Hin); lia. }
    split. { apply layout_replay; [done|]. rewrite fmap_app, elem_of_app. cbn.
             rewrite list_elem_of_singleton. intros [?|?]; [tauto|lia]. }
    exists []. rewrite replay_app. cbn. split.
    + eapply on_disk_empty; [|exact Hw0]. rewrite zlookup_zupd_eq; [done|]. rewrite zlen_replay. lia.
    + intros m Hm. rewrite zlookup_zupd_ne by lia. done.
Qed.

(** The writes of commit, cut anywhere, leave the old or the new contents. *)
Lemma commit_prefix D W w1 w0 k :
  layout D -> on_disk D [] -> NoDup W.*1 -> zlen W < sz ->
  (forall h, h ∈ W.*1 -> st + sz <= h < zlen D) -> heads w1 W.*1 -> heads w0 [] ->
  let C := replay D (take k ((log_blocks (st + 1) W ++ [(st, w1)]) ++ W ++ [(st, w0)])) in
  means C D \/ means C (replay D W).
Proof.
  intros HL [_ (w & Hw & Hh)] HN Hlen Hhome Hw1 Hw0 C. pose proof HL as (H2 & Hsz & HlD & _).
  assert (Hlb : forall m, m ∈ (log_blocks (st + 1) W).*1 -> st < m < st + sz).
  { intros m. rewrite log_blocks_fst, elem_of_seqZ. lia. }
  assert (Hl1 : forall j, layout (replay D (take j (log_blocks (st + 1) W ++ [(st, w1)])))).
  { intros j. apply layout_replay; [done|]. intros Hin%take_fst_sub.
    rewrite fmap_app, elem_of_app in Hin. cbn in Hin. rewrite list_elem_of_singleton in Hin.
    destruct Hin as [?%Hlb|?]; lia. }
  set (D1 := replay D (log_blocks (st + 1) W ++ [(st, w1)])).
  assert (HD1 : on_disk D1 W).
  { split; [apply logged_after; try done; lia|]. exists w1. split; [|done]. unfold D1.
    rewrite replay_app. cbn. apply zlookup_zupd_eq. rewrite zlen_replay. lia. }
  assert (HlD1 : layout D1).
  { specialize (Hl1 (length (log_blocks (st + 1) W ++ [(st, w1)]))). by rewrite take_ge in Hl1. }
  assert (Hagree : same_files (replay D1 W) (replay D W)).
  { intros m Hm. unfold D1. destruct (decide (m ∈ W.*1)) as [Hin|Hin].
    - pose proof (Hhome m Hin). apply list_elem_of_fmap in Hin as ([m' d] & -> & Hin). cbn in *.
      rewrite !(replay_in _ _ m' d); auto; [lia|]. rewrite zlen_replay. lia.
    - rewrite !(replay_out W) by done. apply replay_out.
      rewrite fmap_app, elem_of_app. cbn. rewrite list_elem_of_singleton.
      intros [?%Hlb|?]; lia. }
  unfold C. destruct (take_split (log_blocks (st + 1) W ++ [(st, w1)]) (W ++ [(st, w0)]) k) as [E|E]; rewrite E.
  - destruct (take_snoc (log_blocks (st + 1) W) (st, w1) k) as [E'|[_ E']].
    + left. split; [apply Hl1|]. rewrite E'. exists []. split.
      * eapply on_disk_empty; [|exact Hh]. rewrite replay_out; [done|]. intros ?%take_fst_sub%Hlb. lia.
      * intros m Hm. cbn. apply replay_out. intros ?%take_fst_sub%Hlb. lia.
    + right. rewrite E'. split; [done|]. exists W. done.
  - right. rewrite replay_app. fold D1. set (k' := (k - _)%nat).
    destruct (install_prefix D1 W w0 k' HlD1 HD1 Hw0) as [Hl (W' & HW' & Hs)].
    split; [done|]. exists W'. split; [done|]. intros m Hm. by rewrite Hs, Hagree.
Qed.

(** ** A transaction *)

(** The updates made directly on the disk. *)
Definition updated D (us : list (Z * (list Z -> list Z))) : list (list Z) :=
  fold_left (fun D u => zupd D (fst u) (snd u (zget D (fst u)))) us D.

Lemma len_le_size (bs : list Z) (X : gset Z) :
  NoDup bs -> (forall m, m ∈ bs -> m ∈ X) -> zlen bs <= Z.of_nat (size X).
Proof.
  intros HN HX. unfold zlen. rewrite <- (size_list_to_set (C := gset Z) bs HN).
  apply inj_le, subseteq_size. intros m Hm%elem_of_list_to_set. auto.
Qed.

Lemma updates_ok (X : gset Z) us : forall L O bs V,
  trans L O bs -> 1 <= l_outstanding L ->
  zlen V = zlen (disk (lbio L)) -> (forall m, content (disk (lbio L)) O m = zlookup V m) ->
  (forall u, u ∈ us -> st + sz <= fst u < zlen V /\ fst u ∈ X) -> (forall m, m ∈ bs -> m ∈ X) ->
  Z.of_nat (size X) < sz - 1 ->
  exists L' O' bs', forM us (log_update pid) L = Ok tt L' /\ trans L' O' bs' /\
    same_disk (lbio L) (lbio L') /\ l_outstanding L' = l_outstanding L /\
    l_committing L' = l_committing L /\
    (forall m, content (disk (lbio L)) O' m = zlookup (updated V us) m).
Proof.
  induction us as [|[h g] us IH]; intros L O bs V T Ho HV HC Hus Hbs HX.
  { exists L, O, bs. done. }
  destruct (Hus (h, g)) as [Hh HhX]; [by left|]. cbn in Hh, HhX.
  pose proof (tr_layout _ _ _ _ T) as (H2 & Hsz & _).
  assert (Hd : content (disk (lbio L)) O h = Some (zget V h)) by (rewrite HC; apply zlookup_zget; lia).
  destruct (log_update_ok L O bs h g (zget V h) T Ho) as (L1 & E1 & T1 & [D1 W1] & Ho1 & Hc1); [|by rewrite <- HV|done|].
  { pose proof (len_le_size bs X (tr_nodup _ _ _ _ T) Hbs). lia. }
  destruct (IH L1 _ _ (zupd V h (g (zget V h))) T1) as (L2 & O2 & bs2 & E2 & T2 & [D2 W2] & Ho2 & Hc2 & HC2).
  - lia.
  - by rewrite zlen_zupd, D1.
  - intros m. rewrite D1. unfold content. destruct (decide (m = h)) as [->|Hn].
    + rewrite lookup_insert_eq, zlookup_zupd_eq; [done|lia].
    + rewrite lookup_insert_ne, zlookup_zupd_ne by done. apply HC.
  - intros u Hu. rewrite zlen_zupd. apply Hus. by right.
  - intros m [->|Hm]%elem_of_add_block; auto.
  - done.
  - exists L2, O2, bs2. split; [cbn [forM]; erewrite bind_run by exact E1; exact E2|].
    split; [done|]. split; [unfold same_disk; by rewrite D2, W2, D1, W1|].
    split; [congruence|]. split; [congruence|]. intros m. rewrite <- D1. apply HC2.
Qed.

Lemma replay_news D O bs m :
  NoDup bs -> (forall m, is_Some (O !! m) <-> m ∈ bs) -> (forall h, h ∈ bs -> 0 <= h < zlen D) ->
  zlookup (replay D (news O bs)) m = content D O m.
Proof.
  intros HN HO Hr. unfold content. destruct (O !! m) as [d|] eqn:E.
  - assert (Hm : m ∈ bs) by (apply HO; eauto). apply replay_in; [by rewrite news_fst| |auto].
    apply list_elem_of_fmap. exists m. by rewrite E.
  - apply replay_out. rewrite news_fst, <- HO, E. by intros [? ?].
Qed.

(** begin_op and end_op around the updates. *)
Lemma transaction_run L L1 L2 us :
  l_committing L = false -> lh_n L = 0 -> l_outstanding L = 0 ->
  forM us (log_update pid) (L <| l_outstanding := 1 |>) = Ok tt L1 ->
  l_outstanding L1 = 1 -> l_committing L1 = false ->
  commit pid (L1 <| l_outstanding := 0 |> <| l_committing := true |>) = Ok tt L2 ->
  transaction pid us L = Ok tt (L2 <| l_committing := false |>).
Proof.
  intros Hcm Hn Ho E1 Ho1 Hc1 E2. unfold transaction, begin_op. erewrite bind_run.
  2: { do 3 (erewrite bind_run by reflexivity). rewrite Hcm, Hn, Ho.
       change (LOGSIZE <? 0 + (0 + 1) * MAXOPBLOCKS) with false. reflexivity. }
  cbv iota. erewrite bind_run by exact E1. unfold end_op. erewrite bind_run by reflexivity.
  rewrite Ho1. erewrite bind_run by reflexivity. erewrite bind_run by reflexivity.
  cbn [l_committing l_outstanding upd]. rewrite Hc1. change (1 - 1 =? 0) with true. cbv iota.
  erewrite bind_run by reflexivity. erewrite bind_run by exact E2. reflexivity.
Qed.

Lemma trans_start L :
  cache_ok (lbio L) ∅ ∅ -> log_ready L -> layout (disk (lbio L)) -> on_disk (disk (lbio L)) [] ->
  trans (L <| l_outstanding := 1 |>) ∅ [].
Proof.
  intros HC [Hdev Hst Hsize Ho Hcm Hn Hbl] HLay Hcl. pose proof HLay as (H2 & Hsz & HlD & _).
  split; cbn; try done.
  - split; [by rewrite Hn|]. intros t. unfold zlen. cbn. lia.
  - apply NoDup_nil_2.
  - unfold zlen. cbn. lia.
  - intros h Hh. by apply elem_of_nil in Hh.
  - intros m. rewrite lookup_empty, elem_of_nil. split; [by intros [? ?]|done].
Qed.

(** A commit, whether or not there is anything to write. *)
Lemma commit_means L O bs :
  trans L O bs ->
  exists L' Wt, commit pid L = Ok tt L' /\ wrote (lbio L) (lbio L') Wt /\
    same_files (disk (lbio L')) (replay (disk (lbio L)) (news O bs)) /\
    (forall k, let C := replay (disk (lbio L)) (take k Wt) in
       means C (disk (lbio L)) \/ means C (replay (disk (lbio L)) (news O bs))).
Proof.
  intros T. destruct (decide (bs = [])) as [->|Hne].
  - exists L, []. split; [|split; [|split; [done|]]].
    + unfold commit. erewrite bind_run by reflexivity. by rewrite (proj1 (tr_lists _ _ _ _ T)).
    + split; [done|by rewrite app_nil_r].
    + intros k. left. rewrite take_nil. split; [apply T|]. exists []. split; [apply T|done].
  - destruct (commit_ok L O bs T Hne) as (s & w1 & w0 & E & HC & Hw1 & Hw0 & HW).
    pose proof (tr_layout _ _ _ _ T) as (H2 & Hsz & HlD & _).
    assert (Hkeys : (news O bs).*1 = bs) by apply news_fst.
    exists (with_bio (L <| lh_n := 0 |>) s). eexists. split; [done|]. split; [done|]. split.
    + intros m Hm. cbn. rewrite (proj1 HW), replay_app, replay_app. cbn.
      rewrite zlookup_zupd_ne by lia. destruct (decide (m ∈ bs)) as [Hin|Hin].
      * pose proof (tr_home _ _ _ _ T m Hin). rewrite <- Hkeys in Hin.
        apply list_elem_of_fmap in Hin as ([m' d] & -> & Hin). cbn in *.
        rewrite !(replay_in _ _ m' d); rewrite ?Hkeys, ?zlen_replay; auto; try apply T; lia.
      * rewrite !(replay_out (news O bs)), replay_out; rewrite ?Hkeys; auto.
        rewrite fmap_app, elem_of_app, log_blocks_fst, elem_of_seqZ. cbn.
        rewrite list_elem_of_singleton. pose proof (tr_len _ _ _ _ T).
        replace (zlen (news O bs)) with (zlen bs) by (unfold zlen, news; by rewrite length_fmap). lia.
    + intros k. apply commit_prefix; rewrite ?Hkeys; try apply T; try done.
      replace (zlen (news O bs)) with (zlen bs) by (unfold zlen, news; by rewrite length_fmap). apply T.
Qed.

(** After a commit the cache has no dirty block and the log on the disk is empty. *)
Lemma commit_ready L O bs :
  trans L O bs ->
  exists s, commit pid L = Ok tt (with_bio (L <| lh_n := 0 |>) s) /\ cache_ok s ∅ ∅ /\
    layout (disk s) /\ on_disk (disk s) [].
Proof.
  intros T. pose proof (tr_layout _ _ _ _ T) as HL. pose proof HL as (H2 & Hsz & HlD & _).
  destruct (decide (bs = [])) as [->|Hne].
  - exists (lbio L). assert (O = ∅) as ->.
    { apply map_empty. intros m. apply eq_None_not_Some. intros Hm%(tr_dirty _ _ _ _ T). by apply elem_of_nil in Hm. }
    split; [|split; [apply T|split; apply T]]. unfold commit. erewrite bind_run by reflexivity.
    pose proof (proj1 (tr_lists _ _ _ _ T)) as Hn. change (zlen []) with 0 in Hn. rewrite Hn.
    change (0 <? 0) with false. destruct L. cbn in *. by subst.
  - destruct (commit_ok L O bs T Hne) as (s & w1 & w0 & E & HC & Hw1 & Hw0 & HW).
    exists s. split; [done|]. split; [done|]. rewrite (proj1 HW). split.
    + apply layout_replay; [done|]. rewrite !fmap_app, !elem_of_app, log_blocks_fst, elem_of_seqZ, news_fst. cbn.
      rewrite list_elem_of_singleton. 
      intros [[?|?]|[Hb|?]]; [lia..|pose proof (tr_home _ _ _ _ T 1 Hb); lia|lia].
    + eapply on_disk_empty; [|exact Hw0]. rewrite !replay_app. cbn. apply zlookup_zupd_eq.
      rewrite !zlen_replay. cbn. rewrite zlen_zupd, zlen_replay. lia.
Qed.

Lemma means_same D V V' : means D V -> same_files V V' -> means D V'.
Proof.
  intros [HL (W & HW & Hs)] HV. split; [done|]. exists W. split; [done|]. intros m Hm.
  by rewrite Hs, HV.
Qed.

(** The log of a kernel that is ready, running a transaction. *)
Lemma transaction_ok L us (X : gset Z) :
  cache_ok (lbio L) ∅ ∅ -> log_ready L -> layout (disk (lbio L)) -> on_disk (disk (lbio L)) [] ->
  (forall u, u ∈ us -> st + sz <= fst u < zlen (disk (lbio L)) /\ fst u ∈ X) ->
  Z.of_nat (size X) < sz - 1 ->
  exists L' Wt, transaction pid us L = Ok tt L' /\ wrote (lbio L) (lbio L') Wt /\
    same_files (disk (lbio L')) (updated (disk (lbio L)) us) /\
    (forall k, let C := replay (disk (lbio L)) (take k Wt) in
       means C (disk (lbio L)) \/ means C (updated (disk (lbio L)) us)).
Proof.
  intros HC HR HLay Hcl Hus HX. pose proof (trans_start L HC HR HLay Hcl) as T0.
  destruct HR as [Hdev Hst Hsize Ho Hcm Hn Hbl]. pose proof HLay as (H2 & Hsz & HlD & _).
  destruct (updates_ok X us _ ∅ [] (disk (lbio L)) T0)
    as (L1 & O & bs & E1 & T1 & [D1 W1] & Ho1 & Hc1 & HV); try done.
  { intros m Hm. by apply elem_of_nil in Hm. }
  cbn in D1, W1, Ho1, Hc1, HV.
  assert (T2 : trans (L1 <| l_outstanding := 0 |> <| l_committing := true |>) O bs) by (by destruct T1; split).
  destruct (commit_means _ _ _ T2) as (L2 & Wt & E2 & HW & Hs & Hk). cbn in HW, Hs, Hk.
  rewrite D1 in Hs, Hk.
  assert (Hnews : same_files (replay (disk (lbio L)) (news O bs)) (updated (disk (lbio L)) us)).
  { intros m _. rewrite replay_news, HV; [done|apply T1|apply T1|].
    intros h Hh. pose proof (tr_home _ _ _ _ T1 h Hh) as Hr. rewrite D1 in Hr. lia. }
  exists (L2 <| l_committing := false |>), Wt. split; [|split; [|split]].
  - eapply transaction_run; [done..| |]; [by rewrite Hc1|done].
  - destruct HW as [HD HWr]. cbn in HD, HWr. rewrite D1 in HD. rewrite W1 in HWr. by split.
  - intros m Hm. cbn. by rewrite Hs, Hnews.
  - intros k. destruct (Hk k) as [?|?]; [by left|right]. by eapply means_same.
Qed.
End crash.

(** ** Crashes *)

(** Boot from the disk [C], perhaps crash again after some of the writes of the recovery
    and so on; [R] is the disk of the boot that comes through. *)
Inductive recovers (pid : Z) : list (list Z) -> list (list Z) -> Prop :=
  | rec_done C L : initlog pid 1 (boot C) = Ok tt L -> recovers pid C (disk (lbio L))
  | rec_crash C L k R : initlog pid 1 (boot C) = Ok tt L ->
      recovers pid (replay C (take k (writes (lbio L)))) R -> recovers pid C R.

Section recovery.
Context (pid st sz : Z).
Implicit Types (D V C R : list (list Z)).

(** Recovery succeeds, and shows what the disk means however often it is cut. *)
Lemma boot_means C V :
  means st sz C V ->
  exists L, initlog pid 1 (boot C) = Ok tt L /\ cache_ok pid (lbio L) ∅ ∅ /\ log_ready st sz L /\
    layout st sz (disk (lbio L)) /\ on_disk st sz (disk (lbio L)) [] /\
    disk (lbio L) = replay C (writes (lbio L)) /\ same_files st sz (disk (lbio L)) V /\
    forall k, means st sz (replay C (take k (writes (lbio L)))) V.
Proof.
  intros [HL (W & HW & Hs)]. pose proof HL as (H2 & Hsz & HlD & _).
  destruct (initlog_ok pid st sz C W HL HW) as (L & w0 & E & HC & HR & Hw0 & [HD HWr]).
  cbn in HD, HWr. exists L.
  assert (Hk : forall k, means st sz (replay C (take k (writes (lbio L)))) V).
  { intros k. rewrite HWr. eapply means_same; [by apply install_prefix|done]. }
  assert (Hst : zlookup (disk (lbio L)) st = Some w0).
  { rewrite HD, replay_app. cbn. apply zlookup_zupd_eq. rewrite zlen_replay. lia. }
  split; [done|]. split; [done|]. split; [done|]. split; [|split; [by eapply on_disk_empty|]].
  - specialize (Hk (length (writes (lbio L)))). rewrite take_ge in Hk by done.
    rewrite HWr, <- HD in Hk. apply Hk.
  - split; [by rewrite HWr|]. split; [|done]. intros m Hm. rewrite HD, replay_app. cbn.
    rewrite zlookup_zupd_ne by lia. by apply Hs.
Qed.

Lemma recovers_means C R : recovers pid C R -> forall V, means st sz C V -> same_files st sz R V.
Proof.
  induction 1 as [C L E|C L k R E _ IH]; intros V HV;
    destruct (boot_means C V HV) as (L' & E' & _ & _ & _ & _ & _ & Hs & Hk);
    rewrite E in E'; injection E' as <-; [exact Hs|]. apply IH, Hk.
Qed.

Lemma means_recovers C V : means st sz C V -> exists R, recovers pid C R.
Proof. intros HV. destruct (boot_means C V HV) as (L & E & _). eexists. by apply rec_done. Qed.

Lemma updated_same us : forall D V,
  zlen D = zlen V -> same_files st sz D V -> 0 <= st + sz ->
  (forall u, u ∈ us -> st + sz <= fst u < zlen D) ->
  same_files st sz (updated D us) (updated V us).
Proof.
  induction us as [|[h g] us IH]; intros D V Hl Hs H0 Hus; [done|].
  assert (Hh : st + sz <= h < zlen D) by (apply (Hus (h, g)); by left).
  cbn. apply IH; [by rewrite !zlen_zupd| |done|].
  - intros m Hm. unfold zget at 1 2. rewrite (Hs h) by lia.
    destruct (decide (m = h)) as [->|Hn]; [by rewrite !zlookup_zupd_eq by lia|].
    rewrite !zlookup_zupd_ne by done. by apply Hs.
  - intros u Hu. rewrite zlen_zupd. apply Hus. by right.
Qed.
End recovery.

(** ** Properties *)

(** C4: a system call's updates are atomic with respect to crashes.  Boot a disk with an
    empty log, run a transaction that updates at most MAXOPBLOCKS different blocks behind
    the log, in any order and any number of times each: it returns, and the disk then has
    all its updates.  Cut its disk writes, and those of the boot before it, at any point,
    boot again, and let that recovery crash too, as often as one likes: a boot that comes
    through exists, and any such boot leaves either every block as it was before the
    transaction or every block updated. *)
Theorem transaction_atomic (pid st sz : Z) (D : list (list Z)) (us : list (Z * (list Z -> list Z)))
    (HL : layout st sz D) (HD : on_disk st sz D []) (Hsz : MAXOPBLOCKS + 1 < sz)
    (Hus : forall u, u ∈ us -> st + sz <= fst u < zlen D)
    (Hmax : Z.of_nat (size (list_to_set us.*1 : gset Z)) <= MAXOPBLOCKS) :
  exists L L', initlog pid 1 (boot D) = Ok tt L /\ transaction pid us L = Ok tt L' /\
    same_files st sz (disk (lbio L')) (updated D us) /\
    forall k, let C := replay D (take k (writes (lbio L'))) in
      (exists R, recovers pid C R) /\
      forall R, recovers pid C R ->
        same_files st sz R D \/ same_files st sz R (updated D us).
Proof.
  pose proof HL as (H2 & Hsz' & HlD & _).
  destruct (boot_means pid st sz D D) as (L & E & HC & HR & HLay & Hcl & HDL & Hs & Hk).
  { split; [done|]. exists []. done. }
  set (D0 := disk (lbio L)) in *. assert (Hl0 : zlen D0 = zlen D) by by rewrite HDL, zlen_replay.
  destruct (transaction_ok pid st sz L us (list_to_set us.*1) HC HR HLay Hcl)
    as (L' & Wt & E' & [HD' HW'] & Hs' & Hk').
  { fold D0. rewrite Hl0. intros u Hu. split; [auto|]. apply elem_of_list_to_set, list_elem_of_fmap. eauto. }
  { lia. }
  fold D0 in Hs', Hk'.
  assert (Hup : same_files st sz (updated D0 us) (updated D us)).
  { apply updated_same; [done..|lia|]. rewrite Hl0. done. }
  exists L, L'. split; [done|]. split; [done|]. split; [intros m Hm; by rewrite Hs', Hup|].
  intros k C.
  assert (HM : means st sz C D \/ means st sz C (updated D us)).
  { unfold C. rewrite HW'. destruct (take_split (writes (lbio L)) Wt k) as [-> | ->]; [by left|].
    rewrite replay_app, <- HDL.
    destruct (Hk' (k - length (writes (lbio L)))%nat) as [?|?]; [left|right]; by eapply means_same. }
  split; [destruct HM; by eapply means_recovers|].
  intros R HRec. destruct HM; [left|right]; by eapply recovers_means.
Qed.

(** A disk of 40 blocks with a log of 12, and a call that updates two blocks, one twice. *)
Definition demo_disk : list (list Z) :=
  zupd (replicate 40 block0) 1 (zupd (zupd block0 3 12) 4 2).
Definition demo_updates : list (Z * (list Z -> list Z)) :=
  [(20, fun d => zupd d 0 7); (33, fun d => zupd d 1 8); (20, fun d => zupd d 2 9)].

Lemma transaction_atomic_witness :
  exists L L', initlog 5 1 (boot demo_disk) = Ok tt L /\ transaction 5 demo_updates L = Ok tt L' /\
    same_files 2 12 (disk (lbio L')) (updated demo_disk demo_updates) /\
    forall k, let C := replay demo_disk (take k (writes (lbio L'))) in
      (exists R, recovers 5 C R) /\
      forall R, recovers 5 C R ->
        same_files 2 12 R demo_disk \/ same_files 2 12 R (updated demo_disk demo_updates).
Proof.
  apply transaction_atomic.
  - split; [lia|]. split; [unfold NBUF; lia|]. split; [vm_compute; discriminate|].
    exists (zupd (zupd block0 3 12) 4 2). vm_compute. auto.
  - split; [split; [constructor|]|].
    + intros t h d Ht. by rewrite lookup_nil in Ht.
    + exists block0. split; [reflexivity|]. split; [reflexivity|]. split; [reflexivity|].
      intros t Ht. exfalso. vm_compute in Ht. destruct Ht as [H1 H2]. destruct t; discriminate || by apply H1.
  - reflexivity.
  - change (zlen demo_disk) with 40. intros u Hu. unfold demo_updates in Hu.
    repeat (apply elem_of_cons in Hu as [->|Hu]; [cbn; lia|]). by apply elem_of_nil in Hu.
  - vm_compute. discriminate.
Defined.

(** The disk mkfs makes: [nlog] is LOGSIZE, header included. *)
Definition mkfs_disk : list (list Z) :=
  zupd (replicate 100 block0) 1 (zupd (zupd block0 3 LOGSIZE) 4 2).

Definition call_updates (from n : Z) : list (Z * (list Z -> list Z)) :=
  (fun m => (m, fun d => zupd d 0 1)) <$> seqZ from n.

(** C40: begin_op reserves MAXOPBLOCKS blocks for each of up to three system calls out of
    LOGSIZE, but the log mkfs makes has its header among its LOGSIZE blocks.  On such a
    disk begin_op admits three calls at once; when each then updates MAXOPBLOCKS blocks of
    its own, the last update panics, while one update less is fine.  In general
    log_write panics as soon as the header lists LOGSIZE - 1 blocks, even for a block
    that is listed already. *)
Theorem reservation_exceeds_log :
  (forall L i, l_size L = LOGSIZE -> LOGSIZE - 1 <= lh_n L ->
     log_write i L = Panic "too big a transaction") /\
  exists L, (initlog 5 1;; begin_op;; begin_op;; begin_op) (boot mkfs_disk) = Ok true L /\
    l_outstanding L * MAXOPBLOCKS = LOGSIZE /\
    returns (forM (call_updates 40 (3 * MAXOPBLOCKS - 1)) (log_update 5) L) /\
    forM (call_updates 40 (3 * MAXOPBLOCKS)) (log_update 5) L = Panic "too big a transaction".
Proof.
  split.
  - intros L i Hs Hn. unfold log_write. do 3 (erewrite bind_run by reflexivity).
    rewrite Hs. rewrite (proj2 (Z.leb_le (LOGSIZE - 1) (lh_n L))) by lia. by rewrite orb_true_r.
  - eexists. split; [vm_compute; reflexivity|]. split; [reflexivity|].
    split; [|vm_compute; reflexivity].
    match goal with |- returns ?o =>
      let r := eval vm_compute in o in
      lazymatch r with Ok ?a ?s => exists a, s; vm_compute; reflexivity end end.
Qed.
