(* ===== verification/Blocks.v ===== *)
(** * The interface of the buffer cache and the log

    fs.c reads and writes disk blocks inside a transaction: it reads a block into a
    buffer, looks at its bytes or changes them and hands the buffer to the log, and
    releases it.  [BlockDev] has these calls and [BlockLaws] what they promise, in terms
    of a [view]: the contents of the blocks as the transaction sees them, the buffers in
    use, and the blocks the transaction has written.  LogBlocks.v shows that bio.c and
    log.c keep the promise. *)

From S2P Require Import Prelude Bytes.
From stdpp Require Import gmap.
#[local] Open Scope Z_scope.

Definition block_ok (b : list Z) : Prop := zlen b = BSIZE /\ Forall is_u8 b.

Class BlockDev (S : Type) := mkBlockDev {
  bread : Z -> Z -> M S nat;                      (* bread(dev, blockno) *)
  bdata : nat -> S -> list Z;                     (* bp->data *)
  bset : nat -> (list Z -> list Z) -> M S unit;   (* a change of bp->data *)
  log_write : nat -> M S unit;
  brelse : nat -> M S unit }.

Record view := mkview { vblk : gmap Z (list Z); vheld : gmap Z nat; vlog : gset Z }.
#[export] Instance view_eta : Eta view := fun v => mkview (vblk v) (vheld v) (vlog v).

Definition hold (n : Z) (i : nat) (v : view) : view := v <| vheld := <[n := i]> (vheld v) |>.
Definition unhold (n : Z) (v : view) : view := v <| vheld := delete n (vheld v) |>.
Definition wrote (n : Z) (b : list Z) (v : view) : view :=
  v <| vblk := <[n := b]> (vblk v) |> <| vlog := {[n]} ∪ vlog v |>.

(** The blocks of the view are those behind the log; a transaction may change at most
    [max_op] of them. *)
Class BlockLaws (S : Type) (B : BlockDev S) := mkBlockLaws {
  max_op : Z;
  bview : S -> view -> Prop;
  bview_block s v n b : bview s v -> vblk v !! n = Some b -> block_ok b;
  bview_held s v n i : bview s v -> vheld v !! n = Some i -> vblk v !! n = Some (bdata i s);
  bread_ok s v n b : bview s v -> vblk v !! n = Some b -> vheld v !! n = None ->
    (size (vheld v) <= 1)%nat ->
    exists i s', bread 1 n s = Ok i s' /\ bview s' (hold n i v);
  log_write_ok s v n i (g : list Z -> list Z) : bview s v -> vheld v !! n = Some i ->
    Z.of_nat (size ({[n]} ∪ vlog v)) <= max_op -> block_ok (g (bdata i s)) ->
    exists s', (bset i g;; log_write i) s = Ok tt s' /\ bview s' (wrote n (g (bdata i s)) v);
  brelse_ok s v n i : bview s v -> vheld v !! n = Some i ->
    exists s', brelse i s = Ok tt s' /\ bview s' (unhold n v) }.

Section use.
Context {S : Type} {B : BlockDev S} {L : BlockLaws S B}.
Implicit Types (s : S) (v : view) (n : Z) (i : nat).

Lemma unhold_hold n i v : vheld v !! n = None -> unhold n (hold n i v) = v.
Proof. intros H. destruct v. unfold unhold, hold. cbn in *. by rewrite delete_insert_id. Qed.

Lemma unhold_wrote n i b v : vheld v !! n = None -> unhold n (wrote n b (hold n i v)) = wrote n b v.
Proof. intros H. destruct v. unfold unhold, wrote, hold. cbn in *. by rewrite delete_insert_id. Qed.

(** Reading a block: the rest of the call runs with its buffer. *)
Lemma wp_bread {A} (k : nat -> M S A) (Q : A -> S -> Prop) (E : string -> Prop) s v n b :
  bview s v -> vblk v !! n = Some b -> vheld v !! n = None -> (size (vheld v) <= 1)%nat ->
  (forall i s', bview s' (hold n i v) -> bdata i s' = b -> wp (k i) Q E s') -> wp (bread 1 n ≫= k) Q E s.
Proof.
  intros Hv Hb Hh Hs Hk. destruct (bread_ok s v n b Hv Hb Hh Hs) as (i & s' & Er & Hv').
  eapply wp_step_run; [exact Er|]. apply Hk; [done|].
  pose proof (bview_held s' _ n i Hv' (lookup_insert_eq _ _ _)) as Hd. cbn in Hd. congruence.
Qed.

Lemma wp_brelse {A} (k : unit -> M S A) (Q : A -> S -> Prop) (E : string -> Prop) s v n i :
  bview s (hold n i v) -> vheld v !! n = None -> (forall s', bview s' v -> wp (k tt) Q E s') ->
  wp (brelse i ≫= k) Q E s.
Proof.
  intros Hv Hh Hk. destruct (brelse_ok s _ n i Hv (lookup_insert_eq _ _ _)) as (s' & Er & Hv').
  eapply wp_step_run; [exact Er|]. apply Hk. by rewrite unhold_hold in Hv'.
Qed.

(** Changing a buffer and handing it to the log. *)
Lemma wp_log_write {A} (k : unit -> M S A) (Q : A -> S -> Prop) (E : string -> Prop) s v n i b (g : list Z -> list Z) :
  bview s v -> vheld v !! n = Some i -> bdata i s = b ->
  Z.of_nat (size ({[n]} ∪ vlog v)) <= max_op -> block_ok (g b) ->
  (forall s', bview s' (wrote n (g b) v) -> wp (k tt) Q E s') ->
  wp (bset i g ≫= fun _ => log_write i ≫= k) Q E s.
Proof.
  intros Hv Hh <- Hmax Hg Hk.
  destruct (log_write_ok s v n i g Hv Hh Hmax Hg) as (s' & Er & Hv').
  apply bind_Ok in Er as ([] & s1 & E1 & E2).
  eapply wp_step_run; [exact E1|]. eapply wp_step_run; [exact E2|]. by apply Hk.
Qed.

(** Read, change, log and release. *)
Lemma wp_update {A} (k : unit -> M S A) (Q : A -> S -> Prop) (E : string -> Prop) s v n b (g : list Z -> list Z) :
  bview s v -> vblk v !! n = Some b -> vheld v !! n = None -> (size (vheld v) <= 1)%nat ->
  Z.of_nat (size ({[n]} ∪ vlog v)) <= max_op -> block_ok (g b) ->
  (forall s', bview s' (wrote n (g b) v) -> wp (k tt) Q E s') ->
  wp (bread 1 n ≫= fun i => bset i g ≫= fun _ => log_write i ≫= fun _ => brelse i ≫= k) Q E s.
Proof.
  intros Hv Hb Hh Hs Hmax Hg Hk. eapply wp_bread; [done..|]. intros i s1 Hv1 Hd.
  eapply wp_log_write; [exact Hv1|apply lookup_insert_eq|exact Hd|done|done|].
  intros s2 Hv2. destruct (brelse_ok s2 _ n i Hv2 (lookup_insert_eq _ _ _)) as (s3 & Er & Hv3).
  eapply wp_step_run; [exact Er|]. apply Hk. by rewrite unhold_wrote in Hv3.
Qed.

(** The same calls at the end of a function. *)
Lemma wp_brelse_end (Q : unit -> S -> Prop) (E : string -> Prop) s v n i :
  bview s (hold n i v) -> vheld v !! n = None -> (forall s', bview s' v -> Q tt s') -> wp (brelse i) Q E s.
Proof.
  intros Hv Hh Hk. destruct (brelse_ok s _ n i Hv (lookup_insert_eq _ _ _)) as (s' & Er & Hv').
  eapply wp_run; [exact Er|]. apply Hk. by rewrite unhold_hold in Hv'.
Qed.

Lemma wp_update_end (Q : unit -> S -> Prop) (E : string -> Prop) s v n b (g : list Z -> list Z) :
  bview s v -> vblk v !! n = Some b -> vheld v !! n = None -> (size (vheld v) <= 1)%nat ->
  Z.of_nat (size ({[n]} ∪ vlog v)) <= max_op -> block_ok (g b) ->
  (forall s', bview s' (wrote n (g b) v) -> Q tt s') ->
  wp (bread 1 n ≫= fun i => bset i g ≫= fun _ => log_write i ≫= fun _ => brelse i) Q E s.
Proof.
  intros Hv Hb Hh Hs Hmax Hg Hk. eapply wp_bread; [done..|]. intros i s1 Hv1 Hd.
  eapply wp_log_write; [exact Hv1|apply lookup_insert_eq|exact Hd|done|done|].
  intros s2 Hv2. destruct (brelse_ok s2 _ n i Hv2 (lookup_insert_eq _ _ _)) as (s3 & Er & Hv3).
  eapply wp_run; [exact Er|]. apply Hk. by rewrite unhold_wrote in Hv3.
Qed.
End use.
