(* ===== verification/LogBlocks.v ===== *)
(** * The buffer cache and the log keep the promise of Blocks.v

    Inside a transaction, and as long as it writes at most MAXOPBLOCKS blocks, the calls
    of bio.c and log.c satisfy [BlockLaws]; and when the transaction ends, its writes are
    atomic with respect to crashes. *)

From S2P Require Import Prelude Bytes Bio Log Blocks.
From stdpp Require Import gmap.
#[local] Open Scope Z_scope.

#[export] Instance log_blocks_dev (pid : Z) : BlockDev logst := {|
  bread dev n := onbio (Bio.bread pid dev n);
  bdata i L := bytes_of (b_data (the_buf i (lbio L)));
  bset i g := onbio (set_data i (fun w => words_of (g (bytes_of w))));
  log_write := Log.log_write;
  brelse i := onbio (Bio.brelse pid i) |}.

Definition words_ok (w : list Z) : Prop := zlen w = 128 /\ Forall is_u32 w.

Section laws.
Context (pid st sz out mx : Z) (D : list (list Z)) (Wr : list (Z * list Z)).
Context (Hsz : MAXOPBLOCKS + 1 < sz) (Hmx : 0 <= mx <= MAXOPBLOCKS) (Hout : 0 < mx -> 1 <= out).
Implicit Types (L : logst) (v : view) (O : gmap Z (list Z)).

(** The state of a transaction that started with disk [D] and the writes [Wr], with [out]
    calls outstanding.  Outside of transactions [out] and [mx] are 0. *)
Record tview L v : Prop := mktview {
  tv_state : exists O bs, session pid st sz L O (vheld v) bs /\ vlog v = list_to_set bs /\
    (forall n, vblk v !! n = if decide (st + sz <= n) then bytes_of <$> content D O n else None) /\
    (forall n w, st + sz <= n -> content D O n = Some w -> words_ok w);
  tv_held : forall n i, vheld v !! n = Some i -> st + sz <= n;
  tv_max : Z.of_nat (size (vlog v)) <= mx;
  tv_out : l_outstanding L = out; tv_com : l_committing L = false;
  tv_disk : disk (lbio L) = D; tv_writes : writes (lbio L) = Wr }.

Lemma words_block w : words_ok w -> block_ok (bytes_of w).
Proof.
  intros [Hl Hw]. split.
  - unfold zlen, BSIZE in *. rewrite length_bytes_of. lia.
  - clear Hl. induction Hw as [|x w Hx Hw IH]; [done|]. rewrite bytes_of_cons. apply Forall_app.
    split; [apply to_le_bytes|done].
Qed.

Lemma block_words b : block_ok b -> words_ok (words_of b) /\ bytes_of (words_of b) = b.
Proof.
  intros [Hl Hb]. assert (Hd : (4 | zlen b)) by (exists 128; rewrite Hl; done).
  destruct (words_of_ok b Hb Hd) as [Hw Hn]. split; [split; [rewrite Hl in Hn; unfold BSIZE in Hn; lia|done]|].
  by apply bytes_of_words_of.
Qed.

Lemma log_len O H bs L : session pid st sz L O H bs -> forall X : gset Z, X = list_to_set bs ->
  zlen bs = Z.of_nat (size X) /\ size O = size X.
Proof.
  intros T X ->. assert (HN : NoDup bs) by apply T. split.
  - unfold zlen. by rewrite size_list_to_set.
  - rewrite <- size_dom. f_equal. apply set_eq. intros m.
    rewrite elem_of_dom, elem_of_list_to_set. apply (tr_dirty _ _ _ _ _ _ _ T).
Qed.

Lemma session_bio L O H H' bs s : session pid st sz L O H bs -> cache_ok pid s O H' ->
  disk s = disk (lbio L) -> session pid st sz (with_bio L s) O H' bs.
Proof. intros [HC H1 H2 H3 H4 H5 H6 H7 H8 H9 H10 H11] HC' HD. split; cbn; rewrite ?HD; done. Qed.

Lemma tview_bread L v n b : tview L v -> vblk v !! n = Some b -> vheld v !! n = None ->
  (size (vheld v) <= 1)%nat ->
  exists i L', onbio (Bio.bread pid 1 n) L = Ok i L' /\ tview L' (hold n i v).
Proof.
  intros [(O & bs & T & HX & Hb & Hw) Hlo Hmax Ho Hc HD HW] Hn Hh Hs.
  destruct (log_len O _ bs L T _ HX) as [Hl1 Hl2].
  destruct (Bio.bread_ok pid (lbio L) O (vheld v) n) as (i & s' & E & HC & [Hd Hwr]).
  - apply T.
  - done.
  - rewrite HD. rewrite Hb in Hn. case_decide; [|done].
    destruct (content D O n) as [w|] eqn:Ec; [|done]. unfold content in Ec.
    destruct (O !! n) eqn:EO.
    + assert (n ∈ bs) as Hin by (apply (tr_dirty _ _ _ _ _ _ _ T); eauto).
      pose proof (tr_home _ _ _ _ _ _ _ T n Hin) as Hr. pose proof (tr_layout _ _ _ _ _ _ _ T) as (? & ? & _).
      rewrite HD in Hr. lia.
    + by apply zlookup_Some_range in Ec.
  - right. assert (size (dom O ∪ dom (vheld v) : gset Z) <= size O + size (vheld v))%nat.
    { rewrite size_union_alt, <- !size_dom.
      assert (size (dom (vheld v) ∖ dom O : gset Z) <= size (dom (vheld v) : gset Z))%nat; [|lia].
      by apply subseteq_size, subseteq_difference_l. }
    unfold NBUF, MAXOPBLOCKS in *. lia.
  - exists i, (with_bio L s'). split; [by apply onbio_run|].
    split; [| |done|done|done|cbn; congruence|cbn; congruence].
    + exists O, bs. split; [|done]. by eapply session_bio.
    + intros m j. cbn. rewrite Hb in Hn. destruct (decide (st + sz <= n)); [|done].
      rewrite lookup_insert_Some. intros [[<- _]|[_ Hm]]; [done|by eapply Hlo].
Qed.

Lemma tview_held L v n i : tview L v -> vheld v !! n = Some i ->
  vblk v !! n = Some (bytes_of (b_data (the_buf i (lbio L)))).
Proof.
  intros [(O & bs & T & HX & Hb & Hw) Hlo Hmax Ho Hc HD HW] Hh. rewrite Hb, <- HD, decide_True by (by eapply Hlo).
  by rewrite (held_data pid (lbio L) O (vheld v) n i) by (apply T || done).
Qed.

Lemma tview_brelse L v n i : tview L v -> vheld v !! n = Some i ->
  exists L', onbio (Bio.brelse pid i) L = Ok tt L' /\ tview L' (unhold n v).
Proof.
  intros [(O & bs & T & HX & Hb & Hw) Hlo Hmax Ho Hc HD HW] Hh.
  destruct (Bio.brelse_ok pid (lbio L) O (vheld v) n i) as (s' & E & HC & [Hd Hwr]); [apply T|done|].
  exists (with_bio L s'). split; [by apply onbio_run|].
  split; [| |done|done|done|cbn; congruence|cbn; congruence].
  - exists O, bs. split; [|done]. by eapply session_bio.
  - intros m j. cbn. rewrite lookup_delete_Some. intros [_ Hm]. by eapply Hlo.
Qed.

(** The buffer keeps its block number while its data change. *)
Lemma tview_log_write L v n i (g : list Z -> list Z) :
  let d := bytes_of (b_data (the_buf i (lbio L))) in
  tview L v -> vheld v !! n = Some i ->
  Z.of_nat (size ({[n]} ∪ vlog v)) <= mx -> block_ok (g d) ->
  exists L', (onbio (set_data i (fun w => words_of (g (bytes_of w))));; Log.log_write i) L = Ok tt L' /\
    tview L' (wrote n (g d) v).
Proof.
  intros d [(O & bs & T & HX & Hb & Hw) Hlo Hmax Ho Hc HD HW] Hh Hm Hg. pose proof (Hlo n i Hh) as Hn.
  assert (Hone : 1 <= out).
  { apply Hout. assert (1 <= size ({[n]} ∪ vlog v))%nat; [|lia]. rewrite <- (size_singleton (C := gset Z) n). apply subseteq_size. set_solver. }
  destruct (log_len O _ bs L T _ HX) as [Hl1 Hl2]. destruct (block_words (g d) Hg) as [Hwok Hback].
  destruct (held_buf pid (lbio L) O (vheld v) n i) as (b & Hbi & Hdev & Hbn & _ & _ & _ & Hcont & _); [apply T|done|].
  destruct (dirty_ok pid (lbio L) O (vheld v) n i (fun w => words_of (g (bytes_of w)))) as (s2 & E2 & HC2 & [Hd2 Hw2]);
    [apply T|done|]. fold d in HC2.
  apply bind_Ok in E2 as ([] & s1 & E1 & E2).
  assert (Hno : b_blockno (the_buf i s1) = n).
  { rewrite (upd_run _ _ _ _ Hbi) in E1. injection E1 as <-.
    by rewrite (the_buf_at _ _ _ (put_buf_at _ _ _ _ Hbi)). }
  pose proof (tr_layout _ _ _ _ _ _ _ T) as (Hst & Hsz' & Hlen & _).
  assert (Hnr : n < zlen (disk (lbio L))).
  { rewrite HD. unfold content in Hcont. destruct (O !! n) eqn:EO.
    - assert (n ∈ bs) as Hin by (apply (tr_dirty _ _ _ _ _ _ _ T); eauto).
      rewrite <- HD. by destruct (tr_home _ _ _ _ _ _ _ T n Hin).
    - rewrite HD in Hcont. by apply zlookup_Some_range in Hcont as [_ ?]. }
  assert (Hbs : zlen bs < sz - 1) by lia.
  eexists. split.
  { erewrite bind_run by (apply onbio_run; exact E1).
    eapply (log_write_run sz L s1 s2 i n); [rewrite (proj1 (tr_lists _ _ _ _ _ _ _ T)); lia|lia|apply T|lia|exact Hno|exact E2]. }
  split; [|exact Hlo|exact Hm|exact Ho|exact Hc|cbn; congruence|cbn; congruence].
  exists (<[n := words_of (g d)]> O), (add_block bs n). split.
  { apply (trans_update pid st sz L O (vheld v) bs n); [done|lia|lia|exact HC2|exact Hd2]. }
  split; [|split].
  - cbn. rewrite HX. apply set_eq. intros m. rewrite elem_of_union, elem_of_singleton, !elem_of_list_to_set.
    by rewrite elem_of_add_block.
  - intros m. cbn. unfold content. destruct (decide (m = n)) as [->|Hne].
    + rewrite !lookup_insert_eq, decide_True by done. cbn. by rewrite Hback.
    + rewrite !lookup_insert_ne by done. apply Hb.
  - intros m w Hm'. unfold content. destruct (decide (m = n)) as [->|Hne].
    + rewrite lookup_insert_eq. by intros [= <-].
    + rewrite lookup_insert_ne by done. by apply Hw.
Qed.

Lemma tview_block L v n b : tview L v -> vblk v !! n = Some b -> block_ok b.
Proof.
  intros [(O & bs & T & HX & Hb & Hw) _ _ _ _ _ _]. rewrite Hb. case_decide; [|done].
  destruct (content D O n) as [w|] eqn:Ec; [|done]. intros [= <-]. by eapply words_block, Hw.
Qed.

Definition log_laws : BlockLaws logst (log_blocks_dev pid).
Proof.
  refine (mkBlockLaws _ _ mx tview tview_block _ _ _ _).
  - exact tview_held.
  - exact tview_bread.
  - exact tview_log_write.
  - exact tview_brelse.
Defined.
End laws.

(** ** From one transaction to the next *)

(** The view of a transaction that has just begun, with the blocks from [lo] on. *)
Definition disk_view (lo : Z) (D : list (list Z)) : view :=
  mkview (filter (fun nb => lo <= fst nb) (kmap Z.of_nat (map_seq 0 (bytes_of <$> D)))) ∅ ∅.

Lemma disk_view_lookup lo D n :
  vblk (disk_view lo D) !! n = if decide (lo <= n) then bytes_of <$> zlookup D n else None.
Proof.
  assert (H : kmap (M1 := gmap nat) (M2 := gmap Z) Z.of_nat (map_seq 0 (bytes_of <$> D)) !! n = bytes_of <$> zlookup D n).
  { destruct (decide (0 <= n)) as [Hn|Hn].
    - replace n with (Z.of_nat (Z.to_nat n)) at 1 by lia.
      rewrite lookup_kmap by apply _. rewrite lookup_map_seq_0, list_lookup_fmap. by rewrite zlookup_to_nat.
    - rewrite zlookup_out by lia. apply lookup_kmap_None; [apply _|]. intros i ->. lia. }
  cbn. case_decide as Hd.
  - rewrite <- H. destruct (kmap _ _ !! n) as [b|] eqn:E.
    + by apply map_lookup_filter_Some.
    + apply map_lookup_filter_None. by left.
  - apply map_lookup_filter_None. right. intros b _. done.
Qed.

Section transactions.
Context (pid st sz : Z) (Hsz : MAXOPBLOCKS + 1 < sz).
Implicit Types (L : logst) (v : view) (D V : list (list Z)).

(** The kernel between two transactions, with all blocks of the disk well-formed. *)
Record quiet L : Prop := mkquiet {
  q_cache : cache_ok pid (lbio L) ∅ ∅; q_log : log_ready st sz L;
  q_layout : layout st sz (disk (lbio L)); q_disk : on_disk st sz (disk (lbio L)) [];
  q_words : forall n w, st + sz <= n -> zlookup (disk (lbio L)) n = Some w -> words_ok w }.

Lemma begin_view L : quiet L ->
  exists L', begin_op L = Ok true L' /\
    tview pid st sz 1 MAXOPBLOCKS (disk (lbio L)) (writes (lbio L)) L' (disk_view (st + sz) (disk (lbio L))).
Proof.
  intros [HC HR HLay Hd Hw]. exists (L <| l_outstanding := 1 |>). pose proof HR as [_ _ _ Ho Hcm Hn _]. split.
  - unfold begin_op. do 3 (erewrite bind_run by reflexivity). rewrite Ho, Hcm, Hn. reflexivity.
  - split; [| |done|done|done|done|done].
    2: { intros n i. cbn. by rewrite lookup_empty. }
    exists ∅, []. split; [by apply trans_start|]. split; [done|]. split.
    + intros n. rewrite disk_view_lookup. unfold content. by rewrite lookup_empty.
    + intros n w Hn'. unfold content. rewrite lookup_empty. by apply Hw.
Qed.

(** Outside of transactions blocks can be read. *)
Lemma idle_view L : quiet L ->
  tview pid st sz 0 0 (disk (lbio L)) (writes (lbio L)) L (disk_view (st + sz) (disk (lbio L))).
Proof.
  intros [HC HR HLay Hd Hw]. pose proof HR as [_ _ _ Ho Hcm Hn _]. split; [| |done|done|done|done|done].
  2: { intros n i. cbn. by rewrite lookup_empty. }
  exists ∅, []. split; [by destruct (trans_start pid st sz L HC HR HLay Hd); split|]. split; [done|]. split.
  - intros n. rewrite disk_view_lookup. unfold content. by rewrite lookup_empty.
  - intros n w Hn'. unfold content. rewrite lookup_empty. by apply Hw.
Qed.

(** ... and then the kernel is where it was. *)
Lemma idle_back D Wr L v : tview pid st sz 0 0 D Wr L v -> vheld v = ∅ -> quiet L /\ disk (lbio L) = D /\ writes (lbio L) = Wr.
Proof.
  intros [(O & bs & T & HX & Hb & Hw) Hlo Hmax Ho Hc HD HW] Hh. rewrite Hh in T.
  destruct (log_len pid st sz O ∅ bs L T _ HX) as [Hl1 Hl2].
  assert (bs = []) as -> by (destruct bs; [done|unfold zlen in Hl1; cbn in Hl1; lia]).
  assert (O = ∅) as -> by (apply map_size_empty_inv; lia).
  split; [|done]. split; [apply T| |apply T|apply T|].
  - destruct T. split; try done. by destruct tr_lists.
  - intros n w Hn Hz. apply (Hw n w Hn). unfold content. by rewrite lookup_empty, <- HD.
Qed.

(** The disk [V] shows the blocks of the view behind the log. *)
Definition shows V v : Prop := forall n, st + sz <= n -> bytes_of <$> zlookup V n = vblk v !! n.

(** The end of a transaction writes the blocks of its view to the disk, and a crash in
    between leaves a disk that means the old contents or the new ones. *)
Lemma end_view D Wr L v : tview pid st sz 1 MAXOPBLOCKS D Wr L v -> vheld v = ∅ ->
  exists L' Wt V, end_op pid L = Ok tt L' /\ quiet L' /\ disk (lbio L') = replay D Wt /\
    writes (lbio L') = Wr ++ Wt /\ shows (disk (lbio L')) v /\ shows V v /\ zlen V = zlen D /\
    forall k, means st sz (replay D (take k Wt)) D \/ means st sz (replay D (take k Wt)) V.
Proof.
  intros [(O & bs & T & HX & Hb & Hw) Hlo Hmax Ho Hc HD HW] Hh. rewrite Hh in T.
  set (L1 := L <| l_outstanding := 0 |> <| l_committing := true |>).
  assert (T1 : session pid st sz L1 O ∅ bs) by (by destruct T; split).
  destruct (commit_means _ _ _ _ _ _ T1) as (L2 & Wt & E2 & [HDt HWt] & Hs & Hk).
  destruct (commit_ready _ _ _ _ _ _ T1) as (s & E3 & HC & HLay & Hemp).
  rewrite E3 in E2. injection E2 as <-. cbn in HDt, HWt, Hs, Hk. rewrite HD in HDt, Hs, Hk. rewrite HW in HWt.
  assert (HV : forall n, zlookup (replay D (news O bs)) n = content D O n).
  { intros n. apply replay_news; [apply T|apply T|]. intros h Hin. pose proof (tr_home _ _ _ _ _ _ _ T h Hin) as Hr.
    pose proof (tr_layout _ _ _ _ _ _ _ T) as (? & ? & _). rewrite HD in Hr. lia. }
  eexists _, Wt, (replay D (news O bs)). split; [|split; [|split; [|split; [|split; [|split; [|split]]]]]].
  - unfold end_op. erewrite bind_run by reflexivity. do 2 (erewrite bind_run by reflexivity).
    cbn [l_committing l_outstanding upd]. rewrite Hc, Ho. change (1 - 1 =? 0) with true. cbv iota.
    erewrite bind_run by reflexivity. change (1 - 1) with 0. fold L1. erewrite bind_run by exact E3. reflexivity.
  - split; cbn; [done| |done|done|].
    + destruct T. split; done.
    + intros n w Hn. rewrite Hs, HV by done. by apply Hw.
  - done.
  - done.
  - intros n Hn. cbn. rewrite Hs, HV by done. symmetry. by rewrite Hb, decide_True.
  - intros n Hn. rewrite HV. symmetry. by rewrite Hb, decide_True.
  - apply zlen_replay.
  - exact Hk.
Qed.
End transactions.
