(* ===== verification/Fs.v ===== *)
(** * The file system

    fs.c on the interface of Blocks.v: the block bitmap, the inodes and their cache, the
    contents of files, directories and path names.  [sb] is the super block that iinit
    has read, [pid] the running process.  As in Bio.v a call runs without interruption,
    and waiting for a sleep lock of another process is the outcome [Panic] with its own
    message.  [devread] and [devwrite] are the table [devsw] of device functions, by major
    number.  A pointer to an in-memory inode is its index in the cache. *)

From S2P Require Import Prelude Bytes Blocks.
From stdpp Require Import gmap.
#[local] Open Scope Z_scope.

Definition NINODE : Z := 50.
Definition NDEV : Z := 10.
Definition ROOTDEV : Z := 1.
Definition ROOTINO : Z := 1.
Definition NDIRECT : Z := 12.
Definition NINDIRECT : Z := 128.
Definition MAXFILE : Z := NDIRECT + NINDIRECT.
Definition IPB : Z := 8.
Definition BPB : Z := BSIZE * 8.
Definition DIRSIZ : Z := 14.
Definition T_DIR : Z := 1.
Definition T_FILE : Z := 2.
Definition T_DEV : Z := 3.

Record superblock := mksb {
  sb_size : Z; sb_nblocks : Z; sb_ninodes : Z; sb_nlog : Z; sb_logstart : Z;
  sb_inodestart : Z; sb_bmapstart : Z }.

Record dinode := mkdinode {
  d_type : Z; d_major : Z; d_minor : Z; d_nlink : Z; d_size : Z; d_addrs : list Z }.
#[export] Instance dinode_eta : Eta dinode := fun d =>
  mkdinode (d_type d) (d_major d) (d_minor d) (d_nlink d) (d_size d) (d_addrs d).

(** [i_d] are the fields copied from the disk; [i_locked] and [i_pid] are the sleep lock. *)
Record inode := mkinode {
  i_dev : Z; i_inum : Z; i_ref : Z; i_locked : bool; i_pid : Z; i_valid : bool; i_d : dinode }.
#[export] Instance inode_eta : Eta inode := fun i =>
  mkinode (i_dev i) (i_inum i) (i_ref i) (i_locked i) (i_pid i) (i_valid i) (i_d i).
Definition dinode0 : dinode := mkdinode 0 0 0 0 0 (replicate 13 0).
#[export] Instance inode_inhabited : Inhabited inode := populate (mkinode 0 0 0 false 0 false dinode0).

Record stat := mkstat { st_type : Z; st_dev : Z; st_ino : Z; st_nlink : Z; st_size : Z }.

Record fs (S : Type) := mkfs { fdev : S; icache : list inode }.
Arguments mkfs {S}.
Arguments fdev {S}.
Arguments icache {S}.
#[export] Instance fs_eta {S} : Eta (fs S) := fun f => mkfs (fdev f) (icache f).

(** The on-disk inode at offset [o] of its block. *)
Definition read_dinode (b : list Z) (o : Z) : dinode :=
  mkdinode (s16 (fget 2 b o)) (s16 (fget 2 b (o + 2))) (s16 (fget 2 b (o + 4))) (s16 (fget 2 b (o + 6)))
    (fget 4 b (o + 8)) (map (fun k => fget 4 b (o + 12 + 4 * k)) (zrange 0 12)).
Definition write_dinode (o : Z) (d : dinode) (b : list Z) : list Z :=
  let b := fput 2 b o (d_type d) in
  let b := fput 2 b (o + 2) (d_major d) in
  let b := fput 2 b (o + 4) (d_minor d) in
  let b := fput 2 b (o + 6) (d_nlink d) in
  let b := fput 4 b (o + 8) (d_size d) in
  splice b (o + 12) (bytes_of (d_addrs d)).

(** ** Names

    A C string is the list of its bytes up to the terminator, or a buffer with the
    terminator inside; past the end of the list there are NULs. *)

Definition SLASH : Z := 47.
Definition chr (s : list Z) : Z := default 0 (head s).

Fixpoint strncmp_bytes (n : nat) (p q : list Z) : Z :=
  match n with
  | O => 0
  | Datatypes.S n =>
      if negb (chr p =? 0) && (chr p =? chr q) then strncmp_bytes n (tail p) (tail q) else chr p - chr q
  end.

Fixpoint until_nul (s : list Z) : list Z :=
  match s with
  | [] => []
  | c :: s => if c =? 0 then [] else c :: until_nul s
  end.

(** The [n] bytes that strncpy stores. *)
Definition strncpy_bytes (n : Z) (t : list Z) : list Z :=
  let w := take (Z.to_nat n) (until_nul t) in w ++ replicate (Z.to_nat n - length w) 0.

Definition namecmp (s t : list Z) : Z := strncmp_bytes (Z.to_nat DIRSIZ) s t.

Definition de_inum (b : list Z) : Z := fget 2 b 0.
Definition de_name (b : list Z) : list Z := slice b 2 DIRSIZ.

(** The loops of skipelem: over slashes, and up to the end of the element. *)
Fixpoint skip_slashes (path : list Z) : list Z :=
  match path with
  | c :: rest => if c =? SLASH then skip_slashes rest else path
  | [] => []
  end.
Fixpoint elem_len (path : list Z) : nat :=
  match path with
  | c :: rest => if (c =? SLASH) || (c =? 0) then O else Datatypes.S (elem_len rest)
  | [] => O
  end.

(** The rest of the path and the buffer [name]; [None] is a null pointer. *)
Definition skipelem (path name : list Z) : option (list Z * list Z) :=
  let s := skip_slashes path in
  if chr s =? 0 then None else
  let len := elem_len s in
  let name := if (Z.to_nat DIRSIZ <=? len)%nat then splice name 0 (take (Z.to_nat DIRSIZ) s)
              else splice name 0 (take len s ++ [0]) in
  Some (skip_slashes (drop len s), name).

Section ops.
Context {S : Type} {B : BlockDev S} (sb : superblock) (pid : Z).
Context (devread : Z -> option (Z -> Z -> M (fs S) (option (list Z))))
        (devwrite : Z -> option (Z -> list Z -> M (fs S) Z)).
Implicit Types (ip : Z).

Definition IBLOCK (i : Z) : Z := i / IPB + sb_inodestart sb.
Definition BBLOCK (b : Z) : Z := b / BPB + sb_bmapstart sb.

Definition bzero (dev bno : Z) : M S unit :=
  bp ← bread dev bno;
  bset bp (fun _ => replicate 512 0);;
  log_write bp;;
  brelse bp.

(** ** The bitmap *)

Definition bmask (bi : Z) : Z := Z.shiftl 1 (bi mod 8).
Definition bit_clear (data : list Z) (bi : Z) : bool := Z.land (zget data (bi / 8)) (bmask bi) =? 0.

(** [b] goes up by BPB. *)
Fixpoint balloc_loop (fuel : nat) (dev b : Z) : M S Z :=
  match fuel with
  | O => panic "balloc: out of blocks"
  | Datatypes.S fuel =>
      if sb_size sb <=? b then panic "balloc: out of blocks" else
      bp ← bread dev (BBLOCK b);
      data ← gets (bdata bp);
      match find (bit_clear data) (zrange 0 (Z.min BPB (sb_size sb - b) - 1)) with
      | Some bi =>
          bset bp (fun d => zupd d (bi / 8) (Z.lor (zget d (bi / 8)) (bmask bi)));;
          log_write bp;;
          brelse bp;;
          bzero dev (b + bi);;
          mret (b + bi)
      | None => brelse bp;; balloc_loop fuel dev (b + BPB)
      end
  end.

Definition balloc (dev : Z) : M S Z := balloc_loop (Datatypes.S (Z.to_nat (sb_size sb / BPB))) dev 0.

Definition bfree (dev b : Z) : M S unit :=
  bp ← bread dev (BBLOCK b);
  let bi := b mod BPB in
  data ← gets (bdata bp);
  if bit_clear data bi then panic "freeing free block" else
  bset bp (fun d => zupd d (bi / 8) (Z.land (zget d (bi / 8)) (Z.lnot (bmask bi))));;
  log_write bp;;
  brelse bp.

(** ** Inodes *)

Definition ondev {A} (m : M S A) : M (fs S) A := fun f =>
  match m (fdev f) with
  | Ok a s => Ok a (f <| fdev := s |>)
  | Panic msg => Panic msg
  end.

Definition the_inode ip (f : fs S) : inode := zget (icache f) ip.
Definition upd_inode ip (g : inode -> inode) : M (fs S) unit :=
  modify (fun f => f <| icache := zupd (icache f) ip (g (the_inode ip f)) |>).
Definition upd_d ip (g : dinode -> dinode) : M (fs S) unit :=
  upd_inode ip (fun i => i <| i_d := g (i_d i) |>).

Definition iget (dev inum : Z) : M (fs S) Z :=
  hit ← gets (fun f => find (fun ip => let i := the_inode ip f in
            (0 <? i_ref i) && (i_dev i =? dev) && (i_inum i =? inum)) (zrange 0 (NINODE - 1)));
  match hit with
  | Some ip => upd_inode ip (fun i => i <| i_ref := i_ref i + 1 |>);; mret ip
  | None =>
      empty ← gets (fun f => find (fun ip => i_ref (the_inode ip f) =? 0) (zrange 0 (NINODE - 1)));
      match empty with
      | Some ip =>
          upd_inode ip (fun i => i <| i_dev := dev |> <| i_inum := inum |> <| i_ref := 1 |>
                                   <| i_valid := false |>);;
          mret ip
      | None => panic "iget: no inodes"
      end
  end.

Fixpoint ialloc_loop (fuel : nat) (dev inum type : Z) : M (fs S) Z :=
  match fuel with
  | O => panic "ialloc: no inodes"
  | Datatypes.S fuel =>
      if sb_ninodes sb <=? inum then panic "ialloc: no inodes" else
      bp ← ondev (bread dev (IBLOCK inum));
      data ← ondev (gets (bdata bp));
      let o := inum mod IPB * 64 in
      if fget 2 data o =? 0 then
        ondev (bset bp (fun d => fput 2 (splice d o (replicate 64 0)) o type);; log_write bp);;
        ondev (brelse bp);;
        iget dev inum
      else
        ondev (brelse bp);;
        ialloc_loop fuel dev (inum + 1) type
  end.

Definition ialloc (dev type : Z) : M (fs S) Z := ialloc_loop (Z.to_nat (sb_ninodes sb)) dev 1 type.

Definition iupdate ip : M (fs S) unit :=
  i ← gets (the_inode ip);
  bp ← ondev (bread (i_dev i) (IBLOCK (i_inum i)));
  ondev (bset bp (write_dinode (i_inum i mod IPB * 64) (i_d i));; log_write bp);;
  ondev (brelse bp).

Definition idup ip : M (fs S) Z :=
  upd_inode ip (fun i => i <| i_ref := i_ref i + 1 |>);; mret ip.

Definition acquire_inode ip : M (fs S) unit :=
  i ← gets (the_inode ip);
  if i_locked i then panic "acquiresleep: locked"
  else upd_inode ip (fun i => i <| i_locked := true |> <| i_pid := pid |>).

Definition release_inode ip : M (fs S) unit :=
  upd_inode ip (fun i => i <| i_locked := false |> <| i_pid := 0 |>).

Definition ilock ip : M (fs S) unit :=
  i ← gets (the_inode ip);
  if i_ref i <? 1 then panic "ilock" else
  acquire_inode ip;;
  if negb (i_valid i) then
    bp ← ondev (bread (i_dev i) (IBLOCK (i_inum i)));
    data ← ondev (gets (bdata bp));
    upd_d ip (fun _ => read_dinode data (i_inum i mod IPB * 64));;
    ondev (brelse bp);;
    upd_inode ip (fun i => i <| i_valid := true |>);;
    i ← gets (the_inode ip);
    if d_type (i_d i) =? 0 then panic "ilock: no type" else mret tt
  else mret tt.

Definition iunlock ip : M (fs S) unit :=
  i ← gets (the_inode ip);
  if negb (i_locked i && (i_pid i =? pid)) || (i_ref i <? 1) then panic "iunlock" else
  release_inode ip.

(** ** Contents *)

(** The second half of bmap: entry [bn] of the indirect block [addr]. *)
Definition bmap_entry (dev addr bn : Z) : M (fs S) Z :=
  bp ← ondev (bread dev addr);
  data ← ondev (gets (bdata bp));
  let addr := fget 4 data (4 * bn) in
  addr ← (if addr =? 0 then
            addr ← ondev (balloc dev);
            ondev (bset bp (fun d => fput 4 d (4 * bn) addr);; log_write bp);;
            mret addr
          else mret addr);
  ondev (brelse bp);;
  mret addr.

Definition bmap ip (bn : Z) : M (fs S) Z :=
  i ← gets (the_inode ip);
  if bn <? NDIRECT then
    let addr := zget (d_addrs (i_d i)) bn in
    if addr =? 0 then
      addr ← ondev (balloc (i_dev i));
      upd_d ip (fun d => d <| d_addrs := zupd (d_addrs d) bn addr |>);;
      mret addr
    else mret addr
  else
    let bn := bn - NDIRECT in
    if bn <? NINDIRECT then
      let addr := zget (d_addrs (i_d i)) NDIRECT in
      addr ← (if addr =? 0 then
                addr ← ondev (balloc (i_dev i));
                upd_d ip (fun d => d <| d_addrs := zupd (d_addrs d) NDIRECT addr |>);;
                mret addr
              else mret addr);
      bmap_entry (i_dev i) addr bn
    else panic "bmap: out of range".

Definition free_direct ip (k : Z) : M (fs S) unit :=
  i ← gets (the_inode ip);
  let addr := zget (d_addrs (i_d i)) k in
  if addr =? 0 then mret tt else
  ondev (bfree (i_dev i) addr);;
  upd_d ip (fun d => d <| d_addrs := zupd (d_addrs d) k 0 |>).

Definition free_indirect (dev : Z) (bp : nat) (j : Z) : M (fs S) unit :=
  data ← ondev (gets (bdata bp));
  let addr := fget 4 data (4 * j) in
  if addr =? 0 then mret tt else ondev (bfree dev addr).

(** The part of itrunc that frees the blocks. *)
Definition free_blocks ip : M (fs S) unit :=
  forM (zrange 0 (NDIRECT - 1)) (free_direct ip);;
  i ← gets (the_inode ip);
  let addr := zget (d_addrs (i_d i)) NDIRECT in
  if addr =? 0 then mret tt else
  bp ← ondev (bread (i_dev i) addr);
  forM (zrange 0 (NINDIRECT - 1)) (free_indirect (i_dev i) bp);;
  ondev (brelse bp);;
  ondev (bfree (i_dev i) addr);;
  upd_d ip (fun d => d <| d_addrs := zupd (d_addrs d) NDIRECT 0 |>).

Definition itrunc ip : M (fs S) unit :=
  free_blocks ip;;
  upd_d ip (fun d => d <| d_size := 0 |>);;
  iupdate ip.

Definition iput ip : M (fs S) unit :=
  acquire_inode ip;;
  i ← gets (the_inode ip);
  (if i_valid i && (d_nlink (i_d i) =? 0) && (i_ref i =? 1) then
     itrunc ip;;
     upd_d ip (fun d => d <| d_type := 0 |>);;
     iupdate ip;;
     upd_inode ip (fun i => i <| i_valid := false |>)
   else mret tt);;
  release_inode ip;;
  upd_inode ip (fun i => i <| i_ref := i_ref i - 1 |>).

Definition iunlockput ip : M (fs S) unit := iunlock ip;; iput ip.

Definition stati ip : M (fs S) stat :=
  i ← gets (the_inode ip);
  mret (mkstat (d_type (i_d i)) (i_dev i) (i_inum i) (d_nlink (i_d i)) (d_size (i_d i))).

(** The bytes that readi copies to [dst]; [None] is -1. *)
Fixpoint readi_loop (fuel : nat) ip (off n : Z) : M (fs S) (list Z) :=
  match fuel with
  | O => mret []
  | Datatypes.S fuel =>
      if n <=? 0 then mret [] else
      i ← gets (the_inode ip);
      b ← bmap ip (off / BSIZE);
      bp ← ondev (bread (i_dev i) b);
      let m := Z.min n (BSIZE - off mod BSIZE) in
      data ← ondev (gets (bdata bp));
      ondev (brelse bp);;
      rest ← readi_loop fuel ip (u32 (off + m)) (n - m);
      mret (slice data (off mod BSIZE) m ++ rest)
  end.

Definition readi ip (off n : Z) : M (fs S) (option (list Z)) :=
  i ← gets (the_inode ip);
  let d := i_d i in
  if d_type d =? T_DEV then
    if (d_major d <? 0) || (NDEV <=? d_major d) then mret None else
    match devread (d_major d) with
    | Some read => read ip n
    | None => mret None
    end
  else
    if (d_size d <? off) || (u32 (off + n) <? off) then mret None else
    let n := if d_size d <? u32 (off + n) then d_size d - off else n in
    l ← readi_loop (Datatypes.S (Z.to_nat (n / BSIZE + 1))) ip off n;
    mret (Some l).

Fixpoint writei_loop (fuel : nat) ip (src : list Z) (off : Z) : M (fs S) Z :=
  match fuel with
  | O => mret off
  | Datatypes.S fuel =>
      if zlen src <=? 0 then mret off else
      i ← gets (the_inode ip);
      b ← bmap ip (off / BSIZE);
      bp ← ondev (bread (i_dev i) b);
      let m := Z.min (zlen src) (BSIZE - off mod BSIZE) in
      ondev (bset bp (fun d => splice d (off mod BSIZE) (take (Z.to_nat m) src));; log_write bp);;
      ondev (brelse bp);;
      writei_loop fuel ip (drop (Z.to_nat m) src) (u32 (off + m))
  end.

(** [src] are the [n] bytes to write. *)
Definition writei ip (src : list Z) (off : Z) : M (fs S) Z :=
  i ← gets (the_inode ip);
  let d := i_d i in
  let n := zlen src in
  if d_type d =? T_DEV then
    if (d_major d <? 0) || (NDEV <=? d_major d) then mret (-1) else
    match devwrite (d_major d) with
    | Some write => write ip src
    | None => mret (-1)
    end
  else
    if (d_size d <? off) || (u32 (off + n) <? off) then mret (-1) else
    if MAXFILE * BSIZE <? u32 (off + n) then mret (-1) else
    off ← writei_loop (Datatypes.S (Z.to_nat (n / BSIZE + 1))) ip src off;
    i ← gets (the_inode ip);
    (if (0 <? n) && (d_size (i_d i) <? off) then
       upd_d ip (fun d => d <| d_size := off |>);; iupdate ip
     else mret tt);;
    mret n.

(** ** Directories *)

Definition dirent_size : Z := 2 + DIRSIZ.

(** The loops of dirlookup and dirlink read the entry at [off]. *)
Definition read_dirent (msg : string) (dp off : Z) : M (fs S) (list Z) :=
  r ← readi dp off dirent_size;
  match r with
  | Some b => if zlen b =? dirent_size then mret b else panic msg
  | None => panic msg
  end.

(** The entry's inode and its offset. *)
Fixpoint dirlookup_loop (fuel : nat) (dp : Z) (name : list Z) (off : Z) : M (fs S) (option (Z * Z)) :=
  match fuel with
  | O => mret None
  | Datatypes.S fuel =>
      i ← gets (the_inode dp);
      if d_size (i_d i) <=? off then mret None else
      de ← read_dirent "dirlookup read" dp off;
      if de_inum de =? 0 then dirlookup_loop fuel dp name (u32 (off + dirent_size)) else
      if namecmp name (de_name de) =? 0 then
        ip ← iget (i_dev i) (de_inum de);
        mret (Some (ip, off))
      else dirlookup_loop fuel dp name (u32 (off + dirent_size))
  end.

Definition dirlookup (dp : Z) (name : list Z) : M (fs S) (option (Z * Z)) :=
  i ← gets (the_inode dp);
  if negb (d_type (i_d i) =? T_DIR) then panic "dirlookup not DIR" else
  dirlookup_loop (Datatypes.S (Z.to_nat (d_size (i_d i) / dirent_size + 1))) dp name 0.

Fixpoint dirlink_loop (fuel : nat) (dp off : Z) : M (fs S) Z :=
  match fuel with
  | O => mret off
  | Datatypes.S fuel =>
      i ← gets (the_inode dp);
      if d_size (i_d i) <=? off then mret off else
      de ← read_dirent "dirlink read" dp off;
      if de_inum de =? 0 then mret off else dirlink_loop fuel dp (off + dirent_size)
  end.

Definition dirlink (dp : Z) (name : list Z) (inum : Z) : M (fs S) Z :=
  r ← dirlookup dp name;
  match r with
  | Some (ip, _) => iput ip;; mret (-1)
  | None =>
      i ← gets (the_inode dp);
      off ← dirlink_loop (Datatypes.S (Z.to_nat (d_size (i_d i) / dirent_size + 1))) dp 0;
      n ← writei dp (to_le 2 inum ++ strncpy_bytes DIRSIZ name) off;
      if n =? dirent_size then mret 0 else panic "dirlink"
  end.

(** ** Paths

    [cwd] is the current directory of the process.  The result is the inode, [None] for 0,
    and the buffer [name]. *)

Fixpoint namex_loop (fuel : nat) (ip : Z) (path : list Z) (parent : bool) (name : list Z) : M (fs S) (option Z * list Z) :=
  match fuel with
  | O => mret (None, name)
  | Datatypes.S fuel =>
      match skipelem path name with
      | Some (path, name) =>
          ilock ip;;
          i ← gets (the_inode ip);
          if negb (d_type (i_d i) =? T_DIR) then iunlockput ip;; mret (None, name) else
          if parent && (chr path =? 0) then iunlock ip;; mret (Some ip, name) else
          r ← dirlookup ip name;
          match r with
          | None => iunlockput ip;; mret (None, name)
          | Some (next, _) => iunlockput ip;; namex_loop fuel next path parent name
          end
      | None => if parent then iput ip;; mret (None, name) else mret (Some ip, name)
      end
  end.

Definition namex (cwd : Z) (path : list Z) (parent : bool) (name : list Z) : M (fs S) (option Z * list Z) :=
  ip ← (if chr path =? SLASH then iget ROOTDEV ROOTINO else idup cwd);
  namex_loop (Datatypes.S (length path)) ip path parent name.

(** [name] in namei is an array on the stack. *)
Definition namei (cwd : Z) (path name : list Z) : M (fs S) (option Z) :=
  r ← namex cwd path false name; mret (fst r).

Definition nameiparent (cwd : Z) (path name : list Z) : M (fs S) (option Z * list Z) :=
  namex cwd path true name.
End ops.
