(* ===== verification/FsBlocks.v ===== *)
(** * The block bitmap

    What balloc and bfree of fs.c do to the blocks of the disk: balloc gives out the first
    block whose bit is clear, zeroed and marked, and bfree clears the bit of a block. *)

From S2P Require Import Prelude Bytes Blocks Fs.
From stdpp Require Import gmap.
#[local] Open Scope Z_scope.

(** ** Bits of a bitmap block *)

Section bits.
Implicit Types (d : list Z) (bi bj : Z).

Lemma bit_clear_testbit d bi : 0 <= bi -> bit_clear d bi = negb (Z.testbit (zget d (bi / 8)) (bi mod 8)).
Proof.
  intros H. unfold bit_clear, bmask. pose proof (Z.mod_pos_bound bi 8 ltac:(lia)) as Hm.
  rewrite Z.shiftl_1_l. destruct (Z.testbit (zget d (bi / 8)) (bi mod 8)) eqn:E; cbn.
  - apply Z.eqb_neq. intros H0. apply (f_equal (fun x => Z.testbit x (bi mod 8))) in H0.
    rewrite Z.land_spec, E, Z.pow2_bits_true, Z.bits_0 in H0 by lia. done.
  - apply Z.eqb_eq. apply Z.bits_inj'. intros k Hk. rewrite Z.land_spec, Z.bits_0.
    destruct (decide (k = bi mod 8)) as [->|Hne]; [by rewrite E|].
    rewrite Z.pow2_bits_false by lia. apply andb_false_r.
Qed.

Lemma zget_byte d k : Forall is_u8 d -> is_u8 (zget d k).
Proof.
  intros H. unfold zget. destruct (zlookup d k) as [x|] eqn:E; cbn; [|done].
  pose proof (zlookup_Some_range _ _ _ E). rewrite zlookup_to_nat in E by lia. by eapply Forall_lookup_1.
Qed.

Lemma byte_bits x : 0 <= x -> (forall k, 8 <= k -> Z.testbit x k = false) -> is_u8 x.
Proof.
  intros H0 H. split; [done|]. destruct (decide (x = 0)) as [->|Hx]; [done|].
  apply Z.log2_lt_pow2; [lia|]. destruct (Z.lt_ge_cases (Z.log2 x) 8) as [?|Hge]; [done|].
  specialize (H _ Hge). by rewrite Z.bit_log2 in H by lia.
Qed.

Lemma u8_high x k : is_u8 x -> 8 <= k -> Z.testbit x k = false.
Proof.
  intros [H0 H1] Hk. destruct (decide (x = 0)) as [->|Hx]; [apply Z.bits_0|].
  apply Z.bits_above_log2; [done|]. assert (Z.log2 x < 8) by (apply Z.log2_lt_pow2; lia). lia.
Qed.

Lemma bmask_byte bi : is_u8 (bmask bi).
Proof.
  unfold bmask. pose proof (Z.mod_pos_bound bi 8 ltac:(lia)) as Hm. rewrite Z.shiftl_1_l. split; [lia|].
  apply Z.pow_lt_mono_r; lia.
Qed.

Definition set_bit bi d : list Z := zupd d (bi / 8) (Z.lor (zget d (bi / 8)) (bmask bi)).
Definition clear_bit bi d : list Z := zupd d (bi / 8) (Z.land (zget d (bi / 8)) (Z.lnot (bmask bi))).

Lemma zupd_block d k x : block_ok d -> is_u8 x -> block_ok (zupd d k x).
Proof.
  intros [Hl Hd] Hx. split; [by rewrite zlen_zupd|]. unfold zupd. case_decide; [|done]. by apply Forall_insert.
Qed.

Lemma set_bit_block bi d : block_ok d -> block_ok (set_bit bi d).
Proof.
  intros Hd. apply zupd_block; [done|]. pose proof (zget_byte d (bi / 8) (proj2 Hd)) as Hb. pose proof (bmask_byte bi) as Hm.
  apply byte_bits; [apply Z.lor_nonneg; split; [apply Hb|apply Hm]|].
  intros k Hk. by rewrite Z.lor_spec, !u8_high.
Qed.

Lemma clear_bit_block bi d : block_ok d -> block_ok (clear_bit bi d).
Proof.
  intros Hd. apply zupd_block; [done|]. pose proof (zget_byte d (bi / 8) (proj2 Hd)) as Hb.
  apply byte_bits; [apply Z.land_nonneg; left; apply Hb|].
  intros k Hk. by rewrite Z.land_spec, u8_high.
Qed.

Lemma bit_same_byte bi bj : 0 <= bi -> 0 <= bj -> bi / 8 = bj / 8 -> bi mod 8 = bj mod 8 -> bi = bj.
Proof. intros ? ? ? ?. rewrite (Z.div_mod bi 8), (Z.div_mod bj 8); lia. Qed.

Lemma set_bit_clear bi bj d : zlen d = BSIZE -> 0 <= bi < BPB -> 0 <= bj < BPB ->
  bit_clear (set_bit bi d) bj = if decide (bj = bi) then false else bit_clear d bj.
Proof.
  intros Hl Hi Hj. rewrite !bit_clear_testbit by lia. unfold set_bit.
  assert (Hr : 0 <= bi / 8 < zlen d) by (rewrite Hl; unfold BPB, BSIZE in *; Z.div_mod_to_equations; lia).
  pose proof (Z.mod_pos_bound bi 8 ltac:(lia)). pose proof (Z.mod_pos_bound bj 8 ltac:(lia)).
  destruct (decide (bj / 8 = bi / 8)) as [E|E].
  - rewrite E, zget_zupd_eq by done. rewrite Z.lor_spec. unfold bmask. rewrite Z.shiftl_1_l.
    case_decide as Hd; [subst; by rewrite Z.pow2_bits_true, orb_true_r by lia|].
    rewrite Z.pow2_bits_false, orb_false_r; [done|]. intros Hm. apply Hd, bit_same_byte; lia.
  - rewrite zget_zupd_ne by done. rewrite decide_False by (by intros ->). done.
Qed.

Lemma clear_bit_clear bi bj d : zlen d = BSIZE -> 0 <= bi < BPB -> 0 <= bj < BPB ->
  bit_clear (clear_bit bi d) bj = if decide (bj = bi) then true else bit_clear d bj.
Proof.
  intros Hl Hi Hj. rewrite !bit_clear_testbit by lia. unfold clear_bit.
  assert (Hr : 0 <= bi / 8 < zlen d) by (rewrite Hl; unfold BPB, BSIZE in *; Z.div_mod_to_equations; lia).
  pose proof (Z.mod_pos_bound bi 8 ltac:(lia)). pose proof (Z.mod_pos_bound bj 8 ltac:(lia)).
  destruct (decide (bj / 8 = bi / 8)) as [E|E].
  - rewrite E, zget_zupd_eq by done. rewrite Z.land_spec, Z.lnot_spec by lia. unfold bmask. rewrite Z.shiftl_1_l.
    case_decide as Hd; [subst; by rewrite Z.pow2_bits_true, andb_false_r by lia|].
    rewrite Z.pow2_bits_false, andb_true_r; [done|]. intros Hm. apply Hd, bit_same_byte; lia.
  - rewrite zget_zupd_ne by done. rewrite decide_False by (by intros ->). done.
Qed.
End bits.

(** ** The layout of the disk *)

Definition blk (v : view) (n : Z) : list Z := default [] (vblk v !! n).

Section bitmap.
Context (sb : superblock).
Implicit Types (v : view) (b n : Z).

Definition datastart : Z := sb_bmapstart sb + sb_size sb / BPB + 1.

(** The blocks of the bitmap. *)
Definition bmaps : gset Z := list_to_set (seqZ (sb_bmapstart sb) (sb_size sb / BPB + 1)).

Record sb_ok : Prop := mksb_ok {
  so_size : 0 < sb_size sb < 2 ^ 31;
  so_ninodes : 0 < sb_ninodes sb;
  so_istart : 0 <= sb_inodestart sb;
  so_bstart : sb_inodestart sb + (sb_ninodes sb - 1) / IPB < sb_bmapstart sb;
  so_data : datastart <= sb_size sb }.

Definition bit v b : bool := negb (bit_clear (blk v (BBLOCK sb b)) (b mod BPB)).

(** The blocks from the inodes on are there, and the bits of the blocks that hold no data
    are set. *)
Record bitmap_ok v : Prop := mkbitmap_ok {
  bm_blocks : forall n, sb_inodestart sb <= n < sb_size sb -> exists d, vblk v !! n = Some d /\ block_ok d;
  bm_meta : forall b, 0 <= b < datastart -> bit v b = true }.

Definition zeros : list Z := replicate 512 0.
Definition marked b v : view := wrote (BBLOCK sb b) (set_bit (b mod BPB) (blk v (BBLOCK sb b))) v.
Definition alloc b v : view := wrote b zeros (marked b v).
Definition dealloc b v : view := wrote (BBLOCK sb b) (clear_bit (b mod BPB) (blk v (BBLOCK sb b))) v.

Definition free v b : Prop := 0 <= b < sb_size sb /\ bit v b = false.

Context (Hsb : sb_ok).

Lemma zeros_ok : block_ok zeros.
Proof. split; [done|]. by apply Forall_replicate. Qed.

Lemma BBLOCK_range b : 0 <= b < sb_size sb ->
  sb_bmapstart sb <= BBLOCK sb b < datastart /\ sb_inodestart sb <= BBLOCK sb b < sb_size sb /\ BBLOCK sb b ∈ bmaps.
Proof.
  intros Hb. destruct Hsb as [H1 H2 H3 H4 H5]. unfold BBLOCK, bmaps in *.
  assert (0 <= b / BPB <= sb_size sb / BPB) by (split; [apply Z.div_pos|apply Z.div_le_mono]; unfold BPB, BSIZE in *; lia).
  assert (0 <= (sb_ninodes sb - 1) / IPB) by (apply Z.div_pos; unfold IPB; lia).
  split; [unfold datastart; lia|]. split; [unfold datastart in *; lia|].
  rewrite elem_of_list_to_set, elem_of_seqZ. lia.
Qed.

Lemma datastart_pos : 0 < datastart.
Proof.
  destruct (BBLOCK_range 0) as (H1 & H2 & _); [pose proof (so_size Hsb); lia|]. pose proof (so_istart Hsb). lia.
Qed.

Lemma bmaps_range n : n ∈ bmaps -> sb_bmapstart sb <= n < datastart.
Proof. unfold bmaps, datastart. rewrite elem_of_list_to_set, elem_of_seqZ. lia. Qed.

Lemma blk_at v n d : vblk v !! n = Some d -> blk v n = d.
Proof. intros H. unfold blk. by rewrite H. Qed.

Lemma blk_wrote n d v m : blk (wrote n d v) m = if decide (m = n) then d else blk v m.
Proof.
  unfold blk, wrote. cbn. case_decide as E; [subst; by rewrite lookup_insert_eq|by rewrite lookup_insert_ne].
Qed.

Lemma bmap_block v b : bitmap_ok v -> 0 <= b < sb_size sb ->
  vblk v !! BBLOCK sb b = Some (blk v (BBLOCK sb b)) /\ block_ok (blk v (BBLOCK sb b)).
Proof.
  intros Hv Hb. destruct (BBLOCK_range b Hb) as (_ & Hr & _).
  destruct (bm_blocks v Hv _ Hr) as (d & Hd & Hok). by rewrite (blk_at _ _ _ Hd).
Qed.

(** A block outside the bitmap does not matter for the bits. *)
Lemma bit_wrote_data n d v b : datastart <= n -> 0 <= b < sb_size sb -> bit (wrote n d v) b = bit v b.
Proof.
  intros Hn Hb. unfold bit. rewrite blk_wrote. destruct (BBLOCK_range b Hb) as (Hr & _). by rewrite decide_False by lia.
Qed.

Lemma bit_marked b c v : bitmap_ok v -> 0 <= b < sb_size sb -> 0 <= c < sb_size sb ->
  bit (marked b v) c = if decide (c = b) then true else bit v c.
Proof.
  intros Hv Hb Hc. destruct (bmap_block v b Hv Hb) as (_ & [Hl _]). unfold bit, marked. rewrite blk_wrote.
  pose proof (Z.mod_pos_bound b BPB ltac:(done)). pose proof (Z.mod_pos_bound c BPB ltac:(done)).
  destruct (decide (BBLOCK sb c = BBLOCK sb b)) as [E|E].
  - rewrite set_bit_clear by done. unfold BBLOCK in *. destruct (decide (c = b)) as [->|Hne].
    + by rewrite decide_True.
    + rewrite decide_False; [by rewrite E|]. intros Em. apply Hne. rewrite (Z.div_mod c BPB), (Z.div_mod b BPB) by done. lia.
  - rewrite decide_False; [done|]. by intros ->.
Qed.

Lemma bit_dealloc b c v : bitmap_ok v -> 0 <= b < sb_size sb -> 0 <= c < sb_size sb ->
  bit (dealloc b v) c = if decide (c = b) then false else bit v c.
Proof.
  intros Hv Hb Hc. destruct (bmap_block v b Hv Hb) as (_ & [Hl _]). unfold bit, dealloc. rewrite blk_wrote.
  pose proof (Z.mod_pos_bound b BPB ltac:(done)). pose proof (Z.mod_pos_bound c BPB ltac:(done)).
  destruct (decide (BBLOCK sb c = BBLOCK sb b)) as [E|E].
  - rewrite clear_bit_clear by done. unfold BBLOCK in *. destruct (decide (c = b)) as [->|Hne].
    + by rewrite decide_True.
    + rewrite decide_False; [by rewrite E|]. intros Em. apply Hne. rewrite (Z.div_mod c BPB), (Z.div_mod b BPB) by done. lia.
  - rewrite decide_False; [done|]. by intros ->.
Qed.

Lemma free_data v b : bitmap_ok v -> free v b -> datastart <= b < sb_size sb.
Proof.
  intros Hv [Hb Hf]. split; [|lia]. destruct (Z.lt_ge_cases b datastart) as [Hlt|?]; [|done].
  rewrite (bm_meta v Hv) in Hf; [done|lia].
Qed.

Lemma bit_alloc b c v : bitmap_ok v -> free v b -> 0 <= c < sb_size sb ->
  bit (alloc b v) c = if decide (c = b) then true else bit v c.
Proof.
  intros Hv Hf Hc. pose proof (free_data v b Hv Hf). unfold alloc. rewrite bit_wrote_data by lia.
  apply bit_marked; [done|apply Hf|done].
Qed.

Lemma blocks_wrote v n d : (forall n, sb_inodestart sb <= n < sb_size sb -> exists d, vblk v !! n = Some d /\ block_ok d) ->
  block_ok d -> forall m, sb_inodestart sb <= m < sb_size sb -> exists e, vblk (wrote n d v) !! m = Some e /\ block_ok e.
Proof.
  intros H Hd m Hm. cbn. destruct (decide (m = n)) as [->|Hne].
  - rewrite lookup_insert_eq. eauto.
  - rewrite lookup_insert_ne by done. auto.
Qed.

Lemma alloc_ok b v : bitmap_ok v -> free v b -> bitmap_ok (alloc b v).
Proof.
  intros Hv Hf. pose proof Hf as [Hb _]. split.
  - apply blocks_wrote, zeros_ok. apply blocks_wrote; [apply Hv|]. apply set_bit_block. by apply bmap_block.
  - intros c Hc. pose proof (so_data Hsb). rewrite bit_alloc by (done || lia). case_decide; [done|by apply Hv].
Qed.

Lemma dealloc_ok b v : bitmap_ok v -> datastart <= b < sb_size sb -> bitmap_ok (dealloc b v).
Proof.
  intros Hv Hb. pose proof datastart_pos. split.
  - apply blocks_wrote; [apply Hv|]. apply clear_bit_block. apply bmap_block; [done|lia].
  - intros c Hc. pose proof (so_data Hsb). rewrite bit_dealloc by (done || lia). rewrite decide_False by lia. by apply Hv.
Qed.

Lemma wrote_data_ok n d v : bitmap_ok v -> datastart <= n -> block_ok d -> bitmap_ok (wrote n d v).
Proof.
  intros Hv Hn Hd. split; [apply blocks_wrote; [apply Hv|done]|].
  intros b Hb. pose proof (so_data Hsb). rewrite bit_wrote_data by lia. by apply Hv.
Qed.
End bitmap.

(** ** Running balloc and bfree *)

Section run.
Context {S : Type} {B : BlockDev S} {L : BlockLaws S B} (sb : superblock) (Hsb : sb_ok sb).
Implicit Types (s : S) (v : view) (b n : Z).
Abbreviation bit := (bit sb).
Abbreviation free := (free sb).
Abbreviation bitmap_ok := (bitmap_ok sb).

(** The buffers in use are of data blocks that are not free. *)
Definition held_ok v : Prop :=
  (size (vheld v) <= 1)%nat /\
  forall n i, vheld v !! n = Some i -> datastart sb <= n < sb_size sb /\ bit v n = true.

(** The blocks a transaction has written or may write for the bitmap. *)
Definition budget v : Z := Z.of_nat (size (vlog v ∪ bmaps sb)).

Lemma budget_log v (X : gset Z) : X ⊆ vlog v ∪ bmaps sb -> Z.of_nat (size (X ∪ vlog v)) <= budget v.
Proof. intros H. apply inj_le, subseteq_size. set_solver. Qed.

Lemma budget_in n d v : n ∈ vlog v ∪ bmaps sb -> budget (wrote n d v) = budget v.
Proof. intros H. unfold budget. do 2 f_equal. cbn. set_solver. Qed.

Lemma budget_wrote n d v : budget (wrote n d v) <= budget v + 1.
Proof.
  unfold budget. cbn. replace ({[n]} ∪ vlog v ∪ bmaps sb) with ({[n]} ∪ (vlog v ∪ bmaps sb)) by set_solver.
  rewrite size_union_alt, size_singleton. assert (size ((vlog v ∪ bmaps sb) ∖ {[n]}) <= size (vlog v ∪ bmaps sb))%nat; [|lia].
  apply subseteq_size. set_solver.
Qed.

Lemma log_budget n v : Z.of_nat (size ({[n]} ∪ vlog v)) <= budget v + 1.
Proof.
  rewrite size_union_alt, size_singleton. unfold budget.
  assert (size (vlog v ∖ {[n]}) <= size (vlog v ∪ bmaps sb))%nat; [|lia]. apply subseteq_size. set_solver.
Qed.

Lemma held_none v n : held_ok v -> n < datastart sb \/ bit v n = false -> vheld v !! n = None.
Proof.
  intros [_ H] Hn. destruct (vheld v !! n) as [i|] eqn:E; [|done]. apply H in E as [? ?]. destruct Hn; [lia|congruence].
Qed.

Lemma wp_bzero (Q : unit -> S -> Prop) (E : string -> Prop) s v b d : bview s v -> vblk v !! b = Some d ->
  vheld v !! b = None -> (size (vheld v) <= 1)%nat -> Z.of_nat (size ({[b]} ∪ vlog v)) <= max_op ->
  (forall s', bview s' (wrote b zeros v) -> Q tt s') -> wp (bzero 1 b) Q E s.
Proof. intros. eapply (wp_update_end _ _ _ _ _ _ (fun _ => zeros)); eauto using zeros_ok. Qed.

Lemma in_block b c : b mod BPB = 0 -> b <= c < b + BPB -> c mod BPB = c - b /\ BBLOCK sb c = BBLOCK sb b.
Proof.
  intros Hm Hc. split.
  - replace c with (c - b + b) at 1 by lia. rewrite <- Zplus_mod_idemp_r, Hm, Z.add_0_r. apply Z.mod_small. lia.
  - unfold BBLOCK. f_equal. symmetry. apply (Z.div_unique _ _ _ (c - b)); [left; lia|].
    pose proof (Z.div_mod b BPB ltac:(done)). lia.
Qed.

(** The scan of one bitmap block. *)
Lemma scan_some v b bi : bitmap_ok v -> 0 <= b < sb_size sb -> b mod BPB = 0 ->
  find (bit_clear (blk v (BBLOCK sb b))) (zrange 0 (Z.min BPB (sb_size sb - b) - 1)) = Some bi ->
  free v (b + bi) /\ BBLOCK sb (b + bi) = BBLOCK sb b /\ (b + bi) mod BPB = bi /\
  (forall c, b <= c < b + bi -> bit v c = true).
Proof.
  intros Hv Hb Hm Hf. pose proof (find_first _ _ _ _ Hf) as Hfirst. apply List.find_some in Hf as [Hin Hc].
  apply list_elem_of_In, elem_of_zrange in Hin.
  destruct (in_block b (b + bi) Hm) as [Hbi HB]; [lia|]. replace (b + bi - b) with bi in Hbi by lia.
  split; [|split; [done|split; [done|]]].
  - split; [lia|]. unfold FsBlocks.bit. by rewrite HB, Hbi, Hc.
  - intros c Hcr. destruct (in_block b c Hm) as [Hci HBc]; [lia|].
    unfold FsBlocks.bit. rewrite HBc, Hci. apply negb_true_iff, Hfirst. lia.
Qed.

Lemma scan_none v b c : bitmap_ok v -> 0 <= b < sb_size sb -> b mod BPB = 0 ->
  find (bit_clear (blk v (BBLOCK sb b))) (zrange 0 (Z.min BPB (sb_size sb - b) - 1)) = None ->
  b <= c < b + BPB -> c < sb_size sb -> bit v c = true.
Proof.
  intros Hv Hb Hm Hf Hc Hcs. destruct (in_block b c Hm Hc) as [Hci HB].
  unfold FsBlocks.bit. rewrite HB, Hci. apply negb_true_iff.
  eapply List.find_none in Hf; [exact Hf|]. apply list_elem_of_In, elem_of_zrange. lia.
Qed.

(** Marking the free block [a] in its bitmap buffer and zeroing it. *)
Lemma wp_take s v i a : bview s (hold (BBLOCK sb a) i v) -> bdata i s = blk v (BBLOCK sb a) ->
  bitmap_ok v -> held_ok v -> budget v + 1 <= max_op -> free v a ->
  wp (bset i (set_bit (a mod BPB));; log_write i;; brelse i;; bzero 1 a;; mret a)
    (fun r s' => r = a /\ bview s' (alloc sb a v)) (fun _ => False) s.
Proof.
  intros Hs Hd Hv Hh Hmax Hf. pose proof Hf as [Hrange Hbit]. pose proof (free_data sb v a Hv Hf) as Hdata.
  destruct (BBLOCK_range sb Hsb a Hrange) as (Hr & Hr' & Hin). destruct (bmap_block sb Hsb v a Hv Hrange) as [Hblk Hbok].
  pose proof (held_none v (BBLOCK sb a) Hh ltac:(lia)) as Hnh.
  eapply wp_log_write; [exact Hs|apply lookup_insert_eq|exact Hd| |by apply set_bit_block|].
  { cbn. pose proof (budget_log v {[BBLOCK sb a]} ltac:(set_solver)). lia. }
  intros s2 Hs2. destruct (brelse_ok s2 _ _ i Hs2 (lookup_insert_eq _ _ _)) as (s3 & Er & Hs3).
  rewrite unhold_wrote in Hs3 by done. eapply wp_step_run; [exact Er|].
  change (bview s3 (marked sb a v)) in Hs3.
  apply wp_bind, (wp_bzero _ _ s3 (marked sb a v) a (blk v a)); [exact Hs3| | |apply Hh| |].
  - unfold marked. cbn. rewrite lookup_insert_ne by lia. destruct (bm_blocks sb v Hv a) as (e & He & _); [lia|].
    by rewrite (blk_at _ _ _ He).
  - apply (held_none v); auto.
  - pose proof (log_budget a (marked sb a v)) as Hlb. unfold marked in Hlb at 2.
    rewrite budget_in in Hlb by set_solver. lia.
  - intros s4 Hs4. done.
Qed.

Lemma balloc_loop_wp fuel : forall s v b, bview s v -> bitmap_ok v -> held_ok v -> budget v + 1 <= max_op ->
  0 <= b -> b mod BPB = 0 -> sb_size sb - b < Z.of_nat fuel * BPB -> (forall c, 0 <= c < b -> bit v c = true \/ sb_size sb <= c) ->
  wp (balloc_loop sb fuel 1 b)
    (fun a s' => free v a /\ (forall c, 0 <= c < a -> bit v c = true) /\ bview s' (alloc sb a v))
    (fun msg => msg = "balloc: out of blocks" /\ forall c, ~ free v c) s.
Proof.
  induction fuel as [|fuel IH]; intros s v b Hs Hv Hh Hmax Hb Hm Hf Hlow; [cbn in Hf|].
  { split; [done|]. intros c [Hc Hfr]. destruct (Hlow c); [lia|congruence|lia]. }
  cbn [balloc_loop]. destruct (Z.leb_spec (sb_size sb) b) as [Hge|Hlt].
  { split; [done|]. intros c [Hc Hfr]. destruct (Hlow c); [lia|congruence|lia]. }
  destruct (bmap_block sb Hsb v b Hv ltac:(lia)) as [Hblk Hbok]. destruct (BBLOCK_range sb Hsb b ltac:(lia)) as (Hr & _ & Hin).
  pose proof (held_none v (BBLOCK sb b) Hh ltac:(lia)) as Hnh.
  eapply wp_bread; [exact Hs|exact Hblk|exact Hnh|apply Hh|]. intros i s1 Hs1 Hd.
  eapply wp_step_run; [reflexivity|]. rewrite Hd.
  destruct (find _ _) as [bi|] eqn:Ef.
  - destruct (scan_some v b bi Hv ltac:(lia) Hm Ef) as (Hfr & HB & Hbi & Hfirst).
    eapply wp_mono; [|shelve|shelve].
    rewrite <- HB in Hs1, Hd. pose proof (wp_take s1 v i (b + bi) Hs1 Hd Hv Hh Hmax Hfr) as Ht. rewrite Hbi in Ht.
    exact Ht.
    Unshelve.
    + cbn. intros a s' [-> Hs']. split; [done|]. split; [|done]. intros c Hc.
      destruct (decide (c < b)) as [Hcb|Hcb]; [destruct (Hlow c); [lia|done|lia]|]. apply Hfirst. lia.
    + done.
  - eapply wp_brelse; [exact Hs1|done|]. intros s2 Hs2. apply IH; try done.
    + unfold BPB, BSIZE in *. lia.
    + rewrite <- Zplus_mod_idemp_r, Z_mod_same_full, Z.add_0_r. done.
    + lia.
    + intros c Hc. destruct (decide (c < b)) as [|Hcb]; [apply Hlow; lia|].
      destruct (Z.le_gt_cases (sb_size sb) c) as [|Hlt']; [by right|left]. eapply scan_none; [exact Hv| |exact Hm|exact Ef|lia|lia]. lia.
Qed.

Lemma balloc_wp s v : bview s v -> bitmap_ok v -> held_ok v -> budget v + 1 <= max_op ->
  wp (balloc sb 1)
    (fun a s' => free v a /\ (forall c, 0 <= c < a -> bit v c = true) /\ bview s' (alloc sb a v))
    (fun msg => msg = "balloc: out of blocks" /\ forall c, ~ free v c) s.
Proof.
  intros Hs Hv Hh Hmax. apply balloc_loop_wp; try done; [|lia].
  pose proof (so_size sb Hsb). pose proof (Z.div_pos (sb_size sb) BPB ltac:(lia) ltac:(done)).
  pose proof (Z.mod_pos_bound (sb_size sb) BPB ltac:(done)). pose proof (Z.div_mod (sb_size sb) BPB ltac:(done)).
  rewrite Nat2Z.inj_succ, Z2Nat.id by done. lia.
Qed.

Lemma bfree_wp s v b : bview s v -> bitmap_ok v -> (size (vheld v) <= 1)%nat -> vheld v !! BBLOCK sb b = None ->
  budget v <= max_op -> 0 <= b < sb_size sb -> bit v b = true ->
  wp (bfree sb 1 b) (fun _ s' => bview s' (dealloc sb b v)) (fun _ => False) s.
Proof.
  intros Hs Hv Hh Hn Hmax Hb Hbit. destruct (bmap_block sb Hsb v b Hv Hb) as [Hblk Hbok].
  destruct (BBLOCK_range sb Hsb b Hb) as (_ & _ & Hin).
  eapply wp_bread; [exact Hs|exact Hblk|done|done|]. intros i s1 Hs1 Hd.
  eapply wp_step_run; [reflexivity|]. rewrite Hd. unfold FsBlocks.bit in Hbit. apply negb_true_iff in Hbit. rewrite Hbit.
  eapply wp_log_write; [exact Hs1|apply lookup_insert_eq|exact Hd| |by apply (clear_bit_block (b mod BPB))|].
  { cbn. pose proof (budget_log v {[BBLOCK sb b]} ltac:(set_solver)). lia. }
  intros s2 Hs2. destruct (brelse_ok s2 _ _ i Hs2 (lookup_insert_eq _ _ _)) as (s3 & Er & Hs3).
  rewrite unhold_wrote in Hs3 by done. eapply wp_run; [exact Er|]. exact Hs3.
Qed.
End run.
