(* ===== verification/FsInode.v ===== *)
(** * Inodes on the disk

    The layout of on-disk inodes and the invariant of the file system of fs.c: which
    blocks belong to which file, that no block belongs to two, and that exactly the blocks
    in use are marked in the bitmap. *)

From S2P Require Import Prelude Bytes Blocks Fs FsBlocks.
From stdpp Require Import gmap.
#[local] Open Scope Z_scope.

(** ** Reading and writing an on-disk inode *)

Record dinode_ok (d : dinode) : Prop := mkdinode_ok {
  dk_type : is_s16 (d_type d); dk_major : is_s16 (d_major d); dk_minor : is_s16 (d_minor d);
  dk_nlink : is_s16 (d_nlink d); dk_size : is_u32 (d_size d);
  dk_len : zlen (d_addrs d) = 13; dk_addrs : Forall is_u32 (d_addrs d) }.

Section layout.
Implicit Types (b : list Z) (o : Z) (d : dinode).

Lemma slice_bytes_of w k : 0 <= k < zlen w -> slice (bytes_of w) (4 * k) 4 = to_le 4 (zget w k).
Proof.
  revert k. induction w as [|x w IH]; intros k Hk; [unfold zlen in Hk; cbn in Hk; lia|].
  rewrite bytes_of_cons. destruct (decide (k = 0)) as [->|Hne].
  - unfold slice. change (Z.to_nat (4 * 0)) with 0%nat. change (Z.to_nat 4) with 4%nat. rewrite drop_0.
    rewrite take_app_le by (by rewrite length_to_le). by rewrite take_ge by (by rewrite length_to_le).
  - unfold zlen in Hk. cbn [length] in Hk.
    assert (Hs : slice (to_le 4 x ++ bytes_of w) (4 * k) 4 = slice (bytes_of w) (4 * (k - 1)) 4).
    { unfold slice. rewrite drop_app_ge by (rewrite length_to_le; lia). rewrite length_to_le. do 2 f_equal. lia. }
    rewrite Hs, IH by (unfold zlen; lia). f_equal. unfold zget. f_equal. rewrite !zlookup_to_nat by lia.
    replace (Z.to_nat k) with (S (Z.to_nat (k - 1))) by lia. done.
Qed.

Lemma zlen_bytes_of w : zlen (bytes_of w) = 4 * zlen w.
Proof. unfold zlen. rewrite length_bytes_of. lia. Qed.

Lemma splice_splice {A} (l w1 w2 : list A) o : 0 <= o <= zlen l ->
  splice (splice l o w1) (o + zlen w1) w2 = splice l o (w1 ++ w2).
Proof.
  intros Ho. assert (0 <= zlen w1 /\ 0 <= zlen w2) by (unfold zlen; lia).
  assert (Ha : zlen (w1 ++ w2) = zlen w1 + zlen w2) by (unfold zlen; rewrite length_app; lia).
  assert (Hl : zlen (splice l o w1) = Z.max (zlen l) (o + zlen w1)) by by apply zlen_splice_ext.
  apply zlist_ext'; [rewrite !zlen_splice_ext; lia|].
  intros i Hi. rewrite !zlookup_splice_ext by lia. rewrite Ha.
  repeat case_decide; try lia; try done.
  - rewrite !zlookup_to_nat by lia. rewrite lookup_app_r by (unfold zlen in *; lia). f_equal. unfold zlen in *. lia.
  - rewrite !zlookup_to_nat by lia. rewrite lookup_app_l by (unfold zlen in *; lia). done.
Qed.

(** The bytes of an on-disk inode. *)
Definition enc d : list Z :=
  to_le 2 (d_type d) ++ to_le 2 (d_major d) ++ to_le 2 (d_minor d) ++ to_le 2 (d_nlink d) ++
  to_le 4 (d_size d) ++ bytes_of (d_addrs d).

Lemma zlen_enc d : dinode_ok d -> zlen (enc d) = 64.
Proof. intros H. unfold enc. rewrite !zlen_app, !zlen_to_le, zlen_bytes_of, (dk_len d H). done. Qed.

Lemma write_dinode_enc o d b : dinode_ok d -> 0 <= o -> o + 64 <= zlen b -> write_dinode o d b = splice b o (enc d).
Proof.
  intros Hd Ho Hb. pose proof (dk_len d Hd) as H13. unfold write_dinode, fput, enc.
  assert (Hstep : forall (w1 w2 : list Z) o', 0 <= o -> o' = o + zlen w1 -> o' + zlen w2 <= zlen b ->
    splice (splice b o w1) o' w2 = splice b o (w1 ++ w2)) by (intros w1 w2 o' ? -> ?; apply splice_splice; unfold zlen in *; lia).
  rewrite (Hstep (to_le 2 _)); rewrite ?zlen_to_le; try lia.
  do 4 (rewrite Hstep; rewrite ?zlen_app, ?zlen_to_le, ?zlen_bytes_of, ?H13; try lia).
  by rewrite <- !app_assoc.
Qed.

Lemma fget_app k (l w : list Z) z o : o = zlen l -> fget k (l ++ to_le k z ++ w) o = z mod 256 ^ Z.of_nat k.
Proof.
  intros ->. unfold fget, slice. rewrite drop_app_ge by (unfold zlen; lia).
  replace (Z.to_nat (zlen l) - length l)%nat with 0%nat by (unfold zlen; lia). rewrite drop_0.
  rewrite take_app_le by (rewrite length_to_le; lia). rewrite take_ge by (rewrite length_to_le; lia). apply of_to_le.
Qed.

Lemma fget_app_words (l w : list Z) o k : o = zlen l + 4 * k -> 0 <= k < zlen w -> Forall is_u32 w ->
  fget 4 (l ++ bytes_of w) o = zget w k.
Proof.
  intros -> Hk Hw. unfold fget. change (Z.of_nat 4) with 4.
  assert (Hs : slice (l ++ bytes_of w) (zlen l + 4 * k) 4 = slice (bytes_of w) (4 * k) 4).
  { unfold slice. rewrite drop_app_ge by (unfold zlen; lia). do 2 f_equal. unfold zlen. lia. }
  rewrite Hs, slice_bytes_of, of_to_le by done. apply Z.mod_small. change (256 ^ Z.of_nat 4) with (2 ^ 32).
  pose proof (zlookup_zget w k Hk) as Hz. rewrite zlookup_to_nat in Hz by lia. by eapply (Forall_lookup_1 is_u32).
Qed.

(** An inode depends on its 64 bytes only. *)
Lemma read_dinode_slice b o : 0 <= o -> o + 64 <= zlen b -> read_dinode b o = read_dinode (slice b o 64) 0.
Proof.
  intros Ho Hb. assert (H : forall k j, 0 <= j -> j + Z.of_nat k <= 64 -> fget k b (o + j) = fget k (slice b o 64) j).
  { intros k j Hj Hk. unfold fget. by rewrite slice_slice by lia. }
  unfold read_dinode. pose proof (H 2%nat 0) as H0. rewrite Z.add_0_r in H0. rewrite H0, !H by lia. f_equal.
  apply map_ext_in. intros k Hk%list_elem_of_In%elem_of_zrange.
  replace (o + 12 + 4 * k) with (o + (12 + 4 * k)) by lia. rewrite H by lia. f_equal.
Qed.

Lemma read_enc d : dinode_ok d -> read_dinode (enc d) 0 = d.
Proof.
  intros [H1 H2 H3 H4 H5 H6 H7]. destruct d as [ty ma mi nl sz ad].
  unfold enc, read_dinode. cbn [d_type d_major d_minor d_nlink d_size d_addrs] in *.
  f_equal.
  - transitivity (s16 (ty mod 256 ^ 2)); [|by apply s16_mod]. f_equal. by apply (fget_app 2 []).
  - rewrite (fget_app 2 (to_le 2 ty)) by done. by apply s16_mod.
  - rewrite app_assoc, (fget_app 2 (to_le 2 ty ++ to_le 2 ma)) by done. by apply s16_mod.
  - rewrite 2 app_assoc, (fget_app 2 ((to_le 2 ty ++ to_le 2 ma) ++ to_le 2 mi)) by done. by apply s16_mod.
  - rewrite 3 app_assoc, (fget_app 4 (((to_le 2 ty ++ to_le 2 ma) ++ to_le 2 mi) ++ to_le 2 nl)) by done.
    by apply Z.mod_small.
  - rewrite 4 app_assoc. apply list_eq. intros i. rewrite list_lookup_fmap.
    destruct (decide (i < 13)%nat) as [Hi|Hi].
    + unfold zrange. rewrite lookup_seqZ_lt by lia. cbn [fmap option_fmap option_map].
      rewrite (fget_app_words _ ad _ (Z.of_nat i)); [|rewrite !zlen_app, !zlen_to_le; lia|lia|done].
      pose proof (zlookup_zget ad (Z.of_nat i) ltac:(lia)) as Hz. rewrite zlookup_of_nat in Hz. by rewrite Hz.
    + unfold zrange. rewrite lookup_seqZ_ge by lia. cbn. symmetry. apply lookup_ge_None_2. unfold zlen in *. lia.
Qed.

Lemma enc_bytes d : Forall is_u8 (enc d).
Proof.
  unfold enc. repeat apply Forall_app_2; try apply to_le_bytes.
  unfold bytes_of. induction (d_addrs d) as [|x w IH]; [done|]. apply Forall_app_2; [apply to_le_bytes|done].
Qed.

Lemma write_dinode_ok o d b : block_ok b -> dinode_ok d -> 0 <= o -> o + 64 <= BSIZE ->
  block_ok (write_dinode o d b) /\ read_dinode (write_dinode o d b) o = d /\
  forall o', 0 <= o' -> o' + 64 <= BSIZE -> o' + 64 <= o \/ o + 64 <= o' ->
    read_dinode (write_dinode o d b) o' = read_dinode b o'.
Proof.
  intros [Hl Hb] Hd Ho Hr. pose proof (zlen_enc d Hd) as He. rewrite write_dinode_enc by (done || lia).
  assert (Hz : zlen (splice b o (enc d)) = zlen b) by (apply zlen_splice; lia).
  split; [split; [lia|apply Forall_splice; [done|apply enc_bytes]]|]. split.
  - rewrite read_dinode_slice by lia. rewrite <- He, slice_splice_eq by lia. by apply read_enc.
  - intros o' Ho' Hr' Hd'. rewrite !(read_dinode_slice _ o') by lia. f_equal. apply slice_splice_ne; lia.
Qed.

Lemma read_dinode_ok b o : block_ok b -> 0 <= o -> o + 64 <= BSIZE -> dinode_ok (read_dinode b o).
Proof.
  intros [Hl Hb] Ho Hr. split; cbn; try apply s16_range.
  - apply fget_range; [done|lia|rewrite Hl; lia].
  - done.
  - apply Forall_forall. intros x (k & -> & Hk%elem_of_zrange)%list_elem_of_fmap.
    apply fget_range; [done|lia|rewrite Hl; lia].
Qed.
End layout.

(** ** The blocks of the files

    [I] gives the inodes that are in use.  Slot [n] of an inode is the address of its
    [n]-th block, and slot 140 that of its indirect block; 0 is no block. *)

Section invariant.
Context (sb : superblock).
Implicit Types (v : view) (b i n : Z) (d : dinode) (I : gmap Z dinode).
Abbreviation bit := (bit sb).
Abbreviation free := (free sb).
Abbreviation bitmap_ok := (bitmap_ok sb).

Definition dinode_at v i : dinode := read_dinode (blk v (IBLOCK sb i)) (i mod IPB * 64).

Definition ind d : Z := zget (d_addrs d) NDIRECT.
Definition slot v d n : Z :=
  if n <? NDIRECT then zget (d_addrs d) n
  else if n =? MAXFILE then ind d
  else if ind d =? 0 then 0
  else fget 4 (blk v (ind d)) (4 * (n - NDIRECT)).

(** Block [b] is block [n] of file [i]. *)
Definition maps v I b i n : Prop :=
  exists d, I !! i = Some d /\ 0 <= n <= MAXFILE /\ slot v d n = b /\ b <> 0.

Record fsinv v I : Prop := mkfsinv {
  fi_bitmap : bitmap_ok v;
  fi_inode : forall i d, I !! i = Some d -> 0 < i < sb_ninodes sb /\ dinode_ok d /\ d_type d <> 0;
  fi_range : forall b i n, maps v I b i n -> datastart sb <= b < sb_size sb;
  fi_inj : forall b i n j m, maps v I b i n -> maps v I b j m -> i = j /\ n = m;
  fi_bits : forall b, datastart sb <= b < sb_size sb -> bit v b = true <-> exists i n, maps v I b i n;
  fi_size : forall i d, I !! i = Some d -> 0 <= d_size d <= MAXFILE * BSIZE /\
    forall n, 0 <= n -> n * BSIZE < d_size d -> slot v d n <> 0 }.

(** The inodes on the disk are those of [I], except for the numbers in [X]. *)
Definition synced v I (X : gset Z) : Prop :=
  forall i, 0 < i < sb_ninodes sb -> i ∉ X ->
    match I !! i with
    | Some d => dinode_at v i = d
    | None => d_type (dinode_at v i) = 0
    end.

Context (Hsb : sb_ok sb).

Lemma slot_ind v d : slot v d MAXFILE = ind d.
Proof. done. Qed.

(** The slots depend on the addresses and the indirect block only. *)
Lemma slot_same v v' d d' n : d_addrs d' = d_addrs d -> (ind d <> 0 -> blk v' (ind d) = blk v (ind d)) ->
  slot v' d' n = slot v d n.
Proof.
  intros Ha Hi. unfold slot, ind in *. rewrite Ha. destruct (n <? NDIRECT); [done|]. destruct (n =? MAXFILE); [done|].
  destruct (Z.eqb_spec (zget (d_addrs d) NDIRECT) 0); [done|]. by rewrite Hi.
Qed.

Lemma maps_ind v I i d : I !! i = Some d -> ind d <> 0 -> maps v I (ind d) i MAXFILE.
Proof. intros Hi Hn. exists d. split_and!; [done|unfold MAXFILE, NDIRECT, NINDIRECT; lia..|apply slot_ind|done]. Qed.

Lemma free_not_mapped v I b i n : fsinv v I -> free v b -> ~ maps v I b i n.
Proof.
  intros HF Hb Hm. pose proof (fi_range v I HF _ _ _ Hm) as Hr. destruct Hb as [_ Hb].
  assert (bit v b = true); [|congruence]. apply (fi_bits v I HF); eauto.
Qed.

Lemma mapped_bit v I b i n : fsinv v I -> maps v I b i n -> bit v b = true.
Proof. intros HF Hm. apply (fi_bits v I HF); [by eapply fi_range|eauto]. Qed.

(** Two inodes that do not share blocks keep their slots when only other blocks change. *)
Lemma slot_other v v' I i d n : fsinv v I -> I !! i = Some d ->
  (forall b, maps v I b i MAXFILE -> blk v' b = blk v b) -> slot v' d n = slot v d n.
Proof. intros HF Hi H. apply slot_same; [done|]. intros Hn. apply H. by apply maps_ind. Qed.

(** Changes that keep the bits and the indirect blocks. *)
Lemma maps_frame v v' I b i n : fsinv v I -> (forall j e, I !! j = Some e -> ind e <> 0 -> blk v' (ind e) = blk v (ind e)) ->
  maps v' I b i n <-> maps v I b i n.
Proof.
  intros HF H. split; intros (d & Hd & Hn & Hs & Hb); exists d; (split_and!; [done|lia..| |done]);
    rewrite <- Hs; [symmetry|]; apply slot_same; eauto.
Qed.

Lemma fsinv_frame v v' I : fsinv v I -> bitmap_ok v' ->
  (forall c, datastart sb <= c < sb_size sb -> bit v' c = bit v c) ->
  (forall j e, I !! j = Some e -> ind e <> 0 -> blk v' (ind e) = blk v (ind e)) -> fsinv v' I.
Proof.
  intros HF Hbm Hbits Hind. pose proof (fun b i n => maps_frame v v' I b i n HF Hind) as Hmaps. split.
  - done.
  - apply HF.
  - intros b i n Hm%Hmaps. by eapply fi_range.
  - intros b i n j m H1%Hmaps H2%Hmaps. by eapply fi_inj.
  - intros b Hb. rewrite Hbits, (fi_bits v I HF) by done. by setoid_rewrite Hmaps.
  - intros i d Hd. destruct (fi_size v I HF i d Hd) as [Hr Hs]. split; [done|]. intros n Hn Hlt.
    rewrite (slot_same v v' d d n); eauto.
Qed.

(** One slot of inode [i], empty so far, gets the free block [a]. *)
Lemma maps_add v v' I i d d' n a : I !! i = Some d -> a <> 0 -> 0 <= n <= MAXFILE -> slot v d n = 0 ->
  (forall m, 0 <= m <= MAXFILE -> slot v' d' m = if decide (m = n) then a else slot v d m) ->
  (forall j e m, j <> i -> I !! j = Some e -> slot v' e m = slot v e m) ->
  forall b j m, maps v' (<[i := d']> I) b j m <-> (b = a /\ j = i /\ m = n) \/ maps v I b j m.
Proof.
  intros Hi Ha0 Hn Hz Hs Ho b j m. split.
  - intros (e & He & Hm & Hsl & Hb). apply lookup_insert_Some in He as [[<- <-]|[Hne He]].
    + rewrite Hs in Hsl by done. case_decide; [left; by subst|right]. by exists d.
    + rewrite (Ho j e m) in Hsl by done. right. by exists e.
  - intros [(-> & -> & ->)|(e & He & Hm & Hsl & Hb)].
    + exists d'. split_and!; [apply lookup_insert_eq|lia..| |done]. rewrite Hs by done. by rewrite decide_True.
    + destruct (decide (j = i)) as [->|Hne].
      * assert (e = d) as -> by congruence. exists d'. split_and!; [apply lookup_insert_eq|lia..| |done].
        rewrite Hs by done. rewrite decide_False; [done|]. intros ->. congruence.
      * exists e. split_and!; [by rewrite lookup_insert_ne|lia..| |done]. by rewrite (Ho j e m).
Qed.

Lemma fsinv_add v v' I i d d' n a : fsinv v I -> I !! i = Some d -> free v a -> 0 <= n <= MAXFILE -> slot v d n = 0 ->
  bitmap_ok v' -> (forall c, 0 <= c < sb_size sb -> bit v' c = if decide (c = a) then true else bit v c) ->
  dinode_ok d' -> d_type d' = d_type d -> d_size d' = d_size d ->
  (forall m, 0 <= m <= MAXFILE -> slot v' d' m = if decide (m = n) then a else slot v d m) ->
  (forall j e m, j <> i -> I !! j = Some e -> slot v' e m = slot v e m) ->
  fsinv v' (<[i := d']> I).
Proof.
  intros HF Hi Ha Hn Hz Hbm Hbits Hok Hty Hsz Hs Ho. pose proof (free_data sb v a (fi_bitmap v I HF) Ha) as Hda.
  pose proof (datastart_pos sb Hsb) as Hpos.
  assert (Hmaps : forall b j m, maps v' (<[i := d']> I) b j m <-> (b = a /\ j = i /\ m = n) \/ maps v I b j m)
    by (eapply maps_add; eauto; lia).
  split.
  - done.
  - intros j e. rewrite lookup_insert_Some. intros [[<- <-]|[_ He]]; [|by eapply fi_inode].
    rewrite Hty. split_and!; [by apply (fi_inode v I HF i d Hi)..|done|by apply (fi_inode v I HF i d Hi)].
  - intros b j m [(-> & _)|Hm]%Hmaps; [lia|by eapply fi_range].
  - intros b j m j' m' [(-> & -> & ->)|H1]%Hmaps [(E & -> & ->)|H2]%Hmaps; try done.
    + exfalso. eapply free_not_mapped; eauto.
    + subst. exfalso. eapply free_not_mapped; eauto.
    + by eapply fi_inj.
  - intros b Hb. rewrite Hbits by lia. case_decide as E.
    + split; [|done]. intros _. exists i, n. apply Hmaps. by left.
    + rewrite (fi_bits v I HF b Hb). split; intros (j & m & Hm); exists j, m; [apply Hmaps; by right|].
      apply Hmaps in Hm as [(-> & _)|Hm]; done.
  - intros j e. rewrite lookup_insert_Some. intros [[<- <-]|[Hne He]].
    + rewrite Hsz. destruct (fi_size v I HF i d Hi) as [Hr Hsl]. split; [done|]. intros m Hm Hlt.
      rewrite Hs by (unfold MAXFILE, NDIRECT, NINDIRECT, BSIZE in *; lia). case_decide; [lia|by apply Hsl].
    + destruct (fi_size v I HF j e He) as [Hr Hsl]. split; [done|]. intros m Hm Hlt. rewrite (Ho j e m) by done. by apply Hsl.
Qed.

Lemma slot_none v d n : d_addrs d = replicate 13 0 -> 0 <= n -> slot v d n = 0.
Proof.
  intros Ha Hn. assert (Hz : forall k, 0 <= k < 13 -> zget (d_addrs d) k = 0).
  { intros k Hk. unfold zget. rewrite Ha, zlookup_to_nat by lia. by rewrite lookup_replicate_2 by lia. }
  unfold slot, ind, NDIRECT. rewrite (Hz 12) by lia. destruct (Z.ltb_spec n 12); [apply Hz; lia|]. by destruct (n =? MAXFILE).
Qed.

(** Inode [i] gives up all its blocks. *)
Lemma fsinv_clear v v' I i d d' : fsinv v I -> I !! i = Some d ->
  bitmap_ok v' -> (forall c, datastart sb <= c < sb_size sb ->
    bit v' c = true <-> bit v c = true /\ forall n, 0 <= n <= MAXFILE -> slot v d n <> c) ->
  (forall j e, I !! j = Some e -> ind e <> 0 -> blk v' (ind e) = blk v (ind e)) ->
  dinode_ok d' -> d_type d' <> 0 -> d_size d' = 0 -> d_addrs d' = replicate 13 0 ->
  fsinv v' (<[i := d']> I).
Proof.
  intros HF Hi Hbm Hbits Hind Hok Hty Hsz Ha.
  assert (Hs0 : forall n, 0 <= n -> slot v' d' n = 0) by (intros; by apply slot_none).
  assert (Hmaps : forall b j m, maps v' (<[i := d']> I) b j m <-> j <> i /\ maps v I b j m).
  { intros b j m. split.
    - intros (e & He & Hm & Hsl & Hb). apply lookup_insert_Some in He as [[<- <-]|[Hne He]]; [rewrite Hs0 in Hsl by lia; congruence|].
      split; [done|]. exists e. split_and!; [done|lia..| |done]. rewrite <- Hsl. symmetry. apply slot_same; eauto.
    - intros [Hne (e & He & Hm & Hsl & Hb)]. exists e. split_and!; [by rewrite lookup_insert_ne|lia..| |done].
      rewrite <- Hsl. apply slot_same; eauto. }
  split.
  - done.
  - intros j e. rewrite lookup_insert_Some. intros [[<- <-]|[_ He]]; [|by eapply fi_inode].
    split_and!; [by apply (fi_inode v I HF i d Hi)..|done|done].
  - intros b j m [_ Hm]%Hmaps. by eapply fi_range.
  - intros b j m j' m' [_ H1]%Hmaps [_ H2]%Hmaps. by eapply fi_inj.
  - intros b Hb. rewrite Hbits, (fi_bits v I HF) by done. split.
    + intros [(j & m & Hm) Hno]. exists j, m. apply Hmaps. split; [|done]. intros ->.
      destruct Hm as (e & He & Hm & Hsl & _). eapply Hno; [exact Hm|]. congruence.
    + intros (j & m & [Hne Hm]%Hmaps). split; [eauto|]. intros n Hn Hsl.
      destruct (fi_inj v I HF b j m i n Hm) as [? _]; [|done]. exists d. split_and!; [done|lia..|done|].
      destruct Hm as (_ & _ & _ & _ & ?). done.
  - intros j e. rewrite lookup_insert_Some. intros [[<- <-]|[Hne He]].
    + rewrite Hsz. split; [done|]. intros m Hm Hlt. unfold BSIZE in *. lia.
    + destruct (fi_size v I HF j e He) as [Hr Hsl]. split; [done|]. intros m Hm Hlt.
      rewrite (slot_same v v' e e m); eauto.
Qed.

(** The fields of an inode other than its addresses change. *)
Lemma fsinv_set v I i d d' : fsinv v I -> I !! i = Some d -> d_addrs d' = d_addrs d -> dinode_ok d' -> d_type d' <> 0 ->
  0 <= d_size d' <= MAXFILE * BSIZE -> (forall n, 0 <= n -> n * BSIZE < d_size d' -> slot v d n <> 0) ->
  fsinv v (<[i := d']> I).
Proof.
  intros HF Hi Ha Hok Hty Hsz Hsl. assert (Hs : forall n, slot v d' n = slot v d n) by (intros n; by apply slot_same).
  assert (Hmaps : forall b j m, maps v (<[i := d']> I) b j m <-> maps v I b j m).
  { intros b j m. split; intros (e & He & Hm & Hb & Hne).
    - apply lookup_insert_Some in He as [[<- <-]|[_ He]]; [|by exists e]. exists d. by rewrite <- Hs.
    - destruct (decide (j = i)) as [->|Hji]; [|exists e; by rewrite lookup_insert_ne].
      exists d'. rewrite lookup_insert_eq, Hs. assert (e = d) as -> by congruence. done. }
  split.
  - apply HF.
  - intros j e. rewrite lookup_insert_Some. intros [[<- <-]|[_ He]]; [|by eapply fi_inode].
    split_and!; [by apply (fi_inode v I HF i d Hi)..|done|done].
  - intros b j m Hm%Hmaps. by eapply fi_range.
  - intros b j m j' m' H1%Hmaps H2%Hmaps. by eapply fi_inj.
  - intros b Hb. rewrite (fi_bits v I HF) by done. by setoid_rewrite Hmaps.
  - intros j e. rewrite lookup_insert_Some. intros [[<- <-]|[_ He]]; [|by eapply fi_size].
    split; [done|]. intros n Hn Hlt. rewrite Hs. by apply Hsl.
Qed.

(** An inode without blocks comes or goes. *)
Lemma fsinv_none v I I' i : fsinv v I ->
  (forall d n, I !! i = Some d -> 0 <= n -> slot v d n = 0) ->
  (forall d, I' !! i = Some d -> 0 < i < sb_ninodes sb /\ dinode_ok d /\ d_type d <> 0 /\ d_size d = 0 /\
    forall n, 0 <= n -> slot v d n = 0) ->
  (forall j, j <> i -> I' !! j = I !! j) -> fsinv v I'.
Proof.
  intros HF Ho Hn Hj.
  assert (Hmaps : forall b j m, maps v I' b j m <-> maps v I b j m).
  { intros b j m. split; intros (e & He & Hm & Hb & Hne); (destruct (decide (j = i)) as [->|Hji]; [exfalso|exists e]).
    - apply Hn in He as (_ & _ & _ & _ & He). rewrite He in Hb by lia. congruence.
    - by rewrite <- Hj.
    - rewrite (Ho e m He) in Hb by lia. congruence.
    - by rewrite Hj. }
  split.
  - apply HF.
  - intros j e He. destruct (decide (j = i)) as [->|Hji]; [by apply Hn in He as (? & ? & ? & _)|].
    rewrite Hj in He by done. by eapply fi_inode.
  - intros b j m Hm%Hmaps. by eapply fi_range.
  - intros b j m j' m' H1%Hmaps H2%Hmaps. by eapply fi_inj.
  - intros b Hb. rewrite (fi_bits v I HF) by done. by setoid_rewrite Hmaps.
  - intros j e He. destruct (decide (j = i)) as [->|Hji].
    + apply Hn in He as (_ & _ & _ & -> & _). split; [done|]. intros n Hn' Hlt. unfold BSIZE in *. lia.
    + rewrite Hj in He by done. by eapply fi_size.
Qed.
End invariant.
