(* ===== verification/FsData.v ===== *)
(** * The contents of files

    bmap and readi of fs.c: the bytes of a file are spread over the blocks that its inode
    lists.  Reading delivers them; finding the block for a write takes a new one where the
    file has none, and stays within the space a system call has in the log. *)

From S2P Require Import Prelude Bytes Blocks Fs FsBlocks FsInode.
From stdpp Require Import gmap.
#[local] Open Scope Z_scope.

(** ** Free blocks and log space *)

Section measures.
Context (sb : superblock).
Implicit Types (v : view) (d : dinode) (I : gmap Z dinode) (a b c i n : Z).
Abbreviation bit := (bit sb).
Abbreviation free := (free sb).
Abbreviation bitmap_ok := (bitmap_ok sb).

Definition free_set v : gset Z := filter (fun b => bit v b = false) (list_to_set (seqZ 0 (sb_size sb))).
Definition nfree v : Z := Z.of_nat (size (free_set v)).

Lemma elem_of_free_set v b : b ∈ free_set v <-> free v b.
Proof. unfold free_set, FsBlocks.free. rewrite elem_of_filter, elem_of_list_to_set, elem_of_seqZ. split; intros []; split; auto; lia. Qed.

Lemma nfree_none v : (forall b, ~ free v b) -> nfree v = 0.
Proof.
  intros H. unfold nfree. assert (free_set v = ∅) as ->; [|done]. apply set_eq. intros b.
  rewrite elem_of_free_set. split; [by intros ?%H|set_solver].
Qed.

Lemma nfree_take v v' a : free v a ->
  (forall c, 0 <= c < sb_size sb -> bit v' c = if decide (c = a) then true else bit v c) -> nfree v' = nfree v - 1.
Proof.
  intros Ha Hb. unfold nfree. assert (free_set v' = free_set v ∖ {[a]}) as ->.
  { apply set_eq. intros c. rewrite elem_of_difference, elem_of_singleton, !elem_of_free_set. unfold FsBlocks.free. split.
    - intros [Hc Hf]. rewrite Hb in Hf by done. case_decide; done.
    - intros [[Hc Hf] Hne]. split; [done|]. rewrite Hb by done. by rewrite decide_False. }
  rewrite size_difference by (intros c ->%elem_of_singleton; by apply elem_of_free_set). rewrite size_singleton.
  assert (1 <= size (free_set v))%nat; [|lia]. rewrite <- (size_singleton (C := gset Z) a).
  apply subseteq_size. intros c ->%elem_of_singleton. by apply elem_of_free_set.
Qed.

Lemma nfree_same v v' : (forall c, 0 <= c < sb_size sb -> bit v' c = bit v c) -> nfree v' = nfree v.
Proof.
  intros H. unfold nfree. do 2 f_equal. apply set_eq. intros c. rewrite !elem_of_free_set. unfold FsBlocks.free.
  split; intros [Hc Hf]; (split; [done|]); [rewrite <- H by done|rewrite H by done]; done.
Qed.

(** A file without an indirect block may need one more block. *)
Definition flag d : Z := if ind d =? 0 then 1 else 0.
Definition indset d : gset Z := if ind d =? 0 then ∅ else {[ind d]}.

(** The blocks of the log that a write to file [i] takes, data blocks apart. *)
Definition base v i d : gset Z := vlog v ∪ bmaps sb ∪ {[IBLOCK sb i]} ∪ indset d.
Definition Phi v i d : Z := Z.of_nat (size (base v i d)) + flag d.
Definition PhiB v i d b : Z := Z.of_nat (size ({[b]} ∪ base v i d)) + flag d.

Lemma size_add (X : gset Z) b : Z.of_nat (size ({[b]} ∪ X)) <= Z.of_nat (size X) + 1.
Proof.
  rewrite size_union_alt, size_singleton. assert (size (X ∖ {[b]}) <= size X)%nat; [|lia]. apply subseteq_size. set_solver.
Qed.

Lemma size_sub (X Y : gset Z) : X ⊆ Y -> Z.of_nat (size X) <= Z.of_nat (size Y).
Proof. intros H. by apply inj_le, subseteq_size. Qed.

Lemma budget_Phi v i d : budget sb v <= Phi v i d.
Proof.
  unfold budget, Phi. pose proof (size_sub (vlog v ∪ bmaps sb) (base v i d) ltac:(unfold base; set_solver)).
  unfold flag. destruct (ind d =? 0); lia.
Qed.

Lemma PhiB_le v i d b : PhiB v i d b <= Phi v i d + 1.
Proof. unfold PhiB, Phi. pose proof (size_add (base v i d) b). lia. Qed.

Lemma Phi_PhiB v i d b : Phi v i d <= PhiB v i d b.
Proof. unfold PhiB, Phi. pose proof (size_sub (base v i d) ({[b]} ∪ base v i d) ltac:(set_solver)). lia. Qed.
End measures.

(** ** Giving a file a new block *)

Section grow.
Context (sb : superblock) (Hsb : sb_ok sb).
Implicit Types (v : view) (d : dinode) (I : gmap Z dinode) (a b c i n k : Z).
Abbreviation bit := (bit sb).
Abbreviation free := (free sb).
Abbreviation bitmap_ok := (bitmap_ok sb).
Abbreviation fsinv := (fsinv sb).

Lemma blk_alloc a v n : blk (alloc sb a v) n =
  if decide (n = a) then zeros
  else if decide (n = BBLOCK sb a) then set_bit (a mod BPB) (blk v (BBLOCK sb a)) else blk v n.
Proof. unfold alloc, marked. rewrite !blk_wrote. done. Qed.

(** Blocks that are neither free nor in the bitmap. *)
Lemma blk_alloc_other a v n : free v a -> bit v n = true \/ n < sb_bmapstart sb -> n < sb_bmapstart sb \/ datastart sb <= n ->
  0 <= n -> bitmap_ok v -> blk (alloc sb a v) n = blk v n.
Proof.
  intros Ha Hn Hr H0 Hv. pose proof (free_data sb v a Hv Ha). destruct (BBLOCK_range sb Hsb a (proj1 Ha)) as (HB & _).
  rewrite blk_alloc, !decide_False; [done|lia|]. intros ->. destruct Hn as [Hn|Hn]; [|lia]. destruct Ha. congruence.
Qed.

(** A mapped block keeps its contents when a free one is taken. *)
Lemma blk_alloc_mapped a v I b i n : fsinv v I -> free v a -> maps v I b i n -> blk (alloc sb a v) b = blk v b.
Proof.
  intros HF Ha Hm. pose proof (fi_range sb v I HF _ _ _ Hm). pose proof (datastart_pos sb Hsb).
  apply blk_alloc_other; [done|left; by eapply mapped_bit|lia|lia|apply HF].
Qed.

Definition set_addr k a d : dinode := d <| d_addrs := zupd (d_addrs d) k a |>.

Lemma set_addr_ok k a d : dinode_ok d -> is_u32 a -> dinode_ok (set_addr k a d).
Proof.
  intros [H1 H2 H3 H4 H5 H6 H7] Ha. split; cbn; try done; [by rewrite zlen_zupd|].
  unfold zupd. case_decide; [|done]. by apply Forall_insert.
Qed.

(** The slot whose address is entry [k] of the inode. *)
Definition slot_of k : Z := if k =? NDIRECT then MAXFILE else k.

Lemma slot_set_addr v v' k a d m : 0 <= k <= NDIRECT -> zlen (d_addrs d) = 13 -> zget (d_addrs d) k = 0 -> a <> 0 ->
  (k = NDIRECT -> blk v' a = zeros) -> (k <> NDIRECT -> ind d <> 0 -> blk v' (ind d) = blk v (ind d)) ->
  0 <= m <= MAXFILE -> slot v' (set_addr k a d) m = if decide (m = slot_of k) then a else slot v d m.
Proof.
  intros Hk Hl Hz Ha Hzero Hsame Hm. unfold slot_of, slot, ind, set_addr in *. cbn [d_addrs upd].
  destruct (Z.eqb_spec k NDIRECT) as [->|Hne].
  - rewrite (zget_zupd_eq _ NDIRECT) by (unfold NDIRECT; lia).
    destruct (Z.ltb_spec m NDIRECT) as [Hlt|Hge].
    + rewrite decide_False by (unfold MAXFILE, NDIRECT, NINDIRECT in *; lia). apply zget_zupd_ne. unfold NDIRECT in *. lia.
    + destruct (Z.eqb_spec m MAXFILE) as [->|Hm']; [by rewrite decide_True|]. rewrite decide_False by done.
      rewrite (proj2 (Z.eqb_neq a 0)), Hzero, Hz, Z.eqb_refl by done. 
      assert (Hb : 0 <= 4 * (m - NDIRECT) /\ 4 * (m - NDIRECT) + 4 <= 512) by (unfold MAXFILE, NDIRECT, NINDIRECT in *; lia).
      unfold fget, zeros. assert (slice (replicate 512 0) (4 * (m - NDIRECT)) (Z.of_nat 4) = replicate 4 0) as ->; [|done].
      unfold slice. rewrite drop_replicate, take_replicate. f_equal. lia.
  - rewrite (zget_zupd_ne _ k NDIRECT) by done. destruct (Z.ltb_spec m NDIRECT) as [Hlt|Hge].
    + case_decide as E; [subst; apply zget_zupd_eq; unfold NDIRECT in *; lia|by apply zget_zupd_ne].
    + rewrite decide_False by lia. destruct (m =? MAXFILE); [done|].
      destruct (Z.eqb_spec (zget (d_addrs d) NDIRECT) 0); [done|]. by rewrite Hsame.
Qed.

(** What [bmap] leaves: block [b] is block [n] of file [i], zeroed if it is new, and no
    other block of a file has changed. *)
Record bmapped v I i d v' d' n b : Prop := mkbmapped {
  bp_inv : fsinv v' (<[i := d']> I);
  bp_d : d' = d <| d_addrs := d_addrs d' |>;
  bp_held : vheld v' = vheld v;
  bp_slot : slot v' d' n = b;
  bp_nz : b <> 0;
  bp_old : forall m, 0 <= m < MAXFILE -> m <> n -> slot v' d' m = slot v d m;
  bp_new : slot v d n = 0 -> blk v' b = zeros;
  bp_same : slot v d n <> 0 -> v' = v /\ d' = d;
  bp_data : forall c j m, maps v I c j m -> m <> MAXFILE \/ j <> i -> blk v' c = blk v c;
  bp_inodes : forall c, 0 <= c < sb_bmapstart sb -> blk v' c = blk v c;
  bp_phi : PhiB sb v' i d' b <= Phi sb v i d + 1;
  bp_free : nfree sb v - flag d <= nfree sb v' - flag d' + 1 }.

Lemma free_u32 v a : bitmap_ok v -> free v a -> is_u32 a /\ a <> 0.
Proof.
  intros Hv Ha. pose proof (free_data sb v a Hv Ha). pose proof (datastart_pos sb Hsb). pose proof (so_size sb Hsb).
  unfold is_u32. lia.
Qed.

Lemma bmapped_same v I i d n : fsinv v I -> I !! i = Some d -> slot v d n <> 0 ->
  bmapped v I i d v d n (slot v d n).
Proof.
  intros HF Hi Hs. split; try done.
  - by rewrite insert_id.
  - by destruct d.
  - apply PhiB_le.
  - lia.
Qed.

(** Entry [k] of the inode gets the free block [a]. *)
Lemma add_addr v I i d k a : fsinv v I -> I !! i = Some d -> free v a -> 0 <= k <= NDIRECT -> zget (d_addrs d) k = 0 ->
  let v' := alloc sb a v in let d' := set_addr k a d in
  fsinv v' (<[i := d']> I) /\
  (forall m, 0 <= m <= MAXFILE -> slot v' d' m = if decide (m = slot_of k) then a else slot v d m).
Proof.
  intros HF Hi Ha Hk Hz v' d'. pose proof (fi_bitmap sb v I HF) as Hbm. destruct (free_u32 v a Hbm Ha) as [Hau Ha0].
  destruct (fi_inode sb v I HF i d Hi) as (_ & Hok & _).
  assert (Hs : forall m, 0 <= m <= MAXFILE -> slot v' d' m = if decide (m = slot_of k) then a else slot v d m).
  { intros m Hm. apply slot_set_addr; try done; [apply Hok| |].
    - intros _. unfold v'. rewrite blk_alloc. by rewrite decide_True.
    - intros _ Hi0. eapply blk_alloc_mapped; [done..|by apply maps_ind]. }
  split; [|done]. apply (fsinv_add sb Hsb v v' I i d d' (slot_of k) a); try done.
  - unfold slot_of. destruct (k =? NDIRECT); unfold MAXFILE, NDIRECT, NINDIRECT in *; lia.
  - unfold slot_of. destruct (Z.eqb_spec k NDIRECT) as [->|Hne]; [done|]. unfold slot.
    rewrite (proj2 (Z.ltb_lt k NDIRECT)) by lia. done.
  - by apply alloc_ok.
  - intros c Hc. by apply bit_alloc.
  - by apply set_addr_ok.
  - intros j e m Hne He. eapply (slot_other sb); [done..|]. intros b Hb. by eapply blk_alloc_mapped.
Qed.

Lemma log_alloc v a : free v a -> vlog (alloc sb a v) ∪ bmaps sb ⊆ {[a]} ∪ (vlog v ∪ bmaps sb).
Proof.
  intros [Ha _]. destruct (BBLOCK_range sb Hsb a Ha) as (_ & _ & Hin). unfold alloc, marked. cbn. set_solver.
Qed.

Lemma Phi_add a v I i d : fsinv v I -> I !! i = Some d -> ind d = 0 -> free v a ->
  Phi sb (alloc sb a v) i (set_addr NDIRECT a d) <= Phi sb v i d.
Proof.
  intros HF Hi H0 Ha. destruct (free_u32 v a (fi_bitmap sb v I HF) Ha) as [_ Ha0].
  assert (Hind1 : ind (set_addr NDIRECT a d) = a).
  { unfold ind, set_addr. cbn. apply zget_zupd_eq. destruct (fi_inode sb v I HF i d Hi) as (_ & Hok & _).
    by rewrite (dk_len d Hok). }
  unfold Phi, flag. rewrite Hind1, H0, (proj2 (Z.eqb_neq a 0)) by done. cbn [Z.eqb].
  pose proof (size_add (base sb v i d) a).
  assert (Z.of_nat (size (base sb (alloc sb a v) i (set_addr NDIRECT a d))) <= Z.of_nat (size ({[a]} ∪ base sb v i d))); [|lia].
  pose proof (log_alloc v a Ha) as Hlog. apply size_sub. unfold base, indset. rewrite Hind1, H0.
  clear -Hlog. destruct (a =? 0); cbn; set_solver.
Qed.

Lemma bmapped_direct v I i d n a : fsinv v I -> I !! i = Some d -> free v a -> 0 <= n < NDIRECT -> slot v d n = 0 ->
  bmapped v I i d (alloc sb a v) (set_addr n a d) n a.
Proof.
  intros HF Hi Ha Hn Hz. pose proof (fi_bitmap sb v I HF) as Hbm.
  assert (Hz' : zget (d_addrs d) n = 0) by (unfold slot in Hz; by rewrite (proj2 (Z.ltb_lt n NDIRECT)) in Hz by lia).
  destruct (add_addr v I i d n a HF Hi Ha ltac:(lia) Hz') as [HF' Hs].
  assert (Hso : slot_of n = n) by (unfold slot_of; by rewrite (proj2 (Z.eqb_neq n NDIRECT)) by lia). rewrite Hso in Hs.
  assert (Hind : ind (set_addr n a d) = ind d) by (unfold ind, set_addr; cbn; apply zget_zupd_ne; lia).
  assert (HM : n <= MAXFILE) by (unfold MAXFILE, NDIRECT, NINDIRECT in *; lia).
  split; try done.
  - rewrite Hs by lia. by rewrite decide_True.
  - by eapply free_u32.
  - intros m Hm Hne. rewrite Hs by lia. by rewrite decide_False.
  - intros _. rewrite blk_alloc. by rewrite decide_True.
  - intros c j m Hm _. by eapply blk_alloc_mapped.
  - intros c Hc. apply blk_alloc_other; auto; lia.
  - unfold PhiB, Phi, flag. rewrite Hind. pose proof (size_add (base sb v i d) a).
    assert (Z.of_nat (size ({[a]} ∪ base sb (alloc sb a v) i (set_addr n a d))) <=
            Z.of_nat (size ({[a]} ∪ base sb v i d))); [|lia].
    pose proof (log_alloc v a Ha) as Hlog. apply size_sub. unfold base, indset. rewrite Hind.
    clear -Hlog. set_solver.
  - unfold flag. rewrite Hind. rewrite (nfree_take sb v (alloc sb a v) a); [lia|done|]. intros c Hc. by apply bit_alloc.
Qed.

Lemma inode_block_range v I b i n : fsinv v I -> maps v I b i n -> sb_bmapstart sb <= b /\ sb_inodestart sb <= b < sb_size sb.
Proof.
  intros HF Hm. pose proof (fi_range sb v I HF _ _ _ Hm). destruct (BBLOCK_range sb Hsb 0) as (? & ? & _);
    [pose proof (so_size sb Hsb); lia|]. lia.
Qed.

Lemma mapped_block v I b i n : fsinv v I -> maps v I b i n -> vblk v !! b = Some (blk v b) /\ block_ok (blk v b).
Proof.
  intros HF Hm. destruct (inode_block_range v I b i n HF Hm) as [_ Hr].
  destruct (bm_blocks sb v (fi_bitmap sb v I HF) b Hr) as (x & Hx & Hok). by rewrite (blk_at _ _ _ Hx).
Qed.

(** Entry [k] of the indirect block gets the free block [a]. *)
Definition add_entry v d k a : view := wrote (ind d) (fput 4 (blk v (ind d)) (4 * k) a) (alloc sb a v).

Lemma slot_entry v I i d k a m : fsinv v I -> I !! i = Some d -> ind d <> 0 -> is_u32 a -> 0 <= k < NINDIRECT ->
  0 <= m <= MAXFILE -> slot (add_entry v d k a) d m = if decide (m = NDIRECT + k) then a else slot v d m.
Proof.
  intros HF Hi Hn Ha Hk Hm. pose proof (maps_ind v I i d Hi Hn) as Hmi.
  destruct (mapped_block v I _ _ _ HF Hmi) as [_ [Hl _]]. unfold slot, add_entry. rewrite blk_wrote, decide_True by done.
  destruct (Z.ltb_spec m NDIRECT); [by rewrite decide_False by lia|].
  destruct (Z.eqb_spec m MAXFILE); [by rewrite decide_False by (unfold MAXFILE in *; lia)|].
  rewrite (proj2 (Z.eqb_neq (ind d) 0)) by done. unfold MAXFILE, NINDIRECT, NDIRECT, BSIZE in *. case_decide as E.
  - subst m. replace (4 * (12 + k - 12)) with (4 * k) by lia. rewrite fget_fput_eq by lia. by apply Z.mod_small.
  - apply fget_fput_ne; lia.
Qed.

Lemma bmapped_entry v I i d k a : fsinv v I -> I !! i = Some d -> ind d <> 0 -> free v a -> 0 <= k < NINDIRECT ->
  slot v d (NDIRECT + k) = 0 -> bmapped v I i d (add_entry v d k a) d (NDIRECT + k) a.
Proof.
  intros HF Hi Hn Ha Hk Hz. pose proof (fi_bitmap sb v I HF) as Hbm. destruct (free_u32 v a Hbm Ha) as [Hau Ha0].
  pose proof (maps_ind v I i d Hi Hn) as Hmi. pose proof (fi_range sb v I HF _ _ _ Hmi) as Hir.
  destruct (mapped_block v I _ _ _ HF Hmi) as [_ Hiok]. destruct (inode_block_range v I _ _ _ HF Hmi) as [Hib _].
  assert (Hia : ind d <> a) by (intros E; eapply (free_not_mapped sb v I a); [done..|by rewrite <- E]).
  assert (Hs : forall m, 0 <= m <= MAXFILE -> slot (add_entry v d k a) d m = if decide (m = NDIRECT + k) then a else slot v d m)
    by (intros m Hm; by eapply slot_entry).
  assert (Hother : forall c, c <> ind d -> blk (add_entry v d k a) c = blk (alloc sb a v) c).
  { intros c Hc. unfold add_entry. rewrite blk_wrote. by rewrite decide_False. }
  assert (Hbits : forall c, 0 <= c < sb_size sb -> bit (add_entry v d k a) c = if decide (c = a) then true else bit v c).
  { intros c Hc. unfold add_entry. rewrite bit_wrote_data by (done || lia). by apply bit_alloc. }
  assert (HM : 0 <= NDIRECT + k < MAXFILE) by (unfold MAXFILE, NDIRECT in *; lia).
  split; try done.
  - apply (fsinv_add sb Hsb v _ I i d d (NDIRECT + k) a); try done; [lia| | |].
    + apply wrote_data_ok; [done|by apply alloc_ok|lia|]. destruct Hiok as [Hl Hb].
      split; [rewrite zlen_fput; unfold NINDIRECT, BSIZE in *; lia|by apply fput_bytes].
    + by apply (fi_inode sb v I HF i d Hi).
    + intros j e m Hne He. eapply (slot_other sb); [done..|]. intros b Hb. rewrite Hother.
      * by eapply blk_alloc_mapped.
      * intros ->. destruct (fi_inj sb v I HF _ _ _ _ _ Hb Hmi) as [? _]. done.
  - by destruct d.
  - rewrite Hs by lia. by rewrite decide_True.
  - intros m Hm Hne. rewrite Hs by lia. by rewrite decide_False.
  - intros _. rewrite Hother by done. rewrite blk_alloc. by rewrite decide_True.
  - intros c j m Hm Hne. rewrite Hother; [by eapply blk_alloc_mapped|]. intros ->.
    destruct (fi_inj sb v I HF _ _ _ _ _ Hm Hmi) as [? ?]. destruct Hne; done.
  - intros c Hc. rewrite Hother by lia. apply blk_alloc_other; auto; lia.
  - unfold PhiB, Phi. pose proof (size_add (base sb v i d) a).
    assert (Z.of_nat (size ({[a]} ∪ base sb (add_entry v d k a) i d)) <= Z.of_nat (size ({[a]} ∪ base sb v i d))); [|lia].
    pose proof (log_alloc v a Ha) as Hlog. apply size_sub. unfold base, indset. rewrite (proj2 (Z.eqb_neq (ind d) 0)) by done.
    unfold add_entry. cbn. clear -Hlog. set_solver.
  - rewrite (nfree_take sb v (add_entry v d k a) a); [lia|done|done].
Qed.

(** A new indirect block, then a block through it. *)
Lemma bmapped_indirect v I i d a v' n b : fsinv v I -> I !! i = Some d -> ind d = 0 -> free v a -> NDIRECT <= n < MAXFILE ->
  let d1 := set_addr NDIRECT a d in
  bmapped (alloc sb a v) (<[i := d1]> I) i d1 v' d1 n b -> bmapped v I i d v' d1 n b.
Proof.
  intros HF Hi Hi0 Ha Hn d1 [Hinv Hd Hh Hsl Hnz Hold Hnew Hsame Hdata Hino Hphi Hfree].
  pose proof (fi_bitmap sb v I HF) as Hbm. destruct (free_u32 v a Hbm Ha) as [Hau Ha0].
  destruct (add_addr v I i d NDIRECT a HF Hi Ha) as [HF1 Hs1]; [done|done|]. fold d1 in HF1, Hs1.
  assert (Hs1' : forall m, 0 <= m < MAXFILE -> slot (alloc sb a v) d1 m = slot v d m).
  { intros m Hm. rewrite Hs1 by lia. unfold slot_of. rewrite Z.eqb_refl. by rewrite decide_False by lia. }
  assert (Hind1 : ind d1 = a).
  { unfold ind, d1, set_addr. cbn. apply zget_zupd_eq. destruct (fi_inode sb v I HF i d Hi) as (_ & Hok & _).
    rewrite (dk_len d Hok). done. }
  assert (Hf : flag d1 = 0 /\ flag d = 1).
  { unfold flag. rewrite Hind1, Hi0. by rewrite (proj2 (Z.eqb_neq a 0)). }
  rewrite insert_insert_eq in Hinv.
  assert (HnM : 0 <= n < MAXFILE) by (unfold NDIRECT in *; lia).
  split; try done.
  - intros m Hm Hne. rewrite Hold by done. by apply Hs1'.
  - intros Hz. apply Hnew. by rewrite Hs1'.
  - intros Hz. exfalso. apply Hz. unfold slot. rewrite (proj2 (Z.ltb_ge n NDIRECT)) by lia.
    rewrite (proj2 (Z.eqb_neq n MAXFILE)) by lia. by rewrite Hi0.
  - intros c j m Hm Hne. transitivity (blk (alloc sb a v) c); [|by eapply blk_alloc_mapped].
    apply (Hdata c j m); [|done]. destruct Hm as (e & He & Hm & Hsm & Hc).
    destruct (decide (j = i)) as [->|Hji].
    + assert (e = d) as -> by congruence. exists d1. split_and!; [apply lookup_insert_eq|lia..| |done].
      rewrite Hs1'; [done|]. destruct Hne; [lia|done].
    + exists e. split_and!; [by rewrite lookup_insert_ne|lia..| |done].
      rewrite <- Hsm. eapply (slot_other sb); [done..|]. intros x Hx. by eapply blk_alloc_mapped.
  - intros c Hc. rewrite Hino by done. apply blk_alloc_other; auto; lia.
  - pose proof (Phi_add a v I i d HF Hi Hi0 Ha) as Hle. fold d1 in Hle. lia.
  - rewrite (nfree_take sb v (alloc sb a v) a) in Hfree; [lia|done|]. intros c Hc. by apply bit_alloc.
Qed.
End grow.

(** ** Running bmap *)

Section run.
Context {S : Type} {B : BlockDev S} {L : BlockLaws S B} (sb : superblock) (Hsb : sb_ok sb).
Implicit Types (s : S) (f : fs S) (v : view) (d : dinode) (e : inode) (I : gmap Z dinode) (a b c i n k ip : Z).
Abbreviation bit := (bit sb).
Abbreviation free := (free sb).
Abbreviation bitmap_ok := (bitmap_ok sb).
Abbreviation fsinv := (fsinv sb).

Lemma wp_ondev {A} (m : M S A) (Q : A -> fs S -> Prop) (E : string -> Prop) f :
  wp m (fun r s => Q r (mkfs s (icache f))) E (fdev f) -> wp (ondev m) Q E f.
Proof. unfold wp, ondev. by destruct (m (fdev f)). Qed.

(** The inode [e] of entry [ip] has the on-disk fields [d], on the device state [s]. *)
Definition put_d f ip e d s : fs S := mkfs s (zupd (icache f) ip (e <| i_d := d |>)).

Lemma zupd_zget {A} `{Inhabited A} (l : list A) k : zupd l k (zget l k) = l.
Proof.
  unfold zupd, zget, zlookup. case_decide; [|done]. destruct (l !! Z.to_nat k) as [x|] eqn:E; cbn.
  - by apply list_insert_id.
  - apply list_insert_ge. by apply lookup_ge_None.
Qed.

Lemma put_d_id f ip e : the_inode ip f = e -> put_d f ip e (i_d e) (fdev f) = f.
Proof.
  intros <-. unfold put_d, the_inode. destruct f as [s c]. cbn.
  replace ((zget c ip) <| i_d := i_d (zget c ip) |>) with (zget c ip) by (by destruct (zget c ip)). by rewrite zupd_zget.
Qed.

Lemma the_put_d f ip e d s : 0 <= ip < zlen (icache f) -> the_inode ip (put_d f ip e d s) = e <| i_d := d |>.
Proof. intros H. unfold the_inode, put_d. cbn. by apply zget_zupd_eq. Qed.

Lemma upd_d_run f ip e d s (g : dinode -> dinode) : 0 <= ip < zlen (icache f) ->
  upd_d ip g (put_d f ip e d s) = Ok tt (put_d f ip e (g d) s).
Proof.
  intros H. unfold upd_d, upd_inode, modify. rewrite the_put_d by done. unfold put_d. cbn. by rewrite zupd_zupd.
Qed.

Lemma held_ok_none v : vheld v = ∅ -> held_ok sb v.
Proof. intros H. split; rewrite H; [rewrite map_size_empty; lia|]. intros n i. by rewrite lookup_empty. Qed.

(** Taking a block, then the rest. *)
Lemma wp_balloc {A} (K : Z -> M (fs S) A) (Q : A -> fs S -> Prop) (E : string -> Prop) f v :
  bview (fdev f) v -> bitmap_ok v -> held_ok sb v -> budget sb v + 1 <= max_op ->
  (forall a s', free v a -> bview s' (alloc sb a v) -> wp (K a) Q E (mkfs s' (icache f))) ->
  (nfree sb v = 0 -> E "balloc: out of blocks") -> wp (ondev (balloc sb 1) ≫= K) Q E f.
Proof.
  intros Hs Hv Hh Hmax HK HE. apply wp_bind, wp_ondev. eapply wp_mono; [by apply (balloc_wp sb Hsb (fdev f) v)| |].
  - cbn. intros a s' (Ha & _ & Hs'). by apply HK.
  - cbn. intros msg [-> Hno]. apply HE. by apply nfree_none.
Qed.

Definition out_of_blocks v d msg : Prop := msg = "balloc: out of blocks" /\ nfree sb v < 1 + flag d.

Lemma bmap_direct f ip e v I bn :
  0 <= ip < zlen (icache f) -> the_inode ip f = e -> i_dev e = 1 -> bview (fdev f) v -> vheld v = ∅ -> fsinv v I ->
  I !! i_inum e = Some (i_d e) -> 0 <= bn < NDIRECT -> Phi sb v (i_inum e) (i_d e) + 1 <= max_op ->
  wp (bmap sb ip bn)
    (fun b f' => exists v' d' s', f' = put_d f ip e d' s' /\ bview s' v' /\
       bmapped sb v I (i_inum e) (i_d e) v' d' bn b)
    (out_of_blocks v (i_d e)) f.
Proof.
  intros Hip He Hdev Hs Hh HF Hi Hbn Hmax. pose proof (budget_Phi sb v (i_inum e) (i_d e)).
  unfold bmap. eapply wp_step_run; [reflexivity|]. rewrite He. rewrite (proj2 (Z.ltb_lt bn NDIRECT)) by lia. cbn zeta.
  assert (Hsl : slot v (i_d e) bn = zget (d_addrs (i_d e)) bn) by (unfold slot; by rewrite (proj2 (Z.ltb_lt bn NDIRECT)) by lia).
  destruct (Z.eqb_spec (zget (d_addrs (i_d e)) bn) 0) as [Hz|Hnz].
  - rewrite Hdev. apply (wp_balloc _ _ _ f v); [done|apply HF|by apply held_ok_none|lia| |].
    + intros a s' Ha Hs'. eapply wp_step_run.
      { rewrite <- (put_d_id f ip e He) at 1. by apply (upd_d_run f ip e (i_d e) s'). }
      exists (alloc sb a v), (set_addr bn a (i_d e)), s'. split_and!; [done|done|].
      by apply bmapped_direct; [..|rewrite Hsl].
    + intros Hn. split; [done|]. unfold flag. destruct (ind _ =? 0); lia.
  - exists v, (i_d e), (fdev f). split_and!; [by rewrite put_d_id|done|]. rewrite <- Hsl in Hnz |- *. by apply bmapped_same.
Qed.

Lemma wpf_bread {A} (K : nat -> M (fs S) A) (Q : A -> fs S -> Prop) (E : string -> Prop) f v n x :
  bview (fdev f) v -> vblk v !! n = Some x -> vheld v !! n = None -> (size (vheld v) <= 1)%nat ->
  (forall j s', bview s' (hold n j v) -> bdata j s' = x -> wp (K j) Q E (mkfs s' (icache f))) ->
  wp (ondev (bread 1 n) ≫= K) Q E f.
Proof.
  intros Hs Hx Hn Hh HK. apply wp_bind, wp_ondev. destruct (bread_ok (fdev f) v n x Hs Hx Hn Hh) as (j & s' & Er & Hs').
  eapply wp_run; [exact Er|]. apply HK; [done|].
  pose proof (bview_held s' _ n j Hs' (lookup_insert_eq _ _ _)) as Hd. cbn in Hd. congruence.
Qed.

Lemma wpf_log {A} (K : unit -> M (fs S) A) (Q : A -> fs S -> Prop) (E : string -> Prop) f v n j x (g : list Z -> list Z) :
  bview (fdev f) v -> vheld v !! n = Some j -> vblk v !! n = Some x ->
  Z.of_nat (size ({[n]} ∪ vlog v)) <= max_op -> block_ok (g x) ->
  (forall s', bview s' (wrote n (g x) v) -> wp (K tt) Q E (mkfs s' (icache f))) ->
  wp (ondev (bset j g;; log_write j) ≫= K) Q E f.
Proof.
  intros Hs Hn Hx Hmax Hg HK. apply wp_bind, wp_ondev. pose proof (bview_held _ _ _ _ Hs Hn) as Hd.
  rewrite Hx in Hd. injection Hd as ->.
  destruct (log_write_ok (fdev f) v n j g Hs Hn Hmax Hg) as (s' & Er & Hs'). eapply wp_run; [exact Er|]. by apply HK.
Qed.

Lemma wpf_brelse {A} (K : unit -> M (fs S) A) (Q : A -> fs S -> Prop) (E : string -> Prop) f v n j :
  bview (fdev f) v -> vheld v !! n = Some j -> (forall s', bview s' (unhold n v) -> wp (K tt) Q E (mkfs s' (icache f))) ->
  wp (ondev (brelse j) ≫= K) Q E f.
Proof.
  intros Hs Hn HK. apply wp_bind, wp_ondev. destruct (brelse_ok (fdev f) v n j Hs Hn) as (s' & Er & Hs').
  eapply wp_run; [exact Er|]. by apply HK.
Qed.

Lemma hold_size n j v : vheld v = ∅ -> (size (vheld (hold n j v)) <= 1)%nat.
Proof. intros H. cbn. rewrite H, insert_empty, map_size_singleton. lia. Qed.

Lemma bitmap_ok_hold n j v : bitmap_ok v -> bitmap_ok (hold n j v).
Proof. by intros [H1 H2]; split. Qed.

Lemma held_ok_data v I b i n j : fsinv v I -> vheld v = ∅ -> maps v I b i n -> held_ok sb (hold b j v).
Proof.
  intros HF Hh Hm. split; [by apply hold_size|]. intros m x. cbn. rewrite Hh, insert_empty.
  intros [<- _]%lookup_singleton_Some. split; [by eapply fi_range|]. exact (mapped_bit sb v I b i n HF Hm).
Qed.

Lemma bmap_entry_wp f v I i d k :
  bview (fdev f) v -> vheld v = ∅ -> fsinv v I -> I !! i = Some d -> ind d <> 0 -> 0 <= k < NINDIRECT ->
  Phi sb v i d + 1 <= max_op ->
  wp (bmap_entry sb 1 (ind d) k)
    (fun b f' => exists v' s', f' = mkfs s' (icache f) /\ bview s' v' /\ bmapped sb v I i d v' d (NDIRECT + k) b)
    (fun msg => msg = "balloc: out of blocks" /\ nfree sb v < 1) f.
Proof.
  intros Hs Hh HF Hi Hn Hk Hmax. pose proof (budget_Phi sb v i d). pose proof (maps_ind v I i d Hi Hn) as Hmi.
  destruct (mapped_block sb Hsb v I _ _ _ HF Hmi) as [Hblk Hbok].
  assert (Hsl : slot v d (NDIRECT + k) = fget 4 (blk v (ind d)) (4 * k)).
  { unfold slot. rewrite (proj2 (Z.ltb_ge _ NDIRECT)), (proj2 (Z.eqb_neq _ MAXFILE)), (proj2 (Z.eqb_neq (ind d) 0)) by (unfold MAXFILE in *; lia || done).
    f_equal. lia. }
  unfold bmap_entry. eapply wpf_bread; [done|exact Hblk|by rewrite Hh|rewrite Hh, map_size_empty; lia|].
  intros j s1 Hs1 Hd. eapply wp_step_run; [reflexivity|]. cbn [fdev]. rewrite Hd. cbn zeta. rewrite <- Hsl.
  destruct (Z.eqb_spec (slot v d (NDIRECT + k)) 0) as [Hz|Hnz].
  - apply wp_bind, (wp_balloc _ _ _ _ (hold (ind d) j v)); [done|by apply bitmap_ok_hold, HF|by apply (held_ok_data v I _ i MAXFILE)|unfold budget in *; cbn; lia| |].
    2: { intros Hn0. split; [done|]. change (nfree sb v = 0) in Hn0. lia. }
    intros a s2 Ha Hs2. change (free v a) in Ha. pose proof (bmapped_entry sb Hsb v I i d k a HF Hi Hn Ha Hk Hz) as Hbp.
    assert (Hiv : blk (alloc sb a v) (ind d) = blk v (ind d)) by by eapply blk_alloc_mapped.
    change (bview s2 (hold (ind d) j (alloc sb a v))) in Hs2.
    eapply (wpf_log _ _ _ _ _ (ind d) j (blk v (ind d))); [exact Hs2|apply lookup_insert_eq| | | |].
    + destruct (bm_blocks sb _ (alloc_ok sb Hsb a v (fi_bitmap sb v I HF) Ha) (ind d)) as (x & Hx & _).
      { by destruct (inode_block_range sb Hsb v I _ _ _ HF Hmi). }
      change (vblk (alloc sb a v) !! ind d = Some (blk v (ind d))). by rewrite <- Hiv, (blk_at _ _ _ Hx).
    + pose proof (bp_phi _ _ _ _ _ _ _ _ _ Hbp) as Hphi. unfold PhiB in Hphi.
      assert (Z.of_nat (size ({[ind d]} ∪ vlog (alloc sb a v))) <= Z.of_nat (size ({[a]} ∪ base sb (add_entry sb v d k a) i d))).
      { apply size_sub. unfold base, add_entry. cbn. clear. set_solver. }
      unfold flag in Hphi. rewrite (proj2 (Z.eqb_neq (ind d) 0)) in Hphi by done.
      change (Z.of_nat (size ({[ind d]} ∪ vlog (alloc sb a v))) <= max_op). lia.
    + destruct Hbok as [Hl Hb]. split; [rewrite zlen_fput; unfold NINDIRECT, BSIZE in *; lia|by apply fput_bytes].
    + intros s3 Hs3. apply wp_ret. eapply wpf_brelse; [exact Hs3|apply lookup_insert_eq|]. intros s4 Hs4.
      exists (add_entry sb v d k a), s4. split_and!; [done| |exact Hbp].
      rewrite unhold_wrote in Hs4; [exact Hs4|]. cbn. by rewrite Hh.
  - eapply wpf_brelse; [exact Hs1|apply lookup_insert_eq|]. intros s2 Hs2. rewrite unhold_hold in Hs2 by (by rewrite Hh).
    exists v, s2. split_and!; [done|done|]. by apply bmapped_same.
Qed.

(** A file's inode in the cache, the disk in order and no buffer in use. *)
Record open_file f ip e v I : Prop := mkopen_file {
  of_ip : 0 <= ip < zlen (icache f); of_e : the_inode ip f = e; of_dev : i_dev e = 1;
  of_view : bview (fdev f) v; of_held : vheld v = ∅; of_inv : fsinv v I;
  of_inode : I !! i_inum e = Some (i_d e) }.

Lemma bmap_wp f ip e v I bn : open_file f ip e v I -> 0 <= bn < MAXFILE -> Phi sb v (i_inum e) (i_d e) + 1 <= max_op ->
  wp (bmap sb ip bn)
    (fun b f' => exists v' d' s', f' = put_d f ip e d' s' /\ bview s' v' /\
       bmapped sb v I (i_inum e) (i_d e) v' d' bn b)
    (out_of_blocks v (i_d e)) f.
Proof.
  intros [Hip He Hdev Hs Hh HF Hi] Hbn Hmax. destruct (Z.lt_ge_cases bn NDIRECT) as [Hlt|Hge]; [apply (bmap_direct f ip e v I bn); done || lia|].
  pose proof (budget_Phi sb v (i_inum e) (i_d e)). set (i := i_inum e) in *. set (d := i_d e) in *.
  unfold bmap. eapply wp_step_run; [reflexivity|]. rewrite He, Hdev. fold d.
  rewrite (proj2 (Z.ltb_ge bn NDIRECT)), (proj2 (Z.ltb_lt (bn - NDIRECT) NINDIRECT)) by (unfold MAXFILE in *; lia). cbn zeta.
  change (zget (d_addrs d) NDIRECT) with (ind d). set (k := bn - NDIRECT).
  assert (Hk : 0 <= k < NINDIRECT) by (unfold MAXFILE in *; lia). assert (Ek : NDIRECT + k = bn) by lia.
  destruct (Z.eqb_spec (ind d) 0) as [H0|Hn0].
  - apply wp_bind, (wp_balloc _ _ _ f v); [done|apply HF|by apply held_ok_none|lia| |].
    2: { intros Hn. split; [done|]. unfold flag. rewrite H0. cbn. lia. }
    intros a s1 Ha Hs1. eapply wp_step_run.
    { rewrite <- (put_d_id f ip e He) at 1. by apply (upd_d_run f ip e d s1). }
    set (d1 := set_addr NDIRECT a d).
    destruct (add_addr sb Hsb v I i d NDIRECT a HF Hi Ha) as [HF1 _]; [done|done|]. fold d1 in HF1.
    assert (Hind : ind d1 = a).
    { unfold ind, d1, set_addr. cbn. apply zget_zupd_eq. destruct (fi_inode sb v I HF i d Hi) as (_ & Hok & _).
      by rewrite (dk_len d Hok). }
    assert (Ha0 : a <> 0) by (by eapply free_u32; [..|apply HF|]).
    assert (Hphi : Phi sb (alloc sb a v) i d1 + 1 <= max_op).
    { pose proof (Phi_add sb Hsb a v I i d HF Hi H0 Ha) as Hle. unfold d1. lia. }
    pose proof (bmap_entry_wp (put_d f ip e d1 s1) (alloc sb a v) (<[i := d1]> I) i d1 k Hs1 Hh HF1
      (lookup_insert_eq _ _ _) ltac:(by rewrite Hind) Hk Hphi) as Hw. rewrite Hind in Hw.
    apply wp_ret. eapply wp_mono; [exact Hw| |].
    + cbn. intros b f' (v' & s' & -> & Hs' & Hbp). exists v', d1, s'. split_and!; [done|done|].
      rewrite Ek in Hbp. apply (bmapped_indirect sb Hsb v I i d a); try done. lia.
    + cbn. intros msg [-> Hn]. split; [done|]. rewrite (nfree_take sb v (alloc sb a v) a) in Hn; [|done|].
      * unfold flag. rewrite H0. cbn. lia.
      * intros c Hc. apply bit_alloc; [done|apply HF|done|done].
  - apply wp_bind, wp_ret. eapply wp_mono; [by apply (bmap_entry_wp f v I i d k)| |].
    + cbn. intros b f' (v' & s' & -> & Hs' & Hbp). exists v', d, s'. rewrite Ek in Hbp. split_and!; [|done|done].
      unfold put_d. f_equal. symmetry. exact (f_equal icache (put_d_id f ip e He)).
    + cbn. intros msg [-> Hn]. split; [done|]. unfold flag. destruct (ind d =? 0); lia.
Qed.

(** Where the block exists already, bmap changes nothing. *)
Lemma bmap_read_wp f ip e v I bn : open_file f ip e v I -> 0 <= bn < MAXFILE -> slot v (i_d e) bn <> 0 ->
  wp (bmap sb ip bn)
    (fun b f' => b = slot v (i_d e) bn /\ exists s', f' = mkfs s' (icache f) /\ bview s' v) (fun _ => False) f.
Proof.
  intros [Hip He Hdev Hs Hh HF Hi] Hbn Hnz. set (d := i_d e) in *.
  unfold bmap. eapply wp_step_run; [reflexivity|]. rewrite He, Hdev. fold d. cbn zeta.
  change (zget (d_addrs d) NDIRECT) with (ind d). unfold slot in Hnz |- *.
  destruct (Z.ltb_spec bn NDIRECT) as [Hlt|Hge].
  { rewrite (proj2 (Z.eqb_neq _ 0) Hnz). split; [done|]. exists (fdev f). split; [by destruct f|done]. }
  rewrite (proj2 (Z.ltb_lt (bn - NDIRECT) NINDIRECT)) by (unfold MAXFILE in *; lia).
  rewrite (proj2 (Z.eqb_neq bn MAXFILE)) in Hnz |- * by lia.
  destruct (Z.eqb_spec (ind d) 0) as [|Hn0]; [done|].
  pose proof (maps_ind v I _ d Hi Hn0) as Hmi. destruct (mapped_block sb Hsb v I _ _ _ HF Hmi) as [Hblk _].
  apply wp_bind, wp_ret. unfold bmap_entry.
  eapply wpf_bread; [done|exact Hblk|by rewrite Hh|rewrite Hh, map_size_empty; lia|]. intros j s1 Hs1 Hd.
  eapply wp_step_run; [reflexivity|]. cbn [fdev]. rewrite Hd, (proj2 (Z.eqb_neq _ 0) Hnz).
  eapply wpf_brelse; [exact Hs1|apply lookup_insert_eq|]. intros s2 Hs2. rewrite unhold_hold in Hs2 by (by rewrite Hh).
  split; [done|]. by exists s2.
Qed.

(** ** readi *)

(** The byte of the file at offset [o]. *)
Definition fbyte v d (o : Z) : Z := zget (blk v (slot v d (o / BSIZE))) (o mod BSIZE).
Definition fbytes v d (off n : Z) : list Z := fbyte v d <$> seqZ off n.
Definition fdata v d : list Z := fbytes v d 0 (d_size d).

(** The blocks that [n] bytes at [off] touch. *)
Definition nblocks (off n : Z) : Z :=
  if n =? 0 then 0 else (off mod BSIZE + n + (BSIZE - 1)) / BSIZE.

Lemma nblocks_step off n m : 0 <= off -> m = Z.min n (BSIZE - off mod BSIZE) -> m < n ->
  (off + m) mod BSIZE = 0 /\ nblocks (off + m) (n - m) = nblocks off n - 1.
Proof.
  intros Ho -> Hm. pose proof (Z.mod_pos_bound off BSIZE ltac:(done)) as Hb. pose proof (Z.div_mod off BSIZE ltac:(done)) as Hd.
  rewrite Z.min_r in * by lia. unfold nblocks. rewrite !(proj2 (Z.eqb_neq _ 0)) by lia.
  assert (E : (off + (BSIZE - off mod BSIZE)) mod BSIZE = 0).
  { replace (off + (BSIZE - off mod BSIZE)) with ((off / BSIZE + 1) * BSIZE) by lia. by apply Z.mod_mul. }
  split; [done|]. rewrite E.
  replace (off mod BSIZE + n + (BSIZE - 1)) with (0 + (n - (BSIZE - off mod BSIZE)) + (BSIZE - 1) + 1 * BSIZE) by lia.
  rewrite Z.div_add by done. lia.
Qed.

Lemma nblocks_fuel off n : 0 <= n -> nblocks off n <= Z.of_nat (Datatypes.S (Z.to_nat (n / BSIZE + 1))).
Proof.
  intros Hn. pose proof (Z.mod_pos_bound off BSIZE ltac:(done)). pose proof (Z.div_pos n BSIZE Hn ltac:(done)).
  rewrite Nat2Z.inj_succ, Z2Nat.id by lia. unfold nblocks. destruct (n =? 0); [lia|].
  unfold BSIZE in *. Z.div_mod_to_equations. lia.
Qed.

Lemma nblocks_pos off n : 0 < n -> 1 <= nblocks off n.
Proof.
  intros Hn. pose proof (Z.mod_pos_bound off BSIZE ltac:(done)). unfold nblocks. rewrite (proj2 (Z.eqb_neq n 0)) by lia.
  unfold BSIZE in *. Z.div_mod_to_equations. lia.
Qed.

Lemma block_same off o m : 0 <= off -> m <= BSIZE - off mod BSIZE -> off <= o < off + m ->
  o / BSIZE = off / BSIZE /\ o mod BSIZE = off mod BSIZE + (o - off).
Proof.
  intros Ho Hm Hr. pose proof (Z.mod_pos_bound off BSIZE ltac:(done)). pose proof (Z.div_mod off BSIZE ltac:(done)).
  assert (Hq : o / BSIZE = off / BSIZE) by (symmetry; apply (Z.div_unique _ _ _ (o - BSIZE * (off / BSIZE))); [left|]; lia).
  split; [done|]. rewrite Z.mod_eq, Hq by done. lia.
Qed.

Lemma slice_fbytes v d off m : zlen (blk v (slot v d (off / BSIZE))) = BSIZE -> 0 <= off -> 0 <= m <= BSIZE - off mod BSIZE ->
  slice (blk v (slot v d (off / BSIZE))) (off mod BSIZE) m = fbytes v d off m.
Proof.
  intros Hl Ho Hm. pose proof (Z.mod_pos_bound off BSIZE ltac:(done)).
  assert (Hlen : zlen (fbytes v d off m) = m) by (unfold fbytes, zlen; rewrite length_fmap, length_seqZ; lia).
  apply zlist_ext'; [rewrite zlen_slice; lia|]. rewrite zlen_slice by lia. intros i Hi.
  rewrite zlookup_slice by lia. unfold fbytes. rewrite (zlookup_to_nat (_ <$> _)) by lia.
  rewrite list_lookup_fmap, lookup_seqZ_lt by lia. cbn. unfold fbyte.
  destruct (block_same off (off + i) m) as [Hq Hr]; [lia..|]. rewrite Z2Nat.id, Hq, Hr by lia.
  rewrite zlookup_zget by lia. do 2 f_equal. lia.
Qed.

Lemma seqZ_split off m n : 0 <= m <= n -> seqZ off n = seqZ off m ++ seqZ (off + m) (n - m).
Proof. intros H. rewrite <- seqZ_app by lia. f_equal. lia. Qed.

Lemma readi_loop_wp ip e v I fuel : forall f off n, open_file f ip e v I ->
  0 <= off -> 0 <= n -> off + n <= d_size (i_d e) -> (0 < n -> nblocks off n <= Z.of_nat fuel) ->
  wp (readi_loop sb fuel ip off n)
    (fun l f' => l = fbytes v (i_d e) off n /\ exists s', f' = mkfs s' (icache f) /\ bview s' v) (fun _ => False) f.
Proof.
  induction fuel as [|fuel IH]; intros f off n HO Ho Hn Hsz Hf; cbn [readi_loop].
  { assert (n = 0) as ->. { destruct (decide (n = 0)); [done|]. pose proof (nblocks_pos off n ltac:(lia)). specialize (Hf ltac:(lia)). lia. }
    split; [done|]. exists (fdev f). split; [by destruct f|apply HO]. }
  destruct (Z.leb_spec n 0) as [Hle|Hpos].
  { assert (n = 0) as -> by lia. split; [done|]. exists (fdev f). split; [by destruct f|apply HO]. }
  pose proof HO as [Hip He Hdev Hs Hh HF Hi]. set (d := i_d e) in *.
  destruct (fi_size sb v I HF _ d Hi) as [Hmax Hslots].
  assert (Hbn : 0 <= off / BSIZE < MAXFILE).
  { split; [by apply Z.div_pos|]. apply Z.div_lt_upper_bound; unfold MAXFILE, NDIRECT, NINDIRECT, BSIZE in *; lia. }
  assert (Hnz : slot v d (off / BSIZE) <> 0).
  { apply Hslots; [lia|]. pose proof (Z.mod_pos_bound off BSIZE ltac:(done)). pose proof (Z.div_mod off BSIZE ltac:(done)). lia. }
  eapply wp_step_run; [reflexivity|]. rewrite He, Hdev.
  eapply wp_step; [by apply (bmap_read_wp f ip e v I)| |done]. cbn. intros b f1 (-> & s1 & -> & Hs1). fold d.
  assert (Hm : maps v I (slot v d (off / BSIZE)) (i_inum e) (off / BSIZE)) by (exists d; split_and!; done || lia).
  destruct (mapped_block sb Hsb v I _ _ _ HF Hm) as [Hblk [Hl _]].
  eapply (wpf_bread _ _ _ (mkfs s1 (icache f)) v); [done|exact Hblk|by rewrite Hh|rewrite Hh, map_size_empty; lia|].
  intros j s2 Hs2 Hd. eapply wp_step_run; [reflexivity|]. cbn [fdev icache]. rewrite Hd.
  eapply (wpf_brelse _ _ _ (mkfs s2 (icache f)) (hold (slot v d (off / BSIZE)) j v)); [exact Hs2|apply lookup_insert_eq|].
  intros s3 Hs3. rewrite unhold_hold in Hs3 by (by rewrite Hh). cbn [icache].
  set (m := Z.min n (BSIZE - off mod BSIZE)). pose proof (Z.mod_pos_bound off BSIZE ltac:(done)).
  assert (Hmm : 0 < m <= n) by lia. rewrite u32_small by (unfold is_u32, MAXFILE, NDIRECT, NINDIRECT, BSIZE in *; lia).
  eapply wp_step; [apply IH| |done]; [by split|lia|lia|unfold d in *; lia| |].
  { intros Hlt. destruct (nblocks_step off n m) as [_ ->]; lia. }
  cbn. intros l f2 (-> & s4 & -> & Hs4). split; [|by exists s4].
  rewrite slice_fbytes by (done || lia). unfold fbytes. rewrite <- fmap_app, <- seqZ_split by lia. done.
Qed.

Lemma u32_overflow off n : is_u32 off -> is_u32 n -> (u32 (off + n) <? off) = (2 ^ 32 <=? off + n).
Proof.
  intros Ho Hn. unfold is_u32, u32 in *. destruct (Z.leb_spec (2 ^ 32) (off + n)) as [H|H].
  - apply Z.ltb_lt. replace (off + n) with (off + n - 2 ^ 32 + 1 * 2 ^ 32) by lia. rewrite Z.mod_add, Z.mod_small by lia. lia.
  - apply Z.ltb_ge. rewrite Z.mod_small; lia.
Qed.

Lemma readi_wp (devread : Z -> option (Z -> Z -> M (fs S) (option (list Z)))) f ip e v I off n : open_file f ip e v I -> d_type (i_d e) <> T_DEV -> is_u32 off -> is_u32 n ->
  wp (readi sb devread ip off n)
    (fun r f' => (exists s', f' = mkfs s' (icache f) /\ bview s' v) /\
       r = if (d_size (i_d e) <? off) || (2 ^ 32 <=? off + n) then None
           else Some (fbytes v (i_d e) off (Z.min n (d_size (i_d e) - off)))) (fun _ => False) f.
Proof.
  intros HO Hty Ho Hn. pose proof HO as [Hip He Hdev Hs Hh HF Hi]. set (d := i_d e) in *.
  destruct (fi_size sb v I HF _ d Hi) as [Hmax _].
  unfold readi. eapply wp_step_run; [reflexivity|]. rewrite He. fold d. cbn zeta.
  rewrite (proj2 (Z.eqb_neq (d_type d) T_DEV)), u32_overflow by done.
  assert (Hsame : exists s', f = mkfs s' (icache f) /\ bview s' v) by (exists (fdev f); split; [by destruct f|done]).
  destruct (Z.ltb_spec (d_size d) off) as [Hlt|Hge]; [done|]. destruct (Z.leb_spec (2 ^ 32) (off + n)) as [|Hov]; [done|].
  cbn [orb]. unfold is_u32 in *. rewrite (u32_small (off + n)) by (unfold is_u32; lia).
  assert (Hn' : (if d_size d <? off + n then d_size d - off else n) = Z.min n (d_size d - off)).
  { destruct (Z.ltb_spec (d_size d) (off + n)); lia. }
  rewrite Hn'. set (n' := Z.min n (d_size d - off)).
  eapply wp_step; [apply (readi_loop_wp ip e v I)| |done]; [done|lia|lia|unfold d in *; lia| |].
  - intros _. apply nblocks_fuel. lia.
  - cbn. intros l f' (-> & s' & -> & Hs'). split; [by exists s'|done].
Qed.

(** ** writei *)

(** The bytes [src] are at [off] of file [i], and nothing else in any file has changed;
    the rest of a new block is zero. *)
Record written v I i d v' d' off (src : list Z) : Prop := mkwritten {
  wr_inv : fsinv v' (<[i := d']> I);
  wr_d : d' = d <| d_addrs := d_addrs d' |>;
  wr_held : vheld v' = vheld v;
  wr_same : (forall o, off <= o < off + zlen src -> slot v d (o / BSIZE) <> 0) -> d' = d;
  wr_slots : forall m, 0 <= m < MAXFILE -> slot v d m <> 0 -> slot v' d' m = slot v d m;
  wr_cover : forall o, off <= o < off + zlen src -> 0 <= o / BSIZE < MAXFILE /\ slot v' d' (o / BSIZE) <> 0;
  wr_byte : forall o, 0 <= o < MAXFILE * BSIZE -> slot v' d' (o / BSIZE) <> 0 ->
    fbyte v' d' o = if decide (off <= o < off + zlen src) then zget src (o - off)
                    else if slot v d (o / BSIZE) =? 0 then 0 else fbyte v d o;
  wr_other : forall c j m, maps v I c j m -> j <> i -> blk v' c = blk v c;
  wr_inodes : forall c, 0 <= c < sb_bmapstart sb -> blk v' c = blk v c;
  wr_phi : Phi sb v' i d' <= Phi sb v i d + nblocks off (zlen src);
  wr_free : nfree sb v - flag d <= nfree sb v' - flag d' + nblocks off (zlen src) }.

(** Writing a data block of a file keeps the invariant. *)
Lemma fsinv_data v I b i n x : fsinv v I -> maps v I b i n -> n <> MAXFILE -> block_ok x -> fsinv (wrote b x v) I.
Proof.
  intros HF Hm Hn Hx. pose proof (fi_range sb v I HF _ _ _ Hm) as Hr. pose proof (datastart_pos sb Hsb).
  apply (fsinv_frame sb v); [done|apply wrote_data_ok; [done|apply HF|lia|done]| |].
  - intros c Hc. apply bit_wrote_data; [done|lia|lia].
  - intros j e He H0. rewrite blk_wrote, decide_False; [done|]. intros E.
    pose proof (maps_ind v I j e He H0) as Hmi. rewrite E in Hmi.
    destruct (fi_inj sb v I HF _ _ _ _ _ Hm Hmi) as [_ ?]. done.
Qed.

(** The blocks of the other files stay theirs. *)
Lemma maps_other v v' I i d' c j m : (forall c j m, maps v I c j m -> j <> i -> blk v' c = blk v c) ->
  maps v I c j m -> j <> i -> maps v' (<[i := d']> I) c j m.
Proof.
  intros H (e & He & Hm & Hs & Hc) Hne. exists e. split_and!; [by rewrite lookup_insert_ne|lia..| |done].
  rewrite <- Hs. apply slot_same; [done|]. intros H0. eapply H; [by apply maps_ind|done].
Qed.

Lemma nblocks_one off n : 0 < n -> off mod BSIZE + n <= BSIZE -> nblocks off n = 1.
Proof.
  intros Hn H. pose proof (Z.mod_pos_bound off BSIZE ltac:(done)). unfold nblocks. rewrite (proj2 (Z.eqb_neq n 0)) by lia.
  unfold BSIZE in *. Z.div_mod_to_equations. lia.
Qed.

(** One block: bmap, then the change of the block. *)
Section one_block.
Context (v : view) (I : gmap Z dinode) (i : Z) (d : dinode) (v1 : view) (d1 : dinode) (b off : Z) (w : list Z).
Context (HF : fsinv v I) (Hi : I !! i = Some d) (Hbp : bmapped sb v I i d v1 d1 (off / BSIZE) b).
Context (Hoff : 0 <= off / BSIZE < MAXFILE) (Hw : 0 < zlen w) (Hfit : off mod BSIZE + zlen w <= BSIZE) (Hbytes : Forall is_u8 w).
Let v2 := wrote b (splice (blk v1 b) (off mod BSIZE) w) v1.

Lemma ob_maps : maps v1 (<[i := d1]> I) b i (off / BSIZE).
Proof.
  exists d1. split_and!; [apply lookup_insert_eq|lia..|apply Hbp|apply Hbp].
Qed.

Lemma ob_block : block_ok (splice (blk v1 b) (off mod BSIZE) w).
Proof.
  destruct (mapped_block sb Hsb v1 _ b i _ (bp_inv _ _ _ _ _ _ _ _ _ Hbp) ob_maps) as [_ [Hl Hb]].
  pose proof (Z.mod_pos_bound off BSIZE ltac:(done)). split; [by rewrite zlen_splice by lia|by apply Forall_splice].
Qed.

Lemma ob_inv : fsinv v2 (<[i := d1]> I).
Proof.
  eapply fsinv_data; [by apply Hbp|apply ob_maps|lia|apply ob_block].
Qed.

(** The indirect blocks are not written. *)
Lemma ob_slot m : slot v2 d1 m = slot v1 d1 m.
Proof.
  apply slot_same; [done|]. intros H0. unfold v2. rewrite blk_wrote, decide_False; [done|]. intros E.
  pose proof (maps_ind v1 (<[i := d1]> I) i d1 (lookup_insert_eq _ _ _) H0) as Hmi. rewrite E in Hmi.
  destruct (fi_inj sb v1 _ (bp_inv _ _ _ _ _ _ _ _ _ Hbp) _ _ _ _ _ ob_maps Hmi) as [_ ?]. lia.
Qed.

Lemma ob_other c j m : maps v I c j m -> j <> i -> blk v2 c = blk v c.
Proof.
  intros Hm Hne. unfold v2. rewrite blk_wrote, decide_False; [by eapply (bp_data _ _ _ _ _ _ _ _ _ Hbp); eauto|]. intros ->.
  assert (Hm1 : maps v1 (<[i := d1]> I) b j m).
  { eapply maps_other; [|exact Hm|done]. intros c j' m' Hc Hj. eapply (bp_data _ _ _ _ _ _ _ _ _ Hbp); eauto. }
  destruct (fi_inj sb v1 _ (bp_inv _ _ _ _ _ _ _ _ _ Hbp) _ _ _ _ _ ob_maps Hm1) as [? _]. done.
Qed.

Lemma ob_byte o : 0 <= o < MAXFILE * BSIZE -> slot v2 d1 (o / BSIZE) <> 0 ->
  fbyte v2 d1 o = if decide (off <= o < off + zlen w) then zget w (o - off)
                  else if slot v d (o / BSIZE) =? 0 then 0 else fbyte v d o.
Proof.
  intros Ho Hnz. rewrite ob_slot in Hnz. unfold fbyte at 1. rewrite ob_slot.
  pose proof (Z.mod_pos_bound off BSIZE ltac:(done)) as Hmo. pose proof (Z.mod_pos_bound o BSIZE ltac:(done)) as Hm.
  pose proof (Z.div_mod off BSIZE ltac:(done)) as Doff. pose proof (Z.div_mod o BSIZE ltac:(done)) as Do.
  assert (Hq : 0 <= o / BSIZE < MAXFILE) by (split; [apply Z.div_pos; [lia|done]|apply Z.div_lt_upper_bound; [done|lia]]).
  destruct (mapped_block sb Hsb v1 _ b i _ (bp_inv _ _ _ _ _ _ _ _ _ Hbp) ob_maps) as [_ [Hl _]].
  destruct (decide (o / BSIZE = off / BSIZE)) as [E|E].
  - rewrite E in Hnz |- *. rewrite (bp_slot _ _ _ _ _ _ _ _ _ Hbp). unfold v2. rewrite blk_wrote, decide_True by done.
    unfold zget at 1. rewrite zlookup_splice by lia.
    assert (Hiff : off mod BSIZE <= o mod BSIZE < off mod BSIZE + zlen w <-> off <= o < off + zlen w) by (rewrite E in Do; lia).
    destruct (decide (off mod BSIZE <= _ < _)) as [Hin|Hout]; destruct (decide (off <= o < _)); try tauto.
    + unfold zget. do 2 f_equal. rewrite E in Do. lia.
    + destruct (Z.eqb_spec (slot v d (off / BSIZE)) 0) as [Hz|Hnz'].
      * rewrite (bp_new _ _ _ _ _ _ _ _ _ Hbp Hz). unfold zeros. rewrite zlookup_to_nat by lia.
        by rewrite lookup_replicate_2 by (unfold BSIZE in *; lia).
      * destruct (bp_same _ _ _ _ _ _ _ _ _ Hbp Hnz') as [Ev Ed]. unfold fbyte. rewrite E.
        pose proof (bp_slot _ _ _ _ _ _ _ _ _ Hbp) as Hsl. rewrite Ev, Ed in Hsl. by rewrite Hsl, Ev.
  - rewrite decide_False.
    2: { intros Hr. apply E. destruct (block_same off o (zlen w)) as [? _]; [|lia|lia|done].
         pose proof (Z.mul_nonneg_nonneg BSIZE (off / BSIZE) ltac:(done) ltac:(lia)). lia. }
    assert (Eold : slot v1 d1 (o / BSIZE) = slot v d (o / BSIZE)) by (apply (bp_old _ _ _ _ _ _ _ _ _ Hbp); done).
    rewrite Eold in Hnz |- *. rewrite (proj2 (Z.eqb_neq _ 0) Hnz).
    assert (Hmq : maps v I (slot v d (o / BSIZE)) i (o / BSIZE)) by (exists d; split_and!; done || lia).
    assert (Hbc : slot v d (o / BSIZE) <> b).
    { intros Eb. rewrite <- Eold in Eb. destruct (fi_inj sb v1 _ (bp_inv _ _ _ _ _ _ _ _ _ Hbp) b i (o / BSIZE) i (off / BSIZE)) as [_ ?]; [|apply ob_maps|done].
      exists d1. split_and!; [apply lookup_insert_eq|lia..|done|apply Hbp]. }
    unfold fbyte, v2. rewrite blk_wrote, decide_False by done.
    rewrite (bp_data _ _ _ _ _ _ _ _ _ Hbp _ i (o / BSIZE) Hmq); [done|]. left. lia.
Qed.

Lemma written_block : written v I i d v2 d1 off w.
Proof.
  pose proof (datastart_pos sb Hsb). pose proof (Z.mod_pos_bound off BSIZE ltac:(done)).
  pose proof (Z.mul_nonneg_nonneg BSIZE (off / BSIZE) ltac:(done) ltac:(lia)). pose proof (Z.div_mod off BSIZE ltac:(done)).
  pose proof (fi_range sb v1 _ (bp_inv _ _ _ _ _ _ _ _ _ Hbp) _ _ _ ob_maps) as Hbr.
  split.
  - apply ob_inv.
  - apply Hbp.
  - apply (bp_held _ _ _ _ _ _ _ _ _ Hbp).
  - intros Hall. eapply (bp_same _ _ _ _ _ _ _ _ _ Hbp). apply Hall. lia.
  - intros m Hm Hnz. rewrite ob_slot. destruct (decide (m = off / BSIZE)) as [->|Hne].
    + destruct (bp_same _ _ _ _ _ _ _ _ _ Hbp Hnz) as [-> ->]. done.
    + by apply (bp_old _ _ _ _ _ _ _ _ _ Hbp).
  - intros o Ho. destruct (block_same off o (zlen w)) as [-> _]; [lia..|]. split; [done|].
    rewrite ob_slot, (bp_slot _ _ _ _ _ _ _ _ _ Hbp). apply Hbp.
  - apply ob_byte.
  - apply ob_other.
  - intros c Hc. unfold v2. rewrite blk_wrote, decide_False; [by apply (bp_inodes _ _ _ _ _ _ _ _ _ Hbp)|].
    destruct (BBLOCK_range sb Hsb 0) as (? & _); [pose proof (so_size sb Hsb); lia|]. lia.
  - rewrite nblocks_one by done. pose proof (bp_phi _ _ _ _ _ _ _ _ _ Hbp) as Hphi. unfold PhiB in Hphi. unfold Phi at 1.
    assert (Z.of_nat (size (base sb v2 i d1)) <= Z.of_nat (size ({[b]} ∪ base sb v1 i d1))); [|lia].
    apply size_sub. unfold base, v2. cbn. clear. set_solver.
  - rewrite nblocks_one by done. pose proof (bp_free _ _ _ _ _ _ _ _ _ Hbp).
    rewrite (nfree_same sb v1 v2); [done|]. intros c Hc. unfold v2. apply bit_wrote_data; [done|lia|done].
Qed.
End one_block.

Lemma written_nil v I i d off : fsinv v I -> I !! i = Some d -> written v I i d v d off [].
Proof.
  intros HF Hi. assert (nblocks off 0 = 0) by done. split; try done; change (zlen []) with 0.
  - by rewrite insert_id.
  - by destruct d.
  - intros o Ho. lia.
  - intros o Ho Hnz. rewrite decide_False by lia. by rewrite (proj2 (Z.eqb_neq _ 0) Hnz).
  - lia.
  - lia.
Qed.

Lemma written_app v I i d v1 d1 v2 d2 off off1 w1 w2 :
  written v I i d v1 d1 off w1 -> written v1 (<[i := d1]> I) i d1 v2 d2 off1 w2 -> off1 = off + zlen w1 ->
  nblocks off (zlen w1) + nblocks off1 (zlen w2) = nblocks off (zlen (w1 ++ w2)) ->
  written v I i d v2 d2 off (w1 ++ w2).
Proof.
  intros W1 W2 -> Hnb. assert (0 <= zlen w1 /\ 0 <= zlen w2) by (unfold zlen; lia).
  pose proof (zlen_app w1 w2) as Hla. split.
  - pose proof (wr_inv _ _ _ _ _ _ _ _ W2) as Hinv. by rewrite insert_insert_eq in Hinv.
  - rewrite (wr_d _ _ _ _ _ _ _ _ W2). rewrite (wr_d _ _ _ _ _ _ _ _ W1). done.
  - rewrite (wr_held _ _ _ _ _ _ _ _ W2). apply W1.
  - intros Hall. assert (E1 : d1 = d) by (apply (wr_same _ _ _ _ _ _ _ _ W1); intros o Ho; apply Hall; lia).
    rewrite <- E1. apply (wr_same _ _ _ _ _ _ _ _ W2). intros o Ho. pose proof (Hall o ltac:(lia)) as Hnz.
    destruct (wr_cover _ _ _ _ _ _ _ _ W2 o Ho) as [Hr _]. by rewrite (wr_slots _ _ _ _ _ _ _ _ W1).
  - intros m Hm Hnz. pose proof (wr_slots _ _ _ _ _ _ _ _ W1 m Hm Hnz) as E1. rewrite <- E1.
    apply (wr_slots _ _ _ _ _ _ _ _ W2); [done|]. by rewrite E1.
  - intros o Ho. destruct (decide (off + zlen w1 <= o)); [apply (wr_cover _ _ _ _ _ _ _ _ W2); lia|].
    destruct (wr_cover _ _ _ _ _ _ _ _ W1 o ltac:(lia)) as [Hr Hc]. split; [done|].
    by rewrite (wr_slots _ _ _ _ _ _ _ _ W2).
  - intros o Ho Hnz. rewrite (wr_byte _ _ _ _ _ _ _ _ W2 o Ho Hnz).
    assert (Hq : 0 <= o / BSIZE < MAXFILE) by (split; [apply Z.div_pos; [lia|done]|apply Z.div_lt_upper_bound; [done|lia]]).
    destruct (decide (off + zlen w1 <= o < off + zlen w1 + zlen w2)) as [Hin|Hout].
    + rewrite decide_True by lia. unfold zget. rewrite !zlookup_to_nat by lia.
      rewrite lookup_app_r by (unfold zlen in *; lia). do 2 f_equal. unfold zlen in *. lia.
    + destruct (Z.eqb_spec (slot v1 d1 (o / BSIZE)) 0) as [Hz|Hnz1].
      * rewrite decide_False by (intros Hr; apply (wr_cover _ _ _ _ _ _ _ _ W1 o); [lia|done]).
        destruct (Z.eqb_spec (slot v d (o / BSIZE)) 0) as [|Hnz0]; [done|].
        rewrite (wr_slots _ _ _ _ _ _ _ _ W1) in Hz by done. done.
      * rewrite (wr_byte _ _ _ _ _ _ _ _ W1 o Ho Hnz1).
        destruct (decide (off <= o < off + zlen w1)); [|by rewrite decide_False by lia].
        rewrite decide_True by lia. unfold zget. rewrite !zlookup_to_nat by lia.
        by rewrite lookup_app_l by (unfold zlen in *; lia).
  - intros c j m Hm Hne. transitivity (blk v1 c); [|by eapply (wr_other _ _ _ _ _ _ _ _ W1)].
    eapply (wr_other _ _ _ _ _ _ _ _ W2); [|done]. eapply maps_other; [|exact Hm|done]. apply (wr_other _ _ _ _ _ _ _ _ W1).
  - intros c Hc. rewrite (wr_inodes _ _ _ _ _ _ _ _ W2) by done. by apply (wr_inodes _ _ _ _ _ _ _ _ W1).
  - pose proof (wr_phi _ _ _ _ _ _ _ _ W1). pose proof (wr_phi _ _ _ _ _ _ _ _ W2). lia.
  - pose proof (wr_free _ _ _ _ _ _ _ _ W1). pose proof (wr_free _ _ _ _ _ _ _ _ W2). lia.
Qed.

Lemma put_d_put_d f ip e d s d' s' : put_d (put_d f ip e d s) ip (e <| i_d := d |>) d' s' = put_d f ip e d' s'.
Proof. unfold put_d. cbn. by rewrite zupd_zupd. Qed.

Lemma open_put_d f ip e d s v I : 0 <= ip < zlen (icache f) -> i_dev e = 1 -> bview s v -> vheld v = ∅ -> fsinv v I ->
  I !! i_inum e = Some d -> open_file (put_d f ip e d s) ip (e <| i_d := d |>) v I.
Proof. intros. split; cbn; try done; [by rewrite zlen_zupd|by apply the_put_d]. Qed.

Definition no_room v d n msg : Prop := msg = "balloc: out of blocks" /\ nfree sb v < flag d + n.

(** bmap only fails if the block is missing. *)
Lemma bmap_room_wp f ip e v I bn : open_file f ip e v I -> 0 <= bn < MAXFILE -> Phi sb v (i_inum e) (i_d e) + 1 <= max_op ->
  wp (bmap sb ip bn)
    (fun b f' => exists v' d' s', f' = put_d f ip e d' s' /\ bview s' v' /\ bmapped sb v I (i_inum e) (i_d e) v' d' bn b)
    (fun msg => out_of_blocks v (i_d e) msg /\ slot v (i_d e) bn = 0) f.
Proof.
  intros HO Hbn Hmax. pose proof HO as [Hip He Hdev Hs Hh HF Hi]. destruct (decide (slot v (i_d e) bn = 0)) as [Hz|Hnz].
  - eapply wp_mono; [by apply (bmap_wp f ip e v I bn)|done|]. done.
  - eapply wp_mono; [by apply (bmap_read_wp f ip e v I bn)| |done]. intros b f' (-> & s' & -> & Hs'). exists v, (i_d e), s'.
    split_and!; [|done|by apply bmapped_same]. rewrite <- (put_d_id f ip e He) at 1. unfold put_d. cbn [icache]. done.
Qed.

(** One round of the loop of writei. *)
Lemma wp_write_block {A} (K : unit -> M (fs S) A) (Q : A -> fs S -> Prop) (E : string -> Prop) f ip e v I off w :
  open_file f ip e v I -> 0 <= off / BSIZE < MAXFILE -> 0 < zlen w -> off mod BSIZE + zlen w <= BSIZE -> Forall is_u8 w ->
  Phi sb v (i_inum e) (i_d e) + 1 <= max_op ->
  (forall v2 d1 s2, bview s2 v2 -> written v I (i_inum e) (i_d e) v2 d1 off w -> wp (K tt) Q E (put_d f ip e d1 s2)) ->
  (nfree sb v < flag (i_d e) + 1 -> slot v (i_d e) (off / BSIZE) = 0 -> E "balloc: out of blocks") ->
  wp (bmap sb ip (off / BSIZE) ≫= fun b => ondev (bread 1 b) ≫= fun bp =>
      ondev (bset bp (fun x => splice x (off mod BSIZE) w);; log_write bp) ≫= fun _ => ondev (brelse bp) ≫= K) Q E f.
Proof.
  intros HO Hbn Hpos Hfit Hw Hmax HK HE. pose proof HO as [Hip He Hdev Hs Hh HF Hi].
  set (d := i_d e) in *. set (i := i_inum e) in *. pose proof (Z.mod_pos_bound off BSIZE ltac:(done)) as Hmod.
  eapply wp_step; [by apply (bmap_room_wp f ip e v I)| |].
  2: { intros msg [[-> Hn] Hz]. apply HE; [fold d in Hn; lia|done]. }
  cbn. fold d i. intros b f1 (v1 & d1 & s1 & -> & Hs1 & Hbp).
  destruct (mapped_block sb Hsb v1 _ b i (off / BSIZE) (bp_inv _ _ _ _ _ _ _ _ _ Hbp)) as [Hblk [Hl Hbb]].
  { exists d1. split_and!; [apply lookup_insert_eq|lia..|apply Hbp|apply Hbp]. }
  assert (Hh1 : vheld v1 = ∅) by (by rewrite (bp_held _ _ _ _ _ _ _ _ _ Hbp)).
  eapply (wpf_bread _ _ _ (put_d f ip e d1 s1) v1); [done|exact Hblk|by rewrite Hh1|rewrite Hh1, map_size_empty; lia|].
  intros j s2 Hs2 Hd. eapply (wpf_log _ _ _ _ (hold b j v1) b j (blk v1 b)); [exact Hs2|apply lookup_insert_eq|exact Hblk| | |].
  { pose proof (bp_phi _ _ _ _ _ _ _ _ _ Hbp) as Hphi. unfold PhiB in Hphi.
    pose proof (size_sub ({[b]} ∪ vlog v1) ({[b]} ∪ base sb v1 i d1) ltac:(unfold base; clear; set_solver)).
    assert (0 <= flag d1) by (unfold flag; destruct (ind d1 =? 0); lia).
    change (vlog (hold b j v1)) with (vlog v1). lia. }
  { split; [rewrite zlen_splice; [done|lia|]; lia|by apply Forall_splice]. }
  intros s3 Hs3. eapply (wpf_brelse _ _ _ _ _ b j); [exact Hs3|apply lookup_insert_eq|]. intros s4 Hs4.
  rewrite unhold_wrote in Hs4 by (by rewrite Hh1). eapply HK; [exact Hs4|]. by apply written_block.
Qed.

Lemma writei_loop_wp ip fuel : forall f e v I off src, open_file f ip e v I ->
  0 <= off -> off + zlen src <= MAXFILE * BSIZE -> Forall is_u8 src ->
  (0 < zlen src -> nblocks off (zlen src) <= Z.of_nat fuel) ->
  (0 < zlen src -> Phi sb v (i_inum e) (i_d e) + nblocks off (zlen src) <= max_op) ->
  wp (writei_loop sb fuel ip src off)
    (fun r f' => r = off + zlen src /\ exists v' d' s', f' = put_d f ip e d' s' /\ bview s' v' /\
       written v I (i_inum e) (i_d e) v' d' off src)
    (fun msg => no_room v (i_d e) (nblocks off (zlen src)) msg /\ d_size (i_d e) < off + zlen src) f.
Proof.
  induction fuel as [|fuel IH]; intros f e v I off src HO Ho Hend Hsrc Hf Hmax; cbn [writei_loop];
    assert (Hlen : 0 <= zlen src) by (unfold zlen; lia).
  { destruct (decide (zlen src = 0)) as [Hz|Hz]; [|pose proof (nblocks_pos off (zlen src)); lia].
    assert (src = []) as -> by (destruct src; [done|unfold zlen in Hz; cbn in Hz; lia]). pose proof HO as [? He ? ? ? ? ?].
    split; [change (zlen []) with 0; lia|]. exists v, (i_d e), (fdev f). split_and!; [by rewrite put_d_id|done|by apply written_nil]. }
  destruct (Z.leb_spec (zlen src) 0) as [Hle|Hpos].
  { assert (src = []) as -> by (destruct src; [done|unfold zlen in Hle; cbn in Hle; lia]). pose proof HO as [? He ? ? ? ? ?].
    split; [change (zlen []) with 0; lia|]. exists v, (i_d e), (fdev f). split_and!; [by rewrite put_d_id|done|by apply written_nil]. }
  pose proof HO as [Hip He Hdev Hs Hh HF Hi]. set (d := i_d e) in *. set (i := i_inum e) in *. set (n := zlen src) in *.
  pose proof (nblocks_pos off n Hpos) as Hnb. specialize (Hf Hpos). specialize (Hmax Hpos).
  pose proof (Z.mod_pos_bound off BSIZE ltac:(done)) as Hmod.
  assert (Hbn : 0 <= off / BSIZE < MAXFILE).
  { split; [by apply Z.div_pos|]. apply Z.div_lt_upper_bound; [done|lia]. }
  eapply wp_step_run; [reflexivity|]. rewrite He, Hdev.
  set (m := Z.min n (BSIZE - off mod BSIZE)). set (w := take (Z.to_nat m) src).
  assert (Hwl : zlen w = m) by (unfold w, zlen, n, zlen in *; rewrite length_take; lia).
  apply (wp_write_block _ _ _ f ip e v I); [done|done|lia|lia|by apply Forall_take|fold d i; lia| |].
  2: { intros Hn Hz. split; [split; [done|]; fold d in Hn; lia|]. fold d in Hz |- *. destruct (fi_size sb v I HF i d Hi) as [_ Hsl].
       destruct (Z.lt_ge_cases (off / BSIZE * BSIZE) (d_size d)) as [Hlt|Hge]; [by destruct (Hsl (off / BSIZE)); [lia|..]|].
       pose proof (Z.div_mod off BSIZE ltac:(done)). lia. }
  fold d i. intros v2 d1 s4 Hs4 W.
  rewrite u32_small by (unfold is_u32, MAXFILE, NDIRECT, NINDIRECT, BSIZE in *; lia).
  assert (Hdrop : zlen (drop (Z.to_nat m) src) = n - m) by (unfold n, zlen in *; rewrite length_drop; lia).
  assert (Hsplit : nblocks off (zlen w) = 1) by (apply nblocks_one; lia).
  assert (Hnext : nblocks (off + m) (n - m) = nblocks off n - 1).
  { destruct (decide (m < n)); [by apply nblocks_step|]. replace (n - m) with 0 by lia. rewrite (nblocks_one off n); [done|lia..]. }
  pose proof (wr_phi _ _ _ _ _ _ _ _ W) as Hphi. pose proof (wr_free _ _ _ _ _ _ _ _ W) as Hfree.
  eapply wp_mono; [apply (IH (put_d f ip e d1 s4) (e <| i_d := d1 |>) v2 (<[i := d1]> I))|..]; rewrite ?Hdrop.
  - apply open_put_d; try done; [by rewrite (wr_held _ _ _ _ _ _ _ _ W)|apply W|apply lookup_insert_eq].
  - lia.
  - lia.
  - by apply Forall_drop.
  - lia.
  - cbn. fold i. lia.
  - cbn. fold i. intros r f' (-> & v' & d' & s' & -> & Hs' & W'). split; [lia|]. exists v', d', s'.
    split_and!; [apply put_d_put_d|done|]. rewrite <- (take_drop (Z.to_nat m) src). fold w.
    eapply written_app; [exact W|exact W'|lia|]. unfold w. rewrite take_drop, Hdrop. fold w n. lia.
  - cbn. intros msg [[-> Hn] Hsz]. rewrite (f_equal d_size (wr_d _ _ _ _ _ _ _ _ W)) in Hsz. split; [split; [done|]; lia|cbn in Hsz; lia].
Qed.
End run.
