(* ===== verification/FsWrite.v ===== *)
(** * Writing files

    writei, itrunc and iput of fs.c in full: the data blocks together with the inode on
    the disk. *)

From S2P Require Import Prelude Bytes Blocks Fs FsBlocks FsInode FsData.
From stdpp Require Import gmap.
#[local] Open Scope Z_scope.

(** ** Inode blocks *)

Section inode_blocks.
Context (sb : superblock) (Hsb : sb_ok sb).
Implicit Types (v : view) (d : dinode) (I : gmap Z dinode) (b c i j n : Z) (X : gset Z).

Lemma IBLOCK_range i : 0 <= i < sb_ninodes sb -> sb_inodestart sb <= IBLOCK sb i < sb_bmapstart sb.
Proof.
  intros Hi. pose proof (so_bstart sb Hsb). unfold IBLOCK.
  assert (0 <= i / IPB <= (sb_ninodes sb - 1) / IPB) by (split; [apply Z.div_pos|apply Z.div_le_mono]; unfold IPB; lia). lia.
Qed.

Lemma bit_wrote_inode n x v b : n < sb_bmapstart sb -> 0 <= b < sb_size sb -> bit sb (wrote n x v) b = bit sb v b.
Proof.
  intros Hn Hb. unfold bit. rewrite blk_wrote. destruct (BBLOCK_range sb Hsb b Hb) as (Hr & _). by rewrite decide_False by lia.
Qed.

(** Writing a block of inodes keeps the invariant. *)
Lemma fsinv_inode v I n x : fsinv sb v I -> n < sb_bmapstart sb -> block_ok x -> fsinv sb (wrote n x v) I.
Proof.
  intros HF Hn Hx. pose proof (datastart_pos sb Hsb). destruct (BBLOCK_range sb Hsb 0) as (Hr & _); [pose proof (so_size sb Hsb); lia|].
  apply (fsinv_frame sb v); [done| | |].
  - split; [apply blocks_wrote; [apply HF|done]|]. intros b Hb. pose proof (so_data sb Hsb).
    rewrite bit_wrote_inode by lia. by apply (bm_meta sb v (fi_bitmap sb v I HF)).
  - intros c Hc. apply bit_wrote_inode; lia.
  - intros j e He H0. rewrite blk_wrote, decide_False; [done|]. pose proof (fi_range sb v I HF _ _ _ (maps_ind v I j e He H0)). lia.
Qed.

(** Inode [i] on the disk becomes [d]. *)
Definition iwrote i d v : view := wrote (IBLOCK sb i) (write_dinode (i mod IPB * 64) d (blk v (IBLOCK sb i))) v.

Lemma inode_offset i : 0 <= i mod IPB * 64 /\ i mod IPB * 64 + 64 <= BSIZE.
Proof. pose proof (Z.mod_pos_bound i IPB ltac:(done)). unfold IPB, BSIZE in *. lia. Qed.

Lemma inode_blk v I i : fsinv sb v I -> 0 <= i < sb_ninodes sb ->
  vblk v !! IBLOCK sb i = Some (blk v (IBLOCK sb i)) /\ block_ok (blk v (IBLOCK sb i)).
Proof.
  intros HF Hi. pose proof (IBLOCK_range i Hi). destruct (BBLOCK_range sb Hsb 0) as (Hr & Hr' & _); [pose proof (so_size sb Hsb); lia|].
  destruct (bm_blocks sb v (fi_bitmap sb v I HF) (IBLOCK sb i)) as (x & Hx & Hok); [pose proof (so_data sb Hsb); lia|].
  by rewrite (blk_at _ _ _ Hx).
Qed.

Lemma iwrote_block v I i d : fsinv sb v I -> 0 <= i < sb_ninodes sb -> dinode_ok d ->
  block_ok (write_dinode (i mod IPB * 64) d (blk v (IBLOCK sb i))).
Proof.
  intros HF Hi Hd. destruct (inode_blk v I i HF Hi) as [_ Hb]. destruct (inode_offset i).
  by apply write_dinode_ok.
Qed.

Lemma dinode_at_iwrote v I i j d : fsinv sb v I -> 0 <= i < sb_ninodes sb -> 0 <= j -> dinode_ok d ->
  dinode_at sb (iwrote i d v) j = if decide (j = i) then d else dinode_at sb v j.
Proof.
  intros HF Hi Hj Hd. destruct (inode_blk v I i HF Hi) as [_ Hb]. destruct (inode_offset i), (inode_offset j).
  destruct (write_dinode_ok (i mod IPB * 64) d (blk v (IBLOCK sb i))) as (_ & Hsame & Hother); [done..|].
  unfold dinode_at, iwrote. rewrite blk_wrote. destruct (decide (j = i)) as [->|Hne]; [by rewrite decide_True|].
  destruct (decide (IBLOCK sb j = IBLOCK sb i)) as [E|E]; [|done]. rewrite Hother, E; [done|done|done|].
  unfold IBLOCK in E. pose proof (Z.div_mod i IPB ltac:(done)). pose proof (Z.div_mod j IPB ltac:(done)).
  assert (i mod IPB <> j mod IPB) by (intros E'; apply Hne; lia). lia.
Qed.

Lemma synced_iwrote v I i d X : fsinv sb v I -> I !! i = Some d -> synced sb v I X ->
  synced sb (iwrote i d v) I (X ∖ {[i]}).
Proof.
  intros HF Hi Hsy j Hj HX. destruct (fi_inode sb v I HF i d Hi) as (Hr & Hok & _).
  rewrite (dinode_at_iwrote v I i j d) by (done || lia). destruct (decide (j = i)) as [->|Hne]; [by rewrite Hi|].
  apply Hsy; [done|]. set_solver.
Qed.

(** Only the blocks of inodes matter. *)
Lemma synced_frame v v' I X : synced sb v I X -> (forall c, 0 <= c < sb_bmapstart sb -> blk v' c = blk v c) -> synced sb v' I X.
Proof.
  intros H Hb i Hi HX. specialize (H i Hi HX). pose proof (IBLOCK_range i ltac:(lia)). pose proof (so_istart sb Hsb).
  unfold dinode_at in *. by rewrite Hb by lia.
Qed.

Lemma synced_dirty v I i d X : synced sb v I X -> synced sb v (<[i := d]> I) (X ∪ {[i]}).
Proof.
  intros H j Hj HX. rewrite not_elem_of_union, not_elem_of_singleton in HX. rewrite lookup_insert_ne by (by intros ->; tauto). apply H; tauto.
Qed.

Lemma synced_mono v I X Y : X ⊆ Y -> synced sb v I X -> synced sb v I Y.
Proof. intros HXY H i Hi HX. apply H; [done|set_solver]. Qed.
End inode_blocks.

(** ** iupdate and writei *)

Section run.
Context {S : Type} {B : BlockDev S} {L : BlockLaws S B} (sb : superblock) (Hsb : sb_ok sb).
Implicit Types (s : S) (f : fs S) (v : view) (d : dinode) (e : inode) (I : gmap Z dinode) (i n k ip : Z) (X : gset Z).
Abbreviation fsinv := (fsinv sb).
Abbreviation synced := (synced sb).
Abbreviation open_file := (open_file sb).

(** iupdate writes whatever the inode in memory has. *)
Lemma iupdate_gen f ip e v I : the_inode ip f = e -> i_dev e = 1 -> bview (fdev f) v -> vheld v = ∅ -> fsinv v I ->
  0 < i_inum e < sb_ninodes sb -> dinode_ok (i_d e) -> Z.of_nat (size ({[IBLOCK sb (i_inum e)]} ∪ vlog v)) <= max_op ->
  wp (iupdate sb ip) (fun _ f' => exists s', f' = mkfs s' (icache f) /\ bview s' (iwrote sb (i_inum e) (i_d e) v))
    (fun _ => False) f.
Proof.
  intros He Hdev Hs Hh HF Hr Hok Hmax.
  destruct (inode_blk sb Hsb v I (i_inum e) HF ltac:(lia)) as [Hblk _].
  unfold iupdate. eapply wp_step_run; [reflexivity|]. rewrite He, Hdev.
  eapply wpf_bread; [done|exact Hblk|by rewrite Hh|rewrite Hh, map_size_empty; lia|]. intros j s1 Hs1 Hd.
  eapply (wpf_log _ _ _ _ (hold (IBLOCK sb (i_inum e)) j v)); [exact Hs1|apply lookup_insert_eq|exact Hblk|done| |].
  { apply (iwrote_block sb Hsb v I); [done|lia|done]. }
  intros s2 Hs2. apply wp_ondev. cbn [fdev icache].
  destruct (brelse_ok s2 _ _ j Hs2 (lookup_insert_eq _ _ _)) as (s3 & Er & Hs3).
  rewrite unhold_wrote in Hs3 by (by rewrite Hh). eapply wp_run; [exact Er|]. by exists s3.
Qed.

Lemma iupdate_wp f ip e v I : open_file f ip e v I -> Z.of_nat (size ({[IBLOCK sb (i_inum e)]} ∪ vlog v)) <= max_op ->
  wp (iupdate sb ip) (fun _ f' => exists s', f' = mkfs s' (icache f) /\ bview s' (iwrote sb (i_inum e) (i_d e) v))
    (fun _ => False) f.
Proof.
  intros [Hip He Hdev Hs Hh HF Hi] Hmax. destruct (fi_inode sb v I HF _ _ Hi) as (Hr & Hok & _).
  by apply (iupdate_gen f ip e v I).
Qed.

(** The contents of a file do not depend on the blocks of inodes. *)
Lemma fbyte_frame v v' d o : (forall m, 0 <= m -> slot v d m <> 0 -> blk v' (slot v d m) = blk v (slot v d m)) ->
  (ind d <> 0 -> blk v' (ind d) = blk v (ind d)) -> 0 <= o -> slot v d (o / BSIZE) <> 0 -> fbyte v' d o = fbyte v d o.
Proof.
  intros Hm Hind Ho Hnz. unfold fbyte. rewrite (slot_same v v' d d) by done. rewrite Hm; [done|by apply Z.div_pos|done].
Qed.

Lemma fdata_frame v v' I j d : fsinv v I -> I !! j = Some d ->
  (forall c m, maps v I c j m -> blk v' c = blk v c) -> fdata v' d = fdata v d.
Proof.
  intros HF Hj Hb. unfold fdata, fbytes. apply list_fmap_ext. intros k o [-> Hk]%lookup_seqZ.
  destruct (fi_size sb v I HF j d Hj) as [Hmax Hsl].
  assert (Hq : 0 <= Z.of_nat k / BSIZE < MAXFILE).
  { split; [apply Z.div_pos; [lia|done]|apply Z.div_lt_upper_bound; [done|lia]]. }
  assert (Hnz : slot v d (Z.of_nat k / BSIZE) <> 0).
  { apply Hsl; [lia|]. pose proof (Z.mod_pos_bound (Z.of_nat k) BSIZE ltac:(done)). pose proof (Z.div_mod (Z.of_nat k) BSIZE ltac:(done)). lia. }
  unfold fbyte. rewrite !Z.add_0_l, (slot_same v v' d d); [|done|].
  - rewrite (Hb _ (Z.of_nat k / BSIZE)); [done|]. exists d. split_and!; done || lia.
  - intros H0. apply (Hb _ MAXFILE). by apply maps_ind.
Qed.

Lemma zlen_fbytes v d off n : 0 <= n -> zlen (fbytes v d off n) = n.
Proof. intros H. unfold zlen, fbytes. rewrite length_fmap, length_seqZ. lia. Qed.

Lemma zlookup_fbytes v d off n k : 0 <= k < n -> zlookup (fbytes v d off n) k = Some (fbyte v d (off + k)).
Proof.
  intros Hk. rewrite zlookup_to_nat by lia. unfold fbytes. rewrite list_lookup_fmap, lookup_seqZ_lt by lia.
  cbn. do 2 f_equal. lia.
Qed.

Lemma written_fdata v I i d v' d' off src : fsinv v I -> I !! i = Some d -> written sb v I i d v' d' off src ->
  0 <= off <= d_size d -> off + zlen src <= MAXFILE * BSIZE ->
  fdata v' (d' <| d_size := Z.max (d_size d) (off + zlen src) |>) = splice (fdata v d) off src.
Proof.
  intros HF Hi W Ho Hend. assert (0 <= zlen src) by (unfold zlen; lia).
  destruct (fi_size sb v I HF i d Hi) as [Hmax Hsl]. set (d2 := d' <| d_size := _ |>).
  assert (Hl : zlen (fdata v d) = d_size d) by (apply zlen_fbytes; lia).
  assert (Hs2 : forall m, slot v' d2 m = slot v' d' m) by (intros m; by apply slot_same).
  unfold fdata at 1. change (d_size d2) with (Z.max (d_size d) (off + zlen src)).
  apply zlist_ext'; [rewrite zlen_splice_ext, zlen_fbytes; lia|]. rewrite zlen_fbytes by lia. intros o Hor.
  rewrite zlookup_fbytes, zlookup_splice_ext by lia. rewrite Z.add_0_l. unfold fbyte. rewrite Hs2. fold (fbyte v' d' o).
  assert (Hq : 0 <= o / BSIZE < MAXFILE).
  { split; [apply Z.div_pos; [lia|done]|apply Z.div_lt_upper_bound; [done|lia]]. }
  assert (Hold : o < d_size d -> slot v d (o / BSIZE) <> 0).
  { intros Hlt. apply Hsl; [lia|]. pose proof (Z.mod_pos_bound o BSIZE ltac:(done)). pose proof (Z.div_mod o BSIZE ltac:(done)). lia. }
  assert (Hnz : slot v' d' (o / BSIZE) <> 0).
  { destruct (decide (off <= o < off + zlen src)) as [Hin|Hout]; [by apply (wr_cover _ _ _ _ _ _ _ _ _ W)|].
    rewrite (wr_slots _ _ _ _ _ _ _ _ _ W); [apply Hold; lia|done|apply Hold; lia]. }
  rewrite (wr_byte _ _ _ _ _ _ _ _ _ W) by (done || lia). case_decide; [by rewrite zlookup_zget by lia|].
  rewrite (proj2 (Z.eqb_neq _ 0)) by (apply Hold; lia). unfold fdata. rewrite zlookup_fbytes by lia. by rewrite Z.add_0_l.
Qed.

(** What a call of writei does to the file system. *)
Record wrote_file v I i d v' d' off (src : list Z) : Prop := mkwrote_file {
  wf_inv : fsinv v' (<[i := d']> I);
  wf_held : vheld v' = vheld v;
  wf_sync : forall X, synced v I X -> synced v' (<[i := d']> I) X;
  wf_meta : d' = d <| d_size := Z.max (d_size d) (off + zlen src) |> <| d_addrs := d_addrs d' |>;
  wf_data : fdata v' d' = splice (fdata v d) off src;
  wf_other : forall j (d0 : dinode), j <> i -> I !! j = Some d0 -> fdata v' d0 = fdata v d0;
  wf_phi : Phi sb v' i d' <= Phi sb v i d + nblocks off (zlen src);
  wf_free : nfree sb v - flag d <= nfree sb v' - flag d' + nblocks off (zlen src) }.

(** Data blocks are not touched by a write to a block of inodes. *)
Lemma iwrote_data v I i d c j m : fsinv v I -> 0 <= i < sb_ninodes sb -> maps v I c j m -> blk (iwrote sb i d v) c = blk v c.
Proof.
  intros HF Hi Hm. unfold iwrote. rewrite blk_wrote, decide_False; [done|].
  pose proof (IBLOCK_range sb Hsb i Hi). destruct (inode_block_range sb Hsb v I c j m HF Hm). lia.
Qed.

(** The file is as long as before: only data blocks are written. *)
Lemma wrote_inside v I i d v' d' off src : fsinv v I -> I !! i = Some d -> written sb v I i d v' d' off src ->
  0 <= off -> off + zlen src <= d_size d \/ src = [] /\ off <= d_size d -> wrote_file v I i d v' d' off src.
Proof.
  intros HF Hi W Ho Hin. assert (0 <= zlen src) by (unfold zlen; lia). destruct (fi_size sb v I HF i d Hi) as [Hmax Hsl].
  assert (Hin' : off + zlen src <= d_size d) by (destruct Hin as [?|[-> ?]]; [done|change (zlen []) with 0; lia]).
  assert (Ed : d' = d).
  { apply (wr_same _ _ _ _ _ _ _ _ _ W). intros o Hor. apply Hsl; [apply Z.div_pos; [lia|done]|].
    pose proof (Z.mod_pos_bound o BSIZE ltac:(done)). pose proof (Z.div_mod o BSIZE ltac:(done)). lia. }
  subst d'. assert (Es : Z.max (d_size d) (off + zlen src) = d_size d) by lia.
  split.
  - apply W.
  - apply W.
  - intros X HX. rewrite insert_id by done. eapply synced_frame; [done|exact HX|apply W].
  - rewrite Es. by destruct d.
  - rewrite <- (written_fdata v I i d v' d off src) by (done || lia). rewrite Es. by destruct d.
  - intros j e Hne He. eapply fdata_frame; [done..|]. intros c m Hm. by eapply (wr_other _ _ _ _ _ _ _ _ _ W).
  - apply W.
  - apply W.
Qed.

Lemma slot_after v I i d v' d' off src n : fsinv v I -> I !! i = Some d -> written sb v I i d v' d' off src ->
  0 <= off <= d_size d -> off + zlen src <= MAXFILE * BSIZE -> 0 <= n -> n * BSIZE < off + zlen src -> slot v' d' n <> 0.
Proof.
  intros HF Hi W Ho Hend Hn Hlt. destruct (fi_size sb v I HF i d Hi) as [Hmax Hsl].
  destruct (decide (n * BSIZE < d_size d)) as [Hold|Hnew].
  - rewrite (wr_slots _ _ _ _ _ _ _ _ _ W); [by apply Hsl| |by apply Hsl]. unfold MAXFILE, NDIRECT, NINDIRECT, BSIZE in *. lia.
  - destruct (wr_cover _ _ _ _ _ _ _ _ _ W (n * BSIZE)) as [_ Hc]; [lia|]. by rewrite Z.div_mul in Hc.
Qed.

(** The file grows: the inode goes to the disk too. *)
Lemma wrote_grow v I i d v1 d1 off src : fsinv v I -> I !! i = Some d -> written sb v I i d v1 d1 off src ->
  0 <= off <= d_size d -> d_size d < off + zlen src <= MAXFILE * BSIZE ->
  let d2 := d1 <| d_size := off + zlen src |> in
  fsinv v1 (<[i := d2]> I) /\ wrote_file v I i d (iwrote sb i d2 v1) d2 off src.
Proof.
  intros HF Hi W Ho Hend d2. destruct (fi_inode sb v I HF i d Hi) as (Hr & Hok & Hty).
  pose proof (wr_inv _ _ _ _ _ _ _ _ _ W) as HF1.
  destruct (fi_inode sb v1 _ HF1 i d1 (lookup_insert_eq _ _ _)) as (_ & Hok1 & Hty1).
  assert (Hok2 : dinode_ok d2).
  { destruct Hok1. split; cbn; try done. unfold is_u32, MAXFILE, NDIRECT, NINDIRECT, BSIZE in *. lia. }
  assert (HF2 : fsinv v1 (<[i := d2]> I)).
  { rewrite <- (insert_insert_eq I i d2 d1). apply (fsinv_set sb v1 _ i d1); try done; [apply lookup_insert_eq|cbn; lia|].
    cbn. intros n Hn Hlt. eapply slot_after; [exact HF|done|exact W|..]; lia. }
  split; [done|]. set (v2 := iwrote sb i d2 v1).
  assert (Hdat : forall c j m, maps v1 (<[i := d2]> I) c j m -> blk v2 c = blk v1 c).
  { intros c j m Hm. eapply iwrote_data; [exact HF2|lia|exact Hm]. }
  split.
  - apply fsinv_inode; [done|done|apply IBLOCK_range; [done|lia]|]. eapply iwrote_block; [done|exact HF2|lia|done].
  - apply (wr_held _ _ _ _ _ _ _ _ _ W).
  - intros X HX. eapply (synced_mono sb Hsb _ _ ((X ∪ {[i]}) ∖ {[i]})); [clear; set_solver|].
    apply synced_iwrote; [done|exact HF2|apply lookup_insert_eq|]. apply synced_dirty.
    eapply synced_frame; [done|exact HX|apply W].
  - unfold d2. rewrite (wr_d _ _ _ _ _ _ _ _ _ W). cbn. by rewrite Z.max_r by lia.
  - rewrite (fdata_frame v1 v2 (<[i := d2]> I) i d2 HF2 (lookup_insert_eq _ _ _)) by (intros c m; apply Hdat).
    rewrite <- (written_fdata v I i d v1 d1 off src) by (done || lia). unfold d2. by rewrite Z.max_r by lia.
  - intros j e Hne He. transitivity (fdata v1 e).
    + eapply fdata_frame; [exact HF2|by rewrite lookup_insert_ne|]. intros c m; apply Hdat.
    + eapply fdata_frame; [exact HF|done|]. intros c m Hm. by eapply (wr_other _ _ _ _ _ _ _ _ _ W).
  - etransitivity; [|apply (wr_phi _ _ _ _ _ _ _ _ _ W)]. unfold Phi. change (flag d2) with (flag d1).
    assert (Z.of_nat (size (base sb v2 i d2)) <= Z.of_nat (size (base sb v1 i d1))); [|lia].
    apply size_sub. unfold base, v2, iwrote. change (indset d2) with (indset d1). cbn. clear. set_solver.
  - change (flag d2) with (flag d1). rewrite (nfree_same sb v1 v2); [apply W|]. intros c Hc.
    apply bit_wrote_inode; [done|apply IBLOCK_range; [done|lia]|done].
Qed.

Lemma writei_wp (devwrite : Z -> option (Z -> list Z -> M (fs S) Z)) f ip e v I off src : open_file f ip e v I -> d_type (i_d e) <> T_DEV -> is_u32 off -> is_u32 (zlen src) ->
  Forall is_u8 src -> (0 < zlen src -> Phi sb v (i_inum e) (i_d e) + nblocks off (zlen src) <= max_op) ->
  wp (writei sb devwrite ip src off)
    (fun r f' =>
       if (d_size (i_d e) <? off) || (MAXFILE * BSIZE <? off + zlen src) then r = -1 /\ f' = f
       else r = zlen src /\ exists v' d' s', f' = put_d f ip e d' s' /\ bview s' v' /\
              wrote_file v I (i_inum e) (i_d e) v' d' off src)
    (fun msg => no_room sb v (i_d e) (nblocks off (zlen src)) msg /\ d_size (i_d e) < off + zlen src) f.
Proof.
  intros HO Hty Hoff Hn Hsrc Hmax. pose proof HO as [Hip He Hdev Hs Hh HF Hi].
  set (d := i_d e) in *. set (i := i_inum e) in *. set (n := zlen src) in *.
  unfold writei. eapply wp_step_run; [reflexivity|]. rewrite He. fold d n. cbn zeta.
  rewrite (proj2 (Z.eqb_neq (d_type d) T_DEV)), u32_overflow by done.
  destruct (Z.ltb_spec (d_size d) off) as [|Hge]; [done|]. cbn [orb]. unfold is_u32 in *.
  destruct (Z.leb_spec (2 ^ 32) (off + n)) as [Hov|Hov].
  { rewrite (proj2 (Z.ltb_lt (MAXFILE * BSIZE) (off + n))); [done|]. unfold MAXFILE, NDIRECT, NINDIRECT, BSIZE. lia. }
  rewrite u32_small by (unfold is_u32; lia). destruct (Z.ltb_spec (MAXFILE * BSIZE) (off + n)) as [|Hfit]; [done|].
  eapply wp_step; [apply (writei_loop_wp sb Hsb ip _ f e v I); try done; [lia|] | |done].
  { intros _. apply nblocks_fuel. lia. }
  cbn. fold d i n. intros r f1 (-> & v1 & d1 & s1 & -> & Hs1 & W). eapply wp_step_run; [reflexivity|].
  rewrite the_put_d by done. cbn [i_d upd]. rewrite (f_equal d_size (wr_d _ _ _ _ _ _ _ _ _ W)). cbn [d_size upd].
  destruct (Z.ltb_spec 0 n) as [Hpos|Hzero]; [destruct (Z.ltb_spec (d_size d) (off + n)) as [Hgrow|Hin]|]; cbn [andb].
  - destruct (wrote_grow v I i d v1 d1 off src HF Hi W) as [HF2 WF]; [lia|lia|]. fold n in HF2, WF.
    set (d2 := d1 <| d_size := off + n |>) in *. apply wp_bind.
    eapply wp_step_run; [by apply (upd_d_run f ip e d1 s1)|]. fold d2. eapply wp_mono.
    + apply (iupdate_wp (put_d f ip e d2 s1) ip (e <| i_d := d2 |>) v1 (<[i := d2]> I)).
      { apply open_put_d; try done; [by rewrite (wr_held _ _ _ _ _ _ _ _ _ W)|apply lookup_insert_eq]. }
      cbn. fold i. pose proof (wr_phi _ _ _ _ _ _ _ _ _ W) as Hphi. unfold Phi in Hphi at 1. specialize (Hmax Hpos).
      pose proof (size_sub ({[IBLOCK sb i]} ∪ vlog v1) (base sb v1 i d1) ltac:(unfold base; clear; set_solver)).
      assert (0 <= flag d1) by (unfold flag; destruct (ind d1 =? 0); lia). fold n in Hphi. lia.
    + cbn. intros _ f2 (s2 & -> & Hs2). split; [done|]. exists (iwrote sb i d2 v1), d2, s2. split_and!; done.
    + done.
  - split; [done|]. exists v1, d1, s1. split_and!; [done|done|]. apply wrote_inside; [done..|lia|left; fold n; lia].
  - split; [done|]. exists v1, d1, s1. split_and!; [done|done|]. apply wrote_inside; [done..|lia|right].
    split; [destruct src; [done|unfold n, zlen in Hzero; cbn in Hzero; lia]|lia].
Qed.
End run.
