(* ===== verification/FsTrunc.v ===== *)
(** * Truncating and releasing files

    itrunc and iput of fs.c: when the last reference to a file without links goes, all its
    blocks and its inode are free again. *)

From S2P Require Import Prelude Bytes Blocks Fs FsBlocks FsInode FsData FsWrite.
From stdpp Require Import gmap.
#[local] Open Scope Z_scope.

(** ** Freeing blocks one by one *)

Section freeing.
Context (sb : superblock) (Hsb : sb_ok sb).
Implicit Types (v : view) (d : dinode) (I : gmap Z dinode) (b c i k m : Z) (P : Z -> Prop).

(** Only the bits of the blocks in [P] have changed. *)
Record freed v v' P : Prop := mkfreed {
  fr_ok : bitmap_ok sb v';
  fr_bits : forall c, 0 <= c < sb_size sb -> bit sb v' c = true <-> bit sb v c = true /\ ~ P c;
  fr_blk : forall c, c < sb_bmapstart sb \/ datastart sb <= c -> blk v' c = blk v c;
  fr_log : vlog v' ⊆ vlog v ∪ bmaps sb }.

Lemma freed_none v P : bitmap_ok sb v -> (forall c, ~ P c) -> freed v v P.
Proof. intros H HP. split; [done| |done|clear; set_solver]. intros c Hc. specialize (HP c). tauto. Qed.

Lemma freed_held v v1 v2 P : vblk v2 = vblk v1 -> vlog v2 = vlog v1 -> freed v v1 P -> freed v v2 P.
Proof.
  destruct v1, v2. cbn. intros -> -> [[H1 H1'] H2 H3 H4]. by split; [split|..].
Qed.

Lemma freed_ext v v' P P' : freed v v' P -> (forall c, P c <-> P' c) -> freed v v' P'.
Proof. intros [H1 H2 H3 H4] HP. split; try done. intros c Hc. rewrite H2 by done. by rewrite HP. Qed.

Lemma freed_one v v' P b : freed v v' P -> datastart sb <= b < sb_size sb -> freed v (dealloc sb b v') (fun c => P c \/ c = b).
Proof.
  intros [H1 H2 H3 H4] Hb. pose proof (datastart_pos sb Hsb).
  destruct (BBLOCK_range sb Hsb b ltac:(lia)) as (Hr & _ & Hin). split.
  - by apply dealloc_ok.
  - intros c Hc. rewrite bit_dealloc by (done || lia). case_decide as E; [|rewrite H2 by done; tauto].
    split; [done|]. intros [_ Hn]. tauto.
  - intros c Hc. unfold dealloc. rewrite blk_wrote, decide_False by lia. by apply H3.
  - unfold dealloc. cbn. set_solver.
Qed.

Lemma freed_budget v v' P : freed v v' P -> budget sb v' <= budget sb v.
Proof. intros H. apply size_sub. pose proof (fr_log _ _ _ H) as Hlog. clear -Hlog. set_solver. Qed.

(** The blocks in the first [k] slots of a file. *)
Definition upto v d k c : Prop := exists m, 0 <= m < k /\ slot v d m = c /\ c <> 0.

#[export] Instance upto_dec v d k c : Decision (upto v d k c).
Proof.
  destruct (decide (Exists (fun m => slot v d m = c /\ c <> 0) (seqZ 0 k))) as [H|H]; [left|right].
  - apply Exists_exists in H as (m & Hm%elem_of_seqZ & ?). exists m. clear -Hm H. split; [lia|done].
  - intros (m & Hm & ?). apply H, Exists_exists. exists m. rewrite elem_of_seqZ. clear -Hm H0. split; [lia|done].
Defined.

Lemma upto_skip v d k c : slot v d k = 0 -> 0 <= k -> upto v d k c <-> upto v d (k + 1) c.
Proof.
  intros Hz Hk. split; intros (m & Hm & Hs & Hc); exists m; split_and!; try done; try lia.
  destruct (decide (m = k)) as [->|]; [congruence|lia].
Qed.

Lemma upto_next v d k c : slot v d k <> 0 -> 0 <= k -> (upto v d k c \/ c = slot v d k) <-> upto v d (k + 1) c.
Proof.
  intros Hnz Hk. split.
  - intros [(m & Hm & Hs & Hc)| ->]; [exists m|exists k]; split_and!; try done; lia.
  - intros (m & Hm & Hs & Hc). destruct (decide (m = k)) as [->|]; [by right|left]. exists m. split_and!; try done; lia.
Qed.

Lemma upto_distinct v I i d k : fsinv sb v I -> I !! i = Some d -> 0 <= k <= MAXFILE -> slot v d k <> 0 ->
  ~ upto v d k (slot v d k).
Proof.
  intros HF Hi Hk Hnz (m & Hm & Hs & _). destruct (fi_inj sb v I HF (slot v d k) i m i k) as [_ ?]; [..|lia].
  - exists d. split_and!; try done; lia.
  - exists d. split_and!; try done; lia.
Qed.
End freeing.

Section run.
Context {S : Type} {B : BlockDev S} {L : BlockLaws S B} (sb : superblock) (Hsb : sb_ok sb).
Implicit Types (s : S) (f : fs S) (v : view) (d : dinode) (e : inode) (I : gmap Z dinode) (b i k ip : Z) (X : gset Z).
Abbreviation fsinv := (fsinv sb).
Abbreviation synced := (synced sb).
Abbreviation open_file := (open_file sb).

(** bfree of the block in slot [k], after those before it. *)
Lemma free_slot_wp f v v' I i d k :
  fsinv v I -> I !! i = Some d -> 0 <= k <= MAXFILE -> slot v d k <> 0 -> freed sb v v' (upto v d k) ->
  bview (fdev f) v' -> (size (vheld v') <= 1)%nat -> (forall n j, vheld v' !! n = Some j -> datastart sb <= n) ->
  budget sb v <= max_op ->
  wp (ondev (bfree sb 1 (slot v d k)))
    (fun _ f2 => exists v2 s2, f2 = mkfs s2 (icache f) /\ bview s2 v2 /\ vheld v2 = vheld v' /\
       freed sb v v2 (upto v d (k + 1))) (fun _ => False) f.
Proof.
  intros HF Hi Hk Hnz Hfr Hs Hh Hheld Hmax. set (b := slot v d k) in *.
  assert (Hm : maps v I b i k) by (exists d; split_and!; done || lia).
  pose proof (fi_range sb v I HF _ _ _ Hm) as Hr. pose proof (datastart_pos sb Hsb).
  apply wp_ondev. eapply wp_mono; [apply (bfree_wp sb Hsb (fdev f) v')|..]; try done.
  - apply Hfr.
  - destruct (vheld v' !! BBLOCK sb b) as [j|] eqn:Ej; [|done]. apply Hheld in Ej.
    destruct (BBLOCK_range sb Hsb b ltac:(lia)) as (? & _). lia.
  - pose proof (freed_budget sb v v' _ Hfr). lia.
  - lia.
  - apply (fr_bits sb v v' _ Hfr); [lia|]. split; [by eapply mapped_bit|by eapply upto_distinct].
  - cbn. intros _ s2 Hs2. exists (dealloc sb b v'), s2. split_and!; try done.
    eapply freed_ext; [by apply (freed_one sb Hsb); [exact Hfr|]|]. intros c. apply upto_next; [done|lia].
Qed.

(** The first [k] addresses of the inode are zero. *)
Record cleared k d d' : Prop := mkcleared {
  cl_d : d' = d <| d_addrs := d_addrs d' |>;
  cl_len : zlen (d_addrs d') = 13;
  cl_addr : forall m, 0 <= m < 13 -> zget (d_addrs d') m = if m <? k then 0 else zget (d_addrs d) m }.

Lemma cleared_start d : zlen (d_addrs d) = 13 -> cleared 0 d d.
Proof. intros Hl. split; [by destruct d|done|]. intros m Hm. by rewrite (proj2 (Z.ltb_ge m 0)) by lia. Qed.

Lemma cleared_step k d d' : cleared k d d' -> 0 <= k < 13 -> cleared (k + 1) d (d' <| d_addrs := zupd (d_addrs d') k 0 |>).
Proof.
  intros [Hd Hl Hz] Hk. split; [by rewrite Hd|cbn; by rewrite zlen_zupd|].
  cbn. intros m Hm. destruct (decide (m = k)) as [->|Hne].
  - rewrite zget_zupd_eq by lia. by rewrite (proj2 (Z.ltb_lt k (k + 1))) by lia.
  - rewrite zget_zupd_ne, Hz by lia. destruct (Z.ltb_spec m k), (Z.ltb_spec m (k + 1)); lia.
Qed.

Lemma cleared_skip k d d' : cleared k d d' -> zget (d_addrs d) k = 0 -> cleared (k + 1) d d'.
Proof.
  intros [Hd Hl Hz] H0. split; [done..|]. intros m Hm. rewrite Hz by done.
  destruct (Z.ltb_spec m k), (Z.ltb_spec m (k + 1)); try lia. by assert (m = k) as -> by lia.
Qed.

Lemma cleared_all d d' : cleared 13 d d' -> d_addrs d' = replicate 13 0.
Proof.
  intros [_ Hl Hz]. apply list_eq. intros j. destruct (decide (j < 13)%nat) as [Hj|Hj].
  - rewrite lookup_replicate_2 by done. pose proof (zlookup_zget (d_addrs d') (Z.of_nat j) ltac:(lia)) as E.
    rewrite Hz, (proj2 (Z.ltb_lt _ 13)), zlookup_of_nat in E by lia. done.
  - rewrite !lookup_ge_None_2; [done|rewrite length_replicate; lia|unfold zlen in Hl; lia].
Qed.

Section loops.
Context (f : fs S) (ip : Z) (e : inode) (v : view) (I : gmap Z dinode) (Hof : open_file f ip e v I).
Context (Hmax : budget sb v <= max_op).
#[local] Abbreviation i := (i_inum e).
#[local] Abbreviation d := (i_d e).

Lemma addrs_len : zlen (d_addrs d) = 13.
Proof. destruct Hof as [_ _ _ _ _ HF Hi]. by destruct (fi_inode sb v I HF _ _ Hi) as (_ & Hok & _); apply (dk_len d Hok). Qed.

(** After the direct blocks below [k]. *)
Definition direct_inv k f' : Prop := exists v' d' s',
  f' = put_d f ip e d' s' /\ bview s' v' /\ vheld v' = ∅ /\ freed sb v v' (upto v d k) /\ cleared k d d'.

Lemma free_direct_wp k f' : 0 <= k <= 11 -> direct_inv k f' -> wp (free_direct sb ip k) (fun _ => direct_inv (k + 1)) (fun _ => False) f'.
Proof.
  intros Hk (v' & d' & s' & -> & Hs & Hh & Hfr & Hc). pose proof Hof as [Hip He Hdev _ _ HF Hi].
  assert (Hsl : zget (d_addrs d') k = slot v d k).
  { destruct Hc as [_ _ Hz]. rewrite Hz, (proj2 (Z.ltb_ge k k)) by lia. unfold slot. by rewrite (proj2 (Z.ltb_lt k NDIRECT)) by (unfold NDIRECT; lia). }
  assert (Hsk : slot v d k = zget (d_addrs d) k) by (unfold slot; by rewrite (proj2 (Z.ltb_lt k NDIRECT)) by (unfold NDIRECT; lia)).
  unfold free_direct. eapply wp_step_run; [reflexivity|]. rewrite the_put_d by done.
  change (i_d (e <| i_d := d' |>)) with d'. change (i_dev (e <| i_d := d' |>)) with (i_dev e). rewrite Hsl, Hdev.
  destruct (Z.eqb_spec (slot v d k) 0) as [H0|Hnz].
  - apply wp_ret. exists v', d', s'. split_and!; try done; [|apply cleared_skip; [done|congruence]].
    eapply freed_ext; [done|]. intros c. apply upto_skip; [done|lia].
  - eapply wp_step; [apply (free_slot_wp _ v v' I i d k); try done| |done].
    + unfold MAXFILE, NDIRECT, NINDIRECT. lia.
    + rewrite Hh, map_size_empty. lia.
    + rewrite Hh. intros n j. by rewrite lookup_empty.
    + intros [] _ (v2 & s2 & -> & Hs2 & Hh2 & Hfr2). eapply wp_run; [by apply (upd_d_run f ip e d' s2)|].
      exists v2, (d' <| d_addrs := zupd (d_addrs d') k 0 |>), s2. split_and!; try done; [congruence|].
      apply cleared_step; [done|lia].
Qed.

(** The indirect block [a] is in buffer [j]. *)
Definition indirect_inv d' j k f' : Prop := exists v' s',
  f' = put_d f ip e d' s' /\ bview s' v' /\ vheld v' = {[ind d := j]} /\ freed sb v v' (upto v d (NDIRECT + k)).

Lemma slot_indirect k : ind d <> 0 -> 0 <= k < NINDIRECT -> slot v d (NDIRECT + k) = fget 4 (blk v (ind d)) (4 * k).
Proof.
  intros Hn Hk. unfold slot. rewrite (proj2 (Z.ltb_ge _ NDIRECT)), (proj2 (Z.eqb_neq _ MAXFILE)), (proj2 (Z.eqb_neq (ind d) 0))
    by (unfold MAXFILE in *; lia || done). f_equal. lia.
Qed.

Lemma free_indirect_wp d' j k f' : ind d <> 0 -> 0 <= k < NINDIRECT -> indirect_inv d' j k f' ->
  wp (free_indirect sb 1 j k) (fun _ => indirect_inv d' j (k + 1)) (fun _ => False) f'.
Proof.
  intros Hn Hk (v' & s' & -> & Hs & Hh & Hfr). pose proof Hof as [Hip He Hdev _ _ HF Hi].
  assert (Hmi : maps v I (ind d) i MAXFILE) by by apply maps_ind.
  pose proof (fi_range sb v I HF _ _ _ Hmi) as Hri.
  assert (Hd : bdata j s' = blk v (ind d)).
  { pose proof (bview_held s' v' (ind d) j Hs ltac:(rewrite Hh; apply lookup_singleton_eq)) as Hb.
    rewrite <- (fr_blk sb v v' _ Hfr (ind d)) by lia. symmetry. by apply blk_at. }
  unfold free_indirect. eapply wp_step_run; [reflexivity|]. cbn [fdev put_d]. rewrite Hd, <- slot_indirect by done.
  destruct (Z.eqb_spec (slot v d (NDIRECT + k)) 0) as [H0|Hnz].
  - apply wp_ret. exists v', s'. split_and!; try done. eapply freed_ext; [done|]. intros c.
    rewrite Z.add_assoc. apply upto_skip; [done|unfold NDIRECT; lia].
  - eapply wp_mono; [apply (free_slot_wp _ v v' I i d (NDIRECT + k)); try done| |done].
    + unfold MAXFILE, NDIRECT in *. lia.
    + rewrite Hh, map_size_singleton. lia.
    + rewrite Hh. intros n m [<- <-]%lookup_singleton_Some. lia.
    + intros _ _ (v2 & s2 & -> & Hs2 & Hh2 & Hfr2). exists v2, s2. rewrite Z.add_assoc. split_and!; congruence || done.
Qed.

(** Both loops and the indirect block itself. *)
Definition all_inv f' : Prop := exists v' d' s',
  f' = put_d f ip e d' s' /\ bview s' v' /\ vheld v' = ∅ /\ freed sb v v' (upto v d (MAXFILE + 1)) /\ cleared 13 d d'.

Lemma upto_no_indirect c : ind d = 0 -> upto v d NDIRECT c <-> upto v d (MAXFILE + 1) c.
Proof.
  intros H0. split; intros (m & Hm & Hs & Hc); exists m; split_and!; try done; try (unfold MAXFILE, NDIRECT, NINDIRECT in *; lia).
  destruct (decide (m < NDIRECT)); [done|]. exfalso. revert Hs. unfold slot. rewrite (proj2 (Z.ltb_ge m NDIRECT)) by lia.
  rewrite H0. destruct (m =? MAXFILE); cbn; congruence.
Qed.

Lemma free_blocks_wp : wp (free_blocks sb ip) (fun _ => all_inv) (fun _ => False) f.
Proof.
  pose proof Hof as [Hip He Hdev Hs Hh HF Hi]. unfold free_blocks.
  eapply wp_step; [apply (wp_forM direct_inv _ _ _ (fun _ => False)); [done| |]| |done].
  { exists v, d, (fdev f). split_and!; [by rewrite put_d_id|done|done|apply freed_none; [apply HF|]|apply cleared_start, addrs_len].
    intros c (m & Hm & _). lia. }
  { intros k f' Hk. apply free_direct_wp. unfold NDIRECT in Hk. lia. }
  change (NDIRECT - 1 + 1) with NDIRECT. intros [] _ (v1 & d1 & s1 & -> & Hs1 & Hh1 & Hfr & Hc).
  eapply wp_step_run; [reflexivity|]. rewrite the_put_d by done. cbn zeta.
  change (i_d (e <| i_d := d1 |>)) with d1. change (i_dev (e <| i_d := d1 |>)) with (i_dev e).
  rewrite (cl_addr _ _ _ Hc NDIRECT ltac:(done)), Z.ltb_irrefl. fold (ind d). rewrite Hdev.
  destruct (Z.eqb_spec (ind d) 0) as [H0|Hnz].
  { apply wp_ret. exists v1, d1, s1. split_and!; try done; [|by apply (cleared_skip 12)].
    eapply freed_ext; [done|]. intros c. by apply upto_no_indirect. }
  assert (Hmi : maps v I (ind d) i MAXFILE) by by apply maps_ind.
  destruct (mapped_block sb Hsb v I _ _ _ HF Hmi) as [_ Hbok]. pose proof (fi_range sb v I HF _ _ _ Hmi) as Hri.
  destruct (bm_blocks sb _ (fr_ok _ _ _ _ Hfr) (ind d)) as (x & Hx & _).
  { by destruct (inode_block_range sb Hsb v I _ _ _ HF Hmi). }
  eapply (wpf_bread _ _ _ _ v1); [done|exact Hx|by rewrite Hh1|rewrite Hh1, map_size_empty; lia|].
  intros j s2 Hs2 _. eapply wp_step; [apply (wp_forM (indirect_inv d1 j) _ _ _ (fun _ => False)); [done| |]| |done].
  { exists (hold (ind d) j v1), s2. split_and!; try done; [cbn; by rewrite Hh1, insert_empty|by apply (freed_held sb v v1)]. }
  { intros k f' Hk. apply free_indirect_wp; [done|lia]. }
  intros [] _ (v3 & s3 & -> & Hs3 & Hh3 & Hfr3).
  eapply (wpf_brelse _ _ _ _ v3 (ind d)); [done|rewrite Hh3; apply lookup_singleton_eq|]. intros s4 Hs4.
  assert (Hh4 : vheld (unhold (ind d) v3) = ∅) by (cbn; rewrite Hh3; apply delete_singleton_eq).
  change (ind d) with (slot v d MAXFILE) at 1.
  eapply wp_step; [apply (free_slot_wp _ v (unhold (ind d) v3) I i d MAXFILE); try done| |done].
  { by apply (freed_held sb v v3). }
  { rewrite Hh4, map_size_empty. lia. }
  { rewrite Hh4. intros n m. by rewrite lookup_empty. }
  intros [] _ (v5 & s5 & -> & Hs5 & Hh5 & Hfr5). eapply wp_run; [by apply (upd_d_run f ip e d1 s5)|].
  exists v5, (d1 <| d_addrs := zupd (d_addrs d1) NDIRECT 0 |>), s5. split_and!; try done; [congruence|].
  by apply (cleared_step 12).
Qed.
End loops.

(** The inode of an empty file. *)
Definition trunc d : dinode := d <| d_size := 0 |> <| d_addrs := replicate 13 0 |>.

(** What itrunc does to the file system. *)
Record truncated v I i d v' : Prop := mktruncated {
  tc_inv : fsinv v' (<[i := trunc d]> I);
  tc_held : vheld v' = ∅;
  tc_sync : forall X, synced v I X -> synced v' (<[i := trunc d]> I) (X ∖ {[i]});
  tc_free : forall c, free sb v' c <-> free sb v c \/ upto v d (MAXFILE + 1) c;
  tc_other : forall j d0, j <> i -> I !! j = Some d0 -> fdata v' d0 = fdata v d0;
  tc_log : vlog v' ⊆ vlog v ∪ bmaps sb ∪ {[IBLOCK sb i]} }.

Lemma trunc_ok d : dinode_ok d -> dinode_ok (trunc d).
Proof. intros []. split; cbn; try done; unfold is_u32 in *. repeat apply Forall_cons_2; try lia. done. Qed.

Lemma freed_inv v I i d v' : fsinv v I -> I !! i = Some d -> freed sb v v' (upto v d (MAXFILE + 1)) -> fsinv v' (<[i := trunc d]> I).
Proof.
  intros HF Hi Hfr. destruct (fi_inode sb v I HF i d Hi) as (_ & Hok & Hty). pose proof (datastart_pos sb Hsb).
  apply (fsinv_clear sb v v' I i d); try done.
  - apply Hfr.
  - intros c Hc. rewrite (fr_bits sb v v' _ Hfr c) by lia. split; intros [Hb Hn]; (split; [done|]).
    + intros n Hr Hs. apply Hn. exists n. split_and!; [lia..|done|lia].
    + intros (m & Hm & Hs & _). apply (Hn m); [lia|done].
  - intros j e He Hn. apply (fr_blk sb v v' _ Hfr). right.
    eapply (fi_range sb v I HF _ j MAXFILE). by apply maps_ind.
  - by apply trunc_ok.
Qed.

Lemma truncated_ok v I i d v1 : fsinv v I -> I !! i = Some d -> vheld v1 = ∅ -> freed sb v v1 (upto v d (MAXFILE + 1)) ->
  truncated v I i d (iwrote sb i (trunc d) v1).
Proof.
  intros HF Hi Hh Hfr. destruct (fi_inode sb v I HF i d Hi) as (Hr & Hok & _). pose proof (datastart_pos sb Hsb).
  pose proof (freed_inv v I i d v1 HF Hi Hfr) as HF1. pose proof (IBLOCK_range sb Hsb i ltac:(lia)) as HI.
  assert (Hbit : forall c, 0 <= c < sb_size sb -> bit sb (iwrote sb i (trunc d) v1) c = bit sb v1 c).
  { intros c Hc. apply bit_wrote_inode; [done|lia|done]. }
  split.
  - apply fsinv_inode; [done|done|lia|]. eapply iwrote_block; [done|exact HF1|lia|by apply trunc_ok].
  - done.
  - intros X HX. eapply (synced_mono sb Hsb _ _ ((X ∪ {[i]}) ∖ {[i]})); [clear; set_solver|].
    apply synced_iwrote; [done|exact HF1|apply lookup_insert_eq|]. apply synced_dirty.
    eapply synced_frame; [done|exact HX|]. intros c Hc. apply (fr_blk sb v v1 _ Hfr). lia.
  - intros c. unfold free. split.
    + intros [Hc Hb]. rewrite Hbit in Hb by done. pose proof (fr_bits sb v v1 _ Hfr c Hc) as Hiff.
      destruct (bit sb v c) eqn:Ec; [right|by left]. apply dec_stable. rewrite Hb in Hiff. naive_solver.
    + intros [[Hc Hb]|Hu].
      * split; [done|]. rewrite Hbit by done. apply not_true_is_false. rewrite (fr_bits sb v v1 _ Hfr c) by done. rewrite Hb. naive_solver.
      * assert (Hc : 0 <= c < sb_size sb).
        { destruct Hu as (m & Hm & Hs & Hn). pose proof (fi_range sb v I HF c i m). 
          assert (maps v I c i m) by (exists d; split_and!; done || lia). naive_solver lia. }
        split; [done|]. rewrite Hbit by done. apply not_true_is_false. rewrite (fr_bits sb v v1 _ Hfr c) by done. naive_solver.
  - intros j e Hne He. transitivity (fdata v1 e).
    + eapply fdata_frame; [exact HF1|by rewrite lookup_insert_ne|]. intros c m Hm. eapply iwrote_data; [done|exact HF1|lia|exact Hm].
    + eapply fdata_frame; [exact HF|done|]. intros c m Hm. apply (fr_blk sb v v1 _ Hfr). right.
      by destruct (fi_range sb v I HF c j m Hm).
  - pose proof (fr_log sb v v1 _ Hfr) as Hlog. unfold iwrote. cbn. clear -Hlog. set_solver.
Qed.

Lemma itrunc_wp f ip e v I : open_file f ip e v I ->
  Z.of_nat (size ({[IBLOCK sb (i_inum e)]} ∪ (vlog v ∪ bmaps sb))) <= max_op ->
  wp (itrunc sb ip)
    (fun _ f' => exists v' s', f' = put_d f ip e (trunc (i_d e)) s' /\ bview s' v' /\ truncated v I (i_inum e) (i_d e) v')
    (fun _ => False) f.
Proof.
  intros HO Hmax. pose proof HO as [Hip He Hdev Hs Hh HF Hi].
  assert (Hbud : budget sb v <= max_op).
  { pose proof (size_sub (vlog v ∪ bmaps sb) ({[IBLOCK sb (i_inum e)]} ∪ (vlog v ∪ bmaps sb)) ltac:(clear; set_solver)).
    unfold budget. lia. }
  unfold itrunc. eapply wp_step; [by apply (free_blocks_wp f ip e v I)| |done].
  intros [] _ (v1 & d1 & s1 & -> & Hs1 & Hh1 & Hfr & Hc).
  eapply wp_step_run; [by apply (upd_d_run f ip e d1 s1)|].
  assert (Ed : d1 <| d_size := 0 |> = trunc (i_d e)).
  { rewrite (cl_d _ _ _ Hc). unfold trunc. by rewrite (cleared_all _ _ Hc). }
  cbn beta. rewrite Ed.
  eapply wp_mono; [apply (iupdate_wp sb Hsb _ ip (e <| i_d := trunc (i_d e) |>) v1 (<[i_inum e := trunc (i_d e)]> I))| |done].
  - apply open_put_d; try done; [by apply (freed_inv v)|apply lookup_insert_eq].
  - etransitivity; [|exact Hmax]. apply size_sub. pose proof (fr_log sb v v1 _ Hfr) as Hlog. cbn. clear -Hlog. set_solver.
  - cbn. intros _ f2 (s2 & -> & Hs2). exists (iwrote sb (i_inum e) (trunc (i_d e)) v1), s2.
    split_and!; [done|done|by apply truncated_ok].
Qed.
End run.
