(* ===== verification/FsCache.v ===== *)
(** * The inode cache

    iget, ilock, iunlock, iput, idup, ialloc and iupdate of fs.c.  A cache entry that is
    referenced stands for one inode that is in use, no inode has two entries, and an entry
    that is valid has the inode's fields.  [mounted] is what holds of the file system
    between calls: with it the calls return what fs.c promises, and iput of the last
    reference to an inode without links gives its blocks and the inode back. *)

From S2P Require Import Prelude Bytes Blocks Fs FsBlocks FsInode FsData FsWrite FsTrunc.
From stdpp Require Import gmap.
#[local] Open Scope Z_scope.

(** ** The invariant *)

Section cache.
Implicit Types (C : list inode) (I : gmap Z dinode) (d : dinode) (e : inode) (ip jp i : Z).

Definition used C ip : Prop := 0 <= ip < NINODE /\ 0 < i_ref (zget C ip).
Definition inum_of C ip : Z := i_inum (zget C ip).

Record cached C I : Prop := mkcached {
  ca_len : zlen C = NINODE;
  ca_ref : forall ip, 0 <= ip < NINODE -> 0 <= i_ref (zget C ip);
  ca_dev : forall ip, used C ip -> i_dev (zget C ip) = 1;
  ca_inode : forall ip, used C ip -> is_Some (I !! inum_of C ip);
  ca_uniq : forall ip jp, used C ip -> used C jp -> inum_of C ip = inum_of C jp -> ip = jp;
  ca_valid : forall ip, used C ip -> i_valid (zget C ip) = true -> I !! inum_of C ip = Some (i_d (zget C ip)) }.

(** One entry changes, and with it at most the inode it is for. *)
Lemma cached_put C I I' ip e' : cached C I -> 0 <= ip < NINODE -> 0 <= i_ref e' ->
  (forall jp, jp <> ip -> used C jp -> I' !! inum_of C jp = I !! inum_of C jp) ->
  (0 < i_ref e' -> i_dev e' = 1 /\ is_Some (I' !! i_inum e') /\
     (forall jp, jp <> ip -> used C jp -> inum_of C jp <> i_inum e') /\
     (i_valid e' = true -> I' !! i_inum e' = Some (i_d e'))) ->
  cached (zupd C ip e') I'.
Proof.
  intros HC Hip Hr Ho Hn. pose proof (ca_len C I HC) as Hl.
  assert (Hat : zget (zupd C ip e') ip = e') by (apply zget_zupd_eq; lia).
  assert (Hne : forall jp, jp <> ip -> zget (zupd C ip e') jp = zget C jp) by (intros; by apply zget_zupd_ne).
  assert (Hu : forall jp, jp <> ip -> used (zupd C ip e') jp -> used C jp) by (intros jp Hj [? Hu]; rewrite Hne in Hu; done).
  split.
  - by rewrite zlen_zupd.
  - intros jp Hjp. destruct (decide (jp = ip)) as [->|Hj]; [by rewrite Hat|]. rewrite Hne by done. by apply (ca_ref C I HC).
  - intros jp HU. destruct (decide (jp = ip)) as [->|Hj]; [destruct HU as [_ HU]; rewrite Hat in HU |- *; by apply Hn|].
    rewrite Hne by done. apply (ca_dev C I HC). by apply Hu.
  - intros jp HU. unfold inum_of. destruct (decide (jp = ip)) as [->|Hj]; [destruct HU as [_ HU]; rewrite Hat in HU |- *; by apply Hn|].
    rewrite Hne by done. fold (inum_of C jp). rewrite Ho by auto. apply (ca_inode C I HC). by apply Hu.
  - intros jp kp HU HU'. unfold inum_of.
    destruct (decide (jp = ip)) as [->|Hj], (decide (kp = ip)) as [->|Hk]; try done; rewrite ?Hat, ?Hne by done.
    + destruct HU as [_ HU]. rewrite Hat in HU. intros E. exfalso. destruct (Hn HU) as (_ & _ & Hd & _). by apply (Hd kp); auto.
    + destruct HU' as [_ HU']. rewrite Hat in HU'. intros E. exfalso. destruct (Hn HU') as (_ & _ & Hd & _). by apply (Hd jp); auto.
    + apply (ca_uniq C I HC); auto.
  - intros jp HU. unfold inum_of. destruct (decide (jp = ip)) as [->|Hj]; [destruct HU as [_ HU]; rewrite Hat in HU |- *; by apply Hn|].
    rewrite Hne by done. fold (inum_of C jp). rewrite Ho by auto. apply (ca_valid C I HC). by apply Hu.
Qed.

(** The entry stays for the same inode. *)
Lemma cached_same C I ip e' : cached C I -> used C ip -> 0 <= i_ref e' -> i_dev e' = 1 -> i_inum e' = inum_of C ip ->
  (i_valid e' = true -> I !! i_inum e' = Some (i_d e')) -> cached (zupd C ip e') I.
Proof.
  intros HC HU Hr Hd Hi Hv. apply (cached_put C I I); try done; [apply HU|]. intros _. split_and!; try done.
  - rewrite Hi. by apply (ca_inode C I HC).
  - intros jp Hj HU' E. apply Hj, (ca_uniq C I HC); congruence || done.
Qed.

(** ... whose fields change. *)
Lemma cached_set C I ip d : cached C I -> used C ip ->
  cached (zupd C ip ((zget C ip) <| i_d := d |>)) (<[inum_of C ip := d]> I).
Proof.
  intros HC HU. apply (cached_put C I); try done; [apply HU|apply (ca_ref C I HC), HU| |].
  - intros jp Hj HU'. apply lookup_insert_ne. intros E. apply Hj. symmetry. by apply (ca_uniq C I HC).
  - intros _. cbn. split_and!; [by apply (ca_dev C I HC)|rewrite lookup_insert_eq; by eexists| |intros _; apply lookup_insert_eq].
    intros jp Hj HU' E. by apply Hj, (ca_uniq C I HC).
Qed.

(** ... or which goes away. *)
Lemma cached_drop C I ip e' : cached C I -> used C ip -> i_ref e' = 0 -> cached (zupd C ip e') (delete (inum_of C ip) I).
Proof.
  intros HC HU Hr. apply (cached_put C I); try done; [apply HU|lia| |lia].
  intros jp Hj HU'. apply lookup_delete_ne. intros E. apply Hj. symmetry. by apply (ca_uniq C I HC).
Qed.
End cache.

Section ops.
Context {S : Type} {B : BlockDev S} {L : BlockLaws S B} (sb : superblock) (Hsb : sb_ok sb) (pid : Z).
Implicit Types (s : S) (f : fs S) (v : view) (d : dinode) (e : inode) (I : gmap Z dinode) (i ip jp : Z) (X : gset Z).
Abbreviation fsinv := (fsinv sb).
Abbreviation synced := (synced sb).
Abbreviation open_file := (open_file sb).

(** Between calls: the inodes in [X] are changed in memory only. *)
Record mounted f v I X : Prop := mkmounted {
  mo_view : bview (fdev f) v;
  mo_held : vheld v = ∅;
  mo_inv : fsinv v I;
  mo_sync : synced v I X;
  mo_cache : cached (icache f) I;
  mo_dirty : forall ip, used (icache f) ip -> inum_of (icache f) ip ∈ X -> i_valid (zget (icache f) ip) = true }.

Lemma mounted_inum f v I X ip : mounted f v I X -> used (icache f) ip -> 0 < inum_of (icache f) ip < sb_ninodes sb.
Proof.
  intros M HU. destruct (ca_inode _ _ (mo_cache _ _ _ _ M) ip HU) as [d Hd]. by apply (fi_inode sb v I (mo_inv _ _ _ _ M) _ d).
Qed.

(** A file that is locked and read in can be read and written. *)
Lemma mounted_open f v I X ip : mounted f v I X -> used (icache f) ip -> i_valid (the_inode ip f) = true ->
  open_file f ip (the_inode ip f) v I.
Proof.
  intros M HU Hv. pose proof (mo_cache _ _ _ _ M) as HC. split.
  - rewrite (ca_len _ _ HC). apply HU.
  - done.
  - by apply (ca_dev _ _ HC).
  - apply M.
  - apply M.
  - apply M.
  - by apply (ca_valid _ _ HC).
Qed.

(** ** Entries *)

Lemma upd_inode_run ip (g : inode -> inode) f :
  upd_inode ip g f = Ok tt (mkfs (fdev f) (zupd (icache f) ip (g (the_inode ip f)))).
Proof. done. Qed.

(** A change of an entry that keeps its inode, and is still dirty if it was. *)
Lemma mounted_same f v I X ip e' : mounted f v I X -> used (icache f) ip -> 0 <= i_ref e' -> i_dev e' = 1 ->
  i_inum e' = inum_of (icache f) ip -> (i_valid e' = true -> I !! i_inum e' = Some (i_d e')) ->
  (i_valid (the_inode ip f) = true -> i_valid e' = true) -> mounted (mkfs (fdev f) (zupd (icache f) ip e')) v I X.
Proof.
  intros M HU Hr Hd Hi Hv Hmono. split; try apply M; cbn.
  - apply cached_same; try done. apply M.
  - intros jp HU'. unfold inum_of. destruct (decide (jp = ip)) as [->|Hj].
    + rewrite zget_zupd_eq, Hi by (rewrite (ca_len _ _ (mo_cache _ _ _ _ M)); apply HU).
      intros Hin. apply Hmono. by apply (mo_dirty _ _ _ _ M).
    + destruct HU' as [? HU']. rewrite zget_zupd_ne in HU' |- * by done. apply (mo_dirty _ _ _ _ M). done.
Qed.

#[export] Instance used_dec (C : list inode) ip : Decision (used C ip).
Proof. unfold used. apply _. Defined.

(** iget: the entry for the inode, with one reference more.  A new entry is not read in yet. *)
Record got f ip i f' : Prop := mkgot {
  go_used : used (icache f') ip;
  go_inum : inum_of (icache f') ip = i;
  go_dev : fdev f' = fdev f;
  go_cache : icache f' = zupd (icache f) ip (the_inode ip f');
  go_entry : if decide (used (icache f) ip)
             then the_inode ip f' = (the_inode ip f) <| i_ref := i_ref (the_inode ip f) + 1 |>
             else i_ref (the_inode ip f') = 1 /\ i_valid (the_inode ip f') = false /\
                  i_locked (the_inode ip f') = i_locked (the_inode ip f) }.

Lemma got_upd f ip i (e' : inode) : 0 <= ip < NINODE -> zlen (icache f) = NINODE -> 0 < i_ref e' -> i_inum e' = i ->
  (if decide (used (icache f) ip) then e' = (the_inode ip f) <| i_ref := i_ref (the_inode ip f) + 1 |>
   else i_ref e' = 1 /\ i_valid e' = false /\ i_locked e' = i_locked (the_inode ip f)) ->
  got f ip i (mkfs (fdev f) (zupd (icache f) ip e')).
Proof.
  intros Hip Hl Hr Hi He. assert (Hat : zget (zupd (icache f) ip e') ip = e') by (apply zget_zupd_eq; lia).
  split; cbn; unfold used, inum_of, the_inode in *; cbn; by rewrite ?Hat.
Qed.

Lemma mounted_new f v I X ip e' : mounted f v I X -> 0 <= ip < NINODE -> i_ref e' = 1 -> i_dev e' = 1 ->
  is_Some (I !! i_inum e') -> i_valid e' = false -> i_inum e' ∉ X ->
  (forall jp, used (icache f) jp -> inum_of (icache f) jp <> i_inum e') ->
  mounted (mkfs (fdev f) (zupd (icache f) ip e')) v I X.
Proof.
  intros M Hip Hr Hd Hi Hv HX Hno. pose proof (mo_cache _ _ _ _ M) as HC. split; try apply M; cbn.
  - apply (cached_put _ I I); try done; [lia|]. intros _. split_and!; try done; [|congruence]. intros jp _. apply Hno.
  - intros jp HU. unfold inum_of. destruct (decide (jp = ip)) as [->|Hj].
    + rewrite zget_zupd_eq by (rewrite (ca_len _ _ HC); lia). done.
    + destruct HU as [? HU]. rewrite zget_zupd_ne in HU |- * by done. by apply (mo_dirty _ _ _ _ M).
Qed.

(** There is no entry for inode [i] and no room for one. *)
Definition cache_full f i msg : Prop :=
  msg = "iget: no inodes" /\ forall ip, 0 <= ip < NINODE -> 0 < i_ref (the_inode ip f) /\ i_inum (the_inode ip f) <> i.

Lemma iget_wp f v I X i : mounted f v I X -> is_Some (I !! i) ->
  (i ∈ X -> exists ip, used (icache f) ip /\ inum_of (icache f) ip = i) ->
  wp (iget 1 i) (fun ip f' => got f ip i f' /\ mounted f' v I X) (cache_full f i) f.
Proof.
  intros M Hi HX. pose proof (mo_cache _ _ _ _ M) as HC. pose proof (ca_len _ _ HC) as Hl.
  unfold iget. eapply wp_step_run; [reflexivity|]. cbn zeta. destruct (find _ _) as [ip|] eqn:Eh.
  - apply List.find_some in Eh as [Hin Hc]. apply list_elem_of_In, elem_of_zrange in Hin.
    apply andb_prop in Hc as [[Hr%Z.ltb_lt Hd%Z.eqb_eq]%andb_prop Hn%Z.eqb_eq].
    assert (HU : used (icache f) ip) by (split; [lia|done]).
    eapply wp_step_run; [apply upd_inode_run|]. apply wp_ret. split.
    + apply got_upd; [lia|done|cbn; lia|done|by rewrite decide_True].
    + apply mounted_same; try done; [cbn; lia|]. cbn. by apply (ca_valid _ _ HC).
  - pose proof (List.find_none _ _ Eh) as Hnone.
    assert (Hno : forall jp, used (icache f) jp -> inum_of (icache f) jp <> i).
    { intros jp HU E. specialize (Hnone jp). rewrite <- list_elem_of_In, elem_of_zrange in Hnone.
      specialize (Hnone ltac:(destruct HU; lia)). cbn in Hnone. pose proof (ca_dev _ _ HC jp HU) as Hd. unfold the_inode, inum_of in *.
      rewrite Hd, E, (proj2 (Z.ltb_lt 0 _)), !Z.eqb_refl in Hnone; [done|apply HU]. }
    eapply wp_step_run; [reflexivity|]. cbn beta. destruct (find (fun ip => _ =? 0) _) as [ip|] eqn:Ee.
    + apply List.find_some in Ee as [Hin Hr%Z.eqb_eq]. apply list_elem_of_In, elem_of_zrange in Hin.
      eapply wp_step_run; [apply upd_inode_run|]. apply wp_ret. split.
      * apply got_upd; [lia|done|cbn; lia|done|]. rewrite decide_False; [done|]. intros [_ ?]. unfold the_inode in Hr. lia.
      * apply mounted_new; try done; [lia|]. cbn. intros Hin'. destruct (HX Hin') as (jp & HU & E). by apply (Hno jp).
    + split; [done|]. intros ip Hip. pose proof (List.find_none _ _ Ee ip) as Hz.
      rewrite <- list_elem_of_In, elem_of_zrange in Hz. specialize (Hz ltac:(lia)). cbn in Hz. apply Z.eqb_neq in Hz.
      pose proof (ca_ref _ _ HC ip Hip). unfold the_inode in *.
      assert (Hr : 0 < i_ref (zget (icache f) ip)) by lia. split; [done|]. by apply Hno.
Qed.

Lemma idup_wp f v I X ip : mounted f v I X -> used (icache f) ip ->
  wp (idup ip) (fun r f' => r = ip /\ got f ip (inum_of (icache f) ip) f' /\ mounted f' v I X) (fun _ => False) f.
Proof.
  intros M HU. pose proof (mo_cache _ _ _ _ M) as HC. pose proof (ca_len _ _ HC) as Hl. pose proof HU as [Hip Hr].
  unfold idup. eapply wp_step_run; [apply upd_inode_run|]. apply wp_ret. split_and!; [done|..].
  - apply got_upd; [lia|done|cbn; unfold the_inode; lia|done|by rewrite decide_True].
  - apply mounted_same; try done; [cbn; unfold the_inode; lia|by apply (ca_dev _ _ HC)|by apply (ca_valid _ _ HC)].
Qed.

(** ** Locking *)

Definition lock_entry d e : inode := e <| i_locked := true |> <| i_pid := pid |> <| i_valid := true |> <| i_d := d |>.

Lemma inode_data f v I X ip d : mounted f v I X -> used (icache f) ip -> I !! inum_of (icache f) ip = Some d ->
  i_valid (the_inode ip f) = false -> read_dinode (blk v (IBLOCK sb (inum_of (icache f) ip))) (inum_of (icache f) ip mod IPB * 64) = d.
Proof.
  intros M HU Hd Hv. pose proof (mo_sync _ _ _ _ M _ (mounted_inum f v I X ip M HU)) as Hs. rewrite Hd in Hs. apply Hs.
  intros HX. pose proof (mo_dirty _ _ _ _ M ip HU HX). unfold the_inode in Hv. congruence.
Qed.

Lemma mounted_lock f v I X ip d s' : mounted f v I X -> used (icache f) ip -> I !! inum_of (icache f) ip = Some d ->
  bview s' v -> mounted (mkfs s' (zupd (icache f) ip (lock_entry d (the_inode ip f)))) v I X.
Proof.
  intros M HU Hd Hs. pose proof (mo_cache _ _ _ _ M) as HC. pose proof HU as [Hip Hr].
  assert (M' : mounted (mkfs (fdev f) (zupd (icache f) ip (lock_entry d (the_inode ip f)))) v I X).
  { apply mounted_same; try done; [cbn; unfold the_inode; lia|by apply (ca_dev _ _ HC)]. }
  destruct M' as [H1 H2 H3 H4 H5 H6]. by split.
Qed.

Lemma ilock_wp f v I X ip d : mounted f v I X -> used (icache f) ip -> i_locked (the_inode ip f) = false ->
  I !! inum_of (icache f) ip = Some d ->
  wp (ilock sb pid ip)
    (fun _ f' => exists s', f' = mkfs s' (zupd (icache f) ip (lock_entry d (the_inode ip f))) /\ mounted f' v I X)
    (fun _ => False) f.
Proof.
  intros M HU Hlk Hd. pose proof (mo_cache _ _ _ _ M) as HC. pose proof (ca_len _ _ HC) as Hl. pose proof HU as [Hip Hr].
  pose proof (mounted_inum f v I X ip M HU) as Hn. set (e := the_inode ip f) in *.
  assert (Hin : i_inum e = inum_of (icache f) ip) by done.
  unfold ilock. eapply wp_step_run; [reflexivity|]. fold e. rewrite (proj2 (Z.ltb_ge (i_ref e) 1)) by (unfold e, the_inode; lia).
  eapply wp_step_run; [unfold acquire_inode; erewrite bind_run by reflexivity; fold e; rewrite Hlk; apply upd_inode_run|].
  fold e. destruct (i_valid e) eqn:Ev; cbn [negb].
  - apply wp_ret. exists (fdev f). pose proof (ca_valid _ _ HC ip HU Ev) as Hd'. change (zget (icache f) ip) with e in Hd'.
    assert (El : e <| i_locked := true |> <| i_pid := pid |> = lock_entry d e).
    { unfold lock_entry. rewrite <- Ev. by assert (d = i_d e) as -> by congruence. }
    rewrite El. split; [done|apply mounted_lock; [done..|apply M]].
  - destruct (inode_blk sb Hsb v I (i_inum e) (mo_inv _ _ _ _ M) ltac:(rewrite Hin; lia)) as [Hblk _].
    pose proof (ca_dev _ _ HC ip HU) as Hdev. change (zget (icache f) ip) with e in Hdev. rewrite Hdev.
    eapply wpf_bread; [apply M|exact Hblk|by rewrite (mo_held _ _ _ _ M)|rewrite (mo_held _ _ _ _ M), map_size_empty; lia|].
    intros j s1 Hs1 Hdat. eapply wp_step_run; [reflexivity|]. cbn [fdev icache]. rewrite Hdat, Hin, (inode_data f v I X ip d M HU Hd Ev).
    eapply wp_step_run; [reflexivity|]. cbn [fdev icache].
    eapply wpf_brelse; [exact Hs1|apply lookup_insert_eq|]. intros s2 Hs2.
    rewrite unhold_hold in Hs2 by (by rewrite (mo_held _ _ _ _ M)).
    eapply wp_step_run; [apply upd_inode_run|]. eapply wp_step_run; [reflexivity|].
    unfold upd_inode, the_inode. cbn [fdev icache upd]. rewrite !zupd_zupd, !zget_zupd_eq by (rewrite ?zlen_zupd; lia).
    cbn [i_d upd]. destruct (fi_inode sb v I (mo_inv _ _ _ _ M) _ d Hd) as (_ & _ & Hty).
    rewrite (proj2 (Z.eqb_neq (d_type d) 0)) by done. apply wp_ret. exists s2. split; [done|]. by apply mounted_lock.
Qed.

Definition unlock_entry e : inode := e <| i_locked := false |> <| i_pid := 0 |>.

Lemma iunlock_wp f v I X ip : mounted f v I X -> used (icache f) ip -> i_locked (the_inode ip f) = true -> i_pid (the_inode ip f) = pid ->
  wp (iunlock pid ip)
    (fun _ f' => f' = mkfs (fdev f) (zupd (icache f) ip (unlock_entry (the_inode ip f))) /\ mounted f' v I X)
    (fun _ => False) f.
Proof.
  intros M HU Hlk Hp. pose proof (mo_cache _ _ _ _ M) as HC. pose proof HU as [Hip Hr].
  unfold iunlock. eapply wp_step_run; [reflexivity|]. rewrite Hlk, Hp, Z.eqb_refl, (proj2 (Z.ltb_ge (i_ref _) 1)) by (unfold the_inode; lia).
  cbn [andb negb orb]. eapply wp_run; [apply upd_inode_run|]. split; [done|].
  apply mounted_same; try done; [cbn; unfold the_inode; lia|by apply (ca_dev _ _ HC)|by apply (ca_valid _ _ HC)].
Qed.

(** ** Dropping references *)

(** The inode and its blocks are free again. *)
Record released v I i d v' : Prop := mkreleased {
  re_inv : fsinv v' (delete i I);
  re_held : vheld v' = ∅;
  re_sync : forall X, synced v I X -> synced v' (delete i I) (X ∖ {[i]});
  re_free : forall c, free sb v' c <-> free sb v c \/ upto v d (MAXFILE + 1) c;
  re_other : forall j d0, j <> i -> I !! j = Some d0 -> fdata v' d0 = fdata v d0;
  re_log : vlog v' ⊆ vlog v ∪ bmaps sb ∪ {[IBLOCK sb i]} }.

Definition dead d : dinode := (trunc d) <| d_type := 0 |>.

Lemma dead_ok d : dinode_ok d -> dinode_ok (dead d).
Proof. intros H. destruct (trunc_ok d H). by split. Qed.

Lemma released_ok v I i d v1 : fsinv v I -> I !! i = Some d -> truncated sb v I i d v1 -> released v I i d (iwrote sb i (dead d) v1).
Proof.
  intros HF Hi T. destruct (fi_inode sb v I HF i d Hi) as (Hr & Hok & _). pose proof (tc_inv _ _ _ _ _ _ T) as HF1.
  pose proof (IBLOCK_range sb Hsb i ltac:(lia)) as HI. set (v2 := iwrote sb i (dead d) v1).
  assert (HF2 : fsinv v2 (<[i := trunc d]> I)).
  { apply fsinv_inode; [done|done|lia|]. eapply iwrote_block; [done|exact HF1|lia|by apply dead_ok]. }
  split.
  - apply (fsinv_none sb v2 (<[i := trunc d]> I) _ i HF2).
    + intros d' n Hd' Hn. rewrite lookup_insert_eq in Hd'. injection Hd' as <-. by apply slot_none.
    + intros d'. by rewrite lookup_delete_eq.
    + intros j Hj. by rewrite lookup_delete_ne, lookup_insert_ne.
  - apply T.
  - intros X HX j Hj Hjx. unfold v2. rewrite (dinode_at_iwrote sb Hsb v1 _ i j (dead d) HF1) by (lia || by apply dead_ok).
    destruct (decide (j = i)) as [->|Hne]; [by rewrite lookup_delete_eq|]. rewrite lookup_delete_ne by done.
    pose proof (tc_sync _ _ _ _ _ _ T X HX j Hj Hjx) as Hs. by rewrite lookup_insert_ne in Hs.
  - intros c. rewrite <- (tc_free _ _ _ _ _ _ T). unfold free, v2, iwrote.
    split; intros [Hc Hb]; (split; [done|]); [|rewrite bit_wrote_inode by (done || lia); done].
    by rewrite bit_wrote_inode in Hb by (done || lia).
  - intros j e Hne He. rewrite <- (tc_other _ _ _ _ _ _ T j e Hne He).
    eapply fdata_frame; [exact HF1|by rewrite lookup_insert_ne|]. intros c m Hm. eapply iwrote_data; [done|exact HF1|lia|exact Hm].
  - pose proof (tc_log _ _ _ _ _ _ T) as Hlog. unfold v2, iwrote. cbn. clear -Hlog. set_solver.
Qed.

(** The last reference to an inode without links. *)
Definition last_ref e : bool := i_valid e && (d_nlink (i_d e) =? 0) && (i_ref e =? 1).

Definition put_entry e : inode :=
  let e := if last_ref e then e <| i_valid := false |> <| i_d := dead (i_d e) |> else e in
  (unlock_entry e) <| i_ref := i_ref e - 1 |>.

Lemma iput_keep f v I X ip : mounted f v I X -> used (icache f) ip -> inum_of (icache f) ip ∉ X -> last_ref (the_inode ip f) = false ->
  mounted (mkfs (fdev f) (zupd (icache f) ip (put_entry (the_inode ip f)))) v I X.
Proof.
  intros M HU HX Hl. pose proof (mo_cache _ _ _ _ M) as HC. pose proof HU as [Hip Hr]. unfold put_entry. rewrite Hl.
  apply mounted_same; try done; [cbn; unfold the_inode; lia|by apply (ca_dev _ _ HC)|by apply (ca_valid _ _ HC)].
Qed.

Lemma iput_release f v I X ip s' v' e' : mounted f v I X -> used (icache f) ip -> i_ref e' = 0 ->
  bview s' v' -> released v I (inum_of (icache f) ip) (i_d (the_inode ip f)) v' ->
  mounted (mkfs s' (zupd (icache f) ip e')) v' (delete (inum_of (icache f) ip) I) (X ∖ {[inum_of (icache f) ip]}).
Proof.
  intros M HU Hr Hs R. pose proof (mo_cache _ _ _ _ M) as HC. split; cbn; try apply R; try done.
  - apply M.
  - apply cached_drop; done.
  - intros jp [Hjp Hu]. unfold inum_of at 1. destruct (decide (jp = ip)) as [->|Hj].
    + rewrite zget_zupd_eq in Hu by (rewrite (ca_len _ _ HC); lia). lia.
    + rewrite zget_zupd_ne in Hu |- * by done. intros HX. apply (mo_dirty _ _ _ _ M jp); [done|]. clear -HX. set_solver.
Qed.

(** The part of iput that frees the inode. *)
Lemma iput_free_wp f ip e v I : open_file f ip e v I ->
  Z.of_nat (size ({[IBLOCK sb (i_inum e)]} ∪ (vlog v ∪ bmaps sb))) <= max_op ->
  wp (itrunc sb ip;; upd_d ip (fun d => d <| d_type := 0 |>);; iupdate sb ip;; upd_inode ip (fun e => e <| i_valid := false |>))
    (fun _ f' => exists v' s', f' = mkfs s' (zupd (icache f) ip (e <| i_valid := false |> <| i_d := dead (i_d e) |>)) /\
       bview s' v' /\ released v I (i_inum e) (i_d e) v')
    (fun _ => False) f.
Proof.
  intros HO Hmax. pose proof HO as [Hip He Hdev Hs Hh HF Hi]. destruct (fi_inode sb v I HF _ _ Hi) as (Hr & Hok & _).
  eapply wp_step; [by apply (itrunc_wp sb Hsb f ip e v I)| |done]. intros [] _ (v1 & s1 & -> & Hs1 & T).
  eapply wp_step_run; [by apply (upd_d_run f ip e (trunc (i_d e)) s1)|]. cbn beta. fold (dead (i_d e)).
  set (e2 := e <| i_d := dead (i_d e) |>).
  assert (He2 : the_inode ip (put_d f ip e (dead (i_d e)) s1) = e2) by by apply the_put_d.
  eapply wp_step; [apply (iupdate_gen sb Hsb _ ip e2 v1 (<[i_inum e := trunc (i_d e)]> I)); try done|..].
  - apply T.
  - apply T.
  - by apply dead_ok.
  - etransitivity; [|exact Hmax]. apply size_sub. pose proof (tc_log _ _ _ _ _ _ T) as Hlog. cbn. clear -Hlog. set_solver.
  - intros [] _ (s2 & -> & Hs2). eapply wp_run; [apply upd_inode_run|]. exists (iwrote sb (i_inum e) (dead (i_d e)) v1), s2.
    split_and!; [|done|by apply released_ok]. unfold put_d, the_inode. cbn [fdev icache].
    by rewrite zupd_zupd, zget_zupd_eq by lia.
  - done.
Qed.

Lemma iput_wp f v I X ip : mounted f v I X -> used (icache f) ip -> inum_of (icache f) ip ∉ X -> i_locked (the_inode ip f) = false ->
  (last_ref (the_inode ip f) = true ->
   Z.of_nat (size ({[IBLOCK sb (inum_of (icache f) ip)]} ∪ (vlog v ∪ bmaps sb))) <= max_op) ->
  let i := inum_of (icache f) ip in let d := i_d (the_inode ip f) in
  wp (iput sb pid ip)
    (fun _ f' => exists s', f' = mkfs s' (zupd (icache f) ip (put_entry (the_inode ip f))) /\
       if last_ref (the_inode ip f) then exists v', released v I i d v' /\ mounted f' v' (delete i I) (X ∖ {[i]})
       else mounted f' v I X)
    (fun _ => False) f.
Proof.
  intros M HU HX Hlk Hmax i d. pose proof (mo_cache _ _ _ _ M) as HC. pose proof (ca_len _ _ HC) as Hl. pose proof HU as [Hip Hr].
  set (e := the_inode ip f) in *.
  unfold iput. eapply wp_step_run; [unfold acquire_inode; erewrite bind_run by reflexivity; fold e; rewrite Hlk; apply upd_inode_run|].
  fold e. cbn beta. set (e1 := e <| i_locked := true |> <| i_pid := pid |>). set (f1 := mkfs (fdev f) (zupd (icache f) ip e1)).
  assert (He1 : the_inode ip f1 = e1) by (unfold f1, the_inode; cbn; apply zget_zupd_eq; lia).
  eapply wp_step_run; [reflexivity|]. rewrite He1. change (i_valid e1 && (d_nlink (i_d e1) =? 0) && (i_ref e1 =? 1)) with (last_ref e).
  pose proof (iput_keep f v I X ip M HU HX) as Hkeep. unfold put_entry in Hkeep |- *. fold e in Hkeep. destruct (last_ref e) eqn:El.
  - unfold last_ref in El. apply andb_prop in El as [[Ev _]%andb_prop Er%Z.eqb_eq].
    assert (HO : open_file f1 ip e1 v I).
    { destruct (mounted_open f v I X ip M HU Ev). split; try done. cbn. by rewrite zlen_zupd. }
    eapply wp_step; [apply (iput_free_wp f1 ip e1 v I HO)|..]; [by apply Hmax| |done].
    intros [] _ (v' & s' & -> & Hs' & R). eapply wp_step_run; [apply upd_inode_run|]. eapply wp_run; [apply upd_inode_run|].
    unfold the_inode. cbn [fdev icache]. unfold f1. cbn [icache]. rewrite !zupd_zupd, !zget_zupd_eq by (rewrite ?zlen_zupd; lia).
    exists s'. split; [done|]. exists v'. split; [done|]. apply (iput_release f v I X ip); try done. cbn. lia.
  - eapply wp_step_run; [reflexivity|]. eapply wp_step_run; [apply upd_inode_run|]. eapply wp_run; [apply upd_inode_run|].
    rewrite He1. unfold the_inode. cbn [fdev icache]. unfold f1. cbn [icache fdev]. rewrite !zupd_zupd, !zget_zupd_eq by (rewrite ?zlen_zupd; lia).
    exists (fdev f). split; [done|]. by apply Hkeep.
Qed.

(** ** New inodes *)

Definition new_dinode (type : Z) : dinode := dinode0 <| d_type := type |>.

Lemma new_dinode_ok type : is_s16 type -> dinode_ok (new_dinode type).
Proof. intros H. split; cbn; try done; unfold is_s16, is_u32; try lia. repeat apply Forall_cons_2; try lia. done. Qed.

(** The memset and the store of the type. *)
Lemma write_new (data : list Z) o type : zlen data = BSIZE -> 0 <= o -> o + 64 <= BSIZE -> is_s16 type ->
  fput 2 (splice data o (replicate 64 0)) o type = write_dinode o (new_dinode type) data.
Proof.
  intros Hl Ho Hr Ht. rewrite write_dinode_enc; [|by apply new_dinode_ok|lia..].
  unfold fput. change (replicate 64 0) with (replicate 2 0 ++ replicate 62 0).
  rewrite splice_over; [done|done|change (zlen (replicate 2 0 ++ replicate 62 0)) with 64; lia|by rewrite zlen_to_le].
Qed.

Lemma type_zero v I i : fsinv v I -> synced v I ∅ -> 0 < i < sb_ninodes sb ->
  (fget 2 (blk v (IBLOCK sb i)) (i mod IPB * 64) =? 0) = bool_decide (I !! i = None).
Proof.
  intros HF HS Hi. destruct (inode_blk sb Hsb v I i HF ltac:(lia)) as [_ [Hl Hb]]. destruct (inode_offset i) as [Ho Hr].
  pose proof (fget_range 2 (blk v (IBLOCK sb i)) (i mod IPB * 64) Hb Ho ltac:(rewrite Hl; lia)) as Hrange.
  specialize (HS i Hi ltac:(set_solver)). set (x := fget 2 _ _) in *. change (256 ^ Z.of_nat 2) with 65536 in Hrange.
  assert (Hx : s16 x = 0 <-> x = 0).
  { unfold s16. split; [|by intros ->]. intros E. pose proof (Z.div_mod (x + 2 ^ 15) (2 ^ 16) ltac:(done)). lia. }
  destruct (I !! i) as [d|] eqn:Ei.
  - rewrite bool_decide_false by done. apply Z.eqb_neq. intros Ex%Hx.
    destruct (fi_inode sb v I HF i d Ei) as (_ & _ & Hty). apply Hty. by rewrite <- HS.
  - rewrite bool_decide_true by done. apply Z.eqb_eq, Hx. exact HS.
Qed.

Lemma cached_more C I i d : cached C I -> I !! i = None -> cached C (<[i := d]> I).
Proof.
  intros HC Hi. assert (Ho : forall ip, used C ip -> (<[i := d]> I) !! inum_of C ip = I !! inum_of C ip).
  { intros ip HU. apply lookup_insert_ne. intros E. destruct (ca_inode C I HC ip HU) as [x Hx]. congruence. }
  split; try apply HC; intros ip HU; rewrite Ho by done; by apply HC.
Qed.

Lemma mounted_ialloc f v I i type s' : mounted f v I ∅ -> 0 < i < sb_ninodes sb -> I !! i = None -> is_s16 type -> type <> 0 ->
  let v' := iwrote sb i (new_dinode type) v in bview s' v' ->
  mounted (mkfs s' (icache f)) v' (<[i := new_dinode type]> I) ∅.
Proof.
  intros M Hi Hn Ht Ht0 v' Hs. pose proof (mo_inv _ _ _ _ M) as HF. pose proof (new_dinode_ok type Ht) as Hok.
  pose proof (IBLOCK_range sb Hsb i ltac:(lia)) as HI.
  assert (HF1 : fsinv v (<[i := new_dinode type]> I)).
  { apply (fsinv_none sb v I _ i HF); [congruence| |intros j Hj; by rewrite lookup_insert_ne].
    intros d. rewrite lookup_insert_eq. injection 1 as <-. split_and!; try done; try lia. intros n ?. by apply slot_none. }
  split; cbn; [done|apply M| | |apply cached_more; [apply M|done]|].
  - apply fsinv_inode; [done|done|lia|]. eapply iwrote_block; [done|exact HF1|lia|done].
  - eapply (synced_mono sb Hsb _ _ ((∅ ∪ {[i]}) ∖ {[i]})); [set_solver|].
    apply synced_iwrote; [done|exact HF1|apply lookup_insert_eq|]. apply synced_dirty, M.
  - intros ip _. set_solver.
Qed.

Definition no_inode f I msg : Prop :=
  (msg = "ialloc: no inodes" /\ forall i, 0 < i < sb_ninodes sb -> is_Some (I !! i)) \/
  (exists i, cache_full f i msg).

Record allocated f v I type ip i f' : Prop := mkallocated {
  al_range : 0 < i < sb_ninodes sb;
  al_free : I !! i = None;
  al_first : forall j, 0 < j < i -> is_Some (I !! j);
  al_got : got (mkfs (fdev f') (icache f)) ip i f';
  al_mounted : mounted f' (iwrote sb i (new_dinode type) v) (<[i := new_dinode type]> I) ∅ }.

Lemma ialloc_take f v I i type j s1 : mounted f v I ∅ -> 0 < i < sb_ninodes sb -> I !! i = None ->
  (forall j, 0 < j < i -> is_Some (I !! j)) -> is_s16 type -> type <> 0 ->
  Z.of_nat (size (vlog v)) + 1 <= max_op -> bview s1 (hold (IBLOCK sb i) j v) ->
  wp (ondev (bset j (fun data => fput 2 (splice data (i mod IPB * 64) (replicate 64 0)) (i mod IPB * 64) type);; log_write j);;
      ondev (brelse j);; iget 1 i)
    (fun ip f' => exists i, allocated f v I type ip i f') (no_inode f I) (mkfs s1 (icache f)).
Proof.
  intros M Hi Hn Hlt Ht Ht0 Hmax Hs1. pose proof (mo_inv _ _ _ _ M) as HF.
  destruct (inode_blk sb Hsb v I i HF ltac:(lia)) as [Hblk Hbok]. destruct (inode_offset i) as [Ho Hr].
  assert (Hw : fput 2 (splice (blk v (IBLOCK sb i)) (i mod IPB * 64) (replicate 64 0)) (i mod IPB * 64) type =
               write_dinode (i mod IPB * 64) (new_dinode type) (blk v (IBLOCK sb i))) by (apply write_new; try done; apply Hbok).
  eapply (wpf_log _ _ _ _ (hold (IBLOCK sb i) j v)); [exact Hs1|apply lookup_insert_eq|exact Hblk| | |].
  { pose proof (size_add (vlog v) (IBLOCK sb i)). cbn. lia. }
  { rewrite Hw. apply (iwrote_block sb Hsb v I); [done|lia|by apply new_dinode_ok]. }
  cbn beta. rewrite Hw. intros s2 Hs2. eapply wpf_brelse; [exact Hs2|apply lookup_insert_eq|]. cbn [fdev icache]. intros s3 Hs3.
  rewrite unhold_wrote in Hs3 by (by rewrite (mo_held _ _ _ _ M)).
  pose proof (mounted_ialloc f v I i type s3 M Hi Hn Ht Ht0 Hs3) as M3.
  eapply wp_mono; [apply (iget_wp _ _ _ _ i M3)| |].
  - rewrite lookup_insert_eq. by eexists.
  - set_solver.
  - cbn. intros ip f' [G M']. exists i. split; try done. by rewrite (go_dev _ _ _ _ G).
  - cbn. intros msg Hfull. right. by exists i.
Qed.

Lemma ialloc_loop_wp f v I type : is_s16 type -> type <> 0 -> Z.of_nat (size (vlog v)) + 1 <= max_op -> mounted f v I ∅ ->
  forall fuel s i, bview s v -> 0 < i <= sb_ninodes sb -> sb_ninodes sb - i < Z.of_nat fuel -> (forall j, 0 < j < i -> is_Some (I !! j)) ->
  wp (ialloc_loop sb fuel 1 i type) (fun ip f' => exists i, allocated f v I type ip i f') (no_inode f I) (mkfs s (icache f)).
Proof.
  intros Ht Ht0 Hmax M. pose proof (mo_inv _ _ _ _ M) as HF. pose proof (mo_held _ _ _ _ M) as Hh.
  induction fuel as [|fuel IH]; intros s i Hs Hi Hf Hlt; [lia|]. cbn [ialloc_loop].
  destruct (Z.leb_spec (sb_ninodes sb) i) as [Hend|Hin]; [left; split; [done|]; intros j Hj; apply Hlt; lia|].
  destruct (inode_blk sb Hsb v I i HF ltac:(lia)) as [Hblk _].
  eapply wpf_bread; [exact Hs|exact Hblk|by rewrite Hh|rewrite Hh, map_size_empty; lia|]. cbn [icache]. intros j s1 Hs1 Hdat.
  eapply wp_step_run; [reflexivity|]. cbn [fdev icache]. rewrite Hdat. cbn zeta.
  rewrite (type_zero v I i HF (mo_sync _ _ _ _ M)) by lia. case_bool_decide as Hn.
  - apply (ialloc_take f); try done. lia.
  - eapply wpf_brelse; [exact Hs1|apply lookup_insert_eq|]. intros s2 Hs2. rewrite unhold_hold in Hs2 by (by rewrite Hh).
    cbn [icache]. apply IH; [done|lia|lia|]. intros k Hk. destruct (decide (k = i)) as [->|]; [|apply Hlt; lia].
    destruct (I !! i); [by eexists|done].
Qed.

Lemma ialloc_wp f v I type : mounted f v I ∅ -> is_s16 type -> type <> 0 -> Z.of_nat (size (vlog v)) + 1 <= max_op ->
  wp (ialloc sb 1 type) (fun ip f' => exists i, allocated f v I type ip i f') (no_inode f I) f.
Proof.
  intros M Ht Ht0 Hmax. unfold ialloc. pose proof (so_ninodes sb Hsb).
  destruct f as [s C]. eapply (ialloc_loop_wp (mkfs s C)); try done; try lia. apply M.
Qed.
End ops.

(** ** Counting references *)

Section refs.
Implicit Types (C : list inode) (e : inode) (i ip : Z).

(** The references to inode [i], over all entries. *)
Definition refs_at i e : Z := if i_inum e =? i then i_ref e else 0.
Fixpoint refs C i : Z :=
  match C with
  | [] => 0
  | e :: C => refs_at i e + refs C i
  end.

Lemma refs_zupd C ip e i : 0 <= ip < zlen C -> refs (zupd C ip e) i = refs C i - refs_at i (zget C ip) + refs_at i e.
Proof.
  intros Hip. unfold zupd. rewrite decide_True by lia.
  pose proof (zlookup_zget C ip Hip) as Hz. rewrite zlookup_to_nat in Hz by lia. revert Hz. generalize (zget C ip). intros x.
  generalize (Z.to_nat ip). clear Hip ip. induction C as [|y C IH]; intros [|n] Hn; try done.
  - injection Hn as ->. cbn. lia.
  - specialize (IH n Hn). apply (f_equal (Z.add (refs_at i y))) in IH. etransitivity; [exact IH|]. cbn. lia.
Qed.

Lemma refs_same C ip e i : 0 <= ip < zlen C -> i_inum e = i_inum (zget C ip) -> i_ref e = i_ref (zget C ip) ->
  refs (zupd C ip e) i = refs C i.
Proof. intros Hip Hi Hr. rewrite refs_zupd by done. unfold refs_at. rewrite Hi, Hr. lia. Qed.
End refs.

Section count.
Context {S : Type}.
Implicit Types (f : fs S) (I : gmap Z dinode) (i j ip : Z).

(** iget and idup add one reference to the inode, iput takes one away. *)
Lemma refs_got f I ip i f' j : cached (icache f) I -> got f ip i f' ->
  refs (icache f') j = refs (icache f) j + (if decide (j = i) then 1 else 0).
Proof.
  intros HC [[Hip _] Hi _ Hc He]. pose proof (ca_len _ _ HC) as Hl. rewrite Hc, refs_zupd by lia. unfold refs_at, inum_of in *.
  change (zget (icache f') ip) with (the_inode ip f') in Hi. rewrite Hi.
  pose proof (ca_ref _ _ HC ip Hip) as Hr0. destruct (decide (used (icache f) ip)) as [HU|HU].
  - rewrite He in Hi |- *. cbn in Hi |- *. unfold the_inode in *. rewrite Hi.
    destruct (Z.eqb_spec i j), (decide (j = i)); congruence || lia.
  - assert (i_ref (zget (icache f) ip) = 0) as -> by (unfold used in HU; lia). destruct He as [-> _].
    destruct (Z.eqb_spec i j), (decide (j = i)), (_ =? j); congruence || lia.
Qed.

Lemma refs_put (C : list inode) ip j : 0 <= ip < zlen C ->
  refs (zupd C ip (put_entry (zget C ip))) j = refs C j - (if decide (j = inum_of C ip) then 1 else 0).
Proof.
  intros Hip. rewrite refs_zupd by done. unfold refs_at, put_entry, inum_of. set (e := zget C ip).
  destruct (last_ref e); cbn; destruct (Z.eqb_spec (i_inum e) j), (decide (j = i_inum e)); congruence || lia.
Qed.
End count.
