(* ===== verification/FsDir.v ===== *)
(** * Directories

    dirlookup and dirlink of fs.c.  A directory is a file of 16-byte entries; dirlookup
    finds the first entry in use with the name, and dirlink puts a new one in the first
    empty place, after which dirlookup finds it and all the others as before. *)

From S2P Require Import Prelude CString Bytes Blocks Fs FsBlocks FsInode FsData FsWrite FsTrunc FsCache.
From stdpp Require Import gmap.
#[local] Open Scope Z_scope.

(** ** Names *)

(** Names are compared up to 14 bytes. *)
Definition name_of (s : list Z) : list Z := take 14 (until_nul s).

Lemma strncmp_bytes_ok n : forall s t, strncmp_bytes n s t = 0 <-> take n (until_nul s) = take n (until_nul t).
Proof.
  induction n as [|n IH]; intros s t; [done|]. cbn [strncmp_bytes].
  destruct s as [|c s], t as [|c' t]; cbn [chr head default until_nul tail]; try done.
  - cbn. destruct (Z.eqb_spec c' 0) as [->|]; [done|]. split; [lia|done].
  - cbn. destruct (Z.eqb_spec c 0) as [->|]; [done|]. cbn. destruct (Z.eqb_spec c 0); [done|]. split; [lia|done].
  - unfold id. cbn. destruct (Z.eqb_spec c 0) as [->|Hc]; cbn.
    { destruct (Z.eqb_spec c' 0) as [->|]; [done|]. split; [lia|done]. }
    destruct (Z.eqb_spec c c') as [->|Hne]; cbn.
    { rewrite (proj2 (Z.eqb_neq c' 0)) by done. cbn. rewrite IH. split; [by intros ->|]. by injection 1. }
    split; [lia|]. destruct (Z.eqb_spec c' 0); [done|]. cbn. congruence.
Qed.

Lemma name_of_bytes s : Forall is_u8 s -> Forall is_u8 (name_of s).
Proof. intros H. apply Forall_take. induction H as [|x l Hx Hl IH]; [done|]. cbn. destruct (x =? 0); [done|by constructor]. Qed.

Lemma namecmp_ok s t : namecmp s t = 0 <-> name_of s = name_of t.
Proof. apply strncmp_bytes_ok. Qed.

(** The byte-list versions do what string.c does to memory. *)
Lemma strncmp_bytes_mem m n : forall p q s t,
  (forall k, (k < n)%nat -> m (u32 (p + Z.of_nat k)) = default 0 (s !! k)) ->
  (forall k, (k < n)%nat -> m (u32 (q + Z.of_nat k)) = default 0 (t !! k)) ->
  is_u32 p -> is_u32 q -> strncmp m p q n = strncmp_bytes n s t.
Proof.
  induction n as [|n IH]; intros p q s t Hs Ht Hp Hq; [done|]. cbn [strncmp strncmp_bytes].
  pose proof (Hs 0%nat ltac:(lia)) as Hs0. pose proof (Ht 0%nat ltac:(lia)) as Ht0.
  rewrite Z.add_0_r, u32_small in Hs0, Ht0 by done.
  assert (Es : chr s = m p) by (rewrite Hs0; by destruct s). assert (Et : chr t = m q) by (rewrite Ht0; by destruct t).
  rewrite Es, Et. destruct (negb (m p =? 0) && (m p =? m q)); [|done]. apply IH.
  - intros k Hk. specialize (Hs (S k) ltac:(lia)). rewrite lookup_tail, <- Hs, u32_add_u32_l. do 2 f_equal. lia.
  - intros k Hk. specialize (Ht (S k) ltac:(lia)). rewrite lookup_tail, <- Ht, u32_add_u32_l. do 2 f_equal. lia.
  - apply u32_range.
  - apply u32_range.
Qed.

Lemma until_nul_id s : Forall (fun c => c <> 0) s -> until_nul s = s.
Proof. induction 1 as [|c s Hc Hs IH]; [done|]. cbn. by rewrite (proj2 (Z.eqb_neq c 0)), IH. Qed.

Lemma until_nul_app s t : until_nul (s ++ t) = if decide (0 ∈ s) then until_nul s else s ++ until_nul t.
Proof.
  induction s as [|c s IH]; [done|]. cbn. destruct (Z.eqb_spec c 0) as [->|Hc].
  - by rewrite decide_True by (left; done).
  - rewrite IH. destruct (decide (0 ∈ s)) as [Hin|Hin]; [by rewrite decide_True by (by right)|].
    rewrite decide_False; [done|]. intros [?|?]%elem_of_cons; congruence.
Qed.

Lemma until_nul_no_nul s : 0 ∉ until_nul s.
Proof.
  induction s as [|c s IH]; cbn; [apply not_elem_of_nil|]. destruct (Z.eqb_spec c 0); [apply not_elem_of_nil|].
  intros [?|?]%elem_of_cons; [lia|done].
Qed.

Lemma strncpy_bytes_mem m s t l n x : cstr_at m t l -> 0 <= n -> CString.block s n -> apart s n t (zlen l + 1) ->
  strncpy m s t n x = write m s (strncpy_bytes n l) x.
Proof.
  intros Hl Hn Hb Ha. rewrite (strncpy_ok m s t l n x Hl Hn Hb Ha). f_equal. unfold strncpy_bytes.
  destruct Hl as (_ & Hnz & _). rewrite until_nul_id by (apply Forall_lookup; intros i c Hc; by apply (Hnz i)).
  rewrite take_app, take_replicate, length_take. do 2 f_equal. lia.
Qed.

Lemma zlen_strncpy n t : 0 <= n -> zlen (strncpy_bytes n t) = n.
Proof. intros Hn. unfold zlen, strncpy_bytes. rewrite length_app, length_replicate. pose proof (length_take (until_nul t) (Z.to_nat n)). lia. Qed.

(** The stored name is the name. *)
Lemma name_of_strncpy t : name_of (strncpy_bytes 14 t) = name_of t.
Proof.
  unfold name_of, strncpy_bytes. change (Z.to_nat 14) with 14%nat. set (w := take 14 (until_nul t)).
  assert (Hw : 0 ∉ w) by (intros H%elem_of_take; destruct H as (i & Hi & _); eapply until_nul_no_nul, list_elem_of_lookup_2, Hi).
  rewrite until_nul_app, decide_False by done.
  assert (until_nul (replicate (14 - length w) 0) = []) as -> by (by destruct (14 - length w)%nat).
  rewrite app_nil_r. unfold w. rewrite take_take. done.
Qed.

(** ** Entries *)

Definition dirent (inum : Z) (name : list Z) : list Z := to_le 2 inum ++ strncpy_bytes DIRSIZ name.
Definition entry (c : list Z) (k : Z) : list Z := slice c (16 * k) 16.
Definition entry_matches (c name : list Z) (k : Z) : bool :=
  negb (de_inum (entry c k) =? 0) && (namecmp name (de_name (entry c k)) =? 0).

(** The first entry with the name. *)
Definition lookup_name (c name : list Z) : option Z :=
  find (entry_matches c name) (zrange 0 (zlen c / 16 - 1)).

(** Where dirlink puts a new entry. *)
Definition first_empty (c : list Z) : Z :=
  default (zlen c / 16) (find (fun k => de_inum (entry c k) =? 0) (zrange 0 (zlen c / 16 - 1))).

Definition link_entry (c name : list Z) (inum : Z) : list Z := splice c (16 * first_empty c) (dirent inum name).

Lemma zlen_dirent inum name : zlen (dirent inum name) = 16.
Proof. unfold dirent. by rewrite zlen_app, zlen_to_le, zlen_strncpy. Qed.

Lemma dirent_inum inum name : 0 <= inum < 2 ^ 16 -> de_inum (dirent inum name) = inum.
Proof.
  intros H. unfold de_inum, dirent. change (to_le 2 inum ++ ?w) with ([] ++ to_le 2 inum ++ w). rewrite fget_app by done.
  by apply Z.mod_small.
Qed.

Lemma dirent_name inum name : de_name (dirent inum name) = strncpy_bytes DIRSIZ name.
Proof.
  unfold de_name, dirent, slice. rewrite drop_app_length' by (by rewrite length_to_le).
  apply take_ge. pose proof (zlen_strncpy DIRSIZ name ltac:(done)) as H. unfold zlen in H. lia.
Qed.

Section entries.
Implicit Types (c name : list Z) (k j : Z).

Lemma entry_splice c w k j : zlen w = 16 -> 0 <= k -> 0 <= j -> 16 * k <= zlen c -> (16 | zlen c) -> 16 * j < Z.max (zlen c) (16 * k + 16) ->
  entry (splice c (16 * k) w) j = if decide (j = k) then w else entry c j.
Proof.
  intros Hw Hk Hj Hle [q Hq] Hlt. unfold entry.
  assert (Hl : zlen (splice c (16 * k) w) = Z.max (zlen c) (16 * k + 16)) by (rewrite zlen_splice_ext; lia).
  assert (Hs : zlen (slice (splice c (16 * k) w) (16 * j) 16) = 16) by (apply zlen_slice; lia).
  apply zlist_ext'.
  - rewrite Hs. case_decide; [done|]. symmetry. apply zlen_slice; lia.
  - rewrite Hs. intros i Hi. rewrite zlookup_slice, zlookup_splice_ext by lia.
    destruct (decide (j = k)) as [->|Hne].
    + rewrite decide_True by lia. f_equal. lia.
    + rewrite decide_False by lia. by rewrite zlookup_slice by lia.
Qed.

Lemma first_empty_range c : (16 | zlen c) -> 0 <= first_empty c /\ 16 * first_empty c <= zlen c /\
  (16 * first_empty c < zlen c -> de_inum (entry c (first_empty c)) = 0).
Proof.
  intros [q Hq]. assert (0 <= zlen c) by (unfold zlen; lia). rewrite Hq in *. unfold first_empty. rewrite Hq, Z.div_mul by lia.
  destruct (find _ _) as [k|] eqn:E; cbn; [|lia].
  apply List.find_some in E as [Hin Hk%Z.eqb_eq]. apply list_elem_of_In, elem_of_zrange in Hin. split_and!; [lia..|done].
Qed.

Lemma link_size c name inum : (16 | zlen c) -> (16 | zlen (link_entry c name inum)) /\
  zlen (link_entry c name inum) = Z.max (zlen c) (16 * first_empty c + 16).
Proof.
  intros Hd. destruct (first_empty_range c Hd) as (H0 & H1 & _). destruct Hd as [q Hq].
  assert (Hl : zlen (link_entry c name inum) = Z.max (zlen c) (16 * first_empty c + 16)).
  { unfold link_entry. rewrite zlen_splice_ext, zlen_dirent; lia. }
  split; [|done]. rewrite Hl. exists (Z.max q (first_empty c + 1)). lia.
Qed.

Lemma lookup_name_Some c name k : lookup_name c name = Some k <->
  0 <= k < zlen c / 16 /\ entry_matches c name k = true /\ forall j, 0 <= j < k -> entry_matches c name j = false.
Proof.
  unfold lookup_name. split.
  - intros E. pose proof E as [Hin Hm]%List.find_some. apply list_elem_of_In, elem_of_zrange in Hin.
    split_and!; [lia..|done|]. intros j Hj. by eapply find_first; [exact E|].
  - intros (Hk & Hm & Hlt). destruct (find _ _) as [k'|] eqn:E.
    + pose proof E as [Hin' Hm']%List.find_some. apply list_elem_of_In, elem_of_zrange in Hin'. f_equal.
      destruct (Z.lt_trichotomy k k') as [H|[H|H]]; [|done|rewrite Hlt in Hm' by lia; done].
      rewrite (find_first _ _ _ _ E k) in Hm by lia. done.
    + pose proof (List.find_none _ _ E k) as Hn. rewrite <- list_elem_of_In, elem_of_zrange in Hn. rewrite Hn in Hm by lia. done.
Qed.

Lemma lookup_name_None c name : lookup_name c name = None <-> forall k, 0 <= k < zlen c / 16 -> entry_matches c name k = false.
Proof.
  unfold lookup_name. split.
  - intros E k Hk. pose proof (List.find_none _ _ E k) as Hn. rewrite <- list_elem_of_In, elem_of_zrange in Hn. apply Hn. lia.
  - intros H. destruct (find _ _) as [k|] eqn:E; [|done]. pose proof E as [Hin Hm]%List.find_some.
    apply list_elem_of_In, elem_of_zrange in Hin. rewrite H in Hm by lia. done.
Qed.

Lemma matches_link c name n inum k : (16 | zlen c) -> 0 <= k -> 16 * k < zlen (link_entry c name inum) -> 0 < inum < 2 ^ 16 ->
  entry_matches (link_entry c name inum) n k =
    if decide (k = first_empty c) then bool_decide (name_of n = name_of name) else entry_matches c n k.
Proof.
  intros Hd Hk Hlt Hi. destruct (link_size c name inum Hd) as [_ Hl]. destruct (first_empty_range c Hd) as (H0 & H1 & H2).
  unfold entry_matches, link_entry. rewrite entry_splice by (done || apply zlen_dirent || lia). case_decide; [|done].
  rewrite dirent_inum, dirent_name, (proj2 (Z.eqb_neq inum 0)) by lia. cbn [negb andb].
  pose proof (namecmp_ok n (strncpy_bytes DIRSIZ name)) as Hn. unfold DIRSIZ in Hn |- *. rewrite name_of_strncpy in Hn.
  case_bool_decide as E; [by apply Z.eqb_eq, Hn|]. apply Z.eqb_neq. by rewrite Hn.
Qed.

(** The new name is found where it was put, and every other name where it was. *)
Lemma lookup_link c name n inum : (16 | zlen c) -> 0 < inum < 2 ^ 16 -> lookup_name c name = None ->
  lookup_name (link_entry c name inum) n =
    if decide (name_of n = name_of name) then Some (first_empty c) else lookup_name c n.
Proof.
  intros Hd Hi Hno. destruct (link_size c name inum Hd) as [[q' Hq'] Hl]. destruct (first_empty_range c Hd) as (H0 & H1 & H2).
  pose proof Hd as [q Hq]. pose proof (lookup_name_None c name) as [Hnone _]. specialize (Hnone Hno). rewrite Hq, Z.div_mul in Hnone by lia.
  assert (Hcong : forall k, entry_matches c n k = true -> name_of n = name_of name -> entry_matches c name k = true).
  { intros k Hm E. unfold entry_matches in *. apply andb_prop in Hm as [-> Hm%Z.eqb_eq]. apply Z.eqb_eq, namecmp_ok.
    rewrite <- E. by apply namecmp_ok. }
  assert (Hemp : forall m, 16 * first_empty c < zlen c -> entry_matches c m (first_empty c) = false).
  { intros m Hm. unfold entry_matches. by rewrite (H2 Hm). }
  case_decide as E.
  - apply lookup_name_Some. rewrite Hq', Z.div_mul by lia. split_and!; [lia..| |].
    + rewrite matches_link by lia || done. rewrite decide_True by done. by apply bool_decide_true.
    + intros j Hj. rewrite matches_link by lia || done. rewrite decide_False by lia. apply not_true_is_false.
      intros Hm. specialize (Hcong j Hm E). rewrite Hnone in Hcong by lia. done.
  - destruct (lookup_name c n) as [k|] eqn:Ek.
    + apply lookup_name_Some in Ek as (Hk & Hm & Hlt). rewrite Hq, Z.div_mul in Hk by lia. apply lookup_name_Some.
      rewrite Hq', Z.div_mul by lia. split_and!; [lia..| |].
      * rewrite matches_link by lia || done. case_decide as Ef; [|done]. subst k. rewrite Hemp in Hm by lia. done.
      * intros j Hj. rewrite matches_link by lia || done. case_decide; [by apply bool_decide_false|by apply Hlt].
    + apply lookup_name_None. rewrite Hq', Z.div_mul by lia. intros k Hk. rewrite matches_link by lia || done.
      case_decide; [by apply bool_decide_false|]. pose proof (lookup_name_None c n) as [Hn _]. apply (Hn Ek). rewrite Hq, Z.div_mul by lia. lia.
Qed.
(** The inode numbers found. *)
Definition found c name : option Z := match lookup_name c name with Some k => Some (de_inum (entry c k)) | None => None end.

Lemma entry_link c name inum k : (16 | zlen c) -> 0 <= k -> 16 * k < zlen (link_entry c name inum) ->
  entry (link_entry c name inum) k = if decide (k = first_empty c) then dirent inum name else entry c k.
Proof.
  intros Hd Hk Hlt. destruct (first_empty_range c Hd) as (H0 & H1 & _). destruct (link_size c name inum Hd) as [_ Hl].
  unfold link_entry. rewrite entry_splice; [done|apply zlen_dirent|lia|lia|lia|done|lia].
Qed.

Lemma lookup_entry c name k : (16 | zlen c) -> lookup_name c name = Some k ->
  0 <= k /\ 16 * k < zlen c /\ de_inum (entry c k) <> 0 /\ name_of (de_name (entry c k)) = name_of name.
Proof.
  intros [q Hq] (Hk & Hm & _)%lookup_name_Some. apply andb_prop in Hm as [Hnz%negb_true_iff%Z.eqb_neq Hn%Z.eqb_eq%namecmp_ok].
  rewrite Hq, Z.div_mul in Hk by lia. split_and!; [lia..|done|done].
Qed.

Lemma found_link c name n inum : (16 | zlen c) -> 0 < inum < 2 ^ 16 -> lookup_name c name = None ->
  found (link_entry c name inum) n = if decide (name_of n = name_of name) then Some inum else found c n.
Proof.
  intros Hd Hi Hno. destruct (first_empty_range c Hd) as (H0 & H1 & H2). destruct (link_size c name inum Hd) as [_ Hl].
  unfold found. rewrite lookup_link by done. destruct (decide (name_of n = name_of name)).
  - rewrite entry_link by (done || lia). rewrite decide_True by done. by rewrite dirent_inum by lia.
  - destruct (lookup_name c n) as [k|] eqn:Ek; [|done]. destruct (lookup_entry c n k Hd Ek) as (Hk & Hlt & Hnz & _).
    rewrite entry_link by (done || lia). rewrite decide_False; [done|]. intros ->. apply Hnz, H2. lia.
Qed.

(** An entry is cleared. *)
Definition clear_entry c k : list Z := splice c (16 * k) (replicate 16 0).

(** No name has two entries. *)
Definition names_ok c : Prop := forall name k j, 0 <= k < zlen c / 16 -> 0 <= j < zlen c / 16 ->
  entry_matches c name k = true -> entry_matches c name j = true -> k = j.

Lemma zlen_clear c k : 0 <= k -> 16 * k + 16 <= zlen c -> zlen (clear_entry c k) = zlen c.
Proof. intros Hk Hl. unfold clear_entry. by rewrite zlen_splice by (change (zlen (replicate 16 0)) with 16; lia). Qed.

Lemma entry_clear c k j : (16 | zlen c) -> 0 <= k -> 16 * k < zlen c -> 0 <= j -> 16 * j < zlen c ->
  entry (clear_entry c k) j = if decide (j = k) then replicate 16 0 else entry c j.
Proof. intros Hd Hk Hl Hj Hlj. apply entry_splice; [done|lia|lia|lia|done|lia]. Qed.

Lemma matches_cong c n m k : name_of n = name_of m -> entry_matches c n k = entry_matches c m k.
Proof.
  intros E. unfold entry_matches. f_equal. pose proof (namecmp_ok n (de_name (entry c k))) as Hn. rewrite E, <- namecmp_ok in Hn.
  destruct (Z.eqb_spec (namecmp n (de_name (entry c k))) 0), (Z.eqb_spec (namecmp m (de_name (entry c k))) 0); tauto.
Qed.

Lemma lookup_name_same c c' n n' : zlen c' = zlen c -> (forall k, 0 <= k < zlen c / 16 -> entry_matches c' n' k = entry_matches c n k) ->
  lookup_name c' n' = lookup_name c n.
Proof.
  intros Hl Hm. destruct (lookup_name c n) as [k|] eqn:E.
  - apply lookup_name_Some in E as (Hk & Hk' & Hlt). apply lookup_name_Some. rewrite Hl. split; [done|]. rewrite Hm by done. split; [done|].
    intros j Hj. rewrite Hm by lia. by apply Hlt.
  - rewrite lookup_name_None in E |- *. rewrite Hl. intros k Hk. rewrite Hm by done. by apply E.
Qed.

Lemma found_clear c name n k : (16 | zlen c) -> names_ok c -> lookup_name c name = Some k ->
  found (clear_entry c k) n = if decide (name_of n = name_of name) then None else found c n.
Proof.
  intros Hd HN Hk. pose proof (lookup_entry c name k Hd Hk) as (H0 & Hlt & Hnz & Hnm). pose proof Hd as [q Hq].
  pose proof (zlen_clear c k H0 ltac:(lia)) as Hl. apply lookup_name_Some in Hk as (Hr & Hm & _).
  assert (Hat : forall j, 0 <= j < zlen c / 16 -> entry_matches (clear_entry c k) n j = if decide (j = k) then false else entry_matches c n j).
  { intros j Hj. rewrite Hq, Z.div_mul in Hj by lia. unfold entry_matches. rewrite entry_clear by (done || lia). by destruct (decide (j = k)). }
  unfold found. destruct (decide (name_of n = name_of name)) as [E|E].
  - assert (lookup_name (clear_entry c k) n = None) as ->; [|done]. apply lookup_name_None. rewrite Hl. intros j Hj. rewrite Hat by done.
    destruct (decide (j = k)) as [|Hjk]; [done|]. rewrite (matches_cong c n name j E). destruct (entry_matches c name j) eqn:Ej; [|done].
    destruct Hjk. by apply (HN name).
  - assert (Hsame : lookup_name (clear_entry c k) n = lookup_name c n).
    { apply lookup_name_same; [done|]. intros j Hj. rewrite Hat by done. destruct (decide (j = k)) as [->|]; [|done]. symmetry.
      apply andb_false_intro2, Z.eqb_neq. intros Hc%namecmp_ok. congruence. }
    rewrite Hsame. destruct (lookup_name c n) as [j|] eqn:Ej; [|done]. pose proof (lookup_entry c n j Hd Ej) as (Hj0 & Hjl & _ & Hjn).
    rewrite entry_clear by (done || lia). rewrite decide_False; [done|]. intros ->. congruence.
Qed.
End entries.

(** ** Running them *)

Section run.
Context {S : Type} {B : BlockDev S} {L : BlockLaws S B} (sb : superblock) (Hsb : sb_ok sb) (pid : Z).
Context (devread : Z -> option (Z -> Z -> M (fs S) (option (list Z))))
        (devwrite : Z -> option (Z -> list Z -> M (fs S) Z)).
Implicit Types (s : S) (f : fs S) (v : view) (d : dinode) (e : inode) (I : gmap Z dinode) (i ip dp k : Z) (X : gset Z)
  (name : list Z).
Abbreviation fsinv := (fsinv sb).
Abbreviation mounted := (mounted sb).
Abbreviation open_file := (open_file sb).

Lemma mounted_dev f v I X s' : mounted f v I X -> bview s' v -> mounted (mkfs s' (icache f)) v I X.
Proof. intros [H1 H2 H3 H4 H5 H6] Hs. by split. Qed.

Lemma slice_fdata v d off n : 0 <= off -> 0 <= n -> off + n <= d_size d -> slice (fdata v d) off n = fbytes v d off n.
Proof.
  intros Ho Hn Hl. assert (Hz : zlen (fdata v d) = d_size d) by (apply zlen_fbytes; lia).
  apply zlist_ext'; [by rewrite zlen_slice, zlen_fbytes by lia|]. rewrite zlen_slice by lia. intros j Hj.
  rewrite zlookup_slice by lia. unfold fdata. rewrite !zlookup_fbytes by lia. done.
Qed.

Lemma read_dirent_wp msg f dp e v I k : open_file f dp e v I -> d_type (i_d e) = T_DIR -> 0 <= k -> 16 * k + 16 <= d_size (i_d e) ->
  wp (read_dirent sb devread msg dp (16 * k))
    (fun b f' => b = entry (fdata v (i_d e)) k /\ exists s', f' = mkfs s' (icache f) /\ bview s' v) (fun _ => False) f.
Proof.
  intros HO Hty Hk Hle. pose proof HO as [_ _ _ _ _ HF Hi]. destruct (fi_size sb v I HF _ _ Hi) as [Hmax _].
  assert (Hu : is_u32 (16 * k)) by (unfold is_u32, MAXFILE, NDIRECT, NINDIRECT, BSIZE in *; lia).
  unfold read_dirent. eapply wp_step; [apply (readi_wp sb Hsb devread f dp e v I (16 * k) dirent_size HO); [by rewrite Hty|done|done]| |done].
  cbn beta. intros r f' [Hf' ->]. change dirent_size with 16.
  rewrite (proj2 (Z.ltb_ge _ (16 * k))), (proj2 (Z.leb_gt (2 ^ 32) _)) by (unfold is_u32, MAXFILE, NDIRECT, NINDIRECT, BSIZE in *; lia).
  cbn [orb]. rewrite Z.min_l by lia. rewrite zlen_fbytes by lia. cbn. split; [|done]. unfold entry. by rewrite slice_fdata by lia.
Qed.

(** Every entry in use is for an inode in use. *)
Definition entries_ok (c : list Z) I : Prop :=
  (16 | zlen c) /\ forall k, 0 <= k < zlen c / 16 -> de_inum (entry c k) <> 0 -> is_Some (I !! de_inum (entry c k)).

(** [dp] is a directory that the caller has locked. *)
Record locked_dir f v I dp d : Prop := mklocked_dir {
  ld_mounted : mounted f v I ∅;
  ld_used : used (icache f) dp;
  ld_valid : i_valid (the_inode dp f) = true;
  ld_d : i_d (the_inode dp f) = d;
  ld_type : d_type d = T_DIR;
  ld_entries : entries_ok (fdata v d) I }.

(** The inode found has no entry in the cache and there is no room for one. *)
Definition not_cached f (c : list Z) name msg : Prop :=
  exists k, lookup_name c name = Some k /\ cache_full f (de_inum (entry c k)) msg.

Definition looked_up f v I (c : list Z) name (r : option (Z * Z)) f' : Prop :=
  mounted f' v I ∅ /\
  match lookup_name c name with
  | None => r = None /\ icache f' = icache f
  | Some k => exists ip, r = Some (ip, 16 * k) /\ got (mkfs (fdev f') (icache f)) ip (de_inum (entry c k)) f'
  end.

Lemma dir_size f v I dp d : locked_dir f v I dp d -> exists q, 0 <= q /\ zlen (fdata v d) = 16 * q /\ d_size d = 16 * q /\
  zlen (fdata v d) / 16 = q /\ 16 * q <= MAXFILE * BSIZE /\ open_file f dp (the_inode dp f) v I.
Proof.
  intros [M HU Hv Hd Hty [[q Hq] HE]]. pose proof (mounted_open sb f v I ∅ dp M HU Hv) as HO.
  destruct (fi_size sb v I (mo_inv _ _ _ _ _ M) _ _ (of_inode _ _ _ _ _ _ HO)) as [Hmax _]. rewrite Hd in Hmax.
  assert (Hc : zlen (fdata v d) = d_size d) by (apply zlen_fbytes; lia).
  exists q. rewrite Hq, Z.div_mul by lia. split_and!; try done; lia.
Qed.

Lemma locked_dir_dev f v I dp d s' : locked_dir f v I dp d -> bview s' v -> locked_dir (mkfs s' (icache f)) v I dp d.
Proof. intros [M HU Hv Hd Hty HE] Hs. split; try done. by apply mounted_dev. Qed.

Lemma dirlookup_loop_wp name fuel : forall f v I dp d k q, locked_dir f v I dp d -> 0 <= k <= q -> d_size d = 16 * q ->
  q - k < Z.of_nat fuel -> (forall j, 0 <= j < k -> entry_matches (fdata v d) name j = false) ->
  wp (dirlookup_loop sb devread fuel dp name (16 * k)) (looked_up f v I (fdata v d) name) (not_cached f (fdata v d) name) f.
Proof.
  induction fuel as [|fuel IH]; intros f v I dp d k q LD Hk Hq Hf Hno; [lia|]. pose proof LD as [M HU Hv Hd Hty [_ HE]].
  destruct (dir_size f v I dp d LD) as (q' & Hq0 & Hc & Hq' & Hdiv & Hmax & HO). assert (q' = q) as -> by lia.
  set (c := fdata v d) in *. rewrite Hdiv in HE.
  cbn [dirlookup_loop]. eapply wp_step_run; [reflexivity|]. rewrite Hd, Hq.
  destruct (Z.leb_spec (16 * q) (16 * k)) as [Hend|Hin].
  { apply wp_ret. split; [done|]. assert (lookup_name c name = None) as ->; [|done]. apply lookup_name_None.
    rewrite Hdiv. intros j Hj. apply Hno. lia. }
  eapply wp_step; [apply (read_dirent_wp _ f dp _ v I k HO); [by rewrite Hd|lia|rewrite Hd; lia]| |done].
  rewrite Hd. fold c. intros b f1 (-> & s1 & -> & Hs1). pose proof (locked_dir_dev _ _ _ _ _ s1 LD Hs1) as LD1.
  assert (Hoff : u32 (16 * k + dirent_size) = 16 * (k + 1)).
  { rewrite u32_small; unfold is_u32, dirent_size, DIRSIZ, MAXFILE, NDIRECT, NINDIRECT, BSIZE in *; lia. }
  rewrite Hoff.
  assert (Hnext : entry_matches c name k = false ->
    wp (dirlookup_loop sb devread fuel dp name (16 * (k + 1))) (looked_up f v I c name) (not_cached f c name) (mkfs s1 (icache f))).
  { intros Hm. eapply wp_mono; [apply (IH _ v I dp d (k + 1) q LD1)| |]; [lia|done|lia| |done|done].
    intros j Hj. destruct (decide (j = k)) as [->|]; [done|apply Hno; lia]. }
  destruct (Z.eqb_spec (de_inum (entry c k)) 0) as [Hz|Hnz]; [apply Hnext; unfold entry_matches; by rewrite Hz|].
  destruct (namecmp name (de_name (entry c k)) =? 0) eqn:En; [|apply Hnext; unfold entry_matches; rewrite En; apply andb_false_r].
  assert (Hm : entry_matches c name k = true) by (unfold entry_matches; by rewrite (proj2 (Z.eqb_neq _ 0) Hnz), En).
  assert (Hl : lookup_name c name = Some k) by (apply lookup_name_Some; rewrite Hdiv; split_and!; [lia..|done|done]).
  pose proof (ca_dev _ _ (mo_cache _ _ _ _ _ M) dp HU) as Hdev. change (zget (icache f) dp) with (the_inode dp f) in Hdev. rewrite Hdev.
  eapply wp_step; [apply (iget_wp sb _ v I ∅ _ (ld_mounted _ _ _ _ _ LD1)); [apply HE; [lia|done]|set_solver]| |intros msg Hfull; by exists k].
  cbn. intros ip f' [G M']. split; [done|]. rewrite Hl. exists ip. split; [done|]. by rewrite (go_dev _ _ _ _ G).
Qed.

Lemma dirlookup_wp f v I dp d name : locked_dir f v I dp d ->
  wp (dirlookup sb devread dp name) (looked_up f v I (fdata v d) name) (not_cached f (fdata v d) name) f.
Proof.
  intros LD. destruct (dir_size f v I dp d LD) as (q & Hq0 & _ & Hq & _). pose proof LD as [_ _ _ Hd Hty _].
  unfold dirlookup. eapply wp_step_run; [reflexivity|]. rewrite Hd, Hty. cbn [negb Z.eqb].
  apply (dirlookup_loop_wp name _ f v I dp d 0 q); [done|lia|done| |intros; lia].
  rewrite Hq. change dirent_size with 16. rewrite (Z.mul_comm 16 q), Z.div_mul by lia. lia.
Qed.

(** A file that is written stays in order. *)
Lemma mounted_write f v I X ip s' v' d' off (src : list Z) : mounted f v I X -> used (icache f) ip ->
  i_valid (the_inode ip f) = true -> bview s' v' ->
  wrote_file sb v I (inum_of (icache f) ip) (i_d (the_inode ip f)) v' d' off src ->
  mounted (put_d f ip (the_inode ip f) d' s') v' (<[inum_of (icache f) ip := d']> I) X.
Proof.
  intros M HU Hv Hs W. pose proof (mo_cache _ _ _ _ _ M) as HC. split.
  - done.
  - rewrite (wf_held _ _ _ _ _ _ _ _ _ W). apply M.
  - apply W.
  - apply (wf_sync _ _ _ _ _ _ _ _ _ W). apply M.
  - by apply (cached_set (icache f) I ip d').
  - cbn. intros jp [Hjp HU']. unfold inum_of. destruct (decide (jp = ip)) as [->|Hj].
    + rewrite zget_zupd_eq by (rewrite (ca_len _ _ HC); lia). by intros _.
    + rewrite zget_zupd_ne in HU' |- * by done. by apply (mo_dirty _ _ _ _ _ M).
Qed.

Lemma used_put_d f ip d' (s' : S) : zlen (icache f) = NINODE -> used (icache f) ip ->
  used (icache (put_d f ip (the_inode ip f) d' s')) ip /\ i_valid (the_inode ip (put_d f ip (the_inode ip f) d' s')) = i_valid (the_inode ip f).
Proof.
  intros Hl [Hip HU]. rewrite the_put_d by lia. split; [|done]. split; [done|]. unfold put_d. cbn. by rewrite zget_zupd_eq by lia.
Qed.

Lemma dirlink_loop_wp fuel : forall f v I dp d k q, locked_dir f v I dp d -> 0 <= k <= q -> d_size d = 16 * q ->
  q - k < Z.of_nat fuel -> (forall j, 0 <= j < k -> de_inum (entry (fdata v d) j) <> 0) ->
  wp (dirlink_loop sb devread fuel dp (16 * k))
    (fun r f' => r = 16 * first_empty (fdata v d) /\ exists s', f' = mkfs s' (icache f) /\ bview s' v) (fun _ => False) f.
Proof.
  induction fuel as [|fuel IH]; intros f v I dp d k q LD Hk Hq Hf Hno; [lia|]. pose proof LD as [M HU Hv Hd Hty _].
  destruct (dir_size f v I dp d LD) as (q' & Hq0 & Hc & Hq' & Hdiv & Hmax & HO). assert (q' = q) as -> by lia.
  set (c := fdata v d) in *. cbn [dirlink_loop]. eapply wp_step_run; [reflexivity|]. rewrite Hd, Hq.
  destruct (Z.leb_spec (16 * q) (16 * k)) as [Hend|Hin].
  { apply wp_ret. split; [|exists (fdev f); split; [by destruct f|apply M]]. unfold first_empty. rewrite Hdiv.
    destruct (find _ _) as [j|] eqn:E; cbn; [|lia]. apply List.find_some in E as [Hj Hz%Z.eqb_eq].
    apply list_elem_of_In, elem_of_zrange in Hj. exfalso. apply (Hno j); [lia|done]. }
  eapply wp_step; [apply (read_dirent_wp _ f dp _ v I k HO); [by rewrite Hd|lia|rewrite Hd; lia]| |done].
  rewrite Hd. fold c. intros b f1 (-> & s1 & -> & Hs1). pose proof (locked_dir_dev _ _ _ _ _ s1 LD Hs1) as LD1.
  destruct (Z.eqb_spec (de_inum (entry c k)) 0) as [Hz|Hnz].
  - apply wp_ret. split; [|by exists s1]. unfold first_empty. rewrite Hdiv. destruct (find _ _) as [j|] eqn:E; cbn.
    + pose proof E as [Hj Hzj%Z.eqb_eq]%List.find_some. apply list_elem_of_In, elem_of_zrange in Hj.
      destruct (Z.lt_trichotomy j k) as [H|[->|H]]; [exfalso; apply (Hno j); [lia|done]|done|].
      pose proof (find_first _ _ _ _ E k ltac:(lia)) as Hf'. cbn in Hf'. by rewrite Hz in Hf'.
    + pose proof (List.find_none _ _ E k) as Hn. rewrite <- list_elem_of_In, elem_of_zrange in Hn.
      specialize (Hn ltac:(lia)). cbn in Hn. by rewrite Hz in Hn.
  - replace (16 * k + dirent_size) with (16 * (k + 1)) by (unfold dirent_size, DIRSIZ; lia).
    eapply wp_mono; [apply (IH _ v I dp d (k + 1) q LD1)| |]; [lia|done|lia| |done|done].
    intros j Hj. destruct (decide (j = k)) as [->|]; [done|apply Hno; lia].
Qed.

Lemma nblocks_entry k : nblocks (16 * k) 16 = 1.
Proof.
  unfold nblocks, BSIZE. cbn [Z.eqb]. replace (16 * k) with (k * 16) by lia. change 512 with (32 * 16) at 1.
  rewrite Z.mul_mod_distr_r by lia. pose proof (Z.mod_pos_bound k 32 ltac:(lia)).
  symmetry. apply Z.div_unique with (k mod 32 * 16 + 15); lia.
Qed.

(** The entries other than [dp] are not locked. *)
Definition unlocked_but f dp : Prop := forall ip, 0 <= ip < NINODE -> ip <> dp -> i_locked (the_inode ip f) = false.

(** An inode with links that was just found loses the reference again. *)
Lemma iput_found f I dp ip i f1 v d' : unlocked_but f dp -> got (mkfs (fdev f1) (icache f)) ip i f1 -> mounted f1 v I ∅ ->
  cached (icache f) I -> ip <> dp -> I !! i = Some d' -> d_nlink d' <> 0 ->
  wp (iput sb pid ip)
    (fun _ f' => mounted f' v I ∅ /\ (forall j, refs (icache f') j = refs (icache f) j) /\
       the_inode dp f' = the_inode dp f /\ unlocked_but f' dp)
    (fun _ => False) f1.
Proof.
  intros Hlk G M HC Hne Hi Hnl. pose proof (go_used _ _ _ _ G) as HU. pose proof HU as [Hip _].
  pose proof (go_inum _ _ _ _ G) as Hin. pose proof (ca_len _ _ (mo_cache _ _ _ _ _ M)) as Hl.
  assert (Hat : forall jp, jp <> ip -> the_inode jp f1 = the_inode jp f).
  { intros jp Hj. unfold the_inode. rewrite (go_cache _ _ _ _ G). by apply zget_zupd_ne. }
  assert (Hul : i_locked (the_inode ip f1) = false).
  { pose proof (go_entry _ _ _ _ G) as He. cbn [icache] in He. case_decide; [rewrite He; by apply Hlk|].
    destruct He as (_ & _ & ->). by apply Hlk. }
  assert (Hlast : last_ref (the_inode ip f1) = false).
  { unfold last_ref. destruct (i_valid (the_inode ip f1)) eqn:Ev; [|done]. cbn.
    pose proof (ca_valid _ _ (mo_cache _ _ _ _ _ M) ip HU Ev) as Hd. rewrite Hin, Hi in Hd. injection Hd as Hd.
    change (zget (icache f1) ip) with (the_inode ip f1) in Hd. rewrite <- Hd, (proj2 (Z.eqb_neq _ 0)); done. }
  eapply wp_mono; [apply (iput_wp sb Hsb pid f1 v I ∅ ip M HU)|..]; [set_solver|done|by rewrite Hlast| |done].
  rewrite Hlast. intros _ _ (s' & -> & M'). split; [done|]. split.
  - intros j. cbn [icache]. unfold the_inode. rewrite refs_put by lia. rewrite Hin, (refs_got (mkfs (fdev f1) (icache f)) I ip i f1 j HC G). cbn. lia.
  - split.
    + unfold the_inode at 1. cbn [icache]. rewrite zget_zupd_ne by done. by apply Hat.
    + intros jp Hjp Hj. unfold the_inode at 1. cbn [icache]. destruct (decide (jp = ip)) as [->|Hji].
      * rewrite zget_zupd_eq by lia. unfold put_entry. by destruct (last_ref _).
      * rewrite zget_zupd_ne by done. fold (the_inode jp f1). rewrite Hat by done. by apply Hlk.
Qed.

(** A new entry. *)
Record linked f v I dp d name inum f' v' d' : Prop := mklinked {
  lk_wrote : wrote_file sb v I (inum_of (icache f) dp) d v' d' (16 * first_empty (fdata v d)) (dirent inum name);
  lk_data : fdata v' d' = link_entry (fdata v d) name inum;
  lk_entry : exists s', f' = put_d f dp (the_inode dp f) d' s';
  lk_mounted : mounted f' v' (<[inum_of (icache f) dp := d']> I) ∅ }.

Definition link_fails f v d name msg : Prop :=
  not_cached f (fdata v d) name msg \/ no_room sb v d 1 msg \/ msg = "dirlink" /\ MAXFILE * BSIZE < 16 * first_empty (fdata v d) + 16.

Lemma dirlink_new_wp f v I dp d name inum s1 : locked_dir f v I dp d -> bview s1 v -> 0 < inum < 2 ^ 16 -> Forall is_u8 (name_of name) ->
  Phi sb v (inum_of (icache f) dp) d + 1 <= max_op ->
  wp (off ← dirlink_loop sb devread (Datatypes.S (Z.to_nat (d_size d / dirent_size + 1))) dp 0;
      n ← writei sb devwrite dp (to_le 2 inum ++ strncpy_bytes DIRSIZ name) off;
      if n =? dirent_size then mret 0 else panic "dirlink")
    (fun r f' => r = 0 /\ exists v' d', linked f v I dp d name inum f' v' d') (link_fails f v d name) (mkfs s1 (icache f)).
Proof.
  intros LD Hs1 Hi Hn Hmax. destruct (dir_size f v I dp d LD) as (q & Hq0 & Hc & Hq & Hdiv & Hsz & _).
  pose proof LD as [M HU Hv Hd Hty [Hdv _]].
  eapply wp_step; [apply (dirlink_loop_wp _ _ v I dp d 0 q (locked_dir_dev _ _ _ _ _ s1 LD Hs1)); [lia|done| |intros; lia]| |done].
  { rewrite Hq. change dirent_size with 16. rewrite (Z.mul_comm 16 q), Z.div_mul by lia. lia. }
  cbn [icache]. intros r f1 (-> & s2 & -> & Hs2). pose proof (locked_dir_dev _ _ _ _ _ s2 LD Hs2) as LD2.
  destruct (dir_size _ v I dp d LD2) as (_ & _ & _ & _ & _ & _ & HO2). destruct (first_empty_range _ Hdv) as (H0 & H1 & _).
  change (to_le 2 inum ++ strncpy_bytes DIRSIZ name) with (dirent inum name).
  assert (Hb : Forall is_u8 (dirent inum name)).
  { apply Forall_app_2; [apply to_le_bytes|]. unfold strncpy_bytes. apply Forall_app_2; [exact Hn|by apply Forall_replicate]. }
  pose proof (nblocks_entry (first_empty (fdata v d))) as Hnb.
  eapply wp_step; [apply (writei_wp sb Hsb devwrite _ dp _ v I _ (dirent inum name) HO2)| |].
  - change (the_inode dp (mkfs s2 (icache f))) with (the_inode dp f). by rewrite Hd, Hty.
  - unfold is_u32, MAXFILE, NDIRECT, NINDIRECT, BSIZE in *. lia.
  - by rewrite zlen_dirent.
  - done.
  - rewrite zlen_dirent, Hnb. change (the_inode dp (mkfs s2 (icache f))) with (the_inode dp f). rewrite Hd. by intros _.
  - cbn beta. rewrite zlen_dirent. change (the_inode dp (mkfs s2 (icache f))) with (the_inode dp f). rewrite Hd.
    intros r f' Hr. rewrite (proj2 (Z.ltb_ge (d_size d) _)) in Hr by lia. cbn [orb] in Hr.
    destruct (Z.ltb_spec (MAXFILE * BSIZE) (16 * first_empty (fdata v d) + 16)) as [Hbig|Hfit].
    { destruct Hr as [-> ->]. right. right. done. }
    destruct Hr as (-> & v' & d' & s' & -> & Hs' & W). apply wp_ret. split; [done|]. exists v', d'. split.
    + done.
    + by rewrite (wf_data _ _ _ _ _ _ _ _ _ W).
    + by exists s'.
    + apply (mounted_write f v I ∅ dp s' v' d' (16 * first_empty (fdata v d)) (dirent inum name)); try done. by rewrite Hd.
  - cbn beta. rewrite zlen_dirent, Hnb. change (the_inode dp (mkfs s2 (icache f))) with (the_inode dp f). rewrite Hd.
    intros msg [Hm _]. right. by left.
Qed.

Lemma dirlink_wp f v I dp d name inum : locked_dir f v I dp d -> 0 < inum < 2 ^ 16 -> Forall is_u8 (name_of name) ->
  Phi sb v (inum_of (icache f) dp) d + 1 <= max_op -> unlocked_but f dp ->
  (forall k d', lookup_name (fdata v d) name = Some k -> I !! de_inum (entry (fdata v d) k) = Some d' ->
     d_nlink d' <> 0 /\ de_inum (entry (fdata v d) k) <> inum_of (icache f) dp) ->
  wp (dirlink sb pid devread devwrite dp name inum)
    (fun r f' =>
       match lookup_name (fdata v d) name with
       | Some _ => r = -1 /\ mounted f' v I ∅ /\ (forall j, refs (icache f') j = refs (icache f) j) /\
                   the_inode dp f' = the_inode dp f
       | None => r = 0 /\ exists v' d', linked f v I dp d name inum f' v' d'
       end) (link_fails f v d name) f.
Proof.
  intros LD Hi Hn Hmax Hlk Hpres. pose proof LD as [M HU Hv Hd Hty [_ HE]].
  unfold dirlink. eapply wp_step; [by apply (dirlookup_wp f v I dp d name)| |intros msg Hm; by left].
  unfold looked_up. intros r f1 [M1 Hr]. destruct (lookup_name (fdata v d) name) as [k|] eqn:Ek.
  - destruct Hr as (ip & -> & G). apply lookup_name_Some in Ek as (Hk & Hm & _).
    apply andb_prop in Hm as [Hnz%negb_true_iff%Z.eqb_neq _]. destruct (HE k Hk Hnz) as [d' Hd'].
    destruct (Hpres k d' eq_refl Hd') as [Hnl Hself].
    assert (Hne : ip <> dp).
    { intros ->. pose proof (go_entry _ _ _ _ G) as He. cbn [icache] in He. rewrite decide_True in He by done.
      apply Hself. rewrite <- (go_inum _ _ _ _ G). unfold inum_of. fold (the_inode dp f1). by rewrite He. }
    eapply wp_step; [by apply (iput_found f I dp ip _ f1 v d' Hlk G M1 (mo_cache _ _ _ _ _ M) Hne Hd')| |done].
    intros [] f2 (M2 & Hrefs & Hdp & _). apply wp_ret. split_and!; done.
  - destruct Hr as [-> Hc]. eapply wp_step_run; [reflexivity|].
    destruct f1 as [s1 C1]. cbn [icache] in Hc. subst C1. change (the_inode dp (mkfs s1 (icache f))) with (the_inode dp f). rewrite Hd.
    apply dirlink_new_wp; try done. apply (mo_view _ _ _ _ _ M1).
Qed.

Lemma entries_link c I name inum i d' : entries_ok c I -> 0 < inum < 2 ^ 16 -> is_Some (I !! inum) ->
  entries_ok (link_entry c name inum) (<[i := d']> I).
Proof.
  intros [Hd HE] Hi HI. destruct (link_size c name inum Hd) as [Hd' Hl]. destruct (first_empty_range c Hd) as (H0 & H1 & _).
  pose proof Hd as [q Hq]. split; [done|]. intros k Hk. destruct Hd' as [q' Hq'].
  rewrite Hq', Z.div_mul in Hk by lia. unfold link_entry. rewrite entry_splice; [|apply zlen_dirent|lia|lia|lia|done|lia].
  destruct (decide (k = first_empty c)) as [->|Hne].
  - rewrite dirent_inum by lia. intros _. destruct (decide (inum = i)) as [->|]; [by rewrite lookup_insert_eq|by rewrite lookup_insert_ne].
  - intros Hnz. destruct (decide (de_inum (entry c k) = i)) as [->|]; [by rewrite lookup_insert_eq|]. rewrite lookup_insert_ne by done.
    apply HE; [|done]. rewrite Hq, Z.div_mul by lia. lia.
Qed.

(** The directory with the new entry. *)
Lemma linked_dir f v I dp d name inum f' v' d' : locked_dir f v I dp d -> 0 < inum < 2 ^ 16 -> is_Some (I !! inum) ->
  linked f v I dp d name inum f' v' d' -> locked_dir f' v' (<[inum_of (icache f) dp := d']> I) dp d'.
Proof.
  intros [M HU Hv Hd Hty HE] Hi HI [W Hdat [s' ->] M']. pose proof (ca_len _ _ (mo_cache _ _ _ _ _ M)) as Hl. pose proof HU as [Hip _].
  destruct (used_put_d f dp d' s' Hl HU) as [HU' Hv']. split; [done|done|by rewrite Hv'|by rewrite the_put_d by lia| |].
  - by rewrite (f_equal d_type (wf_meta _ _ _ _ _ _ _ _ _ W)).
  - rewrite Hdat. by apply entries_link.
Qed.

(** If the entry found is for the directory itself, iput waits for the lock that the caller
    of dirlink holds. *)
Lemma dirlink_self_blocks f v I dp d name inum k : locked_dir f v I dp d -> i_locked (the_inode dp f) = true ->
  lookup_name (fdata v d) name = Some k -> de_inum (entry (fdata v d) k) = inum_of (icache f) dp ->
  dirlink sb pid devread devwrite dp name inum f = Panic "acquiresleep: locked".
Proof.
  intros LD Hlk Hk Hself. pose proof LD as [M HU Hv Hd Hty _].
  assert (Hw : wp (dirlink sb pid devread devwrite dp name inum) (fun _ _ => False) (fun msg => msg = "acquiresleep: locked") f).
  { unfold dirlink. eapply wp_step; [by apply (dirlookup_wp f v I dp d name)| |].
    - unfold looked_up. rewrite Hk. intros r f1 [M1 (ip & -> & G)]. rewrite Hself in G.
      assert (ip = dp) as ->.
      { destruct (decide (ip = dp)) as [|Hne]; [done|]. assert (HU1 : used (icache f1) dp).
        { destruct HU as [H1 H2]. split; [done|]. rewrite (go_cache _ _ _ _ G). by rewrite zget_zupd_ne. }
        apply (ca_uniq _ _ (mo_cache _ _ _ _ _ M1)); [apply G|done|]. rewrite (go_inum _ _ _ _ G). unfold inum_of at 2.
        rewrite (go_cache _ _ _ _ G). by rewrite zget_zupd_ne. }
      pose proof (go_entry _ _ _ _ G) as He. cbn [icache] in He. rewrite decide_True in He by done.
      unfold iput. apply wp_bind, wp_bind. unfold acquire_inode. eapply wp_step_run; [reflexivity|]. rewrite He. cbn [i_locked upd].
      change (i_locked (the_inode dp (mkfs (fdev f1) (icache f)))) with (i_locked (the_inode dp f)). by rewrite Hlk.
    - intros msg (k' & Hk' & [_ Hfull]). assert (k' = k) as -> by congruence. rewrite Hself in Hfull.
      destruct (Hfull dp) as [_ Hno]; [apply HU|]. done. }
  unfold wp in Hw. destruct (dirlink _ _ _ _ _ _ _ _); [done|by rewrite Hw].
Qed.
End run.
