(* ===== verification/FsState.v ===== *)
(** * Who holds which inode

    The inode cache as a process in fs.c sees it: which inodes it has locked and how many
    references every inode has.  Every call of fs.c that the system calls are made of turns
    one such state into another. *)

From S2P Require Import Prelude Bytes Blocks Fs FsBlocks FsInode FsData FsWrite FsTrunc FsCache FsDir.
From stdpp Require Import gmap.
#[local] Open Scope Z_scope.

(** ** References *)

Section refs.
Implicit Types (C : list inode) (I : gmap Z dinode) (i ip : Z).

Lemma refs_zero C i : (forall ip, 0 <= ip < zlen C -> refs_at i (zget C ip) = 0) -> refs C i = 0.
Proof.
  intros H. assert (HF : Forall (fun e => refs_at i e = 0) C).
  { apply Forall_lookup. intros n e Hn. pose proof (lookup_lt_Some _ _ _ Hn). rewrite <- (H (Z.of_nat n)) by (unfold zlen; lia).
    f_equal. unfold zget. by rewrite zlookup_of_nat, Hn. }
  induction HF as [|e C He HF IH]; [done|]. cbn. rewrite He, IH; [done|]. intros ip Hip.
  assert (Hip' : 0 <= ip + 1 < zlen (e :: C)) by (unfold zlen in *; cbn; lia). specialize (H (ip + 1) Hip').
  unfold zget in *. rewrite zlookup_to_nat in * by lia. by replace (Z.to_nat (ip + 1)) with (S (Z.to_nat ip)) in H by lia.
Qed.

Lemma refs_nonneg C I i : cached C I -> 0 <= refs C i.
Proof.
  intros HC. assert (HF : Forall (fun e => 0 <= i_ref e) C).
  { apply Forall_lookup. intros n e Hn. pose proof (lookup_lt_Some _ _ _ Hn). pose proof (ca_len _ _ HC) as Hl. unfold zlen in Hl.
    pose proof (ca_ref _ _ HC (Z.of_nat n) ltac:(lia)) as Hr. unfold zget in Hr. by rewrite zlookup_of_nat, Hn in Hr. }
  clear HC. induction HF as [|e C He HF IH]; [done|]. cbn. unfold refs_at. destruct (_ =? _); lia.
Qed.

(** An inode's references are those of its one entry. *)
Lemma refs_entry C I ip : cached C I -> used C ip -> refs C (inum_of C ip) = i_ref (zget C ip).
Proof.
  intros HC HU. pose proof HU as [Hip Hr]. pose proof (ca_len _ _ HC) as Hl. set (i := inum_of C ip).
  set (e0 := (zget C ip) <| i_ref := 0 |>).
  assert (H0 : refs (zupd C ip e0) i = 0).
  { apply refs_zero. rewrite zlen_zupd, Hl. intros jp Hjp. unfold refs_at. destruct (decide (jp = ip)) as [->|Hj].
    - rewrite zget_zupd_eq by lia. cbn. by destruct (_ =? _).
    - rewrite zget_zupd_ne by done. destruct (Z.eqb_spec (i_inum (zget C jp)) i) as [E|]; [|done].
      destruct (decide (0 < i_ref (zget C jp))) as [HU'|]; [|pose proof (ca_ref _ _ HC jp Hjp); lia].
      exfalso. apply Hj. apply (ca_uniq _ _ HC); [done|done|exact E]. }
  rewrite refs_zupd in H0 by lia. unfold refs_at in H0. unfold e0 in H0. cbn in H0.
  change (i_inum (zget C ip)) with i in H0. rewrite Z.eqb_refl in H0. lia.
Qed.

(** The inodes that have references. *)
Definition live C : gset Z := list_to_set (i_inum <$> filter (fun e => 0 < i_ref e) C).

Lemma elem_of_live C I i : cached C I -> i ∈ live C <-> 0 < refs C i.
Proof.
  intros HC. pose proof (ca_len _ _ HC) as Hl. unfold live. rewrite elem_of_list_to_set, list_elem_of_fmap. split.
  - intros (e & -> & [Hr [n Hn]%list_elem_of_lookup]%list_elem_of_filter).
    assert (He : zget C (Z.of_nat n) = e) by (unfold zget; by rewrite zlookup_of_nat, Hn).
    pose proof (lookup_lt_Some _ _ _ Hn). assert (HU : used C (Z.of_nat n)) by (split; [unfold zlen in Hl; lia|by rewrite He]).
    pose proof (refs_entry C I _ HC HU) as E. unfold inum_of in E. rewrite He in E. lia.
  - intros Hr. destruct (decide (Exists (fun ip => refs_at i (zget C ip) <> 0) (zrange 0 (NINODE - 1)))) as [HE|HE].
    + apply Exists_exists in HE as (ip & Hip%elem_of_zrange & Hne). exists (zget C ip). unfold refs_at in Hne.
      destruct (Z.eqb_spec (i_inum (zget C ip)) i) as [E|]; [|done]. split; [done|]. apply list_elem_of_filter.
      pose proof (ca_ref _ _ HC ip ltac:(lia)). split; [lia|]. apply list_elem_of_lookup. exists (Z.to_nat ip).
      pose proof (zlookup_zget C ip ltac:(lia)) as Hz. by rewrite zlookup_to_nat in Hz by lia.
    + rewrite refs_zero in Hr; [lia|]. rewrite Hl. intros ip Hip. apply dec_stable. intros Hne. apply HE, Exists_exists.
      exists ip. split; [apply elem_of_zrange; lia|done].
Qed.

(** A full cache has fifty of them. *)
Lemma live_full C I : cached C I -> (forall ip, 0 <= ip < NINODE -> 0 < i_ref (zget C ip)) -> Z.of_nat (size (live C)) = NINODE.
Proof.
  intros HC Hall. pose proof (ca_len _ _ HC) as Hl.
  assert (Hget : forall n e, C !! n = Some e -> used C (Z.of_nat n) /\ zget C (Z.of_nat n) = e).
  { intros n e Hn. assert (He : zget C (Z.of_nat n) = e) by (unfold zget; by rewrite zlookup_of_nat, Hn). split; [|done].
    pose proof (lookup_lt_Some _ _ _ Hn). unfold zlen in Hl. split; [lia|]. apply Hall. lia. }
  assert (Hfil : filter (fun e => 0 < i_ref e) C = C).
  { assert (HF : Forall (fun e => 0 < i_ref e) C) by (apply Forall_lookup; intros n e Hn; by destruct (Hget n e Hn) as [[_ ?] <-]).
    clear -HF. induction HF as [|e C He HF IH]; [done|]. rewrite filter_cons_True by done. by rewrite IH. }
  unfold live. rewrite Hfil, size_list_to_set.
  - rewrite length_fmap. exact Hl.
  - apply NoDup_alt. intros n m x. rewrite !list_lookup_fmap. intros (e & Hn & ->)%fmap_Some (e' & Hm & Ei)%fmap_Some.
    destruct (Hget n e Hn) as [HU1 E1], (Hget m e' Hm) as [HU2 E2]. apply Nat2Z.inj. apply (ca_uniq _ _ HC); [done..|].
    unfold inum_of. congruence.
Qed.
End refs.

(** ** States *)

Section run.
Context {S : Type} {B : BlockDev S} {L : BlockLaws S B} (sb : superblock) (Hsb : sb_ok sb) (pid : Z).
Implicit Types (s : S) (f : fs S) (v : view) (d : dinode) (e : inode) (I : gmap Z dinode) (i j ip jp dp : Z) (name path : list Z)
  (Lk : gset Z) (R : Z -> Z).
Abbreviation mounted := (mounted sb).
Abbreviation locked_dir := (locked_dir sb).

Definition all_unlocked f : Prop := forall ip, 0 <= ip < NINODE -> i_locked (the_inode ip f) = false.

Lemma got_other f ip i f' jp : got f ip i f' -> jp <> ip -> the_inode jp f' = the_inode jp f.
Proof. intros G Hj. unfold the_inode. rewrite (go_cache _ _ _ _ G). by apply zget_zupd_ne. Qed.

Lemma got_locked f ip i f' jp : got f ip i f' -> i_locked (the_inode jp f') = i_locked (the_inode jp f).
Proof.
  intros G. destruct (decide (jp = ip)) as [->|Hj]; [|by rewrite (got_other f ip i f' jp)].
  pose proof (go_entry _ _ _ _ G) as He. case_decide; [by rewrite He|by destruct He as (_ & _ & ->)].
Qed.

(** An entry that was in use only gains a reference. *)
Lemma got_used f ip i f' jp : got f ip i f' -> used (icache f) jp -> used (icache f') jp /\
  the_inode jp f' = (the_inode jp f) <| i_ref := i_ref (the_inode jp f) + (if decide (jp = ip) then 1 else 0) |>.
Proof.
  intros G HU. pose proof HU as [Hj Hr]. destruct (decide (jp = ip)) as [->|Hne].
  - pose proof (go_entry _ _ _ _ G) as He. rewrite decide_True in He by done. split; [apply G|done].
  - pose proof (got_other f ip i f' jp G Hne) as E. rewrite E, Z.add_0_r. split; [split; [done|]|by destruct (the_inode jp f)].
    change (0 < i_ref (the_inode jp f')). by rewrite E.
Qed.

(** iput drops a reference that is not the last one to an inode without links. *)
Lemma not_last f v I ip d : mounted f v I ∅ -> used (icache f) ip -> I !! inum_of (icache f) ip = Some d ->
  d_nlink d <> 0 \/ 2 <= refs (icache f) (inum_of (icache f) ip) -> last_ref (the_inode ip f) = false.
Proof.
  intros M HU Hd Hor. pose proof (mo_cache _ _ _ _ _ M) as HC. unfold last_ref.
  destruct (i_valid (the_inode ip f)) eqn:Ev; [|done]. cbn [andb].
  pose proof (ca_valid _ _ HC ip HU Ev) as Hv. change (zget (icache f) ip) with (the_inode ip f) in Hv. rewrite Hd in Hv.
  injection Hv as <-. destruct Hor as [Hn|Hr]; [by rewrite (proj2 (Z.eqb_neq _ 0))|].
  rewrite (refs_entry _ I ip HC HU) in Hr. change (zget (icache f) ip) with (the_inode ip f) in Hr.
  rewrite (proj2 (Z.eqb_neq (i_ref _) 1)) by lia. apply andb_false_r.
Qed.

(** [Lk] are the entries that the process has locked, and inode [i] has [R i] references. *)
Record fstate f v I Lk R : Prop := mkfstate {
  st_mounted : mounted f v I ∅;
  st_lock : forall ip, 0 <= ip < NINODE -> i_locked (the_inode ip f) = bool_decide (ip ∈ Lk);
  st_mine : forall ip, ip ∈ Lk -> used (icache f) ip /\ i_pid (the_inode ip f) = pid /\ i_valid (the_inode ip f) = true;
  st_refs : forall j, refs (icache f) j = R j }.

(** A reference to inode [i], by entry [ip]. *)
Definition holds f ip i : Prop := used (icache f) ip /\ inum_of (icache f) ip = i.

Definition more R i : Z -> Z := fun j => R j + (if decide (j = i) then 1 else 0).
Definition less R i : Z -> Z := fun j => R j - (if decide (j = i) then 1 else 0).

Lemma fstate_start f v I : mounted f v I ∅ -> all_unlocked f -> fstate f v I ∅ (refs (icache f)).
Proof.
  intros M Hun. split; [done| |set_solver|done]. intros ip Hip. rewrite Hun by done. symmetry. apply bool_decide_eq_false. set_solver.
Qed.

Lemma fstate_unlocked f v I R : fstate f v I ∅ R -> all_unlocked f.
Proof. intros H ip Hip. rewrite (st_lock _ _ _ _ _ H) by done. apply bool_decide_eq_false. set_solver. Qed.

Lemma fstate_ext f v I Lk R R' : fstate f v I Lk R -> (forall j, R j = R' j) -> fstate f v I Lk R'.
Proof. intros [H1 H2 H3 H4] E. split; [done..|]. intros j. by rewrite H4. Qed.

(** The entry of a locked inode. *)
Lemma st_entry f v I Lk R ip i d : fstate f v I Lk R -> holds f ip i -> ip ∈ Lk -> I !! i = Some d ->
  used (icache f) ip /\ i_valid (the_inode ip f) = true /\ i_d (the_inode ip f) = d /\ i_inum (the_inode ip f) = i /\
  i_dev (the_inode ip f) = 1 /\ i_pid (the_inode ip f) = pid /\ i_locked (the_inode ip f) = true.
Proof.
  intros H [HU Hi] Hin Hd. destruct (st_mine _ _ _ _ _ H ip Hin) as (_ & Hp & Hv). pose proof (mo_cache _ _ _ _ _ (st_mounted _ _ _ _ _ H)) as HC.
  pose proof (ca_valid _ _ HC ip HU Hv) as E. rewrite Hi, Hd in E. injection E as E. split_and!; [by destruct HU..|done|done|done| |done|].
  - by apply (ca_dev _ _ HC).
  - rewrite (st_lock _ _ _ _ _ H) by apply HU. by apply bool_decide_eq_true.
Qed.

(** One entry changes. *)
Lemma fstate_entry f v I Lk R ip e s' v' I' Lk' R' : fstate f v I Lk R -> 0 <= ip < NINODE ->
  mounted (mkfs s' (zupd (icache f) ip e)) v' I' ∅ ->
  (i_locked e = true -> 0 < i_ref e /\ i_pid e = pid /\ i_valid e = true) ->
  (forall jp, jp ∈ Lk' <-> (jp = ip /\ i_locked e = true) \/ (jp <> ip /\ jp ∈ Lk)) ->
  (forall j, R' j = R j - refs_at j (the_inode ip f) + refs_at j e) ->
  fstate (mkfs s' (zupd (icache f) ip e)) v' I' Lk' R'.
Proof.
  intros [M Hl Hm Hr] Hip M' He HL HR. pose proof (ca_len _ _ (mo_cache _ _ _ _ _ M)) as Hlen. set (f' := mkfs s' _) in *.
  assert (Hat : the_inode ip f' = e) by (unfold the_inode, f'; cbn; apply zget_zupd_eq; lia).
  assert (Hne : forall jp, jp <> ip -> the_inode jp f' = the_inode jp f) by (intros; unfold the_inode, f'; cbn; by apply zget_zupd_ne).
  split; [done|..].
  - intros jp Hjp. destruct (decide (jp = ip)) as [->|Hj].
    + rewrite Hat. destruct (i_locked e) eqn:E; symmetry; [apply bool_decide_eq_true|apply bool_decide_eq_false]; rewrite HL; naive_solver.
    + rewrite Hne, Hl by done. apply bool_decide_ext. rewrite HL. naive_solver.
  - intros jp [[-> E]|[Hj Hin]]%HL.
    + rewrite Hat. destruct (He E) as (H1 & H2 & H3). split_and!; [|done..]. split; [done|].
      change (zget (icache f') ip) with (the_inode ip f'). by rewrite Hat.
    + destruct (Hm jp Hin) as ([H0 H1] & H2 & H3). rewrite Hne by done. split_and!; [|done..]. split; [done|].
      change (zget (icache f') jp) with (the_inode jp f'). by rewrite Hne.
  - intros j. unfold f'. cbn [icache]. rewrite refs_zupd by lia. rewrite HR, <- Hr. done.
Qed.

Lemma holds_entry f ip e s' jp j : zlen (icache f) = NINODE -> holds f jp j -> (jp = ip -> 0 < i_ref e /\ i_inum e = j) ->
  holds (mkfs s' (zupd (icache f) ip e)) jp j.
Proof.
  intros Hl [[Hj Hr] Hi] He. unfold holds, used, inum_of. cbn [icache]. destruct (decide (jp = ip)) as [->|Hne].
  - rewrite zget_zupd_eq by lia. destruct (He eq_refl). done.
  - rewrite zget_zupd_ne by done. done.
Qed.

Lemma st_len f v I Lk R : fstate f v I Lk R -> zlen (icache f) = NINODE.
Proof. intros H. apply (ca_len _ _ (mo_cache _ _ _ _ _ (st_mounted _ _ _ _ _ H))). Qed.

(** An entry has all the references of its inode. *)
Lemma st_ref f v I Lk R ip i : fstate f v I Lk R -> holds f ip i -> R i = i_ref (the_inode ip f).
Proof.
  intros H [HU <-]. rewrite <- (st_refs _ _ _ _ _ H). apply (refs_entry _ I); [|done]. apply H.
Qed.

(** ** Locking and unlocking *)

(** Which entries are locked when one changes. *)
Ltac lock_set ip := let jp := fresh in intros jp; cbn [i_locked upd lock_entry unlock_entry];
  rewrite ?elem_of_union, ?elem_of_difference, ?elem_of_singleton; destruct (decide (jp = ip)); naive_solver.

Lemma ilock_st f v I Lk R ip i d : fstate f v I Lk R -> holds f ip i -> ip ∉ Lk -> I !! i = Some d ->
  wp (ilock sb pid ip) (fun _ f' => fstate f' v I ({[ip]} ∪ Lk) R /\ forall jp j, holds f jp j -> holds f' jp j) (fun _ => False) f.
Proof.
  intros H [HU Hi] Hin Hd. pose proof HU as [Hip Hr]. pose proof (st_len _ _ _ _ _ H) as Hl.
  eapply wp_mono; [apply (ilock_wp sb Hsb pid f v I ∅ ip d (st_mounted _ _ _ _ _ H) HU)|..]; [|by rewrite Hi| |done].
  - rewrite (st_lock _ _ _ _ _ H) by done. by apply bool_decide_eq_false.
  - intros _ f' (s' & -> & M'). split.
    + apply (fstate_entry f v I Lk R); [done..| | |].
      * intros _. split; [exact Hr|done].
      * by lock_set ip.
      * intros j. cbn. unfold refs_at. cbn. lia.
    + intros jp j Hj. apply holds_entry; [done..|]. intros ->. destruct Hj as [_ <-]. done.
Qed.

Lemma iunlock_st f v I Lk R ip : fstate f v I Lk R -> ip ∈ Lk ->
  wp (iunlock pid ip) (fun _ f' => fstate f' v I (Lk ∖ {[ip]}) R /\ forall jp j, holds f jp j -> holds f' jp j) (fun _ => False) f.
Proof.
  intros H Hin. destruct (st_mine _ _ _ _ _ H ip Hin) as (HU & Hp & Hv). pose proof HU as [Hip Hr]. pose proof (st_len _ _ _ _ _ H) as Hl.
  eapply wp_mono; [apply (iunlock_wp sb pid f v I ∅ ip (st_mounted _ _ _ _ _ H) HU)|..]; [|done| |done].
  - rewrite (st_lock _ _ _ _ _ H) by done. by apply bool_decide_eq_true.
  - intros _ f' [-> M']. split.
    + apply (fstate_entry f v I Lk R); [done..| |].
      * by lock_set ip.
      * intros j. cbn. unfold refs_at. cbn. lia.
    + intros jp j Hj. apply holds_entry; [done..|]. intros ->. destruct Hj as [_ <-]. done.
Qed.

(** ** Dropping references *)

(** The state after iput, given what became of the disk. *)
Lemma put_state f v I Lk R ip i s' v' I' : fstate f v I Lk R -> holds f ip i -> ip ∉ Lk ->
  mounted (mkfs s' (zupd (icache f) ip (put_entry (the_inode ip f)))) v' I' ∅ ->
  let f' := mkfs s' (zupd (icache f) ip (put_entry (the_inode ip f))) in
  fstate f' v' I' Lk (less R i) /\ forall jp j, holds f jp j -> 0 < less R i j -> holds f' jp j.
Proof.
  intros H Hh Hin M'. pose proof Hh as [[Hip Hr] Hi]. pose proof (st_len _ _ _ _ _ H) as Hl. pose proof (st_ref _ _ _ _ _ _ _ H Hh) as HR.
  assert (He : i_locked (put_entry (the_inode ip f)) = false /\ i_inum (put_entry (the_inode ip f)) = i /\
    i_ref (put_entry (the_inode ip f)) = R i - 1).
  { rewrite HR. unfold put_entry. destruct (last_ref _); cbn; split_and!; done. }
  destruct He as (E1 & E2 & E3). split.
  - apply (fstate_entry f v I Lk R); [done..| | |].
    + by rewrite E1.
    + intros jp. rewrite E1. split; [intros Hj; right; split; [by intros ->|done]|intros [[_ ?]|[_ ?]]; done].
    + intros j. unfold less, refs_at. rewrite E2, E3. change (i_inum (the_inode ip f)) with (inum_of (icache f) ip). rewrite Hi, <- HR.
      destruct (Z.eqb_spec i j), (decide (j = i)); subst; lia || done.
  - intros jp j Hj Hpos. apply holds_entry; [done..|]. intros ->. destruct Hj as [_ Hj]. assert (j = i) as -> by congruence.
    unfold less in Hpos. rewrite decide_True in Hpos by done. split; [lia|done].
Qed.

Lemma iput_st f v I Lk R ip i d : fstate f v I Lk R -> holds f ip i -> ip ∉ Lk -> I !! i = Some d -> d_nlink d <> 0 \/ 2 <= R i ->
  wp (iput sb pid ip)
    (fun _ f' => fstate f' v I Lk (less R i) /\ forall jp j, holds f jp j -> 0 < less R i j -> holds f' jp j) (fun _ => False) f.
Proof.
  intros H Hh Hin Hd Hor. pose proof Hh as [HU Hi]. pose proof HU as [Hip Hr].
  assert (Hlast : last_ref (the_inode ip f) = false).
  { apply (not_last f v I ip d (st_mounted _ _ _ _ _ H) HU); rewrite Hi; [done|]. by rewrite (st_refs _ _ _ _ _ H). }
  eapply wp_mono; [apply (iput_wp sb Hsb pid f v I ∅ ip (st_mounted _ _ _ _ _ H) HU)|..]; [set_solver| |by rewrite Hlast| |done].
  - rewrite (st_lock _ _ _ _ _ H) by done. by apply bool_decide_eq_false.
  - rewrite Hlast. intros _ f' (s' & -> & M'). by apply (put_state f v I Lk R ip i s' v I).
Qed.

Lemma iunlockput_st f v I Lk R ip i d : fstate f v I Lk R -> holds f ip i -> ip ∈ Lk -> I !! i = Some d -> d_nlink d <> 0 \/ 2 <= R i ->
  wp (iunlockput sb pid ip)
    (fun _ f' => fstate f' v I (Lk ∖ {[ip]}) (less R i) /\ forall jp j, holds f jp j -> 0 < less R i j -> holds f' jp j)
    (fun _ => False) f.
Proof.
  intros H Hh Hin Hd Hor. unfold iunlockput. eapply wp_step; [by apply (iunlock_st f v I Lk R ip H)| |done]. intros [] f1 [H1 Hk1].
  eapply wp_mono; [apply (iput_st f1 v I (Lk ∖ {[ip]}) R ip i d H1 (Hk1 _ _ Hh)); [set_solver|done..]| |done].
  intros _ f2 [H2 Hk2]. split; [done|]. intros jp j Hj Hpos. by apply Hk2; [apply Hk1|].
Qed.

(** The last reference to an inode without links: the inode goes away. *)
Lemma iunlockput_free f v I Lk R ip i d : fstate f v I Lk R -> holds f ip i -> ip ∈ Lk -> I !! i = Some d -> d_nlink d = 0 -> R i = 1 ->
  Z.of_nat (size ({[IBLOCK sb i]} ∪ (vlog v ∪ bmaps sb))) <= max_op ->
  wp (iunlockput sb pid ip)
    (fun _ f' => exists v', released sb v I i d v' /\ fstate f' v' (delete i I) (Lk ∖ {[ip]}) (less R i) /\
       forall jp j, holds f jp j -> 0 < less R i j -> holds f' jp j)
    (fun _ => False) f.
Proof.
  intros H Hh Hin Hd Hn HR Hmax. unfold iunlockput. destruct (st_entry _ _ _ _ _ _ _ _ H Hh Hin Hd) as (HU0 & Hv0 & Ed0 & _ & _ & Hp0 & Hl0).
  pose proof HU0 as [Hip _]. pose proof (st_len _ _ _ _ _ H) as Hl.
  eapply wp_step; [by apply (iunlock_wp sb pid f v I ∅ ip (st_mounted _ _ _ _ _ H) HU0)| |done]. intros [] f1 [-> M1].
  set (f1 := mkfs _ _) in *.
  assert (Hat : the_inode ip f1 = unlock_entry (the_inode ip f)) by (unfold the_inode at 1, f1; cbn; apply zget_zupd_eq; lia).
  assert (Hk1 : forall jp j, holds f jp j -> holds f1 jp j).
  { intros jp j Hj. apply holds_entry; [done..|]. intros ->. destruct Hj as [[_ Hj] <-]. done. }
  assert (H1 : fstate f1 v I (Lk ∖ {[ip]}) R).
  { apply (fstate_entry f v I Lk R); [done..| |]; [by lock_set ip|intros j; cbn; unfold refs_at; cbn; lia]. }
  destruct (Hk1 _ _ Hh) as [HU1 Hi1]. pose proof (st_ref _ _ _ _ _ _ _ H1 (Hk1 _ _ Hh)) as Href.
  assert (Hlast : last_ref (the_inode ip f1) = true).
  { unfold last_ref. rewrite <- Href, HR, Hat. cbn [i_valid i_d unlock_entry upd]. change (i_valid (unlock_entry (the_inode ip f))) with (i_valid (the_inode ip f)).
    change (i_d (unlock_entry (the_inode ip f))) with (i_d (the_inode ip f)). by rewrite Hv0, Ed0, Hn. }
  eapply wp_mono; [apply (iput_wp sb Hsb pid f1 v I ∅ ip M1 HU1)|..]; [set_solver|by rewrite Hat|by rewrite Hi1| |done].
  rewrite Hlast, Hi1. intros _ f2 (s' & -> & v' & Rl & M2). exists v'.
  assert (Hdd : i_d (the_inode ip f1) = d) by by rewrite Hat. rewrite Hdd in Rl. split; [done|].
  replace (∅ ∖ {[i]} : gset Z) with (∅ : gset Z) in M2 by set_solver.
  destruct (put_state f1 v I (Lk ∖ {[ip]}) R ip i s' v' (delete i I) H1 (Hk1 _ _ Hh) ltac:(set_solver) M2) as [H2 Hk2].
  split; [exact H2|]. intros jp j Hj Hpos. by apply Hk2; [apply Hk1|].
Qed.

(** ** Getting references *)

Lemma got_state f v I Lk R ip i f' v' I' : fstate f v I Lk R -> got (mkfs (fdev f') (icache f)) ip i f' -> mounted f' v' I' ∅ ->
  fstate f' v' I' Lk (more R i) /\ holds f' ip i /\ forall jp j, holds f jp j -> holds f' jp j.
Proof.
  intros H G M'. pose proof (mo_cache _ _ _ _ _ (st_mounted _ _ _ _ _ H)) as HC. set (f0 := mkfs (fdev f') (icache f)) in *.
  split; [split; [done|..]|split; [split; apply G|]].
  - intros jp Hjp. rewrite (got_locked f0 ip i f' jp G). by apply (st_lock _ _ _ _ _ H).
  - intros jp Hin. destruct (st_mine _ _ _ _ _ H jp Hin) as (HU & Hp & Hv). destruct (got_used f0 ip i f' jp G HU) as [HU' ->]. done.
  - intros j. rewrite (refs_got f0 I ip i f' j HC G). unfold more. by rewrite <- (st_refs _ _ _ _ _ H).
  - intros jp j [HU Hj]. destruct (got_used f0 ip i f' jp G HU) as [HU' E]. split; [done|]. unfold inum_of.
    change (zget (icache f') jp) with (the_inode jp f'). by rewrite E.
Qed.

Lemma got_self f ip i f' : got f ip i f' -> got (mkfs (fdev f') (icache f)) ip i f'.
Proof. intros G. assert (mkfs (fdev f') (icache f) = f) as ->; [|done]. rewrite (go_dev _ _ _ _ G). by destruct f. Qed.

Lemma iget_st f v I Lk R i : fstate f v I Lk R -> is_Some (I !! i) ->
  wp (iget 1 i) (fun ip f' => fstate f' v I Lk (more R i) /\ holds f' ip i /\ forall jp j, holds f jp j -> holds f' jp j) (cache_full f i) f.
Proof.
  intros H Hi. eapply wp_mono; [apply (iget_wp sb f v I ∅ i (st_mounted _ _ _ _ _ H) Hi); set_solver| |done].
  intros ip f' [G M']. by apply (got_state f v I Lk R ip i f' v I H (got_self _ _ _ _ G)).
Qed.

Lemma idup_st f v I Lk R ip i : fstate f v I Lk R -> holds f ip i ->
  wp (idup ip) (fun r f' => r = ip /\ fstate f' v I Lk (more R i) /\ forall jp j, holds f jp j -> holds f' jp j) (fun _ => False) f.
Proof.
  intros H [HU Hi]. eapply wp_mono; [apply (idup_wp sb f v I ∅ ip (st_mounted _ _ _ _ _ H) HU)| |done].
  rewrite Hi. intros r f' (-> & G & M'). destruct (got_state f v I Lk R ip i f' v I H (got_self _ _ _ _ G) M') as (H' & _ & Hk). done.
Qed.

Lemma ialloc_st f v I Lk R type : fstate f v I Lk R -> is_s16 type -> type <> 0 -> Z.of_nat (size (vlog v)) + 1 <= max_op ->
  wp (ialloc sb 1 type)
    (fun ip f' => exists i, 0 < i < sb_ninodes sb /\ I !! i = None /\
       fstate f' (iwrote sb i (new_dinode type) v) (<[i := new_dinode type]> I) Lk (more R i) /\ holds f' ip i /\
       forall jp j, holds f jp j -> holds f' jp j) (no_inode sb f I) f.
Proof.
  intros H Ht Ht0 Hmax. eapply wp_mono; [by apply (ialloc_wp sb Hsb f v I type (st_mounted _ _ _ _ _ H))| |done].
  intros ip f' [i [Hr Hn _ G M']]. exists i. split; [done|]. split; [done|]. by apply (got_state f v I Lk R ip i f').
Qed.

(** ** Changes on the disk *)

(** The inode of a locked entry changes, in the entry and on the disk. *)
Lemma set_state f v I Lk R ip i d d' s' v' : fstate f v I Lk R -> holds f ip i -> ip ∈ Lk -> I !! i = Some d ->
  mounted (put_d f ip (the_inode ip f) d' s') v' (<[i := d']> I) ∅ ->
  fstate (put_d f ip (the_inode ip f) d' s') v' (<[i := d']> I) Lk R /\
  forall jp j, holds f jp j -> holds (put_d f ip (the_inode ip f) d' s') jp j.
Proof.
  intros H Hh Hin Hd M'. destruct (st_entry _ _ _ _ _ _ _ _ H Hh Hin Hd) as (HU & Hv & Ed & _ & _ & Hp & Hlk). pose proof HU as [Hip Hr].
  pose proof (st_len _ _ _ _ _ H) as Hl. split.
  - apply (fstate_entry f v I Lk R); [done..| | |].
    + intros _. split; [exact Hr|done].
    + intros jp. change (i_locked ((the_inode ip f) <| i_d := d' |>)) with (i_locked (the_inode ip f)). rewrite Hlk.
      destruct (decide (jp = ip)) as [->|]; naive_solver.
    + intros j. unfold refs_at. cbn. lia.
  - intros jp j Hj. apply holds_entry; [done..|]. intros ->. destruct Hj as [[_ Hj] <-]. done.
Qed.

(** The contents of files do not depend on the blocks of inodes. *)
Lemma fdata_iwrote v I i d j d0 : fsinv sb v I -> 0 <= i < sb_ninodes sb -> I !! j = Some d0 -> fdata (iwrote sb i d v) d0 = fdata v d0.
Proof.
  intros HF Hi Hj. eapply fdata_frame; [exact HF|exact Hj|]. intros c m Hm. eapply iwrote_data; [done|exact HF|lia|exact Hm].
Qed.

(** Other fields than the type, the size and the addresses. *)
Record relabelled d d' : Prop := mkrelabelled {
  rl_same : d' = d <| d_major := d_major d' |> <| d_minor := d_minor d' |> <| d_nlink := d_nlink d' |>;
  rl_major : is_s16 (d_major d'); rl_minor : is_s16 (d_minor d'); rl_nlink : is_s16 (d_nlink d') }.

Lemma relabelled_data v d d' : relabelled d d' -> fdata v d' = fdata v d.
Proof. intros [E _ _ _]. rewrite E. done. Qed.

Lemma relabelled_ok d d' : relabelled d d' -> dinode_ok d -> dinode_ok d'.
Proof. intros [E H1 H2 H3] [K1 K2 K3 K4 K5 K6 K7]. rewrite E in *. by split. Qed.

Lemma mounted_relabel f v I ip d' s' : mounted f v I ∅ -> used (icache f) ip -> i_valid (the_inode ip f) = true ->
  let i := inum_of (icache f) ip in let d := i_d (the_inode ip f) in
  relabelled d d' -> bview s' (iwrote sb i d' v) ->
  mounted (put_d f ip (the_inode ip f) d' s') (iwrote sb i d' v) (<[i := d']> I) ∅.
Proof.
  intros M HU Hv i d HRl Hs. pose proof (mo_cache _ _ _ _ _ M) as HC. pose proof (mo_inv _ _ _ _ _ M) as HF.
  pose proof (ca_valid _ _ HC ip HU Hv) as Hd. fold i in Hd. change (i_d (zget (icache f) ip)) with d in Hd.
  destruct (fi_inode sb v I HF i d Hd) as (Hr & Hok & Hty). destruct (fi_size sb v I HF i d Hd) as [Hsz Hsl].
  pose proof (relabelled_ok _ _ HRl Hok) as Hok'. destruct HRl as [E _ _ _]. pose proof (IBLOCK_range sb Hsb i ltac:(lia)) as HI.
  assert (HF1 : fsinv sb v (<[i := d']> I)).
  { apply (fsinv_set sb v I i d d'); try done; rewrite E; done. }
  split; cbn; [done|apply M| | |by apply (cached_set (icache f) I ip d')|intros jp _; set_solver].
  - apply fsinv_inode; [done|done|lia|]. eapply iwrote_block; [done|exact HF1|lia|done].
  - eapply (synced_mono sb Hsb _ _ ((∅ ∪ {[i]}) ∖ {[i]})); [set_solver|].
    apply synced_iwrote; [done|exact HF1|apply lookup_insert_eq|]. apply synced_dirty, M.
Qed.

(** A change of fields, then iupdate. *)
Lemma wp_relabel {A} (K : M (fs S) A) (Q : A -> fs S -> Prop) (E : string -> Prop) f v I Lk R ip i d (g : dinode -> dinode) :
  fstate f v I Lk R -> holds f ip i -> ip ∈ Lk -> I !! i = Some d -> relabelled d (g d) ->
  Z.of_nat (size ({[IBLOCK sb i]} ∪ vlog v)) <= max_op ->
  (forall f', fstate f' (iwrote sb i (g d) v) (<[i := g d]> I) Lk R -> (forall jp j, holds f jp j -> holds f' jp j) -> wp K Q E f') ->
  wp (upd_d ip g;; iupdate sb ip;; K) Q E f.
Proof.
  intros H Hh Hin Hd HRl Hmax HK. destruct (st_entry _ _ _ _ _ _ _ _ H Hh Hin Hd) as (HU & Hv & Ed & Ei & Edev & _).
  pose proof HU as [Hip _]. pose proof (st_len _ _ _ _ _ H) as Hl. pose proof (st_mounted _ _ _ _ _ H) as M.
  pose proof (mo_inv _ _ _ _ _ M) as HF. destruct (fi_inode sb v I HF i d Hd) as (Hr & Hok & _).
  set (e := the_inode ip f) in *.
  eapply wp_step_run; [rewrite <- (put_d_id f ip e eq_refl) at 1; apply upd_d_run; lia|]. rewrite Ed.
  assert (He : the_inode ip (put_d f ip e (g d) (fdev f)) = e <| i_d := g d |>) by (apply the_put_d; lia).
  eapply wp_step; [apply (iupdate_gen sb Hsb _ ip _ v I He)| |done]; cbn [i_dev i_d i_inum upd fdev put_d]; try done.
  - apply M.
  - apply M.
  - by rewrite Ei.
  - by apply (relabelled_ok d).
  - by rewrite Ei.
  - intros [] _ (s' & -> & Hs'). rewrite Ei in Hs'.
    change (mkfs s' (icache (put_d f ip e (g d) (fdev f)))) with (put_d f ip e (g d) s').
    pose proof Hh as [_ Hi]. pose proof (mounted_relabel f v I ip (g d) s' M HU Hv) as M'. cbv zeta in M'. fold e in M'. rewrite Hi, Ed in M'.
    destruct (set_state f v I Lk R ip i d (g d) s' _ H Hh Hin Hd (M' HRl Hs')) as [H' Hk]. by apply HK.
Qed.

(** ** Directories *)

Context (devread : Z -> option (Z -> Z -> M (fs S) (option (list Z))))
        (devwrite : Z -> option (Z -> list Z -> M (fs S) Z)).

Lemma st_dir f v I Lk R dp i d : fstate f v I Lk R -> holds f dp i -> dp ∈ Lk -> I !! i = Some d -> d_type d = T_DIR ->
  entries_ok (fdata v d) I -> locked_dir f v I dp d.
Proof.
  intros H Hh Hin Hd Hty HE. destruct (st_entry _ _ _ _ _ _ _ _ H Hh Hin Hd) as (HU & Hv & Ed & _). split; try done. apply H.
Qed.

Lemma fstate_same f v I Lk R f' : fstate f v I Lk R -> icache f' = icache f -> mounted f' v I ∅ ->
  fstate f' v I Lk R /\ forall jp j, holds f jp j -> holds f' jp j.
Proof.
  intros [M Hl Hm Hr] Hc M'. destruct f as [s C], f' as [s' C']. cbn in Hc. subst C'. split; [by split|done].
Qed.

Lemma dirlookup_st f v I Lk R dp i d name : fstate f v I Lk R -> holds f dp i -> dp ∈ Lk -> I !! i = Some d -> d_type d = T_DIR ->
  entries_ok (fdata v d) I ->
  wp (dirlookup sb devread dp name)
    (fun r f' =>
       match lookup_name (fdata v d) name with
       | None => r = None /\ fstate f' v I Lk R
       | Some k => exists ip, r = Some (ip, 16 * k) /\ fstate f' v I Lk (more R (de_inum (entry (fdata v d) k))) /\
                   holds f' ip (de_inum (entry (fdata v d) k))
       end /\ forall jp j, holds f jp j -> holds f' jp j)
    (not_cached f (fdata v d) name) f.
Proof.
  intros H Hh Hin Hd Hty HE.
  eapply wp_mono; [apply (dirlookup_wp sb Hsb devread f v I dp d name); by eapply st_dir| |done].
  unfold looked_up. intros r f' [M' Hr]. destruct (lookup_name (fdata v d) name) as [k|].
  - destruct Hr as (ip & -> & G). destruct (got_state f v I Lk R ip _ f' v I H G M') as (H' & Hh' & Hk). split; [|done]. by exists ip.
  - destruct Hr as [-> Hc]. destruct (fstate_same _ _ _ _ _ f' H Hc M'). done.
Qed.

Lemma writei_st f v I Lk R ip i d (src : list Z) off : fstate f v I Lk R -> holds f ip i -> ip ∈ Lk -> I !! i = Some d -> d_type d <> T_DEV ->
  Forall is_u8 src -> 0 <= off <= d_size d -> off + zlen src <= MAXFILE * BSIZE -> Phi sb v i d + nblocks off (zlen src) <= max_op ->
  wp (writei sb devwrite ip src off)
    (fun r f' => r = zlen src /\ exists v' d', wrote_file sb v I i d v' d' off src /\ fstate f' v' (<[i := d']> I) Lk R /\
       forall jp j, holds f jp j -> holds f' jp j)
    (fun msg => no_room sb v d (nblocks off (zlen src)) msg /\ d_size d < off + zlen src) f.
Proof.
  intros H Hh Hin Hd Hty Hsrc Hoff Hfit Hmax. destruct (st_entry _ _ _ _ _ _ _ _ H Hh Hin Hd) as (HU & Hv & Ed & Ei & _).
  pose proof (mounted_open sb f v I ∅ ip (st_mounted _ _ _ _ _ H) HU Hv) as HO.
  assert (0 <= zlen src) by (unfold zlen; lia).
  assert (Hu : is_u32 off /\ is_u32 (zlen src)) by (unfold is_u32, MAXFILE, NDIRECT, NINDIRECT, BSIZE in *; lia).
  eapply wp_mono; [apply (writei_wp sb Hsb devwrite f ip _ v I off src HO); try done|..].
  - by rewrite Ed.
  - apply Hu.
  - apply Hu.
  - rewrite Ed, Ei. by intros _.
  - cbn beta. rewrite Ed, Ei. rewrite (proj2 (Z.ltb_ge (d_size d) off)), (proj2 (Z.ltb_ge (MAXFILE * BSIZE) _)) by lia. cbn [orb].
    intros r f' (-> & v' & d' & s' & -> & Hs' & W). split; [done|]. exists v', d'. split; [done|].
    apply (set_state f v I Lk R ip i d d' s' v' H Hh Hin Hd). destruct Hh as [_ Hi]. rewrite <- Hi.
    apply (mounted_write sb f v I ∅ ip s' v' d' off src); try done; [apply H|]. by rewrite Hi, Ed.
  - cbn beta. by rewrite Ed.
Qed.

(** A new entry in a directory. *)
Lemma dirlink_st f v I Lk R dp i d name inum : fstate f v I Lk R -> holds f dp i -> dp ∈ Lk -> I !! i = Some d -> d_type d = T_DIR ->
  entries_ok (fdata v d) I -> 0 < inum < 2 ^ 16 -> Forall is_u8 (name_of name) -> Phi sb v i d + 1 <= max_op ->
  lookup_name (fdata v d) name = None ->
  wp (dirlink sb pid devread devwrite dp name inum)
    (fun r f' => r = 0 /\ exists v' d', wrote_file sb v I i d v' d' (16 * first_empty (fdata v d)) (dirent inum name) /\
       fdata v' d' = link_entry (fdata v d) name inum /\ fstate f' v' (<[i := d']> I) Lk R /\
       forall jp j, holds f jp j -> holds f' jp j)
    (fun msg => no_room sb v d 1 msg \/ msg = "dirlink" /\ MAXFILE * BSIZE < 16 * first_empty (fdata v d) + 16) f.
Proof.
  intros H Hh Hin Hd Hty HE Hi Hn Hmax Hno. pose proof Hh as [_ Hii]. pose proof (st_dir _ _ _ _ _ _ _ _ H Hh Hin Hd Hty HE) as LD.
  unfold dirlink. eapply wp_step; [by apply (dirlookup_wp sb Hsb devread f v I dp d name)| |].
  2: { intros msg (k & Hk & _). by rewrite Hno in Hk. }
  unfold looked_up. rewrite Hno. intros r f1 [M1 [-> Hc]]. eapply wp_step_run; [reflexivity|].
  destruct f1 as [s1 C1]. cbn [icache] in Hc. subst C1. change (the_inode dp (mkfs s1 (icache f))) with (the_inode dp f).
  rewrite (ld_d _ _ _ _ _ _ LD).
  eapply wp_mono; [apply (dirlink_new_wp sb Hsb devread devwrite f v I dp d name inum s1 LD); try done|..].
  - apply (mo_view _ _ _ _ _ M1).
  - by rewrite Hii.
  - intros r f' (-> & v' & d' & [W Hdat [s' ->] M']). rewrite Hii in W, M'. split; [done|]. exists v', d'. split; [done|]. split; [done|].
    by apply (set_state f v I Lk R dp i d d' s' v').
  - intros msg [(k & Hk & _)|Hm]; [by rewrite Hno in Hk|done].
Qed.
End run.
