(* ===== verification/FsPath.v ===== *)
(** * Path names

    skipelem and namex of fs.c, with namei and nameiparent: they walk from the root or the
    current directory through the directories that a path names.  The result is the one of
    [walk] on the elements of the path, with one reference more; nothing else changes and
    no lock is left held. *)

From S2P Require Import Prelude Bytes Blocks Fs FsBlocks FsInode FsData FsWrite FsTrunc FsCache FsDir FsState.
From stdpp Require Import gmap.
#[local] Open Scope Z_scope.

(** ** The elements of a path *)

(** The path, up to its end, is cut at the slashes; empty parts do not count. *)
Fixpoint elements (path cur : list Z) : list (list Z) :=
  let done_ := match cur with [] => [] | _ => [cur] end in
  match path with
  | [] => done_
  | c :: rest =>
      if c =? 0 then done_
      else if c =? SLASH then done_ ++ elements rest []
      else elements rest (cur ++ [c])
  end.

Lemma elements_slashes path : elements (skip_slashes path) [] = elements path [].
Proof.
  induction path as [|c rest IH]; [done|]. cbn. destruct (Z.eqb_spec c SLASH) as [->|Hc]; [exact IH|].
  cbn. by rewrite (proj2 (Z.eqb_neq c SLASH)).
Qed.

Lemma elements_take path : forall cur, elements path cur =
  match cur ++ take (elem_len path) path with [] => [] | w => [w] end ++ elements (drop (elem_len path) path) [].
Proof.
  induction path as [|c rest IH]; intros cur; cbn.
  - rewrite !app_nil_r. by destruct cur.
  - destruct (Z.eqb_spec c SLASH) as [->|Hs]; cbn; [rewrite app_nil_r; by destruct cur|].
    destruct (Z.eqb_spec c 0) as [->|H0]; cbn; [rewrite !app_nil_r; by destruct cur|].
    rewrite IH. by rewrite <- app_assoc.
Qed.

Lemma elem_len_le path : (elem_len path <= length path)%nat.
Proof. induction path as [|c rest IH]; cbn; [done|]. destruct (_ || _); lia. Qed.

Lemma skip_slashes_le path : (length (skip_slashes path) <= length path)%nat.
Proof. induction path as [|c rest IH]; cbn; [done|]. destruct (c =? SLASH); cbn; lia. Qed.

Lemma skip_slashes_head path c rest : skip_slashes path = c :: rest -> c <> SLASH.
Proof.
  induction path as [|c' rest' IH]; cbn; [done|]. destruct (Z.eqb_spec c' SLASH); [done|]. by injection 1 as -> ->.
Qed.

Lemma until_nul_elem path : until_nul (take (elem_len path) path) = take (elem_len path) path.
Proof.
  induction path as [|c rest IH]; [done|]. cbn. destruct (c =? SLASH); [done|]. cbn. destruct (Z.eqb_spec c 0) as [->|]; [done|]. cbn.
  rewrite (proj2 (Z.eqb_neq c 0)) by done. by rewrite IH.
Qed.

Lemma elements_first c t : c <> 0 -> c <> SLASH -> let s := c :: t in
  elements s [] = take (elem_len s) s :: elements (drop (elem_len s) s) [] /\ (0 < elem_len s)%nat.
Proof.
  intros H0 Hs s. unfold s. rewrite elements_take. cbn. rewrite (proj2 (Z.eqb_neq c SLASH)), (proj2 (Z.eqb_neq c 0)) by done. cbn.
  split; [done|lia].
Qed.

Lemma elements_end path : chr (skip_slashes path) = 0 <-> elements (skip_slashes path) [] = [].
Proof.
  destruct (skip_slashes path) as [|c t] eqn:E; [done|]. change (chr (c :: t)) with c.
  pose proof (skip_slashes_head path c t E) as Hs. destruct (decide (c = 0)) as [->|H0]; [done|].
  destruct (elements_first c t H0 Hs) as [-> _]. split; [lia|done].
Qed.

Lemma until_nul_take n w : until_nul w = w -> until_nul (take n w) = take n w.
Proof.
  revert n. induction w as [|c w IH]; intros [|n] H; try done. cbn in *. destruct (c =? 0); [done|]. injection H as H. by rewrite IH.
Qed.

(** skipelem takes the first element off, and the rest starts with no slash. *)
Lemma skipelem_ok path name : zlen name = DIRSIZ ->
  match skipelem path name with
  | None => elements path [] = []
  | Some (rest, name') => exists w, elements path [] = w :: elements rest [] /\ name_of name' = name_of w /\
      zlen name' = DIRSIZ /\ (length rest < length path)%nat /\ (chr rest = 0 <-> elements rest [] = [])
  end.
Proof.
  intros Hn. unfold skipelem. rewrite <- elements_slashes. cbn zeta.
  pose proof (elements_end path) as Hend. pose proof (skip_slashes_le path) as Hle.
  destruct (Z.eqb_spec (chr (skip_slashes path)) 0) as [H0|H0]; [by apply Hend|].
  destruct (skip_slashes path) as [|c t] eqn:Es; [done|]. change (chr (c :: t)) with c in H0.
  destruct (elements_first c t H0 (skip_slashes_head path c t Es)) as [-> Hpos]. set (s := c :: t) in *. set (n := elem_len s) in *.
  pose proof (elem_len_le s) as Hlen. fold n in Hlen. pose proof (until_nul_elem s) as Hu. fold n in Hu. unfold zlen, DIRSIZ in *.
  exists (take n s). rewrite elements_slashes. split; [done|]. split_and!.
  - unfold name_of. rewrite Hu. change (Z.to_nat 14) with 14%nat. destruct (Nat.leb_spec 14 n) as [Hbig|Hsmall].
    + unfold splice. cbn [take]. rewrite length_take, drop_ge, app_nil_r by lia.
      change (take (Z.to_nat 0) name ++ take 14 s) with (take 14 s).
      replace (take 14 s) with (take 14 (take n s)) by (rewrite take_take; f_equal; lia).
      rewrite (until_nul_take 14) by done. by rewrite take_take.
    + unfold splice. rewrite <- app_assoc. change (take (Z.to_nat 0) name ++ take n s ++ ?w) with (take n s ++ w).
      rewrite until_nul_app, decide_False, app_nil_r; [done|]. rewrite <- Hu. apply until_nul_no_nul.
  - change (Z.to_nat 14) with 14%nat. unfold splice. change (take (Z.to_nat 0) name) with (@nil Z). 
    destruct (Nat.leb_spec 14 n); rewrite !length_app, length_drop, ?length_app, !length_take; cbn [length]; lia.
  - pose proof (skip_slashes_le (drop n s)) as H. rewrite length_drop in H. lia.
  - rewrite <- (elements_slashes (drop n s)). apply elements_end.
Qed.

(** ** Walking *)

Section tree.
Implicit Types (v : view) (d : dinode) (I : gmap Z dinode) (i k : Z) (es : list (list Z)).

(** The directories are in order: they have entries for inodes in use that have links. *)
Record tree_ok v I : Prop := mktree_ok {
  tr_dir : forall i d, I !! i = Some d -> d_type d = T_DIR -> entries_ok (fdata v d) I;
  tr_link : forall i d k d', I !! i = Some d -> d_type d = T_DIR -> 0 <= k < zlen (fdata v d) / 16 ->
    de_inum (entry (fdata v d) k) <> 0 -> I !! de_inum (entry (fdata v d) k) = Some d' -> d_nlink d' <> 0;
  tr_root : exists d, I !! ROOTINO = Some d /\ d_nlink d <> 0 }.

(** One step from directory [i]. *)
Definition child v I i (name : list Z) : option Z :=
  match I !! i with
  | Some d => if d_type d =? T_DIR then found (fdata v d) name else None
  | None => None
  end.

(** namei: all elements; nameiparent: all but the last, which must be looked for in a directory. *)
Fixpoint walk v I i es : option Z :=
  match es with
  | [] => Some i
  | w :: es => j ← child v I i w; walk v I j es
  end.

Definition is_dir I i : bool := match I !! i with Some d => d_type d =? T_DIR | None => false end.

Fixpoint walk_parent v I i es : option (Z * list Z) :=
  match es with
  | [] => None
  | [w] => if is_dir I i then Some (i, name_of w) else None
  | w :: es => j ← child v I i w; walk_parent v I j es
  end.

Lemma lookup_name_cong c n m : name_of n = name_of m -> lookup_name c n = lookup_name c m.
Proof. intros E. symmetry. apply lookup_name_same; [done|]. intros k _. symmetry. by apply matches_cong. Qed.

Lemma child_linked v I i w j : tree_ok v I -> child v I i w = Some j -> exists d', I !! j = Some d' /\ d_nlink d' <> 0.
Proof.
  intros T. unfold child, found. destruct (I !! i) as [d|] eqn:Ei; [|done]. destruct (Z.eqb_spec (d_type d) T_DIR) as [Hty|]; [|done].
  destruct (lookup_name (fdata v d) w) as [k|] eqn:Ek; [|done]. injection 1 as <-.
  apply lookup_name_Some in Ek as (Hk & Hm & _). apply andb_prop in Hm as [Hnz%negb_true_iff%Z.eqb_neq _].
  destruct (tr_dir v I T i d Ei Hty) as [_ HE]. destruct (HE k Hk Hnz) as [d' Hd']. exists d'. split; [done|].
  exact (tr_link v I T i d k d' Ei Hty Hk Hnz Hd').
Qed.
End tree.

(** ** Running namex *)

Section run.
Context {S : Type} {B : BlockDev S} {L : BlockLaws S B} (sb : superblock) (Hsb : sb_ok sb) (pid : Z).
Context (devread : Z -> option (Z -> Z -> M (fs S) (option (list Z)))).
Implicit Types (f : fs S) (v : view) (d : dinode) (I : gmap Z dinode) (i j ip jp : Z) (name path : list Z).
Abbreviation fstate := (fstate sb pid).

Section from.
Context (f0 : fs S) (v : view) (I : gmap Z dinode) (R : Z -> Z) (H0 : fstate f0 v I ∅ R) (T : tree_ok v I).

(** All references of before are still there. *)
Definition keeps f : Prop := forall jp j, holds f0 jp j -> holds f jp j.

(** Nothing is left over. *)
Record restored f : Prop := mkrestored { rs_state : fstate f v I ∅ R; rs_keeps : keeps f }.

(** One reference more, to inode [i] in entry [ip]. *)
Record at_inode ip i f : Prop := mkat_inode {
  an_state : fstate f v I ∅ (more R i); an_holds : holds f ip i; an_keeps : keeps f }.

(** It is not the last reference to an inode without links. *)
Definition kept i : Prop := exists d, I !! i = Some d /\ (d_nlink d <> 0 \/ 0 < R i).

Lemma kept_held jp j : holds f0 jp j -> 0 < R j.
Proof. intros Hh. rewrite (st_ref sb pid _ _ _ _ _ _ _ H0 Hh). apply Hh. Qed.

Lemma more_kept i d : kept i -> I !! i = Some d -> d_nlink d <> 0 \/ 2 <= more R i i.
Proof.
  intros (d' & Hd' & Hor) Hd. assert (d' = d) as -> by congruence. unfold more. rewrite decide_True by done.
  destruct Hor; [by left|right; lia].
Qed.

Lemma less_more i j : less (more R i) i j = R j.
Proof. unfold less, more. lia. Qed.

(** The inode that namex has locked. *)
Record locked_at ip i f : Prop := mklocked_at {
  la_state : fstate f v I {[ip]} (more R i); la_holds : holds f ip i; la_keeps : keeps f }.

Lemma ilock_at_wp ip i d f : at_inode ip i f -> I !! i = Some d ->
  wp (ilock sb pid ip) (fun _ => locked_at ip i) (fun _ => False) f.
Proof.
  intros [H Hh Hk] Hd. eapply wp_mono; [apply (ilock_st sb Hsb pid f v I ∅ (more R i) ip i d H Hh); [set_solver|done]| |done].
  intros _ f' [H' Hk']. rewrite (right_id_L ∅ (∪)) in H'. split; [done|by apply Hk'|]. intros jp j Hj. by apply Hk', Hk.
Qed.

(** Leaving the inode, when the walk fails. *)
Lemma leave_wp ip i d f : locked_at ip i f -> I !! i = Some d -> kept i ->
  wp (iunlockput sb pid ip) (fun _ => restored) (fun _ => False) f.
Proof.
  intros [H Hh Hk] Hd K.
  eapply wp_mono; [apply (iunlockput_st sb Hsb pid f v I _ _ ip i d H Hh); [set_solver|done|by apply more_kept]| |done].
  intros _ f' [H' Hk']. rewrite difference_diag_L in H'. split; [by eapply fstate_ext, less_more|].
  intros jp j Hj. apply Hk'; [by apply Hk|]. rewrite less_more. by eapply kept_held.
Qed.

Lemma iput_at_wp ip i f : at_inode ip i f -> kept i -> wp (iput sb pid ip) (fun _ => restored) (fun _ => False) f.
Proof.
  intros [H Hh Hk] K. pose proof K as (d & Hd & _).
  eapply wp_mono; [apply (iput_st sb Hsb pid f v I ∅ _ ip i d H Hh); [set_solver|done|by apply more_kept]| |done].
  intros _ f' [H' Hk']. split; [by eapply fstate_ext, less_more|].
  intros jp j Hj. apply Hk'; [by apply Hk|]. rewrite less_more. by eapply kept_held.
Qed.

(** Unlocking it, when it is the parent asked for. *)
Lemma unlock_wp ip i f : locked_at ip i f -> wp (iunlock pid ip) (fun _ => at_inode ip i) (fun _ => False) f.
Proof.
  intros [H Hh Hk]. eapply wp_mono; [apply (iunlock_st sb pid f v I _ _ ip H); set_solver| |done].
  intros _ f' [H' Hk']. rewrite difference_diag_L in H'. split; [done|by apply Hk'|]. intros jp j Hj. by apply Hk', Hk.
Qed.

(** Going on to the inode found. *)
Lemma move_wp ip i d f next n f1 : locked_at ip i f -> I !! i = Some d -> kept i ->
  fstate f1 v I {[ip]} (more (more R i) n) -> holds f1 next n -> (forall jp j, holds f jp j -> holds f1 jp j) ->
  wp (iunlockput sb pid ip) (fun _ => at_inode next n) (fun _ => False) f1.
Proof.
  intros [H Hh Hk] Hd K H1 Hn Hk1. assert (E : forall j, less (more (more R i) n) i j = more R n j) by (intros j; unfold less, more; lia).
  eapply wp_mono; [apply (iunlockput_st sb Hsb pid f1 v I _ _ ip i d H1 (Hk1 _ _ Hh)); [set_solver|done|]| |done].
  - destruct (more_kept i d K Hd) as [?|Hr]; [by left|right]. unfold more at 1. case_decide; lia.
  - intros _ f' [H' Hk']. rewrite difference_diag_L in H'. split; [by eapply fstate_ext|..].
    + apply Hk'; [done|]. rewrite E. unfold more. rewrite decide_True by done. pose proof (st_refs _ _ _ _ _ _ _ H0 n) as Hr.
      assert (0 <= R n); [|lia]. rewrite <- Hr. apply (refs_nonneg _ I), (mo_cache _ _ _ _ _ (st_mounted _ _ _ _ _ _ _ H0)).
    + intros jp j Hj. apply Hk'; [by apply Hk1, Hk|]. rewrite E. pose proof (kept_held jp j Hj). unfold more. case_decide; lia.
Qed.

(** The results of namex. *)
Definition resolved (parent : bool) i (es : list (list Z)) (r : option Z * list Z) f' : Prop :=
  if parent then
    match walk_parent v I i es with
    | Some (j, w) => exists ip, fst r = Some ip /\ name_of (snd r) = w /\ at_inode ip j f'
    | None => fst r = None /\ restored f'
    end
  else
    match walk v I i es with
    | Some j => exists ip, fst r = Some ip /\ at_inode ip j f'
    | None => fst r = None /\ restored f'
    end.

(** All entries of the cache are taken, one of them perhaps by namex. *)
Definition crowded msg : Prop := msg = "iget: no inodes" /\ NINODE - 1 <= Z.of_nat (size (live (icache f0))).

Lemma crowded_ok f Lk i j msg : fstate f v I Lk (more R i) -> cache_full f j msg -> crowded msg.
Proof.
  intros H [-> Hfull]. split; [done|]. pose proof (mo_cache _ _ _ _ _ (st_mounted _ _ _ _ _ _ _ H)) as HC.
  pose proof (mo_cache _ _ _ _ _ (st_mounted _ _ _ _ _ _ _ H0)) as HC0.
  rewrite <- (live_full _ I HC) by (intros ip Hip; by apply Hfull).
  assert (Hsub : live (icache f) ⊆ {[i]} ∪ live (icache f0)).
  { intros x. rewrite elem_of_union, elem_of_singleton, (elem_of_live _ I x HC), (elem_of_live _ I x HC0).
    rewrite (st_refs _ _ _ _ _ _ _ H), (st_refs _ _ _ _ _ _ _ H0). unfold more. case_decide; [by left|right; lia]. }
  pose proof (size_sub _ _ Hsub). pose proof (size_add (live (icache f0)) i). lia.
Qed.

(** The step of the walk, on a directory. *)
Lemma child_dir i d w : I !! i = Some d -> d_type d = T_DIR ->
  child v I i w = match lookup_name (fdata v d) w with Some k => Some (de_inum (entry (fdata v d) k)) | None => None end.
Proof. intros Hd Hty. unfold child. by rewrite Hd, Hty. Qed.

Lemma resolved_fail parent i w es name f' : child v I i w = None -> (parent = true -> es = [] -> is_dir I i = false) -> restored f' ->
  resolved parent i (w :: es) (None, name) f'.
Proof.
  intros Hc Hp Rs. unfold resolved. destruct parent; cbn [walk walk_parent].
  - destruct es; [by rewrite Hp|]. rewrite Hc. done.
  - rewrite Hc. done.
Qed.

Lemma resolved_next parent i w es j r f' : child v I i w = Some j -> (parent = true -> es <> []) -> resolved parent j es r f' ->
  resolved parent i (w :: es) r f'.
Proof.
  intros Hc Hp Rs. unfold resolved in *. destruct parent; cbn [walk walk_parent].
  - destruct es; [by destruct (Hp eq_refl)|]. rewrite Hc. exact Rs.
  - rewrite Hc. exact Rs.
Qed.

Lemma namex_loop_wp parent : forall fuel path name ip i f, at_inode ip i f -> kept i -> zlen name = DIRSIZ -> (length path < fuel)%nat ->
  wp (namex_loop sb pid devread fuel ip path parent name) (resolved parent i (elements path [])) crowded f.
Proof.
  induction fuel as [|fuel IH]; intros path name ip i f A K Hn Hf; [lia|]. cbn [namex_loop].
  pose proof (skipelem_ok path name Hn) as Hsk. destruct (skipelem path name) as [[rest name']|].
  2: { rewrite Hsk. destruct parent; [|apply wp_ret; by exists ip].
       eapply wp_step; [by apply (iput_at_wp ip i f)| |done]. intros [] f' Rs. by apply wp_ret. }
  destruct Hsk as (w & -> & Hw & Hn' & Hlt & Hend). pose proof K as (d & Hd & _).
  eapply wp_step; [by apply (ilock_at_wp ip i d f)| |done]. intros [] f1 A1. eapply wp_step_run; [reflexivity|].
  assert (Hip : ip ∈ ({[ip]} : gset Z)) by set_solver.
  destruct (st_entry sb pid _ _ _ _ _ _ _ _ (la_state _ _ _ A1) (la_holds _ _ _ A1) Hip Hd) as (_ & _ & -> & _).
  assert (Hleave : forall f2, locked_at ip i f2 -> child v I i w = None ->
    (parent = true -> elements rest [] = [] -> is_dir I i = false) ->
    wp (iunlockput sb pid ip;; mret (None, name')) (resolved parent i (w :: elements rest [])) crowded f2).
  { intros f2 A2 Hc Hp. eapply wp_step; [by apply (leave_wp ip i d f2)| |done]. intros [] f3 Rs. apply wp_ret. by apply resolved_fail. }
  destruct (Z.eqb_spec (d_type d) T_DIR) as [Hty|Hty]; cbn [negb].
  2: { apply Hleave; [done|unfold child|intros _ _; unfold is_dir]; rewrite Hd, (proj2 (Z.eqb_neq _ T_DIR)); done. }
  pose proof (child_dir i d w Hd Hty) as Hch.
  assert (Hp : parent && (chr rest =? 0) = false -> parent = true -> elements rest [] <> []).
  { intros Hb ->. cbn in Hb. apply Z.eqb_neq in Hb. by rewrite <- Hend. }
  destruct (parent && (chr rest =? 0)) eqn:Ep.
  - apply andb_prop in Ep as [-> E0%Z.eqb_eq%Hend]. eapply wp_step; [by apply (unlock_wp ip i f1)| |done]. intros [] f2 A2. apply wp_ret.
    rewrite E0. unfold resolved. cbn [walk_parent]. unfold is_dir. rewrite Hd, Hty. cbn. by exists ip.
  - specialize (Hp eq_refl). destruct A1 as [H1 Hh1 Hk1].
    eapply wp_step; [apply (dirlookup_st sb Hsb pid devread f1 v I _ _ ip i d name' H1 Hh1 Hip Hd Hty); by apply (tr_dir v I T i)| |].
    + rewrite (lookup_name_cong _ name' w Hw). intros r f2 [Hr Hk2].
      destruct (lookup_name (fdata v d) w) as [k|] eqn:Ek.
      * destruct Hr as (next & -> & H2 & Hnx).
        eapply wp_step; [by apply (move_wp ip i d f1 next _ f2 (mklocked_at _ _ _ H1 Hh1 Hk1) Hd K H2 Hnx Hk2)| |done]. intros [] f3 A3.
        eapply wp_mono; [apply (IH rest name' next _ f3 A3); [|done|lia]| |done].
        -- destruct (child_linked v I i w _ T Hch) as (d' & Hd' & Hnl). exists d'. split; [done|by left].
        -- intros r f4 Rs. by apply (resolved_next parent i w _ _ _ _ Hch).
      * destruct Hr as [-> H2]. apply Hleave; [|by rewrite Hch|intros Hpt He; by destruct (Hp Hpt)].
        split; [done|by apply Hk2|]. intros jp j Hj. by apply Hk2, Hk1.
    + intros msg (k & _ & Hfull). by eapply crowded_ok.
Qed.
End from.

(** Where a path starts. *)
Definition start f cwd path : Z := if chr path =? SLASH then ROOTINO else inum_of (icache f) cwd.

Lemma namex_wp f v I R cwd path parent name : fstate f v I ∅ R -> tree_ok v I -> used (icache f) cwd -> zlen name = DIRSIZ ->
  wp (namex sb pid devread cwd path parent name) (resolved f v I R parent (start f cwd path) (elements path [])) (crowded f) f.
Proof.
  intros H T HU Hn. pose proof (mo_cache _ _ _ _ _ (st_mounted _ _ _ _ _ _ _ H)) as HC. assert (Hcwd : holds f cwd (inum_of (icache f) cwd)) by done.
  unfold namex, start. destruct (chr path =? SLASH).
  - destruct (tr_root v I T) as (d & Hd & Hnl).
    eapply wp_step; [apply (iget_st sb Hsb pid f v I ∅ R ROOTINO H); by eexists| |].
    + intros ip f1 (H1 & Hh1 & Hk1). apply namex_loop_wp; [done|done|by split| |done|lia]. exists d. split; [done|by left].
    + intros msg [-> Hfull]. split; [done|]. rewrite (live_full _ I HC); [unfold NINODE; lia|]. intros ip Hip. by apply Hfull.
  - eapply wp_step; [by apply (idup_st sb pid f v I ∅ R cwd _ H Hcwd)| |done]. intros ip f1 (-> & H1 & Hk1).
    apply namex_loop_wp; [done|done|split; [done|by apply Hk1|done]| |done|lia]. destruct (ca_inode _ _ HC cwd HU) as [d Hd]. exists d.
    split; [done|right]. rewrite (st_ref sb pid _ _ _ _ _ _ _ H Hcwd). apply HU.
Qed.
End run.
