(* ===== verification/FsDemo.v ===== *)
(** * A small file system

    A disk of 32 blocks on which the properties of the file system are evaluated: the root
    directory with the entries ".", "..", "f" and "d", the file "f", which is a small program,
    and the empty directory "d".  The log has 12 blocks from block 2 on. *)

From S2P Require Import Prelude Bytes Bio Log Blocks LogBlocks Fs FsBlocks FsInode FsData FsWrite FsTrunc FsCache FsDir FsState FsPath.
From stdpp Require Import gmap.
#[local] Open Scope Z_scope.

Definition demo_sb : superblock := mksb 32 14 8 12 2 14 15.
Definition demo_root : dinode := mkdinode T_DIR 0 0 2 64 (16 :: replicate 12 0).
Definition demo_file : dinode := mkdinode T_FILE 0 0 1 88 (17 :: replicate 12 0).
Definition demo_sub : dinode := mkdinode T_DIR 0 0 1 32 (18 :: replicate 12 0).
Definition demo_inodes : gmap Z dinode := {[1 := demo_root; 2 := demo_file; 3 := demo_sub]}.

Definition demo_entries : list Z := dirent 1 [46] ++ dirent 1 [46; 46] ++ dirent 2 [102] ++ dirent 3 [100].
Definition demo_dots : list Z := dirent 3 [46] ++ dirent 1 [46; 46].

(** A program with one segment: four bytes of code and four bytes of zeros. *)
Definition demo_elf : list Z :=
  [127; 69; 76; 70] ++ replicate 20 0 ++ [0; 0; 0; 0] ++ [52; 0; 0; 0] ++ replicate 12 0 ++ [1; 0] ++ replicate 6 0 ++
  [1; 0; 0; 0] ++ [84; 0; 0; 0] ++ replicate 8 0 ++ [4; 0; 0; 0] ++ [8; 0; 0; 0] ++ replicate 8 0 ++ [235; 254; 144; 144].

Definition pad (b : list Z) : list Z := take 512 (b ++ replicate 512 0).
Definition demo_block (n : Z) : list Z :=
  if n =? 1 then pad (bytes_of [32; 14; 8; 12; 2; 14; 15])
  else if n =? 14 then pad (replicate 64 0 ++ enc demo_root ++ enc demo_file ++ enc demo_sub)
  else if n =? 15 then pad [255; 255; 7]
  else if n =? 16 then pad demo_entries
  else if n =? 17 then pad demo_elf
  else if n =? 18 then pad demo_dots
  else replicate 512 0.
Definition demo_disk_fs : list (list Z) := Eval vm_compute in (words_of ∘ demo_block <$> seqZ 0 32).
Definition demo_view : view := disk_view 14 demo_disk_fs.

(** The log component after the boot, and the cache with one reference to the file. *)
Definition demo_log : logst := mklog (binit demo_disk_fs) 2 12 0 false 1 0 (replicate 30 0).
Definition demo_entry (inum ref : Z) : inode := mkinode 1 inum ref false 0 false dinode0.
Definition demo_cache : list inode := demo_entry 2 1 :: demo_entry 1 1 :: replicate 48 (demo_entry 0 0).
Definition demo_fs : fs logst := mkfs demo_log demo_cache.

Lemma demo_sb_ok : sb_ok demo_sb.
Proof. split; vm_compute; intuition congruence. Qed.

Definition words_okb (w : list Z) : bool := (zlen w =? 128) && forallb (fun x => (0 <=? x) && (x <? 2 ^ 32)) w.

Lemma words_okb_ok w : words_okb w = true -> words_ok w.
Proof.
  intros [Hl%Z.eqb_eq Hw]%andb_prop. split; [done|]. apply Forall_forall. intros x Hx%list_elem_of_In.
  rewrite List.forallb_forall in Hw. specialize (Hw x Hx). unfold is_u32. lia.
Qed.

Lemma demo_words n w : zlookup demo_disk_fs n = Some w -> words_ok w.
Proof.
  intros Hw. apply words_okb_ok. assert (HF : forallb words_okb demo_disk_fs = true) by (vm_compute; reflexivity).
  rewrite List.forallb_forall in HF. apply HF, list_elem_of_In. pose proof (zlookup_Some_range _ _ _ Hw).
  rewrite zlookup_to_nat in Hw by lia. by eapply list_elem_of_lookup_2.
Qed.

Lemma demo_quiet : quiet 7 2 12 demo_log.
Proof.
  split.
  - apply binit_ok.
  - by split.
  - split; [lia|]. split; [unfold NBUF; lia|]. split; [vm_compute; discriminate|].
    exists (words_of (demo_block 1)). vm_compute. auto.
  - split; [split; [constructor|]|].
    + intros t h d Ht. by rewrite lookup_nil in Ht.
    + exists (words_of (demo_block 2)). split; [reflexivity|]. split; [reflexivity|]. split; [reflexivity|].
      intros t Ht. exfalso. vm_compute in Ht. destruct Ht as [H1 H2]. destruct t; discriminate || by apply H1.
  - intros n w _. apply demo_words.
Qed.

(** The inodes have one direct block each. *)
Lemma demo_slot (v : view) ty nl sz a n : 0 <= n -> slot v (mkdinode ty 0 0 nl sz (a :: replicate 12 0)) n = if decide (n = 0) then a else 0.
Proof.
  intros Hn. set (d := mkdinode _ _ _ _ _ _). assert (Hi : ind d = 0) by reflexivity. unfold slot. rewrite Hi. case_decide as E; [by subst|].
  destruct (Z.ltb_spec n NDIRECT) as [Hlt|Hge]; [|by destruct (n =? MAXFILE)]. unfold zget. rewrite zlookup_to_nat by lia.
  unfold d. cbn [d_addrs]. destruct (Z.to_nat n) as [|m] eqn:Em; [lia|].
  change ((a :: replicate 12 0) !! S m) with (replicate 12 0 !! m). rewrite lookup_replicate_2; [done|].
  unfold NDIRECT in Hlt. lia.
Qed.

Lemma demo_lookup i d : demo_inodes !! i = Some d -> (i = 1 /\ d = demo_root) \/ (i = 2 /\ d = demo_file) \/ (i = 3 /\ d = demo_sub).
Proof. unfold demo_inodes. rewrite !lookup_insert_Some, lookup_singleton_Some. naive_solver. Qed.

Lemma demo_maps v b i n : maps v demo_inodes b i n <-> (b = 16 /\ i = 1 /\ n = 0) \/ (b = 17 /\ i = 2 /\ n = 0) \/ (b = 18 /\ i = 3 /\ n = 0).
Proof.
  split.
  - intros (d & [[-> ->]|[[-> ->]|[-> ->]]]%demo_lookup & Hn & Hs & Hb); unfold demo_root, demo_file, demo_sub in Hs; rewrite demo_slot in Hs by lia; case_decide; naive_solver.
  - intros [(-> & -> & ->)|[(-> & -> & ->)|(-> & -> & ->)]]; [exists demo_root|exists demo_file|exists demo_sub]; by split_and!.
Qed.

Definition bitmap_okb (v : view) : bool :=
  forallb (fun n => match vblk v !! n with Some b => (zlen b =? 512) && forallb (fun x => (0 <=? x) && (x <? 256)) b | None => false end) (seqZ 14 18)
  && forallb (fun b => Bool.eqb (bit demo_sb v b) (b <? 19)) (seqZ 0 32).

Lemma demo_bits b : 0 <= b < 32 -> bit demo_sb demo_view b = (b <? 19).
Proof.
  intros Hb. assert (HF : bitmap_okb demo_view = true) by (vm_compute; reflexivity). apply andb_prop in HF as [_ HF].
  rewrite List.forallb_forall in HF. specialize (HF b). rewrite <- list_elem_of_In, elem_of_seqZ in HF. by apply eqb_prop, HF.
Qed.

Lemma demo_bitmap : bitmap_ok demo_sb demo_view.
Proof.
  split.
  - intros n Hn. assert (HF : bitmap_okb demo_view = true) by (vm_compute; reflexivity). apply andb_prop in HF as [HF _].
    rewrite List.forallb_forall in HF. specialize (HF n). rewrite <- list_elem_of_In, elem_of_seqZ in HF. specialize (HF Hn).
    destruct (vblk demo_view !! n) as [b|]; [|done]. apply andb_prop in HF as [Hl%Z.eqb_eq Hb]. exists b. split; [done|]. split; [done|].
    apply Forall_forall. intros x Hx%list_elem_of_In. rewrite List.forallb_forall in Hb. specialize (Hb x Hx). unfold is_u8. lia.
  - intros b Hb. change (datastart demo_sb) with 16 in Hb. rewrite demo_bits by lia. apply Z.ltb_lt. lia.
Qed.

Lemma demo_dinode_ok d : d = demo_root \/ d = demo_file \/ d = demo_sub -> dinode_ok d.
Proof. intros [-> | [-> | ->]]; (split; cbn; try done; unfold is_s16, is_u32; try lia; repeat apply Forall_cons_2; try lia; done). Qed.

Lemma demo_fsinv : fsinv demo_sb demo_view demo_inodes.
Proof.
  split.
  - apply demo_bitmap.
  - intros i d [[-> ->]|[[-> ->]|[-> ->]]]%demo_lookup; (split; [cbn; lia|]; split; [apply demo_dinode_ok; auto|done]).
  - intros b i n [(-> & _)|[(-> & _)|(-> & _)]]%demo_maps; by vm_compute.
  - intros b i n j m H1%demo_maps H2%demo_maps. naive_solver.
  - intros b Hb. change (datastart demo_sb) with 16 in Hb. cbn in Hb. rewrite demo_bits by lia. setoid_rewrite demo_maps. split.
    + intros H%Z.ltb_lt. destruct (decide (b = 16)) as [->|]; [exists 1, 0; auto|]. destruct (decide (b = 17)) as [->|]; [exists 2, 0; auto|]. assert (b = 18) as -> by lia. exists 3, 0. auto.
    + intros (i & n & [(-> & _)|[(-> & _)|(-> & _)]]); done.
  - intros i d [[-> ->]|[[-> ->]|[-> ->]]]%demo_lookup; (split; [by vm_compute|]; cbn; unfold BSIZE; intros n Hn Hlt; assert (n = 0) as -> by lia; done).
Qed.

Lemma demo_synced : synced demo_sb demo_view demo_inodes ∅.
Proof.
  intros i Hi _. cbn in Hi. destruct (decide (i = 1)) as [->|]; [by vm_compute|]. destruct (decide (i = 2)) as [->|]; [by vm_compute|].
  destruct (decide (i = 3)) as [->|]; [by vm_compute|]. destruct (decide (i = 4)) as [->|]; [by vm_compute|]. destruct (decide (i = 5)) as [->|]; [by vm_compute|].
  destruct (decide (i = 6)) as [->|]; [by vm_compute|]. assert (i = 7) as -> by lia. by vm_compute.
Qed.

Lemma demo_used ip : used demo_cache ip -> ip = 0 \/ ip = 1.
Proof.
  intros [Hip Hr]. destruct (decide (ip = 0)); [by left|]. destruct (decide (ip = 1)); [by right|]. exfalso. revert Hr.
  unfold zget. rewrite zlookup_to_nat by lia. destruct (Z.to_nat ip) as [|[|m]] eqn:E; [lia..|].
  change (demo_cache !! S (S m)) with (replicate 48 (demo_entry 0 0) !! m). rewrite lookup_replicate_2; [done|]. unfold NINODE in Hip. lia.
Qed.

Lemma demo_cached : cached demo_cache demo_inodes.
Proof.
  split.
  - reflexivity.
  - intros ip Hip. destruct (decide (0 <= i_ref (zget demo_cache ip))) as [|H]; [done|]. exfalso.
    assert (HF : Forall (fun e => 0 <= i_ref e) demo_cache) by (repeat (apply Forall_cons_2; [cbn; lia|]); constructor).
    apply H. pose proof (zlookup_zget demo_cache ip Hip) as Hz. rewrite zlookup_to_nat in Hz by lia. by eapply (Forall_lookup_1 _ _ _ _ HF).
  - by intros ip [-> | ->]%demo_used.
  - intros ip [-> | ->]%demo_used; vm_compute; eauto.
  - intros ip jp [-> | ->]%demo_used [-> | ->]%demo_used; done.
  - by intros ip [-> | ->]%demo_used.
Qed.

Lemma demo_unlocked : all_unlocked demo_fs.
Proof.
  intros ip Hip. assert (HF : Forall (fun e => i_locked e = false) demo_cache) by (repeat (apply Forall_cons_2; [done|]); constructor).
  pose proof (zlookup_zget demo_cache ip Hip) as Hz. rewrite zlookup_to_nat in Hz by lia. by eapply (Forall_lookup_1 _ _ _ _ HF).
Qed.

Lemma demo_root_data : fdata demo_view demo_root = demo_entries.
Proof. vm_compute. reflexivity. Qed.

Lemma demo_sub_data : fdata demo_view demo_sub = demo_dots.
Proof. vm_compute. reflexivity. Qed.

Lemma demo_file_data : fdata demo_view demo_file = demo_elf.
Proof. vm_compute. reflexivity. Qed.

(** The inodes that the entries of the two directories lead to. *)
Lemma demo_entry_inum k : 0 <= k < 4 -> de_inum (entry demo_entries k) = if decide (k = 2) then 2 else if decide (k = 3) then 3 else 1.
Proof.
  intros Hk. destruct (decide (k = 0)) as [->|]; [done|]. destruct (decide (k = 1)) as [->|]; [done|].
  destruct (decide (k = 2)) as [->|]; [done|]. assert (k = 3) as -> by lia. done.
Qed.

Lemma demo_dots_inum k : 0 <= k < 2 -> de_inum (entry demo_dots k) = if decide (k = 0) then 3 else 1.
Proof. intros Hk. destruct (decide (k = 0)) as [->|]; [done|]. assert (k = 1) as -> by lia. done. Qed.

Lemma demo_tree : tree_ok demo_view demo_inodes.
Proof.
  assert (HE : forall i d k, demo_inodes !! i = Some d -> d_type d = T_DIR -> 0 <= k < zlen (fdata demo_view d) / 16 ->
    exists d', demo_inodes !! de_inum (entry (fdata demo_view d) k) = Some d' /\ d_nlink d' <> 0).
  { intros i d k [[-> ->]|[[-> ->]|[-> ->]]]%demo_lookup Hty; [rewrite demo_root_data|done|rewrite demo_sub_data].
    - change (zlen demo_entries / 16) with 4. intros Hk. rewrite demo_entry_inum by done. repeat case_decide; by eexists.
    - change (zlen demo_dots / 16) with 2. intros Hk. rewrite demo_dots_inum by done. case_decide; by eexists. }
  split.
  - intros i d Hd Hty. split; [|intros k Hk _; destruct (HE i d k Hd Hty Hk) as (d' & -> & _); by eexists].
    apply demo_lookup in Hd as [[-> ->]|[[-> ->]|[-> ->]]]; [rewrite demo_root_data; by exists 4|done|rewrite demo_sub_data; by exists 2].
  - intros i d k d' Hd Hty Hk _ Hd'. destruct (HE i d k Hd Hty Hk) as (d0 & Hd0 & Hn). congruence.
  - by exists demo_root.
Qed.
