(* ===== verification/Kalloc.v ===== *)
(** * The physical page allocator

    kalloc.c.  The free list is a linked list through the free pages themselves: the
    first word of a free page is the address of the next one, in the memory of CString.v.
    [kend] is [end], the first address after the kernel, which the linker sets.  The
    allocator's lock is used when [use_lock] is set, around operations that are single
    steps here. *)

From S2P Require Import Prelude CString.

Definition PGSIZE : Z := 4096.
Definition KERNBASE : Z := 2147483648.
Definition PHYSTOP : Z := 234881024.
Definition PGROUNDUP (a : Z) : Z := Z.land (u32 (a + PGSIZE - 1)) (Z.lnot (PGSIZE - 1)).
Definition V2P (a : Z) : Z := u32 (a - KERNBASE).
Definition P2V (a : Z) : Z := u32 (a + KERNBASE).

Record kmem := mkkmem { kmemory : memory; use_lock : bool; freelist : Z }.
#[export] Instance kmem_eta : Eta kmem := fun k => mkkmem (kmemory k) (use_lock k) (freelist k).

Definition load_word (m : memory) (a : Z) : Z :=
  m a + 2 ^ 8 * m (u32 (a + 1)) + 2 ^ 16 * m (u32 (a + 2)) + 2 ^ 24 * m (u32 (a + 3)).

(** ** Words in memory *)

Section words.
Implicit Types (m : memory) (a b w x : Z).

(** A word is the four bytes from its address. *)
Definition in_word (a x : Z) : Prop := a <= x < a + 4.

Lemma load_word_same m m' a :
  0 <= a -> a + 4 <= 2 ^ 32 -> (forall x, in_word a x -> m' x = m x) -> load_word m' a = load_word m a.
Proof.
  intros H0 H1 Hm. unfold load_word, in_word in *. rewrite !u32_small by (unfold is_u32; lia).
  rewrite !Hm by lia. done.
Qed.

Lemma store_word_out4 m a w x :
  0 <= a -> a + 4 <= 2 ^ 32 -> ~ in_word a x -> store_word m a w x = m x.
Proof.
  intros H0 H1 Hx. unfold store_word, store, in_word in *. rewrite !u32_small by (unfold is_u32; lia).
  by rewrite !(proj2 (Z.eqb_neq x _)) by lia.
Qed.

Lemma load_store_eq m a w :
  0 <= a -> a + 4 <= 2 ^ 32 -> is_u32 w -> load_word (store_word m a w) a = w.
Proof.
  intros H0 H1 Hw. unfold load_word, store_word, store.
  rewrite !u32_small by (unfold is_u32; lia).
  repeat match goal with
  | |- context [?a =? ?b] => first
      [ rewrite (proj2 (Z.eqb_eq a b)) by lia | rewrite (proj2 (Z.eqb_neq a b)) by lia ]
  end.
  unfold u8, is_u32 in *. rewrite !Z.shiftr_div_pow2 by lia.
  change (2 ^ 8) with 256 in *. change (2 ^ 16) with 65536. change (2 ^ 24) with 16777216.
  change (2 ^ 32) with 4294967296 in *. Z.div_mod_to_equations. lia.
Qed.

Lemma load_store_ne m a b w :
  0 <= a -> a + 4 <= 2 ^ 32 -> 0 <= b -> b + 4 <= 2 ^ 32 -> b + 4 <= a \/ a + 4 <= b ->
  load_word (store_word m a w) b = load_word m b.
Proof.
  intros H0 H1 H2 H3 Hd. apply load_word_same; [done..|]. intros x Hx. apply store_word_out4; [done..|].
  unfold in_word in *. lia.
Qed.
End words.

Section ops.
Context (kend : Z).

Definition kfree (v : Z) : M kmem unit :=
  if negb (v mod PGSIZE =? 0) || (v <? kend) || (PHYSTOP <=? V2P v) then panic "kfree" else
  modify (fun k => k <| kmemory := memset (kmemory k) v 1 PGSIZE |>);;
  modify (fun k => k <| kmemory := store_word (kmemory k) v (freelist k) |>);;
  modify (fun k => k <| freelist := v |>).

Definition kalloc : M kmem Z :=
  r ← gets freelist;
  (if negb (r =? 0) then modify (fun k => k <| freelist := load_word (kmemory k) r |>) else mret tt);;
  mret r.

(** [for(; p + PGSIZE <= (char* )vend; p += PGSIZE) kfree(p);] *)
Fixpoint freerange_loop (fuel : nat) (p vend : Z) : M kmem unit :=
  match fuel with
  | O => mret tt
  | S fuel =>
      if u32 (p + PGSIZE) <=? vend then kfree p;; freerange_loop fuel (u32 (p + PGSIZE)) vend
      else mret tt
  end.

Definition freerange (vstart vend : Z) : M kmem unit :=
  freerange_loop (Z.to_nat (vend / PGSIZE)) (PGROUNDUP vstart) vend.

Definition kinit1 (vstart vend : Z) : M kmem unit :=
  modify (fun k => k <| use_lock := false |>);; freerange vstart vend.

Definition kinit2 (vstart vend : Z) : M kmem unit :=
  freerange vstart vend;; modify (fun k => k <| use_lock := true |>).

(** The two calls of main(). *)
Definition kinit : M kmem unit :=
  kinit1 kend (P2V (4 * 1024 * 1024));; kinit2 (P2V (4 * 1024 * 1024)) (P2V PHYSTOP).

(** ** The free list *)

Definition page (v : Z) : Prop :=
  v mod PGSIZE = 0 /\ kend <= v /\ KERNBASE <= v < KERNBASE + PHYSTOP.

Fixpoint chain (m : memory) (h : Z) (l : list Z) : Prop :=
  match l with
  | [] => h = 0
  | v :: l => h = v /\ chain m (load_word m v) l
  end.

Record kmem_ok (k : kmem) (l : list Z) : Prop := mkkmem_ok {
  ko_chain : chain (kmemory k) (freelist k) l; ko_nodup : NoDup l;
  ko_pages : forall v, v ∈ l -> page v }.
End ops.

Section lemmas.
Context (kend : Z).
Implicit Types (k : kmem) (l : list Z) (m : memory) (v x : Z).

Lemma page_range v : page kend v -> 0 < v /\ v + PGSIZE <= 2 ^ 32.
Proof.
  intros (Hm & _ & Hr). unfold PGSIZE, KERNBASE, PHYSTOP in *. split; lia.
Qed.

Lemma pages_apart v w x :
  page kend v -> page kend w -> v <> w -> v <= x < v + PGSIZE -> ~ (w <= x < w + PGSIZE).
Proof.
  intros (Hv & _) (Hw & _) Hn Hx Hx'. unfold PGSIZE in *.
  apply Z.mod_divide in Hv as [a ->]; [|lia]. apply Z.mod_divide in Hw as [b ->]; [|lia]. lia.
Qed.

Lemma load_word_ext m m' v :
  page kend v -> (forall x, v <= x < v + PGSIZE -> m' x = m x) -> load_word m' v = load_word m v.
Proof.
  intros [H0 H1]%page_range Hm. unfold PGSIZE in *. apply load_word_same; [lia..|].
  intros x Hx. apply Hm. unfold in_word in Hx. lia.
Qed.

Lemma load_store_word m v w :
  page kend v -> is_u32 w -> load_word (store_word m v w) v = w.
Proof. intros [H0 H1]%page_range Hw. unfold PGSIZE in *. apply load_store_eq; [lia..|done]. Qed.

Lemma store_word_out m v w x :
  page kend v -> ~ (v <= x < v + PGSIZE) -> store_word m v w x = m x.
Proof. intros [H0 H1]%page_range Hx. unfold PGSIZE in *. apply store_word_out4; unfold in_word; lia. Qed.

(** The chain depends only on the pages it goes through. *)
Lemma chain_ext m m' l : forall h,
  chain m h l -> (forall v, v ∈ l -> page kend v) ->
  (forall v x, v ∈ l -> v <= x < v + PGSIZE -> m' x = m x) -> chain m' h l.
Proof.
  induction l as [|v l IH]; intros h Hc Hp Hm; [done|]. destruct Hc as [-> Hc]. split; [done|].
  rewrite (load_word_ext m m' v); [|apply Hp; by left|intros x; apply Hm; by left].
  apply IH; [done|intros w Hw; apply Hp; by right|intros w x Hw; apply Hm; by right].
Qed.

Lemma chain_head m h l : chain m h l -> (forall v, v ∈ l -> page kend v) -> is_u32 h.
Proof.
  destruct l as [|v l]; [intros -> _; unfold is_u32; lia|]. intros [-> _] Hp.
  destruct (page_range v) as [H0 H1]; [apply Hp; by left|]. unfold is_u32, PGSIZE in *. lia.
Qed.

Lemma kfree_ok k l v :
  kmem_ok kend k l -> page kend v -> v ∉ l ->
  exists k', kfree kend v k = Ok tt k' /\ kmem_ok kend k' (v :: l) /\
    use_lock k' = use_lock k /\
    (forall x, ~ (v <= x < v + PGSIZE) -> kmemory k' x = kmemory k x) /\
    (forall x, v + 4 <= x < v + PGSIZE -> kmemory k' x = 1).
Proof.
  intros [Hc HN Hp] Hv Hnot. pose proof (page_range v Hv) as [H0 H1].
  set (m1 := memset (kmemory k) v 1 PGSIZE). set (m2 := store_word m1 v (freelist k)).
  assert (Hout : forall x, ~ (v <= x < v + PGSIZE) -> m2 x = kmemory k x).
  { intros x Hx. unfold m2. rewrite store_word_out by done. unfold m1.
    rewrite memset_spec by (unfold block, PGSIZE in *; lia). by rewrite decide_False. }
  exists (mkkmem m2 (use_lock k) v). split; [|split; [|split; [done|split; [done|]]]].
  - unfold kfree. destruct Hv as (Hm & Hk & Hr). rewrite Hm. cbn [Z.eqb negb orb].
    rewrite (proj2 (Z.ltb_ge _ _)) by lia. cbn [orb].
    unfold V2P. rewrite u32_small by (unfold is_u32, KERNBASE, PHYSTOP in *; lia).
    rewrite (proj2 (Z.leb_gt _ _)) by (unfold KERNBASE, PHYSTOP in *; lia). reflexivity.
  - split; cbn.
    + split; [done|]. unfold m2. rewrite load_store_word; [|done|by eapply chain_head].
      eapply chain_ext; [done..|]. intros w x Hw Hx. apply Hout. apply (pages_apart w v x); auto.
      by intros ->.
    + by apply NoDup_cons.
    + intros w [->|Hw]%elem_of_cons; auto.
  - intros x Hx. cbn. unfold m2, store_word, store, PGSIZE in *.
    rewrite !u32_small by (unfold is_u32; lia). rewrite !(proj2 (Z.eqb_neq x _)) by lia.
    unfold m1. rewrite memset_spec by (unfold block, PGSIZE in *; lia).
    by rewrite decide_True by (unfold PGSIZE; lia).
Qed.

Lemma kalloc_nil k : kmem_ok kend k [] -> kalloc k = Ok 0 k.
Proof. intros [Hc _ _]. unfold kalloc. erewrite bind_run by reflexivity. cbn in Hc. by rewrite Hc. Qed.

Lemma kalloc_cons k v l :
  kmem_ok kend k (v :: l) ->
  exists k', kalloc k = Ok v k' /\ kmem_ok kend k' l /\ kmemory k' = kmemory k.
Proof.
  intros [[Hh Hc] [Hn HN]%NoDup_cons Hp].
  exists (k <| freelist := load_word (kmemory k) v |>). split; [|split; [|done]].
  - unfold kalloc. erewrite bind_run by reflexivity. rewrite Hh.
    destruct (page_range v) as [H0 _]; [apply Hp; by left|].
    rewrite (proj2 (Z.eqb_neq _ _)) by lia. reflexivity.
  - split; [exact Hc|done|]. intros w Hw. apply Hp. by right.
Qed.
End lemmas.

(** ** Filling the free list at boot *)

Section boot.
Context (kend : Z) (Hkend : KERNBASE <= kend <= P2V (4 * 1024 * 1024)).
Implicit Types (k : kmem) (l : list Z) (p v : Z).

Lemma PGROUNDUP_spec a :
  0 <= a <= 2 ^ 32 - PGSIZE -> PGROUNDUP a = (a + (PGSIZE - 1)) / PGSIZE * PGSIZE.
Proof.
  intros Ha. unfold PGROUNDUP, PGSIZE in *. rewrite u32_small by (unfold is_u32; lia).
  change (4096 - 1) with (Z.ones 12). rewrite <- Z.ldiff_land, Z.ldiff_ones_r by lia.
  rewrite Z.shiftl_mul_pow2, Z.shiftr_div_pow2 by lia.
  change (2 ^ 12) with 4096. change (Z.ones 12) with 4095. do 2 f_equal. lia.
Qed.

Lemma freerange_loop_ok fuel : forall p k l vend,
  kmem_ok kend k l -> p mod PGSIZE = 0 -> kend <= p -> KERNBASE <= p <= KERNBASE + PHYSTOP ->
  vend <= KERNBASE + PHYSTOP -> (vend - p) / PGSIZE <= Z.of_nat fuel ->
  (forall v, v ∈ l -> v < p) ->
  exists k' l', freerange_loop kend fuel p vend k = Ok tt k' /\ kmem_ok kend k' l' /\
    use_lock k' = use_lock k /\
    forall v, v ∈ l' <-> v ∈ l \/ v mod PGSIZE = 0 /\ p <= v /\ v + PGSIZE <= vend.
Proof.
  induction fuel as [|fuel IH]; intros p k l vend HK Hp Hk Hb Hv Hf Hlt.
  { exists k, l. split; [done|]. split; [done|]. split; [done|]. intros v. split; [auto|].
    intros [?|(Hm & H1 & H2)]; [done|]. exfalso.
    assert (1 <= (vend - p) / PGSIZE); [|lia]. apply Z.div_le_lower_bound; unfold PGSIZE in *; lia. }
  cbn [freerange_loop]. destruct (decide (p + PGSIZE <= vend)) as [Hle|Hle].
  - assert (Hpg : page kend p) by (unfold page, PGSIZE in *; lia).
    destruct (kfree_ok kend k l p HK Hpg) as (k1 & E1 & HK1 & Hl1 & _).
    { intros Hin%Hlt. lia. }
    assert (Hu : u32 (p + PGSIZE) = p + PGSIZE)
      by (apply u32_small; unfold is_u32, PGSIZE, KERNBASE, PHYSTOP in *; lia).
    rewrite Hu, (proj2 (Z.leb_le _ _) Hle). erewrite bind_run by exact E1.
    destruct (IH (p + PGSIZE) k1 (p :: l) vend) as (k' & l' & E & HK' & Hlk & Hl'); auto.
    + replace (p + PGSIZE) with (p + 1 * PGSIZE) by lia. by rewrite Z_mod_plus_full.
    + unfold PGSIZE in *; lia.
    + unfold PGSIZE in *; lia.
    + replace (vend - (p + PGSIZE)) with (vend - p + (-1) * PGSIZE) by lia.
      rewrite Z.div_add by (unfold PGSIZE; lia). lia.
    + intros v [->|Hin%Hlt]%elem_of_cons; unfold PGSIZE; lia.
    + exists k', l'. split; [done|]. split; [done|]. split; [congruence|]. intros v. rewrite Hl', elem_of_cons.
      split; [intros [[->|?]|?]; auto; right; unfold PGSIZE in *; lia|].
      intros [?|(Hm & H1 & H2)]; [auto|]. destruct (decide (v = p)) as [->|Hn]; [auto|].
      right. split; [done|]. split; [|done].
      apply Z.mod_divide in Hm as [a ->]; [|done]. apply Z.mod_divide in Hp as [b ->]; [|done].
      unfold PGSIZE in *. lia.
  - exists k, l. split; [|split; [done|split; [done|]]].
    + rewrite (proj2 (Z.leb_gt _ _)); [done|].
      rewrite u32_small; [lia|]. unfold is_u32, PGSIZE, KERNBASE, PHYSTOP in *. lia.
    + intros v. split; [auto|]. intros [?|(Hm & H1 & H2)]; [done|]. lia.
Qed.

Lemma PGROUNDUP_up a :
  0 <= a <= 2 ^ 32 - PGSIZE ->
  PGROUNDUP a mod PGSIZE = 0 /\ a <= PGROUNDUP a < a + PGSIZE.
Proof.
  intros Ha. rewrite PGROUNDUP_spec by done. split; [by rewrite Z.mod_mul|].
  unfold PGSIZE in *. Z.div_mod_to_equations. lia.
Qed.

Lemma aligned_le a b : a mod PGSIZE = 0 -> b mod PGSIZE = 0 -> a < b + PGSIZE -> a <= b.
Proof.
  intros Ha Hb Hl. apply Z.mod_divide in Ha as [x ->]; [|done]. apply Z.mod_divide in Hb as [y ->]; [|done].
  unfold PGSIZE in *. lia.
Qed.

Lemma freerange_ok vstart vend k l :
  kmem_ok kend k l -> kend <= vstart -> KERNBASE <= vstart <= KERNBASE + PHYSTOP ->
  vend <= KERNBASE + PHYSTOP -> vend mod PGSIZE = 0 ->
  (forall v, v ∈ l -> v < vstart) ->
  exists k' l', freerange kend vstart vend k = Ok tt k' /\ kmem_ok kend k' l' /\
    use_lock k' = use_lock k /\
    forall v, v ∈ l' <-> v ∈ l \/ v mod PGSIZE = 0 /\ vstart <= v < vend.
Proof.
  intros HK Hk Hs He Ha Hl.
  destruct (PGROUNDUP_up vstart) as [Hm Hp]; [unfold KERNBASE, PHYSTOP, PGSIZE in *; lia|].
  destruct (freerange_loop_ok (Z.to_nat (vend / PGSIZE)) (PGROUNDUP vstart) k l vend)
    as (k' & l' & E & HK' & Hlk & Hl'); auto; try lia.
  - split; [lia|]. apply aligned_le; [done|reflexivity|lia].
  - unfold PGSIZE, KERNBASE in *. assert ((vend - PGROUNDUP vstart) / 4096 <= vend / 4096); [|lia].
    apply Z.div_le_mono; lia.
  - intros v Hv%Hl. lia.
  - exists k', l'. split; [done|]. split; [done|]. split; [done|]. intros v. rewrite Hl'.
    split; (intros [?|(Hv & H1 & H2)]; [by left|right; split; [done|]]).
    + unfold PGSIZE in *. lia.
    + split; [apply aligned_le; [done..|lia]|].
      assert (v + PGSIZE <= vend); [|done]. apply aligned_le; [|done|lia].
      replace (v + PGSIZE) with (v + 1 * PGSIZE) by lia. by rewrite Z_mod_plus_full.
Qed.

(** After the two initialisation phases every page above the kernel is free, once. *)
Lemma kinit_ok m b :
  exists k l, kinit kend (mkkmem m b 0) = Ok tt k /\ kmem_ok kend k l /\ use_lock k = true /\
    forall v, v ∈ l <-> page kend v.
Proof.
  change (P2V (4 * 1024 * 1024)) with (KERNBASE + 4194304) in Hkend.
  destruct (freerange_ok kend (KERNBASE + 4194304) (mkkmem m false 0) [])
    as (k1 & l1 & E1 & HK1 & _ & Hl1).
  - split; [done|apply NoDup_nil_2|]. intros v Hv. by apply elem_of_nil in Hv.
  - lia.
  - unfold PHYSTOP. lia.
  - unfold PHYSTOP. lia.
  - done.
  - intros v Hv. by apply elem_of_nil in Hv.
  - destruct (freerange_ok (KERNBASE + 4194304) (KERNBASE + PHYSTOP) k1 l1)
      as (k2 & l2 & E2 & HK2 & _ & Hl2); auto.
    + lia.
    + unfold PHYSTOP. lia.
    + lia.
    + intros v [Hv|(_ & Hv)]%Hl1; [by apply elem_of_nil in Hv|lia].
    + exists (k2 <| use_lock := true |>), l2. split; [|split; [by destruct HK2|split; [done|]]].
      * unfold kinit, kinit1, kinit2. change (P2V (4 * 1024 * 1024)) with (KERNBASE + 4194304).
        change (P2V PHYSTOP) with (KERNBASE + PHYSTOP).
        erewrite bind_run; [|erewrite bind_run by reflexivity; exact E1].
        by erewrite bind_run by exact E2.
      * intros v. rewrite Hl2, Hl1, elem_of_nil. unfold page. split; [intros [[?|?]|?]|]; [done|unfold PHYSTOP; lia|lia|].
        intros (Hm & Hk & Hr). destruct (decide (v < KERNBASE + 4194304)); [left; right|right]; lia.
Qed.
End boot.

(** ** Using the allocator *)

Section use.
Context (kend : Z).
Implicit Types (k : kmem) (A : list Z) (m : memory).

(** The kernel after boot, with the pages [A] handed out: it allocates a page, frees one it
    has, or writes anything to the pages it has. *)
Inductive in_use : kmem -> list Z -> Prop :=
  | use_boot m b k : kinit kend (mkkmem m b 0) = Ok tt k -> in_use k []
  | use_alloc k A v k' : in_use k A -> kalloc k = Ok v k' -> v <> 0 -> in_use k' (v :: A)
  | use_free k A v A' k' : in_use k A -> A ≡ₚ v :: A' -> kfree kend v k = Ok tt k' -> in_use k' A'
  | use_write k A m :
      in_use k A ->
      (forall x, (forall v, v ∈ A -> ~ (v <= x < v + PGSIZE)) -> m x = kmemory k x) ->
      in_use (k <| kmemory := m |>) A.

(** Every page is either free or handed out, and none is both. *)
Lemma in_use_ok k A :
  KERNBASE <= kend <= P2V (4 * 1024 * 1024) -> in_use k A ->
  exists l, kmem_ok kend k l /\ NoDup (l ++ A) /\ forall v, v ∈ l ++ A <-> page kend v.
Proof.
  intros Hk. induction 1 as [m b k E|k A v k' _ IH E Hv|k A v A' k' _ IH HA E|k A m _ IH Hm].
  - destruct (kinit_ok kend Hk m b) as (k' & l & E' & HK & _ & Hl).
    rewrite E in E'. injection E' as <-.
    exists l. rewrite app_nil_r. split; [done|]. split; [apply HK|done].
  - destruct IH as (l & HK & HN & Hl). destruct l as [|w l].
    { rewrite (kalloc_nil kend k HK) in E. congruence. }
    destruct (kalloc_cons kend k w l HK) as (k1 & E1 & HK1 & _).
    rewrite E in E1. injection E1 as <- <-.
    assert (Hp : l ++ v :: A ≡ₚ (v :: l) ++ A) by by rewrite <- Permutation_middle.
    exists l. split; [done|]. split; [by rewrite Hp|]. intros w. rewrite Hp. apply Hl.
  - destruct IH as (l & HK & HN & Hl). rewrite HA in HN.
    assert (Hp : l ++ A ≡ₚ (v :: l) ++ A') by (rewrite HA; by rewrite <- Permutation_middle).
    assert (Hv : v ∉ l).
    { rewrite <- Permutation_middle in HN. apply NoDup_cons in HN as [Hv _].
      intros Hin. apply Hv, elem_of_app. by left. }
    destruct (kfree_ok kend k l v HK) as (k1 & E1 & HK1 & _).
    { apply Hl. rewrite HA, elem_of_app. right. by left. }
    { done. }
    rewrite E in E1. injection E1 as <-. exists (v :: l). split; [done|]. split.
    + by rewrite <- Hp, HA.
    + intros w. by rewrite <- Hp, Hl.
  - destruct IH as (l & [Hc HN' Hp] & HN & Hl). exists l. split; [|done]. split; [|done|done].
    cbn. eapply chain_ext; [done..|]. intros v x Hv Hx. apply Hm. intros w Hw.
    apply (pages_apart kend v w x); auto.
    + apply Hl, elem_of_app. by right.
    + intros ->. apply NoDup_app in HN as (_ & HN & _). by apply (HN w).
Qed.
End use.

(** ** Properties *)

(** C14: the page allocator never gives a page out twice.  After kinit1 and kinit2, through
    any sequence of allocations, of frees of pages that are handed out and of writes to
    such pages, with the free list threaded through the memory of the free pages: the
    pages handed out are different whole pages above the kernel; kalloc returns either a
    further one, or 0 when every page is handed out; and kfree of a page handed out
    returns, fills the page with ones behind the list pointer and changes nothing else. *)
Theorem kalloc_sound (kend : Z) (k : kmem) (A : list Z)
    (Hk : KERNBASE <= kend <= P2V (4 * 1024 * 1024)) (HU : in_use kend k A) :
  NoDup A /\ (forall v, v ∈ A -> page kend v) /\
  (exists v k', kalloc k = Ok v k' /\
     ((page kend v /\ v ∉ A) \/ (v = 0 /\ forall w, page kend w -> w ∈ A))) /\
  (forall v, v ∈ A -> exists k', kfree kend v k = Ok tt k' /\ freelist k' = v /\
     (forall x, ~ (v <= x < v + PGSIZE) -> kmemory k' x = kmemory k x) /\
     (forall x, v + 4 <= x < v + PGSIZE -> kmemory k' x = 1)).
Proof.
  destruct (in_use_ok kend k A Hk HU) as (l & HK & HN & Hl).
  pose proof HN as (HNl & Hd & HNA)%NoDup_app.
  split; [done|]. split; [intros v Hv; apply Hl, elem_of_app; by right|]. split.
  - destruct l as [|v l].
    + exists 0, k. split; [by eapply kalloc_nil|]. right. split; [done|]. intros w Hw. by apply Hl.
    + destruct (kalloc_cons kend k v l HK) as (k' & E & _). exists v, k'. split; [done|]. left.
      split; [apply Hl; by left|]. apply Hd. by left.
  - intros v Hv. destruct (kfree_ok kend k l v HK) as (k' & E & HK' & _ & Ho & Hj).
    { apply Hl, elem_of_app. by right. }
    { intros Hin. by apply (Hd v). }
    exists k'. split; [done|]. split; [|done]. by destruct (ko_chain _ _ _ HK').
Qed.

(** A kernel that ends at 0x801154a8, right after boot: there is a page to allocate. *)
Lemma kalloc_sound_witness :
  exists k, in_use 2148619432 k [] /\
    exists v k', kalloc k = Ok v k' /\ page 2148619432 v.
Proof.
  destruct (kinit_ok 2148619432 ltac:(vm_compute; split; discriminate) (fun _ => 0) false)
    as (k & l & E & _). exists k.
  assert (HU : in_use 2148619432 k []) by exact (use_boot _ _ _ _ E). split; [exact HU|].
  destruct (kalloc_sound 2148619432 k [] ltac:(vm_compute; split; discriminate) HU)
    as (_ & _ & (v & k' & Ek & Hv) & _).
  exists v, k'. split; [exact Ek|]. destruct Hv as [[Hv _]|[_ Hall]]; [exact Hv|].
  exfalso. eapply (proj1 (elem_of_nil (KERNBASE + PHYSTOP - PGSIZE))). apply Hall.
  vm_compute. repeat split; discriminate.
Defined.
