(* ===== verification/Pipe.v ===== *)
(** * Pipes and the open-file table

    pipe.c, and of file.c what it shares with pipes: the table of open files, filealloc,
    filedup and fileclose.  A call that sleeps gives
    up the pipe's lock with a [Sleep] result that says where it stands, and is resumed
    with what is left; every other path is one step.  [nread] and [nwrite] count modulo
    2^32, as the code's unsigned counters do. *)

From S2P Require Import Prelude CString Kalloc.
From stdpp Require Import gmap.
#[local] Open Scope Z_scope.

Definition PIPESIZE : Z := 512.
Definition NFILE : nat := 100.

Record pipe := mkpipe {
  p_data : list Z; p_nread : Z; p_nwrite : Z; p_readopen : bool; p_writeopen : bool }.
#[export] Instance pipe_eta : Eta pipe := fun p =>
  mkpipe (p_data p) (p_nread p) (p_nwrite p) (p_readopen p) (p_writeopen p).

(** The two sleep channels of a pipe. *)
Inductive chan := CRead | CWrite.

(** A call returns, or sleeps with [left] still to do; [wakes] lists its wakeups. *)
Inductive result (A : Type) := Return (ret : Z) (a : A) | Sleep (left : A).
Arguments Return {A} ret a.
Arguments Sleep {A} left.

Section pipe.
Implicit Types (p : pipe) (killed : bool).

(** [p->nwrite == p->nread + PIPESIZE] and [p->nread == p->nwrite] *)
Definition full p : bool := p_nwrite p =? u32 (p_nread p + PIPESIZE).
Definition empty p : bool := p_nread p =? p_nwrite p.

Definition put (c : Z) p : pipe :=
  p <| p_data := zupd (p_data p) (p_nwrite p mod PIPESIZE) c |>
    <| p_nwrite := u32 (p_nwrite p + 1) |>.

Definition take_byte p : Z * pipe :=
  (zget (p_data p) (p_nread p mod PIPESIZE), p <| p_nread := u32 (p_nread p + 1) |>).

(** pipewrite from byte [i] of [n] on; [addr] holds the bytes left. *)
Fixpoint pipewrite (addr : list Z) (n : Z) killed p : pipe * result (list Z) * list chan :=
  match addr with
  | [] => (p, Return n [], [CRead])
  | c :: addr' =>
      if full p then
        if negb (p_readopen p) || killed then (p, Return (-1) addr, [])
        else (p, Sleep addr, [CRead])
      else pipewrite addr' n killed (put c p)
  end.

(** The copying loop of piperead; it returns the bytes copied. *)
Fixpoint read_loop (n : nat) p : list Z * pipe :=
  match n with
  | O => ([], p)
  | S n =>
      if empty p then ([], p)
      else let '(c, p) := take_byte p in
           let '(cs, p) := read_loop n p in (c :: cs, p)
  end.

Definition piperead (n : nat) killed p : pipe * result (list Z) * list chan :=
  if empty p && p_writeopen p then
    if killed then (p, Return (-1) [], []) else (p, Sleep [], [])
  else
    let '(cs, p) := read_loop n p in
    (p, Return (zlen cs) cs, [CWrite]).

(** pipeclose; the boolean says that the pipe's page is freed. *)
Definition pipeclose (writable : bool) p : pipe * bool * list chan :=
  let '(p, w) := if writable then (p <| p_writeopen := false |>, [CRead])
                 else (p <| p_readopen := false |>, [CWrite]) in
  (p, negb (p_readopen p) && negb (p_writeopen p), w).

(** The pipe pipealloc sets up in a page whose old contents are [data]. *)
Definition newpipe (data : list Z) : pipe := mkpipe data 0 0 true true.

(** ** What a pipe holds *)

(** [q] are the bytes in the pipe. *)
Record pipe_ok p (q : list Z) : Prop := mkpipe_ok {
  po_len : zlen (p_data p) = PIPESIZE; po_read : is_u32 (p_nread p);
  po_count : zlen q <= PIPESIZE; po_write : p_nwrite p = u32 (p_nread p + zlen q);
  po_data : q = window PIPESIZE (zget (p_data p)) (p_nread p mod PIPESIZE) (zlen q) }.

Lemma count_mod a n : (u32 a) mod PIPESIZE = a mod PIPESIZE /\ 0 <= n mod PIPESIZE < PIPESIZE.
Proof.
  unfold u32, PIPESIZE. split; [|apply Z.mod_pos_bound; lia].
  apply Z.mod_mod_divide. by exists (2 ^ 23).
Qed.

Lemma newpipe_ok data : zlen data = PIPESIZE -> pipe_ok (newpipe data) [].
Proof.
  intros H. split; cbn; [done|unfold is_u32; lia|unfold zlen, PIPESIZE; cbn; lia|done|done].
Qed.

Lemma full_iff p q : pipe_ok p q -> full p = bool_decide (zlen q = PIPESIZE).
Proof.
  intros [_ Hr Hc Hw _]. unfold full. rewrite Hw. pose proof (Zle_0_nat (length q)) as H0.
  fold (zlen q) in H0. case_bool_decide as E; [rewrite E; apply Z.eqb_refl|].
  apply Z.eqb_neq. unfold u32, is_u32, PIPESIZE in *. intros E'.
  assert (zlen q = 512); [|done]. Z.div_mod_to_equations. lia.
Qed.

Lemma empty_iff p q : pipe_ok p q -> empty p = bool_decide (q = []).
Proof.
  intros [_ Hr Hc Hw _]. unfold empty. rewrite Hw. case_bool_decide as E.
  - subst. apply Z.eqb_eq. change (zlen (@nil Z)) with 0. rewrite Z.add_0_r. by rewrite u32_small.
  - apply Z.eqb_neq. assert (0 < zlen q) by (unfold zlen; destruct q; [done|cbn; lia]).
    unfold u32, is_u32, PIPESIZE in *. intros E'. Z.div_mod_to_equations. lia.
Qed.

Lemma put_ok c p q : pipe_ok p q -> zlen q < PIPESIZE -> pipe_ok (put c p) (q ++ [c]).
Proof.
  intros [Hl Hr Hc Hw Hd] Hlt. pose proof (Zle_0_nat (length q)) as H0. fold (zlen q) in H0.
  assert (Hz : zlen (q ++ [c]) = zlen q + 1) by (unfold zlen; rewrite length_app; cbn; lia).
  assert (HN : 0 < PIPESIZE) by (unfold PIPESIZE; lia).
  assert (Hx : p_nwrite p mod PIPESIZE = (p_nread p mod PIPESIZE + zlen q) mod PIPESIZE).
  { rewrite Hw, (proj1 (count_mod _ 0)), Zplus_mod_idemp_l. done. }
  split; cbn; rewrite ?Hz.
  - by rewrite zlen_zupd.
  - done.
  - lia.
  - rewrite Hw. by rewrite u32_add_u32_l, Z.add_assoc.
  - rewrite window_snoc by done. f_equal.
    + rewrite Hd at 1. apply window_ext. intros t Ht. rewrite zget_zupd_ne; [done|]. rewrite Hx.
      intros E. unfold PIPESIZE in *. Z.div_mod_to_equations. lia.
    + rewrite <- Hx, zget_zupd_eq; [done|]. rewrite Hl. apply Z.mod_pos_bound. done.
Qed.

Lemma take_ok c p q :
  pipe_ok p (c :: q) -> exists p', take_byte p = (c, p') /\ pipe_ok p' q /\
    p_readopen p' = p_readopen p /\ p_writeopen p' = p_writeopen p.
Proof.
  intros [Hl Hr Hc Hw Hd]. pose proof (Zle_0_nat (length q)) as H0. fold (zlen q) in H0.
  assert (Hz : zlen (c :: q) = zlen q + 1) by (unfold zlen; cbn; lia). rewrite Hz in *.
  rewrite window_cons in Hd by (unfold PIPESIZE; lia). injection Hd as Hc' Hd.
  eexists. unfold take_byte. rewrite Zmod_mod in Hc'. rewrite <- Hc'. split; [done|].
  split; [|done]. split; cbn.
  - done.
  - apply u32_range.
  - lia.
  - rewrite Hw, u32_add_u32_l. f_equal. lia.
  - rewrite Hd at 1. replace (zlen q + 1 - 1) with (zlen q) by lia.
    rewrite (proj1 (count_mod _ 0)). by rewrite Zplus_mod_idemp_l.
Qed.

(** ** The loops *)

(** pipewrite puts what fits; it returns when all is written, otherwise fails or sleeps. *)
Lemma pipewrite_ok addr n killed : forall p q,
  pipe_ok p q ->
  let room := Z.to_nat (PIPESIZE - zlen q) in
  exists p', pipe_ok p' (q ++ take room addr) /\
    p_readopen p' = p_readopen p /\ p_writeopen p' = p_writeopen p /\
    pipewrite addr n killed p =
      (p', (if decide (drop room addr = []) then Return n []
            else if negb (p_readopen p) || killed then Return (-1) (drop room addr)
            else Sleep (drop room addr)),
       (if decide (drop room addr = []) then [CRead]
        else if negb (p_readopen p) || killed then [] else [CRead])).
Proof.
  induction addr as [|c addr IH]; intros p q Hp room.
  { exists p. rewrite take_nil, drop_nil, app_nil_r. done. }
  cbn [pipewrite]. rewrite (full_iff _ _ Hp). case_bool_decide as E.
  - exists p. assert (room = 0%nat) as -> by (unfold room; rewrite E; lia).
    rewrite take_0, drop_0, app_nil_r. split; [done|]. split; [done|]. split; [done|].
    rewrite decide_False by done. by destruct (negb (p_readopen p) || killed).
  - assert (Hlt : zlen q < PIPESIZE) by (pose proof (po_count _ _ Hp); lia).
    destruct (IH (put c p) (q ++ [c]) (put_ok c p q Hp Hlt)) as (p' & Hp' & Hr & Hw & Hrun).
    assert (Hroom : room = S (Z.to_nat (PIPESIZE - zlen (q ++ [c])))).
    { unfold room, zlen in *. rewrite length_app. cbn. lia. }
    exists p'. rewrite Hroom. cbn [take drop]. rewrite <- app_assoc in Hp'. auto.
Qed.

Lemma read_loop_ok n : forall p q,
  pipe_ok p q ->
  exists p', read_loop n p = (take n q, p') /\ pipe_ok p' (drop n q) /\
    p_readopen p' = p_readopen p /\ p_writeopen p' = p_writeopen p.
Proof.
  induction n as [|n IH]; intros p q Hp; cbn [read_loop].
  { exists p. by rewrite take_0, drop_0. }
  rewrite (empty_iff _ _ Hp). destruct q as [|c q].
  { exists p. by rewrite take_nil, drop_nil. }
  rewrite bool_decide_eq_false_2 by done.
  destruct (take_ok c p q Hp) as (p1 & -> & Hp1 & Hr1 & Hw1).
  destruct (IH p1 q Hp1) as (p2 & -> & Hp2 & Hr2 & Hw2).
  exists p2. cbn. split; [done|]. split; [done|]. split; congruence.
Qed.

Lemma piperead_ok n killed p q :
  pipe_ok p q ->
  exists p', pipe_ok p' (drop n q) /\
    p_readopen p' = p_readopen p /\ p_writeopen p' = p_writeopen p /\
    piperead n killed p =
      if decide (q = []) then
        if p_writeopen p then (p, if killed then Return (-1) [] else Sleep [], [])
        else (p, Return 0 [], [CWrite])
      else (p', Return (zlen (take n q)) (take n q), [CWrite]).
Proof.
  intros Hp. destruct (read_loop_ok n p q Hp) as (p' & E & Hp' & Hr & Hw). exists p'.
  split; [done|]. split; [done|]. split; [done|]. unfold piperead. rewrite (empty_iff _ _ Hp), E.
  destruct (decide (q = [])) as [->|Hq].
  - rewrite bool_decide_eq_true_2 by done. cbn [andb]. destruct (p_writeopen p); [by destruct killed|].
    assert (p' = p) as ->; [|by rewrite take_nil].
    destruct n; cbn in E; [congruence|]. rewrite (empty_iff _ _ Hp) in E. cbn in E. congruence.
  - by rewrite bool_decide_eq_false_2.
Qed.

(** ** The life of a pipe

    [w] are the bytes written to the pipe so far and [r] those read from it. *)
Inductive pipe_run : pipe -> list Z -> list Z -> Prop :=
  | run_new data : zlen data = PIPESIZE -> pipe_run (newpipe data) [] []
  | run_write p w r done left n killed p' ret ws :
      pipe_run p w r -> pipewrite (done ++ left) n killed p = (p', ret, ws) ->
      (ret = Sleep left \/ exists z, ret = Return z left) ->
      pipe_run p' (w ++ done) r
  | run_read p w r n killed p' ret ws :
      pipe_run p w r -> piperead n killed p = (p', ret, ws) ->
      pipe_run p' w (r ++ match ret with Return _ cs => cs | Sleep _ => [] end)
  | run_close p w r writable p' freed ws :
      pipe_run p w r -> pipeclose writable p = (p', freed, ws) -> pipe_run p' w r.

Lemma pipe_run_ok p w r : pipe_run p w r -> exists q, pipe_ok p q /\ w = r ++ q.
Proof.
  induction 1 as [data H|p w r dn lf n killed p' ret ws _ IH E Hret
                 |p w r n killed p' ret ws _ IH E|p w r writable p' freed ws _ IH E].
  - exists []. split; [by apply newpipe_ok|done].
  - destruct IH as (q & Hp & ->).
    destruct (pipewrite_ok (dn ++ lf) n killed p q Hp) as (p1 & Hp1 & _ & _ & E1).
    rewrite E in E1. injection E1 as <- Eret _. set (room := Z.to_nat _) in *.
    assert (Hl : lf = drop room (dn ++ lf)).
    { destruct (decide (drop room (dn ++ lf) = [])) as [Ed|Ed];
        [|destruct (negb (p_readopen p) || killed)];
        destruct Hret as [->|[z ->]]; congruence. }
    exists (q ++ take room (dn ++ lf)). split; [done|]. rewrite <- app_assoc. do 2 f_equal.
    pose proof (take_drop room (dn ++ lf)) as Ha. rewrite <- Hl in Ha. by apply app_inv_tail in Ha.
  - destruct IH as (q & Hp & ->).
    destruct (piperead_ok n killed p q Hp) as (p1 & Hp1 & _ & _ & E1). rewrite E in E1.
    destruct (decide (q = [])) as [->|Hq].
    + destruct (p_writeopen p); [destruct killed|]; simplify_eq; exists []; by rewrite !app_nil_r.
    + simplify_eq. exists (drop n q). split; [done|]. by rewrite <- app_assoc, take_drop.
  - destruct IH as (q & [] & ->). exists q. split; [|done].
    unfold pipeclose in E. destruct writable; simplify_eq; by split.
Qed.
End pipe.

(** ** The open-file table *)

Inductive fdtype := FD_NONE | FD_PIPE | FD_INODE.

Record file := mkfile {
  f_type : fdtype; f_ref : Z; f_readable : bool; f_writable : bool; f_pipe : Z; f_ip : Z;
  f_off : Z }.
#[export] Instance file_eta : Eta file := fun f =>
  mkfile (f_type f) (f_ref f) (f_readable f) (f_writable f) (f_pipe f) (f_ip f) (f_off f).
#[export] Instance file_inhabited : Inhabited file :=
  populate (mkfile FD_NONE 0 false false 0 0 0).

(** The pipes are kept by the address of their page. *)
Record files := mkfiles { ftable : list file; fkmem : kmem; pipes : gmap Z pipe }.
#[export] Instance files_eta : Eta files := fun s => mkfiles (ftable s) (fkmem s) (pipes s).

Section files.
Context (kend : Z).
Implicit Types (s : files) (f : Z).

Definition onkmem {A} (m : M kmem A) : M files A := fun s =>
  match m (fkmem s) with
  | Ok a k => Ok a (s <| fkmem := k |>)
  | Panic msg => Panic msg
  end.

Definition the_file f s : file := zget (ftable s) f.
Definition upd_file f (g : file -> file) : M files unit :=
  modify (fun s => s <| ftable := zupd (ftable s) f (g (the_file f s)) |>).

(** filealloc: the index of the first unused entry; [None] is the null pointer. *)
Definition filealloc : M files (option Z) :=
  r ← gets (fun s => find (fun f => f_ref (the_file f s) =? 0) (zrange 0 (Z.of_nat NFILE - 1)));
  match r with
  | Some f => upd_file f (fun x => x <| f_ref := 1 |>);; mret (Some f)
  | None => mret None
  end.

Definition filedup f : M files unit :=
  x ← gets (the_file f);
  if f_ref x <? 1 then panic "filedup" else
  upd_file f (fun x => x <| f_ref := f_ref x + 1 |>).

Definition close_pipe (a : Z) (writable : bool) : M files unit :=
  ps ← gets pipes;
  match ps !! a with
  | Some p =>
      let '(p', freed, _) := pipeclose writable p in
      if (freed : bool) then
        modify (fun s => s <| pipes := delete a (pipes s) |>);; onkmem (kfree kend a)
      else modify (fun s => s <| pipes := <[a := p']> (pipes s) |>)
  | None => mret tt
  end.

(** fileclose; the inode to put, in a transaction of its own, is returned. *)
Definition fileclose f : M files (option Z) :=
  x ← gets (the_file f);
  if f_ref x <? 1 then panic "fileclose" else
  upd_file f (fun x => x <| f_ref := f_ref x - 1 |>);;
  if 0 <? f_ref x - 1 then mret None else
  upd_file f (fun x => x <| f_ref := 0 |> <| f_type := FD_NONE |>);;
  match f_type x with
  | FD_PIPE => close_pipe (f_pipe x) (f_writable x);; mret None
  | FD_INODE => mret (Some (f_ip x))
  | FD_NONE => mret None
  end.

(** pipealloc: [bad] closes the files it got. *)
Definition pipe_end (a : Z) (w : bool) (x : file) : file :=
  x <| f_type := FD_PIPE |> <| f_readable := negb w |> <| f_writable := w |> <| f_pipe := a |>.

(** From kalloc on, with both files allocated. *)
Definition pipealloc_page (junk : list Z) (f0 f1 : Z) : M files (option (Z * Z)) :=
  a ← onkmem kalloc;
  if a =? 0 then fileclose f0;; fileclose f1;; mret None
  else
    modify (fun s => s <| pipes := <[a := newpipe junk]> (pipes s) |>);;
    upd_file f0 (pipe_end a false);;
    upd_file f1 (pipe_end a true);;
    mret (Some (f0, f1)).

Definition pipealloc (junk : list Z) : M files (option (Z * Z)) :=
  f0 ← filealloc;
  match f0 with
  | None => mret None
  | Some f0 =>
      f1 ← filealloc;
      match f1 with
      | None => fileclose f0;; mret None
      | Some f1 => pipealloc_page junk f0 f1
      end
  end.

(** An unused entry has no type. *)
Definition ftable_ok s : Prop :=
  zlen (ftable s) = Z.of_nat NFILE /\ forall f, f_ref (the_file f s) = 0 -> f_type (the_file f s) = FD_NONE.

Definition with_ft (s : files) (t : list file) : files := s <| ftable := t |>.

Lemma file_at_eq s f x : 0 <= f < zlen (ftable s) -> the_file f (with_ft s (zupd (ftable s) f x)) = x.
Proof. intros H. unfold the_file, with_ft. cbn. by apply zget_zupd_eq. Qed.

Lemma file_at_ne s f g x : f <> g -> the_file g (with_ft s (zupd (ftable s) f x)) = the_file g s.
Proof. intros H. unfold the_file, with_ft. cbn. by apply zget_zupd_ne. Qed.

Lemma zupd_same {A} `{Inhabited A} (t : list A) f : 0 <= f < zlen t -> zupd t f (zget t f) = t.
Proof.
  intros Hf. apply zlist_ext; [apply length_zupd|]. intros i _. destruct (decide (i = f)) as [->|Hn].
  - rewrite zlookup_zupd_eq by done. symmetry. by apply zlookup_zget.
  - by apply zlookup_zupd_ne.
Qed.

Lemma filealloc_ok s :
  ftable_ok s ->
  (exists f, 0 <= f < zlen (ftable s) /\ f_ref (the_file f s) = 0 /\
     filealloc s = Ok (Some f) (with_ft s (zupd (ftable s) f ((the_file f s) <| f_ref := 1 |>)))) \/
  filealloc s = Ok None s /\ forall f, 0 <= f < zlen (ftable s) -> f_ref (the_file f s) <> 0.
Proof.
  intros [HL _]. unfold filealloc. erewrite bind_run by reflexivity.
  destruct (find _ _) as [f|] eqn:E.
  - left. apply find_some in E as [Hin Hr]. apply list_elem_of_In, elem_of_zrange in Hin. cbn in Hr.
    exists f. split; [lia|]. split; [by apply Z.eqb_eq|]. done.
  - right. split; [done|]. intros f Hf Hr. apply (find_none _ _ ) with (x := f) in E.
    + cbn in E. apply Z.eqb_neq in E. done.
    + apply list_elem_of_In, elem_of_zrange. lia.
Qed.

(** Closing an entry that filealloc has just taken gives the table back. *)
Lemma fileclose_unused s f :
  ftable_ok s -> 0 <= f < zlen (ftable s) -> f_ref (the_file f s) = 0 ->
  fileclose f (with_ft s (zupd (ftable s) f ((the_file f s) <| f_ref := 1 |>))) = Ok None s.
Proof.
  intros [HL HT] Hf Hr. pose proof (HT f Hr) as Ht. unfold fileclose. erewrite bind_run by reflexivity.
  rewrite file_at_eq by done. cbn [f_ref upd]. change (1 <? 1) with false. cbv iota.
  erewrite bind_run by reflexivity. change (0 <? 1 - 1) with false. cbv iota.
  erewrite bind_run by reflexivity. cbn [f_type upd]. rewrite Ht. unfold mret, M_ret. f_equal.
  unfold the_file, with_ft in *. cbn. rewrite !zupd_zupd, !zget_zupd_eq by (rewrite ?zlen_zupd; done).
  destruct s as [t km ps]. cbn in *.
  transitivity (mkfiles (zupd t f (zget t f)) km ps); [|by rewrite zupd_same].
  destruct (zget t f). cbn in *. by subst.
Qed.

(** A pipe's end that is open once. *)
Definition open_end s f (a : Z) (w : bool) : Prop :=
  0 <= f < zlen (ftable s) /\ f_ref (the_file f s) = 1 /\ f_type (the_file f s) = FD_PIPE /\
  f_writable (the_file f s) = w /\ f_pipe (the_file f s) = a.

Definition closed_file (x : file) : file :=
  x <| f_ref := f_ref x - 1 |> <| f_ref := 0 |> <| f_type := FD_NONE |>.

Lemma fileclose_end s f a w :
  open_end s f a w ->
  fileclose f s =
  (close_pipe a w;; mret None) (with_ft s (zupd (ftable s) f (closed_file (the_file f s)))).
Proof.
  intros (Hf & Hr & Ht & Hw & Ha). unfold fileclose. erewrite bind_run by reflexivity.
  rewrite Hr. change (1 <? 1) with false. cbv iota. erewrite bind_run by reflexivity.
  change (0 <? 1 - 1) with false. cbv iota. erewrite bind_run by reflexivity. rewrite Ht, Hw, Ha.
  f_equal. unfold the_file, with_ft. cbn.
  rewrite !zget_zupd_eq by done. unfold upd. cbn. by rewrite zupd_zupd.
Qed.

Lemma open_end_other s f g x a w : f <> g -> open_end s g a w -> open_end (with_ft s (zupd (ftable s) f x)) g a w.
Proof.
  intros Hn (Hf & H). unfold open_end. rewrite file_at_ne by done. split; [|done].
  cbn. by rewrite zlen_zupd.
Qed.

(** Closing the two ends, in either order, gives the pipe's page back. *)
Lemma close_both s f g a w l junk :
  f <> g -> open_end s f a w -> open_end s g a (negb w) -> pipes s !! a = Some (newpipe junk) ->
  kmem_ok kend (fkmem s) l -> page kend a -> a ∉ l ->
  exists s', (fileclose f;; fileclose g) s = Ok None s' /\
    pipes s' = delete a (pipes s) /\ kmem_ok kend (fkmem s') (a :: l) /\
    f_ref (the_file f s') = 0 /\ f_ref (the_file g s') = 0.
Proof.
  intros Hn Hf Hg Hp Hk Ha Hnot.
  set (s1 := with_ft s (zupd (ftable s) f (closed_file (the_file f s)))).
  set (p1 := mkpipe junk 0 0 w (negb w)).
  set (s2 := s1 <| pipes := <[a := p1]> (pipes s1) |>).
  assert (E1 : fileclose f s = Ok None s2).
  { rewrite (fileclose_end s f a w Hf). fold s1. erewrite bind_run; [reflexivity|].
    unfold close_pipe. erewrite bind_run by reflexivity. cbn [pipes s1 with_ft upd].
    change (pipes s1) with (pipes s). rewrite Hp. by destruct w. }
  assert (Hg2 : open_end s2 g a (negb w)) by (apply (open_end_other s f); done).
  set (s3 := with_ft s2 (zupd (ftable s2) g (closed_file (the_file g s2)))).
  destruct (kfree_ok kend (fkmem s) l a Hk Ha Hnot) as (k' & Ek & Hk' & _).
  exists (s3 <| pipes := delete a (pipes s3) |> <| fkmem := k' |>).
  split; [|split; [|split; [done|]]].
  - erewrite bind_run by exact E1. rewrite (fileclose_end s2 g a _ Hg2). fold s3.
    erewrite bind_run; [reflexivity|]. unfold close_pipe. erewrite bind_run by reflexivity.
    change (pipes s3) with (<[a := p1]> (pipes s)). rewrite lookup_insert_eq.
    replace (pipeclose (negb w) p1) with (mkpipe junk 0 0 false false, true, [if w then CWrite else CRead])
      by by destruct w.
    erewrite bind_run by reflexivity. unfold onkmem.
    change (fkmem (_ <| pipes := _ |>)) with (fkmem s). by rewrite Ek.
  - cbn. by rewrite delete_insert_eq.
  - change (the_file ?x (_ <| pipes := _ |> <| fkmem := _ |>)) with (the_file x s3).
    split; [unfold s3; rewrite file_at_ne by done|unfold s3; rewrite file_at_eq by apply Hg2; done].
    change (the_file f s2) with (the_file f s1). unfold s1. by rewrite file_at_eq by apply Hf.
Qed.

Definition taken (x : file) : file := x <| f_ref := 1 |>.

Lemma zupd_comm {A} (t : list A) f g x y :
  f <> g -> zupd (zupd t f x) g y = zupd (zupd t g y) f x.
Proof.
  intros Hn. unfold zupd. destruct (decide (0 <= f)), (decide (0 <= g)); try done.
  apply list_insert_insert_ne. lia.
Qed.

(** Setting two entries that were set before. *)
Lemma zupd_twice {A} `{Inhabited A} (t : list A) f0 f1 x0 x1 (g0 g1 : A -> A) :
  f0 <> f1 -> 0 <= f0 < zlen t -> 0 <= f1 < zlen t ->
  let T := zupd (zupd t f0 x0) f1 x1 in
  let T' := zupd T f0 (g0 (zget T f0)) in
  zupd T' f1 (g1 (zget T' f1)) = zupd (zupd t f0 (g0 x0)) f1 (g1 x1).
Proof.
  intros Hn H0 H1 T T'.
  assert (E0 : zget T f0 = x0) by (unfold T; by rewrite zget_zupd_ne, zget_zupd_eq).
  assert (E1 : zget T' f1 = x1).
  { unfold T', T. by rewrite zget_zupd_ne, zget_zupd_eq by (rewrite ?zlen_zupd; done). }
  rewrite E1. unfold T'. rewrite E0. unfold T.
  by rewrite (zupd_comm _ f1 f0), zupd_zupd, zupd_zupd by done.
Qed.

(** [bad] with both files allocated. *)
Lemma close_taken s f0 f1 :
  ftable_ok s -> f0 <> f1 -> 0 <= f0 < zlen (ftable s) -> f_ref (the_file f0 s) = 0 ->
  0 <= f1 < zlen (ftable s) -> f_ref (the_file f1 s) = 0 ->
  (fileclose f0;; fileclose f1)
    (with_ft s (zupd (zupd (ftable s) f0 (taken (the_file f0 s))) f1 (taken (the_file f1 s)))) = Ok None s.
Proof.
  intros Hft Hn H0 Hr0 H1 Hr1. rewrite zupd_comm by done.
  set (s1 := with_ft s (zupd (ftable s) f1 (taken (the_file f1 s)))).
  erewrite bind_run; [exact (fileclose_unused s f1 Hft H1 Hr1)|].
  assert (E : the_file f0 s1 = the_file f0 s) by (apply file_at_ne; done).
  rewrite <- E. apply (fileclose_unused s1 f0); rewrite ?E; try done.
  - destruct Hft as [HL HT]. split; [cbn; by rewrite zlen_zupd|]. intros f. unfold s1.
    destruct (decide (f1 = f)) as [<-|Hn']; [by rewrite file_at_eq|].
    rewrite file_at_ne by done. apply HT.
  - cbn. by rewrite zlen_zupd.
Qed.

(** The two ends pipealloc makes. *)
Lemma pipe_ends_open (t : list file) km ps f0 f1 a :
  f0 <> f1 -> 0 <= f0 < zlen t -> 0 <= f1 < zlen t ->
  let s := mkfiles (zupd (zupd t f0 (pipe_end a false (taken (zget t f0)))) f1
                         (pipe_end a true (taken (zget t f1)))) km ps in
  open_end s f0 a false /\ f_readable (the_file f0 s) = true /\
  open_end s f1 a true /\ f_readable (the_file f1 s) = false /\
  forall g, g <> f0 -> g <> f1 -> the_file g s = zget t g.
Proof.
  intros Hn H0 H1 s.
  assert (E0 : the_file f0 s = pipe_end a false (taken (zget t f0))).
  { unfold the_file, s. cbn. by rewrite zget_zupd_ne, zget_zupd_eq. }
  assert (E1 : the_file f1 s = pipe_end a true (taken (zget t f1))).
  { unfold the_file, s. cbn. by rewrite zget_zupd_eq by by rewrite zlen_zupd. }
  unfold open_end. rewrite E0, E1. cbn. rewrite !zlen_zupd.
  repeat (split; [done|]). intros g Hg0 Hg1. unfold the_file, s. cbn. by rewrite !zget_zupd_ne.
Qed.

Definition unused_file s f : Prop := 0 <= f < zlen (ftable s) /\ f_ref (the_file f s) = 0.
Definition both_taken s f0 f1 : files :=
  with_ft s (zupd (zupd (ftable s) f0 (taken (the_file f0 s))) f1 (taken (the_file f1 s))).

(** The two calls of filealloc. *)
Lemma pipealloc_files junk s :
  ftable_ok s ->
  (pipealloc junk s = Ok None s /\ forall f g, unused_file s f -> unused_file s g -> f = g) \/
  (exists f0 f1, f0 <> f1 /\ unused_file s f0 /\ unused_file s f1 /\
     pipealloc junk s = pipealloc_page junk f0 f1 (both_taken s f0 f1)).
Proof.
  intros Hft. unfold pipealloc.
  destruct (filealloc_ok s Hft) as [(f0 & Hf0 & Hr0 & E0)|[E0 Hno]].
  2: { left. erewrite bind_run by exact E0. split; [done|]. intros f g [Hf Hr]. by apply Hno in Hr. }
  set (s1 := with_ft s (zupd (ftable s) f0 ((the_file f0 s) <| f_ref := 1 |>))) in *.
  assert (Hft1 : ftable_ok s1).
  { destruct Hft as [HL HT]. split; [cbn; by rewrite zlen_zupd|]. intros f. unfold s1.
    destruct (decide (f0 = f)) as [<-|Hn]; [by rewrite file_at_eq by done|].
    rewrite file_at_ne by done. apply HT. }
  assert (Hl1 : zlen (ftable s1) = zlen (ftable s)) by apply zlen_zupd.
  destruct (filealloc_ok s1 Hft1) as [(f1 & Hf1 & Hr1 & E1)|[E1 Hno]].
  - right. assert (Hn : f0 <> f1) by (intros ->; unfold s1 in Hr1; by rewrite file_at_eq in Hr1).
    assert (Ef1 : the_file f1 s1 = the_file f1 s) by by apply file_at_ne.
    rewrite Ef1 in Hr1, E1. rewrite Hl1 in Hf1. exists f0, f1.
    split; [done|]. split; [done|]. split; [done|].
    erewrite bind_run by exact E0. cbv iota. by erewrite bind_run by exact E1.
  - left. erewrite bind_run by exact E0. cbv iota. erewrite bind_run by exact E1. cbv iota.
    erewrite bind_run by exact (fileclose_unused s f0 Hft Hf0 Hr0). split; [done|].
    assert (Honly : forall f, unused_file s f -> f = f0); [|intros f g ?%Honly ?%Honly; congruence].
    intros f [Hf Hr]. destruct (decide (f0 = f)) as [|Hn]; [done|]. exfalso.
    apply (Hno f); [by rewrite Hl1|]. unfold s1. by rewrite file_at_ne.
Qed.

Lemma pipealloc_page_ok junk s f0 f1 a k' :
  f0 <> f1 -> unused_file s f0 -> unused_file s f1 -> page kend a ->
  kalloc (fkmem s) = Ok a k' ->
  pipealloc_page junk f0 f1 (both_taken s f0 f1) =
  Ok (Some (f0, f1))
     (mkfiles (zupd (zupd (ftable s) f0 (pipe_end a false (taken (the_file f0 s)))) f1
                    (pipe_end a true (taken (the_file f1 s)))) k' (<[a := newpipe junk]> (pipes s))).
Proof.
  intros Hn [Hf0 _] [Hf1 _] Ha Ek. unfold pipealloc_page.
  erewrite bind_run by (unfold onkmem; change (fkmem (both_taken _ _ _)) with (fkmem s);
                        rewrite Ek; reflexivity).
  rewrite (proj2 (Z.eqb_neq a 0)) by (pose proof (page_range kend a Ha); lia).
  do 3 (erewrite bind_run by reflexivity). unfold mret, M_ret. f_equal.
  rewrite <- (zupd_twice (ftable s) f0 f1 (taken (the_file f0 s)) (taken (the_file f1 s))) by done.
  reflexivity.
Qed.
End files.

(** ** Properties *)

(** C15: a pipe is a first-in first-out queue of at most PIPESIZE bytes.  After any
    interleaving of writes, reads and closes, with reads and writes cut by sleeping, and
    with the 32-bit counters wrapping around: the bytes written are those read followed
    by the [q] in the pipe.  A write puts as many bytes as fit behind them, and then
    returns [n] if that was all, else -1 if the read end is closed or the writer killed,
    else sleeps with the rest.  A read of an empty pipe sleeps (or returns -1 if
    killed) while the write end is open and returns 0 when it is closed; otherwise it
    returns the first bytes of [q], as many as asked for and there. *)
Theorem pipe_fifo (p : pipe) (w r : list Z) (H : pipe_run p w r) :
  exists q, w = r ++ q /\ zlen q <= PIPESIZE /\
  (forall addr n killed,
     let room := Z.to_nat (PIPESIZE - zlen q) in
     exists p' ws, pipewrite addr n killed p =
       (p', (if decide (drop room addr = []) then Return n []
             else if negb (p_readopen p) || killed then Return (-1) (drop room addr)
             else Sleep (drop room addr)), ws) /\
       pipe_run p' (w ++ take room addr) r) /\
  (forall n killed, exists p' ws, piperead n killed p =
     (p', (if decide (q = []) then
             if p_writeopen p then if killed then Return (-1) [] else Sleep []
             else Return 0 []
           else Return (zlen (take n q)) (take n q)), ws)).
Proof.
  destruct (pipe_run_ok p w r H) as (q & Hp & Hw). exists q. split; [done|].
  split; [apply Hp|]. split.
  - intros addr n killed room. destruct (pipewrite_ok addr n killed p q Hp) as (p' & _ & _ & _ & E).
    fold room in E. eexists p', _. split; [exact E|].
    eapply (run_write p w r (take room addr) (drop room addr)); [done|rewrite take_drop; exact E|].
    destruct (decide (drop room addr = [])) as [Ed|Ed]; [right; exists n; congruence|].
    destruct (negb (p_readopen p) || killed); [right; eauto|by left].
  - intros n killed. destruct (piperead_ok n killed p q Hp) as (p' & _ & _ & _ & E).
    rewrite E. destruct (decide (q = [])); [destruct (p_writeopen p); [destruct killed|]|]; eauto.
Qed.

(** Three bytes through a pipe, two of them read. *)
Lemma pipe_fifo_witness : exists p q, pipe_run p [10; 20; 30] [10; 20] /\ q = [30] /\
  [10; 20; 30] = [10; 20] ++ q.
Proof.
  set (p0 := newpipe (replicate 512 0)).
  destruct (pipewrite ([10; 20; 30] ++ []) 3 false p0) as [[p1 r1] w1] eqn:E1.
  destruct (piperead 2 false p1) as [[p2 r2] w2] eqn:E2.
  assert (R1 : pipe_run p1 ([] ++ [10; 20; 30]) []).
  { apply (run_write p0 [] [] [10; 20; 30] [] 3 false p1 r1 w1); [|exact E1|].
    { apply run_new. vm_compute. reflexivity. }
    right. exists 3.
    vm_compute in E1. by injection E1 as _ <- _. }
  assert (R2 : pipe_run p2 [10; 20; 30] [10; 20]).
  { pose proof (run_read _ _ _ _ _ _ _ _ R1 E2) as R. vm_compute in E1. injection E1 as <- _ _.
    vm_compute in E2. injection E2 as <- <- _. exact R. }
  destruct (pipe_fifo p2 [10; 20; 30] [10; 20] R2) as (q & Hq & _). exists p2, q.
  split; [exact R2|]. cbn in Hq. injection Hq as Hq.
  split; [symmetry; exact Hq|]. cbn. by rewrite <- Hq.
Defined.

(** Pipealloc either gives everything back or makes a pipe.  It fails exactly when
    there is no free page or fewer than two unused entries in the file table, and then
    leaves the state as it found it.  Otherwise it returns two different entries, a read
    end and a write end of a fresh pipe in the page kalloc gave, and closing the two, in
    either order, frees the page and both entries again. *)
Theorem pipealloc_spec (kend : Z) (junk l : list Z) (s : files)
    (Hft : ftable_ok s) (Hk : kmem_ok kend (fkmem s) l) :
  (pipealloc kend junk s = Ok None s /\
     (l = [] \/ forall f g, unused_file s f -> unused_file s g -> f = g)) \/
  (exists f0 f1 a l' s', l = a :: l' /\ unused_file s f0 /\ unused_file s f1 /\ f0 <> f1 /\
     pipealloc kend junk s = Ok (Some (f0, f1)) s' /\
     open_end s' f0 a false /\ f_readable (the_file f0 s') = true /\
     open_end s' f1 a true /\ f_readable (the_file f1 s') = false /\
     (forall g, g <> f0 -> g <> f1 -> the_file g s' = the_file g s) /\
     pipes s' = <[a := newpipe junk]> (pipes s) /\ kmem_ok kend (fkmem s') l' /\
     forall read_first : bool, exists s'',
       (if read_first then fileclose kend f0;; fileclose kend f1
        else fileclose kend f1;; fileclose kend f0) s' = Ok None s'' /\
       pipes s'' = delete a (pipes s') /\ kmem_ok kend (fkmem s'') l /\
       f_ref (the_file f0 s'') = 0 /\ f_ref (the_file f1 s'') = 0).
Proof.
  destruct (pipealloc_files kend junk s Hft) as [[E H1]|(f0 & f1 & Hn & Hu0 & Hu1 & E)].
  { left. auto. }
  destruct l as [|a l].
  - left. split; [|by left]. rewrite E. unfold pipealloc_page.
    erewrite bind_run by (unfold onkmem; change (fkmem (both_taken _ _ _)) with (fkmem s);
                          rewrite (kalloc_nil kend _ Hk); reflexivity).
    change (0 =? 0) with true. cbv iota.
    pose proof (close_taken kend s f0 f1 Hft Hn (proj1 Hu0) (proj2 Hu0) (proj1 Hu1) (proj2 Hu1))
      as (u & s' & Ec & Ec')%bind_Ok.
    erewrite bind_run by exact Ec. by erewrite bind_run by exact Ec'.
  - right. destruct (kalloc_cons kend _ a l Hk) as (k' & Ek & Hk' & _).
    assert (Ha : page kend a) by (apply (ko_pages _ _ _ Hk); by left).
    assert (Hnot : a ∉ l) by (pose proof (ko_nodup _ _ _ Hk) as [? _]%NoDup_cons; done).
    rewrite (pipealloc_page_ok kend junk s f0 f1 a k' Hn Hu0 Hu1 Ha Ek) in E.
    pose proof (pipe_ends_open (ftable s) k' (<[a := newpipe junk]> (pipes s)) f0 f1 a Hn
                  (proj1 Hu0) (proj1 Hu1)) as (Ho0 & Hd0 & Ho1 & Hd1 & Hoth).
    set (s' := mkfiles _ k' _) in *. exists f0, f1, a, l, s'.
    repeat (split; [done|]). intros [].
    + apply (close_both kend s' f0 f1 a false l junk); try done. apply lookup_insert_eq.
    + destruct (close_both kend s' f1 f0 a true l junk) as (s'' & ? & ? & ? & ? & ?); try done;
        [apply lookup_insert_eq|]. by exists s''.
Qed.

(** An empty file table and the memory right after boot. *)
Lemma pipealloc_spec_witness : exists k l f0 f1 s',
  kmem_ok 2148619432 k l /\
  pipealloc 2148619432 (replicate 512 1) (mkfiles (replicate NFILE inhabitant) k ∅) =
  Ok (Some (f0, f1)) s'.
Proof.
  destruct (kinit_ok 2148619432 ltac:(vm_compute; split; discriminate) (fun _ => 0) false)
    as (k & l & _ & Hk & _ & Hl). exists k, l.
  destruct (pipealloc_spec 2148619432 (replicate 512 1) l (mkfiles (replicate NFILE inhabitant) k ∅))
    as [[_ [Hnil|Hno]]|(f0 & f1 & a & l' & s' & _ & _ & _ & _ & E' & _)].
  - split; [reflexivity|]. intros f. unfold the_file, zget, zlookup. cbn [ftable].
    destruct (decide (0 <= f)); [|done].
    destruct (replicate NFILE (inhabitant : file) !! Z.to_nat f) as [x|] eqn:Ex; [|done].
    apply lookup_replicate in Ex as [-> _]. done.
  - exact Hk.
  - exfalso. apply (proj1 (elem_of_nil (KERNBASE + PHYSTOP - PGSIZE))). rewrite <- Hnil. apply Hl.
    vm_compute. repeat split; discriminate.
  - exfalso. specialize (Hno 0 1). enough (0 = 1) by lia.
    apply Hno; (split; [vm_compute; split; [discriminate|reflexivity]|reflexivity]).
  - exists f0, f1, s'. split; [exact Hk|exact E'].
Defined.
