(* ===== verification/File.v ===== *)
(** * Open files

    The operations of file.c on top of the file system and the pipes: fileclose, filestat,
    fileread and filewrite.  The state has the file table and the pipes of Pipe.v, the file
    system on the buffer cache and the log of Log.v, and of the running process its open
    files and its current directory.  A call that has to wait for space in the log has the
    outcome [Panic] with a message of its own. *)

From S2P Require Import Prelude Bytes Kalloc Pipe Bio Log Blocks LogBlocks Fs.
From stdpp Require Import gmap.
#[local] Open Scope Z_scope.

Record kst := mkkst { k_files : files; k_fs : fs logst; k_ofile : list (option Z); k_cwd : Z }.
#[export] Instance kst_eta : Eta kst := fun k => mkkst (k_files k) (k_fs k) (k_ofile k) (k_cwd k).

Definition onfs {A} (m : M (fs logst) A) : M kst A := fun k =>
  match m (k_fs k) with
  | Ok a f => Ok a (k <| k_fs := f |>)
  | Panic msg => Panic msg
  end.

Definition onfiles {A} (m : M files A) : M kst A := fun k =>
  match m (k_files k) with
  | Ok a f => Ok a (k <| k_files := f |>)
  | Panic msg => Panic msg
  end.

Section ops.
Context (kend : Z) (sb : superblock) (pid : Z) (killed : bool).
Context (devread : Z -> option (Z -> Z -> M (fs logst) (option (list Z))))
        (devwrite : Z -> option (Z -> list Z -> M (fs logst) Z)).
#[local] Existing Instance log_blocks_dev.
#[local] Instance dev : BlockDev logst := log_blocks_dev pid.
Implicit Types (f ip n : Z).

Definition fbegin_op : M (fs logst) unit :=
  b ← ondev begin_op;
  if (b : bool) then mret tt else panic "begin_op: sleep".
Definition fend_op : M (fs logst) unit := ondev (end_op pid).

(** fileclose of Pipe.v, then the transaction for the inode. *)
Definition close_file f : M kst unit :=
  r ← onfiles (fileclose kend f);
  match r with
  | Some ip => onfs fbegin_op;; onfs (iput sb pid ip);; onfs fend_op
  | None => mret tt
  end.

Definition get_file f : M kst file := onfiles (gets (the_file f)).

Definition filestat f : M kst (option stat) :=
  x ← get_file f;
  match f_type x with
  | FD_INODE =>
      onfs (ilock sb pid (f_ip x));;
      st ← onfs (stati (f_ip x));
      onfs (iunlock pid (f_ip x));;
      mret (Some st)
  | _ => mret None
  end.

Definition add_off f (r : Z) : M kst unit := onfiles (upd_file f (fun x => x <| f_off := u32 (f_off x + r) |>)).

(** A pipe call on the pipe of the file. *)
Definition on_pipe (a : Z) (op : pipe -> pipe * result (list Z) * list chan) : M kst (result (list Z)) :=
  ps ← onfiles (gets pipes);
  match ps !! a with
  | Some p =>
      let '(p', r, _) := op p in
      onfiles (modify (fun s => s <| pipes := <[a := p']> (pipes s) |>));; mret r
  | None => panic "no pipe"
  end.

(** The result is the return value with the bytes read, or that the call sleeps. *)
Definition fileread f n : M kst (result (list Z)) :=
  x ← get_file f;
  if negb (f_readable x) then mret (Return (-1) []) else
  match f_type x with
  | FD_PIPE => on_pipe (f_pipe x) (piperead (Z.to_nat n) killed)
  | FD_INODE =>
      onfs (ilock sb pid (f_ip x));;
      r ← onfs (readi sb devread (f_ip x) (f_off x) n);
      match r with
      | Some l =>
          (if 0 <? zlen l then add_off f (zlen l) else mret tt);;
          onfs (iunlock pid (f_ip x));;
          mret (Return (zlen l) l)
      | None =>
          onfs (iunlock pid (f_ip x));;
          mret (Return (-1) [])
      end
  | FD_NONE => panic "fileread"
  end.

(** The bytes that one transaction of filewrite writes at most. *)
Definition max_chunk : Z := (MAXOPBLOCKS - 1 - 1 - 2) / 2 * 512.

(** One transaction of filewrite. *)
Definition write_chunk f (src : list Z) : M kst Z :=
  x ← get_file f;
  onfs fbegin_op;;
  onfs (ilock sb pid (f_ip x));;
  r ← onfs (writei sb devwrite (f_ip x) src (f_off x));
  (if 0 <? r then add_off f r else mret tt);;
  onfs (iunlock pid (f_ip x));;
  onfs fend_op;;
  mret r.

(** [addr] are the bytes left, from [i] on. *)
Fixpoint filewrite_loop (fuel : nat) f (addr : list Z) (i n : Z) : M kst Z :=
  match fuel with
  | O => mret (if i =? n then n else -1)
  | S fuel =>
      if n <=? i then mret (if i =? n then n else -1) else
      let n1 := Z.min (n - i) max_chunk in
      r ← write_chunk f (take (Z.to_nat n1) addr);
      if r <? 0 then mret (if i =? n then n else -1)
      else if negb (r =? n1) then panic "short filewrite"
      else filewrite_loop fuel f (drop (Z.to_nat r) addr) (i + r) n
  end.

Definition filewrite f (addr : list Z) : M kst (result (list Z)) :=
  x ← get_file f;
  if negb (f_writable x) then mret (Return (-1) []) else
  match f_type x with
  | FD_PIPE => on_pipe (f_pipe x) (pipewrite addr (zlen addr) killed)
  | FD_INODE =>
      r ← filewrite_loop (S (length addr)) f addr 0 (zlen addr);
      mret (Return r [])
  | FD_NONE => panic "filewrite"
  end.
End ops.
