(* ===== verification/SysFile.v ===== *)
(** * The file system calls

    sysfile.c: file descriptors, and the calls that change the tree of directories.  The
    part of a call that works on inodes alone is a function on the file system, with the
    current directory as an argument; the calls themselves also have the file table and the
    descriptors of the process.  What argint, argptr, argstr, fetchint and fetchstr of
    Syscall.v deliver for the call are arguments; [None] is their error. *)

From S2P Require Import Prelude Bytes Kalloc Pipe Bio Log Blocks LogBlocks Fs File.
From stdpp Require Import gmap.
#[local] Open Scope Z_scope.

Definition NOFILE : Z := 16.
Definition MAXARG : nat := 32.
Definition O_RDONLY : Z := 0.
Definition O_WRONLY : Z := 1.
Definition O_RDWR : Z := 2.
Definition O_CREATE : Z := 512.

(** The names "." and "..". *)
Definition DOT : list Z := [46].
Definition DOTDOT : list Z := [46; 46].

Definition add_nlink (n : Z) (d : dinode) : dinode := d <| d_nlink := s16 (d_nlink d + n) |>.

Section inodes.
Context {S : Type} {B : BlockDev S} (sb : superblock) (pid : Z).
Context (devread : Z -> option (Z -> Z -> M (fs S) (option (list Z))))
        (devwrite : Z -> option (Z -> list Z -> M (fs S) Z)).
Implicit Types (ip dp cwd : Z) (path name : list Z).
Abbreviation ilock := (ilock sb pid).
Abbreviation iunlock := (iunlock pid).
Abbreviation iunlockput := (iunlockput sb pid).
Abbreviation dirlookup := (dirlookup sb devread).
Abbreviation dirlink := (dirlink sb pid devread devwrite).

(** [junk] is the buffer [name] on the stack before it is written. *)
Context (junk : list Z).
Abbreviation namei := (fun cwd path => namei sb pid devread cwd path junk).
Abbreviation nameiparent := (fun cwd path => nameiparent sb pid devread cwd path junk).

(** The label [bad] of sys_link. *)
Definition link_bad ip : M (fs S) Z :=
  ilock ip;;
  upd_d ip (add_nlink (-1));;
  iupdate sb ip;;
  iunlockput ip;;
  mret (-1).

Definition link_path cwd (old new : list Z) : M (fs S) Z :=
  r ← namei cwd old;
  match r with
  | None => mret (-1)
  | Some ip =>
      ilock ip;;
      i ← gets (the_inode ip);
      if d_type (i_d i) =? T_DIR then iunlockput ip;; mret (-1) else
      upd_d ip (add_nlink 1);;
      iupdate sb ip;;
      iunlock ip;;
      p ← nameiparent cwd new;
      match p with
      | (None, _) => link_bad ip
      | (Some dp, name) =>
          ilock dp;;
          d ← gets (the_inode dp);
          i ← gets (the_inode ip);
          r ← (if i_dev d =? i_dev i then dirlink dp name (i_inum i) else mret (-1));
          if r <? 0 then iunlockput dp;; link_bad ip
          else iunlockput dp;; iput sb pid ip;; mret 0
      end
  end.

(** The entries behind "." and "..". *)
Fixpoint isdirempty_loop (fuel : nat) dp (off : Z) : M (fs S) bool :=
  match fuel with
  | O => mret true
  | Datatypes.S fuel =>
      i ← gets (the_inode dp);
      if d_size (i_d i) <=? off then mret true else
      de ← read_dirent sb devread "isdirempty: readi" dp off;
      if negb (de_inum de =? 0) then mret false else isdirempty_loop fuel dp (off + dirent_size)
  end.

Definition isdirempty dp : M (fs S) bool :=
  i ← gets (the_inode dp);
  isdirempty_loop (Datatypes.S (Z.to_nat (d_size (i_d i) / dirent_size + 1))) dp (2 * dirent_size).

(** From the write of the empty entry on. *)
Definition unlink_entry dp ip (off : Z) : M (fs S) Z :=
  n ← writei sb devwrite dp (replicate 16 0) off;
  if negb (n =? dirent_size) then panic "unlink: writei" else
  i ← gets (the_inode ip);
  (if d_type (i_d i) =? T_DIR then upd_d dp (add_nlink (-1));; iupdate sb dp else mret tt);;
  iunlockput dp;;
  upd_d ip (add_nlink (-1));;
  iupdate sb ip;;
  iunlockput ip;;
  mret 0.

Definition unlink_path cwd path : M (fs S) Z :=
  p ← nameiparent cwd path;
  match p with
  | (None, _) => mret (-1)
  | (Some dp, name) =>
      ilock dp;;
      if (namecmp name DOT =? 0) || (namecmp name DOTDOT =? 0) then iunlockput dp;; mret (-1) else
      r ← dirlookup dp name;
      match r with
      | None => iunlockput dp;; mret (-1)
      | Some (ip, off) =>
          ilock ip;;
          i ← gets (the_inode ip);
          if d_nlink (i_d i) <? 1 then panic "unlink: nlink < 1" else
          b ← (if d_type (i_d i) =? T_DIR then isdirempty ip else mret true);
          if negb (b : bool) then iunlockput ip;; iunlockput dp;; mret (-1)
          else unlink_entry dp ip off
      end
  end.

(** The entries "." and ".." of a new directory. *)
Definition create_dots dp ip : M (fs S) unit :=
  upd_d dp (add_nlink 1);;
  iupdate sb dp;;
  i ← gets (the_inode ip);
  d ← gets (the_inode dp);
  r ← dirlink ip DOT (i_inum i);
  if r <? 0 then panic "create dots" else
  r ← dirlink ip DOTDOT (i_inum d);
  if r <? 0 then panic "create dots" else mret tt.

(** A new inode under the name; ialloc does not return 0. *)
Definition create_new dp name (type major minor : Z) : M (fs S) Z :=
  d ← gets (the_inode dp);
  ip ← ialloc sb (i_dev d) type;
  ilock ip;;
  upd_d ip (fun d => d <| d_major := major |> <| d_minor := minor |> <| d_nlink := 1 |>);;
  iupdate sb ip;;
  (if type =? T_DIR then create_dots dp ip else mret tt);;
  i ← gets (the_inode ip);
  r ← dirlink dp name (i_inum i);
  if r <? 0 then panic "create: dirlink" else
  iunlockput dp;;
  mret ip.

Definition create cwd path (type major minor : Z) : M (fs S) (option Z) :=
  p ← nameiparent cwd path;
  match p with
  | (None, _) => mret None
  | (Some dp, name) =>
      ilock dp;;
      r ← dirlookup dp name;
      match r with
      | Some (ip, _) =>
          iunlockput dp;;
          ilock ip;;
          i ← gets (the_inode ip);
          if (type =? T_FILE) && (d_type (i_d i) =? T_FILE) then mret (Some ip)
          else iunlockput ip;; mret None
      | None => ip ← create_new dp name type major minor; mret (Some ip)
      end
  end.

(** The inode that sys_open opens, locked. *)
Definition open_path cwd path (omode : Z) : M (fs S) (option Z) :=
  if negb (Z.land omode O_CREATE =? 0) then create cwd path T_FILE 0 0 else
  r ← namei cwd path;
  match r with
  | None => mret None
  | Some ip =>
      ilock ip;;
      i ← gets (the_inode ip);
      if (d_type (i_d i) =? T_DIR) && negb (omode =? O_RDONLY) then iunlockput ip;; mret None
      else mret (Some ip)
  end.

(** The new current directory of sys_chdir, once the old one is put. *)
Definition chdir_path cwd path : M (fs S) (option Z) :=
  r ← namei cwd path;
  match r with
  | None => mret None
  | Some ip =>
      ilock ip;;
      i ← gets (the_inode ip);
      if negb (d_type (i_d i) =? T_DIR) then iunlockput ip;; mret None else
      iunlock ip;;
      iput sb pid cwd;;
      mret (Some ip)
  end.
End inodes.

Section calls.
Context (kend : Z) (sb : superblock) (pid : Z) (killed : bool).
Context (devread : Z -> option (Z -> Z -> M (fs logst) (option (list Z))))
        (devwrite : Z -> option (Z -> list Z -> M (fs logst) Z)).
Context (argint : Z -> option Z) (argptr : Z -> Z -> option Z) (argstr : Z -> option (list Z)).
Context (junk : list Z).
#[local] Instance blocks : BlockDev logst := log_blocks_dev pid.

(** Descriptors: the number and the file. *)
Definition argfd (n : Z) : M kst (option (Z * Z)) :=
  ofile ← gets k_ofile;
  mret match argint n with
       | Some fd => if (fd <? 0) || (NOFILE <=? fd) then None
                    else match zget ofile fd with Some f => Some (fd, f) | None => None end
       | None => None
       end.

Definition set_fd (fd : Z) (o : option Z) : M kst unit := modify (fun k => k <| k_ofile := zupd (k_ofile k) fd o |>).

(** -1 if all descriptors are in use. *)
Definition fdalloc (f : Z) : M kst Z :=
  ofile ← gets k_ofile;
  match find (fun fd => match zget ofile fd with Some _ => false | None => true end) (zrange 0 (NOFILE - 1)) with
  | Some fd => set_fd fd (Some f);; mret fd
  | None => mret (-1)
  end.

Definition sys_dup : M kst Z :=
  o ← argfd 0;
  match o with
  | None => mret (-1)
  | Some (_, f) =>
      fd ← fdalloc f;
      if fd <? 0 then mret (-1) else
      onfiles (filedup f);;
      mret fd
  end.

(** The result has the bytes that are stored from the pointer on. *)
Definition sys_read : M kst (result (list Z)) :=
  o ← argfd 0;
  match o, argint 2 with
  | Some (_, f), Some n =>
      match argptr 1 n with
      | Some _ => fileread sb pid killed devread f n
      | None => mret (Return (-1) [])
      end
  | _, _ => mret (Return (-1) [])
  end.

(** [bytes p n] are the bytes of the process from the pointer on. *)
Definition sys_write (bytes : Z -> Z -> list Z) : M kst (result (list Z)) :=
  o ← argfd 0;
  match o, argint 2 with
  | Some (_, f), Some n =>
      match argptr 1 n with
      | Some p => filewrite sb pid killed devwrite f (bytes p n)
      | None => mret (Return (-1) [])
      end
  | _, _ => mret (Return (-1) [])
  end.

Definition sys_close : M kst Z :=
  o ← argfd 0;
  match o with
  | None => mret (-1)
  | Some (fd, f) =>
      set_fd fd None;;
      close_file kend sb pid f;;
      mret 0
  end.

Definition sys_fstat : M kst (option stat) :=
  o ← argfd 0;
  match o, argptr 1 20 with
  | Some (_, f), Some _ => filestat sb pid f
  | _, _ => mret None
  end.

(** A call on inodes in a transaction. *)
Definition transaction {A} (m : Z -> M (fs logst) A) : M kst A :=
  cwd ← gets k_cwd;
  onfs fbegin_op;;
  r ← onfs (m cwd);
  onfs (fend_op pid);;
  mret r.

Definition sys_link : M kst Z :=
  match argstr 0, argstr 1 with
  | Some old, Some new => transaction (fun cwd => link_path sb pid devread devwrite junk cwd old new)
  | _, _ => mret (-1)
  end.

Definition sys_unlink : M kst Z :=
  match argstr 0 with
  | Some path => transaction (fun cwd => unlink_path sb pid devread devwrite junk cwd path)
  | None => mret (-1)
  end.

Definition sys_open : M kst Z :=
  match argstr 0, argint 1 with
  | Some path, Some omode =>
      cwd ← gets k_cwd;
      onfs fbegin_op;;
      r ← onfs (open_path sb pid devread devwrite junk cwd path omode);
      match r with
      | None => onfs (fend_op pid);; mret (-1)
      | Some ip =>
          o ← onfiles filealloc;
          match o with
          | None => onfs (iunlockput sb pid ip);; onfs (fend_op pid);; mret (-1)
          | Some f =>
              fd ← fdalloc f;
              if fd <? 0 then
                close_file kend sb pid f;; onfs (iunlockput sb pid ip);; onfs (fend_op pid);; mret (-1)
              else
                onfs (iunlock pid ip);;
                onfs (fend_op pid);;
                onfiles (upd_file f (fun x => x <| f_type := FD_INODE |> <| f_ip := ip |> <| f_off := 0 |>
                  <| f_readable := Z.land omode O_WRONLY =? 0 |>
                  <| f_writable := negb (Z.land omode O_WRONLY =? 0) || negb (Z.land omode O_RDWR =? 0) |>));;
                mret fd
          end
      end
  | _, _ => mret (-1)
  end.

(** sys_mkdir and sys_mknod, once create has run. *)
Definition put_created (r : option Z) : M (fs logst) Z :=
  match r with
  | Some ip => iunlockput sb pid ip;; mret 0
  | None => mret (-1)
  end.

Definition sys_mkdir : M kst Z :=
  transaction (fun cwd =>
    match argstr 0 with
    | Some path => r ← create sb pid devread devwrite junk cwd path T_DIR 0 0; put_created r
    | None => mret (-1)
    end).

Definition sys_mknod : M kst Z :=
  transaction (fun cwd =>
    match argstr 0, argint 1, argint 2 with
    | Some path, Some major, Some minor =>
        r ← create sb pid devread devwrite junk cwd path T_DEV (s16 major) (s16 minor); put_created r
    | _, _, _ => mret (-1)
    end).

Definition sys_chdir : M kst Z :=
  r ← transaction (fun cwd =>
    match argstr 0 with
    | Some path => chdir_path sb pid devread junk cwd path
    | None => mret None
    end);
  match r with
  | Some ip => modify (fun k => k <| k_cwd := ip |>);; mret 0
  | None => mret (-1)
  end.

(** The arguments from word [i] of the array on; at most [n] more. *)
Fixpoint exec_args (fetchint : Z -> option Z) (fetchstr : Z -> option (list Z)) (n : nat) (uargv i : Z) : option (list (list Z)) :=
  match n with
  | O => None
  | S n =>
      match fetchint (u32 (uargv + 4 * i)) with
      | None => None
      | Some uarg =>
          if uarg =? 0 then Some [] else
          match fetchstr (u32 uarg) with
          | None => None
          | Some s => cons s <$> exec_args fetchint fetchstr n uargv (i + 1)
          end
      end
  end.

Definition sys_exec (fetchint : Z -> option Z) (fetchstr : Z -> option (list Z))
    (exec : list Z -> list (list Z) -> M kst Z) : M kst Z :=
  match argstr 0, argint 1 with
  | Some path, Some uargv =>
      match exec_args fetchint fetchstr MAXARG (u32 uargv) 0 with
      | Some argv => exec path argv
      | None => mret (-1)
      end
  | _, _ => mret (-1)
  end.

(** The result has the two descriptors that are stored at the pointer; [None] is -1. *)
Definition sys_pipe (page : list Z) : M kst (option (Z * Z)) :=
  match argptr 0 8 with
  | None => mret None
  | Some _ =>
      o ← onfiles (pipealloc kend page);
      match o with
      | None => mret None
      | Some (rf, wf) =>
          fd0 ← fdalloc rf;
          if fd0 <? 0 then close_file kend sb pid rf;; close_file kend sb pid wf;; mret None else
          fd1 ← fdalloc wf;
          if fd1 <? 0 then
            set_fd fd0 None;; close_file kend sb pid rf;; close_file kend sb pid wf;; mret None
          else mret (Some (fd0, fd1))
      end
  end.
End calls.
