(* ===== verification/Descriptors.v ===== *)
(** * File descriptors

    sysfile.c's descriptors against the table of open files: the count of a file is the number
    of its references, those of the descriptors included, across dup, close, open and pipe,
    also where they fail half way. *)

From S2P Require Import Prelude Kalloc Pipe Bio Log Blocks LogBlocks Fs File SysFile.
From stdpp Require Import gmap.
#[local] Open Scope Z_scope.

(** ** Counting *)

Definition one (f g : Z) : Z := if decide (g = f) then 1 else 0.
Definition fd_is (o : option Z) (f : Z) : Z := if decide (o = Some f) then 1 else 0.

(** How many descriptors name the file. *)
Fixpoint names (T : list (option Z)) (f : Z) : Z :=
  match T with
  | [] => 0
  | o :: T => fd_is o f + names T f
  end.

Lemma names_upd (T : list (option Z)) fd o f : 0 <= fd < zlen T -> names (zupd T fd o) f = names T f - fd_is (zget T fd) f + fd_is o f.
Proof.
  intros H. rewrite zupd_to_nat by lia. unfold zget. rewrite zlookup_to_nat by lia. unfold zlen in H.
  assert (Hn : (Z.to_nat fd < length T)%nat) by lia. clear H. revert Hn. generalize (Z.to_nat fd) as n. clear fd.
  induction T as [|x T IH]; intros [|n] Hn; [cbn in *; lia..|]. specialize (IH n ltac:(cbn in Hn; lia)).
  change (fd_is x f + names (<[n := o]> T) f = fd_is x f + names T f - fd_is (default inhabitant (T !! n)) f + fd_is o f). lia.
Qed.

Lemma names_pos (T : list (option Z)) fd f : 0 <= fd < zlen T -> zget T fd = Some f -> 1 <= names T f.
Proof.
  intros H E. assert (Hp : forall l, 0 <= names l f) by (induction l as [|x l IH]; cbn; [lia|unfold fd_is; case_decide; lia]).
  pose proof (names_upd T fd None f H) as Hu. rewrite E in Hu. unfold fd_is in Hu. rewrite decide_True, decide_False in Hu by done.
  specialize (Hp (zupd T fd None)). lia.
Qed.

(** The counts of the table are [c]. *)
Definition counted (c : Z -> Z) (s : files) : Prop :=
  zlen (ftable s) = Z.of_nat NFILE /\ forall f, 0 <= f < Z.of_nat NFILE -> f_ref (the_file f s) = c f.

Lemma counted_ext (c c' : Z -> Z) s : (forall f, c f = c' f) -> counted c s -> counted c' s.
Proof. intros E [HL H]. split; [done|]. intros f Hf. rewrite H by done. apply E. Qed.

Lemma counted_ftable c s s' : ftable s' = ftable s -> counted c s -> counted c s'.
Proof. unfold counted, the_file. by intros ->. Qed.

Lemma counted_upd c s f (x : file) : counted c s -> 0 <= f < Z.of_nat NFILE ->
  counted (fun g => if decide (g = f) then f_ref x else c g) (s <| ftable := zupd (ftable s) f x |>).
Proof.
  intros [HL H] Hf. split; [cbn; by rewrite zlen_zupd|]. intros g Hg. unfold the_file. cbn. destruct (decide (g = f)) as [->|Hn].
  - by rewrite zget_zupd_eq by lia.
  - rewrite zget_zupd_ne by done. by apply H.
Qed.

(** ** The table of open files *)

Section table.
Context (kend : Z).

Lemma filealloc_counted c s : counted c s ->
  wp filealloc (fun r s' => match r with
                            | Some f => 0 <= f < Z.of_nat NFILE /\ c f = 0 /\ counted (fun g => c g + one f g) s'
                            | None => s' = s
                            end) (fun _ => False) s.
Proof.
  intros HC. unfold filealloc. eapply wp_step_run; [reflexivity|]. destruct (find _ _) as [f|] eqn:E; [|by apply wp_ret].
  apply find_some in E as [Hin Hr]. apply list_elem_of_In, elem_of_zrange in Hin. apply Z.eqb_eq in Hr. assert (Hf : 0 <= f < Z.of_nat NFILE) by lia.
  destruct HC as [HL HC]. eapply wp_step_run; [reflexivity|]. apply wp_ret. split; [done|]. rewrite <- HC, Hr by done. split; [done|].
  eapply counted_ext; [|apply counted_upd; [by split|done]]. intros g. cbn. unfold one. case_decide; subst; [rewrite <- HC by done; lia|lia].
Qed.

Lemma filedup_counted c s f : counted c s -> 0 <= f < Z.of_nat NFILE -> 1 <= c f ->
  wp (filedup f) (fun _ s' => counted (fun g => c g + one f g) s') (fun _ => False) s.
Proof.
  intros [HL HC] Hf H1. unfold filedup. eapply wp_step_run; [reflexivity|]. rewrite HC by done. destruct (Z.ltb_spec (c f) 1); [lia|].
  eapply wp_run; [reflexivity|]. eapply counted_ext; [|apply counted_upd; [by split|done]]. intros g. cbn. unfold one.
  case_decide; subst; [rewrite HC by done|]; lia.
Qed.

Lemma close_pipe_counted c s a w : counted c s -> wp (close_pipe kend a w) (fun _ s' => counted c s') (fun msg => exists k, kfree kend a k = Panic msg) s.
Proof.
  intros HC. unfold close_pipe. eapply wp_step_run; [reflexivity|]. destruct (pipes s !! a) as [p|]; [|by apply wp_ret].
  destruct (pipeclose w p) as [[p' []] ws]; [|eapply wp_run; [reflexivity|]; by eapply counted_ftable].
  eapply wp_step_run; [reflexivity|]. unfold onkmem, wp. cbn [fkmem upd]. destruct (kfree kend a _) as [[] k|msg] eqn:E; [|by eexists].
  by eapply counted_ftable.
Qed.

Lemma fileclose_counted c s f : counted c s -> 0 <= f < Z.of_nat NFILE -> 1 <= c f ->
  wp (fileclose kend f) (fun _ s' => counted (fun g => c g - one f g) s') (fun msg => exists a k, kfree kend a k = Panic msg) s.
Proof.
  intros [HL HC] Hf H1. unfold fileclose. eapply wp_step_run; [reflexivity|]. rewrite HC by done. destruct (Z.ltb_spec (c f) 1); [lia|].
  eapply wp_step_run; [reflexivity|]. destruct (Z.ltb_spec 0 (c f - 1)).
  { apply wp_ret. eapply counted_ext; [|apply counted_upd; [by split|done]]. intros g. cbn. unfold one. case_decide; subst; [rewrite HC by done|]; lia. }
  eapply wp_step_run; [reflexivity|]. match goal with |- wp _ _ _ ?t => assert (Hs : counted (fun g => c g - one f g) t) end.
  { eapply counted_ext; [|apply (counted_upd (fun g => if decide (g = f) then c f - 1 else c g)); [|done]].
    - intros g. cbn. unfold one. case_decide; subst; lia.
    - eapply counted_ext; [|apply counted_upd; [by split|done]]. intros g. cbn. case_decide; subst; [by rewrite HC|done]. }
  destruct (f_type (the_file f s)); try by apply wp_ret.
  eapply wp_step; [by apply close_pipe_counted|intros [] s' H'; by apply wp_ret|]. intros msg [k E]. by exists (f_pipe (the_file f s)), k.
Qed.

Lemma upd_file_counted c s f g : counted c s -> 0 <= f < Z.of_nat NFILE -> (forall x, f_ref (g x) = f_ref x) -> wp (upd_file f g) (fun _ s' => counted c s') (fun _ => False) s.
Proof.
  intros HC Hf Hg. eapply wp_run; [reflexivity|]. eapply counted_ext; [|by apply counted_upd]. intros h. cbn. case_decide; [subst|done].
  rewrite Hg. by apply HC.
Qed.

Lemma pipealloc_counted c s junk : counted c s ->
  wp (pipealloc kend junk) (fun r s' => match r with
                                        | Some (f0, f1) => 0 <= f0 < Z.of_nat NFILE /\ 0 <= f1 < Z.of_nat NFILE /\
                                            c f0 = 0 /\ c f1 = 0 /\ f0 <> f1 /\ counted (fun g => c g + one f0 g + one f1 g) s'
                                        | None => counted c s'
                                        end) (fun _ => True) s.
Proof.
  intros HC. unfold pipealloc. eapply wp_step; [by apply filealloc_counted| |done]. intros [f0|] s1; [|intros ->; by apply wp_ret].
  intros (H0 & Hc0 & C0). assert (Hone : forall f, one f f = 1) by (intros f; unfold one; by rewrite decide_True).
  eapply wp_step; [by apply filealloc_counted| |done]. intros [f1|] s2.
  2: { intros ->. eapply wp_step; [apply (fileclose_counted _ _ _ C0 H0); rewrite Hc0, Hone; lia| |done]. intros r s3 H3. apply wp_ret.
       eapply counted_ext; [|exact H3]. intros g. cbn. lia. }
  intros (H1 & Hc1 & C1). assert (Hne : f0 <> f1) by (intros ->; rewrite Hone in Hc1; lia).
  assert (Hc1' : c f1 = 0) by (unfold one in Hc1; rewrite decide_False in Hc1 by done; lia).
  unfold pipealloc_page. apply wp_bind. unfold onkmem, wp at 1. destruct (kalloc (fkmem s2)) as [a k|]; [|done].
  assert (C2 : counted (fun g => c g + one f0 g + one f1 g) (s2 <| fkmem := k |>)) by (by eapply counted_ftable).
  assert (Hp : forall f g, 0 <= one f g) by (intros f g; unfold one; case_decide; lia). pose proof (Hp f1 f0). pose proof (Hp f0 f1).
  destruct (a =? 0).
  - eapply wp_step; [apply (fileclose_counted _ _ f0 C2 H0); rewrite Hc0, Hone; lia| |done]. intros r s3 H3.
    eapply wp_step; [apply (fileclose_counted _ _ f1 H3 H1); rewrite Hone; lia| |done].
    intros r' s4 H4. apply wp_ret. eapply counted_ext; [|exact H4]. intros g. cbn. lia.
  - eapply wp_step_run; [reflexivity|]. eapply wp_step; [apply (upd_file_counted (fun g => c g + one f0 g + one f1 g)); [exact (counted_ftable _ _ _ eq_refl C2)|done|done]| |done].
    intros [] s3 H3. eapply wp_step; [by apply (upd_file_counted _ _ f1 _ H3)| |done]. intros [] s4 H4. by apply wp_ret.
Qed.
End table.

(** ** The calls *)

(** The references of other processes are [other]. *)
Definition fds_ok (other : Z -> Z) (k : kst) : Prop :=
  zlen (k_ofile k) = NOFILE /\ counted (fun f => other f + names (k_ofile k) f) (k_files k) /\
  forall fd f, 0 <= fd < NOFILE -> zget (k_ofile k) fd = Some f -> 0 <= f < Z.of_nat NFILE.

Lemma argfd_run argint n (k : kst) fd f : argint n = Some fd -> 0 <= fd < NOFILE -> zget (k_ofile k) fd = Some f -> argfd argint n k = Ok (Some (fd, f)) k.
Proof.
  intros Ha Hfd E. unfold argfd. erewrite bind_run by reflexivity. rewrite Ha, E.
  destruct (Z.ltb_spec fd 0), (Z.leb_spec NOFILE fd); lia || done.
Qed.

Lemma close_file_shared kend sb pid f (k : kst) : let x := the_file f (k_files k) in 2 <= f_ref x ->
  close_file kend sb pid f k = Ok tt (k <| k_files := (k_files k) <| ftable := zupd (ftable (k_files k)) f (x <| f_ref := f_ref x - 1 |>) |> |>).
Proof.
  intros x Hx. unfold close_file. rewrite (bind_run _ _ _ None (k <| k_files := (k_files k) <| ftable := zupd (ftable (k_files k)) f (x <| f_ref := f_ref x - 1 |>) |> |>)); [done|].
  unfold onfiles, fileclose. erewrite bind_run by reflexivity. fold x.
  destruct (Z.ltb_spec (f_ref x) 1); [lia|]. erewrite bind_run by reflexivity. destruct (Z.ltb_spec 0 (f_ref x - 1)); [|lia]. reflexivity.
Qed.

Section calls.
Context (kend : Z) (sb : superblock) (pid : Z) (killed : bool).
Context (devread : Z -> option (Z -> Z -> M (fs logst) (option (list Z))))
        (devwrite : Z -> option (Z -> list Z -> M (fs logst) Z)).
Context (argint : Z -> option Z) (argptr : Z -> Z -> option Z) (argstr : Z -> option (list Z)).
Context (junk : list Z).
Context (other : Z -> Z) (Hother : forall f, 0 <= other f).
Implicit Types (k : kst).

(** What the process has open, and the counts [c]. *)
Definition fds (T : list (option Z)) (c : Z -> Z) k : Prop := k_ofile k = T /\ counted c (k_files k).

Lemma fds_fs {A A'} (m : M (fs logst) A) (K : A -> M kst A') T c (Q : A' -> kst -> Prop) k : fds T c k ->
  (forall a k', fds T c k' -> wp (K a) Q (fun _ => True) k') -> wp (a ← onfs m; K a) Q (fun _ => True) k.
Proof.
  intros H HK. apply wp_bind. unfold wp at 1, onfs. destruct (m (k_fs k)) as [a f|]; [|done]. by apply HK.
Qed.

Lemma fds_files {A A'} (m : M files A) (K : A -> M kst A') T c (Q' : A -> files -> Prop) (E : string -> Prop) (Q : A' -> kst -> Prop) k :
  fds T c k -> (counted c (k_files k) -> wp m Q' E (k_files k)) ->
  (forall a k', k_ofile k' = T -> Q' a (k_files k') -> wp (K a) Q (fun _ => True) k') -> wp (a ← onfiles m; K a) Q (fun _ => True) k.
Proof.
  intros [HT HC] Hm HK. specialize (Hm HC). apply wp_bind. unfold wp at 1, onfiles. unfold wp in Hm.
  destruct (m (k_files k)) as [a F|]; [|done]. by apply HK.
Qed.

Lemma close_fds T c f k : fds T c k -> 0 <= f < Z.of_nat NFILE -> 1 <= c f ->
  wp (close_file kend sb pid f) (fun _ => fds T (fun g => c g - one f g)) (fun _ => True) k.
Proof.
  intros H Hf H1. unfold close_file. eapply (fds_files _ _ T c); [done|intros HC; by apply (fileclose_counted kend c)|].
  intros [ip|] k1 HT HC; [|by apply wp_ret]. assert (H1' : fds T (fun g => c g - one f g) k1) by done.
  eapply fds_fs; [exact H1'|]. intros _ k2 H2. eapply fds_fs; [exact H2|]. intros _ k3 H3.
  unfold wp, onfs. by destruct (fend_op pid (k_fs k3)).
Qed.

(** The lowest unused descriptor. *)
Lemma fdalloc_wp f k : wp (fdalloc f) (fun fd k' =>
    fd = -1 /\ k' = k /\ (forall i, 0 <= i < NOFILE -> is_Some (zget (k_ofile k) i)) \/
    0 <= fd < NOFILE /\ zget (k_ofile k) fd = None /\ (forall i, 0 <= i < fd -> is_Some (zget (k_ofile k) i)) /\
    k' = k <| k_ofile := zupd (k_ofile k) fd (Some f) |>) (fun _ => False) k.
Proof.
  unfold fdalloc. eapply wp_step_run; [reflexivity|]. destruct (find _ _) as [fd|] eqn:E.
  - pose proof (find_first _ _ _ _ E) as H3. apply find_in in E as [H1%elem_of_zrange H2]. cbn beta in H2, H3. eapply wp_step_run; [reflexivity|]. apply wp_ret. right. split; [lia|].
    split; [by destruct (zget (k_ofile k) fd)|]. split; [|done]. intros i Hi. specialize (H3 i ltac:(lia)).
    by destruct (zget (k_ofile k) i).
  - apply wp_ret. left. split; [done|]. split; [done|]. intros i Hi. apply (find_out _ _ i) in E; [|apply elem_of_zrange; lia]. cbn beta in E.
    by destruct (zget (k_ofile k) i).
Qed.

Lemma fds_upd T c fd o k : fds T c k -> fds (zupd T fd o) c (k <| k_ofile := zupd (k_ofile k) fd o |>).
Proof. intros [<- HC]. by split. Qed.

Lemma fds_fds_ok T c k : fds T c k -> zlen T = NOFILE -> (forall f, c f = other f + names T f) ->
  (forall fd f, 0 <= fd < NOFILE -> zget T fd = Some f -> 0 <= f < Z.of_nat NFILE) -> fds_ok other k.
Proof. intros [<- HC] HT Hc Hr. split; [done|]. split; [by eapply counted_ext|done]. Qed.

Lemma in_range_upd (T : list (option Z)) fd f : zlen T = NOFILE -> 0 <= f < Z.of_nat NFILE ->
  (forall i g, 0 <= i < NOFILE -> zget T i = Some g -> 0 <= g < Z.of_nat NFILE) ->
  forall i g, 0 <= i < NOFILE -> zget (zupd T fd (Some f)) i = Some g -> 0 <= g < Z.of_nat NFILE.
Proof.
  intros HL Hf HT i g Hi. destruct (decide (fd = i)) as [->|Hn]; [rewrite zget_zupd_eq by lia|rewrite zget_zupd_ne by done; by apply HT].
  injection 1 as <-. done.
Qed.

Lemma names_new (T : list (option Z)) fd f g : 0 <= fd < zlen T -> zget T fd = None -> names (zupd T fd (Some f)) g = names T g + one f g.
Proof.
  intros H E. rewrite names_upd, E by done. unfold fd_is, one. rewrite (decide_False (P := None = Some g)) by done.
  destruct (decide (Some f = Some g)), (decide (g = f)); congruence || lia.
Qed.

Lemma argfd_wp n k : wp (argfd argint n) (fun r k' => k' = k /\ match r with
    | Some (fd, f) => argint n = Some fd /\ 0 <= fd < NOFILE /\ zget (k_ofile k) fd = Some f
    | None => forall fd, argint n = Some fd -> 0 <= fd < NOFILE -> zget (k_ofile k) fd = None
    end) (fun _ => False) k.
Proof.
  unfold argfd. eapply wp_step_run; [reflexivity|]. apply wp_ret. split; [done|]. destruct (argint n) as [fd|]; [|done].
  destruct (Z.ltb_spec fd 0), (Z.leb_spec NOFILE fd); cbn [orb]; try (intros ? [= <-]; lia).
  destruct (zget (k_ofile k) fd) as [f|] eqn:E; [done|]. by intros ? [= <-].
Qed.

Lemma sys_dup_wp k : fds_ok other k -> wp (sys_dup argint) (fun _ => fds_ok other) (fun _ => False) k.
Proof.
  intros (HL & HC & HR). unfold sys_dup. eapply wp_step; [apply argfd_wp| |done]. intros [[fd0 f]|] k1 [-> Hr]; [|by apply wp_ret].
  destruct Hr as (_ & Hfd & E). pose proof (HR _ _ Hfd E) as Hf. pose proof (names_pos (k_ofile k) fd0 f ltac:(lia) E).
  pose proof (Hother f). eapply wp_step; [apply fdalloc_wp| |done].
  intros fd k1 [(-> & -> & _)|(Hfd' & Hn & _ & ->)]; [by apply wp_ret|]. destruct (Z.ltb_spec fd 0); [lia|].
  apply wp_bind. unfold wp at 1, onfiles. pose proof (filedup_counted _ _ _ HC Hf ltac:(cbn; lia)) as Hd. unfold wp in Hd. cbn [k_files upd].
  destruct (filedup f (k_files k)) as [[] F|]; [|done]. apply wp_ret. eapply (fds_fds_ok (zupd (k_ofile k) fd (Some f))); [by split|by rewrite zlen_zupd| |].
  - intros g. cbn. rewrite names_new by (done || lia). lia.
  - by apply in_range_upd.
Qed.

Lemma sys_close_wp k : fds_ok other k -> wp (sys_close kend sb pid argint) (fun _ => fds_ok other) (fun _ => True) k.
Proof.
  intros (HL & HC & HR). unfold sys_close. eapply wp_step; [apply argfd_wp| |done]. intros [[fd f]|] k1 [-> Hr]; [|by apply wp_ret].
  destruct Hr as (_ & Hfd & E). pose proof (HR _ _ Hfd E) as Hf. pose proof (names_pos (k_ofile k) fd f ltac:(lia) E). pose proof (Hother f).
  eapply wp_step_run; [reflexivity|]. eapply wp_step; [eapply (close_fds (zupd (k_ofile k) fd None) _ f); [by apply fds_upd|done|cbn; lia]| |done].
  intros [] k1 H1. apply wp_ret. eapply fds_fds_ok; [exact H1|by rewrite zlen_zupd| |].
  - intros g. cbn. rewrite names_upd, E by lia. unfold fd_is, one. rewrite (decide_False (P := None = Some g)) by done.
    destruct (decide (Some f = Some g)), (decide (g = f)); congruence || lia.
  - intros i g Hi. destruct (decide (fd = i)) as [->|Hn]; [by rewrite zget_zupd_eq by lia|]. rewrite zget_zupd_ne by done. by apply HR.
Qed.

(** The descriptors as they are at the start. *)
Definition fds_start k : fds_ok other k -> fds (k_ofile k) (fun f => other f + names (k_ofile k) f) k := fun H => conj eq_refl (proj1 (proj2 H)).

Lemma sys_open_wp k : fds_ok other k -> wp (sys_open kend sb pid devread devwrite argint argstr junk) (fun _ => fds_ok other) (fun _ => True) k.
Proof.
  intros H. pose proof (fds_start k H) as H0. destruct H as (HL & _ & HR). set (T := k_ofile k) in *. set (c := fun f => other f + names T f) in *.
  assert (Hback : forall k' c', fds T c' k' -> (forall g, c' g = c g) -> fds_ok other k') by (intros k' c' H' E; by eapply fds_fds_ok).
  unfold sys_open. destruct (argstr 0) as [path|]; [|by apply wp_ret; eapply Hback]. destruct (argint 1) as [omode|]; [|by apply wp_ret; eapply Hback].
  eapply wp_step_run; [reflexivity|]. eapply fds_fs; [exact H0|]. intros _ k1 H1. eapply fds_fs; [exact H1|]. intros r k2 H2.
  destruct r as [ip|]; [|eapply fds_fs; [exact H2|]; intros _ k3 H3; apply wp_ret; by eapply Hback].
  eapply fds_files; [exact H2|intros HC; by apply filealloc_counted|]. intros [f|] k3 HT H3.
  2: { assert (H3' : fds T c k3) by (split; [done|]; rewrite H3; apply H2).
       eapply fds_fs; [exact H3'|]. intros _ k4 H4. eapply fds_fs; [exact H4|]. intros _ k5 H5. apply wp_ret. by eapply Hback. }
  destruct H3 as (Hf & Hc0 & C3). eapply wp_step; [apply fdalloc_wp| |done]. rewrite HT. intros fd k4 [(-> & -> & _)|(Hfd & Hn & _ & ->)].
  - change (-1 <? 0) with true. cbv iota.
    eapply wp_step; [eapply (close_fds T _ f); [by split|done|]; unfold one; rewrite decide_True by done; cbn; lia| |done]. intros [] k4 H4.
    eapply fds_fs; [exact H4|]. intros _ k5 H5. eapply fds_fs; [exact H5|]. intros _ k6 H6. apply wp_ret. eapply Hback; [exact H6|]. intros g. cbn. lia.
  - destruct (Z.ltb_spec fd 0); [lia|]. assert (H4 : fds (zupd T fd (Some f)) (fun g => c g + one f g) (k3 <| k_ofile := zupd T fd (Some f) |>)) by done.
    eapply fds_fs; [exact H4|]. intros _ k5 H5. eapply fds_fs; [exact H5|]. intros _ k6 H6.
    eapply fds_files; [exact H6|intros HC; by apply (upd_file_counted (fun g => c g + one f g))|]. intros [] k7 HT7 H7. apply wp_ret.
    eapply (fds_fds_ok (zupd T fd (Some f))); [by split|by rewrite zlen_zupd| |by apply in_range_upd].
    intros g. cbn. rewrite names_new by (done || lia). unfold c. lia.
Qed.

Lemma close2_wp T c f0 f1 k : fds T (fun g => c g + one f0 g + one f1 g) k -> 0 <= f0 < Z.of_nat NFILE -> 0 <= f1 < Z.of_nat NFILE ->
  (forall g, 0 <= c g) -> wp (close_file kend sb pid f0;; close_file kend sb pid f1;; mret (None : option (Z * Z))) (fun _ => fds T c) (fun _ => True) k.
Proof.
  intros H H0 H1 Hc. assert (Hone : forall f, one f f = 1) by (intros f; unfold one; by rewrite decide_True).
  assert (Hp : forall f g, 0 <= one f g) by (intros f g; unfold one; case_decide; lia).
  eapply wp_step; [eapply (close_fds T _ f0); [exact H|done|]; cbn beta; rewrite Hone; specialize (Hp f1 f0); specialize (Hc f0); lia| |done]. intros [] k1 K1.
  eapply wp_step; [eapply (close_fds T _ f1); [exact K1|done|]; cbn beta; rewrite Hone; specialize (Hc f1); lia| |done].
  intros [] k2 [HT K2]. apply wp_ret. split; [done|]. eapply counted_ext; [|exact K2]. intros g. cbn. lia.
Qed.

Lemma names_nonneg (T : list (option Z)) f : 0 <= names T f.
Proof. induction T as [|x T IH]; cbn; [lia|]. unfold fd_is. case_decide; lia. Qed.

Lemma sys_pipe_wp page k : fds_ok other k -> wp (sys_pipe kend sb pid argptr page) (fun _ => fds_ok other) (fun _ => True) k.
Proof.
  intros H. pose proof (fds_start k H) as H0. destruct H as (HL & _ & HR). set (T := k_ofile k) in *. set (c := fun f => other f + names T f) in *.
  assert (Hback : forall k', fds T c k' -> fds_ok other k') by (intros k' H'; by eapply fds_fds_ok).
  assert (Hc : forall g, 0 <= c g) by (intros g; pose proof (Hother g); pose proof (names_nonneg T g); unfold c; lia).
  unfold sys_pipe. destruct (argptr 0 8); [|by apply wp_ret; eapply Hback].
  eapply fds_files; [exact H0|intros HC; by apply (pipealloc_counted kend c)|]. intros [[f0 f1]|] k1 HT H1; [|by apply wp_ret; eapply Hback].
  destruct H1 as (Hf0 & Hf1 & _ & _ & Hne & C1).
  eapply wp_step; [apply fdalloc_wp| |done]. rewrite HT. clear H0. intros fd0 k2 [(-> & -> & _)|(Hfd0 & Hn0 & _ & ->)].
  { change (-1 <? 0) with true. cbv iota. eapply wp_mono; [by eapply (close2_wp T c f0 f1)|intros r k3 H3; by apply Hback|done]. }
  destruct (Z.ltb_spec fd0 0); [lia|]. eapply wp_step; [apply fdalloc_wp| |done]. cbn [k_ofile upd]. set (T1 := zupd T fd0 (Some f0)).
  assert (HL1 : zlen T1 = NOFILE) by (unfold T1; by rewrite zlen_zupd).
  intros fd1 k2 [(-> & -> & _)|(Hfd1 & Hn1 & _ & ->)].
  - change (-1 <? 0) with true. cbv iota. eapply wp_step_run; [reflexivity|]. eapply wp_mono; [eapply (close2_wp T c f0 f1)|intros r k3 H3; by apply Hback|done]; try done.
    split; [|exact C1]. cbn. unfold T1. rewrite zupd_zupd, <- Hn0. apply zupd_same. lia.
  - destruct (Z.ltb_spec fd1 0); [lia|]. apply wp_ret. eapply (fds_fds_ok (zupd T1 fd1 (Some f1))); [split; [done|exact C1]|by rewrite zlen_zupd| |].
    + intros g. cbn. rewrite names_new by (done || lia). unfold T1. rewrite names_new by (done || lia). unfold c. lia.
    + apply in_range_upd; [done|done|]. by apply in_range_upd.
Qed.

(** Duplicating a descriptor, and closing the copy. *)
Lemma dup_close_run k fd fd' f : fds_ok other k -> argint 0 = Some fd -> 0 <= fd < NOFILE -> zget (k_ofile k) fd = Some f ->
  0 <= fd' < NOFILE -> zget (k_ofile k) fd' = None -> (forall i, 0 <= i < fd' -> is_Some (zget (k_ofile k) i)) ->
  let x := the_file f (k_files k) in
  let k' := k <| k_ofile := zupd (k_ofile k) fd' (Some f) |> <| k_files := (k_files k) <| ftable := zupd (ftable (k_files k)) f (x <| f_ref := f_ref x + 1 |>) |> |> in
  sys_dup argint k = Ok fd' k' /\ sys_close kend sb pid (fun _ => Some fd') k' = Ok 0 k.
Proof.
  intros (HL & [HFL HC] & HR) Ha Hfd E Hfd' Hn Hlow x k'. pose proof (HR _ _ Hfd E) as Hf. pose proof (names_pos (k_ofile k) fd f ltac:(lia) E).
  pose proof (Hother f). assert (Hx : 1 <= f_ref x) by (unfold x; rewrite HC by done; lia). split.
  - unfold sys_dup. erewrite bind_run by (by apply argfd_run). cbv beta iota. erewrite (bind_run (fdalloc f) _ _ fd'); cycle 1.
    + unfold wp in *. pose proof (fdalloc_wp f k) as Hw. unfold wp in Hw. destruct (fdalloc f k) as [n k1|]; [|done].
      destruct Hw as [(_ & _ & Hall)|(Hr & Hno & Hl & ->)]; [destruct (Hall fd' Hfd'); congruence|].
      assert (n = fd') as ->; [|reflexivity]. destruct (Z.lt_trichotomy n fd') as [Hlt|[->|Hlt]]; [|done|].
      * destruct (Hlow n ltac:(lia)); congruence.
      * destruct (Hl fd' ltac:(lia)); congruence.
    + destruct (Z.ltb_spec fd' 0); [lia|]. unfold onfiles. unfold mbind, M_bind. cbn [k_files upd]. unfold filedup. erewrite bind_run by reflexivity.
      fold x. destruct (Z.ltb_spec (f_ref x) 1); [lia|]. reflexivity.
  - unfold sys_close. erewrite bind_run by (apply (argfd_run (fun _ => Some fd') 0 k' fd' f); [done|done|]; apply zget_zupd_eq; lia).
    cbv beta iota. erewrite bind_run by reflexivity. set (k1 := k' <| k_ofile := zupd (k_ofile k') fd' None |>).
    assert (Hk1 : the_file f (k_files k1) = x <| f_ref := f_ref x + 1 |>) by (apply zget_zupd_eq; lia).
    erewrite bind_run by (apply close_file_shared; rewrite Hk1; cbn; lia). rewrite Hk1. unfold mret, M_ret. f_equal.
    unfold k1, k'. destruct k as [[t m ps] f0 T w]. unfold upd. cbn in *. rewrite !zupd_zupd. f_equal; [f_equal|].
    + rewrite <- (zupd_same t f) at 2 by lia. f_equal. unfold x, the_file. cbn. destruct (zget t f) as [a b c1 d1 e1 g1 h1]. cbn. f_equal. lia.
    + rewrite <- Hn. apply zupd_same. lia.
Qed.
End calls.
