(* ===== verification/FileSpec.v ===== *)
(** * Reading and writing open files

    file.c on the file system, the log and the buffer cache together: fileread delivers
    the bytes of the file at the offset and filewrite puts bytes there, in transactions of
    a few blocks that a crash leaves done or not begun. *)

From S2P Require Import Prelude Bytes Kalloc Pipe Bio Log Blocks LogBlocks Fs FsBlocks FsInode FsData FsWrite FsTrunc FsCache FsDir File.
From stdpp Require Import gmap.
#[local] Open Scope Z_scope.

Section spec.
Context (kend : Z) (sb : superblock) (Hsb : sb_ok sb) (pid st sz : Z) (killed : bool) (Hsz : MAXOPBLOCKS + 1 < sz).
Context (devread : Z -> option (Z -> Z -> M (fs logst) (option (list Z))))
        (devwrite : Z -> option (Z -> list Z -> M (fs logst) Z)).
Implicit Types (f : fs logst) (v : view) (d : dinode) (I : gmap Z dinode) (k : kst) (ip fi : Z) (D : list (list Z))
  (Wr : list (Z * list Z)).

(** The laws of blocks inside a transaction, and outside. *)
Definition in_trans D Wr : BlockLaws logst (log_blocks_dev pid) :=
  log_laws pid st sz 1 MAXOPBLOCKS D Wr Hsz ltac:(unfold MAXOPBLOCKS; lia) ltac:(lia).
Definition no_trans D Wr : BlockLaws logst (log_blocks_dev pid) :=
  log_laws pid st sz 0 0 D Wr Hsz ltac:(unfold MAXOPBLOCKS; lia) ltac:(lia).

(** The file system between transactions, with the contents [v]. *)
Record idle f v I : Prop := mkidle {
  id_quiet : quiet pid st sz (fdev f);
  id_view : v = disk_view (st + sz) (disk (lbio (fdev f)));
  id_inv : fsinv sb v I;
  id_sync : synced sb v I ∅;
  id_cache : cached (icache f) I }.

(** What a crash during the writes of a transaction leaves. *)
Definition crash_safe D v' f' Wr : Prop := exists Wt V,
  writes (lbio (fdev f')) = Wr ++ Wt /\ disk (lbio (fdev f')) = replay D Wt /\ shows st sz V v' /\
  forall n, means st sz (replay D (take n Wt)) D \/ means st sz (replay D (take n Wt)) V.

Definition rest v : view := mkview (vblk v) ∅ ∅.

Lemma fsinv_rest v I : fsinv sb v I -> fsinv sb (rest v) I.
Proof.
  intros H. apply (fsinv_frame sb v); [done| |done|done].
  destruct (fi_bitmap sb v I H) as [H1 H2]. by split.
Qed.

Lemma wp_onfs {A} (m : M (fs logst) A) (Q : A -> kst -> Prop) (E : string -> Prop) k :
  wp m (fun a f => Q a (k <| k_fs := f |>)) E (k_fs k) -> wp (onfs m) Q E k.
Proof. unfold wp, onfs. by destruct (m (k_fs k)). Qed.

(** A call of the file system, then the rest. *)
Lemma wp_onfs_step {A A'} (m : M (fs logst) A) (K : A -> M kst A') (Q' : A -> fs logst -> Prop) (E' : string -> Prop)
    (Q : A' -> kst -> Prop) (E : string -> Prop) k :
  wp m Q' E' (k_fs k) -> (forall a f, Q' a f -> wp (K a) Q E (k <| k_fs := f |>)) -> (forall msg, E' msg -> E msg) ->
  wp (onfs m ≫= K) Q E k.
Proof. intros H HK HE. apply wp_bind, wp_onfs. eapply wp_mono; [exact H|done|done]. Qed.

Lemma get_file_run fi k : get_file fi k = Ok (the_file fi (k_files k)) k.
Proof. by destruct k. Qed.

Lemma add_off_run fi r k : add_off fi r k = Ok tt (k <| k_files := (k_files k) <| ftable :=
  zupd (ftable (k_files k)) fi ((the_file fi (k_files k)) <| f_off := u32 (f_off (the_file fi (k_files k)) + r) |>) |> |>).
Proof. done. Qed.

(** ** Transactions *)

Lemma begin_wp f v I : idle f v I ->
  wp fbegin_op (fun _ f' => icache f' = icache f /\
    @mounted _ _ (in_trans (disk (lbio (fdev f))) (writes (lbio (fdev f)))) sb f' v I ∅) (fun _ => False) f.
Proof.
  intros [HQ -> HF HS HC]. destruct (begin_view pid st sz _ HQ) as (L' & E & HV).
  unfold fbegin_op. apply wp_bind, wp_ondev. eapply wp_run; [exact E|]. apply wp_ret. split; [done|].
  by split; cbn [fdev icache].
Qed.

Lemma end_wp D Wr f v I : @mounted _ _ (in_trans D Wr) sb f v I ∅ ->
  wp (fend_op pid) (fun _ f' => icache f' = icache f /\ idle f' (rest v) I /\ crash_safe D v f' Wr) (fun _ => False) f.
Proof.
  intros [HV Hh HF HS HC _]. destruct (end_view pid st sz Hsz D Wr _ v HV Hh) as (L' & Wt & V & E & HQ & HD & HW & Hsh & HV' & _ & Hk).
  unfold fend_op. apply wp_ondev. eapply wp_run; [exact E|]. split; [done|]. split; [|by exists Wt, V].
  split; cbn [fdev icache]; try done; [|by apply fsinv_rest].
  transitivity (mkview (vblk (disk_view (st + sz) (disk (lbio L')))) ∅ ∅); [|done].
  unfold rest. apply (f_equal (fun b => mkview b ∅ ∅)). apply map_eq. intros n. rewrite disk_view_lookup. case_decide as Hn.
  - by rewrite Hsh.
  - destruct HV as [(O & bs & _ & _ & Hb & _) _ _ _ _ _ _]. by rewrite Hb, decide_False.
Qed.

Lemma idle_mounted f v I : idle f v I -> @mounted _ _ (no_trans (disk (lbio (fdev f))) (writes (lbio (fdev f)))) sb f v I ∅.
Proof.
  intros [HQ -> HF HS HC]. split; try done. by apply idle_view.
Qed.

Lemma mounted_idle D Wr f v I : v = disk_view (st + sz) D -> @mounted _ _ (no_trans D Wr) sb f v I ∅ ->
  idle f v I /\ disk (lbio (fdev f)) = D /\ writes (lbio (fdev f)) = Wr.
Proof.
  intros Ev [HV Hh HF HS HC _]. destruct (idle_back pid st sz D Wr _ v HV Hh) as (HQ & HD & HW). split; [|done]. split; try done. by rewrite HD.
Qed.

(** ** An open file *)

(** File [fi] of the table is open on the inode with the fields [d]. *)
Record opened k fi ip d v I : Prop := mkopened {
  op_f : 0 <= fi < zlen (ftable (k_files k));
  op_type : f_type (the_file fi (k_files k)) = FD_INODE;
  op_ip : f_ip (the_file fi (k_files k)) = ip;
  op_off : is_u32 (f_off (the_file fi (k_files k)));
  op_idle : idle (k_fs k) v I;
  op_used : used (icache (k_fs k)) ip;
  op_unlocked : i_locked (the_inode ip (k_fs k)) = false;
  op_inode : I !! inum_of (icache (k_fs k)) ip = Some d;
  op_dev : d_type d <> T_DEV }.

(** The cache entry once the file was locked, read in and unlocked. *)
Definition touched d d' e : inode := (unlock_entry (lock_entry pid d e)) <| i_d := d' |>.

Lemma touched_lock d (e : inode) : unlock_entry (lock_entry pid d e) = touched d d e.
Proof. done. Qed.

Lemma used_upd (C : list inode) ip (e : inode) : zlen C = NINODE -> used C ip -> i_ref e = i_ref (zget C ip) -> used (zupd C ip e) ip.
Proof. intros Hl [Hip Hr] He. split; [done|]. rewrite zget_zupd_eq by lia. by rewrite He. Qed.

Definition set_off k fi (o : Z) : files := (k_files k) <| ftable := zupd (ftable (k_files k)) fi ((the_file fi (k_files k)) <| f_off := o |>) |>.

Lemma fileread_wp k fi ip d v I n : opened k fi ip d v I -> f_readable (the_file fi (k_files k)) = true -> is_u32 n ->
  let off := f_off (the_file fi (k_files k)) in
  let l := fbytes v d off (Z.min n (d_size d - off)) in
  wp (fileread sb pid killed devread fi n)
    (fun r k' => idle (k_fs k') v I /\ icache (k_fs k') = zupd (icache (k_fs k)) ip (touched d d (the_inode ip (k_fs k))) /\
       disk (lbio (fdev (k_fs k'))) = disk (lbio (fdev (k_fs k))) /\
       if (d_size d <? off) || (2 ^ 32 <=? off + n) then r = Return (-1) [] /\ k_files k' = k_files k
       else r = Return (zlen l) l /\ k_files k' = if 0 <? zlen l then set_off k fi (u32 (off + zlen l)) else k_files k)
    (fun _ => False) k.
Proof.
  intros [Hf Hty Hip Hoff HI HU Hun Hd Hdev] Hrd Hn off l. pose proof (idle_mounted _ _ _ HI) as M. pose proof HU as [Hip' Hr].
  set (D := disk _) in M. set (Wr := writes _) in M. pose proof (id_cache _ _ _ HI) as HC. pose proof (ca_len _ _ HC) as Hl.
  set (e := the_inode ip (k_fs k)) in *.
  unfold fileread. eapply wp_step_run; [apply get_file_run|]. rewrite Hrd, Hty, Hip. cbn [negb].
  eapply wp_onfs_step; [apply (ilock_wp (L := no_trans D Wr) sb Hsb pid _ v I ∅ ip d M HU Hun Hd)| |done].
  intros [] _ (s1 & -> & M1). fold e in M1 |- *. set (f1 := mkfs s1 _) in *.
  assert (He1 : the_inode ip f1 = lock_entry pid d e) by (unfold the_inode, f1; cbn; apply zget_zupd_eq; lia).
  assert (HU1 : used (icache f1) ip) by (by apply used_upd).
  pose proof (mounted_open (L := no_trans D Wr) sb f1 v I ∅ ip M1 HU1) as HO. rewrite He1 in HO. specialize (HO eq_refl).
  eapply wp_onfs_step; [apply (readi_wp (L := no_trans D Wr) sb Hsb devread f1 ip _ v I off n HO); done| |done].
  intros r _ [(s2 & -> & Hs2) ->]. change (i_d (lock_entry pid d e)) with d. fold l.
  assert (Hend : forall k2 (r : result (list Z)), k_fs k2 = mkfs s2 (icache f1) ->
    wp (onfs (iunlock pid ip);; mret r)
      (fun r' k' => r' = r /\ k_files k' = k_files k2 /\ idle (k_fs k') v I /\ icache (k_fs k') = zupd (icache (k_fs k)) ip (touched d d e) /\
         disk (lbio (fdev (k_fs k'))) = D) (fun _ => False) k2).
  { intros k2 r Hk2. pose proof (mounted_dev (L := no_trans D Wr) sb f1 v I ∅ s2 M1 Hs2) as M2.
    eapply wp_onfs_step; [rewrite Hk2; apply (iunlock_wp (L := no_trans D Wr) sb pid _ v I ∅ ip M2 HU1)| |done].
    1, 2: change (the_inode ip (mkfs s2 (icache f1))) with (the_inode ip f1); by rewrite He1.
    intros [] f3 [-> M3]. apply wp_ret. destruct (mounted_idle D Wr _ v I (id_view _ _ _ HI) M3) as (HI3 & HD3 & _).
    split_and!; [done|done|exact HI3| |exact HD3]. cbn [k_fs upd icache]. unfold the_inode. cbn [icache]. unfold f1. cbn [icache].
    by rewrite zupd_zupd, zget_zupd_eq by lia. }
  destruct ((d_size d <? off) || (2 ^ 32 <=? off + n)).
  - eapply wp_mono; [by apply Hend| |done]. intros r k' (-> & Hfl & HI' & Hc' & HD'). done.
  - destruct (Z.ltb_spec 0 (zlen l)).
    + eapply wp_step_run; [apply add_off_run|]. eapply wp_mono; [by apply Hend| |done]. intros r k' (-> & Hfl & HI' & Hc' & HD'). done.
    + eapply wp_step_run; [done|]. eapply wp_mono; [by apply Hend| |done]. intros r k' (-> & Hfl & HI' & Hc' & HD'). done.
Qed.

(** ** Writing *)

Lemma nblocks_chunk off n : 0 < n <= max_chunk -> nblocks off n <= 4.
Proof.
  intros Hn. unfold max_chunk, MAXOPBLOCKS in *. change ((10 - 1 - 1 - 2) / 2 * 512) with 1536 in Hn.
  unfold nblocks, BSIZE. rewrite (proj2 (Z.eqb_neq n 0)) by lia. pose proof (Z.mod_pos_bound off 512 ltac:(lia)).
  apply Z.lt_succ_r, Z.div_lt_upper_bound; lia.
Qed.

(** The log has room for the blocks of one chunk, if there are at most four bitmap blocks. *)
Lemma chunk_fits v i d off n : vlog v = ∅ -> (size (bmaps sb) <= 4)%nat -> 0 <= off -> 0 < n <= max_chunk ->
  Phi sb v i d + nblocks off n <= MAXOPBLOCKS.
Proof.
  intros Hv Hb Ho Hn. pose proof (nblocks_chunk off n Hn) as Hnb. unfold MAXOPBLOCKS.
  unfold Phi, base. rewrite Hv. assert (Hsz2 : Z.of_nat (size (∅ ∪ bmaps sb ∪ {[IBLOCK sb i]} ∪ indset d)) + flag d <= 6); [|lia].
  assert (H1 : Z.of_nat (size (bmaps sb ∪ {[IBLOCK sb i]})) <= 5).
  { rewrite (union_comm_L (bmaps sb)). pose proof (size_add (bmaps sb) (IBLOCK sb i)). lia. }
  rewrite (left_id_L ∅ _). unfold indset, flag. destruct (ind d =? 0); [rewrite (right_id_L ∅ _); lia|].
  rewrite union_comm_L. pose proof (size_add (bmaps sb ∪ {[IBLOCK sb i]}) (ind d)). lia.
Qed.

(** One transaction of filewrite. *)
Record chunk_done k fi ip d v I (off : Z) (src : list Z) k' v' d' : Prop := mkchunk_done {
  cd_idle : idle (k_fs k') (rest v') (<[inum_of (icache (k_fs k)) ip := d']> I);
  cd_wrote : wrote_file sb v I (inum_of (icache (k_fs k)) ip) d v' d' off src;
  cd_cache : icache (k_fs k') = zupd (icache (k_fs k)) ip (touched d d' (the_inode ip (k_fs k)));
  cd_files : k_files k' = set_off k fi (off + zlen src);
  cd_crash : crash_safe (disk (lbio (fdev (k_fs k)))) v' (k_fs k') (writes (lbio (fdev (k_fs k)))) }.

Definition too_big d (off n : Z) : bool := (d_size d <? off) || (MAXFILE * BSIZE <? off + n).

(** The rest of the chunk, after writei: the file is unlocked and the transaction ends. *)
Lemma chunk_end_wp D Wr k f1 ip (v : view) I r (Q : Z -> kst -> Prop) E : @mounted _ _ (in_trans D Wr) sb f1 v I ∅ -> used (icache f1) ip ->
  i_locked (the_inode ip f1) = true -> i_pid (the_inode ip f1) = pid -> k_fs k = f1 ->
  (forall f', icache f' = zupd (icache f1) ip (unlock_entry (the_inode ip f1)) -> idle f' (rest v) I -> crash_safe D v f' Wr ->
     Q r (k <| k_fs := f' |>)) ->
  wp (onfs (iunlock pid ip);; onfs (fend_op pid);; mret r) Q E k.
Proof.
  intros M HU Hlk Hp Hk HQ.
  eapply wp_onfs_step; [rewrite Hk; apply (iunlock_wp (L := in_trans D Wr) sb pid f1 v I ∅ ip M HU Hlk Hp)| |done].
  intros [] f2 [-> M2]. eapply wp_onfs_step; [apply (end_wp D Wr _ v I M2)| |done].
  intros [] f3 (Hc & HI & Hcr). apply wp_ret. cbn [icache] in Hc. destruct k. apply HQ; done.
Qed.

Lemma write_chunk_wp k fi ip d v I (src : list Z) : opened k fi ip d v I -> Forall is_u8 src -> 0 < zlen src <= max_chunk ->
  (size (bmaps sb) <= 4)%nat ->
  let off := f_off (the_file fi (k_files k)) in
  wp (write_chunk sb pid devwrite fi src)
    (fun r k' => if too_big d off (zlen src)
       then r = -1 /\ k_files k' = k_files k /\ idle (k_fs k') v I /\
            icache (k_fs k') = zupd (icache (k_fs k)) ip (touched d d (the_inode ip (k_fs k)))
       else r = zlen src /\ exists v' d', chunk_done k fi ip d v I off src k' v' d')
    (no_room sb v d (nblocks off (zlen src))) k.
Proof.
  intros [Hf Hty Hip Hoff HI HU Hun Hd Hdev] Hsrc Hn Hbm off. pose proof HU as [Hip' Hr].
  pose proof (id_cache _ _ _ HI) as HC. pose proof (ca_len _ _ HC) as Hl.
  set (e := the_inode ip (k_fs k)) in *. set (i := inum_of (icache (k_fs k)) ip) in *.
  unfold write_chunk. eapply wp_step_run; [apply get_file_run|]. rewrite Hip. fold off.
  eapply wp_onfs_step; [by apply (begin_wp _ v I)| |done]. set (D := disk _). set (Wr := writes _).
  intros [] f0 [Hc0 M0]. assert (He0 : the_inode ip f0 = e) by (unfold the_inode; by rewrite Hc0).
  assert (HU0 : used (icache f0) ip) by (by rewrite Hc0).
  eapply wp_onfs_step; [apply (ilock_wp (L := in_trans D Wr) sb Hsb pid f0 v I ∅ ip d M0 HU0); [by rewrite He0|by rewrite Hc0]| |done].
  rewrite He0, Hc0. intros [] f1 (s1 & -> & M1). set (f1 := mkfs s1 _) in *.
  assert (He1 : the_inode ip f1 = lock_entry pid d e) by (unfold the_inode, f1; cbn; apply zget_zupd_eq; lia).
  assert (HU1 : used (icache f1) ip) by (by apply used_upd).
  assert (Hi1 : inum_of (icache f1) ip = i) by (unfold inum_of; fold (the_inode ip f1); by rewrite He1).
  pose proof (mounted_open (L := in_trans D Wr) sb f1 v I ∅ ip M1 HU1) as HO. rewrite He1 in HO. specialize (HO eq_refl).
  eapply wp_onfs_step; [apply (writei_wp (L := in_trans D Wr) sb Hsb devwrite f1 ip _ v I off src HO); try done| |by intros msg [Hm _]].
  { unfold max_chunk, is_u32, MAXOPBLOCKS in *. change ((10 - 1 - 1 - 2) / 2 * 512) with 1536 in Hn. lia. }
  { intros _. cbn [max_op in_trans log_laws]. apply chunk_fits; try done; [by rewrite (id_view _ _ _ HI)|apply Hoff]. }
  intros r f2. change (i_d (lock_entry pid d e)) with d. change (i_inum (lock_entry pid d e)) with i. fold (too_big d off (zlen src)).
  destruct (too_big d off (zlen src)) eqn:Ebig.
  - intros [-> ->]. eapply wp_step_run; [done|]. eapply (chunk_end_wp D Wr _ f1); [exact M1|done|by rewrite He1|by rewrite He1|done|].
    intros f' Hc' HI' _. split_and!; [done|done| |].
    + rewrite (id_view _ _ _ HI) in HI' |- *. exact HI'.
    + cbn [k_fs upd]. rewrite Hc', He1. unfold f1. cbn [icache]. by rewrite zupd_zupd.
  - intros (-> & v' & d' & s' & -> & Hs' & W). rewrite (proj2 (Z.ltb_lt 0 (zlen src))) by lia.
    eapply wp_step_run; [apply add_off_run|]. cbn [k_files upd].
    assert (M2 : @mounted _ _ (in_trans D Wr) sb (put_d f1 ip (lock_entry pid d e) d' s') v' (<[i := d']> I) ∅).
    { rewrite <- He1, <- Hi1. eapply (mounted_write (L := in_trans D Wr)); [exact M1|done|by rewrite He1|done|]. rewrite Hi1, He1. exact W. }
    set (f2 := put_d f1 ip (lock_entry pid d e) d' s') in *.
    assert (He2 : the_inode ip f2 = (lock_entry pid d e) <| i_d := d' |>).
    { apply the_put_d. unfold f1. cbn. rewrite zlen_zupd. lia. }
    eapply (chunk_end_wp D Wr _ f2); [exact M2| |by rewrite He2|by rewrite He2|done|].
    { split; [done|]. change (zget (icache f2) ip) with (the_inode ip f2). by rewrite He2. }
    intros f' Hc' HI' Hcr. split; [done|]. exists v', d'. split; try done.
    + cbn [k_fs upd]. rewrite Hc', He2. unfold f2, put_d, f1. cbn [icache]. by rewrite !zupd_zupd.
    + cbn [k_files upd]. unfold set_off. rewrite u32_small; [done|].
      unfold too_big in Ebig. apply orb_false_iff in Ebig as [_ Ebig%Z.ltb_ge].
      unfold is_u32, MAXFILE, NDIRECT, NINDIRECT, BSIZE in *. lia.
Qed.

(** ** filewrite *)

(** In [v'] file [i] has the contents [c], and the other files are those of [v]. *)
Definition image v I (i : Z) (c : list Z) v' : Prop := exists d',
  fsinv sb v' (<[i := d']> I) /\ synced sb v' (<[i := d']> I) ∅ /\ fdata v' d' = c /\
  forall j d0, j <> i -> I !! j = Some d0 -> fdata v' d0 = fdata v d0.

(** After a crash anywhere in the writes [Wt], the file has a part of the bytes, in whole
    chunks. *)
Definition crash_images D v I (i : Z) (c : list Z) (off : Z) (addr : list Z) (Wt : list (Z * list Z)) : Prop :=
  forall n, exists V v' m, means st sz (replay D (take n Wt)) V /\ shows st sz V v' /\
    image v I i (splice c off (take m addr)) v' /\ (m = length addr \/ (max_chunk | Z.of_nat m)).

Record file_written k fi ip d v I (off : Z) (addr : list Z) k' v' d' : Prop := mkfile_written {
  fw_idle : idle (k_fs k') v' (<[inum_of (icache (k_fs k)) ip := d']> I);
  fw_data : fdata v' d' = splice (fdata v d) off addr;
  fw_other : forall j d0, j <> inum_of (icache (k_fs k)) ip -> I !! j = Some d0 -> fdata v' d0 = fdata v d0;
  fw_files : k_files k' = set_off k fi (off + zlen addr);
  fw_crash : exists Wt, writes (lbio (fdev (k_fs k'))) = writes (lbio (fdev (k_fs k))) ++ Wt /\
    disk (lbio (fdev (k_fs k'))) = replay (disk (lbio (fdev (k_fs k)))) Wt /\
    crash_images (disk (lbio (fdev (k_fs k)))) v I (inum_of (icache (k_fs k)) ip) (fdata v d) off addr Wt }.

Lemma shows_view D : shows st sz D (disk_view (st + sz) D).
Proof. intros n Hn. by rewrite disk_view_lookup, decide_True. Qed.

Lemma quiet_means L : quiet pid st sz L -> means st sz (disk (lbio L)) (disk (lbio L)).
Proof. intros [_ _ HL Hd _]. split; [done|]. exists []. split; [done|]. by intros n. Qed.

Lemma set_off_set k fi ip d v I o o' k' : opened k fi ip d v I -> k_files k' = set_off k fi o -> set_off k' fi o' = set_off k fi o'.
Proof.
  intros [Hf _ _ _ _ _ _ _ _] E. unfold set_off. rewrite E. unfold set_off, the_file. cbn [ftable upd]. rewrite zget_zupd_eq, zupd_zupd by done.
  destruct (k_files k). done.
Qed.

Lemma image_start v I i d : fsinv sb v I -> synced sb v I ∅ -> I !! i = Some d -> image v I i (fdata v d) v.
Proof. intros HF HS Hi. exists d. rewrite insert_id by done. done. Qed.

Lemma splice_nil (c : list Z) off : splice c off [] = c.
Proof. unfold splice. cbn [length app]. rewrite Nat.add_0_r. apply take_drop. Qed.

Lemma opened_next k fi ip d v I off src k' v' d' : opened k fi ip d v I -> off + zlen src <= MAXFILE * BSIZE -> 0 <= off ->
  chunk_done k fi ip d v I off src k' v' d' ->
  opened k' fi ip d' (rest v') (<[inum_of (icache (k_fs k)) ip := d']> I) /\ inum_of (icache (k_fs k')) ip = inum_of (icache (k_fs k)) ip /\
  f_off (the_file fi (k_files k')) = off + zlen src.
Proof.
  intros [Hf Hty Hip Hoff HI HU Hun Hd Hdev] Hfit Ho [HI' W Hc Hfl _]. pose proof (ca_len _ _ (id_cache _ _ _ HI)) as Hl. pose proof HU as [Hip' Hr].
  assert (Hx : the_file fi (k_files k') = (the_file fi (k_files k)) <| f_off := off + zlen src |>).
  { rewrite Hfl. unfold the_file, set_off. cbn [ftable upd]. by apply zget_zupd_eq. }
  assert (He : the_inode ip (k_fs k') = touched d d' (the_inode ip (k_fs k))).
  { unfold the_inode at 1. rewrite Hc. apply zget_zupd_eq. lia. }
  assert (Hi : inum_of (icache (k_fs k')) ip = inum_of (icache (k_fs k)) ip) by (unfold inum_of; fold (the_inode ip (k_fs k')); by rewrite He).
  split; [|split; [done|by rewrite Hx]]. split; try (by rewrite Hx).
  - rewrite Hfl. unfold set_off. cbn [ftable upd]. by rewrite zlen_zupd.
  - rewrite Hx. cbn. assert (0 <= zlen src) by (unfold zlen; lia). unfold is_u32, MAXFILE, NDIRECT, NINDIRECT, BSIZE in *. lia.
  - exact HI'.
  - split; [done|]. change (zget (icache (k_fs k')) ip) with (the_inode ip (k_fs k')). by rewrite He.
  - by rewrite He.
  - rewrite Hi. apply lookup_insert_eq.
  - rewrite (f_equal d_type (wf_meta _ _ _ _ _ _ _ _ _ W)). done.
Qed.

Lemma image_wrote v I i d v' d' off src : synced sb v I ∅ -> wrote_file sb v I i d v' d' off src -> image v I i (splice (fdata v d) off src) v'.
Proof.
  intros HS W. exists d'. split_and!; [apply W|by apply (wf_sync _ _ _ _ _ _ _ _ _ W)|apply W|apply W].
Qed.

(** The images of the second part of a write are images of the whole. *)
Lemma image_next v I i d v1 d1 off src c v' : wrote_file sb v I i d v1 d1 off src -> image (rest v1) (<[i := d1]> I) i c v' -> image v I i c v'.
Proof.
  intros W (d' & HF & HS & Hdat & Ho). exists d'. rewrite insert_insert_eq in HF, HS. split_and!; [done..|].
  intros j d0 Hne Hj. rewrite (Ho j d0) by (done || by rewrite lookup_insert_ne). by apply (wf_other _ _ _ _ _ _ _ _ _ W j).
Qed.

(** The crash images of a chunk and then the rest. *)
Lemma images_app k fi ip d v I off addr n1 k1 v1 d1 Wt1 V1 Wt2 :
  let i := inum_of (icache (k_fs k)) ip in let D := disk (lbio (fdev (k_fs k))) in
  opened k fi ip d v I -> 0 <= off <= d_size d -> n1 = Z.min (zlen addr) max_chunk -> 0 < zlen addr ->
  chunk_done k fi ip d v I off (take (Z.to_nat n1) addr) k1 v1 d1 -> shows st sz V1 v1 ->
  (forall n, means st sz (replay D (take n Wt1)) D \/ means st sz (replay D (take n Wt1)) V1) ->
  crash_images (replay D Wt1) (rest v1) (<[i := d1]> I) i (fdata (rest v1) d1) (off + n1) (drop (Z.to_nat n1) addr) Wt2 ->
  crash_images D v I i (fdata v d) off addr (Wt1 ++ Wt2).
Proof.
  intros i D O Hoff Hn1 Hpos CD HV1 Hk HC2 n. pose proof (op_idle _ _ _ _ _ _ O) as HI. pose proof (cd_wrote _ _ _ _ _ _ _ _ _ _ _ CD) as W.
  fold i in W. assert (Hn : 0 < n1 <= zlen addr) by (unfold max_chunk, MAXOPBLOCKS in *; change ((10 - 1 - 1 - 2) / 2 * 512) with 1536 in *; lia).
  assert (Hcs : zlen (fdata v d) = d_size d).
  { apply zlen_fbytes. pose proof (fi_size sb v I (id_inv _ _ _ HI) _ _ (op_inode _ _ _ _ _ _ O)) as [? _]. lia. }
  assert (Hlt : zlen (take (Z.to_nat n1) addr) = n1) by (unfold zlen in *; rewrite length_take; lia).
  destruct (decide (n <= length Wt1)%nat) as [Hle|Hgt].
  - rewrite take_app_le by done. destruct (Hk n) as [Hm|Hm].
    + exists D, v, 0%nat. split; [done|]. split; [rewrite (id_view _ _ _ HI); apply shows_view|]. split; [|right; by exists 0].
      rewrite take_0, splice_nil. apply image_start; [apply HI|apply HI|apply O].
    + exists V1, v1, (Z.to_nat n1). split; [done|]. split; [done|]. split; [eapply image_wrote; [apply HI|exact W]|].
      destruct (decide (zlen addr <= max_chunk)); [left; unfold zlen in *; lia|right]. rewrite Z2Nat.id by lia. exists 1. lia.
  - rewrite take_app_ge, replay_app by lia. destruct (HC2 (n - length Wt1)%nat) as (V & v' & m & Hm & Hsh & Him & Hor).
    apply (image_next v I i d v1 d1 off _ _ v' W) in Him. change (fdata (rest v1) d1) with (fdata v1 d1) in Him.
    pose proof (splice_splice (fdata v d) (take (Z.to_nat n1) addr) (take m (drop (Z.to_nat n1) addr)) off) as Hsp. rewrite Hlt in Hsp.
    rewrite (wf_data _ _ _ _ _ _ _ _ _ W), Hsp in Him by lia.
    assert (Ht : take (Z.to_nat n1) addr ++ take m (drop (Z.to_nat n1) addr) = take (Z.to_nat n1 + m) addr).
    { rewrite take_drop_commute. etransitivity; [|apply (take_drop (Z.to_nat n1) (take (Z.to_nat n1 + m) addr))].
      f_equal. rewrite take_take. f_equal. lia. }
    rewrite Ht in Him. destruct (decide (zlen addr <= max_chunk)) as [Hsm|Hbig].
    + exists V, v', (length addr). split_and!; [done|done| |by left]. rewrite take_ge in Him by (unfold zlen in *; lia). by rewrite take_ge.
    + exists V, v', (Z.to_nat n1 + m)%nat. split_and!; [done..|].
      destruct Hor as [->|[q Hq]]; [left; rewrite length_drop; unfold zlen in *; lia|right]. exists (q + 1). lia.
Qed.

Definition chunks (n : Z) : Z := (n + (max_chunk - 1)) / max_chunk.

Lemma chunks_step n : 0 < n -> chunks n = 1 + chunks (n - Z.min n max_chunk) /\ 0 <= chunks (n - Z.min n max_chunk).
Proof.
  intros Hn. unfold chunks, max_chunk, MAXOPBLOCKS. change ((10 - 1 - 1 - 2) / 2 * 512) with 1536.
  destruct (Z.min_spec n 1536) as [[Hlt ->]|[Hge ->]].
  - rewrite Z.sub_diag. split; [|done]. change ((0 + (1536 - 1)) / 1536) with 0. symmetry. apply Z.div_unique with (n - 1); lia.
  - replace (n + (1536 - 1)) with (n - 1536 + (1536 - 1) + 1 * 1536) by lia. rewrite Z.div_add by lia. split; [lia|apply Z.div_pos; lia].
Qed.

Definition disk_full v d (n : Z) msg : Prop := msg = "balloc: out of blocks" /\ nfree sb v < flag d + 4 * chunks n.

Lemma set_off_id k fi ip d v I : opened k fi ip d v I -> set_off k fi (f_off (the_file fi (k_files k))) = k_files k.
Proof.
  intros O. unfold set_off. set (x := the_file fi (k_files k)). assert (x <| f_off := f_off x |> = x) as -> by (by destruct x).
  unfold x, the_file. rewrite zupd_same by apply O. by destruct (k_files k).
Qed.

Lemma file_written_nil k fi ip d v I : opened k fi ip d v I ->
  file_written k fi ip d v I (f_off (the_file fi (k_files k))) [] k v d.
Proof.
  intros O. pose proof (op_idle _ _ _ _ _ _ O) as HI. pose proof (op_inode _ _ _ _ _ _ O) as Hd. split.
  - by rewrite insert_id.
  - by rewrite splice_nil.
  - done.
  - change (zlen []) with 0. rewrite Z.add_0_r. symmetry. by eapply set_off_id.
  - exists []. rewrite app_nil_r. split; [done|]. split; [done|]. intros n. exists (disk (lbio (fdev (k_fs k)))), v, 0%nat.
    rewrite take_nil. split; [apply quiet_means, HI|]. split; [rewrite (id_view _ _ _ HI); apply shows_view|]. split; [|by left].
    rewrite take_nil, splice_nil. apply image_start; [apply HI|apply HI|done].
Qed.

(** A chunk, then the rest. *)
Lemma file_written_app k fi ip d v I addr n1 k1 v1 d1 k2 v2 d2 : let off := f_off (the_file fi (k_files k)) in
  opened k fi ip d v I -> off <= d_size d -> off + zlen addr <= MAXFILE * BSIZE -> 0 < zlen addr -> n1 = Z.min (zlen addr) max_chunk ->
  chunk_done k fi ip d v I off (take (Z.to_nat n1) addr) k1 v1 d1 ->
  file_written k1 fi ip d1 (rest v1) (<[inum_of (icache (k_fs k)) ip := d1]> I) (off + n1) (drop (Z.to_nat n1) addr) k2 v2 d2 ->
  file_written k fi ip d v I off addr k2 v2 d2.
Proof.
  intros off O Hsz' Hfit Hpos Hn1 CD FW. assert (Hoff : 0 <= off) by apply (op_off _ _ _ _ _ _ O).
  assert (Hn : 0 < n1 <= zlen addr) by (unfold max_chunk, MAXOPBLOCKS in *; change ((10 - 1 - 1 - 2) / 2 * 512) with 1536 in *; lia).
  assert (Hlt : zlen (take (Z.to_nat n1) addr) = n1) by (unfold zlen in *; rewrite length_take; lia).
  assert (Hld : zlen (drop (Z.to_nat n1) addr) = zlen addr - n1) by (unfold zlen in *; rewrite length_drop; lia).
  destruct (opened_next k fi ip d v I off (take (Z.to_nat n1) addr) k1 v1 d1 O ltac:(rewrite Hlt; lia) Hoff CD) as (O1 & Hi1 & _).
  destruct FW as [HI2 Hdat Hoth Hfl (Wt2 & HW2 & HD2 & HC2)]. rewrite Hi1 in HI2, Hoth, HC2.
  pose proof (cd_wrote _ _ _ _ _ _ _ _ _ _ _ CD) as W. destruct (cd_crash _ _ _ _ _ _ _ _ _ _ _ CD) as (Wt1 & V1 & HW1 & HD1 & HV1 & Hk1).
  assert (Hcs : zlen (fdata v d) = d_size d).
  { apply zlen_fbytes. pose proof (fi_size sb v I (id_inv _ _ _ (op_idle _ _ _ _ _ _ O)) _ _ (op_inode _ _ _ _ _ _ O)) as [? _]. lia. }
  split.
  - by rewrite insert_insert_eq in HI2.
  - rewrite Hdat. change (fdata (rest v1) d1) with (fdata v1 d1). rewrite (wf_data _ _ _ _ _ _ _ _ _ W).
    pose proof (splice_splice (fdata v d) (take (Z.to_nat n1) addr) (drop (Z.to_nat n1) addr) off) as Hsp. rewrite Hlt in Hsp.
    rewrite Hsp by lia. by rewrite take_drop.
  - intros j d0 Hne Hj. rewrite (Hoth j d0) by (done || by rewrite lookup_insert_ne). by apply (wf_other _ _ _ _ _ _ _ _ _ W j).
  - rewrite Hfl, Hld. replace (off + n1 + (zlen addr - n1)) with (off + zlen addr) by lia.
    eapply set_off_set; [exact O|]. apply (cd_files _ _ _ _ _ _ _ _ _ _ _ CD).
  - exists (Wt1 ++ Wt2). rewrite HW2, HW1, app_assoc, HD2, HD1, replay_app. split; [done|]. split; [done|].
    rewrite HD1 in HC2. by eapply images_app.
Qed.

Lemma filewrite_loop_wp fi ip (Hbm : (size (bmaps sb) <= 4)%nat) fuel : forall k d v I addr i n,
  let off := f_off (the_file fi (k_files k)) in
  opened k fi ip d v I -> Forall is_u8 addr -> off <= d_size d -> off + zlen addr <= MAXFILE * BSIZE ->
  i + zlen addr = n -> zlen addr < Z.of_nat fuel ->
  wp (filewrite_loop sb pid devwrite fuel fi addr i n)
    (fun r k' => r = n /\ exists v' d', file_written k fi ip d v I off addr k' v' d') (disk_full v d (zlen addr)) k.
Proof.
  induction fuel as [|fuel IH]; intros k d v I addr i n off O Hb Hsz' Hfit Hin Hf; [unfold zlen in Hf; lia|].
  assert (Hz : 0 <= zlen addr) by (unfold zlen; lia). cbn [filewrite_loop].
  destruct (Z.leb_spec n i) as [Hend|Hlt].
  { assert (Ha : addr = []) by (destruct addr; [done|unfold zlen in *; cbn in *; lia]). subst addr. change (zlen []) with 0 in Hin.
    apply wp_ret. rewrite (proj2 (Z.eqb_eq i n)) by lia. split; [done|]. exists v, d. by apply file_written_nil. }
  replace (n - i) with (zlen addr) by lia. set (n1 := Z.min (zlen addr) max_chunk).
  assert (Hn : 0 < n1 <= max_chunk) by (unfold n1, max_chunk, MAXOPBLOCKS; change ((10 - 1 - 1 - 2) / 2 * 512) with 1536; lia).
  assert (Hlt1 : zlen (take (Z.to_nat n1) addr) = n1) by (unfold n1, zlen in *; rewrite length_take; lia).
  assert (Hld : zlen (drop (Z.to_nat n1) addr) = zlen addr - n1) by (unfold n1, zlen in *; rewrite length_drop; lia).
  assert (Hoff : 0 <= off) by apply (op_off _ _ _ _ _ _ O). destruct (chunks_step (zlen addr) ltac:(lia)) as [Hch Hch0]. fold n1 in Hch, Hch0.
  eapply wp_step; [apply (write_chunk_wp k fi ip d v I _ O); [by apply Forall_take|by rewrite Hlt1|done]| |].
  - fold off. rewrite Hlt1. unfold too_big. rewrite (proj2 (Z.ltb_ge (d_size d) off)), (proj2 (Z.ltb_ge (MAXFILE * BSIZE) _)) by lia. cbn [orb].
    intros r k1 (-> & v1 & d1 & CD). rewrite (proj2 (Z.ltb_ge n1 0)), Z.eqb_refl by lia. cbn [negb].
    destruct (opened_next k fi ip d v I off (take (Z.to_nat n1) addr) k1 v1 d1 O ltac:(rewrite Hlt1; lia) Hoff CD) as (O1 & _ & Ho1). rewrite Hlt1 in Ho1.
    pose proof (cd_wrote _ _ _ _ _ _ _ _ _ _ _ CD) as W. pose proof (wf_free _ _ _ _ _ _ _ _ _ W) as Hfree. rewrite Hlt1 in Hfree.
    pose proof (f_equal d_size (wf_meta _ _ _ _ _ _ _ _ _ W)) as Hds. cbn in Hds. rewrite Hlt1 in Hds.
    pose proof (nblocks_chunk off n1 ltac:(lia)) as Hnb.
    eapply wp_mono; [apply (IH k1 d1 (rest v1) _ (drop (Z.to_nat n1) addr) (i + n1) n O1)| |]; rewrite ?Ho1, ?Hld; try lia.
    + by apply Forall_drop.
    + intros r k2 (-> & v2 & d2 & FW). split; [done|]. exists v2, d2. apply (file_written_app k fi ip d v I addr n1 k1 v1 d1 k2 v2 d2); try done; lia.
    + intros msg [-> Hfull]. split; [done|]. change (nfree sb (rest v1)) with (nfree sb v1) in Hfull. lia.
  - intros msg [-> Hfull]. split; [done|]. fold off in Hfull. rewrite Hlt1 in Hfull. pose proof (nblocks_chunk off n1 ltac:(lia)). lia.
Qed.

Lemma filewrite_wp k fi ip d v I addr : let off := f_off (the_file fi (k_files k)) in
  opened k fi ip d v I -> f_writable (the_file fi (k_files k)) = true -> (size (bmaps sb) <= 4)%nat -> Forall is_u8 addr ->
  off <= d_size d -> off + zlen addr <= MAXFILE * BSIZE ->
  wp (filewrite sb pid killed devwrite fi addr)
    (fun r k' => r = Return (zlen addr) [] /\ exists v' d', file_written k fi ip d v I off addr k' v' d')
    (disk_full v d (zlen addr)) k.
Proof.
  intros off O Hw Hbm Hb Hsz' Hfit. unfold filewrite. eapply wp_step_run; [apply get_file_run|]. rewrite Hw, (op_type _ _ _ _ _ _ O). cbn [negb].
  eapply wp_step; [apply (filewrite_loop_wp fi ip Hbm _ k d v I addr 0 (zlen addr) O); try done; unfold zlen; lia| |done].
  intros r k' [-> H]. apply wp_ret. by split.
Qed.
End spec.
