(* ===== verification/SysFileSpec.v ===== *)
(** * What the file system calls do to the tree

    create, unlink_path and the calls around them, on the tree of directories: which names
    lead to which inodes before and after, and that a crash leaves all or nothing. *)

From S2P Require Import Prelude Bytes Kalloc Pipe Bio Log Blocks LogBlocks Fs FsBlocks FsInode FsData FsWrite FsTrunc FsCache FsDir FsState FsPath FsDemo File SysFile FileSpec.
From stdpp Require Import gmap.
#[local] Open Scope Z_scope.

(** ** Names *)

Section names.
Implicit Types (v : view) (I : gmap Z dinode) (i j : Z) (path w : list Z) (es : list (list Z)).

Lemma until_nul_idem (s : list Z) : until_nul (until_nul s) = until_nul s.
Proof. apply until_nul_id, Forall_forall. intros c Hc ->. by apply (until_nul_no_nul s). Qed.

Lemma elements_bytes path : forall cur, Forall is_u8 path -> Forall is_u8 cur -> Forall (Forall is_u8) (FsPath.elements path cur).
Proof.
  induction path as [|c rest IH]; intros cur Hp Hc; cbn.
  - destruct cur; auto.
  - inversion Hp as [|? ? Hc' Hr]; subst. assert (Hd : Forall (Forall is_u8) match cur with [] => [] | _ => [cur] end) by (destruct cur; auto).
    destruct (c =? 0); [done|]. destruct (c =? SLASH).
    + apply Forall_app_2; [done|]. by apply IH.
    + apply IH; [done|]. apply Forall_app_2; auto.
Qed.

Lemma walk_parent_bytes v I es : forall i j w, Forall (Forall is_u8) es -> walk_parent v I i es = Some (j, w) -> Forall is_u8 w.
Proof.
  induction es as [|u es IH]; intros i j w HF; [done|]. inversion HF as [|? ? Hu HF']; subst. cbn [walk_parent]. destruct es as [|u' es'].
  - destruct (is_dir I i); [|done]. injection 1 as _ <-. by apply name_of_bytes.
  - destruct (child v I i u) as [m|]; [|done]. cbn. by apply IH.
Qed.

Lemma walk_parent_dir v I es : forall i j w, walk_parent v I i es = Some (j, w) -> is_dir I j = true /\ name_of w = w.
Proof.
  induction es as [|u es IH]; intros i j w; [done|]. cbn [walk_parent]. destruct es as [|u' es'].
  - destruct (is_dir I i) eqn:E; [|done]. injection 1 as <- <-. split; [done|]. unfold name_of. rewrite until_nul_take by apply until_nul_idem.
    by rewrite take_take.
  - destruct (child v I i u) as [m|]; [|done]. cbn. by apply IH.
Qed.
End names.

(** ** Room in the log *)

Section room.
Context {S : Type} {B : BlockDev S} {L : BlockLaws S B} (sb : superblock) (Hsb : sb_ok sb).
Implicit Types (v : view) (d : dinode) (i : Z) (X : gset Z).

Lemma size_union_le X (Y : gset Z) : Z.of_nat (size (X ∪ Y)) <= Z.of_nat (size X) + Z.of_nat (size Y).
Proof.
  rewrite size_union_alt. assert (size (Y ∖ X) <= size Y)%nat; [|lia]. apply subseteq_size. clear. set_solver.
Qed.

Lemma Phi_room v i d : Phi sb v i d <= Z.of_nat (size (vlog v ∪ bmaps sb)) + 2.
Proof.
  unfold Phi, base. pose proof (size_union_le (vlog v ∪ bmaps sb ∪ {[IBLOCK sb i]}) (indset d)) as H1.
  pose proof (size_union_le (vlog v ∪ bmaps sb) {[IBLOCK sb i]}) as H2.
  rewrite size_singleton in H2. assert (Z.of_nat (size (indset d)) + flag d <= 1); [|lia]. unfold indset, flag.
  destruct (ind d =? 0); [rewrite size_empty|rewrite size_singleton]; lia.
Qed.

Lemma Phi_le v i d : Phi sb v i d <= Z.of_nat (size (vlog v)) + Z.of_nat (size (bmaps sb)) + 2.
Proof. pose proof (Phi_room v i d). pose proof (size_union_le (vlog v) (bmaps sb)). lia. Qed.

(** The log after a write to a file. *)
Lemma log_Phi v i d : Z.of_nat (size ({[IBLOCK sb i]} ∪ (vlog v ∪ bmaps sb))) <= Phi sb v i d.
Proof.
  unfold Phi, base. assert (0 <= flag d) by (unfold flag; by destruct (ind d =? 0)).
  etransitivity; [apply (size_sub _ (vlog v ∪ bmaps sb ∪ {[IBLOCK sb i]} ∪ indset d)); clear; set_solver|lia].
Qed.

Lemma nfree_iwrote v i d : 0 <= i < sb_ninodes sb -> nfree sb (iwrote sb i d v) = nfree sb v.
Proof.
  intros Hi. unfold nfree. do 2 f_equal. apply set_eq. intros b. rewrite !elem_of_free_set. unfold FsBlocks.free.
  pose proof (IBLOCK_range sb Hsb i Hi) as HI. split; intros [Hr Hb]; (split; [done|]); revert Hb; unfold iwrote;
    rewrite (bit_wrote_inode sb Hsb) by (lia || (pose proof (so_istart sb Hsb); pose proof (so_bstart sb Hsb); unfold datastart in *; lia)); done.
Qed.
End room.

(** ** The tree of directories *)

Definition fresh_inode (type major minor : Z) : dinode := (new_dinode type) <| d_major := major |> <| d_minor := minor |> <| d_nlink := 1 |>.

Section tree.
Implicit Types (v : view) (d nd dj : dinode) (I : gmap Z dinode) (R : Z -> Z) (i j k m : Z) (name : list Z).

(** What an inode adds to the link count of its directory: the entry ".." of a directory. *)
Definition back_link d : Z := if d_type d =? T_DIR then 1 else 0.

(** The entries of a new directory [j] in [i]. *)
Definition dots j i : list Z := link_entry (link_entry [] DOT j) DOTDOT i.

(** Inode [j] is new, and directory [i] has a new entry for it. *)
Record entered v I i d name j nd v' I' : Prop := mkentered {
  en_new : I !! j = None;
  en_range : 0 < j < 2 ^ 16;
  en_parent : 0 < i < 2 ^ 16;
  en_dir : exists d', I' = <[i := d']> (<[j := nd]> I) /\ fdata v' d' = link_entry (fdata v d) name j /\
           d_type d' = d_type d /\ d_nlink d' = d_nlink d + back_link nd;
  en_sub : d_type nd = T_DIR -> fdata v' nd = dots j i;
  en_other : forall m d0, m <> i -> I !! m = Some d0 -> fdata v' d0 = fdata v d0 }.

Lemma entries_more (c : list Z) I j nd : I !! j = None -> entries_ok c I -> entries_ok c (<[j := nd]> I).
Proof.
  intros Hj [Hd HE]. split; [done|]. intros k Hk Hnz. destruct (HE k Hk Hnz) as [x Hx]. exists x. rewrite lookup_insert_ne; [done|congruence].
Qed.

(** The tree with the new entry. *)
Lemma entered_child v I i d name j nd v' I' m n : entered v I i d name j nd v' I' -> I !! i = Some d -> d_type d = T_DIR ->
  (16 | zlen (fdata v d)) -> lookup_name (fdata v d) name = None -> is_Some (I !! m) ->
  child v' I' m n = if decide (m = i /\ name_of n = name_of name) then Some j else child v I m n.
Proof.
  intros [Hnew Hj _ (d' & -> & Hdat & Hty' & _) _ Ho] Hd Hty Hdv Hno [dm Hm]. unfold child. destruct (decide (m = i)) as [->|Hne].
  - rewrite lookup_insert_eq, Hd, Hty', Hty, Hdat. cbn [Z.eqb]. change (T_DIR =? T_DIR) with true. cbn [Pos.eqb].
    rewrite found_link by done. destruct (decide (name_of n = name_of name)), (decide (i = i /\ name_of n = name_of name)); tauto || done.
  - rewrite lookup_insert_ne, lookup_insert_ne, Hm by congruence. rewrite decide_False by tauto. by rewrite (Ho m dm Hne Hm).
Qed.

(** A new directory has two names. *)
Lemma found_dots i j n : 0 < i < 2 ^ 16 -> 0 < j < 2 ^ 16 ->
  found (dots j i) n = if decide (name_of n = name_of DOTDOT) then Some i else if decide (name_of n = name_of DOT) then Some j else None.
Proof.
  intros Hi Hj. assert (H1 : forall w, found (link_entry [] DOT j) w = if decide (name_of w = name_of DOT) then Some j else None).
  { intros w. rewrite found_link by (done || by exists 0). done. }
  unfold dots. rewrite found_link, H1; [done| |done|].
  - apply link_size. by exists 0.
  - specialize (H1 DOTDOT). rewrite decide_False in H1 by done. unfold found in H1. by destruct (lookup_name _ DOTDOT).
Qed.

Lemma entered_dots v I i d name j nd v' I' n : entered v I i d name j nd v' I' -> I !! i = Some d -> d_type nd = T_DIR ->
  child v' I' j n = if decide (name_of n = name_of DOTDOT) then Some i else if decide (name_of n = name_of DOT) then Some j else None.
Proof.
  intros [Hnew Hj Hi (d' & -> & _) Hs _] Hd Hnd. unfold child. rewrite lookup_insert_ne, lookup_insert_eq by congruence.
  rewrite Hnd, Z.eqb_refl, Hs by done. by apply found_dots.
Qed.

Lemma link_inum (c name : list Z) j k : (16 | zlen c) -> 0 < j < 2 ^ 16 -> 0 <= k < zlen (link_entry c name j) / 16 ->
  de_inum (entry (link_entry c name j) k) = j \/ 0 <= k < zlen c / 16 /\ entry (link_entry c name j) k = entry c k.
Proof.
  intros Hd Hj Hk. destruct (link_size c name j Hd) as [[q Hq] Hl]. destruct (first_empty_range c Hd) as (? & ? & _). pose proof Hd as [q' Hq'].
  rewrite Hq, Z.div_mul in Hk by lia. rewrite entry_link by (done || lia). rewrite Hq', Z.div_mul by lia.
  case_decide; [left; apply dirent_inum; lia|right]. split; [lia|done].
Qed.

Lemma dots_inum j i k : 0 < i < 2 ^ 16 -> 0 < j < 2 ^ 16 -> 0 <= k < zlen (dots j i) / 16 -> de_inum (entry (dots j i) k) = i \/ de_inum (entry (dots j i) k) = j.
Proof.
  intros Hi Hj Hk. assert (H0 : (16 | zlen (@nil Z))) by (by exists 0). destruct (link_size [] DOT j H0) as [H1 _]. unfold dots in *.
  destruct (link_inum _ DOTDOT i k H1 Hi Hk) as [?|[Hk' ->]]; [by left|right]. destruct (link_inum [] DOT j k H0 Hj Hk') as [?|[Hk0 _]]; [done|].
  change (zlen [] / 16) with 0 in Hk0. lia.
Qed.

(** Where an entry of the new tree leads. *)
Lemma entered_entry v I i d name j nd v' I' m dm k : tree_ok v I -> entered v I i d name j nd v' I' -> I !! i = Some d -> d_type d = T_DIR ->
  I' !! m = Some dm -> d_type dm = T_DIR -> 0 <= k < zlen (fdata v' dm) / 16 -> de_inum (entry (fdata v' dm) k) <> 0 ->
  let x := de_inum (entry (fdata v' dm) k) in x = j \/ x = i /\ d_type nd = T_DIR \/ exists dx, I !! x = Some dx /\ d_nlink dx <> 0.
Proof.
  intros T [Hnew Hj Hi (d' & -> & Hdat & Hty' & _) Hs Ho] Hd Hty Hm Hdm Hk Hnz x.
  assert (Hold : forall m d0 k, I !! m = Some d0 -> d_type d0 = T_DIR -> 0 <= k < zlen (fdata v d0) / 16 -> de_inum (entry (fdata v d0) k) <> 0 ->
    exists dx, I !! de_inum (entry (fdata v d0) k) = Some dx /\ d_nlink dx <> 0).
  { intros m0 d0 k0 H0 Ht0 Hk0 Hn0. destruct (tr_dir v I T m0 d0 H0 Ht0) as [_ HE]. destruct (HE k0 Hk0 Hn0) as [dx Hx]. exists dx.
    split; [done|]. by apply (tr_link v I T m0 d0 k0). }
  rewrite !lookup_insert_Some in Hm. destruct Hm as [[<- <-]|[Hne [[<- <-]|[_ Hm]]]].
  - destruct (tr_dir v I T i d Hd Hty) as [Hdv _]. unfold x. rewrite Hdat in *. destruct (link_inum _ name j k Hdv Hj Hk) as [?|[Hk' E]]; [by left|].
    rewrite E in *. right. right. by apply (Hold i d k).
  - unfold x. rewrite (Hs Hdm) in *. destruct (dots_inum j i k Hi Hj Hk); auto.
  - unfold x. rewrite (Ho m dm) in * by congruence. right. right. by apply (Hold m dm k).
Qed.

Lemma entered_tree v I i d name j nd v' I' : tree_ok v I -> entered v I i d name j nd v' I' -> I !! i = Some d -> d_type d = T_DIR ->
  (d_type nd = T_DIR -> 0 <= d_nlink d) -> d_nlink nd <> 0 -> tree_ok v' I'.
Proof.
  intros T En Hd Hty Hnd Hnn. pose proof En as [Hnew Hj Hi (d' & EI & Hdat & Hty' & Hnl') Hs Ho]. assert (Hij : i <> j) by congruence.
  assert (Hi' : I' !! i = Some d') by (rewrite EI; apply lookup_insert_eq). unfold back_link in Hnl'.
  assert (Hto : forall x, x = j \/ x = i /\ d_type nd = T_DIR \/ (exists dx, I !! x = Some dx /\ d_nlink dx <> 0) -> exists dx, I' !! x = Some dx /\ d_nlink dx <> 0).
  { intros x [->|[[-> E]|(dx & Hx & Hn)]].
    - exists nd. rewrite EI, lookup_insert_ne, lookup_insert_eq by done. done.
    - exists d'. split; [done|]. rewrite E in Hnl'. cbn in Hnl'. specialize (Hnd E). lia.
    - destruct (decide (x = i)) as [->|]; [|exists dx; rewrite EI, !lookup_insert_ne by congruence; done]. exists d'. split; [done|].
      assert (dx = d) as -> by congruence. destruct (Z.eqb_spec (d_type nd) T_DIR) as [E|]; [specialize (Hnd E)|]; lia. }
  split.
  - intros m dm Hm Hdm. split.
    + rewrite EI, !lookup_insert_Some in Hm. destruct Hm as [[<- <-]|[Hne [[<- <-]|[_ Hm]]]].
      * rewrite Hdat. apply link_size. by apply (tr_dir v I T i d).
      * rewrite (Hs Hdm). exact (proj1 (link_size _ DOTDOT i (proj1 (link_size [] DOT j (Z.divide_0_r 16))))).
      * rewrite (Ho m dm) by congruence. by apply (tr_dir v I T m dm).
    + intros k Hk Hnz. destruct (Hto _ (entered_entry v I i d name j nd v' I' m dm k T En Hd Hty Hm Hdm Hk Hnz)) as (x & Hx & _). by exists x.
  - intros m dm k dk Hm Hdm Hk Hnz Hdk. destruct (Hto _ (entered_entry v I i d name j nd v' I' m dm k T En Hd Hty Hm Hdm Hk Hnz)) as (x & Hx & ?). congruence.
  - apply Hto. right. right. apply (tr_root v I T).
Qed.

(** Entry [k] of directory [i], for inode [j], is gone, and so is the inode if this was its
    last link and nobody has it open. *)
Record unlinked v I i d k j dj (gone : bool) v' I' : Prop := mkunlinked {
  un_dir : exists d', I' = (if gone then delete j (<[i := d']> I) else <[j := add_nlink (-1) dj]> (<[i := d']> I)) /\
    fdata v' d' = clear_entry (fdata v d) k /\ d_type d' = d_type d /\ d_nlink d' = d_nlink d - back_link dj;
  un_other : forall m d0, m <> i -> (m = j -> gone = false) -> I !! m = Some d0 -> fdata v' d0 = fdata v d0 }.

(** No other entry of another directory is for inode [j]. *)
Definition only_link v I i k j : Prop := forall m dm n, m <> j -> I !! m = Some dm -> d_type dm = T_DIR -> 0 <= n < zlen (fdata v dm) / 16 ->
  de_inum (entry (fdata v dm) n) = j -> m = i /\ n = k.

(** The inodes after the call. *)
Lemma unlinked_lookup v I i d k j dj gone v' I' m : unlinked v I i d k j dj gone v' I' -> i <> j -> m <> i ->
  I' !! m = if decide (m = j) then if gone then None else Some (add_nlink (-1) dj) else I !! m.
Proof.
  intros [(d' & -> & _) _] Hij Hm. destruct (decide (m = j)) as [->|Hne]; destruct gone.
  - apply lookup_delete_eq.
  - apply lookup_insert_eq.
  - by rewrite lookup_delete_ne, lookup_insert_ne.
  - by rewrite !lookup_insert_ne.
Qed.

Lemma unlinked_dir v I i d k j dj gone v' I' : unlinked v I i d k j dj gone v' I' -> i <> j ->
  exists d', I' !! i = Some d' /\ fdata v' d' = clear_entry (fdata v d) k /\ d_type d' = d_type d /\ d_nlink d' = d_nlink d - back_link dj.
Proof.
  intros [(d' & -> & Hd') _] Hij. exists d'. split; [|done]. destruct gone; [rewrite lookup_delete_ne|rewrite lookup_insert_ne]; try done; apply lookup_insert_eq.
Qed.

Lemma unlinked_child v I i d k j dj gone v' I' w m n : unlinked v I i d k j dj gone v' I' -> I !! i = Some d -> d_type d = T_DIR ->
  I !! j = Some dj -> i <> j -> (16 | zlen (fdata v d)) -> names_ok (fdata v d) -> lookup_name (fdata v d) w = Some k ->
  child v' I' m n = if decide (m = i /\ name_of n = name_of w \/ m = j /\ gone = true) then None else child v I m n.
Proof.
  intros U Hd Hty Hj Hij Hdv HN Hk. unfold child. destruct (decide (m = i)) as [->|Hne].
  - destruct (unlinked_dir _ _ _ _ _ _ _ _ _ _ U Hij) as (d' & -> & -> & -> & _). rewrite Hd, Hty, Z.eqb_refl, (found_clear _ w) by done.
    destruct (decide (name_of n = name_of w)), (decide (i = i /\ name_of n = name_of w \/ i = j /\ gone = true)); tauto || done.
  - rewrite (unlinked_lookup _ _ _ _ _ _ _ _ _ _ m U Hij Hne). destruct (decide (m = j)) as [->|Hmj].
    + destruct gone; [by rewrite decide_True by tauto|]. rewrite decide_False by (intros [?|[_ ?]]; [tauto|done]). rewrite Hj.
      change (d_type (add_nlink (-1) dj)) with (d_type dj). change (fdata v' (add_nlink (-1) dj)) with (fdata v' dj).
      by rewrite (un_other _ _ _ _ _ _ _ _ _ _ U j dj).
    + rewrite decide_False by tauto. destruct (I !! m) as [dm|] eqn:Em; [|done]. by rewrite (un_other _ _ _ _ _ _ _ _ _ _ U m dm).
Qed.

(** The entries of the directories that are left are entries of before. *)
Lemma unlinked_entries v I i d k j dj gone v' I' w : unlinked v I i d k j dj gone v' I' -> I !! i = Some d -> d_type d = T_DIR -> i <> j ->
  I !! j = Some dj -> (16 | zlen (fdata v d)) -> lookup_name (fdata v d) w = Some k -> forall m dm, I' !! m = Some dm -> d_type dm = T_DIR ->
  exists d0, I !! m = Some d0 /\ d_type d0 = T_DIR /\ (m = j -> gone = false) /\ zlen (fdata v' dm) = zlen (fdata v d0) /\
    forall n, 0 <= n < zlen (fdata v d0) / 16 -> de_inum (entry (fdata v' dm) n) <> 0 ->
      entry (fdata v' dm) n = entry (fdata v d0) n /\ ~ (m = i /\ n = k).
Proof.
  intros U Hd Hty Hij Hj Hdv Hk m dm Hm Hdm. destruct (lookup_entry _ _ _ Hdv Hk) as (Hk0 & Hklt & _). pose proof Hdv as [q Hq].
  destruct (decide (m = i)) as [->|Hne].
  - destruct (unlinked_dir _ _ _ _ _ _ _ _ _ _ U Hij) as (d' & Hd' & Hc & Ht' & _). assert (dm = d') as -> by congruence. exists d.
    split_and!; [done|done|done|rewrite Hc; apply zlen_clear; lia|]. intros n Hr. rewrite Hq, Z.div_mul in Hr by lia. rewrite Hc, entry_clear by (done || lia).
    case_decide; [done|]. intros _. split; [done|tauto].
  - rewrite (unlinked_lookup _ _ _ _ _ _ _ _ _ _ m U Hij Hne) in Hm. destruct (decide (m = j)) as [->|Hmj].
    + destruct gone; [done|]. injection Hm as <-. exists dj. change (fdata v' (add_nlink (-1) dj)) with (fdata v' dj).
      rewrite (un_other _ _ _ _ _ _ _ _ _ _ U j dj) by done. split_and!; try done. intros n _ _. split; [done|tauto].
    + exists dm. rewrite (un_other _ _ _ _ _ _ _ _ _ _ U m dm) by done. split_and!; try done. intros n _ _. split; [done|tauto].
Qed.

Lemma unlinked_tree v I i d k j dj gone v' I' w : tree_ok v I -> unlinked v I i d k j dj gone v' I' -> I !! i = Some d -> d_type d = T_DIR ->
  I !! j = Some dj -> i <> j -> is_s16 (d_nlink dj) -> 1 <= d_nlink dj -> (d_type dj = T_DIR -> 2 <= d_nlink d /\ (d_nlink dj = 1 -> gone = true)) ->
  (d_nlink dj = 1 \/ gone = true -> only_link v I i k j /\ j <> ROOTINO) -> lookup_name (fdata v d) w = Some k -> tree_ok v' I'.
Proof.
  intros T U Hd Hty Hj Hij Hs Hn Hdir Honly Hk. destruct (tr_dir v I T i d Hd Hty) as [Hdv _].
  assert (Hnl : d_nlink (add_nlink (-1) dj) = d_nlink dj - 1).
  { cbn. unfold s16, is_s16 in *. rewrite Z.mod_small; lia. }
  pose proof (unlinked_entries v I i d k j dj gone v' I' w U Hd Hty Hij Hj Hdv Hk) as Hget.
  assert (Hstay : forall x dx, I !! x = Some dx -> d_nlink dx <> 0 -> (x = j -> d_nlink dj <> 1 /\ gone = false) -> exists dx', I' !! x = Some dx' /\ d_nlink dx' <> 0).
  { intros x dx Hx Hxn Hxj. destruct (decide (x = i)) as [->|Hne].
    - destruct (unlinked_dir _ _ _ _ _ _ _ _ _ _ U Hij) as (d' & Hd' & _ & _ & E). exists d'. split; [done|]. assert (dx = d) as -> by congruence.
      rewrite E. unfold back_link. destruct (Z.eqb_spec (d_type dj) T_DIR) as [Et|]; [destruct (Hdir Et)|]; lia.
    - rewrite (unlinked_lookup _ _ _ _ _ _ _ _ _ _ x U Hij Hne). destruct (decide (x = j)) as [->|]; [|by exists dx].
      destruct (Hxj eq_refl) as [H1 ->]. eexists. split; [done|]. lia. }
  assert (Hent : forall m dm n, I' !! m = Some dm -> d_type dm = T_DIR -> 0 <= n < zlen (fdata v' dm) / 16 -> de_inum (entry (fdata v' dm) n) <> 0 ->
    exists dx, I' !! de_inum (entry (fdata v' dm) n) = Some dx /\ d_nlink dx <> 0).
  { intros m dm n Hm Hdm Hr Hnz. destruct (Hget m dm Hm Hdm) as (d0 & Hd0 & Ht0 & Hmj & Hl & He). rewrite Hl in Hr.
    destruct (He n Hr Hnz) as [E Hnot]. rewrite E in *. destruct (tr_dir v I T m d0 Hd0 Ht0) as [_ HE]. destruct (HE n Hr Hnz) as [x Hx].
    apply (Hstay _ x Hx); [by apply (tr_link v I T m d0 n)|]. intros Ej. destruct (decide (d_nlink dj = 1 \/ gone = true)) as [Hor|Hor].
    - exfalso. destruct (decide (m = j)) as [->|Hne]; [|destruct Hnot, (Honly Hor) as [Ho _]; by apply (Ho m d0 n)].
      rewrite (Hmj eq_refl) in *. assert (d0 = dj) as -> by congruence. destruct (Hdir Ht0) as [_ Hg]. destruct Hor as [H1|?]; [by specialize (Hg H1)|done].
    - destruct gone; tauto. }
  split.
  - intros m dm Hm Hdm. split; [destruct (Hget m dm Hm Hdm) as (d0 & Hd0 & Ht0 & _ & -> & _); by apply (tr_dir v I T m d0)|].
    intros n Hr Hnz. destruct (Hent m dm n Hm Hdm Hr Hnz) as (x & -> & _). by eexists.
  - intros m dm n x Hm Hdm Hr Hnz Hx. destruct (Hent m dm n Hm Hdm Hr Hnz) as (x' & Hx' & Hn'). congruence.
  - destruct (tr_root v I T) as (x & Hx & Hxn). apply (Hstay _ x Hx Hxn). intros Ej.
    destruct (decide (d_nlink dj = 1 \/ gone = true)) as [Hor|Hor]; [by destruct (Honly Hor)|]. destruct gone; tauto.
Qed.

Lemma add_nlink_relabelled n dj : dinode_ok dj -> relabelled dj (add_nlink n dj).
Proof. intros Hok. split; [by destruct dj|apply Hok|apply Hok|apply s16_range]. Qed.

Lemma nlink_less dj : dinode_ok dj -> 1 <= d_nlink dj -> d_nlink (add_nlink (-1) dj) = d_nlink dj - 1.
Proof. intros Hok Hn. pose proof (dk_nlink dj Hok) as [? ?]. cbn. unfold s16. rewrite Z.mod_small; lia. Qed.

Lemma nlink_more dj : 0 <= d_nlink dj < 2 ^ 15 - 1 -> d_nlink (add_nlink 1 dj) = d_nlink dj + 1.
Proof. intros Hn. cbn. unfold s16. rewrite Z.mod_small; lia. Qed.

(** No entry behind "." and "..". *)
Definition dir_empty (c : list Z) : bool := forallb (fun k => de_inum (entry c k) =? 0) (zrange 2 (zlen c / 16 - 1)).

Lemma dir_empty_true (c : list Z) : dir_empty c = true <-> forall k, 2 <= k < zlen c / 16 -> de_inum (entry c k) = 0.
Proof.
  unfold dir_empty. rewrite List.forallb_forall. setoid_rewrite <- list_elem_of_In. setoid_rewrite elem_of_zrange. setoid_rewrite Z.eqb_eq.
  split; intros H k Hk; apply H; lia.
Qed.

Definition is_dots (w : list Z) : bool := (namecmp w DOT =? 0) || (namecmp w DOTDOT =? 0).

Lemma is_dots_cong name w : name_of name = name_of w -> is_dots name = is_dots w.
Proof.
  intros E. unfold is_dots. assert (H : forall t, (namecmp name t =? 0) = (namecmp w t =? 0)); [|by rewrite !H].
  intros t. apply eq_true_iff_eq. rewrite !Z.eqb_eq, !namecmp_ok. by rewrite E.
Qed.

(** Something that unlink removes: not a directory, or an empty one. *)
Definition removable v I j : bool :=
  match I !! j with
  | Some dj => negb (d_type dj =? T_DIR) || dir_empty (fdata v dj)
  | None => false
  end.

(** Link counts are right where it matters, a directory is not its own entry under another name
    than "." and "..", and no process is in an empty directory that is removed; [R] are the
    references to the inodes. *)
Record unlinkable v I R (i0 : Z) (es : list (list Z)) : Prop := mkunlinkable {
  ul_nlink : forall j dj, I !! j = Some dj -> 0 <= d_nlink dj;
  ul_names : forall i w d, walk_parent v I i0 es = Some (i, w) -> I !! i = Some d -> names_ok (fdata v d);
  ul_self : forall i w, walk_parent v I i0 es = Some (i, w) -> is_dots w = false -> child v I i w <> Some i;
  ul_dir : forall i w d j dj, walk_parent v I i0 es = Some (i, w) -> child v I i w = Some j -> I !! i = Some d -> I !! j = Some dj ->
    d_type dj = T_DIR -> dir_empty (fdata v dj) = true -> 2 <= d_nlink d /\ (d_nlink dj = 1 -> R j = 0);
  ul_last : forall i w j dj d n, walk_parent v I i0 es = Some (i, w) -> child v I i w = Some j -> I !! j = Some dj -> d_nlink dj = 1 ->
    I !! i = Some d -> lookup_name (fdata v d) w = Some n -> only_link v I i n j /\ j <> ROOTINO }.

(** The inode that is unlinked, with its directory and name. *)
Definition target v I (i0 : Z) (es : list (list Z)) : option (Z * list Z * Z) :=
  match walk_parent v I i0 es with
  | Some (i, w) => if is_dots w then None else
                   match child v I i w with
                   | Some j => if removable v I j then Some (i, w, j) else None
                   | None => None
                   end
  | None => None
  end.

(** What unlinking does to the tree. *)
Definition unlink_effect v I R i0 es (r : Z) v' I' : Prop :=
  match target v I i0 es with
  | Some (i, w, j) => r = 0 /\ exists d dj n, I !! i = Some d /\ d_type d = T_DIR /\ I !! j = Some dj /\ i <> j /\
      lookup_name (fdata v d) w = Some n /\ unlinked v I i d n j dj (bool_decide (d_nlink dj = 1 /\ R j = 0)) v' I'
  | None => r = -1 /\ v' = v /\ I' = I
  end.

End tree.

(** ** create *)

Section create.
Context {S : Type} {B : BlockDev S} {L : BlockLaws S B} (sb : superblock) (Hsb : sb_ok sb) (pid : Z).
Context (devread : Z -> option (Z -> Z -> M (fs S) (option (list Z)))) (devwrite : Z -> option (Z -> list Z -> M (fs S) Z)) (junk : list Z).
Context (Hjunk : zlen junk = DIRSIZ) (Hnin : sb_ninodes sb <= 2 ^ 16).
Implicit Types (f : fs S) (v : view) (d nd : dinode) (I : gmap Z dinode) (R : Z -> Z) (i j ip dp : Z) (name path : list Z).
Abbreviation fstate := (fstate sb pid).

(** Enough free blocks for the entry, and for the block of a new directory. *)
Definition room_for type : Z := if type =? T_DIR then 4 else 1.

Definition create_fails type f v I d msg : Prop :=
  no_inode sb f I msg \/ no_room sb v d (room_for type) msg \/
  msg = "dirlink" /\ MAXFILE * BSIZE < 16 * first_empty (fdata v d) + 16.

(** The new inode, locked, with its fields on the disk. *)
Lemma wp_new_inode {A} (K : Z -> M (fs S) A) (Q : A -> fs S -> Prop) (E : string -> Prop) f v I R dp i d type major minor :
  fstate f v I {[dp]} R -> holds f dp i -> I !! i = Some d -> is_s16 type -> type <> 0 -> is_s16 major -> is_s16 minor ->
  vlog v = ∅ -> 1 <= max_op -> (forall msg, no_inode sb f I msg -> E msg) ->
  (forall ip j v' f', I !! j = None -> 0 < j < sb_ninodes sb -> ip <> dp ->
     let I' := <[j := fresh_inode type major minor]> I in fstate f' v' I' ({[ip]} ∪ {[dp]}) (more R j) -> holds f' ip j ->
     (forall jp m, holds f jp m -> holds f' jp m) -> vlog v' = {[IBLOCK sb j]} -> nfree sb v' = nfree sb v ->
     (forall m d0, I !! m = Some d0 -> fdata v' d0 = fdata v d0) -> wp (K ip) Q E f') ->
  wp (d ← gets (the_inode dp);
      ip ← ialloc sb (i_dev d) type;
      ilock sb pid ip;;
      upd_d ip (fun d => d <| d_major := major |> <| d_minor := minor |> <| d_nlink := 1 |>);;
      iupdate sb ip;;
      K ip) Q E f.
Proof.
  intros H Hh Hd Ht Ht0 Hmj Hmn Hlog Hmax Hfail HK. assert (Hdp : dp ∈ ({[dp]} : gset Z)) by set_solver.
  destruct (st_entry sb pid _ _ _ _ _ _ _ _ H Hh Hdp Hd) as (_ & _ & _ & _ & Hdev & _).
  eapply wp_step_run; [reflexivity|]. rewrite Hdev.
  eapply wp_step; [apply (ialloc_st sb Hsb pid f v I _ R type H Ht Ht0); rewrite Hlog, size_empty; lia| |done].
  intros ip f1 (j & Hj & Hnew & H1 & Hh1 & Hk1). set (I1 := <[j := new_dinode type]> I) in *. set (v1 := iwrote sb j (new_dinode type) v) in *.
  assert (Hne : ip <> dp). { intros ->. destruct Hh1 as [_ E1], (Hk1 _ _ Hh) as [_ E2]. congruence. }
  assert (HI1 : I1 !! j = Some (new_dinode type)) by apply lookup_insert_eq.
  eapply wp_step; [apply (ilock_st sb Hsb pid f1 v1 I1 _ _ ip j (new_dinode type) H1 Hh1); [set_solver|exact HI1]| |done]. intros [] f2 [H2 Hk2].
  assert (Hlog1 : vlog v1 = {[IBLOCK sb j]}) by (unfold v1, iwrote, wrote; cbn; rewrite Hlog; set_solver).
  eapply (wp_relabel sb Hsb pid _ _ _ f2 v1 I1 _ _ ip j (new_dinode type) _ H2 (Hk2 _ _ Hh1)); [set_solver|exact HI1|by split|..].
  { rewrite Hlog1, union_idemp_L, size_singleton. lia. }
  change ((new_dinode type) <| d_major := major |> <| d_minor := minor |> <| d_nlink := 1 |>) with (fresh_inode type major minor).
  unfold I1 at 1. rewrite insert_insert_eq. intros f3 H3 Hk3.
  apply (HK ip j (iwrote sb j (fresh_inode type major minor) v1) f3); auto.
  - unfold iwrote at 1, wrote. cbn -[v1]. rewrite Hlog1. set_solver.
  - unfold v1. by rewrite !(nfree_iwrote sb Hsb) by lia.
  - intros m d0 Hm. assert (Hm1 : I1 !! m = Some d0) by (unfold I1; rewrite lookup_insert_ne; [done|congruence]).
    rewrite (fdata_iwrote sb Hsb v1 I1 j _ m d0); [|apply (mo_inv _ _ _ _ _ (st_mounted _ _ _ _ _ _ _ H1))|lia|done].
    apply (fdata_iwrote sb Hsb v I j _ m d0); [apply (mo_inv _ _ _ _ _ (st_mounted _ _ _ _ _ _ _ H))|lia|done].
Qed.

Lemma st_nonneg f v I Lk R j : fstate f v I Lk R -> 0 <= R j.
Proof.
  intros H. rewrite <- (st_refs _ _ _ _ _ _ _ H j). apply (refs_nonneg _ I), (mo_cache _ _ _ _ _ (st_mounted _ _ _ _ _ _ _ H)).
Qed.

(** The link count of an inode changes, if [b]. *)
Lemma relink_wp (b : bool) n f v I Lk R ip i d : fstate f v I Lk R -> holds f ip i -> ip ∈ Lk -> I !! i = Some d ->
  Z.of_nat (size ({[IBLOCK sb i]} ∪ vlog v)) <= max_op ->
  wp (if b then upd_d ip (add_nlink n);; iupdate sb ip else mret tt)
    (fun _ f' => exists v', fstate f' v' (<[i := if b then add_nlink n d else d]> I) Lk R /\ (forall jp m, holds f jp m -> holds f' jp m) /\
       vlog v' ⊆ {[IBLOCK sb i]} ∪ vlog v /\ nfree sb v' = nfree sb v /\ forall m d0, I !! m = Some d0 -> fdata v' d0 = fdata v d0)
    (fun _ => False) f.
Proof.
  intros H Hh Hin Hd Hmax. destruct b; [|apply wp_ret; exists v; rewrite insert_id by done; split_and!; try done; clear; set_solver].
  pose proof (mo_inv _ _ _ _ _ (st_mounted _ _ _ _ _ _ _ H)) as HF. destruct (fi_inode sb v I HF i d Hd) as (Hr & Hok & _).
  set (Q := fun (_ : unit) f' => exists v', _). assert (W : wp (upd_d ip (add_nlink n);; iupdate sb ip;; mret tt) Q (fun _ => False) f).
  { apply (wp_relabel sb Hsb pid _ _ _ f v I Lk R ip i d); [done|done|done|done|by apply add_nlink_relabelled|done|]. intros f' H' Hk'. apply wp_ret.
    exists (iwrote sb i (add_nlink n d) v). split; [done|]. split; [done|]. split; [done|]. split; [apply (nfree_iwrote sb Hsb); lia|].
    intros m d0. apply (fdata_iwrote sb Hsb v I i _ m d0 HF). lia. }
  revert W. unfold wp, mbind, M_bind. destruct (upd_d ip (add_nlink n) f) as [[] f1|]; [|done]. by destruct (iupdate sb ip f1) as [[] f2|].
Qed.

Lemma first_dot j : 0 < j < 2 ^ 16 -> zlen (link_entry [] DOT j) = 16 /\ first_empty (link_entry [] DOT j) = 1.
Proof.
  intros Hj. assert (H0 : (16 | zlen (@nil Z))) by (by exists 0). destruct (link_size [] DOT j H0) as [H1 Hl]. change (first_empty []) with 0 in Hl. change (zlen []) with 0 in Hl.
  split; [lia|]. destruct (first_empty_range _ H1) as (F0 & F1 & F2). rewrite Hl in F1, F2. destruct (decide (first_empty (link_entry [] DOT j) = 0)) as [E|]; [|lia].
  exfalso. rewrite E in F2. specialize (F2 ltac:(lia)). destruct (link_inum [] DOT j 0 H0 Hj) as [E1|[H2 _]]; [rewrite Hl; done|lia|].
  change (zlen [] / 16) with 0 in H2. lia.
Qed.

(** A new inode: that of a directory has a block. *)
Definition new_inode type major minor nd : Prop :=
  if type =? T_DIR then nd = (fresh_inode type major minor) <| d_size := 32 |> <| d_addrs := d_addrs nd |> else nd = fresh_inode type major minor.

(** The new directory [j] in [i]. *)
Lemma create_dots_wp f v I R dp ip i j d major minor (nd := fresh_inode T_DIR major minor) :
  fstate f v I ({[ip]} ∪ {[dp]}) R -> holds f dp i -> holds f ip j -> i <> j -> I !! i = Some d -> I !! j = Some nd ->
  0 < i < 2 ^ 16 -> 0 < j < 2 ^ 16 -> vlog v = {[IBLOCK sb j]} -> Z.of_nat (size (bmaps sb)) + 8 <= max_op ->
  wp (create_dots sb pid devread devwrite dp ip)
    (fun _ f' => exists v' nd', fstate f' v' (<[j := nd']> (<[i := add_nlink 1 d]> I)) ({[ip]} ∪ {[dp]}) R /\ (forall jp m, holds f jp m -> holds f' jp m) /\
       new_inode T_DIR major minor nd' /\ fdata v' nd' = dots j i /\
       Z.of_nat (size (vlog v' ∪ bmaps sb)) <= Z.of_nat (size (bmaps sb)) + 5 /\ nfree sb v <= nfree sb v' + 3 /\
       forall m d0, m <> j -> I !! m = Some d0 -> fdata v' d0 = fdata v d0)
    (fun msg => msg = "balloc: out of blocks" /\ nfree sb v < 3) f.
Proof.
  intros H Hhd Hhj Hij Hd Hj Hi0 Hj0 Hlog Hmax. unfold create_dots. assert (Hip : ip ∈ ({[ip]} ∪ {[dp]} : gset Z)) by set_solver. assert (Hdp : dp ∈ ({[ip]} ∪ {[dp]} : gset Z)) by set_solver.
  assert (H1 : wp (if true then upd_d dp (add_nlink 1);; iupdate sb dp else mret tt) _ (fun _ => False) f) by (apply (relink_wp true 1 f v I _ R dp i d H Hhd Hdp Hd); rewrite Hlog; pose proof (size_add {[IBLOCK sb j]} (IBLOCK sb i)) as Hsz; rewrite size_singleton in Hsz; lia).
  match goal with |- wp (?m1 ≫= fun _ => ?m2 ≫= ?K) ?Q ?E ?g => assert (W : wp ((m1 ≫= fun _ => m2) ≫= K) Q E g); [|revert W; unfold wp, mbind, M_bind; by destruct (m1 g)] end.
  eapply wp_step; [exact H1| |done]. clear H1. cbn beta. intros [] f1 (v1 & H1 & Hk1 & Hl1 & Hf1 & Hs1). set (I1 := <[i := add_nlink 1 d]> I) in *.
  do 2 (eapply wp_step_run; [reflexivity|]). assert (Ej : i_inum (the_inode ip f1) = j) by apply (Hk1 _ _ Hhj). assert (Ei : i_inum (the_inode dp f1) = i) by apply (Hk1 _ _ Hhd). rewrite Ej, Ei.
  assert (HI1 : I1 !! j = Some nd) by (unfold I1; by rewrite lookup_insert_ne). assert (E0 : fdata v1 nd = []) by reflexivity.
  assert (Hdiv : (16 | zlen (@nil Z))) by (by exists 0). destruct (first_dot j Hj0) as [Hz1 Hfe].
  assert (Hphi : Phi sb v1 j nd <= Z.of_nat (size (bmaps sb)) + 3).
  { unfold Phi, base. change (indset nd) with (∅ : gset Z). change (flag nd) with 1. pose proof (size_add ({[IBLOCK sb j]} ∪ bmaps sb) (IBLOCK sb i)). pose proof (size_add (bmaps sb) (IBLOCK sb j)).
    pose proof (size_sub (vlog v1 ∪ bmaps sb ∪ {[IBLOCK sb j]} ∪ ∅) ({[IBLOCK sb i]} ∪ ({[IBLOCK sb j]} ∪ bmaps sb)) ltac:(rewrite Hlog in Hl1; clear -Hl1; set_solver)). lia. }
  eapply wp_step; [apply (dirlink_st sb Hsb pid devread devwrite f1 v1 I1 _ R ip j nd DOT j H1 (Hk1 _ _ Hhj) Hip HI1); rewrite ?E0; try done|..].
  - split; [done|]. change (zlen [] / 16) with 0. lia.
  - by concrete_bytes.
  - lia.
  - rewrite E0. intros r f2 (-> & v2 & d2 & W2 & D2 & H2 & Hk2). cbn [Z.ltb Z.compare].
    set (I2 := <[j := d2]> I1) in *. assert (HI2 : I2 !! j = Some d2) by apply lookup_insert_eq. pose proof (wf_meta _ _ _ _ _ _ _ _ _ W2) as M2. pose proof (wf_phi _ _ _ _ _ _ _ _ _ W2) as P2.
    pose proof (wf_free _ _ _ _ _ _ _ _ _ W2) as F2. rewrite zlen_dirent, nblocks_entry in P2, F2. rewrite zlen_dirent in M2. change (first_empty []) with 0 in M2, P2, F2. change (flag nd) with 1 in F2. assert (Hflag : 0 <= flag d2 <= 1) by (unfold flag; destruct (_ =? _); lia).
    eapply wp_step; [apply (dirlink_st sb Hsb pid devread devwrite f2 v2 I2 _ R ip j d2 DOTDOT i H2); rewrite ?D2; try done; auto|..].
    + by rewrite M2.
    + unfold I2. apply entries_link; [|done|by exists nd]. split; [done|]. change (zlen [] / 16) with 0. lia.
    + by concrete_bytes.
    + lia.
    + pose proof (found_link [] DOT DOTDOT j Hdiv Hj0 ltac:(done)) as Hf. rewrite decide_False in Hf by done. unfold found in Hf. by destruct (lookup_name _ DOTDOT).
    + rewrite D2, Hfe. intros r f3 (-> & v3 & d3 & W3 & D3 & H3 & Hk3). cbn [Z.ltb Z.compare]. apply wp_ret. exists v3, d3. unfold I2 in H3. rewrite insert_insert_eq in H3. split; [done|]. split; [auto|].
      pose proof (wf_meta _ _ _ _ _ _ _ _ _ W3) as M3. pose proof (wf_phi _ _ _ _ _ _ _ _ _ W3) as P3. pose proof (wf_free _ _ _ _ _ _ _ _ _ W3) as F3. rewrite zlen_dirent in M3. change (16 * 1) with 16 in M3, P3, F3.
      rewrite zlen_dirent in P3, F3. change (nblocks 16 16) with 1 in P3, F3. split; [|split; [done|split; [|split]]].
      * unfold new_inode. cbn [Z.eqb]. change (T_DIR =? T_DIR) with true. cbv iota. rewrite M2 in M3. rewrite M3. reflexivity.
      * pose proof (log_Phi sb v3 j d3). pose proof (size_sub (vlog v3 ∪ bmaps sb) ({[IBLOCK sb j]} ∪ (vlog v3 ∪ bmaps sb)) ltac:(clear; set_solver)). lia.
      * assert (0 <= flag d3) by (unfold flag; destruct (_ =? _); lia). lia.
      * intros m d0 Hm Hm0. assert (Hx : exists dx, I1 !! m = Some dx /\ forall v0, fdata v0 dx = fdata v0 d0).
        { unfold I1. destruct (decide (m = i)) as [->|]; [rewrite lookup_insert_eq; eexists; split; [done|]; by replace d0 with d by congruence|by exists d0; rewrite lookup_insert_ne]. }
        destruct Hx as (dx & Hx & Ex). rewrite <- !Ex, (wf_other _ _ _ _ _ _ _ _ _ W3 m dx), (wf_other _ _ _ _ _ _ _ _ _ W2 m dx), !Ex; [by apply (Hs1 m)|done|done|done|].
        unfold I2. by rewrite lookup_insert_ne.
    + intros msg [[-> Hfull]|[_ Hbig]]; [split; [done|lia]|]. rewrite D2, Hfe in Hbig. unfold MAXFILE, NDIRECT, NINDIRECT, BSIZE in Hbig. lia.
  - intros msg [[-> Hfull]|[_ Hbig]]; [split; [done|]; change (flag nd) with 1 in Hfull; lia|]. rewrite E0 in Hbig. change (first_empty []) with 0 in Hbig. unfold MAXFILE, NDIRECT, NINDIRECT, BSIZE in Hbig. lia.
Qed.

(** The entry for the new inode [j] in its directory. *)
Lemma link_new_wp f v v3 I R dp ip i j d d1 nd name : fstate f v3 (<[i := d1]> (<[j := nd]> I)) ({[ip]} ∪ {[dp]}) (more R j) -> holds f dp i -> holds f ip j -> ip <> dp ->
  0 < i < 2 ^ 16 -> 0 < j < 2 ^ 16 -> I !! j = None -> I !! i = Some d -> d_type d = T_DIR -> entries_ok (fdata v d) I -> lookup_name (fdata v d) name = None -> Forall is_u8 (name_of name) ->
  d_type d1 = d_type d -> d_nlink d1 = d_nlink d + back_link nd -> fdata v3 d1 = fdata v d -> (d_type nd = T_DIR -> fdata v3 nd = dots j i) ->
  (forall m d0, m <> i -> I !! m = Some d0 -> fdata v3 d0 = fdata v d0) -> d_nlink d1 <> 0 \/ 2 <= R i -> 0 <= R j -> Phi sb v3 i d1 + 1 <= max_op ->
  wp (i ← gets (the_inode ip);
      r ← dirlink sb pid devread devwrite dp name (i_inum i);
      if r <? 0 then panic "create: dirlink" else
      iunlockput sb pid dp;;
      mret ip)
    (fun ip' f' => ip' = ip /\ exists v' I', entered v I i d name j nd v' I' /\ fstate f' v' I' {[ip]} (more (less R i) j) /\ holds f' ip j /\
       forall jp m, holds f jp m -> 0 < more (less R i) j m -> holds f' jp m)
    (fun msg => no_room sb v3 d1 1 msg \/ msg = "dirlink" /\ MAXFILE * BSIZE < 16 * first_empty (fdata v d) + 16) f.
Proof.
  intros H Hhd Hhj Hne Hi0 Hj0 Hnew Hd Hty HE Hno Hn Hty1 Hnl1 Hdat1 Hsub Hsame Hor HRj Hphi. assert (Hij : i <> j) by congruence. set (I3 := <[i := d1]> (<[j := nd]> I)) in *.
  assert (Hdp : dp ∈ ({[ip]} ∪ {[dp]} : gset Z)) by set_solver. eapply wp_step_run; [reflexivity|]. assert (Hin : i_inum (the_inode ip f) = j) by apply Hhj. rewrite Hin.
  eapply wp_step; [apply (dirlink_st sb Hsb pid devread devwrite f v3 I3 _ _ dp i d1 name j H Hhd Hdp); rewrite ?Hdat1; try done|..].
  - apply lookup_insert_eq.
  - congruence.
  - destruct (entries_more _ I j nd Hnew HE) as [Hdv HE2]. split; [done|]. intros k Hk Hnz. unfold I3. rewrite lookup_insert_is_Some'. right. by apply HE2.
  - intros r f4 (-> & v' & d' & W & Hdat & H4 & Hk4). cbn [Z.ltb Z.compare]. rewrite Hdat1 in Hdat.
    pose proof (f_equal d_nlink (wf_meta _ _ _ _ _ _ _ _ _ W)) as Hnl. pose proof (f_equal d_type (wf_meta _ _ _ _ _ _ _ _ _ W)) as Hty'. cbn in Hnl, Hty'.
    eapply wp_step; [apply (iunlockput_st sb Hsb pid f4 v' _ _ _ dp i d' H4); auto| |done].
    { apply lookup_insert_eq. }
    { rewrite Hnl. destruct Hor; [by left|right]. unfold more. rewrite decide_False by done. lia. }
    intros [] f5 [H5 Hk5]. apply wp_ret. split; [done|]. exists v', (<[i := d']> (<[j := nd]> I)). split; [|split; [|split]].
    + split; [done|done|done| | |].
      * exists d'. split; [done|]. split; [done|]. split; congruence.
      * intros Hnd. rewrite <- (Hsub Hnd). apply (wf_other _ _ _ _ _ _ _ _ _ W j); [done|]. unfold I3. by rewrite lookup_insert_ne, lookup_insert_eq.
      * intros m d0 Hm Hm0. rewrite (wf_other _ _ _ _ _ _ _ _ _ W m d0 Hm); [by apply (Hsame m)|]. unfold I3. rewrite !lookup_insert_ne by congruence. done.
    + unfold I3 in H5. rewrite insert_insert_eq in H5. replace ({[ip]} : gset Z) with (({[ip]} ∪ {[dp]}) ∖ {[dp]} : gset Z) by set_solver. eapply fstate_ext; [exact H5|].
      intros m. unfold less, more. lia.
    + apply Hk5; [auto|]. unfold less, more. rewrite decide_True, decide_False by done. lia.
    + intros jp m Hm Hpos. apply Hk5; [auto|]. unfold less, more in *. lia.
  - intros msg [Hm|[-> Hbig]]; [by left|right]. rewrite Hdat1 in Hbig. done.
Qed.

Lemma create_new_st f v I R dp i d name type major minor :
  fstate f v I {[dp]} R -> holds f dp i -> I !! i = Some d -> d_type d = T_DIR -> entries_ok (fdata v d) I ->
  lookup_name (fdata v d) name = None -> Forall is_u8 (name_of name) -> is_s16 type -> type <> 0 -> (type = T_DIR -> 0 <= d_nlink d < 2 ^ 15 - 1) ->
  is_s16 major -> is_s16 minor -> d_nlink d <> 0 \/ 2 <= R i -> vlog v = ∅ -> Z.of_nat (size (bmaps sb)) + (if type =? T_DIR then 8 else 4) <= max_op ->
  wp (create_new sb pid devread devwrite dp name type major minor)
    (fun ip f' => exists j nd v' I', new_inode type major minor nd /\ entered v I i d name j nd v' I' /\
       fstate f' v' I' {[ip]} (more (less R i) j) /\ holds f' ip j /\
       forall jp m, holds f jp m -> 0 < more (less R i) j m -> holds f' jp m)
    (create_fails type f v I d) f.
Proof.
  intros H Hh Hd Hty HE Hno Hn Ht Ht0 Htd Hmj Hmn Hor Hlog Hmax. assert (Hb : 0 <= Z.of_nat (size (bmaps sb))) by lia.
  pose proof (mo_inv _ _ _ _ _ (st_mounted _ _ _ _ _ _ _ H)) as HF. destruct (fi_inode sb v I HF i d Hd) as (Hi0 & _). assert (Hi : 0 < i < 2 ^ 16) by lia.
  unfold create_new. eapply (wp_new_inode _ _ _ f v I R dp i d); try done; [destruct (type =? T_DIR); lia|intros msg Hm; by left|].
  intros ip j v2 f3 Hnew Hj0 Hne I2 H3 Hh3 Hk3 Hlog2 Hfree Hsame. assert (Hij : i <> j) by congruence. assert (Hj : 0 < j < 2 ^ 16) by lia.
  pose proof (st_nonneg _ _ _ _ _ j H) as HRj. destruct (Z.eqb_spec type T_DIR) as [->|Htne].
  - specialize (Htd eq_refl). eapply wp_step; [apply (create_dots_wp f3 v2 I2 (more R j) dp ip i j d major minor H3 (Hk3 _ _ Hh) Hh3); try done; [by unfold I2; rewrite lookup_insert_ne|apply lookup_insert_eq]| |].
    2: { intros msg [-> Hfull]. right. left. split; [done|]. change (room_for T_DIR) with 4. rewrite Hfree in Hfull. unfold flag. destruct (_ =? _); lia. }
    intros [] f4 (v3 & nd & H4 & Hk4 & Hnd & Hdd & Hl & Hf & Hs). unfold I2 in H4. rewrite insert_insert_ne, insert_insert_eq in H4 by done.
    assert (Hnt : d_type nd = T_DIR) by (rewrite Hnd; done). pose proof (nlink_more d Htd) as Hnl.
    eapply wp_mono; [apply (link_new_wp f4 v v3 I R dp ip i j d (add_nlink 1 d) nd name H4); try done; auto|..].
    + unfold back_link. rewrite Hnt. exact Hnl.
    + change (fdata v3 d = fdata v d). rewrite (Hs i d) by (done || by unfold I2; rewrite lookup_insert_ne). by apply (Hsame i).
    + intros m d0 Hm Hm0. assert (m <> j) by congruence. rewrite (Hs m d0) by (done || by unfold I2; rewrite lookup_insert_ne). by apply (Hsame m).
    + left. lia.
    + pose proof (Phi_room sb v3 i (add_nlink 1 d)). lia.
    + intros ip' f5 (-> & v' & I' & En & H5 & Hh5 & Hk5). exists j, nd, v', I'. split_and!; try done. intros jp m Hm. apply Hk5. auto.
    + intros msg [[-> Hfull]|Hm]; right; [left|by right]. split; [done|]. change (room_for T_DIR) with 4. change (flag (add_nlink 1 d)) with (flag d) in Hfull. lia.
  - eapply wp_step_run; [reflexivity|]. set (nd := fresh_inode type major minor) in *. assert (Hnt : d_type nd <> T_DIR) by done. assert (HI2 : I2 = <[i := d]> I2) by (symmetry; apply insert_id; unfold I2; by rewrite lookup_insert_ne).
    rewrite HI2 in H3. eapply wp_mono; [apply (link_new_wp f3 v v2 I R dp ip i j d d nd name H3); try done; auto|..].
    + unfold back_link. rewrite (proj2 (Z.eqb_neq _ _) Hnt). lia.
    + by apply (Hsame i).
    + intros m d0 _. by apply Hsame.
    + pose proof (Phi_le sb v2 i d) as HP. rewrite Hlog2, size_singleton in HP. lia.
    + intros ip' f5 (-> & v' & I' & En & H5 & Hh5 & Hk5). exists j, nd, v', I'. split; [unfold new_inode; by rewrite (proj2 (Z.eqb_neq _ _) Htne)|]. split_and!; try done. intros jp m Hm. apply Hk5. auto.
    + intros msg [[-> Hfull]|Hm]; right; [left|by right]. split; [done|]. rewrite Hfree in Hfull. unfold room_for. by rewrite (proj2 (Z.eqb_neq _ _) Htne).
Qed.


(** The ends of calls on a locked inode. *)
Lemma leave_st f0 f v I R ip i d : tree_ok v I -> fstate f0 v I ∅ R -> fstate f v I {[ip]} (more R i) -> holds f ip i -> keeps f0 f -> I !! i = Some d ->
  d_nlink d <> 0 \/ 0 < R i -> wp (iunlockput sb pid ip) (fun _ => restored sb pid f0 v I R) (fun _ => False) f.
Proof.
  intros T H0 H Hh Hk Hd Hor. by apply (leave_wp sb Hsb pid f0 v I R H0 T ip i d f); [|done|exists d].
Qed.

Lemma walk_parent_kept v I R es : tree_ok v I -> forall i j w, kept I R i -> walk_parent v I i es = Some (j, w) -> kept I R j.
Proof.
  intros T. induction es as [|u es IH]; intros i j w K; [done|]. cbn [walk_parent]. destruct es as [|u' es'].
  - destruct (is_dir I i); [|done]. by injection 1 as <- <-.
  - destruct (child v I i u) as [m|] eqn:Em; [|done]. cbn. apply IH. destruct (child_linked v I i u m T Em) as (x & Hx & Hn). exists x. auto.
Qed.

Lemma start_kept f v I R cwd path : fstate f v I ∅ R -> tree_ok v I -> used (icache f) cwd -> kept I R (start f cwd path).
Proof.
  intros H T HU. pose proof (mo_cache _ _ _ _ _ (st_mounted _ _ _ _ _ _ _ H)) as HC. unfold start. destruct (chr path =? SLASH).
  - destruct (tr_root v I T) as (x & Hx & Hn). exists x. auto.
  - destruct (ca_inode _ _ HC cwd HU) as [x Hx]. exists x. split; [done|right].
    rewrite (st_ref sb pid _ _ _ _ _ cwd _ H (conj HU eq_refl)). apply HU.
Qed.

(** The parent directory and the last name of the path. *)
Lemma nameiparent_wp f v I R cwd path : fstate f v I ∅ R -> tree_ok v I -> used (icache f) cwd -> Forall is_u8 path ->
  wp (nameiparent sb pid devread cwd path junk)
    (fun r f' =>
       match walk_parent v I (start f cwd path) (FsPath.elements path []) with
       | None => fst r = None /\ restored sb pid f v I R f'
       | Some (i, w) => exists dp name d, r = (Some dp, name) /\ name_of name = w /\ Forall is_u8 w /\ I !! i = Some d /\ d_type d = T_DIR /\
           (d_nlink d <> 0 \/ 0 < R i) /\ at_inode sb pid f v I R dp i f'
       end) (crowded f) f.
Proof.
  intros H T HU Hp. unfold nameiparent. eapply wp_mono; [by apply (namex_wp sb Hsb pid devread f v I R cwd path true junk)| |done].
  unfold resolved. intros [r name] f' Hr. destruct (walk_parent v I _ _) as [[i w]|] eqn:Ew; [|done]. cbn in Hr.
  destruct Hr as (dp & -> & Hn & A). destruct (walk_parent_kept v I R _ T _ _ _ (start_kept f v I R cwd path H T HU) Ew) as (d & Hd & Hor).
  exists dp, name, d. split_and!; [done|done| |done| |done|done].
  - eapply walk_parent_bytes; [|exact Ew]. by apply elements_bytes.
  - destruct (walk_parent_dir _ _ _ _ _ _ Ew) as [Hdir _]. unfold is_dir in Hdir. rewrite Hd in Hdir. by apply Z.eqb_eq.
Qed.

Definition is_file I j : bool := match I !! j with Some d => d_type d =? T_FILE | None => false end.

(** What create does. *)
Definition creates f v I R i0 es type major minor (r : option Z) f' : Prop :=
  match walk_parent v I i0 es with
  | None => r = None /\ restored sb pid f v I R f'
  | Some (i, w) =>
      match child v I i w with
      | Some j =>
          if (type =? T_FILE) && is_file I j
          then exists ip, r = Some ip /\ fstate f' v I {[ip]} (more R j) /\ holds f' ip j /\ keeps f f'
          else r = None /\ restored sb pid f v I R f'
      | None => exists ip j d name nd v' I', r = Some ip /\ I !! i = Some d /\ name_of name = w /\
          new_inode type major minor nd /\ entered v I i d name j nd v' I' /\
          fstate f' v' I' {[ip]} (more R j) /\ holds f' ip j /\ keeps f f'
      end
  end.

(** The disk or the inode cache is full. *)
Definition no_space f v I i0 es type msg : Prop :=
  crowded f msg \/ (msg = "ialloc: no inodes" /\ forall i, 0 < i < sb_ninodes sb -> is_Some (I !! i)) \/
  exists i w d, walk_parent v I i0 es = Some (i, w) /\ I !! i = Some d /\
    (no_room sb v d (room_for type) msg \/ msg = "dirlink" /\ MAXFILE * BSIZE < 16 * first_empty (fdata v d) + 16).

(** The name exists already. *)
Lemma create_old_wp f f2 f3 v I R dp i d w ip j type major minor es i0 : fstate f v I ∅ R -> tree_ok v I -> walk_parent v I i0 es = Some (i, w) ->
  I !! i = Some d -> d_nlink d <> 0 \/ 0 < R i -> fstate f2 v I {[dp]} (more R i) -> holds f2 dp i -> keeps f f2 -> child v I i w = Some j ->
  fstate f3 v I {[dp]} (more (more R i) j) -> holds f3 ip j -> (forall jp m, holds f2 jp m -> holds f3 jp m) ->
  wp (iunlockput sb pid dp;;
      ilock sb pid ip;;
      i ← gets (the_inode ip);
      if (type =? T_FILE) && (d_type (i_d i) =? T_FILE) then mret (Some ip)
      else iunlockput sb pid ip;; mret None)
    (creates f v I R i0 es type major minor) (no_space f v I i0 es type) f3.
Proof.
  intros H T Ew Hd Hor H2 Hh2 Hk2 Hcj H3 Hh3 Hk3. unfold creates. rewrite Ew, Hcj.
  destruct (child_linked v I i w j T Hcj) as (dj & Hdj & Hnj).
  eapply wp_step; [apply (move_wp sb Hsb pid f v I R H T dp i d f2 ip j f3); [by split|done|by exists d|done..]| |done]. intros [] f4 A4.
  eapply wp_step; [by apply (ilock_at_wp sb Hsb pid f v I R H T ip j dj f4)| |done]. intros [] f5 [H5 Hh5 Hk5].
  eapply wp_step_run; [reflexivity|]. assert (Hip : ip ∈ ({[ip]} : gset Z)) by set_solver.
  destruct (st_entry sb pid _ _ _ _ _ _ _ _ H5 Hh5 Hip Hdj) as (_ & _ & -> & _). unfold is_file. rewrite Hdj.
  destruct ((type =? T_FILE) && (d_type dj =? T_FILE)); [apply wp_ret; by exists ip|].
  eapply wp_step; [apply (leave_st f f5 v I R ip j dj); try done; by left| |done]. intros [] f6 Rs. by apply wp_ret.
Qed.

Lemma create_wp f v I R cwd path type major minor : fstate f v I ∅ R -> tree_ok v I -> used (icache f) cwd -> Forall is_u8 path ->
  is_s16 type -> type <> 0 -> (type = T_DIR -> forall i d, I !! i = Some d -> 0 <= d_nlink d < 2 ^ 15 - 1) -> is_s16 major -> is_s16 minor -> vlog v = ∅ ->
  Z.of_nat (size (bmaps sb)) + (if type =? T_DIR then 8 else 4) <= max_op ->
  let i0 := start f cwd path in let es := FsPath.elements path [] in
  wp (create sb pid devread devwrite junk cwd path type major minor) (creates f v I R i0 es type major minor) (no_space f v I i0 es type) f.
Proof.
  intros H T HU Hp Ht Ht0 Htd Hmj Hmn Hlog Hmax i0 es. unfold create.
  eapply wp_step; [by apply (nameiparent_wp f v I R cwd path)| |intros msg Hm; by left]. fold i0 es.
  intros r f1 Hr. destruct (walk_parent v I i0 es) as [[i w]|] eqn:Ew.
  2: { destruct r as [r name]. destruct Hr as [Hr Rs]. cbn in Hr. subst r. apply wp_ret. unfold creates. by rewrite Ew. }
  destruct Hr as (dp & name & d & -> & Hn & Hw & Hd & Hty & Hor & A).
  eapply wp_step; [by apply (ilock_at_wp sb Hsb pid f v I R H T dp i d f1)| |done]. intros [] f2 [H2 Hh2 Hk2].
  pose proof (tr_dir v I T i d Hd Hty) as HE. assert (Hdp : dp ∈ ({[dp]} : gset Z)) by set_solver.
  assert (Hch : child v I i w = found (fdata v d) name).
  { unfold child. rewrite Hd, Hty. cbn. unfold found. rewrite (lookup_name_cong _ name w); [done|]. rewrite Hn. symmetry.
    by apply (walk_parent_dir v I es i0 i w). }
  eapply wp_step; [by apply (dirlookup_st sb Hsb pid devread f2 v I _ _ dp i d name H2 Hh2 Hdp Hd Hty HE)| |].
  2: { intros msg (k & _ & Hfull). left. by eapply (crowded_ok sb pid f v I R H f2). }
  unfold found in Hch. intros r f3 [Hr Hk3]. destruct (lookup_name (fdata v d) name) as [k|] eqn:Ek.
  - destruct Hr as (ip & -> & H3 & Hh3). by apply (create_old_wp f f2 f3 v I R dp i d w ip _ type major minor es i0 H T Ew Hd Hor H2 Hh2 Hk2 Hch).
  - destruct Hr as [-> H3].
    eapply wp_step; [apply (create_new_st f3 v I _ dp i d name type major minor H3); try done; auto|..].
    + by rewrite Hn.
    + intros Etd. by apply (Htd Etd i).
    + destruct Hor; [by left|right]. unfold more. rewrite decide_True by done. lia.
    + intros ip f4 (j & nd & v' & I' & Hnd & En & H4 & Hh4 & Hk4). apply wp_ret. unfold creates. rewrite Ew, Hch. exists ip, j, d, name, nd, v', I'.
      assert (E : forall m, more (less (more R i) i) j m = more R j m) by (intros m; unfold more, less; lia).
      split_and!; try done; [by eapply fstate_ext|]. intros jp m Hm. apply Hk4; [by apply Hk3, Hk2|]. rewrite E.
      pose proof (kept_held sb pid f v I R H jp m Hm). unfold more. case_decide; lia.
    + intros msg [[Hno|[m Hfull]]|Hm]; [right; by left|left; by eapply (crowded_ok sb pid f v I R H f3)|right; right].
      by exists i, w, d.
Qed.

(** ** unlink *)

(** The last part of sys_unlink: the link is gone, and perhaps the file. *)
Lemma drop_link_wp f v I R ip j dj : fstate f v I {[ip]} (more R j) -> holds f ip j -> I !! j = Some dj -> 1 <= d_nlink dj -> 0 <= R j ->
  Z.of_nat (size ({[IBLOCK sb j]} ∪ (vlog v ∪ bmaps sb))) <= max_op ->
  let gone := bool_decide (d_nlink dj = 1 /\ R j = 0) in
  wp (upd_d ip (add_nlink (-1));; iupdate sb ip;; iunlockput sb pid ip;; mret 0)
    (fun r f' => r = 0 /\ exists v' I', I' = (if gone then delete j I else <[j := add_nlink (-1) dj]> I) /\
       fstate f' v' I' ∅ R /\ (forall jp m, holds f jp m -> 0 < R m -> holds f' jp m) /\
       forall m d0, (m = j -> gone = false) -> I !! m = Some d0 -> fdata v' d0 = fdata v d0)
    (fun _ => False) f.
Proof.
  intros H Hh Hj Hn HR Hmax gone. assert (Hin : ip ∈ ({[ip]} : gset Z)) by set_solver.
  pose proof (mo_inv _ _ _ _ _ (st_mounted _ _ _ _ _ _ _ H)) as HF. destruct (fi_inode sb v I HF j dj Hj) as (Hr & Hok & _).
  pose proof (add_nlink_relabelled (-1) dj Hok) as HRl. pose proof (nlink_less dj Hok Hn) as Hnl. set (dj' := add_nlink (-1) dj) in *.
  eapply (wp_relabel sb Hsb pid _ _ _ f v I _ _ ip j dj (add_nlink (-1)) H Hh Hin Hj HRl).
  { etransitivity; [|exact Hmax]. apply size_sub. clear. set_solver. }
  fold dj'. intros f1 H1 Hk1. set (v1 := iwrote sb j dj' v) in *. set (I1 := <[j := dj']> I) in *.
  assert (HI1 : I1 !! j = Some dj') by apply lookup_insert_eq.
  assert (Hsame : forall m d0, I !! m = Some d0 -> fdata v1 d0 = fdata v d0) by (intros m d0; by apply (fdata_iwrote sb Hsb v I j _ m d0 HF); lia).
  assert (Hmore : more R j j = R j + 1) by (unfold more; by rewrite decide_True).
  assert (Hlm : forall m, less (more R j) j m = R m) by (intros m; unfold less, more; lia).
  unfold gone. case_bool_decide as Hg.
  - destruct Hg as [Hn1 HR0].
    eapply wp_step; [apply (iunlockput_free sb Hsb pid f1 v1 I1 _ _ ip j dj' H1 (Hk1 _ _ Hh) Hin HI1); [lia|lia|]| |done].
    { etransitivity; [|exact Hmax]. apply size_sub. unfold v1, iwrote, wrote. cbn. clear. set_solver. }
    intros [] f2 (v' & Rl & H2 & Hk2). apply wp_ret. split; [done|]. exists v', (delete j I). split; [done|].
    unfold I1 in H2. rewrite delete_insert_eq, difference_diag_L in H2. split; [by eapply fstate_ext|]. split.
    + intros jp m Hm Hpos. apply Hk2; [auto|]. by rewrite Hlm.
    + intros m d0 Hm Hm0. assert (m <> j) by (intros ->; by specialize (Hm eq_refl)).
      rewrite (re_other _ _ _ _ _ _ Rl m d0); [by eapply Hsame|done|]. unfold I1. by rewrite lookup_insert_ne.
  - eapply wp_step; [apply (iunlockput_st sb Hsb pid f1 v1 I1 _ _ ip j dj' H1 (Hk1 _ _ Hh) Hin HI1)| |done].
    { destruct (decide (d_nlink dj = 1)); [right|left]; lia. }
    intros [] f2 [H2 Hk2]. apply wp_ret. split; [done|]. exists v1, I1. split; [done|]. rewrite difference_diag_L in H2.
    split; [by eapply fstate_ext|]. split; [|intros m d0 _; by apply Hsame].
    intros jp m Hm Hpos. apply Hk2; [auto|]. by rewrite Hlm.
Qed.

Lemma unlink_entry_wp f v I R dp ip i j d dj k :
  fstate f v I ({[ip]} ∪ {[dp]}) (more (more R i) j) -> holds f dp i -> holds f ip j -> ip <> dp -> i <> j ->
  I !! i = Some d -> d_type d = T_DIR -> I !! j = Some dj -> (d_type dj = T_DIR -> 2 <= d_nlink d) -> 1 <= d_nlink dj ->
  d_nlink d <> 0 \/ 0 < R i -> 0 <= R i -> 0 <= R j -> 0 <= k -> 16 * k + 16 <= d_size d -> vlog v = ∅ -> Z.of_nat (size (bmaps sb)) + 4 <= max_op ->
  wp (unlink_entry sb pid devwrite dp ip (16 * k))
    (fun r f' => r = 0 /\ exists v' I', unlinked v I i d k j dj (bool_decide (d_nlink dj = 1 /\ R j = 0)) v' I' /\
       fstate f' v' I' ∅ R /\ forall jp m, holds f jp m -> 0 < R m -> holds f' jp m)
    (fun _ => False) f.
Proof.
  intros H Hhd Hhj Hne Hij Hd Hty Hj Hdd Hnj Hor HRi HRj Hk Hend Hlog Hmax. unfold unlink_entry.
  pose proof (mo_inv _ _ _ _ _ (st_mounted _ _ _ _ _ _ _ H)) as HF. destruct (fi_size sb v I HF i d Hd) as [Hsz _].
  assert (Hphi : Phi sb v i d <= Z.of_nat (size (bmaps sb)) + 2) by (pose proof (Phi_le sb v i d) as HP; rewrite Hlog, size_empty in HP; lia).
  assert (Hzl : zlen (replicate 16 0) = 16) by done. pose proof (nblocks_entry k) as Hnb.
  eapply wp_step; [apply (writei_st sb Hsb pid devwrite f v I _ _ dp i d (replicate 16 0) (16 * k) H Hhd)|..].
  - set_solver.
  - done.
  - by rewrite Hty.
  - by apply Forall_replicate.
  - lia.
  - rewrite Hzl. lia.
  - rewrite Hzl, Hnb. lia.
  - intros r f1 (-> & v1 & d1 & W & H1 & Hk1). rewrite Hzl. cbn [negb Z.eqb]. change (16 =? dirent_size) with true. cbn [negb].
    pose proof (wf_meta _ _ _ _ _ _ _ _ _ W) as Hm. pose proof (f_equal d_nlink Hm) as Hnl. pose proof (f_equal d_type Hm) as Hty1. cbn in Hnl, Hty1.
    eapply wp_step_run; [reflexivity|]. set (I1 := <[i := d1]> I) in *. assert (HI1 : I1 !! j = Some dj) by (unfold I1; by rewrite lookup_insert_ne).
    assert (Hip : ip ∈ ({[ip]} ∪ {[dp]} : gset Z)) by set_solver.
    destruct (st_entry sb pid _ _ _ _ _ _ _ _ H1 (Hk1 _ _ Hhj) Hip HI1) as (_ & _ & -> & _).
    pose proof (wf_phi _ _ _ _ _ _ _ _ _ W) as HP. rewrite Hzl, Hnb in HP. pose proof (log_Phi sb v1 i d1) as HL1.
    assert (Hdp : dp ∈ ({[ip]} ∪ {[dp]} : gset Z)) by set_solver. assert (Hi1 : I1 !! i = Some d1) by apply lookup_insert_eq.
    eapply wp_step; [apply (relink_wp (d_type dj =? T_DIR) (-1) f1 v1 I1 _ _ dp i d1 H1 (Hk1 _ _ Hhd) Hdp Hi1)| |done].
    { pose proof (size_sub ({[IBLOCK sb i]} ∪ vlog v1) ({[IBLOCK sb i]} ∪ (vlog v1 ∪ bmaps sb)) ltac:(clear; set_solver)). lia. }
    intros [] fa (va & Ha & Hka & Hla & _ & Hsa). set (da := if d_type dj =? T_DIR then add_nlink (-1) d1 else d1) in *.
    assert (Hda : d_type da = d_type d /\ d_nlink da = d_nlink d - back_link dj /\ forall v0, fdata v0 da = fdata v0 d1).
    { destruct (fi_inode sb v1 I1 (mo_inv _ _ _ _ _ (st_mounted _ _ _ _ _ _ _ H1)) i d1 Hi1) as (_ & Hok1 & _). unfold da, back_link.
      destruct (Z.eqb_spec (d_type dj) T_DIR) as [Et|]; [|split_and!; [done|lia|done]]. split; [done|]. split; [|done]. rewrite (nlink_less d1 Hok1); specialize (Hdd Et); lia. }
    destruct Hda as (Hta & Hna & Hfa). assert (HIa : <[i := da]> I1 = <[i := da]> I) by (unfold I1; apply insert_insert_eq). rewrite HIa in Ha. set (Ia := <[i := da]> I) in *.
    eapply wp_step; [apply (iunlockput_st sb Hsb pid fa va Ia _ _ dp i da Ha (Hka _ _ (Hk1 _ _ Hhd)) Hdp); [apply lookup_insert_eq|]| |done].
    { rewrite Hna. unfold back_link. destruct (Z.eqb_spec (d_type dj) T_DIR) as [Et|]; [left; specialize (Hdd Et); lia|].
      destruct Hor; [left; lia|right]. unfold more. rewrite decide_True, decide_False by done. lia. }
    intros [] f2 [H2 Hk2]. replace (({[ip]} ∪ {[dp]}) ∖ {[dp]} : gset Z) with ({[ip]} : gset Z) in H2 by set_solver.
    assert (E : forall m, less (more (more R i) j) i m = more R j m) by (intros m; unfold less, more; lia).
    assert (Hh2 : holds f2 ip j). { apply Hk2; [auto|]. rewrite E. unfold more. rewrite decide_True by done. lia. }
    eapply wp_mono; [apply (drop_link_wp f2 va Ia R ip j dj); [by eapply fstate_ext|done|unfold Ia; by rewrite lookup_insert_ne|done..|]| |done].
    { pose proof (size_add ({[IBLOCK sb i]} ∪ (vlog v1 ∪ bmaps sb)) (IBLOCK sb j)).
      pose proof (size_sub ({[IBLOCK sb j]} ∪ (vlog va ∪ bmaps sb)) ({[IBLOCK sb j]} ∪ ({[IBLOCK sb i]} ∪ (vlog v1 ∪ bmaps sb))) ltac:(apply union_mono_l; rewrite (assoc_L (∪)); by apply union_mono_r)). lia. }
    cbn beta. set (gone := bool_decide _). intros r f3 (-> & v' & I' & -> & H3 & Hk3 & Ho). split; [done|].
    exists v', (if gone then delete j Ia else <[j := add_nlink (-1) dj]> Ia). split; [|split; [done|]].
    + split.
      * exists da. split; [by destruct gone|]. split; [|done]. rewrite (Ho i da), Hfa; [|intros ->; done|apply lookup_insert_eq]. rewrite (Hsa i d1) by done. apply W.
      * intros m d0 Hmi Hmj Hm0. rewrite (Ho m d0), (Hsa m d0); [by apply (wf_other _ _ _ _ _ _ _ _ _ W m)|by unfold I1; rewrite lookup_insert_ne|done|]. unfold Ia. by rewrite lookup_insert_ne.
    + intros jp m Hjp Hpos. apply Hk3; [|done]. apply Hk2; [auto|]. rewrite E. unfold more. case_decide; lia.
  - intros msg [_ Hlt]. rewrite Hzl in Hlt. lia.
Qed.

Lemma isdirempty_loop_wp v I Lk R ip j dj q fuel : I !! j = Some dj -> d_type dj = T_DIR -> ip ∈ Lk -> zlen (fdata v dj) = 16 * q -> d_size dj = 16 * q ->
  forall f k, fstate f v I Lk R -> holds f ip j -> 2 <= k -> q - k < Z.of_nat fuel ->
  (forall m, 2 <= m < Z.min k q -> de_inum (entry (fdata v dj) m) = 0) ->
  wp (isdirempty_loop sb devread fuel ip (16 * k))
    (fun b f' => b = dir_empty (fdata v dj) /\ fstate f' v I Lk R /\ forall jp m, holds f jp m -> holds f' jp m) (fun _ => False) f.
Proof.
  intros Hj Hty Hin Hc Hs. assert (Hq : zlen (fdata v dj) / 16 = q) by (rewrite Hc, Z.mul_comm; apply Z.div_mul; lia).
  induction fuel as [|fuel IH]; intros f k H Hh Hk Hf Hno; cbn [isdirempty_loop].
  { apply wp_ret. split; [|done]. symmetry. apply dir_empty_true. rewrite Hq. intros m Hm. apply Hno. lia. }
  destruct (st_entry sb pid _ _ _ _ _ _ _ _ H Hh Hin Hj) as (HU & Hv & Ed & _). eapply wp_step_run; [reflexivity|]. rewrite Ed, Hs.
  destruct (Z.leb_spec (16 * q) (16 * k)) as [Hge|Hlt].
  { apply wp_ret. split; [|done]. symmetry. apply dir_empty_true. rewrite Hq. intros m Hm. apply Hno. lia. }
  pose proof (mounted_open sb f v I ∅ ip (st_mounted _ _ _ _ _ _ _ H) HU Hv) as HO.
  eapply wp_step; [apply (read_dirent_wp sb Hsb devread _ f ip _ v I k HO); [by rewrite Ed|lia|rewrite Ed; lia]| |done].
  rewrite Ed. intros b f1 (-> & s1 & -> & Hs1).
  destruct (fstate_same sb pid f v I Lk R (mkfs s1 (icache f)) H eq_refl (mounted_dev sb f v I ∅ s1 (st_mounted _ _ _ _ _ _ _ H) Hs1)) as [H1 Hk1].
  destruct (Z.eqb_spec (de_inum (entry (fdata v dj) k)) 0) as [Hz|Hnz]; cbn [negb].
  - replace (16 * k + dirent_size) with (16 * (k + 1)) by (change dirent_size with 16; lia).
    eapply wp_mono; [apply (IH _ (k + 1) H1 (Hk1 _ _ Hh)); [lia|lia|]| |done].
    + intros m Hm. destruct (decide (m = k)) as [->|]; [done|apply Hno; lia].
    + intros b f' (Hb & H' & Hk'). split_and!; [done|done|]. intros jp m Hjp. auto.
  - apply wp_ret. split; [|done]. symmetry. apply not_true_is_false. rewrite dir_empty_true, Hq. intros Hall. apply Hnz, Hall. lia.
Qed.

Lemma isdirempty_wp f v I Lk R ip j dj : fstate f v I Lk R -> holds f ip j -> ip ∈ Lk -> I !! j = Some dj -> d_type dj = T_DIR ->
  (16 | zlen (fdata v dj)) ->
  wp (isdirempty sb devread ip)
    (fun b f' => b = dir_empty (fdata v dj) /\ fstate f' v I Lk R /\ forall jp m, holds f jp m -> holds f' jp m) (fun _ => False) f.
Proof.
  intros H Hh Hin Hj Hty [q Hq]. destruct (st_entry sb pid _ _ _ _ _ _ _ _ H Hh Hin Hj) as (_ & _ & Ed & _).
  pose proof (mo_inv _ _ _ _ _ (st_mounted _ _ _ _ _ _ _ H)) as HF. destruct (fi_size sb v I HF j dj Hj) as [Hsz _].
  assert (Hs : zlen (fdata v dj) = d_size dj) by (apply zlen_fbytes; lia).
  unfold isdirempty. eapply wp_step_run; [reflexivity|]. rewrite Ed. change (2 * dirent_size) with (16 * 2).
  apply (isdirempty_loop_wp v I Lk R ip j dj q); try done; try lia; rewrite <- Hs, Hq; change dirent_size with 16; rewrite ?Z.div_mul by lia; lia.
Qed.

(** What unlinking does. *)
Definition unlinks f v I R i0 es (r : Z) f' : Prop :=
  match walk_parent v I i0 es with
  | Some (i, w) =>
      match (if is_dots w then None else child v I i w) with
      | Some j =>
          if removable v I j
          then r = 0 /\ exists d dj k v' I', I !! i = Some d /\ I !! j = Some dj /\ i <> j /\ lookup_name (fdata v d) w = Some k /\
                 unlinked v I i d k j dj (bool_decide (d_nlink dj = 1 /\ R j = 0)) v' I' /\ fstate f' v' I' ∅ R /\ keeps f f'
          else r = -1 /\ restored sb pid f v I R f'
      | None => r = -1 /\ restored sb pid f v I R f'
      end
  | None => r = -1 /\ restored sb pid f v I R f'
  end.

(** Two locked inodes, the directory and the inode found in it, are put back. *)
Lemma leave_both f0 f v I R dp ip i j d dj : fstate f0 v I ∅ R -> tree_ok v I -> fstate f v I ({[ip]} ∪ {[dp]}) (more (more R i) j) -> ip <> dp ->
  holds f dp i -> holds f ip j -> keeps f0 f -> I !! i = Some d -> d_nlink d <> 0 \/ 0 < R i -> I !! j = Some dj -> d_nlink dj <> 0 ->
  wp (iunlockput sb pid ip;; iunlockput sb pid dp;; mret (-1)) (fun r f' => r = -1 /\ restored sb pid f0 v I R f') (fun _ => False) f.
Proof.
  intros H0 T H Hne Hhd Hhj Hk Hd Hor Hj Hnj.
  assert (E : forall m, less (more (more R i) j) j m = more R i m) by (intros m; unfold less, more; lia).
  assert (Hpos : forall m, 0 <= R m) by (intros m; by eapply st_nonneg).
  eapply wp_step; [apply (iunlockput_st sb Hsb pid f v I _ _ ip j dj H Hhj); [set_solver|done|by left]| |done]. intros [] f1 [H1 Hk1].
  replace (({[ip]} ∪ {[dp]}) ∖ {[ip]} : gset Z) with ({[dp]} : gset Z) in H1 by set_solver.
  eapply wp_step; [apply (leave_st f0 f1 v I R dp i d T H0); try done; [by eapply fstate_ext|..]| |done].
  - apply Hk1; [done|]. rewrite E. unfold more. rewrite decide_True by done. specialize (Hpos i). lia.
  - intros jp m Hm. apply Hk1; [auto|]. rewrite E. pose proof (kept_held sb pid f0 v I R H0 jp m Hm). unfold more. case_decide; lia.
  - intros [] f2 Rs. by apply wp_ret.
Qed.

(** With the entry found and both inodes locked. *)
Lemma unlink_found_wp f0 f v I R dp ip i j d dj k w : fstate f0 v I ∅ R -> tree_ok v I -> fstate f v I ({[ip]} ∪ {[dp]}) (more (more R i) j) -> ip <> dp ->
  holds f dp i -> holds f ip j -> keeps f0 f -> I !! i = Some d -> d_type d = T_DIR -> d_nlink d <> 0 \/ 0 < R i ->
  lookup_name (fdata v d) w = Some k -> j = de_inum (entry (fdata v d) k) -> I !! j = Some dj -> 1 <= d_nlink dj ->
  i <> j -> (d_type dj = T_DIR -> dir_empty (fdata v dj) = true -> 2 <= d_nlink d) -> vlog v = ∅ -> Z.of_nat (size (bmaps sb)) + 4 <= max_op ->
  wp (i ← gets (the_inode ip);
      if d_nlink (i_d i) <? 1 then panic "unlink: nlink < 1" else
      b ← (if d_type (i_d i) =? T_DIR then isdirempty sb devread ip else mret true);
      if negb (b : bool) then iunlockput sb pid ip;; iunlockput sb pid dp;; mret (-1)
      else unlink_entry sb pid devwrite dp ip (16 * k))
    (fun r f' => if removable v I j
       then r = 0 /\ exists v' I', unlinked v I i d k j dj (bool_decide (d_nlink dj = 1 /\ R j = 0)) v' I' /\ fstate f' v' I' ∅ R /\ keeps f0 f'
       else r = -1 /\ restored sb pid f0 v I R f')
    (fun _ => False) f.
Proof.
  intros H0 T H Hne Hhd Hhj Hk Hd Hty Hor Hlk Ej Hj Hnj Hij Hemp Hlog Hmax. assert (Hin : ip ∈ ({[ip]} ∪ {[dp]} : gset Z)) by set_solver.
  destruct (st_entry sb pid _ _ _ _ _ _ _ _ H Hhj Hin Hj) as (_ & _ & Ed & _). eapply wp_step_run; [reflexivity|]. rewrite Ed.
  rewrite (proj2 (Z.ltb_ge (d_nlink dj) 1)) by lia. unfold removable. rewrite Hj.
  assert (Hremove : forall g, fstate g v I ({[ip]} ∪ {[dp]}) (more (more R i) j) -> (forall jp m, holds f jp m -> holds g jp m) -> (d_type dj = T_DIR -> 2 <= d_nlink d) ->
    wp (unlink_entry sb pid devwrite dp ip (16 * k)) (fun r f' => r = 0 /\ exists v' I', unlinked v I i d k j dj (bool_decide (d_nlink dj = 1 /\ R j = 0)) v' I' /\ fstate f' v' I' ∅ R /\ keeps f0 f')
      (fun _ => False) g).
  { intros g Hg Hkg Hdd. destruct (tr_dir v I T i d Hd Hty) as [Hdv _]. destruct (lookup_entry _ _ _ Hdv Hlk) as (Hk0 & Hklt & _). pose proof Hdv as [q Hq].
    pose proof (mo_inv _ _ _ _ _ (st_mounted _ _ _ _ _ _ _ H)) as HF. destruct (fi_size sb v I HF i d Hd) as [Hsz _].
    assert (Hs : zlen (fdata v d) = d_size d) by (apply zlen_fbytes; lia).
    eapply wp_mono; [apply (unlink_entry_wp g v I R dp ip i j d dj k); try done; auto| |done].
    + by eapply st_nonneg.
    + by eapply st_nonneg.
    + lia.
    + intros r f' (-> & v' & I' & U & H' & Hk'). split; [done|]. exists v', I'. split_and!; [done|done|]. intros jp m Hm.
      apply Hk'; [auto|]. by eapply (kept_held sb pid f0 v I R H0). }
  destruct (Z.eqb_spec (d_type dj) T_DIR) as [Htj|Htj]; cbn [negb orb].
  - destruct (tr_dir v I T j dj Hj Htj) as [Hdv _].
    eapply wp_step; [by apply (isdirempty_wp f v I _ _ ip j dj H Hhj Hin Hj Htj)| |done]. intros b f1 (-> & H1 & Hk1). destruct (dir_empty (fdata v dj)) eqn:Ee; cbn [negb]; [auto|].
    apply (leave_both f0 f1 v I R dp ip i j d dj); auto; [intros jp m Hm; auto|lia].
  - eapply wp_step_run; [reflexivity|]. cbn [negb]. apply Hremove; [done|auto|done].
Qed.

Lemma unlink_path_wp f v I R cwd path : fstate f v I ∅ R -> tree_ok v I -> used (icache f) cwd -> Forall is_u8 path ->
  vlog v = ∅ -> Z.of_nat (size (bmaps sb)) + 4 <= max_op -> (forall j dj, I !! j = Some dj -> 0 <= d_nlink dj) ->
  let i0 := start f cwd path in let es := FsPath.elements path [] in
  (forall i w, walk_parent v I i0 es = Some (i, w) -> is_dots w = false -> child v I i w <> Some i) ->
  (forall i w d j dj, walk_parent v I i0 es = Some (i, w) -> child v I i w = Some j -> I !! i = Some d -> I !! j = Some dj ->
     d_type dj = T_DIR -> dir_empty (fdata v dj) = true -> 2 <= d_nlink d) ->
  wp (unlink_path sb pid devread devwrite junk cwd path) (unlinks f v I R i0 es) (crowded f) f.
Proof.
  intros H T HU Hp Hlog Hmax Hnn i0 es Hself Hemp. unfold unlink_path.
  eapply wp_step; [by apply (nameiparent_wp f v I R cwd path)| |done]. fold i0 es. intros r f1 Hr.
  unfold unlinks. destruct (walk_parent v I i0 es) as [[i w]|] eqn:Ew.
  2: { destruct r as [r name]. destruct Hr as [Hr Rs]. cbn in Hr. subst r. by apply wp_ret. }
  destruct Hr as (dp & name & d & -> & Hn & Hw & Hd & Hty & Hor & A). destruct (walk_parent_dir v I es i0 i w Ew) as [_ Hww].
  eapply wp_step; [by apply (ilock_at_wp sb Hsb pid f v I R H T dp i d f1)| |done]. intros [] f2 [H2 Hh2 Hk2].
  assert (Hnw : name_of name = name_of w) by congruence. fold (is_dots name). rewrite (is_dots_cong name w Hnw).
  assert (Hleave : forall g, fstate g v I {[dp]} (more R i) -> holds g dp i -> keeps f g ->
    wp (iunlockput sb pid dp;; mret (-1)) (fun r f' => r = -1 /\ restored sb pid f v I R f') (crowded f) g).
  { intros g Hg Hhg Hkg. eapply wp_step; [by apply (leave_st f g v I R dp i d T H)| |done]. intros [] g' Rs. by apply wp_ret. }
  destruct (is_dots w) eqn:Edots; [by apply Hleave|].
  pose proof (tr_dir v I T i d Hd Hty) as HE. assert (Hdp : dp ∈ ({[dp]} : gset Z)) by set_solver.
  eapply wp_step; [by apply (dirlookup_st sb Hsb pid devread f2 v I _ _ dp i d name H2 Hh2 Hdp Hd Hty HE)| |].
  2: { intros msg (k & _ & Hfull). by eapply (crowded_ok sb pid f v I R H f2). }
  assert (Hch : child v I i w = found (fdata v d) w) by (unfold child; by rewrite Hd, Hty).
  unfold found in Hch. rewrite (lookup_name_cong _ name w Hnw). intros r f3 [Hr Hk3]. destruct (lookup_name (fdata v d) w) as [k|] eqn:Ek.
  2: { destruct Hr as [-> H3]. rewrite Hch. apply Hleave; [done|by apply Hk3|]. intros jp m Hm. auto. }
  destruct Hr as (ip & -> & H3 & Hh3). set (j := de_inum (entry (fdata v d) k)) in *. rewrite Hch.
  destruct (child_linked v I i w j T Hch) as (dj & Hdj & Hnj). pose proof (Hnn j dj Hdj) as Hnj0.
  assert (Hij : i <> j) by (intros Eij; apply (Hself i w eq_refl Edots); congruence).
  assert (Hne : ip <> dp). { intros ->. destruct Hh3 as [_ E1], (Hk3 _ _ Hh2) as [_ E2]. congruence. }
  eapply wp_step; [apply (ilock_st sb Hsb pid f3 v I _ _ ip j dj H3 Hh3); [set_solver|done]| |done]. intros [] f4 [H4 Hk4].
  eapply wp_mono; [apply (unlink_found_wp f f4 v I R dp ip i j d dj k w); try done; auto| |done].
  - intros jp m Hm. auto.
  - lia.
  - intros Htj He. by apply (Hemp i w d j dj).
  - intros r f5 Hr. destruct (removable v I j); [|done]. destruct Hr as (-> & v' & I' & U & H5 & Hk5). split; [done|]. by exists d, dj, k, v', I'.
Qed.

Lemma unlinks_done f v I R i0 es r f' cwd : fstate f v I ∅ R -> tree_ok v I -> unlinkable v I R i0 es -> used (icache f) cwd ->
  unlinks f v I R i0 es r f' ->
  exists v' I', mounted sb f' v' I' ∅ /\ all_unlocked f' /\ tree_ok v' I' /\ used (icache f') cwd /\ (forall j, refs (icache f') j = R j) /\
    unlink_effect v I R i0 es r v' I'.
Proof.
  intros H0 HT HL HU HQ.
  assert (Hfin : forall g, restored sb pid f v I R g -> r = -1 -> target v I i0 es = None ->
    exists v' I', mounted sb g v' I' ∅ /\ all_unlocked g /\ tree_ok v' I' /\ used (icache g) cwd /\ (forall j, refs (icache g) j = R j) /\
    unlink_effect v I R i0 es r v' I').
  { intros g [Hg Hkg] -> Ht. exists v, I. split; [apply Hg|]. unfold unlink_effect. rewrite Ht. split; [by eapply fstate_unlocked|].
    split; [done|]. split; [by apply (Hkg cwd (inum_of (icache f) cwd))|]. split; [apply Hg|done]. }
  unfold unlinks in HQ. unfold unlink_effect, target in *. destruct (walk_parent v I i0 es) as [[i w]|] eqn:Ew; [|by destruct HQ; apply Hfin].
  destruct (is_dots w) eqn:Ed; [by destruct HQ; apply Hfin|]. destruct (child v I i w) as [j|] eqn:Ec; [|by destruct HQ; apply Hfin].
  destruct (removable v I j) eqn:Ej; [|by destruct HQ; apply Hfin].
  destruct HQ as (-> & d & dj & n & v' & I' & Hd & Hj & Hij & Hn & U & H' & Hk').
  destruct (walk_parent_dir v I es i0 i w Ew) as [Hdir _]. unfold is_dir in Hdir. unfold removable in Ej. rewrite Hd in Hdir. rewrite Hj in Ej. apply Z.eqb_eq in Hdir. destruct (child_linked v I i w j HT Ec) as (dj' & Hdj' & Hnl). assert (dj' = dj) as -> by congruence.
  pose proof (ul_nlink _ _ _ _ _ HL j dj Hj) as Hnn. destruct (fi_inode sb v I (mo_inv _ _ _ _ _ (st_mounted _ _ _ _ _ _ _ H0)) j dj Hj) as (_ & Hok & _).
  exists v', I'. split; [apply H'|]. split; [by eapply fstate_unlocked|]. split.
  - eapply (unlinked_tree v I i d n j dj _ v' I' w HT U Hd Hdir Hj Hij); [apply Hok|lia| | |done].
    { intros Et. rewrite Et in Ej. destruct (ul_dir _ _ _ _ _ HL i w d j dj Ew Ec Hd Hj Et Ej) as [H2 H3]. split; [done|]. intros E1. apply bool_decide_eq_true_2. auto. }
    intros Hor. apply (ul_last _ _ _ _ _ HL i w j dj d n Ew Ec Hj); [|done|done]. destruct Hor as [?|Hg%bool_decide_eq_true]; tauto.
  - split; [by apply (Hk' cwd (inum_of (icache f) cwd))|]. split; [apply H'|]. split; [done|]. by exists d, dj, n.
Qed.
End create.
