(* ===== verification/FsSpec.v ===== *)
(** * What the file system promises

    The properties of fs.c and file.c, each evaluated on the small disk of FsDemo.v. *)

From S2P Require Import Prelude Bytes Kalloc Pipe Bio Log Blocks LogBlocks Fs FsBlocks FsInode FsData FsWrite FsTrunc FsCache FsDir FsState FsPath FsDemo File FileSpec.
From stdpp Require Import gmap.
#[local] Open Scope Z_scope.

(** ** The small disk in a transaction *)

Lemma demo_sz : MAXOPBLOCKS + 1 < 12.
Proof. done. Qed.

Definition demo_laws : BlockLaws logst (log_blocks_dev 7) := in_trans 7 2 12 demo_sz demo_disk_fs [].
#[local] Instance demo_dev : BlockDev logst := log_blocks_dev 7.
Definition demo_begun : fs logst := mkfs (demo_log <| l_outstanding := 1 |>) demo_cache.

Lemma demo_idle : idle demo_sb 7 2 12 demo_fs demo_view demo_inodes.
Proof. split; [apply demo_quiet|done|apply demo_fsinv|apply demo_synced|apply demo_cached]. Qed.

Lemma demo_mounted : @mounted _ _ demo_laws demo_sb demo_begun demo_view demo_inodes ∅.
Proof.
  destruct (begin_view 7 2 12 demo_log demo_quiet) as (L' & E & HV).
  assert (begin_op demo_log = Ok true (demo_log <| l_outstanding := 1 |>)) as E' by reflexivity.
  rewrite E' in E. injection E as <-. split.
  - exact HV.
  - reflexivity.
  - apply demo_fsinv.
  - apply demo_synced.
  - apply demo_cached.
  - intros ip _ H. set_solver.
Qed.

(** Entry 0 is the file, entry 1 the root directory; here one of them is locked. *)
Definition demo_locked (ip : Z) (d : dinode) : fs logst :=
  mkfs (fdev demo_begun) (zupd demo_cache ip (lock_entry 7 d (zget demo_cache ip))).

Lemma demo_lock ip d : used demo_cache ip -> demo_inodes !! inum_of demo_cache ip = Some d ->
  @mounted _ _ demo_laws demo_sb (demo_locked ip d) demo_view demo_inodes ∅.
Proof.
  intros HU Hd. apply (mounted_lock (L := demo_laws) demo_sb 7 demo_begun); [apply demo_mounted|done|done|apply demo_mounted].
Qed.

(** ** Blocks and inodes *)

(** The inodes of a block do not get in each other's way: after one is written with
    iupdate it reads back as it was in memory, and every other one reads as before. *)
Theorem inode_roundtrip (data : list Z) (k j : Z) (d : dinode)
    (Hdata : block_ok data) (Hd : dinode_ok d) (Hk : 0 <= k < IPB) (Hj : 0 <= j < IPB) :
  block_ok (write_dinode (k * 64) d data) /\
  read_dinode (write_dinode (k * 64) d data) (j * 64) = if decide (j = k) then d else read_dinode data (j * 64).
Proof.
  unfold IPB in *.
  destruct (write_dinode_ok (k * 64) d data Hdata Hd) as (H1 & H2 & H3); [lia|unfold BSIZE; lia|]. split; [done|].
  case_decide as E; [by subst|]. apply H3; unfold BSIZE; lia.
Qed.

Lemma inode_roundtrip_witness : block_ok (write_dinode 64 demo_file zeros) /\
  read_dinode (write_dinode 64 demo_file zeros) 64 = demo_file /\ read_dinode (write_dinode 64 demo_file zeros) 0 = dinode0.
Proof.
  pose proof (inode_roundtrip zeros 1 1 demo_file zeros_ok (demo_dinode_ok demo_file (or_intror (or_introl eq_refl))) ltac:(unfold IPB; lia) ltac:(unfold IPB; lia)) as [H1 H2].
  pose proof (inode_roundtrip zeros 1 0 demo_file zeros_ok (demo_dinode_ok demo_file (or_intror (or_introl eq_refl))) ltac:(unfold IPB; lia) ltac:(unfold IPB; lia)) as [_ H3].
  split; [exact H1|]. split; [exact H2|]. rewrite <- (eq_refl : read_dinode zeros (0 * 64) = dinode0). exact H3.
Defined.

(** Balloc gives out the lowest free block, filled with zeros and marked in the bitmap;
    no file uses it, and all other bits stay.  It panics only if no block is free. *)
Theorem balloc_spec {S : Type} {B : BlockDev S} {L : BlockLaws S B} (sb : superblock) (s : S) (v : view) (I : gmap Z dinode)
    (Hsb : sb_ok sb) (Hs : bview s v) (HF : fsinv sb v I) (Hh : vheld v = ∅) (Hmax : budget sb v + 1 <= max_op) :
  match balloc sb 1 s with
  | Ok a s' => free sb v a /\ (forall c, 0 <= c < a -> bit sb v c = true) /\ (forall i n, ~ maps v I a i n) /\
      exists v', bview s' v' /\ blk v' a = zeros /\ vheld v' = ∅ /\
        (forall c, 0 <= c < sb_size sb -> bit sb v' c = if decide (c = a) then true else bit sb v c) /\
        (forall c i n, maps v I c i n -> blk v' c = blk v c)
  | Panic msg => msg = "balloc: out of blocks" /\ forall c, 0 <= c < sb_size sb -> bit sb v c = true
  end.
Proof.
  pose proof (balloc_wp sb Hsb s v Hs (fi_bitmap sb v I HF) (held_ok_none sb v Hh) Hmax) as Hw. unfold wp in Hw.
  destruct (balloc sb 1 s) as [a s'|msg].
  - destruct Hw as (Hf & Hlo & Hs'). split_and!; [done|done|intros i n; by eapply free_not_mapped|]. exists (alloc sb a v).
    split_and!; [done| |done| |].
    + rewrite blk_alloc. by rewrite decide_True.
    + intros c Hc. by apply bit_alloc; [..|apply HF| |].
    + intros c i n Hm. by eapply blk_alloc_mapped.
  - destruct Hw as [-> Hn]. split; [done|]. intros c Hc. apply not_false_is_true. intros E. by apply (Hn c).
Qed.

Lemma balloc_spec_witness : exists s', balloc demo_sb 1 (fdev demo_begun) = Ok 19 s'.
Proof.
  pose proof (@balloc_spec _ demo_dev demo_laws demo_sb (fdev demo_begun) demo_view demo_inodes demo_sb_ok (mo_view _ _ _ _ _ demo_mounted) demo_fsinv
    eq_refl ltac:(vm_compute; discriminate)) as H.
  destruct (balloc demo_sb 1 (fdev demo_begun)) as [a s'|msg].
  - destruct H as ([Hr Hf] & Hlo & _). rewrite demo_bits in Hf by done. exists s'. f_equal. destruct (decide (a = 19)) as [|Hne]; [done|].
    exfalso. apply Z.ltb_ge in Hf. specialize (Hlo 19 ltac:(lia)). rewrite demo_bits in Hlo by lia. done.
  - exfalso. destruct H as [_ H]. specialize (H 20 ltac:(cbn; lia)). rewrite demo_bits in H by lia. done.
Defined.

(** ** Contents of files *)

(** Readi delivers the bytes of the file between the offset and the end, at most as many
    as asked for, and changes nothing; an offset behind the end is an error. *)
Theorem readi_spec {S : Type} {B : BlockDev S} {L : BlockLaws S B} (sb : superblock)
    (devread : Z -> option (Z -> Z -> M (fs S) (option (list Z)))) (f : fs S) (v : view) (I : gmap Z dinode) (X : gset Z) (ip off n : Z)
    (Hsb : sb_ok sb) (HM : mounted sb f v I X) (HU : used (icache f) ip) (Hv : i_valid (the_inode ip f) = true)
    (Hty : d_type (i_d (the_inode ip f)) <> T_DEV) (Hoff : is_u32 off) (Hn : is_u32 n) :
  let d := i_d (the_inode ip f) in
  exists f', readi sb devread ip off n f =
      Ok (if (d_size d <? off) || (2 ^ 32 <=? off + n) then None
          else Some (slice (fdata v d) off (Z.min n (d_size d - off)))) f' /\
    icache f' = icache f /\ mounted sb f' v I X.
Proof.
  intros d. pose proof (mounted_open sb f v I X ip HM HU Hv) as HO.
  pose proof (readi_wp sb Hsb devread f ip _ v I off n HO Hty Hoff Hn) as Hw. apply wp_Ok in Hw as (r & f' & E & (s' & -> & Hs') & ->).
  exists (mkfs s' (icache f)). split_and!; [|done|by apply mounted_dev]. rewrite E. fold d. destruct (Z.ltb_spec (d_size d) off); [done|].
  cbn [orb]. destruct (2 ^ 32 <=? off + n); [done|]. unfold is_u32 in *. by rewrite slice_fdata by lia.
Qed.

Lemma demo_open : let f := demo_locked 0 demo_file in
  used (icache f) 0 /\ i_valid (the_inode 0 f) = true /\ i_d (the_inode 0 f) = demo_file /\
  @mounted _ _ demo_laws demo_sb f demo_view demo_inodes ∅.
Proof. split; [split; done|]. split; [done|]. split; [done|]. by apply demo_lock. Qed.

Lemma readi_spec_witness : exists f', readi demo_sb (fun _ => None) 0 84 100 (demo_locked 0 demo_file) = Ok (Some [235; 254; 144; 144]) f'.
Proof.
  destruct demo_open as (HU & Hv & _ & HM).
  destruct (@readi_spec _ demo_dev demo_laws demo_sb (fun _ => None) (demo_locked 0 demo_file) demo_view demo_inodes ∅ 0 84 100 demo_sb_ok HM HU Hv) as (f' & E & _);
    [done..|]. exists f'. rewrite E. vm_compute. reflexivity.
Defined.

(** C7: writei puts the bytes at the offset, which may be anywhere up to the end of the file:
    the file is as before with those bytes in place, and as long as they reach; no other file
    changes, and the disk stays in order.  An offset behind the end or a file that would get
    too long is an error that changes nothing, and the only panic is a full disk when the file
    has to grow. *)
Theorem writei_spec {S : Type} {B : BlockDev S} {L : BlockLaws S B} (sb : superblock)
    (devwrite : Z -> option (Z -> list Z -> M (fs S) Z)) (f : fs S) (v : view) (I : gmap Z dinode) (X : gset Z) (ip off : Z) (src : list Z)
    (Hsb : sb_ok sb) (HM : mounted sb f v I X) (HU : used (icache f) ip) (Hv : i_valid (the_inode ip f) = true)
    (Hty : d_type (i_d (the_inode ip f)) <> T_DEV) (Hoff : is_u32 off) (Hn : is_u32 (zlen src)) (Hsrc : Forall is_u8 src)
    (Hmax : Phi sb v (inum_of (icache f) ip) (i_d (the_inode ip f)) + nblocks off (zlen src) <= max_op) :
  let d := i_d (the_inode ip f) in let i := inum_of (icache f) ip in
  match writei sb devwrite ip src off f with
  | Ok r f' =>
      if (d_size d <? off) || (MAXFILE * BSIZE <? off + zlen src) then r = -1 /\ f' = f
      else r = zlen src /\ exists v' d', mounted sb f' v' (<[i := d']> I) X /\ i_d (the_inode ip f') = d' /\
        fdata v' d' = splice (fdata v d) off src /\ d_size d' = Z.max (d_size d) (off + zlen src) /\
        forall j d0, j <> i -> I !! j = Some d0 -> fdata v' d0 = fdata v d0
  | Panic msg => (msg = "balloc: out of blocks" /\ nfree sb v < flag d + nblocks off (zlen src)) /\ d_size d < off + zlen src
  end.
Proof.
  intros d i. pose proof (mounted_open sb f v I X ip HM HU Hv) as HO.
  pose proof (writei_wp sb Hsb devwrite f ip _ v I off src HO Hty Hoff Hn Hsrc (fun _ => Hmax)) as Hw. unfold wp in Hw.
  destruct (writei sb devwrite ip src off f) as [r f'|msg]; [|exact Hw]. fold d in Hw.
  destruct ((d_size d <? off) || (MAXFILE * BSIZE <? off + zlen src)); [done|].
  destruct Hw as (-> & v' & d' & s' & -> & Hs' & W). split; [done|]. exists v', d'. split_and!.
  - by apply (mounted_write sb f v I X ip s' v' d' off src).
  - rewrite the_put_d by apply HO. done.
  - apply W.
  - apply (f_equal d_size (wf_meta _ _ _ _ _ _ _ _ _ W)).
  - apply W.
Qed.

Lemma writei_spec_witness : exists f' v' d', writei demo_sb (fun _ => None) 0 [33; 33; 33] 86 (demo_locked 0 demo_file) = Ok 3 f' /\
  slice (fdata v' d') 84 5 = [235; 254; 33; 33; 33].
Proof.
  destruct demo_open as (HU & Hv & _ & HM).
  pose proof (@writei_spec _ demo_dev demo_laws demo_sb (fun _ => None) (demo_locked 0 demo_file) demo_view demo_inodes ∅ 0 86 [33; 33; 33] demo_sb_ok HM HU Hv
    ltac:(done) ltac:(done) ltac:(done) ltac:(concrete_bytes) ltac:(vm_compute; discriminate)) as H.
  destruct (writei demo_sb (fun _ => None) 0 [33; 33; 33] 86 (demo_locked 0 demo_file)) as [r f'|msg].
  - destruct H as (-> & v' & d' & _ & _ & Hd & _). exists f', v', d'. split; [done|]. rewrite Hd. vm_compute. reflexivity.
  - exfalso. destruct H as [[_ H] _]. revert H. vm_compute. discriminate.
Defined.

(** ** References to inodes *)

(** Ialloc takes the lowest free inode number and gives a reference to a fresh inode of
    the type, without blocks and links; the other inodes, the contents of all files and the
    other references stay.  It panics only without a free inode or a free cache entry. *)
Theorem ialloc_spec {S : Type} {B : BlockDev S} {L : BlockLaws S B} (sb : superblock) (f : fs S) (v : view) (I : gmap Z dinode) (type : Z)
    (Hsb : sb_ok sb) (HM : mounted sb f v I ∅) (Ht : is_s16 type) (Ht0 : type <> 0) (Hmax : Z.of_nat (size (vlog v)) + 1 <= max_op) :
  match ialloc sb 1 type f with
  | Ok ip f' => exists i v', 0 < i < sb_ninodes sb /\ I !! i = None /\ (forall j, 0 < j < i -> is_Some (I !! j)) /\
      inum_of (icache f') ip = i /\ (forall j, refs (icache f') j = refs (icache f) j + (if decide (j = i) then 1 else 0)) /\
      mounted sb f' v' (<[i := new_dinode type]> I) ∅ /\ forall j d, I !! j = Some d -> fdata v' d = fdata v d
  | Panic msg => (msg = "ialloc: no inodes" /\ forall i, 0 < i < sb_ninodes sb -> is_Some (I !! i)) \/
                 (msg = "iget: no inodes" /\ forall ip, 0 <= ip < NINODE -> used (icache f) ip)
  end.
Proof.
  pose proof (ialloc_wp sb Hsb f v I type HM Ht Ht0 Hmax) as Hw. unfold wp in Hw. destruct (ialloc sb 1 type f) as [ip f'|msg].
  - destruct Hw as [i [Hr Hn Hlt HG HM']]. exists i, (iwrote sb i (new_dinode type) v).
    split; [done|]. split; [done|]. split; [done|]. split; [apply HG|]. split; [|split; [done|]].
    + intros j. exact (refs_got (mkfs (fdev f') (icache f)) I ip i f' j (mo_cache _ _ _ _ _ HM) HG).
    + intros j d Hj. pose proof (mo_inv _ _ _ _ _ HM) as HF. eapply fdata_frame; [exact HF|exact Hj|]. intros c m Hm.
      eapply iwrote_data; [done|exact HF|lia|exact Hm].
  - destruct Hw as [Hw|[i [-> Hw]]]; [by left|right]. split; [done|]. intros ip Hip. split; [done|]. apply (Hw ip Hip).
Qed.

Lemma demo_inodes_free : demo_inodes !! 4 = None.
Proof. reflexivity. Qed.

Lemma demo_lowest i : 0 < i -> demo_inodes !! i = None -> (forall j, 0 < j < i -> is_Some (demo_inodes !! j)) -> i = 4.
Proof.
  intros Hi Hn Hlt. destruct (decide (i = 1)) as [->|]; [done|]. destruct (decide (i = 2)) as [->|]; [done|]. destruct (decide (i = 3)) as [->|]; [done|]. destruct (decide (i = 4)); [done|].
  destruct (Hlt 4 ltac:(lia)) as [d Hd]. by rewrite demo_inodes_free in Hd.
Qed.

Lemma ialloc_spec_witness : exists ip f', ialloc demo_sb 1 T_FILE demo_begun = Ok ip f' /\ inum_of (icache f') ip = 4.
Proof.
  pose proof (@ialloc_spec _ demo_dev demo_laws demo_sb demo_begun demo_view demo_inodes T_FILE demo_sb_ok demo_mounted ltac:(done) ltac:(done)
    ltac:(vm_compute; discriminate)) as H.
  destruct (ialloc demo_sb 1 T_FILE demo_begun) as [ip f'|msg].
  - destruct H as (i & v' & Hr & Hn & Hlt & Hi & _). exists ip, f'. split; [done|]. rewrite Hi. cbn in Hr.
    apply demo_lowest; [lia|done|done].
  - exfalso. destruct H as [[_ H]|[_ H]].
    + destruct (H 4 ltac:(cbn; lia)) as [d Hd]. by rewrite demo_inodes_free in Hd.
    + destruct (H 2 ltac:(done)) as [_ H2]. done.
Defined.

(** C17: iput takes back one reference.  If it was the last one to an inode without links, the
    inode and exactly its blocks are free again; else nothing else changes.  The contents of
    the other files stay in both cases, and iput never panics on an inode nobody has locked. *)
Theorem iput_spec {S : Type} {B : BlockDev S} {L : BlockLaws S B} (sb : superblock) (pid : Z) (f : fs S) (v : view) (I : gmap Z dinode) (ip : Z)
    (Hsb : sb_ok sb) (HM : mounted sb f v I ∅) (HU : used (icache f) ip) (Hlk : i_locked (the_inode ip f) = false)
    (Hmax : Z.of_nat (size ({[IBLOCK sb (inum_of (icache f) ip)]} ∪ (vlog v ∪ bmaps sb))) <= max_op) :
  let i := inum_of (icache f) ip in
  exists f', iput sb pid ip f = Ok tt f' /\
    (forall j, refs (icache f') j = refs (icache f) j - (if decide (j = i) then 1 else 0)) /\
    if last_ref (the_inode ip f)
    then exists v', mounted sb f' v' (delete i I) ∅ /\ (forall c, free sb v' c <-> free sb v c \/ exists n, maps v I c i n) /\
           forall j d, j <> i -> I !! j = Some d -> fdata v' d = fdata v d
    else mounted sb f' v I ∅.
Proof.
  intros i. pose proof (mo_cache _ _ _ _ _ HM) as HC. pose proof HU as [Hip _].
  pose proof (iput_wp sb Hsb pid f v I ∅ ip HM HU ltac:(set_solver) Hlk (fun _ => Hmax)) as Hw.
  apply wp_Ok in Hw as ([] & f' & E & s' & -> & Hw). exists (mkfs s' (zupd (icache f) ip (put_entry (the_inode ip f)))). split; [done|]. split.
  { intros j. unfold the_inode. apply refs_put. rewrite (ca_len _ _ HC). done. }
  destruct (last_ref (the_inode ip f)) eqn:El; [|done]. destruct Hw as (v' & HR & HM'). exists v'. split; [|split; [|apply HR]].
  - replace ∅ with (∅ ∖ {[i]} : gset Z) by set_solver. exact HM'.
  - assert (Hd : I !! i = Some (i_d (the_inode ip f))).
    { apply (ca_valid _ _ HC ip HU). unfold last_ref in El. by destruct (i_valid (the_inode ip f)) eqn:Ev. }
    intros c. rewrite (re_free _ _ _ _ _ _ HR). split; (intros [Hf|H]; [by left|right]).
    + destruct H as (m & Hm & Hs & Hc). exists m, (i_d (the_inode ip f)). split_and!; [done|lia..|done|done].
    + destruct H as (n & d & Hd' & Hn & Hs & Hc). rewrite Hd in Hd'. injection Hd' as <-. exists n. split_and!; [lia..|done|done].
Qed.

(** A new file that was locked once: nothing but this reference keeps it. *)
Lemma demo_new : let v := iwrote demo_sb 4 (new_dinode T_FILE) demo_view in
  exists f ip, @mounted _ _ demo_laws demo_sb f v (<[4 := new_dinode T_FILE]> demo_inodes) ∅ /\ used (icache f) ip /\
    inum_of (icache f) ip = 4 /\ i_locked (the_inode ip f) = false /\ last_ref (the_inode ip f) = true.
Proof.
  intros v. set (I := <[4 := new_dinode T_FILE]> demo_inodes).
  destruct (wp_inv _ _ _ _ (ialloc_wp (L := demo_laws) demo_sb demo_sb_ok demo_begun demo_view demo_inodes T_FILE demo_mounted
    ltac:(done) ltac:(done) ltac:(vm_compute; discriminate))) as [(ip & f & _ & i & [Hr Hn Hlt HG HM])|(msg & _ & [[_ H]|[i [_ H]]])].
  - assert (i = 4) as ->.
    { cbn in Hr. apply demo_lowest; [lia|done|done]. }
    fold v I in HM. pose proof (go_used _ _ _ _ HG) as HU. pose proof (go_inum _ _ _ _ HG) as Hi.
    pose proof (go_entry _ _ _ _ HG) as He. pose proof (ca_len _ _ (mo_cache _ _ _ _ _ HM)) as Hl. pose proof HU as [Hip _].
    rewrite decide_False in He.
    2: { cbn [icache]. intros Hc. rewrite decide_True in He by done. unfold inum_of in Hi. fold (the_inode ip f) in Hi. rewrite He in Hi.
         destruct (demo_used ip Hc) as [-> | ->]; done. }
    destruct He as (Href & _ & Hlk). change (the_inode ip (mkfs (fdev f) (icache demo_begun))) with (the_inode ip demo_fs) in Hlk.
    rewrite demo_unlocked in Hlk by done.
    destruct (wp_Ok _ _ _ (ilock_wp (L := demo_laws) demo_sb demo_sb_ok 7 f v I ∅ ip (new_dinode T_FILE) HM HU Hlk
      ltac:(rewrite Hi; reflexivity))) as (_ & _ & _ & s & -> & HM1).
    set (e := lock_entry 7 _ _) in HM1. set (f1 := mkfs s _) in HM1.
    assert (He1 : the_inode ip f1 = e) by (unfold the_inode, f1; cbn; apply zget_zupd_eq; lia).
    assert (HU1 : used (icache f1) ip) by (apply used_upd; try done).
    destruct (wp_Ok _ _ _ (iunlock_wp (L := demo_laws) demo_sb 7 f1 v I ∅ ip HM1 HU1 ltac:(by rewrite He1) ltac:(by rewrite He1)))
      as (_ & _ & _ & -> & HM2).
    set (f2 := mkfs _ _) in HM2. assert (He2 : the_inode ip f2 = unlock_entry e).
    { unfold the_inode at 1, f2. cbn [icache]. rewrite He1. apply zget_zupd_eq. unfold f1. cbn. rewrite zlen_zupd. lia. }
    exists f2, ip. split; [done|]. unfold used, inum_of. change (zget (icache f2) ip) with (the_inode ip f2). rewrite He2.
    split; [split; [done|apply HU]|]. split; [exact Hi|]. split; [done|]. unfold last_ref. cbn. by rewrite Href.
  - exfalso. destruct (H 4 ltac:(cbn; lia)) as [d Hd]. by rewrite demo_inodes_free in Hd.
  - exfalso. destruct (H 2 ltac:(done)) as [H2 _]. done.
Qed.

Lemma iput_spec_witness : exists f ip f' v', iput demo_sb 7 ip f = Ok tt f' /\ inum_of (icache f) ip = 4 /\
  @mounted _ _ demo_laws demo_sb f' v' demo_inodes ∅.
Proof.
  destruct demo_new as (f & ip & HM & HU & Hi & Hlk & Hlast). exists f, ip.
  destruct (@iput_spec _ demo_dev demo_laws demo_sb 7 f _ _ ip demo_sb_ok HM HU Hlk) as (f' & E & _ & H).
  - rewrite Hi. vm_compute. discriminate.
  - rewrite Hlast in H. destruct H as (v' & HM' & _). exists f', v'. split; [done|]. split; [done|].
    rewrite Hi, delete_insert_id in HM' by reflexivity. exact HM'.
Defined.

(** ** Directories and paths *)

(** C16: after dirlink has put a name with an inode number in a directory, dirlookup finds that
    inode under the name, and under every other name what it found before. *)
Theorem dirlink_dirlookup {S : Type} {B : BlockDev S} {L : BlockLaws S B} (sb : superblock) (pid : Z)
    (devread : Z -> option (Z -> Z -> M (fs S) (option (list Z)))) (devwrite : Z -> option (Z -> list Z -> M (fs S) Z))
    (f : fs S) (v : view) (I : gmap Z dinode) (dp : Z) (d : dinode) (name : list Z) (inum : Z)
    (Hsb : sb_ok sb) (LD : locked_dir sb f v I dp d) (Hi : 0 < inum < 2 ^ 16) (HI : is_Some (I !! inum)) (Hname : Forall is_u8 name)
    (Hmax : Phi sb v (inum_of (icache f) dp) d + 1 <= max_op) (Hun : unlocked_but f dp) (Hnew : lookup_name (fdata v d) name = None) :
  match dirlink sb pid devread devwrite dp name inum f with
  | Ok r f1 => r = 0 /\ forall n,
      match dirlookup sb devread dp n f1 with
      | Ok (Some (ip, off)) f2 =>
          if decide (name_of n = name_of name) then inum_of (icache f2) ip = inum
          else exists k, lookup_name (fdata v d) n = Some k /\ off = 16 * k /\ inum_of (icache f2) ip = de_inum (entry (fdata v d) k)
      | Ok None f2 => name_of n <> name_of name /\ lookup_name (fdata v d) n = None /\ icache f2 = icache f1
      | Panic msg => msg = "iget: no inodes"
      end
  | Panic msg => (msg = "balloc: out of blocks" /\ nfree sb v < flag d + 1) \/
                 (msg = "dirlink" /\ MAXFILE * BSIZE < 16 * first_empty (fdata v d) + 16)
  end.
Proof.
  pose proof (dirlink_wp sb Hsb pid devread devwrite f v I dp d name inum LD Hi (name_of_bytes name Hname) Hmax Hun ltac:(by rewrite Hnew)) as Hw.
  unfold wp in Hw. destruct (dirlink sb pid devread devwrite dp name inum f) as [r f1|msg].
  2: { destruct Hw as [(k & Hk & _)|Hw]; [by rewrite Hnew in Hk|exact Hw]. }
  rewrite Hnew in Hw. destruct Hw as (-> & v' & d' & LK). split; [done|]. intros n. pose proof (linked_dir _ _ _ _ _ _ _ _ _ _ _ LD Hi HI LK) as LD'.
  pose proof (dirlookup_wp sb Hsb devread f1 v' _ dp d' n LD') as Hl. unfold wp in Hl. pose proof (ld_entries _ _ _ _ _ _ LD) as [Hd _].
  unfold looked_up in Hl. rewrite (lk_data _ _ _ _ _ _ _ _ _ _ _ LK), (lookup_link (fdata v d) name n inum Hd Hi Hnew) in Hl.
  destruct (dirlookup sb devread dp n f1) as [res f2|msg]; [|by destruct Hl as (k & _ & -> & _)]. destruct Hl as [_ Hl].
  destruct (first_empty_range (fdata v d) Hd) as (H0 & H1 & H2). destruct (link_size (fdata v d) name inum Hd) as [_ Hsz].
  destruct (decide (name_of n = name_of name)) as [Hn|Hn].
  - destruct Hl as (ip & -> & HG). rewrite (go_inum _ _ _ _ HG). unfold link_entry. rewrite entry_splice; [|apply zlen_dirent|lia..|done|lia].
    rewrite decide_True by done. by rewrite dirent_inum by lia.
  - destruct (lookup_name (fdata v d) n) as [k|] eqn:Ek; [|by destruct Hl as [-> Hc]]. destruct Hl as (ip & -> & HG).
    exists k. split; [done|]. split; [done|]. rewrite (go_inum _ _ _ _ HG). apply lookup_name_Some in Ek as (Hk & Hm & _).
    apply andb_prop in Hm as [Hnz%negb_true_iff%Z.eqb_neq _]. pose proof Hd as [q Hq]. rewrite Hq, Z.div_mul in Hk by lia.
    unfold link_entry. rewrite entry_splice; [|apply zlen_dirent|lia..|done|lia]. rewrite decide_False; [done|].
    intros ->. apply Hnz, H2. lia.
Qed.

Lemma demo_dir : let f := demo_locked 1 demo_root in
  @locked_dir _ _ demo_laws demo_sb f demo_view demo_inodes 1 demo_root /\ unlocked_but f 1 /\ i_locked (the_inode 1 f) = true.
Proof.
  assert (HM : @mounted _ _ demo_laws demo_sb (demo_locked 1 demo_root) demo_view demo_inodes ∅) by (by apply demo_lock).
  split; [|split; [|done]].
  - split; [exact HM|by split|done|done|done|]. apply (tr_dir _ _ demo_tree 1); done.
  - intros ip Hip Hne. unfold the_inode, demo_locked. cbn [icache]. rewrite zget_zupd_ne by done. by apply (demo_unlocked ip).
Qed.

(** "g" as a second name of the file. *)
Lemma dirlink_dirlookup_witness : exists f1, dirlink demo_sb 7 (fun _ => None) (fun _ => None) 1 [103] 2 (demo_locked 1 demo_root) = Ok 0 f1 /\
  match dirlookup demo_sb (fun _ => None) 1 [103] f1 with
  | Ok (Some (ip, _)) f2 => inum_of (icache f2) ip = 2
  | Ok None _ => False
  | Panic msg => msg = "iget: no inodes"
  end.
Proof.
  destruct demo_dir as (LD & Hun & _).
  pose proof (@dirlink_dirlookup _ demo_dev demo_laws demo_sb 7 (fun _ => None) (fun _ => None) (demo_locked 1 demo_root) demo_view demo_inodes 1 demo_root [103] 2
    demo_sb_ok LD ltac:(lia) ltac:(eexists; reflexivity) ltac:(concrete_bytes) ltac:(vm_compute; discriminate) Hun ltac:(vm_compute; reflexivity)) as H.
  destruct (dirlink demo_sb 7 (fun _ => None) (fun _ => None) 1 [103] 2 (demo_locked 1 demo_root)) as [r f1|msg].
  - destruct H as [-> H]. exists f1. split; [done|]. specialize (H [103]).
    destruct (dirlookup demo_sb (fun _ => None) 1 [103] f1) as [[[ip off]|] f2|msg]; [|by destruct H|done].
    rewrite decide_True in H by done. exact H.
  - exfalso. destruct H as [[_ H]|[_ H]]; revert H; vm_compute; discriminate.
Defined.

(** A directory never gets a second entry for itself: on a name that is already an entry
    for the directory, such as ".", dirlink calls iput on the inode whose sleep lock its caller
    holds, and waits for that lock. *)
Theorem dirlink_dot_blocks {S : Type} {B : BlockDev S} {L : BlockLaws S B} (sb : superblock) (pid : Z)
    (devread : Z -> option (Z -> Z -> M (fs S) (option (list Z)))) (devwrite : Z -> option (Z -> list Z -> M (fs S) Z))
    (f : fs S) (v : view) (I : gmap Z dinode) (dp : Z) (d : dinode) (name : list Z) (inum k : Z)
    (Hsb : sb_ok sb) (LD : locked_dir sb f v I dp d) (Hlk : i_locked (the_inode dp f) = true)
    (Hk : lookup_name (fdata v d) name = Some k) (Hself : de_inum (entry (fdata v d) k) = inum_of (icache f) dp) :
  dirlink sb pid devread devwrite dp name inum f = Panic "acquiresleep: locked".
Proof. by apply (dirlink_self_blocks sb Hsb pid devread devwrite f v I dp d name inum k). Qed.

Lemma dirlink_dot_blocks_witness :
  dirlink demo_sb 7 (fun _ => None) (fun _ => None) 1 [46] 2 (demo_locked 1 demo_root) = Panic "acquiresleep: locked".
Proof.
  destruct demo_dir as (LD & _ & Hlk).
  apply (@dirlink_dot_blocks _ demo_dev demo_laws demo_sb 7 (fun _ => None) (fun _ => None) (demo_locked 1 demo_root) demo_view demo_inodes 1 demo_root [46] 2 0
    demo_sb_ok LD Hlk); vm_compute; reflexivity.
Defined.

(** C8: namex, and so namei and nameiparent, walks the directories: with the elements of the
    path it ends at the inode, or the parent and the last name, that the tree of directories
    has there, with exactly one reference more in the cache and no lock held; a path that leads
    nowhere leaves all references as they were.  It panics only if the cache is full. *)
Theorem namex_spec {S : Type} {B : BlockDev S} {L : BlockLaws S B} (sb : superblock) (pid : Z)
    (devread : Z -> option (Z -> Z -> M (fs S) (option (list Z)))) (f : fs S) (v : view) (I : gmap Z dinode) (cwd : Z) (path name : list Z) (parent : bool)
    (Hsb : sb_ok sb) (HM : mounted sb f v I ∅) (Hun : all_unlocked f) (HT : tree_ok v I) (HU : used (icache f) cwd) (Hn : zlen name = DIRSIZ) :
  let i := start f cwd path in let es := FsPath.elements path [] in
  match namex sb pid devread cwd path parent name f with
  | Ok (r, w) f' => mounted sb f' v I ∅ /\ all_unlocked f' /\
      match (if parent then walk_parent v I i es else (fun j => (j, name_of w)) <$> walk v I i es) with
      | Some (j, u) => exists ip, r = Some ip /\ name_of w = u /\ inum_of (icache f') ip = j /\
          forall m, refs (icache f') m = refs (icache f) m + (if decide (m = j) then 1 else 0)
      | None => r = None /\ forall m, refs (icache f') m = refs (icache f) m
      end
  | Panic msg => msg = "iget: no inodes" /\ NINODE - 1 <= Z.of_nat (size (live (icache f)))
  end.
Proof.
  intros i es. pose proof (fstate_start sb Hsb pid f v I HM Hun) as H0.
  pose proof (namex_wp sb Hsb pid devread f v I _ cwd path parent name H0 HT HU Hn) as Hw. unfold wp in Hw.
  destruct (namex sb pid devread cwd path parent name f) as [[r w] f'|msg]; [|exact Hw]. fold i es in Hw. unfold resolved in Hw.
  assert (Hno : forall g, restored sb pid f v I (refs (icache f)) g ->
    mounted sb g v I ∅ /\ all_unlocked g /\ forall m, refs (icache g) m = refs (icache f) m).
  { intros g [H _]. split; [apply H|]. split; [by eapply fstate_unlocked|apply H]. }
  assert (Hat : forall ip j g, at_inode sb pid f v I (refs (icache f)) ip j g ->
    mounted sb g v I ∅ /\ all_unlocked g /\ inum_of (icache g) ip = j /\
    forall m, refs (icache g) m = refs (icache f) m + (if decide (m = j) then 1 else 0)).
  { intros ip j g [H [_ Hj] _]. split; [apply H|]. split; [by eapply fstate_unlocked|]. split; [done|apply H]. }
  destruct parent.
  - destruct (walk_parent v I i es) as [[j u]|].
    + destruct Hw as (ip & Hr & Hu & (M' & U' & Hi & HR)%Hat). cbn in Hr, Hu. split; [done|]. split; [done|]. exists ip. done.
    + destruct Hw as (Hr & (M' & U' & HR)%Hno). cbn in Hr. done.
  - destruct (walk v I i es) as [j|]; cbn.
    + destruct Hw as (ip & Hr & (M' & U' & Hi & HR)%Hat). cbn in Hr. split; [done|]. split; [done|]. exists ip. done.
    + destruct Hw as (Hr & (M' & U' & HR)%Hno). cbn in Hr. done.
Qed.

(** The path "/../f". *)
Lemma namex_spec_witness : exists ip w f', namex demo_sb 7 (fun _ => None) 0 [47; 46; 46; 47; 102; 0] false (replicate 14 0) demo_begun = Ok (Some ip, w) f' /\
  inum_of (icache f') ip = 2.
Proof.
  pose proof (@namex_spec _ demo_dev demo_laws demo_sb 7 (fun _ => None) demo_begun demo_view demo_inodes 0 [47; 46; 46; 47; 102; 0] (replicate 14 0) false
    demo_sb_ok demo_mounted demo_unlocked demo_tree ltac:(done) ltac:(done)) as H. cbv zeta in H.
  assert (Hwalk : walk demo_view demo_inodes (start demo_begun 0 [47; 46; 46; 47; 102; 0]) (FsPath.elements [47; 46; 46; 47; 102; 0] []) = Some 2)
    by (vm_compute; reflexivity).
  destruct (namex demo_sb 7 (fun _ => None) 0 [47; 46; 46; 47; 102; 0] false (replicate 14 0) demo_begun) as [[r w] f'|msg].
  - destruct H as (_ & _ & H). rewrite Hwalk in H. destruct H as (ip & -> & _ & Hi & _). exists ip, w, f'. split; [reflexivity|exact Hi].
  - exfalso. destruct H as [_ H]. revert H. vm_compute. by intros H; apply H.
Defined.

(** ** Open files *)

(** C24: fileread on an open file delivers its bytes from the offset to the end, at most [n],
    and moves the offset behind them, or returns -1 if the offset is behind the end; the disk
    and the tree of files stay as they are.  The offset and [n] add up to less than 2^32. *)
Theorem fileread_spec (sb : superblock) (pid st sz : Z) (killed : bool) (devread : Z -> option (Z -> Z -> M (fs logst) (option (list Z))))
    (k : kst) (fi ip : Z) (d : dinode) (v : view) (I : gmap Z dinode) (n : Z)
    (Hsb : sb_ok sb) (Hsz : MAXOPBLOCKS + 1 < sz) (HO : opened sb pid st sz k fi ip d v I)
    (Hr : f_readable (the_file fi (k_files k)) = true) (Hn : is_u32 n) (Hin : f_off (the_file fi (k_files k)) + n < 2 ^ 32) :
  let off := f_off (the_file fi (k_files k)) in
  exists r k', fileread sb pid killed devread fi n k = Ok r k' /\
    disk (lbio (fdev (k_fs k'))) = disk (lbio (fdev (k_fs k))) /\ idle sb pid st sz (k_fs k') v I /\
    if d_size d <? off then r = Return (-1) [] /\ k_files k' = k_files k
    else let l := slice (fdata v d) off (Z.min n (d_size d - off)) in
         r = Return (zlen l) l /\ f_off (the_file fi (k_files k')) = off + zlen l /\
         forall j, j <> fi -> the_file j (k_files k') = the_file j (k_files k).
Proof.
  intros off. pose proof (fileread_wp sb Hsb pid st sz killed Hsz devread k fi ip d v I n HO Hr Hn) as Hw.
  apply wp_Ok in Hw as (r & k' & E & HI & _ & HD & Hw). exists r, k'. split_and!; [done|done|done|]. fold off in Hw, Hin.
  rewrite (proj2 (Z.leb_gt (2 ^ 32) (off + n))), orb_false_r in Hw by done. destruct (Z.ltb_spec (d_size d) off) as [Hgt|Hle]; [done|].
  assert (Hoff : is_u32 off) by apply HO. unfold is_u32 in *.
  rewrite slice_fdata by lia. set (l := fbytes v d off (Z.min n (d_size d - off))) in *.
  assert (Hll : zlen l = Z.min n (d_size d - off)) by (apply zlen_fbytes; lia). destruct Hw as [-> Hf]. split; [done|].
  rewrite Hf. destruct (Z.ltb_spec 0 (zlen l)) as [Hp|Hz]; [|split; [fold off; lia|done]].
  unfold set_off, the_file. cbn [ftable upd]. split.
  - rewrite zget_zupd_eq by apply HO. cbn. apply u32_small. unfold is_u32. lia.
  - intros j Hj. by rewrite zget_zupd_ne.
Qed.

(** The small disk with the file open for reading and writing. *)
Definition demo_kst : kst := mkkst (mkfiles (mkfile FD_INODE 1 true true 0 0 1 :: replicate 99 (mkfile FD_NONE 0 false false 0 0 0)) (mkkmem (fun _ => 0) false 0) ∅) demo_fs [] 1.

Lemma demo_opened : opened demo_sb 7 2 12 demo_kst 0 0 demo_file demo_view demo_inodes.
Proof. split; try done. apply demo_idle. Qed.

Lemma fileread_spec_witness : exists k', fileread demo_sb 7 false (fun _ => None) 0 2 demo_kst = Ok (Return 2 [69; 76]) k' /\
  f_off (the_file 0 (k_files k')) = 3.
Proof.
  destruct (fileread_spec demo_sb 7 2 12 false (fun _ => None) demo_kst 0 0 demo_file demo_view demo_inodes 2 demo_sb_ok demo_sz demo_opened)
    as (r & k' & E & _ & _ & H); [done..|]. exists k'. rewrite E. cbv zeta in H.
  assert (Hl : slice (fdata demo_view demo_file) (f_off (the_file 0 (k_files demo_kst))) (Z.min 2 (d_size demo_file - f_off (the_file 0 (k_files demo_kst)))) = [69; 76])
    by (vm_compute; reflexivity).
  rewrite Hl in H. destruct H as (-> & Ho & _). split; [reflexivity|exact Ho].
Defined.

(** C5: filewrite on an open file puts the bytes at the offset and moves it behind them, and
    the other files stay.  If the machine stops after any number of its block writes, then
    after the recovery the file has the first [m] of the bytes, where [m] is a multiple of the
    chunk size or all of them, and everything else is as before.  It panics only if the disk
    may be full. *)
Theorem filewrite_spec (sb : superblock) (pid st sz : Z) (killed : bool) (devwrite : Z -> option (Z -> list Z -> M (fs logst) Z))
    (k : kst) (fi ip : Z) (d : dinode) (v : view) (I : gmap Z dinode) (addr : list Z)
    (Hsb : sb_ok sb) (Hsz : MAXOPBLOCKS + 1 < sz) (HO : opened sb pid st sz k fi ip d v I)
    (Hw : f_writable (the_file fi (k_files k)) = true) (Hbm : (size (bmaps sb) <= 4)%nat) (Hb : Forall is_u8 addr)
    (Hoff : f_off (the_file fi (k_files k)) <= d_size d) (Hfit : f_off (the_file fi (k_files k)) + zlen addr <= MAXFILE * BSIZE) :
  let off := f_off (the_file fi (k_files k)) in let i := inum_of (icache (k_fs k)) ip in
  let D := disk (lbio (fdev (k_fs k))) in
  match filewrite sb pid killed devwrite fi addr k with
  | Ok r k' => r = Return (zlen addr) [] /\ f_off (the_file fi (k_files k')) = off + zlen addr /\
      exists v' d' Wt, idle sb pid st sz (k_fs k') v' (<[i := d']> I) /\ fdata v' d' = splice (fdata v d) off addr /\
        (forall j d0, j <> i -> I !! j = Some d0 -> fdata v' d0 = fdata v d0) /\
        writes (lbio (fdev (k_fs k'))) = writes (lbio (fdev (k_fs k))) ++ Wt /\
        forall n, exists V v1 m, means st sz (replay D (take n Wt)) V /\ shows st sz V v1 /\
          image sb v I i (splice (fdata v d) off (take m addr)) v1 /\ (m = length addr \/ (max_chunk | Z.of_nat m))
  | Panic msg => msg = "balloc: out of blocks" /\ nfree sb v < flag d + 4 * chunks (zlen addr)
  end.
Proof.
  intros off i D. pose proof (filewrite_wp sb Hsb pid st sz killed Hsz devwrite k fi ip d v I addr HO Hw Hbm Hb Hoff Hfit) as H. unfold wp in H.
  destruct (filewrite sb pid killed devwrite fi addr k) as [r k'|msg]; [|exact H]. destruct H as (-> & v' & d' & [HI Hd Ho Hf (Wt & HW & _ & HC)]).
  split; [done|]. split.
  - rewrite Hf. unfold set_off, the_file. cbn [ftable upd]. by rewrite zget_zupd_eq by apply HO.
  - exists v', d', Wt. split; [exact HI|]. split; [exact Hd|]. split; [exact Ho|]. split; [exact HW|exact HC].
Qed.

Lemma filewrite_spec_witness : exists k' v' d', filewrite demo_sb 7 false (fun _ => None) 0 [33; 33] demo_kst = Ok (Return 2 []) k' /\
  f_off (the_file 0 (k_files k')) = 3 /\ slice (fdata v' d') 0 4 = [127; 33; 33; 70].
Proof.
  pose proof (filewrite_spec demo_sb 7 2 12 false (fun _ => None) demo_kst 0 0 demo_file demo_view demo_inodes [33; 33] demo_sb_ok demo_sz demo_opened
    ltac:(done) ltac:(vm_compute; lia) ltac:(concrete_bytes) ltac:(vm_compute; discriminate) ltac:(vm_compute; discriminate)) as H. cbv zeta in H.
  assert (Hl : slice (splice (fdata demo_view demo_file) (f_off (the_file 0 (k_files demo_kst))) [33; 33]) 0 4 = [127; 33; 33; 70]) by (vm_compute; reflexivity).
  destruct (filewrite demo_sb 7 false (fun _ => None) 0 [33; 33] demo_kst) as [r k'|msg].
  - destruct H as (-> & Ho & v' & d' & Wt & _ & Hd & _). exists k', v', d'. split; [reflexivity|]. split; [exact Ho|]. rewrite Hd. exact Hl.
  - exfalso. destruct H as [_ H]. revert H. vm_compute. discriminate.
Defined.
