(* ===== verification/SysSpec.v ===== *)
(** * What the file system calls promise

    The properties of sysfile.c: what create, unlink and the calls on descriptors do to the
    tree of directories, the file table and the disk, each evaluated on the small disk of
    FsDemo.v. *)

From S2P Require Import Prelude Bytes Kalloc Pipe Bio Log Blocks LogBlocks Fs FsBlocks FsInode FsData FsWrite FsTrunc FsCache FsDir FsState FsPath FsDemo File SysFile Descriptors FileSpec SysFileSpec FsSpec.
From stdpp Require Import gmap.
#[local] Open Scope Z_scope.

(** ** Transactions *)

Section calls.
Context (sb : superblock) (Hsb : sb_ok sb) (pid st sz : Z) (Hsz : MAXOPBLOCKS + 1 < sz).
Implicit Types (f : fs logst) (v : view) (I : gmap Z dinode) (k : kst).

Lemma transaction_wp {A} (m : Z -> M (fs logst) A) k v I (Q : A -> view -> gmap Z dinode -> list inode -> Prop) (E : string -> Prop) :
  idle sb pid st sz (k_fs k) v I ->
  (let D := disk (lbio (fdev (k_fs k))) in let Wr := writes (lbio (fdev (k_fs k))) in
   forall f, icache f = icache (k_fs k) -> @mounted _ _ (in_trans pid st sz Hsz D Wr) sb f v I ∅ ->
     wp (m (k_cwd k)) (fun r f' => exists v' I', @mounted _ _ (in_trans pid st sz Hsz D Wr) sb f' v' I' ∅ /\ Q r v' I' (icache f')) E f) ->
  wp (transaction pid m)
    (fun r k' => exists v' I', idle sb pid st sz (k_fs k') (rest v') I' /\ Q r v' I' (icache (k_fs k')) /\
       k_files k' = k_files k /\ k_ofile k' = k_ofile k /\ k_cwd k' = k_cwd k /\
       crash_safe st sz (disk (lbio (fdev (k_fs k)))) v' (k_fs k') (writes (lbio (fdev (k_fs k))))) E k.
Proof.
  intros HI Hm. unfold transaction. eapply wp_step_run; [reflexivity|].
  eapply wp_onfs_step; [by apply (begin_wp sb pid st sz Hsz (k_fs k) v I)| |done]. intros [] f1 [Hc M1]. cbn [k_cwd upd].
  eapply wp_onfs_step; [by apply Hm| |done]. intros r f2 (v' & I' & M2 & HQ).
  eapply wp_onfs_step; [exact (end_wp sb pid st sz Hsz _ _ f2 v' I' M2)| |done]. intros [] f3 (Hc3 & HI3 & Hcr).
  apply wp_ret. exists v', I'. cbn. rewrite Hc3. done.
Qed.

(** ** unlink *)

Context (devread : Z -> option (Z -> Z -> M (fs logst) (option (list Z)))) (devwrite : Z -> option (Z -> list Z -> M (fs logst) Z)).

(** What the process sees of the file system. *)
Record sees k v I : Prop := mksees {
  se_idle : idle sb pid st sz (k_fs k) v I; se_unlocked : all_unlocked (k_fs k); se_tree : tree_ok v I; se_cwd : used (icache (k_fs k)) (k_cwd k) }.

Lemma tree_rest v I : tree_ok v I -> tree_ok (rest v) I.
Proof. intros [H1 H2 H3]. by split. Qed.

Lemma sys_unlink_wp argstr junk k v I path (i0 := start (k_fs k) (k_cwd k) path) (es := FsPath.elements path []) :
  sees k v I -> (size (bmaps sb) <= 6)%nat -> zlen junk = DIRSIZ -> sb_ninodes sb <= 2 ^ 16 -> Forall is_u8 path -> argstr 0 = Some path ->
  unlinkable v I (refs (icache (k_fs k))) i0 es ->
  wp (sys_unlink sb pid devread devwrite argstr junk)
    (fun r k' => exists v' I', sees k' (rest v') I' /\ k_files k' = k_files k /\ k_ofile k' = k_ofile k /\ k_cwd k' = k_cwd k /\
       (forall j, refs (icache (k_fs k')) j = refs (icache (k_fs k)) j) /\
       crash_safe st sz (disk (lbio (fdev (k_fs k)))) v' (k_fs k') (writes (lbio (fdev (k_fs k)))) /\
       unlink_effect v I (refs (icache (k_fs k))) i0 es r v' I') (crowded (k_fs k)) k.
Proof.
  intros [HI Hun HT HU] Hbm Hjunk Hnin Hp Harg HL. unfold sys_unlink. rewrite Harg. set (R := refs (icache (k_fs k))).
  assert (Hlog : vlog v = ∅) by (by rewrite (id_view _ _ _ _ _ _ _ HI)).
  eapply wp_mono; [apply (transaction_wp _ k v I (fun r v' I' C => (forall ip, 0 <= ip < NINODE -> i_locked (zget C ip) = false) /\
    tree_ok v' I' /\ used C (k_cwd k) /\ (forall j, refs C j = R j) /\ unlink_effect v I R i0 es r v' I') (crowded (k_fs k)) HI)| |done].
  - intros D Wr f Hc M. assert (Hunf : all_unlocked f) by (intros ip Hip; unfold the_inode; rewrite Hc; by apply (Hun ip)).
    pose proof (@fstate_start _ _ (in_trans pid st sz Hsz D Wr) sb Hsb pid f v I M Hunf) as H0. rewrite Hc in H0. fold R in H0.
    assert (Hst : start f (k_cwd k) path = i0) by (unfold start, i0; by rewrite Hc).
    eapply wp_mono; [apply (unlink_path_wp (L := in_trans pid st sz Hsz D Wr) sb Hsb pid devread devwrite junk Hjunk Hnin f v I R (k_cwd k) path H0 HT)| |].
    + by rewrite Hc.
    + done.
    + done.
    + cbn. unfold MAXOPBLOCKS. lia.
    + apply HL.
    + rewrite Hst. apply HL.
    + rewrite Hst. intros i w d j dj Ew Ec Hd Hj Ht He. by apply (ul_dir _ _ _ _ _ HL i w d j dj).
    + rewrite Hst. fold es. intros r f' HQ.
      destruct (unlinks_done (L := in_trans pid st sz Hsz D Wr) sb Hsb pid devread devwrite f v I R i0 es r f' (k_cwd k) H0 HT HL ltac:(by rewrite Hc) HQ)
        as (v' & I' & M' & HR). exists v', I'. split; [exact M'|exact HR].
    + intros msg. unfold crowded. by rewrite Hc.
  - intros r k' (v' & I' & HI' & (Hun' & HT' & HU' & HR' & HQ') & Hf & Ho & Hcw & Hcr). exists v', I'.
    split; [|by split_and!]. split; [done|exact Hun'|by apply tree_rest|by rewrite Hcw].
Qed.
End calls.

(** C9: unlink of a path in the tree.  If the path leads to something that is not a directory,
    or to an empty directory, the call returns 0: exactly that name is gone from exactly its
    directory, which has one link less if a directory was removed; the link count of the inode
    went down, or the inode is free again if that was its last link and nobody has it open; and
    every other file is as it was.  In all other cases, a directory that is not empty among
    them, the call returns -1 and nothing changed.  The directories stay in order, no reference
    and no lock is left over, and a crash during the call leaves the disk as before or as after.
    The only panic is a full inode cache.  No process may be in an empty directory that is
    removed with its last link. *)
Theorem sys_unlink_spec (sb : superblock) (pid st sz : Z) (devread : Z -> option (Z -> Z -> M (fs logst) (option (list Z))))
    (devwrite : Z -> option (Z -> list Z -> M (fs logst) Z)) (argstr : Z -> option (list Z)) (junk : list Z)
    (k : kst) (v : view) (I : gmap Z dinode) (path : list Z)
    (Hsb : sb_ok sb) (Hsz : MAXOPBLOCKS + 1 < sz) (Hbm : (size (bmaps sb) <= 6)%nat) (Hnin : sb_ninodes sb <= 2 ^ 16) (Hjunk : zlen junk = DIRSIZ)
    (HS : sees sb pid st sz k v I) (Hp : Forall is_u8 path) (Harg : argstr 0 = Some path)
    (HL : unlinkable v I (refs (icache (k_fs k))) (start (k_fs k) (k_cwd k) path) (FsPath.elements path [])) :
  match sys_unlink sb pid devread devwrite argstr junk k with
  | Ok r k' => exists v' I', sees sb pid st sz k' (rest v') I' /\
      (forall j, refs (icache (k_fs k')) j = refs (icache (k_fs k)) j) /\
      crash_safe st sz (disk (lbio (fdev (k_fs k)))) v' (k_fs k') (writes (lbio (fdev (k_fs k)))) /\
      match target v I (start (k_fs k) (k_cwd k) path) (FsPath.elements path []) with
      | Some (i, w, j) => r = 0 /\
          (forall m n, child v' I' m n = if decide (m = i /\ name_of n = w \/ m = j /\ I' !! j = None) then None else child v I m n) /\
          (exists dj, I !! j = Some dj /\ (I' !! j <> None -> fdata v' dj = fdata v dj) /\
             I' !! j = if decide (d_nlink dj = 1 /\ refs (icache (k_fs k)) j = 0) then None else Some (add_nlink (-1) dj)) /\
          (exists d d', I !! i = Some d /\ I' !! i = Some d' /\ d_type d' = d_type d /\ d_nlink d' = d_nlink d - (if is_dir I j then 1 else 0)) /\
          forall m d0, m <> i -> m <> j -> I !! m = Some d0 -> I' !! m = Some d0 /\ fdata v' d0 = fdata v d0
      | None => r = -1 /\ v' = v /\ I' = I
      end
  | Panic msg => msg = "iget: no inodes" /\ NINODE - 1 <= Z.of_nat (size (live (icache (k_fs k))))
  end.
Proof.
  pose proof (sys_unlink_wp sb Hsb pid st sz Hsz devread devwrite argstr junk k v I path HS Hbm Hjunk Hnin Hp Harg HL) as Hw. unfold wp in Hw.
  destruct (sys_unlink sb pid devread devwrite argstr junk k) as [r k'|msg]; [|exact Hw].
  destruct Hw as (v' & I' & HS' & _ & _ & _ & HR & HC & HE). exists v', I'. split; [exact HS'|]. split; [exact HR|]. split; [exact HC|].
  unfold unlink_effect in HE. destruct (target v I _ _) as [[[i w] j]|] eqn:Et; [|exact HE].
  destruct HE as (-> & d & dj & n & Hd & Hty & Hj & Hij & Hn & U). split; [done|].
  unfold target in Et. destruct (walk_parent v I _ _) as [[i' w']|] eqn:Ew; [|done]. destruct (is_dots w'); [done|].
  destruct (child v I i' w') as [j'|]; [|done]. destruct (removable v I j'); [|done]. injection Et as -> -> ->.
  destruct (walk_parent_dir v I _ _ _ _ Ew) as [_ Hww]. destruct (tr_dir v I (se_tree _ _ _ _ _ _ _ HS) i d Hd Hty) as [Hdv _].
  set (gone := bool_decide _) in U. assert (Hgone : I' !! j = if gone then None else Some (add_nlink (-1) dj)).
  { rewrite (unlinked_lookup _ _ _ _ _ _ _ _ _ _ j U Hij), decide_True by done. done. }
  split; [|split; [|split]].
  - intros m n'. rewrite (unlinked_child v I i d n j dj _ v' I' w m n' U Hd Hty Hj Hij Hdv); [|by apply (ul_names _ _ _ _ _ HL i w d Ew)|done].
    rewrite Hww, Hgone. apply decide_ext. destruct gone; naive_solver.
  - exists dj. split; [done|]. rewrite Hgone. split; [intros Hg; apply (un_other _ _ _ _ _ _ _ _ _ _ U j); [done|by destruct gone|done]|].
    unfold gone. case_bool_decide; case_decide; tauto || done.
  - destruct (unlinked_dir _ _ _ _ _ _ _ _ _ _ U Hij) as (d' & Hd' & _ & Ht' & Hn'). exists d, d'. split_and!; try done.
    rewrite Hn'. unfold back_link, is_dir. by rewrite Hj.
  - intros m d0 Hmi Hmj Hm. rewrite (unlinked_lookup _ _ _ _ _ _ _ _ _ _ m U Hij), decide_False by done. split; [done|].
    by apply (un_other _ _ _ _ _ _ _ _ _ _ U m).
Qed.

(** ** The small disk *)

Definition demo_arg (path : list Z) (n : Z) : option (list Z) := if n =? 0 then Some path else None.
Definition demo_proc : kst := mkkst (k_files demo_kst) demo_fs (replicate 16 None) 1.

Lemma demo_sees : sees demo_sb 7 2 12 demo_proc demo_view demo_inodes.
Proof. split; [apply demo_idle|apply demo_unlocked|apply demo_tree|done]. Qed.

Lemma demo_names : names_ok demo_entries.
Proof.
  intros name k j. change (zlen demo_entries / 16) with 4. intros Hk Hj [_ E1%Z.eqb_eq%namecmp_ok]%andb_prop [_ E2%Z.eqb_eq%namecmp_ok]%andb_prop.
  rewrite E1 in E2. assert (Hk' : k = 0 \/ k = 1 \/ k = 2 \/ k = 3) by lia. assert (Hj' : j = 0 \/ j = 1 \/ j = 2 \/ j = 3) by lia.
  destruct Hk' as [-> | [-> | [-> | ->]]], Hj' as [-> | [-> | [-> | ->]]]; done || (vm_compute in E2; discriminate).
Qed.

(** The entries of the file and of the directory in the root. *)
Lemma demo_only j : j = 2 \/ j = 3 -> only_link demo_view demo_inodes 1 j j.
Proof.
  intros Hj m dm q Hm [[-> ->]|[[-> ->]|[-> ->]]]%demo_lookup Ht; [rewrite demo_root_data|done|rewrite demo_sub_data].
  - change (zlen demo_entries / 16) with 4. intros Hq. rewrite demo_entry_inum by done. repeat case_decide; lia.
  - change (zlen demo_dots / 16) with 2. intros Hq. rewrite demo_dots_inum by done. case_decide; lia.
Qed.

Lemma demo_unlinkable w j : w = [102] /\ j = 2 \/ w = [100] /\ j = 3 -> unlinkable demo_view demo_inodes (refs (icache demo_fs)) ROOTINO [w].
Proof.
  intros Hwj. assert (Hw : walk_parent demo_view demo_inodes ROOTINO [w] = Some (1, w)) by (destruct Hwj as [[-> _]|[-> _]]; reflexivity).
  assert (Hc : child demo_view demo_inodes 1 w = Some j) by (destruct Hwj as [[-> ->]|[-> ->]]; vm_compute; reflexivity).
  assert (Hl : lookup_name demo_entries w = Some j) by (destruct Hwj as [[-> ->]|[-> ->]]; vm_compute; reflexivity).
  assert (Hj : j = 2 \/ j = 3) by tauto. split; rewrite ?Hw.
  - intros i d [[_ ->]|[[_ ->]|[_ ->]]]%demo_lookup; done.
  - intros i u d [= <- <-] [[_ ->]|[[? _]|[? _]]]%demo_lookup; [|lia..]. rewrite demo_root_data. apply demo_names.
  - intros i u [= <- <-] _ E. rewrite Hc in E. injection E as ->. lia.
  - intros i u d m dm [= <- <-] E. rewrite Hc in E. injection E as <-. intros [[_ ->]|[[? _]|[? _]]]%demo_lookup Hm Ht _; [|lia..]. split; [done|]. intros _.
    destruct Hj as [-> | ->]; [|vm_compute; reflexivity]. apply demo_lookup in Hm as [[? _]|[[_ ->]|[? _]]]; [lia|done|lia].
  - intros i u m dm d n [= <- <-] E. rewrite Hc in E. injection E as <-. intros _ _ [[_ ->]|[[? _]|[? _]]]%demo_lookup; [|lia..].
    rewrite demo_root_data, Hl. intros [= <-]. split; [by apply demo_only|unfold ROOTINO; lia].
Qed.

(** The file "/f" and the empty directory "/d". *)
Lemma sys_unlink_spec_witness :
  (exists k' v' I', sys_unlink demo_sb 7 (fun _ => None) (fun _ => None) (demo_arg [47; 102; 0]) (replicate 14 0) demo_proc = Ok 0 k' /\
     sees demo_sb 7 2 12 k' (rest v') I' /\ child v' I' 1 [102] = None /\ child v' I' 1 [46] = Some 1) /\
  exists k' v' I', sys_unlink demo_sb 7 (fun _ => None) (fun _ => None) (demo_arg [47; 100; 0]) (replicate 14 0) demo_proc = Ok 0 k' /\
     sees demo_sb 7 2 12 k' (rest v') I' /\ child v' I' 1 [100] = None /\ child v' I' 1 [102] = Some 2 /\ I' !! 3 = None /\ (d_nlink <$> I' !! 1) = Some 1.
Proof.
  assert (Hgo : forall w j, w = [102] /\ j = 2 \/ w = [100] /\ j = 3 -> exists k' v' I',
    sys_unlink demo_sb 7 (fun _ => None) (fun _ => None) (demo_arg ([47] ++ w ++ [0])) (replicate 14 0) demo_proc = Ok 0 k' /\ sees demo_sb 7 2 12 k' (rest v') I' /\
    (forall m n, child v' I' m n = if decide (m = 1 /\ name_of n = w \/ m = j /\ I' !! j = None) then None else child demo_view demo_inodes m n) /\
    (exists dj, demo_inodes !! j = Some dj /\ (I' !! j <> None -> fdata v' dj = fdata demo_view dj) /\
       I' !! j = if decide (d_nlink dj = 1 /\ refs (icache demo_fs) j = 0) then None else Some (add_nlink (-1) dj)) /\
    exists d', I' !! 1 = Some d' /\ d_nlink d' = 2 - (if is_dir demo_inodes j then 1 else 0)).
  { intros w j Hwj. set (path := [47] ++ w ++ [0]). assert (Hst : start (k_fs demo_proc) (k_cwd demo_proc) path = ROOTINO /\ FsPath.elements path [] = [w]).
    { unfold path. destruct Hwj as [[-> _]|[-> _]]; split; vm_compute; reflexivity. }
    destruct Hst as [Hst He]. assert (Hp : Forall is_u8 path) by (unfold path; destruct Hwj as [[-> _]|[-> _]]; concrete_bytes).
    pose proof (sys_unlink_spec demo_sb 7 2 12 (fun _ => None) (fun _ => None) (demo_arg path) (replicate 14 0) demo_proc demo_view demo_inodes path
      demo_sb_ok demo_sz ltac:(vm_compute; lia) ltac:(vm_compute; discriminate) ltac:(done) demo_sees Hp ltac:(done)) as H. rewrite Hst, He in H. specialize (H (demo_unlinkable w j Hwj)).
    assert (Ht : target demo_view demo_inodes ROOTINO [w] = Some (1, w, j)) by (destruct Hwj as [[-> ->]|[-> ->]]; vm_compute; reflexivity). rewrite Ht in H.
    destruct (sys_unlink demo_sb 7 (fun _ => None) (fun _ => None) (demo_arg path) (replicate 14 0) demo_proc) as [r k'|msg].
    - destruct H as (v' & I' & HS & _ & _ & -> & Hc & Hdj & (d & d' & Hd & Hd' & _ & Hn) & _). exists k', v', I'. split; [reflexivity|]. split; [exact HS|]. split; [exact Hc|]. split; [exact Hdj|].
      exists d'. split; [exact Hd'|]. apply demo_lookup in Hd as [[_ ->]|[[? _]|[? _]]]; [exact Hn|lia|lia].
    - exfalso. destruct H as [_ H]. revert H. vm_compute. by intros H; apply H. }
  split.
  - destruct (Hgo [102] 2 ltac:(left; done)) as (k' & v' & I' & E & HS & Hc & _). exists k', v', I'. split; [exact E|]. split; [exact HS|]. rewrite (Hc 1 [102]), (Hc 1 [46]).
    split; [by rewrite decide_True by (left; split; reflexivity)|]. rewrite decide_False by (intros [[_ E']|[E' _]]; discriminate). vm_compute. reflexivity.
  - destruct (Hgo [100] 3 ltac:(right; done)) as (k' & v' & I' & E & HS & Hc & (dj & Hj & _ & HI) & d' & Hd' & Hn). exists k', v', I'. split; [exact E|]. split; [exact HS|]. rewrite (Hc 1 [100]), (Hc 1 [102]).
    split; [by rewrite decide_True by (left; split; reflexivity)|]. split; [rewrite decide_False by (intros [[_ E']|[E' _]]; discriminate); vm_compute; reflexivity|]. split.
    + apply demo_lookup in Hj as [[? _]|[[? _]|[_ ->]]]; [lia|lia|]. rewrite HI, decide_True; [done|]. split; [done|vm_compute; reflexivity].
    + rewrite Hd'. cbn. rewrite Hn. vm_compute. reflexivity.
Defined.

(** ** create *)

(** C10: create, for files, devices and directories.  Where the path's last name is free in its
    directory, a new inode with one link is there under exactly that name, locked and referenced
    once more, and all other names and files are as they were; a new directory has exactly the
    names "." for itself and ".." for its parent, which has one link more.  The directories stay
    in order.  Where the name is taken by a file and a file is asked for, that file is returned;
    in all other cases the result is 0 and nothing changed.  The only panics are a full disk
    (fewer than five free blocks for a directory, two for the others), directory, inode table or
    inode cache.  The log must have room for the blocks of the bitmap and eight more for a
    directory, four for the others. *)
Theorem create_spec {S : Type} {B : BlockDev S} {L : BlockLaws S B} (sb : superblock) (pid : Z)
    (devread : Z -> option (Z -> Z -> M (fs S) (option (list Z)))) (devwrite : Z -> option (Z -> list Z -> M (fs S) Z)) (junk : list Z)
    (f : fs S) (v : view) (I : gmap Z dinode) (cwd : Z) (path : list Z) (type major minor : Z)
    (Hsb : sb_ok sb) (Hnin : sb_ninodes sb <= 2 ^ 16) (Hjunk : zlen junk = DIRSIZ) (HM : mounted sb f v I ∅) (Hun : all_unlocked f)
    (HT : tree_ok v I) (HU : used (icache f) cwd) (Hp : Forall is_u8 path) (Ht : is_s16 type) (Ht0 : type <> 0)
    (Htd : type = T_DIR -> forall i d, I !! i = Some d -> 0 <= d_nlink d < 2 ^ 15 - 1)
    (Hmj : is_s16 major) (Hmn : is_s16 minor) (Hlog : vlog v = ∅) (Hmax : Z.of_nat (size (bmaps sb)) + (if type =? T_DIR then 8 else 4) <= max_op) :
  let i0 := start f cwd path in let es := FsPath.elements path [] in
  let same f' := mounted sb f' v I ∅ /\ all_unlocked f' /\ forall m, refs (icache f') m = refs (icache f) m in
  let one_more f' ip j := inum_of (icache f') ip = j /\ (forall jp, 0 <= jp < NINODE -> i_locked (the_inode jp f') = bool_decide (jp = ip)) /\
    forall m, refs (icache f') m = refs (icache f) m + (if decide (m = j) then 1 else 0) in
  match create sb pid devread devwrite junk cwd path type major minor f with
  | Ok r f' =>
      match walk_parent v I i0 es with
      | None => r = None /\ same f'
      | Some (i, w) =>
          match child v I i w with
          | Some j => if (type =? T_FILE) && is_file I j then exists ip, r = Some ip /\ mounted sb f' v I ∅ /\ one_more f' ip j
                      else r = None /\ same f'
          | None => exists ip j nd v' I', r = Some ip /\ mounted sb f' v' I' ∅ /\ one_more f' ip j /\ tree_ok v' I' /\
              I !! j = None /\ I' !! j = Some nd /\ new_inode type major minor nd /\
              (type = T_DIR -> forall n, child v' I' j n =
                 if decide (name_of n = name_of DOTDOT) then Some i else if decide (name_of n = name_of DOT) then Some j else None) /\
              (exists d d', I !! i = Some d /\ I' !! i = Some d' /\ d_type d' = d_type d /\ d_nlink d' = d_nlink d + (if type =? T_DIR then 1 else 0)) /\
              (forall m n, is_Some (I !! m) -> child v' I' m n = if decide (m = i /\ name_of n = w) then Some j else child v I m n) /\
              forall m d, m <> i -> I !! m = Some d -> I' !! m = Some d /\ fdata v' d = fdata v d
          end
      end
  | Panic msg => no_space sb f v I i0 es type msg
  end.
Proof.
  intros i0 es same one_more. pose proof (fstate_start sb Hsb pid f v I HM Hun) as H0.
  pose proof (create_wp sb Hsb pid devread devwrite junk Hjunk Hnin f v I _ cwd path type major minor H0 HT HU Hp Ht Ht0 Htd Hmj Hmn Hlog Hmax) as Hw.
  unfold wp in Hw. destruct (create sb pid devread devwrite junk cwd path type major minor f) as [r f'|msg]; [|exact Hw].
  assert (Hsame : forall g, restored sb pid f v I (refs (icache f)) g -> same g).
  { intros g [Hg _]. split; [apply Hg|]. split; [by eapply fstate_unlocked|apply Hg]. }
  assert (Hone : forall g v' I' ip j, fstate sb pid g v' I' {[ip]} (more (refs (icache f)) j) -> holds g ip j -> one_more g ip j).
  { intros g v' I' ip j Hg [_ Hj]. split; [done|]. split; [|apply Hg]. intros jp Hjp. rewrite (st_lock _ _ _ _ _ _ _ Hg jp Hjp).
    apply bool_decide_ext. apply elem_of_singleton. }
  fold i0 es in Hw. unfold creates in Hw. destruct (walk_parent v I i0 es) as [[i w]|] eqn:Ew; [|destruct Hw as [Hr Hs]; split; [done|by apply Hsame]].
  destruct (walk_parent_dir v I es i0 i w Ew) as [Hdir Hww].
  destruct (child v I i w) as [j|] eqn:Ec.
  - destruct ((type =? T_FILE) && is_file I j); [|destruct Hw as [Hr Hs]; split; [done|by apply Hsame]].
    destruct Hw as (ip & Hr & Hg & Hh & _). exists ip. split; [done|]. split; [apply Hg|by eapply Hone].
  - destruct Hw as (ip & j & d & name & nd & v' & I' & Hr & Hd & Hn & Hnd & En & Hg & Hh & _). exists ip, j, nd, v', I'.
    unfold is_dir in Hdir. rewrite Hd in Hdir. apply Z.eqb_eq in Hdir. destruct (tr_dir v I HT i d Hd Hdir) as [Hdv _].
    assert (Hno : lookup_name (fdata v d) name = None).
    { rewrite (lookup_name_cong _ name w) by congruence. unfold child in Ec. rewrite Hd, Hdir in Ec. cbn in Ec. unfold found in Ec.
      by destruct (lookup_name (fdata v d) w). }
    pose proof (en_new _ _ _ _ _ _ _ _ _ En) as Hnew. pose proof (en_dir _ _ _ _ _ _ _ _ _ En) as (d' & EI & _ & Hty' & Hnl').
    assert (Hnt : d_type nd = type /\ d_nlink nd = 1) by (unfold new_inode in Hnd; destruct (Z.eqb_spec type T_DIR); rewrite Hnd; done). destruct Hnt as [Hnt Hn1].
    split; [done|]. split; [apply Hg|]. split; [by eapply Hone|]. split.
    { eapply (entered_tree _ _ _ _ _ _ _ _ _ HT En Hd Hdir); [|lia]. rewrite Hnt. intros Et. by apply (Htd Et i). }
    split; [done|]. split; [rewrite EI, lookup_insert_ne by congruence; apply lookup_insert_eq|]. split; [done|]. split; [|split; [|split]].
    + intros Et n. eapply entered_dots; [exact En|exact Hd|congruence].
    + exists d, d'. split; [done|]. split; [rewrite EI; apply lookup_insert_eq|]. split; [done|]. rewrite Hnl'. unfold back_link. by rewrite Hnt.
    + intros m n Hm. rewrite (entered_child _ _ _ _ _ _ _ _ _ m n En) by done. by rewrite Hn.
    + intros m d0 Hmi Hm. split; [rewrite EI, !lookup_insert_ne by congruence; done|]. by apply (en_other _ _ _ _ _ _ _ _ _ En m).
Qed.

#[local] Existing Instance demo_dev.

(** The directory "/g". *)
Lemma create_spec_witness : exists ip f' v' I', create demo_sb 7 (fun _ => None) (fun _ => None) (replicate 14 0) 1 [47; 103; 0] T_DIR 0 0 demo_begun = Ok (Some ip) f' /\
  @mounted _ _ demo_laws demo_sb f' v' I' ∅ /\ child v' I' 1 [103] = Some (inum_of (icache f') ip) /\ child v' I' 1 [102] = Some 2 /\
  child v' I' (inum_of (icache f') ip) [46; 46] = Some 1 /\ (d_nlink <$> I' !! 1) = Some 3.
Proof.
  pose proof (@create_spec _ demo_dev demo_laws demo_sb 7 (fun _ => None) (fun _ => None) (replicate 14 0) demo_begun demo_view demo_inodes 1 [47; 103; 0] T_DIR 0 0
    demo_sb_ok ltac:(vm_compute; discriminate) ltac:(done) demo_mounted demo_unlocked demo_tree ltac:(done) ltac:(concrete_bytes) ltac:(done) ltac:(done)
    ltac:(intros _ i d [[_ ->]|[[_ ->]|[_ ->]]]%demo_lookup; cbn; lia) ltac:(done) ltac:(done) ltac:(done) ltac:(vm_compute; discriminate)) as H. cbv zeta in H.
  assert (Hw : walk_parent demo_view demo_inodes (start demo_begun 1 [47; 103; 0]) (FsPath.elements [47; 103; 0] []) = Some (1, [103])) by (vm_compute; reflexivity).
  assert (Hc : child demo_view demo_inodes 1 [103] = None) by (vm_compute; reflexivity).
  assert (Hf : child demo_view demo_inodes 1 [102] = Some 2) by (vm_compute; reflexivity).
  destruct (create demo_sb 7 (fun _ => None) (fun _ => None) (replicate 14 0) 1 [47; 103; 0] T_DIR 0 0 demo_begun) as [r f'|msg].
  - rewrite Hw, Hc in H. destruct H as (ip & j & nd & v' & I' & -> & HM & (Hj & _) & _ & _ & _ & _ & Hdots & (d & d' & Hd & Hd' & _ & Hn) & Hch & _).
    exists ip, f', v', I'. split; [reflexivity|]. split; [exact HM|]. rewrite !(Hch 1), Hj, Hf, (Hdots eq_refl) by (eexists; reflexivity).
    split; [by rewrite decide_True by (split; reflexivity)|]. split; [by rewrite decide_False by (intros [_ E]; discriminate)|]. split; [reflexivity|].
    rewrite Hd'. cbn. apply demo_lookup in Hd as [[_ ->]|[[? _]|[? _]]]; [by rewrite Hn|lia|lia].
  - exfalso. destruct H as [[_ H]|[[_ H]|(i & w & d & Ew & Hd & H)]].
    + revert H. vm_compute. by intros H; apply H.
    + destruct (H 4 ltac:(cbn; lia)) as [d Hd]. by rewrite demo_inodes_free in Hd.
    + rewrite Hw in Ew. injection Ew as <- <-. apply demo_lookup in Hd as [[_ ->]|[[? _]|[? _]]]; [|lia..].
      destruct H as [[_ H]|[_ H]]; revert H; vm_compute; discriminate.
Defined.

(** ** Descriptors *)

(** C18: dup, close, open and pipe keep the count of every open file at the number of its
    references: those of other processes and one for each descriptor that names it.  dup
    never panics.  The failing exits are included: no descriptor or file is lost, or released
    twice, when the table or the descriptors run out half way. *)
Theorem descriptors_counted (kend : Z) (sb : superblock) (pid : Z)
    (devread : Z -> option (Z -> Z -> M (fs logst) (option (list Z)))) (devwrite : Z -> option (Z -> list Z -> M (fs logst) Z))
    (argint : Z -> option Z) (argptr : Z -> Z -> option Z) (argstr : Z -> option (list Z)) (junk page : list Z)
    (other : Z -> Z) (k : kst) (Hother : forall f, 0 <= other f) (H : fds_ok other k) :
  (exists r k', sys_dup argint k = Ok r k' /\ fds_ok other k') /\
  (forall r k', sys_close kend sb pid argint k = Ok r k' -> fds_ok other k') /\
  (forall r k', sys_open kend sb pid devread devwrite argint argstr junk k = Ok r k' -> fds_ok other k') /\
  (forall r k', sys_pipe kend sb pid argptr page k = Ok r k' -> fds_ok other k').
Proof.
  split; [apply wp_Ok; by apply sys_dup_wp|]. split; [|split]; intros r k' E.
  - pose proof (sys_close_wp kend sb pid argint other Hother k H) as W. unfold wp in W. by rewrite E in W.
  - pose proof (sys_open_wp kend sb pid devread devwrite argint argstr junk other k H) as W. unfold wp in W. by rewrite E in W.
  - pose proof (sys_pipe_wp kend sb pid argptr other Hother page k H) as W. unfold wp in W. by rewrite E in W.
Qed.

Definition demo_open_proc : kst := mkkst (k_files demo_kst) demo_fs (Some 0 :: replicate 15 None) 1.

Lemma demo_fds : fds_ok (fun _ => 0) demo_open_proc.
Proof.
  split; [done|]. split; [split; [done|]|].
  - intros f Hf. destruct (decide (f = 0)) as [->|Hn]; [done|]. replace (names (k_ofile demo_open_proc) f) with 0.
    + unfold the_file, zget. rewrite zlookup_to_nat by lia. cbn [demo_open_proc k_files demo_kst ftable]. destruct (Z.to_nat f) as [|n] eqn:E; [lia|].
      change (f_ref (default inhabitant (replicate 99 (mkfile FD_NONE 0 false false 0 0 0) !! n)) = 0).
      by rewrite lookup_replicate_2 by (change NFILE with 100%nat in Hf; lia).
    + cbn. unfold fd_is. rewrite (decide_False (P := Some 0 = Some f)) by congruence. done.
  - intros fd f Hfd. unfold zget. rewrite zlookup_to_nat by lia. cbn [demo_open_proc k_ofile]. destruct (Z.to_nat fd) as [|n].
    + cbn. injection 1 as <-. done.
    + change (default inhabitant (replicate 15 None !! n) = Some f -> 0 <= f < Z.of_nat NFILE). destruct (replicate 15 None !! n) as [o|] eqn:E; [|done]. by apply lookup_replicate in E as [-> _].
Qed.

Lemma descriptors_counted_witness : (exists r k', sys_dup (fun _ => Some 0) demo_open_proc = Ok r k' /\ fds_ok (fun _ => 0) k') /\
  exists k', sys_open 0 demo_sb 7 (fun _ => None) (fun _ => None) (fun _ => Some 0) (demo_arg [47; 102; 0]) (replicate 14 0) demo_open_proc = Ok 1 k' /\ fds_ok (fun _ => 0) k'.
Proof.
  pose proof (descriptors_counted 0 demo_sb 7 (fun _ => None) (fun _ => None) (fun _ => Some 0) (fun _ _ => None) (demo_arg [47; 102; 0]) (replicate 14 0) []
    (fun _ => 0) demo_open_proc ltac:(done) demo_fds) as (H1 & _ & H3 & _). split; [exact H1|].
  assert (E : match sys_open 0 demo_sb 7 (fun _ => None) (fun _ => None) (fun _ => Some 0) (demo_arg [47; 102; 0]) (replicate 14 0) demo_open_proc with
              | Ok r _ => r | Panic _ => -2 end = 1) by (vm_compute; reflexivity).
  destruct (sys_open 0 demo_sb 7 (fun _ => None) (fun _ => None) (fun _ => Some 0) (demo_arg [47; 102; 0]) (replicate 14 0) demo_open_proc) as [r k'|msg].
  - exists k'. split; [by rewrite <- E|]. exact (H3 r k' eq_refl).
  - discriminate.
Defined.

(** Dup gives the lowest unused descriptor, which names the file of the one given with
    one reference more, and closing the copy brings the state back as it was. *)
Theorem dup_close (kend : Z) (sb : superblock) (pid : Z) (argint : Z -> option Z) (other : Z -> Z) (k : kst) (fd fd' f : Z)
    (Hother : forall f, 0 <= other f) (H : fds_ok other k) (Ha : argint 0 = Some fd) (Hfd : 0 <= fd < NOFILE) (Hf : zget (k_ofile k) fd = Some f)
    (Hfd' : 0 <= fd' < NOFILE) (Hfree : zget (k_ofile k) fd' = None) (Hlow : forall i, 0 <= i < fd' -> is_Some (zget (k_ofile k) i)) :
  exists k', sys_dup argint k = Ok fd' k' /\ zget (k_ofile k') fd' = Some f /\
    f_ref (the_file f (k_files k')) = f_ref (the_file f (k_files k)) + 1 /\ sys_close kend sb pid (fun _ => Some fd') k' = Ok 0 k.
Proof.
  destruct (dup_close_run kend sb pid argint other Hother k fd fd' f H Ha Hfd Hf Hfd' Hfree Hlow) as [E1 E2]. destruct H as (HL & [HFL _] & HR).
  pose proof (HR _ _ Hfd Hf). eexists. split; [exact E1|]. split; [apply zget_zupd_eq; lia|]. split; [|exact E2].
  unfold the_file at 1. cbn. by rewrite zget_zupd_eq by lia.
Qed.

Lemma dup_close_witness : exists k', sys_dup (fun _ => Some 0) demo_open_proc = Ok 1 k' /\ sys_close 0 demo_sb 7 (fun _ => Some 1) k' = Ok 0 demo_open_proc.
Proof.
  destruct (dup_close 0 demo_sb 7 (fun _ => Some 0) (fun _ => 0) demo_open_proc 0 1 0 ltac:(done) demo_fds eq_refl ltac:(done) eq_refl ltac:(done) eq_refl
    ltac:(intros i Hi; assert (i = 0) as -> by lia; by eexists)) as (k' & E1 & _ & _ & E2).
  exists k'. split; [exact E1|exact E2].
Defined.

(** ** A removed directory *)

(** The results of calls one after the other, up to the first panic. *)
Fixpoint replies (ms : list (M kst Z)) (k : kst) : list (Z + string) :=
  match ms with
  | [] => []
  | m :: ms =>
      match m k with
      | Ok r k' => inl r :: replies ms k'
      | Panic msg => [inr msg]
      end
  end.

(** A removed directory that is still the current directory of a process keeps its entry
    "..", also when its parent is removed after it: mkdir /a, mkdir /a/b, chdir /a/b, unlink
    /a/b and unlink /a all succeed, and opening ".." then panics the kernel in ilock, on the
    inode that was freed. *)
Theorem removed_parent_panics :
  let none _ := None in let no_write _ := None in
  let mkdir p := sys_mkdir demo_sb 7 none no_write (demo_arg p) (replicate 14 0) in
  let unlink p := sys_unlink demo_sb 7 none no_write (demo_arg p) (replicate 14 0) in
  let a := [47; 97; 0] in let ab := [47; 97; 47; 98; 0] in
  replies [mkdir a; mkdir ab; sys_chdir demo_sb 7 none (demo_arg ab) (replicate 14 0); unlink ab; unlink a;
           sys_open 0 demo_sb 7 none no_write (fun _ => Some O_RDONLY) (demo_arg [46; 46; 0]) (replicate 14 0)] demo_proc =
  [inl 0; inl 0; inl 0; inl 0; inl 0; inr "ilock: no type"].
Proof. vm_compute. reflexivity. Qed.
