(* ===== verification/Grep.v ===== *)
(** * grep and wc

    grep.c and wc.c: the regular expression matcher, and the loops that cut their input,
    which arrives in pieces, into lines and words.  A C string is the list of its bytes
    without the NUL.  The input is the list of the pieces that are there to be read one
    after the other: a file is one piece, and what reaches a pipe or the console between
    two reads is one. *)

From S2P Require Import Prelude.

Abbreviation NUL := 0 (only parsing).
Abbreviation NL := 10 (only parsing).
Abbreviation DOLLAR := 36 (only parsing).
Abbreviation STAR := 42 (only parsing).
Abbreviation DOT := 46 (only parsing).
Abbreviation CARET := 94 (only parsing).

(** ** The matcher *)

(** The loop of matchstar; [mh] is matchhere(re, .). *)
Fixpoint matchstar (mh : list Z -> bool) (c : Z) (text : list Z) : bool :=
  if mh text then true
  else match text with
       | [] => false
       | x :: text' => if (x =? c) || (c =? DOT) then matchstar mh c text' else false
       end.

Fixpoint matchhere (re text : list Z) : bool :=
  match re with
  | [] => true
  | r0 :: re1 =>
      let rest :=
        if (r0 =? DOLLAR) && match re1 with [] => true | _ => false end then
          match text with [] => true | _ => false end
        else match text with
             | x :: text' => if (r0 =? DOT) || (r0 =? x) then matchhere re1 text' else false
             | [] => false
             end in
      match re1 with
      | r1 :: re2 => if r1 =? STAR then matchstar (matchhere re2) r0 text else rest
      | [] => rest
      end
  end.

(** The do-while loop of match. *)
Fixpoint match_from (re text : list Z) : bool :=
  if matchhere re text then true
  else match text with
       | [] => false
       | _ :: text' => match_from re text'
       end.

Definition re_match (re text : list Z) : bool :=
  match re with
  | r0 :: re1 => if r0 =? CARET then matchhere re1 text else match_from re text
  | [] => match_from re text
  end.

(** ** grep *)

(** [strchr(p, '\n')]: the line up to the newline and what follows it. *)
Fixpoint next_line (p : list Z) : option (list Z * list Z) :=
  match p with
  | [] => None
  | c :: p' =>
      if c =? NUL then None
      else if c =? NL then Some ([], p')
      else '(l, r) ← next_line p'; Some (c :: l, r)
  end.

(** The inner loop: the lines written and what is left behind [p]. *)
Fixpoint grep_lines (fuel : nat) (re p : list Z) : list Z * list Z :=
  match fuel with
  | O => ([], p)
  | S fuel =>
      match next_line p with
      | Some (l, r) =>
          let '(out, rest) := grep_lines fuel re r in
          ((if re_match re l then l ++ [NL] else []) ++ out, rest)
      | None => ([], p)
      end
  end.

(** [read(fd, buf, n)]: at most [n] bytes of the piece that is there, and nothing at the
    end of the input. *)
Definition read (n : nat) (input : list (list Z)) : list Z * list (list Z) :=
  match input with
  | [] => ([], [])
  | p :: ps => (take n p, match drop n p with [] => ps | r => r :: ps end)
  end.

Definition BUFSZ : nat := 1024.

(** One round of the outer loop, with [m] the bytes kept in [buf] and [chunk] the bytes
    read; a buffer without a complete line is dropped ([p == buf]). *)
Definition grep_round (re m chunk : list Z) : list Z * list Z :=
  let buf := m ++ chunk in
  let '(out, rest) := grep_lines (length buf) re buf in
  (out, if zlen rest =? zlen buf then [] else rest).

Fixpoint grep_loop (fuel : nat) (re m : list Z) (input : list (list Z)) : option (list Z) :=
  match fuel with
  | O => None
  | S fuel =>
      let '(chunk, input) := read (BUFSZ - length m - 1) input in
      match chunk with
      | [] => Some []
      | _ =>
          let '(out, m) := grep_round re m chunk in
          (app out) <$> grep_loop fuel re m input
      end
  end.

(** Every round takes a byte of the input. *)
Definition grep (re : list Z) (input : list (list Z)) : option (list Z) :=
  grep_loop (S (length (concat input))) re [] input.

(** ** wc *)

Record counts := mkcounts { wl : Z; ww : Z; wc_c : Z; inword : bool }.

Definition is_space (c : Z) : bool := existsb (Z.eqb c) [32; 13; 9; 10; 11].

Definition wc_byte (s : counts) (c : Z) : counts :=
  let n := s32 (wc_c s + 1) in
  let l := if c =? NL then s32 (wl s + 1) else wl s in
  if is_space c then mkcounts l (ww s) n false
  else if inword s then mkcounts l (ww s) n true
  else mkcounts l (s32 (ww s + 1)) n true.

Fixpoint wc_loop (fuel : nat) (s : counts) (input : list (list Z)) : option counts :=
  match fuel with
  | O => None
  | S fuel =>
      let '(chunk, input) := read 512 input in
      match chunk with
      | [] => Some s
      | _ => wc_loop fuel (fold_left wc_byte chunk s) input
      end
  end.

Definition wc (input : list (list Z)) : option counts :=
  wc_loop (S (length (concat input))) (mkcounts 0 0 0 false) input.

(** ** Regular expressions *)

Inductive sym := Any | Chr (c : Z).
Inductive item := One (s : sym) | Star (s : sym) | Eol.

Definition sym_of (c : Z) : sym := if c =? DOT then Any else Chr c.
Definition sym_in (s : sym) (x : Z) : Prop := match s with Any => True | Chr c => x = c end.

(** What a pattern means: a star applies to the character before it, and a dollar at the
    end is the end of the line. *)
Fixpoint parse_re (re : list Z) : list item :=
  match re with
  | [] => []
  | r0 :: re1 =>
      let rest := if (r0 =? DOLLAR) && match re1 with [] => true | _ => false end then [Eol]
                  else One (sym_of r0) :: parse_re re1 in
      match re1 with
      | r1 :: re2 => if r1 =? STAR then Star (sym_of r0) :: parse_re re2 else rest
      | [] => rest
      end
  end.

(** The items match a prefix of the text. *)
Inductive re_prefix : list item -> list Z -> Prop :=
  | rp_nil text : re_prefix [] text
  | rp_one s x its text : sym_in s x -> re_prefix its text -> re_prefix (One s :: its) (x :: text)
  | rp_eol its : re_prefix its [] -> re_prefix (Eol :: its) []
  | rp_skip s its text : re_prefix its text -> re_prefix (Star s :: its) text
  | rp_star s x its text : sym_in s x -> re_prefix (Star s :: its) text ->
      re_prefix (Star s :: its) (x :: text).

(** A line contains a match of the pattern, at its beginning if it starts with a caret. *)
Definition re_matches (re line : list Z) : Prop :=
  match re with
  | r0 :: re1 =>
      if r0 =? CARET then re_prefix (parse_re re1) line
      else exists a b, line = a ++ b /\ re_prefix (parse_re re) b
  | [] => True
  end.

Section matcher.
Implicit Types (re text : list Z).

Lemma sym_of_spec r x : sym_in (sym_of r) x <-> (r =? DOT) || (r =? x) = true.
Proof.
  unfold sym_of. destruct (Z.eqb_spec r DOT); cbn; [by split|].
  destruct (Z.eqb_spec r x); split; congruence.
Qed.

Lemma matchstar_ok mh its c text :
  (forall t, mh t = true <-> re_prefix its t) ->
  matchstar mh c text = true <-> re_prefix (Star (sym_of c) :: its) text.
Proof.
  intros Hmh. induction text as [|x text IH]; cbn [matchstar].
  - split.
    + destruct (mh []) eqn:E; [|done]. intros _. apply rp_skip. by apply Hmh.
    + inversion 1; subst. by rewrite (proj2 (Hmh [])).
  - split.
    + destruct (mh (x :: text)) eqn:E; [intros _; apply rp_skip; by apply Hmh|].
      rewrite (Z.eqb_sym x c), orb_comm. destruct ((c =? DOT) || (c =? x)) eqn:Ec; [|done].
      intros H. apply rp_star; [by apply sym_of_spec|by apply IH].
    + inversion 1 as [| | |s its' t Hp|s y its' t Hs Hp]; subst.
      * by rewrite (proj2 (Hmh _) Hp).
      * destruct (mh (x :: text)); [done|]. apply sym_of_spec in Hs.
        rewrite (Z.eqb_sym x c), orb_comm, Hs. by apply IH.
Qed.

Lemma matchhere_ok re : forall text, matchhere re text = true <-> re_prefix (parse_re re) text.
Proof.
  induction re as [re IH] using (induction_ltof1 _ length). unfold ltof in IH.
  destruct re as [|r0 re1]; intros text; [split; [constructor|done]|].
  assert (Hplain : forall rest restp,
    rest = (match text with
            | x :: text' => if (r0 =? DOT) || (r0 =? x) then matchhere re1 text' else false
            | [] => false end) ->
    restp = One (sym_of r0) :: parse_re re1 ->
    rest = true <-> re_prefix restp text).
  { intros rest restp -> ->. destruct text as [|x text].
    - split; [done|]. by inversion 1.
    - split.
      + destruct ((r0 =? DOT) || (r0 =? x)) eqn:E; [|done]. intros H.
        apply rp_one; [by apply sym_of_spec|]. apply IH; [cbn; lia|done].
      + inversion 1; subst. rewrite (proj1 (sym_of_spec _ _)) by done. apply IH; [cbn; lia|done]. }
  destruct re1 as [|r1 re2]; cbn [matchhere parse_re].
  - destruct (Z.eqb_spec r0 DOLLAR) as [->|Hd]; cbn [andb]; [|by apply Hplain].
    destruct text; (split; [|by inversion 1]); [|done]. intros _. repeat constructor.
  - destruct (r1 =? STAR).
    + apply matchstar_ok. apply IH. cbn. lia.
    + rewrite andb_false_r. by apply Hplain.
Qed.

Lemma match_from_ok re text :
  match_from re text = true <-> exists a b, text = a ++ b /\ re_prefix (parse_re re) b.
Proof.
  induction text as [|x text IH]; cbn [match_from].
  - split.
    + destruct (matchhere re []) eqn:E; [|done]. intros _. exists [], []. by rewrite <- matchhere_ok.
    + intros (a & b & [-> ->]%symmetry%app_nil & H). by rewrite (proj2 (matchhere_ok _ _) H).
  - split.
    + destruct (matchhere re (x :: text)) eqn:E.
      * intros _. exists [], (x :: text). by rewrite <- matchhere_ok.
      * intros (a & b & -> & H)%IH. by exists (x :: a), b.
    + intros (a & b & Ea & H). destruct a as [|y a]; cbn in Ea.
      * rewrite (proj2 (matchhere_ok re (x :: text))); [done|]. by rewrite Ea.
      * injection Ea as <- ->. destruct (matchhere re _); [done|]. apply IH. eauto.
Qed.

Lemma re_match_ok re line : re_match re line = true <-> re_matches re line.
Proof.
  unfold re_match, re_matches. destruct re as [|r0 re1].
  - destruct line; done.
  - destruct (r0 =? CARET); [apply matchhere_ok|apply match_from_ok].
Qed.
End matcher.

(** ** Lines *)

(** The complete lines of a text and the rest behind the last newline. *)
Fixpoint lines_of (s : list Z) : list (list Z) * list Z :=
  match s with
  | [] => ([], [])
  | c :: s =>
      let '(ls, r) := lines_of s in
      if c =? NL then ([] :: ls, r)
      else match ls with [] => ([], c :: r) | l :: ls => ((c :: l) :: ls, r) end
  end.

Definition select (re : list Z) (ls : list (list Z)) : list Z :=
  concat ((fun l => if re_match re l then l ++ [NL] else []) <$> ls).

Section lines.
Implicit Types (re p m : list Z).

Lemma next_line_Some p : forall l r,
  next_line p = Some (l, r) ->
  lines_of p = (l :: fst (lines_of r), snd (lines_of r)) /\ (length r < length p)%nat.
Proof.
  induction p as [|c p IH]; intros l r; cbn [next_line]; [done|].
  destruct (c =? NUL); [done|]. cbn [lines_of length]. destruct (c =? NL) eqn:E.
  - intros [= <- <-]. destruct (lines_of p). split; [done|lia].
  - destruct (next_line p) as [[l' r']|]; [|done]. cbn. intros [= <- <-].
    destruct (IH l' r' eq_refl) as [-> ?]. split; [done|lia].
Qed.

Lemma next_line_None p : NUL ∉ p -> next_line p = None -> lines_of p = ([], p).
Proof.
  induction p as [|c p IH]; intros H0; cbn [next_line lines_of]; [done|].
  apply not_elem_of_cons in H0 as [Hc H0]. destruct (Z.eqb_spec c NUL); [congruence|].
  destruct (c =? NL); [done|]. destruct (next_line p) as [[l r]|]; [done|].
  by rewrite IH.
Qed.

Lemma next_line_rest p l r : next_line p = Some (l, r) -> NUL ∉ p -> NUL ∉ r.
Proof.
  revert l r. induction p as [|c p IH]; intros l r; cbn [next_line]; [done|].
  destruct (c =? NUL); [done|]. intros E [_ H0]%not_elem_of_cons. destruct (c =? NL); [by simplify_eq|].
  destruct (next_line p) as [[l' r']|]; [|done]. cbn in E. simplify_eq. eauto.
Qed.

Lemma grep_lines_ok re fuel : forall p,
  NUL ∉ p -> (length p <= fuel)%nat ->
  grep_lines fuel re p = (select re (fst (lines_of p)), snd (lines_of p)).
Proof.
  induction fuel as [|fuel IH]; intros p H0 Hl; cbn [grep_lines].
  - destruct p; [done|cbn in Hl; lia].
  - destruct (next_line p) as [[l r]|] eqn:E.
    + destruct (next_line_Some _ _ _ E) as [EL Hlt]. rewrite EL. cbn [fst snd].
      rewrite IH; [done|by eapply next_line_rest|lia].
    + by rewrite (next_line_None p H0 E).
Qed.

Lemma lines_of_app a b :
  lines_of (a ++ b) =
  (fst (lines_of a) ++ fst (lines_of (snd (lines_of a) ++ b)),
   snd (lines_of (snd (lines_of a) ++ b))).
Proof.
  induction a as [|c a IH]; cbn [app lines_of fst snd]; [by destruct (lines_of b)|].
  rewrite IH. destruct (lines_of a) as [ls r]. cbn [fst snd].
  destruct (c =? NL) eqn:E; [done|]. destruct ls as [|l ls]; cbn [fst snd app]; [|done].
  cbn [lines_of]. rewrite E. by destruct (lines_of (r ++ b)) as [[|l ls] r'].
Qed.

Lemma lines_of_none p : NL ∉ p <-> fst (lines_of p) = [].
Proof.
  induction p as [|c p IH]; cbn [lines_of]; [split; [done|intros _; apply not_elem_of_nil]|].
  rewrite not_elem_of_cons, IH. destruct (lines_of p) as [ls r]. cbn [fst].
  destruct (Z.eqb_spec c NL) as [->|Hn]; cbn [fst]; [split; [intros [? _]; congruence|done]|].
  destruct ls; cbn; split; try done; [by intros [_ ?]].
Qed.

Lemma lines_of_rest p : lines_of (snd (lines_of p)) = ([], snd (lines_of p)).
Proof.
  induction p as [|c p IH]; cbn [lines_of]; [done|].
  destruct (lines_of p) as [ls r]. cbn [snd] in IH. destruct (c =? NL) eqn:E; [done|].
  destruct ls; cbn [snd]; [|done]. cbn [lines_of]. by rewrite IH, E.
Qed.

Lemma lines_of_length p :
  (length (snd (lines_of p)) <= length p)%nat /\
  (fst (lines_of p) <> [] -> length (snd (lines_of p)) < length p)%nat.
Proof.
  induction p as [|c p [IH1 IH2]]; cbn [lines_of length]; [done|].
  destruct (lines_of p) as [ls r]. cbn [fst snd] in *. destruct (c =? NL); cbn [fst snd]; [lia|].
  destruct ls; cbn [fst snd length]; [split; [lia|done]|]. lia.
Qed.

Lemma no_nul_rest p : NUL ∉ p -> NUL ∉ snd (lines_of p).
Proof.
  induction p as [|c p IH]; cbn [lines_of]; [done|]. intros [Hc H0]%not_elem_of_cons.
  specialize (IH H0). destruct (lines_of p) as [ls r]. cbn [snd] in IH.
  destruct (c =? NL); [done|]. destruct ls; cbn [snd]; [|done]. by apply not_elem_of_cons.
Qed.

(** A round whose buffer has a newline writes the matching lines and keeps the rest. *)
Lemma grep_round_ok re m chunk :
  NUL ∉ m ++ chunk -> NL ∈ m ++ chunk ->
  grep_round re m chunk =
  (select re (fst (lines_of (m ++ chunk))), snd (lines_of (m ++ chunk))).
Proof.
  intros H0 Hnl. unfold grep_round. rewrite grep_lines_ok by done.
  destruct (lines_of_length (m ++ chunk)) as [_ Hlt].
  rewrite (proj2 (Z.eqb_neq _ _)); [done|]. unfold zlen. intros E.
  assert (length (snd (lines_of (m ++ chunk))) < length (m ++ chunk))%nat; [|lia].
  apply Hlt. intros Hn. by apply lines_of_none in Hn.
Qed.

Lemma select_app re ls ls' : select re (ls ++ ls') = select re ls ++ select re ls'.
Proof. unfold select. by rewrite fmap_app, concat_app. Qed.

Lemma read_app n input chunk input' :
  read n input = (chunk, input') -> concat input = chunk ++ concat input'.
Proof.
  destruct input as [|p ps]; cbn; [by intros [= <- <-]|]. intros [= <- <-].
  rewrite <- (take_drop n p) at 1. rewrite <- app_assoc. f_equal. by destruct (drop n p).
Qed.

(** A text in which no line is longer than the buffer. *)
Definition lines_fit (s : list Z) : Prop :=
  forall a w b, s = a ++ w ++ b -> length w = (BUFSZ - 1)%nat -> NL ∈ w.

(** Pieces that end with their lines, the last one apart. *)
Fixpoint whole_lines (input : list (list Z)) : Prop :=
  match input with
  | [] => True
  | p :: ps => p <> [] /\ (ps = [] \/ last p = Some NL) /\ whole_lines ps
  end.

Lemma lines_of_nil p : forall r, lines_of p = ([], r) -> r = p.
Proof.
  induction p as [|c p IH]; intros r; cbn [lines_of]; [by intros [= <-]|].
  destruct (lines_of p) as [[|l ls] q]; destruct (c =? NL); try done. intros [= <-]. by rewrite (IH q).
Qed.

Lemma lines_of_suffix p : exists a, p = a ++ snd (lines_of p).
Proof.
  induction p as [|c p [a IH]]; [by exists []|]. cbn [lines_of].
  destruct (lines_of p) as [ls r] eqn:E. cbn [snd] in IH.
  destruct (c =? NL); [exists (c :: a); by rewrite IH|].
  destruct ls; [exists []|exists (c :: a); by rewrite IH]. cbn. by rewrite (lines_of_nil _ _ E).
Qed.

Lemma lines_fit_suffix a s : lines_fit (a ++ s) -> lines_fit s.
Proof. intros H b w c -> Hw. apply (H (a ++ b) w c); [by rewrite <- app_assoc|done]. Qed.

Lemma read_whole n input chunk input' :
  read n input = (chunk, input') -> whole_lines input -> whole_lines input'.
Proof.
  destruct input as [|p ps]; cbn; [by intros [= <- <-]|]. intros [= <- <-] (Hp & Hl & Hps).
  destruct (drop n p) as [|c r] eqn:E; [done|]. cbn. split; [done|]. split; [|done].
  destruct Hl as [Hl|Hl]; [by left|right]. rewrite <- (take_drop n p), E, last_app_cons in Hl. done.
Qed.

(** A round whose buffer has no newline drops it. *)
Lemma grep_round_none re m chunk :
  NUL ∉ m ++ chunk -> NL ∉ m ++ chunk -> grep_round re m chunk = ([], []).
Proof.
  intros H0 Hn. unfold grep_round. rewrite grep_lines_ok by done.
  apply lines_of_none in Hn. destruct (lines_of (m ++ chunk)) as [ls r] eqn:E. cbn [fst snd] in *.
  subst ls. rewrite (lines_of_nil _ _ E). by rewrite Z.eqb_refl.
Qed.

(** If a read leaves a buffer without a newline, it was the last. *)
Lemma read_last m p ps chunk input' :
  (length m < BUFSZ - 1)%nat -> whole_lines (p :: ps) -> lines_fit (m ++ concat (p :: ps)) ->
  read (BUFSZ - length m - 1) (p :: ps) = (chunk, input') -> NL ∉ m ++ chunk ->
  input' = [].
Proof.
  intros Hm (Hp & Hl & _) Hfit E Hn. pose proof (read_app _ _ _ _ E) as EA. cbn [read] in E.
  destruct (drop _ p) as [|c r] eqn:Ed; injection E as Ec <-.
  - assert (take (BUFSZ - length m - 1) p = p) as Et by
      (rewrite <- (take_drop (BUFSZ - length m - 1) p) at 2; by rewrite Ed, app_nil_r).
    destruct Hl as [Hl|Hl]; [done|]. destruct Hn. rewrite <- Ec, Et. apply elem_of_app. right.
    by apply last_Some_elem_of.
  - destruct Hn. apply (Hfit [] (m ++ chunk) (concat ((c :: r) :: ps))); [by rewrite EA, <- app_assoc|].
    assert (length p > BUFSZ - length m - 1)%nat.
    { assert (length (drop (BUFSZ - length m - 1) p) > 0)%nat by (rewrite Ed; cbn; lia).
      rewrite length_drop in *. lia. }
    rewrite length_app, <- Ec, length_take. lia.
Qed.

Lemma grep_loop_ok re fuel : forall m input,
  (length m < BUFSZ - 1)%nat -> lines_of m = ([], m) -> NUL ∉ m ++ concat input ->
  whole_lines input -> lines_fit (m ++ concat input) -> (length (concat input) < fuel)%nat ->
  grep_loop fuel re m input = Some (select re (fst (lines_of (m ++ concat input)))).
Proof.
  induction fuel as [|fuel IH]; intros m input Hm Hlm H0 Hw Hfit Hf; [lia|]. cbn [grep_loop].
  destruct (read _ input) as [chunk input'] eqn:E. pose proof (read_app _ _ _ _ E) as EA.
  destruct input as [|p ps].
  { cbn in E. injection E as <- <-. cbn [concat]. by rewrite app_nil_r, Hlm. }
  assert (Hc : chunk <> []).
  { cbn [read] in E. injection E as <- _. destruct Hw as [Hp _]. destruct p; [done|].
    destruct (BUFSZ - length m - 1)%nat eqn:En; [lia|done]. }
  assert (Hle : (length chunk <= BUFSZ - length m - 1)%nat).
  { cbn [read] in E. injection E as <- _. rewrite length_take. lia. }
  assert (Hpos : (0 < length chunk)%nat) by (destruct chunk; [done|cbn; lia]).
  rewrite EA, app_assoc in H0, Hfit |- *. rewrite EA, length_app in Hf.
  apply not_elem_of_app in H0 as [H0 H0'].
  replace (match chunk with [] => _ | _ :: _ => _ end) with
    (let '(out, m) := grep_round re m chunk in app out <$> grep_loop fuel re m input')
    by (by destruct chunk).
  destruct (decide (NL ∈ m ++ chunk)) as [Hn|Hn].
  - rewrite grep_round_ok by done. pose proof (proj2 (lines_of_length (m ++ chunk))) as Hlt.
    rewrite <- lines_of_none in Hlt. specialize (Hlt ltac:(tauto)). rewrite length_app in Hlt.
    rewrite IH; [|lia|apply lines_of_rest| |by eapply read_whole| |lia].
    + cbn. by rewrite (lines_of_app (m ++ chunk)), <- select_app.
    + apply not_elem_of_app. split; [by apply no_nul_rest|done].
    + destruct (lines_of_suffix (m ++ chunk)) as [a Ea]. rewrite Ea, <- app_assoc in Hfit.
      by apply lines_fit_suffix in Hfit.
  - rewrite grep_round_none by done.
    assert (input' = []) as -> by (eapply read_last; [done..| |done|done]; by rewrite EA, app_assoc).
    cbn [concat]. rewrite app_nil_r. destruct fuel; [cbn in Hf; lia|]. cbn.
    apply lines_of_none in Hn. by rewrite Hn.
Qed.
End lines.

(** ** Words *)

Section words.
Implicit Types (s : list Z).

(** The words that begin in a text, after a character of a word or not. *)
Fixpoint words (after : bool) s : Z :=
  match s with
  | [] => 0
  | c :: s => (if is_space c then 0 else if after then 0 else 1) + words (negb (is_space c)) s
  end.

Definition newlines s : Z := zlen (List.filter (Z.eqb NL) s).

Lemma wc_fold s : forall l w c b,
  fold_left wc_byte s (mkcounts (s32 l) (s32 w) (s32 c) b) =
  mkcounts (s32 (l + newlines s)) (s32 (w + words b s)) (s32 (c + zlen s))
           (match last s with Some x => negb (is_space x) | None => b end).
Proof.
  induction s as [|x s IH]; intros l w c b; [cbn; unfold newlines, zlen; cbn; by rewrite !Z.add_0_r|].
  cbn [fold_left]. assert (Hn : newlines (x :: s) = (if x =? NL then 1 else 0) + newlines s).
  { unfold newlines, zlen. cbn [List.filter]. rewrite (Z.eqb_sym NL x). destruct (x =? NL); cbn; lia. }
  assert (Hz : zlen (x :: s) = 1 + zlen s) by (unfold zlen; cbn; lia).
  assert (Hl : match last (x :: s) with Some x => negb (is_space x) | None => b end =
               match last s with Some x => negb (is_space x) | None => negb (is_space x) end).
  { rewrite last_cons. by destruct (last s). }
  rewrite Hn, Hz, Hl. cbn [words]. unfold wc_byte at 2. cbn [wl ww wc_c inword]. rewrite !s32_add_s32_l.
  destruct (is_space x) eqn:Es, (x =? NL), b; cbn [negb]; rewrite IH; f_equal; f_equal; lia.
Qed.

Lemma wc_loop_ok fuel : forall k input,
  Forall (.≠ []) input -> (length (concat input) < fuel)%nat ->
  wc_loop fuel k input = Some (fold_left wc_byte (concat input) k).
Proof.
  induction fuel as [|fuel IH]; intros k input HF Hf; [lia|]. cbn [wc_loop].
  destruct (read 512 input) as [chunk input'] eqn:E. pose proof (read_app _ _ _ _ E) as EA.
  destruct HF as [|p ps Hp HF]; [by injection E as <- <-|]. cbn [read] in E.
  assert (HF' : Forall (.≠ []) input').
  { injection E as _ <-. destruct (drop 512 p) eqn:Ed; [done|by constructor]. }
  destruct chunk as [|c chunk].
  { destruct p; [done|]. discriminate (f_equal fst E). }
  rewrite EA, fold_left_app. apply IH; [done|]. rewrite EA, length_app in Hf. cbn in Hf. lia.
Qed.
End words.

(** ** Properties *)

(** C36: grep.  The matcher decides what it documents: a line matches exactly when it has
    a match of the pattern in it, at its beginning if the pattern starts with a caret,
    where a star repeats the character before it, a dot is any character and a dollar at
    the end is the end of the line.  On an input without NULs whose pieces end with their
    lines (the last may not) and whose lines fit into the buffer, grep ends and writes
    exactly the matching lines that end in a newline, however long the input is.  A piece
    without a newline is dropped, though: of the line that arrives as ab and c, grep sees
    only c. *)
Theorem grep_spec :
  (forall re line, re_match re line = true <-> re_matches re line) /\
  (forall re input, NUL ∉ concat input -> whole_lines input -> lines_fit (concat input) ->
     grep re input = Some (select re (fst (lines_of (concat input))))) /\
  (let ab := [97; 98] in let c_nl := [99; NL] in
   grep ab [ab ++ c_nl] = Some (ab ++ c_nl) /\ grep ab [ab; c_nl] = Some []).
Proof.
  split; [apply re_match_ok|]. split; [|by vm_compute].
  intros re input H0 Hw Hfit. apply (grep_loop_ok re _ []); try done; [cbn; lia|lia].
Qed.

(** The lines of two pieces, the last one cut off. *)
Lemma grep_spec_witness :
  re_match [CARET; 97; STAR; 98; DOLLAR] [97; 97; 98] = true /\
  grep [98] [[97; 98; NL; 99; NL]; [98; NL; 98]] = Some [97; 98; NL; 98; NL].
Proof.
  destruct grep_spec as (Hm & Hg & _). split.
  - apply Hm. cbn. apply rp_star; [done|]. apply rp_star; [done|]. apply rp_skip.
    apply rp_one; [done|]. apply rp_eol, rp_nil.
  - rewrite Hg; [done| | |].
    + by apply (bool_decide_unpack (0 ∉ [97; 98; 10; 99; 10; 98; 10; 98])).
    + cbn. tauto || (split; [done|]; split; [by right|]; split; [done|]; split; [by left|done]).
    + intros a w b E Hw. apply (f_equal length) in E. rewrite !length_app, Hw in E. cbn in E. lia.
Defined.

(** wc counts every input, whatever pieces its reads give: the newlines, the words
    (the bytes that are not blank and stand at the start or after a blank) and the bytes,
    each as a 32-bit integer. *)
Theorem wc_counts (input : list (list Z)) :
  Forall (.≠ []) input ->
  exists s, wc input = Some s /\
    wl s = s32 (newlines (concat input)) /\ ww s = s32 (words false (concat input)) /\
    wc_c s = s32 (zlen (concat input)).
Proof.
  intros HF. unfold wc. rewrite wc_loop_ok by (done || lia). eexists. split; [done|].
  change (mkcounts 0 0 0 false) with (mkcounts (s32 0) (s32 0) (s32 0) false). by rewrite wc_fold.
Qed.

(** Two pieces of a text with three words on two lines. *)
Lemma wc_counts_witness :
  exists s, wc [[97; 98; 32; 99]; [100; NL; 101; NL]] = Some s /\ wl s = 2 /\ ww s = 3 /\ wc_c s = 8.
Proof.
  destruct (wc_counts [[97; 98; 32; 99]; [100; NL; 101; NL]]) as (s & E & H); [by repeat constructor|].
  exists s. split; [exact E|exact H].
Defined.
