(* ===== verification/Shell.v ===== *)
(** * The shell's parser

    sh.c from gettoken to nulterminate.  The input is the line's bytes up to its NUL; the
    pointer [*ps] is the list of the bytes from it to [es], and a position in the line is
    an offset, [es] being the length [n].  A parsed word is the pair of the offsets [q] and
    [eq] of its ends, which nulterminate turns into a C string.  The recursive functions
    have fuel; panic() ends the parse with its message. *)

From S2P Require Import Prelude CString.

Abbreviation GT := 62 (only parsing).
Abbreviation LT := 60 (only parsing).
Abbreviation BAR := 124 (only parsing).
Abbreviation AMP := 38 (only parsing).
Abbreviation SEMI := 59 (only parsing).
Abbreviation LPAR := 40 (only parsing).
Abbreviation RPAR := 41 (only parsing).
Abbreviation PLUS := 43 (only parsing).
Abbreviation WORD := 97 (only parsing).

Definition MAXARGS : Z := 10.
Definition O_RDONLY : Z := 0.
Definition O_WRONLY_CREATE : Z := 513. (* O_WRONLY|O_CREATE *)

(** struct cmd, with words of type [W]. *)
Inductive cmd (W : Type) :=
  | EXEC (argv : list W)
  | REDIR (c : cmd W) (file : W) (mode fd : Z)
  | PIPE (left right : cmd W)
  | LIST (left right : cmd W)
  | BACK (c : cmd W).
Arguments EXEC {W}.
Arguments REDIR {W}.
Arguments PIPE {W}.
Arguments LIST {W}.
Arguments BACK {W}.

Inductive parsed (A : Type) := Got (a : A) (s : list Z) | Syntax (msg : string) | NoFuel.
Arguments Got {A}.
Arguments Syntax {A}.
Arguments NoFuel {A}.

Definition then_ {A B} (r : parsed A) (k : A -> list Z -> parsed B) : parsed B :=
  match r with
  | Got a s => k a s
  | Syntax msg => Syntax msg
  | NoFuel => NoFuel
  end.

(** ** Tokens *)

Definition whitespace (c : Z) : bool := existsb (Z.eqb c) [32; 9; 13; 10; 11].
Definition symbols (c : Z) : bool := existsb (Z.eqb c) [LT; BAR; GT; AMP; SEMI; LPAR; RPAR].
Definition word_char (c : Z) : bool := negb (whitespace c) && negb (symbols c).

Fixpoint skip (s : list Z) : list Z :=
  match s with
  | c :: s' => if whitespace c then skip s' else s
  | [] => []
  end.

Fixpoint after_word (s : list Z) : list Z :=
  match s with
  | c :: s' => if word_char c then after_word s' else s
  | [] => []
  end.

Section parser.
Context (n : Z). (* es *)
Implicit Types (s : list Z).

Definition off s : Z := n - zlen s.

Definition gettoken s : Z * (Z * Z) * list Z :=
  let s := skip s in
  match s with
  | [] => (0, (off s, off s), [])
  | c :: s' =>
      if existsb (Z.eqb c) [BAR; LPAR; RPAR; SEMI; AMP; LT] then (c, (off s, off s'), skip s')
      else if c =? GT then
        match s' with
        | d :: s'' => if d =? GT then (PLUS, (off s, off s''), skip s'')
                      else (GT, (off s, off s'), skip s')
        | [] => (GT, (off s, off s'), [])
        end
      else (WORD, (off s, off (after_word s)), skip (after_word s))
  end.

Definition peek s (toks : list Z) : bool * list Z :=
  let s := skip s in
  (match s with c :: _ => existsb (Z.eqb c) toks | [] => false end, s).

(** ** The grammar *)

(** The redirections parseredirs finds, innermost first, as file, mode and descriptor. *)
Definition redir : Type := (Z * Z) * Z * Z.
Definition redir_of (tok : Z) (w : Z * Z) : redir :=
  if tok =? LT then (w, O_RDONLY, 0) else (w, O_WRONLY_CREATE, 1).

Fixpoint redirs (fuel : nat) s : parsed (list redir) :=
  match fuel with
  | O => NoFuel
  | S fuel =>
      let '(b, s) := peek s [LT; GT] in
      if (b : bool) then
        let '(tok, _, s) := gettoken s in
        let '(t, w, s) := gettoken s in
        if negb (t =? WORD) then Syntax "missing file for redirection"
        else then_ (redirs fuel s) (fun rs s => Got (redir_of tok w :: rs) s)
      else Got [] s
  end.

Definition wrap (c : cmd (Z * Z)) (rs : list redir) : cmd (Z * Z) :=
  fold_left (fun c '(w, mode, fd) => REDIR c w mode fd) rs c.

Definition parseredirs (c : cmd (Z * Z)) s : parsed (cmd (Z * Z)) :=
  then_ (redirs (S (length s)) s) (fun rs s => Got (wrap c rs) s).

(** The argument loop of parseexec.  The code fills [argv] of the exec command in place,
    inside the redirections [rs] put around it so far. *)
Fixpoint parseargs (fuel : nat) (argv : list (Z * Z)) (rs : list redir) s : parsed (cmd (Z * Z)) :=
  match fuel with
  | O => NoFuel
  | S fuel =>
      let '(b, s) := peek s [BAR; RPAR; AMP; SEMI] in
      if (b : bool) then Got (wrap (EXEC argv) rs) s
      else
        let '(tok, w, s) := gettoken s in
        if tok =? 0 then Got (wrap (EXEC argv) rs) s
        else if negb (tok =? WORD) then Syntax "syntax"
        else
          let argv := argv ++ [w] in
          if MAXARGS <=? zlen argv then Syntax "too many args"
          else then_ (redirs (S (length s)) s) (fun rs' s => parseargs fuel argv (rs ++ rs') s)
  end.

(** [while(peek(ps, es, "&")){ gettoken(ps, es, 0, 0); cmd = backcmd(cmd); }] *)
Fixpoint parseback (fuel : nat) (c : cmd (Z * Z)) s : parsed (cmd (Z * Z)) :=
  match fuel with
  | O => NoFuel
  | S fuel =>
      let '(b, s) := peek s [AMP] in
      if (b : bool) then let '(_, _, s) := gettoken s in parseback fuel (BACK c) s
      else Got c s
  end.

Fixpoint parseline (fuel : nat) s : parsed (cmd (Z * Z)) :=
  match fuel with
  | O => NoFuel
  | S fuel =>
      then_ (parsepipe fuel s) (fun c s =>
      then_ (parseback (S (length s)) c s) (fun c s =>
        let '(b, s) := peek s [SEMI] in
        if (b : bool) then
          let '(_, _, s) := gettoken s in
          then_ (parseline fuel s) (fun r s => Got (LIST c r) s)
        else Got c s))
  end
with parsepipe (fuel : nat) s : parsed (cmd (Z * Z)) :=
  match fuel with
  | O => NoFuel
  | S fuel =>
      then_ (parseexec fuel s) (fun c s =>
        let '(b, s) := peek s [BAR] in
        if (b : bool) then
          let '(_, _, s) := gettoken s in
          then_ (parsepipe fuel s) (fun r s => Got (PIPE c r) s)
        else Got c s)
  end
with parseexec (fuel : nat) s : parsed (cmd (Z * Z)) :=
  match fuel with
  | O => NoFuel
  | S fuel =>
      let '(b, s) := peek s [LPAR] in
      if (b : bool) then parseblock fuel s
      else then_ (redirs (S (length s)) s) (fun rs s => parseargs (S (length s)) [] rs s)
  end
with parseblock (fuel : nat) s : parsed (cmd (Z * Z)) :=
  match fuel with
  | O => NoFuel
  | S fuel =>
      let '(b, s) := peek s [LPAR] in
      if negb b then Syntax "parseblock" else
      let '(_, _, s) := gettoken s in
      then_ (parseline fuel s) (fun c s =>
        let '(b, s) := peek s [RPAR] in
        if negb b then Syntax "syntax - missing )" else
        let '(_, _, s) := gettoken s in
        parseredirs c s)
  end.
End parser.

(** nulterminate: the ends of the words, in the order of the code, set to NUL in the
    array [buf] of the line and its terminator. *)
Fixpoint nulterminate (c : cmd (Z * Z)) (buf : list Z) : list Z :=
  match c with
  | EXEC argv => fold_left (fun buf w => zupd buf (snd w) 0) argv buf
  | REDIR c w _ _ => zupd (nulterminate c buf) (snd w) 0
  | PIPE l r | LIST l r => nulterminate r (nulterminate l buf)
  | BACK c => nulterminate c buf
  end.

(** parsecmd: the command, and the line's array with the words terminated. *)
Definition parsecmd (s : list Z) : parsed (cmd (Z * Z) * list Z) :=
  then_ (parseline (zlen s) (4 * length s + 4) s) (fun c r =>
    let '(_, r) := peek r [] in
    match r with [] => Got (c, nulterminate c (s ++ [0])) [] | _ => Syntax "syntax" end).

(** ** Printing a command *)

(** A token is a word or a symbol. *)
Inductive token := TWord (w : list Z) | TSym (c : Z).
Definition tok_text (t : token) : list Z := match t with TWord w => w | TSym c => [c] end.

(** Every token followed by a space. *)
Definition spell (ts : list token) : list Z := concat ((fun t => tok_text t ++ [32]) <$> ts).

(** The contexts of the grammar: a whole line, the left of a semicolon, the right of a
    bar, and the left of a bar or of a redirection. *)
Inductive level := LLine | LBack | LPipe | LExec.

Definition paren (need : bool) (ts : list token) : list token :=
  if need then [TSym LPAR] ++ ts ++ [TSym RPAR] else ts.

Fixpoint toks (lv : level) (c : cmd (list Z)) : list token :=
  match c with
  | EXEC argv => TWord <$> argv
  | REDIR c w _ fd => toks LExec c ++ [TSym (if fd =? 0 then LT else GT); TWord w]
  | PIPE l r =>
      paren (match lv with LExec => true | _ => false end)
        (toks LExec l ++ [TSym BAR] ++ toks LPipe r)
  | BACK c =>
      paren (match lv with LLine | LBack => false | _ => true end) (toks LBack c ++ [TSym AMP])
  | LIST l r =>
      paren (match lv with LLine => false | _ => true end)
        (toks LBack l ++ [TSym SEMI] ++ toks LLine r)
  end.

(** A command the parser can give: proper words, at most nine arguments, and
    redirections as parseredirs makes them. *)
Definition good_word (w : list Z) : Prop :=
  w <> [] /\ Forall (fun c => word_char c = true) w /\ Forall (fun c => c <> 0) w.

Fixpoint good (c : cmd (list Z)) : Prop :=
  match c with
  | EXEC argv => zlen argv < MAXARGS /\ Forall good_word argv
  | REDIR c w mode fd =>
      good c /\ good_word w /\
      (mode = O_RDONLY /\ fd = 0 \/ mode = O_WRONLY_CREATE /\ fd = 1)
  | PIPE l r | LIST l r => good l /\ good r
  | BACK c => good c
  end.

(** ** Tokens of a printed line *)

Definition good_tok (t : token) : Prop :=
  match t with TWord w => good_word w | TSym c => symbols c = true end.

(** The first token is one of the symbols [l]. *)
Definition starts (l : list Z) (ts : list token) : bool :=
  match ts with TSym c :: _ => existsb (Z.eqb c) l | _ => false end.

(** The word at offsets [w'] of the line [buf] is [w], with a space after it. *)
Definition spanned (buf : list Z) (w' : Z * Z) (w : list Z) : Prop :=
  good_word w /\ exists pre r, buf = pre ++ w ++ 32 :: r /\
  w' = (zlen pre, zlen pre + zlen w).

(** The parsed command [c'] is the command [c]. *)
Fixpoint reads (buf : list Z) (c' : cmd (Z * Z)) (c : cmd (list Z)) : Prop :=
  match c', c with
  | EXEC a', EXEC a => Forall2 (spanned buf) a' a
  | REDIR c' w' m' f', REDIR c w m f => reads buf c' c /\ spanned buf w' w /\ m' = m /\ f' = f
  | PIPE l' r', PIPE l r | LIST l' r', LIST l r => reads buf l' l /\ reads buf r' r
  | BACK c', BACK c => reads buf c' c
  | _, _ => False
  end.

Section tokens.
Implicit Types (s w : list Z) (ts k : list token).

Lemma symbol_not_space c : symbols c = true -> whitespace c = false.
Proof.
  unfold symbols, whitespace. cbn. intros H. repeat rewrite orb_true_iff in H.
  repeat match goal with
  | H : _ \/ _ |- _ => destruct H as [H|H]
  | H : (_ =? _) = true |- _ => apply Z.eqb_eq in H; subst; reflexivity
  end. discriminate.
Qed.

Lemma spell_cons t ts : spell (t :: ts) = tok_text t ++ 32 :: spell ts.
Proof. unfold spell. cbn. by rewrite <- app_assoc. Qed.

Lemma spell_app ts k : spell (ts ++ k) = spell ts ++ spell k.
Proof. unfold spell. by rewrite fmap_app, concat_app. Qed.

Lemma word_char_inv c : word_char c = true -> whitespace c = false /\ symbols c = false.
Proof. unfold word_char. intros [H1%negb_true_iff H2%negb_true_iff]%andb_true_iff. done. Qed.

(** The first character of a token. *)
Lemma spell_head ts :
  Forall good_tok ts -> spell ts = [] /\ ts = [] \/
  exists c s, spell ts = c :: s /\ whitespace c = false.
Proof.
  intros H. destruct H as [|t ts Ht _]; [by left|right]. rewrite spell_cons.
  destruct t as [w|c]; cbn in Ht |- *.
  - destruct Ht as (Hne & Hw & _). destruct w as [|c w]; [done|]. cbn. eexists _, _. split; [done|].
    apply Forall_cons in Hw as [Hc _]. by apply word_char_inv.
  - eexists _, _. split; [done|]. by apply symbol_not_space.
Qed.

Lemma skip_spell ts : Forall good_tok ts -> skip (spell ts) = spell ts.
Proof. intros [[-> _]|(c & s & -> & Hc)]%spell_head; cbn [skip]; [done|]. by rewrite Hc. Qed.

Lemma peek_spell ts l :
  Forall good_tok ts -> Forall (fun c => symbols c = true) l ->
  peek (spell ts) l = (starts l ts, spell ts).
Proof.
  intros Hts Hl. unfold peek. rewrite skip_spell by done. f_equal.
  destruct Hts as [|t ts Ht _]; [done|]. rewrite spell_cons. destruct t as [w|c]; cbn in Ht |- *; [|done].
  destruct Ht as (Hne & Hw & _). destruct w as [|c w]; [done|]. apply Forall_cons in Hw as [Hc _]. cbn.
  apply existsb_false. intros d Hd. apply Z.eqb_neq. intros ->.
  rewrite Forall_forall in Hl. apply word_char_inv in Hc as [_ Hc]. rewrite Hl in Hc by done. done.
Qed.

Lemma after_word_spell w s : Forall (fun c => word_char c = true) w -> after_word (w ++ 32 :: s) = 32 :: s.
Proof. induction 1 as [|c w Hc _ IH]; cbn; [done|]. by rewrite Hc. Qed.

Lemma gettoken_word n w ts :
  good_word w -> Forall good_tok ts ->
  gettoken n (spell (TWord w :: ts)) =
  (WORD, (off n (spell (TWord w :: ts)), off n (spell (TWord w :: ts)) + zlen w), spell ts).
Proof.
  intros Hgw Hts. pose proof Hgw as (Hne & Hw & _). unfold gettoken.
  rewrite skip_spell by (by constructor).
  rewrite spell_cons. cbn [tok_text]. destruct w as [|c w]; [done|]. cbn [app].
  pose proof Hw as [Hc _]%Forall_cons. apply word_char_inv in Hc as [_ Hc].
  assert (Hs : forall d, symbols d = true -> (c =? d) = false).
  { intros d Hd. apply Z.eqb_neq. intros ->. congruence. }
  cbn [existsb]. rewrite (Hs BAR), (Hs LPAR), (Hs RPAR), (Hs SEMI), (Hs AMP), (Hs LT), (Hs GT) by done.
  cbn [orb].
  rewrite app_comm_cons, after_word_spell by done. cbn [skip]. rewrite skip_spell by done.
  f_equal. f_equal. f_equal. unfold off, zlen. rewrite length_app. cbn. lia.
Qed.

Lemma gettoken_sym n c ts :
  symbols c = true -> Forall good_tok ts ->
  exists x, gettoken n (spell (TSym c :: ts)) = (c, x, spell ts).
Proof.
  intros Hc Hts. unfold gettoken. rewrite skip_spell by (by constructor).
  rewrite spell_cons. cbn [tok_text app]. pose proof (skip_spell ts Hts) as Hsk.
  unfold symbols in Hc. cbn [existsb] in Hc |- *. repeat rewrite orb_true_iff in Hc.
  repeat match goal with
  | H : _ \/ _ |- _ => destruct H as [H|H]
  | H : (_ =? _) = true |- _ => apply Z.eqb_eq in H; subst c; eexists; cbn; rewrite Hsk; reflexivity
  end. discriminate.
Qed.
End tokens.

(** ** Parsing what was printed *)

(** Tokens, or symbols, that are good one by one. *)
Ltac toks_good := repeat (first [done | constructor]).

Section roundtrip.
Context (buf : list Z).
Abbreviation n := (zlen buf).
Implicit Types (s w : list Z) (ts k : list token).

(** The input left is an end of the line. *)
Definition suffix s : Prop := exists pre, buf = pre ++ s.

Lemma suffix_app s s' : suffix (s ++ s') -> suffix s'.
Proof. intros [pre ->]. exists (pre ++ s). by rewrite <- app_assoc. Qed.

Lemma suffix_tail t ts : suffix (spell (t :: ts)) -> suffix (spell ts).
Proof. rewrite spell_cons, cons_middle, app_assoc. apply suffix_app. Qed.

Lemma suffix_toks ts k : suffix (spell (ts ++ k)) -> suffix (spell k).
Proof. rewrite spell_app. apply suffix_app. Qed.

Lemma spanned_word w ts :
  good_word w -> suffix (spell (TWord w :: ts)) ->
  spanned buf (off n (spell (TWord w :: ts)), off n (spell (TWord w :: ts)) + zlen w) w.
Proof.
  intros Hw [pre E]. split; [done|]. exists pre, (spell ts). rewrite E at 1. rewrite spell_cons at 1.
  split; [done|]. assert (off n (spell (TWord w :: ts)) = zlen pre) as ->; [|done].
  unfold off. rewrite E at 1. unfold zlen. rewrite length_app. lia.
Qed.

(** A redirection as its tokens. *)
Definition redir_toks (r : list Z * Z * Z) : list token :=
  let '(w, mode, fd) := r in [TSym (if fd =? 0 then LT else GT); TWord w].
Definition good_redir (r : list Z * Z * Z) : Prop :=
  let '(w, mode, fd) := r in
  good_word w /\ (mode = O_RDONLY /\ fd = 0 \/ mode = O_WRONLY_CREATE /\ fd = 1).
Definition reads_redir (r' : redir) (r : list Z * Z * Z) : Prop :=
  let '(w', mode', fd') := r' in let '(w, mode, fd) := r in
  spanned buf w' w /\ mode' = mode /\ fd' = fd.
Definition all_redirs (rs : list (list Z * Z * Z)) : list token := concat (redir_toks <$> rs).

Lemma good_redirs rs k :
  Forall good_redir rs -> Forall good_tok k -> Forall good_tok (all_redirs rs ++ k).
Proof.
  induction 1 as [|[[w m] f] rs [Hw _] _ IH]; intros Hk; [done|]. cbn. constructor; [|constructor; auto].
  cbn. by destruct (f =? 0).
Qed.

Lemma redirs_ok rs : forall fuel k,
  Forall good_redir rs -> Forall good_tok k -> starts [LT; GT] k = false ->
  suffix (spell (all_redirs rs ++ k)) -> (length rs < fuel)%nat ->
  exists rs', redirs n fuel (spell (all_redirs rs ++ k)) = Got rs' (spell k) /\
    Forall2 reads_redir rs' rs.
Proof.
  induction rs as [|[[w m] f] rs IH]; intros fuel k Hrs Hk Hst Hs Hf;
    (destruct fuel as [|fuel]; [cbn in Hf; lia|]); cbn [redirs].
  - cbn [all_redirs fmap list_fmap concat app]. rewrite peek_spell, Hst by toks_good.
    by exists [].
  - apply Forall_cons in Hrs as [[Hw Hm] Hrs].
    assert (Hg : Forall good_tok (all_redirs rs ++ k)) by by apply good_redirs.
    change (all_redirs ((w, m, f) :: rs) ++ k) with
      (TSym (if f =? 0 then LT else GT) :: TWord w :: all_redirs rs ++ k) in Hs |- *.
    assert (Hsym : symbols (if f =? 0 then LT else GT) = true) by by destruct (f =? 0).
    rewrite peek_spell by toks_good.
    assert (starts [LT; GT] (TSym (if f =? 0 then LT else GT) :: TWord w :: all_redirs rs ++ k) = true) as ->
      by (cbn; by destruct (f =? 0)).
    destruct (gettoken_sym n _ (TWord w :: all_redirs rs ++ k) Hsym) as [x ->]; [by constructor|].
    apply suffix_tail in Hs. rewrite gettoken_word by done. cbn [negb Z.eqb Pos.eqb].
    destruct (IH fuel k Hrs Hk Hst (suffix_tail _ _ Hs)) as (rs' & -> & HF); [cbn in Hf; lia|].
    cbn [then_]. eexists. split; [reflexivity|]. constructor; [|done].
    destruct Hm as [[-> ->]|[-> ->]]; cbn; (split; [by apply spanned_word|done]).
Qed.

Lemma length_redirs rs k : (length rs < S (length (spell (all_redirs rs ++ k))))%nat.
Proof.
  rewrite spell_app, length_app. induction rs as [|[[w m] f] rs IH]; [cbn; lia|].
  change (all_redirs ((w, m, f) :: rs)) with (TSym (if f =? 0 then LT else GT) :: TWord w :: all_redirs rs).
  rewrite !spell_cons, !length_app. cbn [length]. rewrite length_app. cbn [length]. lia.
Qed.

Definition wrapw (c : cmd (list Z)) (rs : list (list Z * Z * Z)) : cmd (list Z) :=
  fold_left (fun c '(w, mode, fd) => REDIR c w mode fd) rs c.

Lemma wrap_reads rs' rs : Forall2 reads_redir rs' rs -> forall c' c,
  reads buf c' c -> reads buf (wrap c' rs') (wrapw c rs).
Proof.
  induction 1 as [|[[w' m'] f'] [[w m] f] rs' rs (Hw & -> & ->) _ IH]; intros c' c Hc; cbn; [done|].
  by apply IH.
Qed.

(** ** The argument loop *)

Definition follow (l : list Z) k : Prop := k = [] \/ starts l k = true.

Lemma parseargs_end fuel argv rs k :
  Forall good_tok k -> follow [BAR; RPAR; AMP; SEMI] k ->
  parseargs n (S fuel) argv rs (spell k) = Got (wrap (EXEC argv) rs) (spell k).
Proof.
  intros Hk [->|Hf]; cbn [parseargs]; [done|].
  rewrite peek_spell, Hf by toks_good. done.
Qed.

Lemma follow_not l l' k :
  follow l k -> Forall (fun c => existsb (Z.eqb c) l' = false) l -> starts l' k = false.
Proof.
  intros [->|Hf] HF; [done|]. destruct k as [|[w|c] k]; try done. cbn in *.
  apply existsb_elem_of in Hf as (d & Hd & ->%Z.eqb_eq). rewrite Forall_forall in HF. auto.
Qed.

Lemma parseargs_ok ws : forall fuel argv' argv rs k,
  Forall good_word ws -> Forall good_redir rs -> Forall good_tok k ->
  follow [BAR; RPAR; AMP; SEMI] k -> ws <> [] -> Forall2 (spanned buf) argv' argv ->
  zlen argv + zlen ws < MAXARGS -> suffix (spell ((TWord <$> ws) ++ all_redirs rs ++ k)) ->
  (length ws < fuel)%nat ->
  exists c', parseargs n fuel argv' [] (spell ((TWord <$> ws) ++ all_redirs rs ++ k)) = Got c' (spell k) /\
    reads buf c' (wrapw (EXEC (argv ++ ws)) rs).
Proof.
  induction ws as [|w ws IH]; intros fuel argv' argv rs k Hws Hrs Hk Hfol Hne Ha Hmax Hs Hf; [done|].
  apply Forall_cons in Hws as [Hw Hws]. destruct fuel as [|fuel]; [cbn in Hf; lia|].
  assert (Hg : Forall good_tok (all_redirs rs ++ k)) by by apply good_redirs.
  assert (Hg' : Forall good_tok ((TWord <$> ws) ++ all_redirs rs ++ k)).
  { apply Forall_app. split; [|done]. by apply Forall_fmap. }
  cbn [parseargs fmap list_fmap app]. rewrite peek_spell by toks_good. cbn [starts].
  rewrite gettoken_word by done. cbn [Z.eqb Pos.eqb negb].
  assert (Hzl : zlen (argv' ++ [(off n (spell (TWord w :: (TWord <$> ws) ++ all_redirs rs ++ k)),
     off n (spell (TWord w :: (TWord <$> ws) ++ all_redirs rs ++ k)) + zlen w)]) = zlen argv + 1).
  { unfold zlen. rewrite length_app, (Forall2_length _ _ _ Ha). cbn. lia. }
  rewrite Hzl. rewrite (proj2 (Z.leb_gt _ _)) by (unfold zlen in *; cbn in Hmax; lia).
  pose proof (spanned_word _ _ Hw Hs) as Hsp. pose proof (suffix_tail _ _ Hs) as Hs'.
  set (w' := (off n _, _)) in *.
  assert (Ha' : Forall2 (spanned buf) (argv' ++ [w']) (argv ++ [w])) by (apply Forall2_app; auto).
  destruct ws as [|w2 ws].
  - cbn [fmap list_fmap app] in *.
    destruct (redirs_ok rs (S (length (spell (all_redirs rs ++ k)))) k Hrs Hk) as (rs' & E & HF).
    + eapply follow_not; [done|]. by repeat constructor.
    + done.
    + apply length_redirs.
    + rewrite E. cbn [then_ app]. destruct fuel as [|fuel]; [cbn in Hf; lia|].
      rewrite parseargs_end by done. eexists. split; [done|]. by apply wrap_reads.
  - destruct (redirs_ok [] (S (length (spell ((TWord <$> w2 :: ws) ++ all_redirs rs ++ k))))
                ((TWord <$> w2 :: ws) ++ all_redirs rs ++ k)) as (rs' & E & HF);
      [done|done|done|done|cbn; lia|].
    cbn [all_redirs fmap list_fmap concat app] in E. cbn [fmap list_fmap app]. rewrite E.
    apply Forall2_nil_inv_r in HF as ->. cbn [then_ app].
    destruct (IH fuel (argv' ++ [w']) (argv ++ [w]) rs k) as (c' & E' & Hc'); try done.
    + unfold zlen in *. rewrite length_app. cbn in Hmax |- *. lia.
    + cbn in Hf |- *. lia.
    + exists c'. split; [done|]. by rewrite <- app_assoc in Hc'.
Qed.

(** ** The grammar on a printed command *)

(** The parser [p] reads the tokens [ts] as the command [c] before any tokens that begin
    with one of the symbols [l], or the end. *)
Definition parses (p : nat -> list Z -> parsed (cmd (Z * Z))) (d : nat) (l : list Z) ts c : Prop :=
  forall fuel k,
  Forall good_tok k -> follow l k -> suffix (spell (ts ++ k)) ->
  (4 * length (spell (ts ++ k)) + d < fuel)%nat ->
  exists c', p fuel (spell (ts ++ k)) = Got c' (spell k) /\ reads buf c' c.

Definition exec_ok c : Prop := forall rs, Forall good_redir rs ->
  parses (parseexec n) 1 [BAR; RPAR; AMP; SEMI] (toks LExec c ++ all_redirs rs) (wrapw c rs).
Definition pipe_ok c : Prop := parses (parsepipe n) 2 [RPAR; AMP; SEMI] (toks LPipe c) c.
Definition line_ok c : Prop := parses (parseline n) 3 [RPAR] (toks LLine c) c.

(** parsepipe leaves the ampersands of a command at the left of a semicolon. *)
Definition back_ok c : Prop := forall fuel k,
  Forall good_tok k -> follow [RPAR; AMP; SEMI] k -> suffix (spell (toks LBack c ++ k)) ->
  (4 * length (spell (toks LBack c ++ k)) + 2 < fuel)%nat ->
  exists c0 m, parsepipe n fuel (spell (toks LBack c ++ k)) =
      Got c0 (spell (replicate m (TSym AMP) ++ k)) /\
    reads buf (Nat.iter m BACK c0) c.

Lemma good_paren b ts : Forall good_tok ts -> Forall good_tok (paren b ts).
Proof. intros H. destruct b; cbn; [|done]. constructor; [done|]. apply Forall_app. split; toks_good. Qed.

Lemma good_toks c : forall lv, good c -> Forall good_tok (toks lv c).
Proof.
  induction c as [argv|c IH w m f|l IHl r IHr|l IHl r IHr|c IH]; intros lv Hc; cbn [good toks] in *.
  - apply Forall_fmap. by destruct Hc.
  - destruct Hc as (Hc & Hw & _). apply Forall_app. split; [auto|].
    constructor; [cbn; by destruct (f =? 0)|]. by constructor.
  - destruct Hc. apply good_paren, Forall_app. split; [auto|]. constructor; [done|auto].
  - destruct Hc. apply good_paren, Forall_app. split; [auto|]. constructor; [done|auto].
  - apply good_paren, Forall_app. split; [auto|toks_good].
Qed.

Lemma spell_length t ts : (length (spell ts) < length (spell (t :: ts)))%nat.
Proof. rewrite spell_cons, length_app. cbn [length]. lia. Qed.

Lemma exec_exec argv : good (EXEC argv) -> exec_ok (EXEC argv).
Proof.
  intros [Hmax Hw] rs Hrs fuel k Hk Hf Hs Hfuel. rewrite <- app_assoc in *. cbn [toks] in *.
  assert (Hg : Forall good_tok (all_redirs rs ++ k)) by by apply good_redirs.
  destruct fuel as [|fuel]; [lia|]. cbn [parseexec].
  assert (Hall : Forall good_tok ((TWord <$> argv) ++ all_redirs rs ++ k)).
  { apply Forall_app. split; [by apply Forall_fmap|done]. }
  rewrite peek_spell by toks_good.
  destruct argv as [|w argv].
  - cbn [fmap list_fmap app] in *.
    assert (Hst : starts [LT; GT] k = false) by (eapply follow_not; [done|]; toks_good).
    assert (starts [LPAR] (all_redirs rs ++ k) = false) as ->.
    { destruct rs as [|[[w m] f] rs]; cbn; [|by destruct (f =? 0)].
      eapply follow_not; [done|]; toks_good. }
    destruct (redirs_ok rs (S (length (spell (all_redirs rs ++ k)))) k Hrs Hk Hst Hs (length_redirs rs k))
      as (rs' & -> & HF). cbn [then_]. rewrite parseargs_end by done.
    eexists. split; [done|]. apply wrap_reads; [done|]. by cbn.
  - destruct (redirs_ok [] (S (length (spell ((TWord <$> w :: argv) ++ all_redirs rs ++ k))))
                ((TWord <$> w :: argv) ++ all_redirs rs ++ k)) as (rs' & E & HF);
      [done|done|done|done|cbn; lia|].
    cbn [all_redirs fmap list_fmap concat app starts] in E |- *. rewrite E.
    apply Forall2_nil_inv_r in HF as ->. cbn [then_].
    apply (parseargs_ok (w :: argv) _ [] [] rs k); try done.
    cbn [fmap list_fmap app]. rewrite spell_cons, length_app. cbn [length]. rewrite spell_app, length_app.
    enough (length argv <= length (spell (TWord <$> argv)))%nat by (unfold list_fmap in *; cbn [fmap] in *; lia).
    clear. induction argv as [|w argv IH]; cbn [fmap list_fmap length]; [lia|].
    pose proof (spell_length (TWord w) (TWord <$> argv)). cbn [fmap] in *. lia.
Qed.

Lemma exec_redir c w m f : good (REDIR c w m f) -> exec_ok c -> exec_ok (REDIR c w m f).
Proof.
  intros (Hc & Hw & Hm) IH rs Hrs. cbn [toks]. rewrite <- app_assoc.
  apply (IH ((w, m, f) :: rs)). by constructor.
Qed.

(** A command in parentheses. *)
Lemma exec_of_line c : good c -> toks LExec c = paren true (toks LLine c) -> line_ok c -> exec_ok c.
Proof.
  intros Hc E IH rs Hrs fuel k Hk Hf Hs Hfuel. rewrite E in *. cbn [paren app] in *.
  assert (Hst : starts [LT; GT] k = false) by (eapply follow_not; [done|]; toks_good).
  assert (Hg : Forall good_tok (all_redirs rs ++ k)) by by apply good_redirs.
  rewrite <- !app_assoc in *. cbn [app] in *.
  set (r := toks LLine c ++ TSym RPAR :: all_redirs rs ++ k) in *.
  assert (Hgr : Forall good_tok r).
  { apply Forall_app. split; [by apply good_toks|by constructor]. }
  pose proof (spell_length (TSym LPAR) r).
  destruct fuel as [|[|fuel]]; [lia|lia|]. cbn [parseexec].
  rewrite peek_spell by toks_good. cbn [starts existsb Z.eqb Pos.eqb orb parseblock].
  rewrite peek_spell by toks_good. cbn [starts existsb Z.eqb Pos.eqb orb negb].
  destruct (gettoken_sym n LPAR r eq_refl Hgr) as [x ->].
  destruct (IH fuel (TSym RPAR :: all_redirs rs ++ k)) as (c' & E' & Hc');
    [by constructor|by right|by apply suffix_tail in Hs|fold r; lia|].
  fold r in E'. rewrite E'. cbn [then_].
  rewrite peek_spell by toks_good. cbn [starts existsb Z.eqb Pos.eqb orb negb].
  destruct (gettoken_sym n RPAR _ eq_refl Hg) as [x' ->]. unfold parseredirs.
  destruct (redirs_ok rs (S (length (spell (all_redirs rs ++ k)))) k Hrs Hk Hst) as (rs' & -> & HF);
    [|apply length_redirs|].
  { apply suffix_tail, (suffix_toks _ _), suffix_tail in Hs. done. }
  cbn [then_]. eexists. split; [done|]. by apply wrap_reads.
Qed.

Lemma follow_cons l c k : existsb (Z.eqb c) l = true -> follow l (TSym c :: k).
Proof. by right. Qed.

Lemma follow_weaken l l' k :
  follow l k -> Forall (fun c => existsb (Z.eqb c) l' = true) l -> follow l' k.
Proof.
  intros [->|Hf] HF; [by left|right]. destruct k as [|[w|c] k]; try done. cbn in *.
  apply existsb_elem_of in Hf as (d & Hd & ->%Z.eqb_eq). rewrite Forall_forall in HF. auto.
Qed.

(** One command of a pipeline, with nothing after it. *)
Lemma pipe_of_exec c : toks LPipe c = toks LExec c -> exec_ok c -> pipe_ok c.
Proof.
  intros E IH fuel k Hk Hf Hs Hfuel. rewrite E in *. destruct fuel as [|fuel]; [lia|].
  destruct (IH [] (Forall_nil_2 _) fuel k) as (c' & E' & Hc'); rewrite ?app_nil_r; try done.
  { eapply follow_weaken; [done|]. toks_good. }
  { lia. }
  rewrite app_nil_r in E'. cbn [parsepipe]. rewrite E'. cbn [then_]. rewrite peek_spell by toks_good.
  rewrite (follow_not _ _ _ Hf) by toks_good. by exists c'.
Qed.

Lemma pipe_pipe l r : good (PIPE l r) -> exec_ok l -> pipe_ok r -> pipe_ok (PIPE l r).
Proof.
  intros [Hl Hr] IHl IHr fuel k Hk Hf Hs Hfuel. cbn [toks paren] in *. rewrite <- !app_assoc in *.
  cbn [app] in *. destruct fuel as [|fuel]; [lia|].
  set (t := toks LPipe r ++ k) in *.
  assert (Hgr : Forall good_tok t) by (apply Forall_app; split; [by apply good_toks|done]).
  destruct (IHl [] (Forall_nil_2 _) fuel (TSym BAR :: t)) as (l' & El & Hl');
    rewrite ?app_nil_r; [by constructor|by apply follow_cons|done|lia|].
  rewrite app_nil_r in El. cbn [parsepipe]. rewrite El. cbn [then_]. rewrite peek_spell by toks_good.
  cbn [starts existsb Z.eqb Pos.eqb orb]. destruct (gettoken_sym n BAR t eq_refl Hgr) as [x ->].
  destruct (IHr fuel k Hk Hf) as (r' & Er & Hr').
  - apply suffix_toks, suffix_tail in Hs. done.
  - rewrite spell_app, length_app in Hfuel. pose proof (spell_length (TSym BAR) t). fold t. lia.
  - fold t in Er. rewrite Er. cbn [then_]. by eexists.
Qed.

Lemma back_of_pipe c : toks LBack c = toks LPipe c -> pipe_ok c -> back_ok c.
Proof.
  intros E IH fuel k Hk Hf Hs Hfuel. rewrite E in *.
  destruct (IH fuel k Hk Hf Hs Hfuel) as (c' & E' & Hc'). by exists c', O.
Qed.

Lemma back_back c : back_ok c -> back_ok (BACK c).
Proof.
  intros IH fuel k Hk Hf Hs Hfuel. cbn [toks paren] in *. rewrite <- !app_assoc in *. cbn [app] in *.
  destruct (IH fuel (TSym AMP :: k)) as (c0 & m & E & Hc0); [by constructor|by right|done|done|].
  exists c0, (S m). rewrite E. split; [|done]. do 2 f_equal.
  change (TSym AMP :: k) with ([TSym AMP] ++ k). rewrite app_assoc. f_equal.
  rewrite <- replicate_S_end. done.
Qed.

Lemma parseback_amps m : forall fuel c k,
  Forall good_tok k -> starts [AMP] k = false -> (m < fuel)%nat ->
  parseback n fuel c (spell (replicate m (TSym AMP) ++ k)) = Got (Nat.iter m BACK c) (spell k).
Proof.
  induction m as [|m IH]; intros fuel c k Hk Hst Hf; (destruct fuel as [|fuel]; [lia|]);
    cbn [replicate app parseback].
  - rewrite peek_spell, Hst by toks_good. done.
  - assert (Hg : Forall good_tok (replicate m (TSym AMP) ++ k)).
    { apply Forall_app. split; [by apply Forall_replicate|done]. }
    rewrite peek_spell by toks_good. cbn [starts existsb Z.eqb Pos.eqb orb].
    destruct (gettoken_sym n AMP _ eq_refl Hg) as [x ->]. rewrite IH by (done || lia).
    by rewrite <- Nat.iter_succ_r.
Qed.

Lemma length_amps m k : (m < S (length (spell (replicate m (TSym AMP) ++ k))))%nat.
Proof.
  induction m as [|m IH]; cbn [replicate app]; [lia|].
  pose proof (spell_length (TSym AMP) (replicate m (TSym AMP) ++ k)). lia.
Qed.

Lemma line_of_back c : toks LLine c = toks LBack c -> back_ok c -> line_ok c.
Proof.
  intros E IH fuel k Hk Hf Hs Hfuel. rewrite E in *. destruct fuel as [|fuel]; [lia|].
  destruct (IH fuel k Hk) as (c0 & m & E' & Hc0); [eapply follow_weaken; [done|]; toks_good|done|lia|].
  cbn [parseline]. rewrite E'. cbn [then_].
  rewrite parseback_amps; [|done|eapply follow_not; [done|]; toks_good|apply length_amps].
  cbn [then_]. rewrite peek_spell by toks_good. rewrite (follow_not _ _ _ Hf) by toks_good. by eexists.
Qed.

Lemma line_list l r : good (LIST l r) -> back_ok l -> line_ok r -> line_ok (LIST l r).
Proof.
  intros [Hl Hr] IHl IHr fuel k Hk Hf Hs Hfuel. cbn [toks paren] in *. rewrite <- !app_assoc in *.
  cbn [app] in *. destruct fuel as [|fuel]; [lia|].
  set (t := toks LLine r ++ k) in *.
  assert (Hgr : Forall good_tok t) by (apply Forall_app; split; [by apply good_toks|done]).
  destruct (IHl fuel (TSym SEMI :: t)) as (l0 & m & El & Hl'); [by constructor|by right|done|lia|].
  cbn [parseline]. rewrite El. cbn [then_].
  rewrite parseback_amps; [|by constructor|done|apply length_amps].
  cbn [then_]. rewrite peek_spell by toks_good.
  cbn [starts existsb Z.eqb Pos.eqb orb]. destruct (gettoken_sym n SEMI t eq_refl Hgr) as [x ->].
  destruct (IHr fuel k Hk Hf) as (r' & Er & Hr').
  - apply suffix_toks, suffix_tail in Hs. done.
  - rewrite spell_app, length_app in Hfuel. pose proof (spell_length (TSym SEMI) t). fold t. lia.
  - fold t in Er. rewrite Er. cbn [then_]. by eexists.
Qed.

Lemma all_ok c : good c -> exec_ok c /\ pipe_ok c /\ back_ok c /\ line_ok c.
Proof.
  induction c as [argv|c IH w m f|l IHl r IHr|l IHl r IHr|c IH]; intros Hc.
  - pose proof (exec_exec argv Hc) as He. pose proof (pipe_of_exec (EXEC argv) eq_refl He) as Hp.
    pose proof (back_of_pipe (EXEC argv) eq_refl Hp). auto using line_of_back.
  - pose proof Hc as (Hc' & _). destruct (IH Hc') as [He0 _].
    pose proof (exec_redir c w m f Hc He0) as He.
    pose proof (pipe_of_exec (REDIR c w m f) eq_refl He) as Hp.
    pose proof (back_of_pipe (REDIR c w m f) eq_refl Hp). auto using line_of_back.
  - pose proof Hc as [Hl Hr]. destruct (IHl Hl) as [El _], (IHr Hr) as (_ & Pr & _).
    pose proof (pipe_pipe l r Hc El Pr) as Hp. pose proof (back_of_pipe (PIPE l r) eq_refl Hp) as Hb.
    pose proof (line_of_back (PIPE l r) eq_refl Hb). auto using exec_of_line.
  - pose proof Hc as [Hl Hr]. destruct (IHl Hl) as (_ & _ & Bl & _), (IHr Hr) as (_ & _ & _ & Lr).
    pose proof (line_list l r Hc Bl Lr) as HL. pose proof (exec_of_line (LIST l r) Hc eq_refl HL) as He.
    pose proof (pipe_of_exec (LIST l r) eq_refl He). auto using back_of_pipe.
  - destruct (IH Hc) as (_ & _ & Bc & _). apply back_back in Bc.
    pose proof (line_of_back (BACK c) eq_refl Bc) as HL.
    pose proof (exec_of_line (BACK c) Hc eq_refl HL) as He.
    pose proof (pipe_of_exec (BACK c) eq_refl He). auto.
Qed.
End roundtrip.

(** ** The words once terminated *)

Fixpoint cmd_map {V W} (f : V -> W) (c : cmd V) : cmd W :=
  match c with
  | EXEC argv => EXEC (f <$> argv)
  | REDIR c w mode fd => REDIR (cmd_map f c) (f w) mode fd
  | PIPE l r => PIPE (cmd_map f l) (cmd_map f r)
  | LIST l r => LIST (cmd_map f l) (cmd_map f r)
  | BACK c => BACK (cmd_map f c)
  end.

(** The C string that a word of the command points at. *)
Definition string_at (mem : list Z) (w : Z * Z) : list Z := cstr_prefix (drop (Z.to_nat (fst w)) mem).

Section terminated.
Context (buf : list Z).
Implicit Types (mem : list Z).

(** [mem] is [buf] with some of the spaces zeroed. *)
Definition zeroed mem : Prop := Forall2 (fun b b' => b' = b \/ b = 32 /\ b' = 0) buf mem.
Definition ended mem (w' : Z * Z) : Prop := zlookup mem (snd w') = Some 0.

(** [mem'] comes from [mem] by zeroing more of them. *)
Definition zeroes mem mem' : Prop :=
  (zeroed mem -> zeroed mem') /\ forall w', ended mem w' -> ended mem' w'.

Lemma zeroes_trans m1 m2 m3 : zeroes m1 m2 -> zeroes m2 m3 -> zeroes m1 m3.
Proof. intros [H1 H2] [H3 H4]. split; auto. Qed.

Lemma zupd_end mem w' w :
  spanned buf w' w -> zeroed mem -> zeroes mem (zupd mem (snd w') 0) /\ ended (zupd mem (snd w') 0) w'.
Proof.
  intros (_ & pre & r & E & ->) Hz. cbn [snd]. unfold ended. cbn [snd].
  assert (Hb : buf !! Z.to_nat (zlen pre + zlen w) = Some 32).
  { rewrite E, app_assoc, lookup_app_r; unfold zlen; rewrite length_app; [|lia].
    replace (_ - _)%nat with O by lia. done. }
  assert (Hlt : 0 <= zlen pre + zlen w < zlen mem).
  { unfold zlen. rewrite <- (Forall2_length _ _ _ Hz), E, !length_app. cbn. lia. }
  split; [|by apply zlookup_zupd_eq]. split.
  - intros _. unfold zeroed. rewrite <- (list_insert_id _ _ _ Hb). rewrite zupd_to_nat by lia.
    apply Forall2_insert; auto.
  - intros v Hv. unfold ended in *. destruct (decide (zlen pre + zlen w = snd v)) as [<-|Hne];
      [by apply zlookup_zupd_eq|by rewrite zlookup_zupd_ne].
Qed.

Lemma string_at_ended mem w' w : spanned buf w' w -> zeroed mem -> ended mem w' -> string_at mem w' = w.
Proof.
  intros ((_ & Hw & Hnz) & pre & r & E & ->) Hz He. unfold zeroed in Hz. rewrite E in Hz.
  apply Forall2_app_inv_l in Hz as (pre' & m1 & Hpre & Hz & ->).
  apply Forall2_app_inv_l in Hz as (w1 & m2 & Hw1 & Hz & ->).
  apply Forall2_cons_inv_l in Hz as (b & m3 & _ & _ & ->).
  assert (w1 = w) as ->.
  { clear -Hw Hw1. induction Hw1 as [|a b w w1 [->|[-> _]] _ IH]; [done|..];
      apply Forall_cons in Hw as [Ha Hw]; [by rewrite IH|done]. }
  apply Forall2_length in Hpre. unfold string_at. cbn [fst]. unfold zlen. rewrite Nat2Z.id, Hpre.
  rewrite drop_app_length. unfold ended, zlookup in He. cbn [snd] in He. rewrite decide_True in He by (unfold zlen; lia).
  rewrite app_assoc, lookup_app_r in He by (unfold zlen; rewrite length_app; lia).
  replace (Z.to_nat _ - _)%nat with O in He by (unfold zlen; rewrite length_app; lia).
  injection He as ->. clear -Hnz. induction Hnz as [|c w Hc _ IH]; cbn; [done|].
  apply Z.eqb_neq in Hc. by rewrite Hc, IH.
Qed.

(** The words of [c'] are all terminated. *)
Fixpoint all_ended mem (c' : cmd (Z * Z)) : Prop :=
  match c' with
  | EXEC a => Forall (ended mem) a
  | REDIR c w _ _ => all_ended mem c /\ ended mem w
  | PIPE l r | LIST l r => all_ended mem l /\ all_ended mem r
  | BACK c => all_ended mem c
  end.

Lemma all_ended_mono mem mem' c' : zeroes mem mem' -> all_ended mem c' -> all_ended mem' c'.
Proof.
  intros [_ Hm]. induction c'; cbn [all_ended]; [|firstorder..].
  intros H. eapply Forall_impl; [exact H|done].
Qed.

Lemma args_ended a' a : Forall2 (spanned buf) a' a -> forall mem, zeroed mem ->
  let mem' := fold_left (fun m w => zupd m (snd w) 0) a' mem in
  zeroes mem mem' /\ Forall (ended mem') a'.
Proof.
  induction 1 as [|w' w a' a Hw _ IH]; intros mem Hz; cbn [fold_left]; [done|].
  destruct (zupd_end _ _ _ Hw Hz) as [Hz1 He]. destruct (IH _ (proj1 Hz1 Hz)) as [Hz2 Ha].
  split; [by eapply zeroes_trans|]. constructor; [|done]. by apply (proj2 Hz2).
Qed.

Lemma nulterminate_ends c' : forall c mem, reads buf c' c -> zeroed mem ->
  zeroes mem (nulterminate c' mem) /\ all_ended (nulterminate c' mem) c'.
Proof.
  induction c' as [a'|c' IH w' m' f'|l' IHl r' IHr|l' IHl r' IHr|c' IH];
    intros c mem Hc Hz; destruct c; try done; cbn [reads nulterminate all_ended] in *.
  - by eapply args_ended.
  - destruct Hc as (Hc & Hw & _). destruct (IH _ _ Hc Hz) as [Hz1 Ha].
    destruct (zupd_end _ _ _ Hw (proj1 Hz1 Hz)) as [Hz2 He].
    split; [by eapply zeroes_trans|]. split; [by eapply all_ended_mono|done].
  - destruct Hc as [Hl Hr]. destruct (IHl _ _ Hl Hz) as [Hz1 Ha].
    destruct (IHr _ _ Hr (proj1 Hz1 Hz)) as [Hz2 He].
    split; [by eapply zeroes_trans|]. split; [by eapply all_ended_mono|done].
  - destruct Hc as [Hl Hr]. destruct (IHl _ _ Hl Hz) as [Hz1 Ha].
    destruct (IHr _ _ Hr (proj1 Hz1 Hz)) as [Hz2 He].
    split; [by eapply zeroes_trans|]. split; [by eapply all_ended_mono|done].
  - eauto.
Qed.

Lemma reads_strings mem c' : zeroed mem -> forall c, reads buf c' c -> all_ended mem c' ->
  cmd_map (string_at mem) c' = c.
Proof.
  intros Hz. induction c'; intros c Hc He; destruct c; try done; cbn [reads cmd_map all_ended] in *.
  - f_equal. induction Hc as [|w' w a' a Hw _ IH]; [done|]. apply Forall_cons in He as [He He'].
    cbn [fmap list_fmap]. f_equal; [by apply string_at_ended|auto].
  - destruct Hc as (Hc & Hw & -> & ->), He. f_equal; [auto|by apply string_at_ended].
  - destruct Hc, He. f_equal; auto.
  - destruct Hc, He. f_equal; auto.
  - f_equal; auto.
Qed.
End terminated.

Lemma spanned_app buf w' w s : spanned buf w' w -> spanned (buf ++ s) w' w.
Proof.
  intros (Hw & pre & r & -> & ->). split; [done|]. exists pre, (r ++ s).
  by rewrite <- app_assoc, <- app_assoc.
Qed.

Lemma reads_app buf s c' : forall c, reads buf c' c -> reads (buf ++ s) c' c.
Proof.
  induction c'; intros c; destruct c; cbn [reads]; try done; try (firstorder; fail).
  - intros H. eapply Forall2_impl; [exact H|]. intros. by apply spanned_app.
  - intros (H & Hw & Hm). eauto using spanned_app.
Qed.

(** C35: the shell parses what a command is written as.  A command of proper words, at
    most nine arguments and redirections as the shell makes them, printed with the
    parentheses its grammar needs, is read by parsecmd as that command and with nothing
    left over; after nulterminate every argument and file name of the result points at its
    word as a C string in the line's buffer, so no termination damages another word. *)
Theorem parsecmd_roundtrip (c : cmd (list Z)) :
  good c ->
  exists c' mem, parsecmd (spell (toks LLine c)) = Got (c', mem) [] /\
    cmd_map (string_at mem) c' = c.
Proof.
  intros Hc. set (s := spell (toks LLine c)).
  destruct (all_ok s c Hc) as (_ & _ & _ & HL).
  destruct (HL (4 * length s + 4)%nat []) as (c' & E & Hr);
    rewrite ?app_nil_r; [done|by left|by exists []|fold s; lia|].
  rewrite app_nil_r in E. fold s in E. unfold parsecmd. rewrite E. cbn.
  eexists c', _. split; [done|]. apply (reads_app s [0]) in Hr.
  assert (Hz : zeroed (s ++ [0]) (s ++ [0])).
  { unfold zeroed. generalize (s ++ [0]). induction l; constructor; auto. }
  destruct (nulterminate_ends _ _ _ _ Hr Hz) as [Hz' He].
  eapply reads_strings; [by apply Hz'|done..].
Qed.

(** (a <b ; c&) | d e >f &  written with its words as single letters. *)
Lemma parsecmd_roundtrip_witness :
  exists c' mem,
    parsecmd (spell (toks LLine (BACK (PIPE
      (LIST (REDIR (EXEC [[97]]) [98] 0 0) (BACK (EXEC [[99]])))
      (REDIR (EXEC [[100]; [101]]) [102] 513 1))))) = Got (c', mem) [] /\
    cmd_map (string_at mem) c' = BACK (PIPE
      (LIST (REDIR (EXEC [[97]]) [98] 0 0) (BACK (EXEC [[99]])))
      (REDIR (EXEC [[100]; [101]]) [102] 513 1)).
Proof.
  apply parsecmd_roundtrip. cbn. unfold zlen, good_word, MAXARGS, O_RDONLY, O_WRONLY_CREATE. cbn.
  repeat (first [lia | done | split | constructor]); naive_solver.
Defined.

(** ** Termination *)

Section total.
Context (n : Z).
Implicit Types (s : list Z).

(** The parser ended, and did not back up. *)
Definition within {A} s (r : parsed A) : Prop :=
  match r with
  | Got _ s' => (length s' <= length s)%nat
  | Syntax _ => True
  | NoFuel => False
  end.

Lemma within_le {A} s s' (r : parsed A) : (length s' <= length s)%nat -> within s' r -> within s r.
Proof. destruct r; cbn; lia. Qed.

Lemma within_then {A B} s (r : parsed A) (k : A -> list Z -> parsed B) :
  within s r -> (forall a s', (length s' <= length s)%nat -> within s (k a s')) -> within s (then_ r k).
Proof. destruct r; cbn; auto. Qed.

Lemma skip_le s : (length (skip s) <= length s)%nat.
Proof. induction s as [|c s IH]; cbn; [lia|]. case_match; cbn; lia. Qed.

Lemma skip_idem s : skip (skip s) = skip s.
Proof.
  induction s as [|c s IH]; [done|]. cbn [skip]. destruct (whitespace c) eqn:E; [done|].
  cbn [skip]. by rewrite E.
Qed.

Lemma skip_head s c s' : skip s = c :: s' -> whitespace c = false.
Proof. induction s as [|d s IH]; [done|]. cbn [skip]. destruct (whitespace d) eqn:E; [done|]. congruence. Qed.

Lemma after_word_le s : (length (after_word s) <= length s)%nat.
Proof. induction s as [|c s IH]; cbn; [lia|]. case_match; cbn; lia. Qed.

(** A token takes a character, unless it is the end of the line. *)
Lemma gettoken_lt s tok w s' :
  gettoken n s = (tok, w, s') ->
  tok = 0 /\ skip s = [] /\ s' = [] \/ (length s' < length s)%nat.
Proof.
  unfold gettoken. pose proof (skip_le s) as Hle. destruct (skip s) as [|c t] eqn:E.
  { intros [= <- _ <-]. by left. }
  cbn [length] in Hle. intros H. right. pose proof (skip_le t) as Ht.
  destruct (existsb _ _) eqn:Ex; [injection H as _ _ <-; lia|].
  destruct (c =? GT) eqn:Eg.
  - destruct t as [|d t]; [injection H as _ _ <-; cbn; lia|].
    pose proof (skip_le t). cbn [length] in *. destruct (d =? GT); injection H as _ _ <-; [lia|].
    change (length (skip (d :: t)) < length s)%nat. lia.
  - injection H as _ _ <-. pose proof (skip_le (after_word (c :: t))). cbn [after_word] in *.
    assert (word_char c = true) as Hc.
    { unfold word_char. rewrite (skip_head _ _ _ E). cbn [existsb] in Ex. unfold symbols. cbn [existsb].
      repeat rewrite orb_false_iff in Ex. destruct_and! Ex. by repeat match goal with H : (_ =? _) = false |- _ => rewrite H; clear H end. }
    rewrite Hc in *. pose proof (after_word_le t). lia.
Qed.

(** Taking the symbol peek() saw. *)
Lemma peek_gettoken s l b s1 tok w s2 :
  peek s l = (b, s1) -> gettoken n s1 = (tok, w, s2) ->
  (length s1 <= length s)%nat /\ (length s2 <= length s)%nat /\
  (b = true -> (length s2 < length s)%nat) /\ (tok <> 0 -> (length s2 < length s)%nat).
Proof.
  unfold peek. intros [= <- <-] Hg. pose proof (skip_le s).
  destruct (gettoken_lt _ _ _ _ Hg) as [(-> & Hsk & ->)|Hlt]; [|repeat split; lia].
  rewrite skip_idem in Hsk. rewrite Hsk. cbn. repeat split; (lia || done).
Qed.

Ltac step s :=
  let b := fresh "b" in let s1 := fresh "s" in let tok := fresh "tok" in
  let w := fresh "w" in let s2 := fresh "s" in
  let Ep := fresh "Ep" in let Eg := fresh "Eg" in
  destruct (peek s _) as [b s1] eqn:Ep; destruct (gettoken n s1) as [[tok w] s2] eqn:Eg;
  destruct (peek_gettoken _ _ _ _ _ _ _ Ep Eg) as (? & ? & ? & ?).

Ltac seen := repeat match goal with
  | H : true = true -> _ |- _ => specialize (H eq_refl)
  | H : ?t <> 0 -> _, H' : ?t <> 0 |- _ => specialize (H H')
  end.

Lemma redirs_total fuel : forall s, (length s < fuel)%nat -> within s (redirs n fuel s).
Proof.
  induction fuel as [|fuel IH]; intros s Hf; [lia|]. cbn [redirs]. step s. destruct b; [seen|done].
  destruct (gettoken n s1) as [[t w'] s2] eqn:Eg'. case_match; [done|].
  assert (length s2 < length s)%nat by (destruct (gettoken_lt _ _ _ _ Eg') as [(-> & _ & ->)|]; cbn; lia).
  apply (within_le _ s2); [lia|]. apply within_then; [apply IH; lia|]. done.
Qed.

Lemma parseargs_total fuel : forall argv rs s, (length s < fuel)%nat -> within s (parseargs n fuel argv rs s).
Proof.
  induction fuel as [|fuel IH]; intros argv rs s Hf; [lia|]. cbn [parseargs]. step s.
  destruct b; [done|]. destruct (Z.eqb_spec tok 0) as [->|Hne]; [done|]. seen.
  case_match; [done|]. case_match; [done|]. apply (within_le _ s1); [lia|].
  apply within_then; [apply redirs_total; lia|]. intros rs' s' Hs'.
  apply (within_le _ s'); [lia|]. apply IH. lia.
Qed.

Lemma parseback_total fuel : forall c s, (length s < fuel)%nat -> within s (parseback n fuel c s).
Proof.
  induction fuel as [|fuel IH]; intros c s Hf; [lia|]. cbn [parseback]. step s. destruct b; [seen|done].
  apply (within_le _ s1); [lia|]. apply IH. lia.
Qed.

Lemma parse_total fuel : forall s,
  ((4 * length s + 3 < fuel)%nat -> within s (parseline n fuel s)) /\
  ((4 * length s + 2 < fuel)%nat -> within s (parsepipe n fuel s)) /\
  ((4 * length s + 1 < fuel)%nat -> within s (parseexec n fuel s)) /\
  ((4 * length s < fuel)%nat -> within s (parseblock n fuel s)).
Proof.
  induction fuel as [|fuel IH]; intros s; (split; [|split; [|split]]); intros Hf; [lia..| | | |];
    cbn [parseline parsepipe parseexec parseblock].
  - apply within_then; [apply IH; lia|]. intros c s1 H1. apply (within_le _ s1); [done|].
    apply within_then; [apply parseback_total; lia|]. intros c' s2 Hs2.
    step s2. destruct b; [seen|cbn; lia].
    apply (within_le _ s3); [lia|]. apply within_then; [apply IH; lia|]. done.
  - apply within_then; [apply IH; lia|]. intros c s1 H1. step s1. destruct b; [seen|cbn; lia].
    apply (within_le _ s2); [lia|]. apply within_then; [apply IH; lia|]. done.
  - step s. apply (within_le _ s0); [lia|]. destruct b; [apply IH; lia|].
    apply within_then; [apply redirs_total; lia|]. intros rs s2 Hs2.
    apply (within_le _ s2); [lia|]. apply parseargs_total. lia.
  - step s. destruct b; cbn [negb]; [seen|done].
    apply (within_le _ s1); [lia|]. apply within_then; [apply IH; lia|]. intros c s2 Hs2.
    step s2. destruct b; cbn [negb]; [seen|done]. unfold parseredirs.
    apply (within_le _ s4); [lia|]. apply within_then; [apply redirs_total; lia|]. done.
Qed.
End total.

(** The parser ends on every line: parsecmd gives a command or a syntax error, and
    when it gives a command it has read the whole line. *)
Theorem parsecmd_total (s : list Z) :
  (exists c mem, parsecmd s = Got (c, mem) []) \/ exists msg, parsecmd s = Syntax msg.
Proof.
  unfold parsecmd. destruct (parse_total (zlen s) (4 * length s + 4) s) as (H & _).
  specialize (H ltac:(lia)). destruct (parseline _ _ _) as [c r|msg|]; cbn [then_]; [| by right; eexists|done].
  unfold peek. destruct (skip r); [left; by eexists _, _|right; by eexists].
Qed.
