(* ===== verification/Vm.v ===== *)
(** * Virtual memory

    vm.c: two-level page tables in the pages of the allocator of Kalloc.v.  All pointers
    are kernel virtual addresses into its memory; the user memory of a process is reached
    through its page table.  [kdata] is the linker's symbol [data] and [null] the word a
    null [pte_t] pointer reads.  Messages on the console are not part of the state.  The
    segment descriptors of seginit and the task switch of switchuvm are hardware tables;
    switchuvm's checks are in Sched.v. *)

From S2P Require Import Prelude CString Kalloc.
From stdpp Require Import gmap.
#[local] Open Scope Z_scope.

Definition PTE_P : Z := 1.
Definition PTE_W : Z := 2.
Definition PTE_U : Z := 4.
Definition EXTMEM : Z := 1048576.
Definition DEVSPACE : Z := 4261412864.
Definition KERNLINK : Z := KERNBASE + EXTMEM.
Definition NPDENTRIES : Z := 1024.

Definition PDX (va : Z) : Z := Z.land (Z.shiftr va 22) 1023.
Definition PTX (va : Z) : Z := Z.land (Z.shiftr va 12) 1023.
Definition PGADDR (d t o : Z) : Z := u32 (Z.lor (Z.lor (Z.shiftl d 22) (Z.shiftl t 12)) o).
Definition PGROUNDDOWN (a : Z) : Z := Z.land a (Z.lnot (PGSIZE - 1)).
Definition PTE_ADDR (pte : Z) : Z := Z.land pte (Z.lnot 4095).
Definition PTE_FLAGS (pte : Z) : Z := Z.land pte 4095.

(** A state that the memory is a part of. *)
Class HasMemory (T : Type) := { mem_of : T -> kmem; with_mem : kmem -> T -> T }.

Class HasMemoryLaws (T : Type) `{HasMemory T} := {
  mem_with_mem (t : T) (k : kmem) : mem_of (with_mem k t) = k;
  with_mem_mem (t : T) : with_mem (mem_of t) t = t;
  with_mem_twice (t : T) (k k' : kmem) : with_mem k (with_mem k' t) = with_mem k t }.

Definition inmem {T} `{HasMemory T} {A} (m : M kmem A) : M T A := fun t =>
  match m (mem_of t) with
  | Ok a k => Ok a (with_mem k t)
  | Panic msg => Panic msg
  end.

Section inmem.
Context {T} `{HasMemoryLaws T} {A : Type}.
Implicit Types (m : M kmem A) (t : T).

Lemma inmem_run m t a k : m (mem_of t) = Ok a k -> inmem m t = Ok a (with_mem k t).
Proof. intros E. unfold inmem. by rewrite E. Qed.

Lemma inmem_pure m t a : m (mem_of t) = Ok a (mem_of t) -> inmem m t = Ok a t.
Proof. intros E. rewrite (inmem_run m t a _ E). by rewrite with_mem_mem. Qed.
End inmem.

#[export] Instance kmem_memory : HasMemory kmem := {| mem_of k := k; with_mem k _ := k |}.
#[export] Instance kmem_memory_laws : HasMemoryLaws kmem.
Proof. by split. Qed.

Section ops.
Context (kend kdata null : Z).

Definition load (a : Z) : M kmem Z := gets (fun k => load_word (kmemory k) a).
Definition poke (a w : Z) : M kmem unit :=
  modify (fun k => k <| kmemory := store_word (kmemory k) a w |>).
Definition zero_page (a : Z) : M kmem unit :=
  modify (fun k => k <| kmemory := memset (kmemory k) a 0 PGSIZE |>).
Definition cprintf (msg : string) : M kmem unit := mret tt.

Definition walkpgdir (pgdir va : Z) (alloc : bool) : M kmem Z :=
  let pde := u32 (pgdir + 4 * PDX va) in
  e ← load pde;
  if negb (Z.land e PTE_P =? 0) then mret (u32 (P2V (PTE_ADDR e) + 4 * PTX va))
  else if negb alloc then mret 0
  else
    pgtab ← kalloc;
    if pgtab =? 0 then mret 0 else
    zero_page pgtab;;
    poke pde (Z.lor (Z.lor (Z.lor (V2P pgtab) PTE_P) PTE_W) PTE_U);;
    mret (u32 (pgtab + 4 * PTX va)).

(** The loop of mappages runs once per page from [a] to [last]. *)
Fixpoint map_loop (n : nat) (pgdir a pa perm : Z) : M kmem Z :=
  pte ← walkpgdir pgdir a true;
  if pte =? 0 then mret (-1) else
  e ← load pte;
  if negb (Z.land e PTE_P =? 0) then panic "remap" else
  poke pte (Z.lor (Z.lor pa perm) PTE_P);;
  match n with
  | O => mret 0
  | S n => map_loop n pgdir (u32 (a + PGSIZE)) (u32 (pa + PGSIZE)) perm
  end.

Definition mappages (pgdir va size pa perm : Z) : M kmem Z :=
  let a := PGROUNDDOWN va in
  let last := PGROUNDDOWN (u32 (va + size - 1)) in
  map_loop (Z.to_nat (u32 (last - a) / PGSIZE)) pgdir a pa perm.

(** [a = PGROUNDUP(newsz); for(; a < oldsz; a += PGSIZE) ...]; [a] moves up by at least a
    page in every round. *)
Fixpoint dealloc_loop (fuel : nat) (pgdir a oldsz : Z) : M kmem unit :=
  match fuel with
  | O => mret tt
  | S fuel =>
      if oldsz <=? a then mret tt else
      pte ← walkpgdir pgdir a false;
      if pte =? 0 then
        dealloc_loop fuel pgdir (u32 (u32 (PGADDR (PDX a + 1) 0 0 - PGSIZE) + PGSIZE)) oldsz
      else
        e ← load pte;
        (if negb (Z.land e PTE_P =? 0) then
           let pa := PTE_ADDR e in
           if pa =? 0 then panic "kfree" else kfree kend (P2V pa);; poke pte 0
         else mret tt);;
        dealloc_loop fuel pgdir (u32 (a + PGSIZE)) oldsz
  end.

Definition deallocuvm (pgdir oldsz newsz : Z) : M kmem Z :=
  if oldsz <=? newsz then mret oldsz else
  dealloc_loop (S (Z.to_nat (oldsz / PGSIZE))) pgdir (PGROUNDUP newsz) oldsz;;
  mret newsz.

Definition free_table (pgdir i : Z) : M kmem unit :=
  e ← load (u32 (pgdir + 4 * i));
  if negb (Z.land e PTE_P =? 0) then kfree kend (P2V (PTE_ADDR e)) else mret tt.

Definition freevm (pgdir : Z) : M kmem unit :=
  if pgdir =? 0 then panic "freevm: no pgdir" else
  deallocuvm pgdir KERNBASE 0;;
  forM (zrange 0 (NPDENTRIES - 1)) (free_table pgdir);;
  kfree kend pgdir.

Record kmapping := mkkmap { virt : Z; phys_start : Z; phys_end : Z; perm : Z }.
Definition kmap : list kmapping :=
  [mkkmap KERNBASE 0 EXTMEM PTE_W; mkkmap KERNLINK (V2P KERNLINK) (V2P kdata) 0;
   mkkmap kdata (V2P kdata) PHYSTOP PTE_W; mkkmap DEVSPACE DEVSPACE 0 PTE_W].

Fixpoint kmap_loop (pgdir : Z) (ks : list kmapping) : M kmem Z :=
  match ks with
  | [] => mret pgdir
  | k :: ks =>
      r ← mappages pgdir (virt k) (u32 (phys_end k - phys_start k)) (phys_start k) (perm k);
      if r <? 0 then freevm pgdir;; mret 0 else kmap_loop pgdir ks
  end.

Definition setupkvm : M kmem Z :=
  pgdir ← kalloc;
  if pgdir =? 0 then mret 0 else
  zero_page pgdir;;
  if DEVSPACE <? P2V PHYSTOP then panic "PHYSTOP too high" else
  kmap_loop pgdir kmap.

(** [init] is the program text. *)
Definition inituvm (pgdir : Z) (init : list Z) : M kmem unit :=
  if PGSIZE <=? zlen init then panic "inituvm: more than a page" else
  mem ← kalloc;
  zero_page mem;;
  mappages pgdir 0 PGSIZE (V2P mem) (Z.lor PTE_W PTE_U);;
  modify (fun k => k <| kmemory := write (kmemory k) mem init |>).

Fixpoint alloc_loop (fuel : nat) (pgdir a oldsz newsz : Z) : M kmem Z :=
  match fuel with
  | O => mret newsz
  | S fuel =>
      if newsz <=? a then mret newsz else
      mem ← kalloc;
      if mem =? 0 then
        cprintf "allocuvm out of memory\n";;
        deallocuvm pgdir newsz oldsz;; mret 0
      else
        zero_page mem;;
        r ← mappages pgdir a PGSIZE (V2P mem) (Z.lor PTE_W PTE_U);
        if r <? 0 then
          cprintf "allocuvm out of memory (2)\n";;
          deallocuvm pgdir newsz oldsz;; kfree kend mem;; mret 0
        else alloc_loop fuel pgdir (u32 (a + PGSIZE)) oldsz newsz
  end.

Definition allocuvm (pgdir oldsz newsz : Z) : M kmem Z :=
  if KERNBASE <=? newsz then mret 0
  else if newsz <? oldsz then mret oldsz
  else alloc_loop (S (Z.to_nat (newsz / PGSIZE))) pgdir (PGROUNDUP oldsz) oldsz newsz.

Definition clearpteu (pgdir uva : Z) : M kmem unit :=
  pte ← walkpgdir pgdir uva false;
  if pte =? 0 then panic "clearpteu" else
  e ← load pte; poke pte (Z.land e (Z.lnot PTE_U)).

Fixpoint copy_loop (fuel : nat) (pgdir d i sz : Z) : M kmem Z :=
  match fuel with
  | O => mret d
  | S fuel =>
      if sz <=? i then mret d else
      pte ← walkpgdir pgdir i false;
      if pte =? 0 then panic "copyuvm: pte should exist" else
      e ← load pte;
      if Z.land e PTE_P =? 0 then panic "copyuvm: page not present" else
      mem ← kalloc;
      if mem =? 0 then freevm d;; mret 0 else
      modify (fun k => k <| kmemory := memmove (kmemory k) mem (P2V (PTE_ADDR e)) PGSIZE |>);;
      r ← mappages d i PGSIZE (V2P mem) (PTE_FLAGS e);
      if r <? 0 then kfree kend mem;; freevm d;; mret 0
      else copy_loop fuel pgdir d (u32 (i + PGSIZE)) sz
  end.

Definition copyuvm (pgdir sz : Z) : M kmem Z :=
  d ← setupkvm;
  if d =? 0 then mret 0 else copy_loop (S (Z.to_nat (sz / PGSIZE + 1))) pgdir d 0 sz.

Definition uva2ka (pgdir uva : Z) : M kmem Z :=
  pte ← walkpgdir pgdir uva false;
  e ← (if pte =? 0 then mret null else load pte);
  if Z.land e PTE_P =? 0 then mret 0
  else if Z.land e PTE_U =? 0 then mret 0
  else mret (P2V (PTE_ADDR e)).

(** [p] holds the bytes still to be copied, at least one per round. *)
Fixpoint copyout_loop (fuel : nat) (pgdir va : Z) (p : list Z) : M kmem Z :=
  match fuel with
  | O => mret 0
  | S fuel =>
      match p with
      | [] => mret 0
      | _ =>
          let va0 := PGROUNDDOWN va in
          pa0 ← uva2ka pgdir va0;
          if pa0 =? 0 then mret (-1) else
          let n := Z.min (PGSIZE - (va - va0)) (zlen p) in
          modify (fun k => k <| kmemory := write (kmemory k) (pa0 + (va - va0))
                                                 (take (Z.to_nat n) p) |>);;
          copyout_loop fuel pgdir (u32 (va0 + PGSIZE)) (drop (Z.to_nat n) p)
      end
  end.

Definition copyout (pgdir va : Z) (p : list Z) : M kmem Z := copyout_loop (S (length p)) pgdir va p.

(** [readi off n] is readi() of the file the pages are filled from, which works on a state [T]
    that the memory is a part of: the bytes it delivers, or [None] for -1. *)
Fixpoint load_loop {T} `{HasMemory T} (fuel : nat) (readi : Z -> Z -> M T (option (list Z)))
    (pgdir addr offset i sz : Z) : M T Z :=
  match fuel with
  | O => mret 0
  | S fuel =>
      if sz <=? i then mret 0 else
      pte ← inmem (walkpgdir pgdir (u32 (addr + i)) false);
      if pte =? 0 then panic "loaduvm: address should exist" else
      e ← inmem (load pte);
      let n := if sz - i <? PGSIZE then sz - i else PGSIZE in
      r ← readi (u32 (offset + i)) n;
      match r with
      | Some bs =>
          inmem (modify (fun k => k <| kmemory := write (kmemory k) (P2V (PTE_ADDR e)) bs |>));;
          if negb (zlen bs =? n) then mret (-1)
          else load_loop fuel readi pgdir addr offset (u32 (i + PGSIZE)) sz
      | None => mret (-1)
      end
  end.

Definition loaduvm {T} `{HasMemory T} (readi : Z -> Z -> M T (option (list Z))) (pgdir addr offset sz : Z) : M T Z :=
  if negb (addr mod PGSIZE =? 0) then panic "loaduvm: addr must be page aligned"
  else load_loop (S (Z.to_nat (sz / PGSIZE + 1))) readi pgdir addr offset 0 sz.
End ops.

(** ** Entries and words *)

Section words.
Implicit Types (m : memory) (a w x t : Z).

Lemma land_low x n : 0 <= n -> Z.land x (Z.ones n) = x mod 2 ^ n.
Proof. intros Hn. by apply Z.land_ones. Qed.

Lemma land_page x : Z.land x (Z.lnot 4095) = x - x mod PGSIZE.
Proof.
  change 4095 with (Z.ones 12). rewrite <- Z.ldiff_land, Z.ldiff_ones_r by lia.
  rewrite Z.shiftl_mul_pow2, Z.shiftr_div_pow2 by lia. unfold PGSIZE. change (2 ^ 12) with 4096.
  pose proof (Z.div_mod x 4096). lia.
Qed.

Lemma PTE_ADDR_eq e : PTE_ADDR e = e - e mod PGSIZE.
Proof. apply land_page. Qed.
Lemma PGROUNDDOWN_eq a : PGROUNDDOWN a = a - a mod PGSIZE.
Proof. apply land_page. Qed.
Lemma PTE_FLAGS_eq e : PTE_FLAGS e = e mod PGSIZE.
Proof. unfold PTE_FLAGS. change 4095 with (Z.ones 12). by rewrite Z.land_ones. Qed.
Lemma present_eq e : Z.land e PTE_P = e mod 2.
Proof. unfold PTE_P. change 1 with (Z.ones 1). by rewrite Z.land_ones. Qed.

Lemma PDX_eq va : 0 <= va < 2 ^ 32 -> PDX va = va / PGSIZE / 1024.
Proof.
  intros H. unfold PDX. change 1023 with (Z.ones 10).
  rewrite Z.land_ones, Z.shiftr_div_pow2 by lia. unfold PGSIZE.
  rewrite Z.div_div by lia. change (4096 * 1024) with (2 ^ 22). apply Z.mod_small.
  change (2 ^ 32) with (2 ^ 22 * 2 ^ 10) in H. split; [apply Z.div_pos; lia|].
  apply Z.div_lt_upper_bound; lia.
Qed.

Lemma PTX_eq va : PTX va = va / PGSIZE mod 1024.
Proof. unfold PTX. change 1023 with (Z.ones 10). by rewrite Z.land_ones, Z.shiftr_div_pow2 by lia. Qed.

(** Adding flags to the address of a page. *)
Lemma lor_page a f : a mod PGSIZE = 0 -> 0 <= f < PGSIZE -> Z.lor a f = a + f.
Proof.
  intros Ha Hf. pose proof (Z.add_lor_land a f) as H.
  assert (Z.land a f = 0); [|lia].
  assert (Hl : Z.land f (Z.ones 12) = f) by (rewrite Z.land_ones by lia; by apply Z.mod_small).
  rewrite <- Hl, (Z.land_comm f), Z.land_assoc, Z.land_ones by lia.
  unfold PGSIZE in Ha. change (2 ^ 12) with 4096. by rewrite Ha.
Qed.

Lemma lor_flags a b : 0 <= a < PGSIZE -> 0 <= b < PGSIZE -> 0 <= Z.lor a b < PGSIZE.
Proof.
  intros Ha Hb. split; [apply Z.lor_nonneg; lia|].
  assert (Hl : Z.land (Z.lor a b) (Z.ones 12) = Z.lor a b).
  { rewrite Z.land_lor_distr_l, !Z.land_ones by lia. f_equal; by apply Z.mod_small. }
  rewrite <- Hl, Z.land_ones by lia. change (2 ^ 12) with PGSIZE. apply Z.mod_pos_bound. done.
Qed.

Lemma lor_present f : 0 <= f -> Z.lor f 1 mod 2 = 1.
Proof.
  intros Hf. change 2 with (2 ^ 1). rewrite <- Z.land_ones by lia. change (Z.ones 1) with 1.
  rewrite Z.land_lor_distr_l. change (Z.land 1 1) with 1.
  change 1 with (Z.ones 1) at 1. rewrite Z.land_ones by lia. change (2 ^ 1) with 2.
  destruct (Z.mod_pos_bound f 2) as [H1 H2]; [lia|].
  assert (f mod 2 = 0 \/ f mod 2 = 1) as [-> | ->] by lia; done.
Qed.

(** The entry that maps a page at physical address [pa] with [perm]. *)
Definition entry (pa perm : Z) : Z := Z.lor (Z.lor pa perm) PTE_P.

Lemma entry_eq pa perm :
  pa mod PGSIZE = 0 -> 0 <= perm < PGSIZE -> entry pa perm = pa + Z.lor perm 1.
Proof.
  intros Hp Hf. unfold entry, PTE_P. rewrite <- Z.lor_assoc. apply lor_page; [done|].
  apply lor_flags; [done|unfold PGSIZE; lia].
Qed.

Lemma entry_ok pa perm :
  pa mod PGSIZE = 0 -> 0 <= pa -> pa + PGSIZE <= 2 ^ 32 -> 0 <= perm < PGSIZE ->
  is_u32 (entry pa perm) /\ entry pa perm mod 2 = 1 /\
  PTE_ADDR (entry pa perm) = pa /\ PTE_FLAGS (entry pa perm) = Z.lor perm 1.
Proof.
  intros Hp H0 H1 Hf. rewrite PTE_ADDR_eq, PTE_FLAGS_eq, entry_eq by done.
  destruct (lor_flags perm 1) as [Hl Hu]; [done|unfold PGSIZE; lia|].
  pose proof (lor_present perm ltac:(lia)) as Hpr. set (f := Z.lor perm 1) in *.
  assert ((pa + f) mod PGSIZE = f) as ->.
  { rewrite <- Zplus_mod_idemp_l, Hp, Z.add_0_l. by apply Z.mod_small. }
  unfold is_u32, PGSIZE in *. split; [lia|]. split; [|lia].
  apply Z.mod_divide in Hp as [q ->]; [|done]. rewrite <- Hpr.
  replace (q * 4096 + f) with (f + q * 2048 * 2) by lia. by apply Z_mod_plus_full.
Qed.

Lemma load_zeroed m (v a : Z) :
  CString.block v PGSIZE -> v <= a -> a + 4 <= v + PGSIZE -> load_word (memset m v 0 PGSIZE) a = 0.
Proof.
  intros Hb H0 H1. unfold load_word, CString.block, PGSIZE in *. rewrite !u32_small by (unfold is_u32; lia).
  rewrite !memset_spec by (unfold CString.block; lia). by rewrite !decide_True by lia.
Qed.
End words.

(** ** What a page table stands for

    [tabs] gives the second-level table of a directory index, and [pm] the present entry
    of a virtual page number. *)

Record aspace := mkas { dir : Z; tabs : gmap Z Z; pm : gmap Z Z }.

Definition table_pages (A : aspace) : list Z := dir A :: (map_to_list (tabs A)).*2.

Definition same_on (R : list Z) (m m' : memory) : Prop :=
  forall p x, p ∈ R -> p <= x < p + PGSIZE -> m' x = m x.

Section repr.
Context (kend : Z).
Implicit Types (k : kmem) (m : memory) (l R : list Z) (A : aspace).

Record repr m A : Prop := mkrepr {
  r_pages : forall p, p ∈ table_pages A -> page kend p;
  r_nodup : NoDup (table_pages A);
  r_dir : forall i, 0 <= i < 1024 ->
    load_word m (dir A + 4 * i) = match tabs A !! i with Some t => V2P t + 7 | None => 0 end;
  r_tab : forall i t j, tabs A !! i = Some t -> 0 <= j < 1024 ->
    load_word m (t + 4 * j) = default 0 (pm A !! (i * 1024 + j));
  r_idx : forall i t, tabs A !! i = Some t -> 0 <= i < 1024;
  r_pm : forall n e, pm A !! n = Some e ->
    is_Some (tabs A !! (n / 1024)) /\ is_u32 e /\ e mod 2 = 1 }.

(** The free pages [l], the tables of [A] and other pages [R] are all different. *)
Record own k l A R : Prop := mkown {
  o_free : kmem_ok kend k l;
  o_repr : repr (kmemory k) A;
  o_nodup : NoDup (l ++ table_pages A ++ R);
  o_pages : forall p, p ∈ R -> page kend p }.

Lemma same_on_refl R m : same_on R m m.
Proof. done. Qed.

Lemma same_on_trans R m1 m2 m3 : same_on R m1 m2 -> same_on R m2 m3 -> same_on R m1 m3.
Proof. intros H1 H2 p x Hp Hx. by rewrite (H2 p x), (H1 p x). Qed.

Lemma same_on_sub R R' m m' : same_on R' m m' -> (forall p, p ∈ R -> p ∈ R') -> same_on R m m'.
Proof. intros H Hs p x Hp. apply H. auto. Qed.

(** Writing inside one page leaves the others alone. *)
Lemma same_on_page R m m' v :
  page kend v -> (forall p, p ∈ R -> page kend p) -> v ∉ R ->
  (forall x, ~ (v <= x < v + PGSIZE) -> m' x = m x) -> same_on R m m'.
Proof.
  intros Hv HR Hn Hm p x Hp Hx. apply Hm. apply (pages_apart kend p v x); auto. by intros ->.
Qed.

Lemma table_in A i t : tabs A !! i = Some t -> t ∈ table_pages A.
Proof.
  intros H. right. apply list_elem_of_fmap. exists (i, t). split; [done|]. by apply elem_of_map_to_list.
Qed.

Lemma dir_in A : dir A ∈ table_pages A.
Proof. by left. Qed.

Lemma repr_frame m m' A : repr m A -> same_on (table_pages A) m m' -> repr m' A.
Proof.
  intros [H1 H2 H3 H4 H5 H6] Hs. split; [done|done| | |done|done].
  - intros i Hi. rewrite <- H3 by done. destruct (page_range kend (dir A) (H1 _ (dir_in A))).
    apply load_word_same; [unfold PGSIZE in *; lia..|]. intros x Hx. apply (Hs (dir A)); [apply dir_in|].
    unfold in_word, PGSIZE in *. lia.
  - intros i t j Ht Hj. rewrite <- (H4 i t j) by done. pose proof (table_in A i t Ht) as Hin.
    destruct (page_range kend t (H1 _ Hin)).
    apply load_word_same; [unfold PGSIZE in *; lia..|]. intros x Hx. apply (Hs t); [done|].
    unfold in_word, PGSIZE in *. lia.
Qed.

Lemma kmem_frame k l m :
  kmem_ok kend k l -> same_on l (kmemory k) m -> kmem_ok kend (k <| kmemory := m |>) l.
Proof.
  intros [Hc HN Hp] Hs. split; [|done|done]. cbn. eapply chain_ext; [done..|]. done.
Qed.

(** The tables of two directory slots are different pages. *)
Lemma tabs_inj m A i i' t : repr m A -> tabs A !! i = Some t -> tabs A !! i' = Some t -> i = i'.
Proof.
  intros [_ [_ HN]%NoDup_cons _ _ _ _] H1 H2.
  apply elem_of_map_to_list in H1, H2.
  apply list_elem_of_lookup in H1 as [a Ha], H2 as [b Hb].
  assert (a = b) as ->; [|congruence].
  eapply NoDup_lookup; [done|..]; rewrite list_lookup_fmap; [by rewrite Ha|by rewrite Hb].
Qed.

Lemma dir_not_table m A i t : repr m A -> tabs A !! i = Some t -> t <> dir A.
Proof.
  intros [_ [Hn _]%NoDup_cons _ _ _ _] Ht ->. apply Hn. apply list_elem_of_fmap.
  exists (i, dir A). split; [done|]. by apply elem_of_map_to_list.
Qed.
End repr.

(** ** Walking and changing a page table *)

Section walk.
Context (kend : Z).
Implicit Types (k : kmem) (m : memory) (l R : list Z) (A : aspace).
Abbreviation own := (own kend).
Abbreviation repr := (repr kend).
Abbreviation page := (page kend).

Lemma page_V2P t :
  page t -> V2P t = t - KERNBASE /\ V2P t mod PGSIZE = 0 /\ 0 <= V2P t /\ V2P t + PGSIZE <= PHYSTOP.
Proof.
  intros (Hm & _ & Hr). unfold V2P. rewrite u32_small by (unfold is_u32, KERNBASE, PHYSTOP in *; lia).
  split; [done|]. unfold PGSIZE, KERNBASE, PHYSTOP in *. split; [|split; [lia|]].
  - apply Z.mod_divide in Hm as [q ->]; [|done].
    replace (q * 4096 - 2147483648) with ((q - 524288) * 4096) by lia. by apply Z.mod_mul.
  - apply Z.mod_divide in Hm as [q ->]; [|done]. lia.
Qed.

Lemma P2V_V2P t : page t -> P2V (V2P t) = t.
Proof.
  intros Ht. destruct (page_V2P t Ht) as (-> & _). destruct Ht as (_ & _ & Hr).
  unfold P2V. rewrite u32_small; unfold is_u32, KERNBASE, PHYSTOP in *; lia.
Qed.

Lemma table_entry t : page t ->
  Z.lor (Z.lor (Z.lor (V2P t) PTE_P) PTE_W) PTE_U = V2P t + 7 /\ is_u32 (V2P t + 7) /\
  (V2P t + 7) mod 2 = 1 /\ P2V (PTE_ADDR (V2P t + 7)) = t.
Proof.
  intros Ht. destruct (page_V2P t Ht) as (_ & Hm & H0 & H1).
  split; [rewrite <- !Z.lor_assoc; apply lor_page; [done|unfold PGSIZE; done]|].
  rewrite PTE_ADDR_eq. assert ((V2P t + 7) mod PGSIZE = 7) as ->.
  { rewrite <- Zplus_mod_idemp_l, Hm. done. }
  replace (V2P t + 7 - 7) with (V2P t) by lia. rewrite P2V_V2P by done.
  unfold is_u32, PHYSTOP, PGSIZE in *. split; [lia|]. split; [|done].
  apply Z.mod_divide in Hm as [q ->]; [|done]. replace (q * 4096 + 7) with (1 + (q * 2048 + 3) * 2) by lia.
  by rewrite Z_mod_plus_full.
Qed.

Definition slot (t n : Z) : Z := t + 4 * (n mod 1024).

Lemma slot_range t n : page t -> 0 < slot t n /\ t <= slot t n /\ slot t n + 4 <= t + PGSIZE /\
  t + PGSIZE <= 2 ^ 32.
Proof.
  intros Ht. destruct (page_range kend t Ht). pose proof (Z.mod_pos_bound n 1024).
  unfold slot, PGSIZE in *. lia.
Qed.

Lemma vpn_range va : 0 <= va < 2 ^ 32 -> 0 <= va / PGSIZE / 1024 < 1024.
Proof.
  intros H. unfold PGSIZE. rewrite Z.div_div by lia. change (2 ^ 32) with (4096 * 1024 * 1024) in H.
  split; [apply Z.div_pos; lia|apply Z.div_lt_upper_bound; lia].
Qed.

Lemma walk_pde A va k : repr (kmemory k) A -> 0 <= va < 2 ^ 32 ->
  u32 (dir A + 4 * PDX va) = dir A + 4 * (va / PGSIZE / 1024) /\
  load_word (kmemory k) (dir A + 4 * (va / PGSIZE / 1024)) =
    match tabs A !! (va / PGSIZE / 1024) with Some t => V2P t + 7 | None => 0 end.
Proof.
  intros HR Hva. rewrite PDX_eq by done. pose proof (vpn_range va Hva).
  destruct (page_range kend (dir A) (r_pages _ _ _ HR _ (dir_in A))).
  rewrite u32_small by (unfold is_u32, PGSIZE in *; lia). split; [done|]. by apply (r_dir _ _ _ HR).
Qed.

Lemma walk_present A va k t alloc : repr (kmemory k) A -> 0 <= va < 2 ^ 32 ->
  tabs A !! (va / PGSIZE / 1024) = Some t ->
  walkpgdir (dir A) va alloc k = Ok (slot t (va / PGSIZE)) k.
Proof.
  intros HR Hva Ht. unfold walkpgdir. destruct (walk_pde A va k HR Hva) as [-> Hl].
  erewrite bind_run by reflexivity. rewrite Hl, Ht.
  destruct (table_entry t (r_pages _ _ _ HR _ (table_in _ _ _ Ht))) as (_ & _ & Hp & Ha).
  rewrite present_eq, Hp. cbn [Z.eqb Pos.eqb negb]. rewrite Ha, PTX_eq.
  destruct (slot_range t (va / PGSIZE) (r_pages _ _ _ HR _ (table_in _ _ _ Ht))).
  unfold slot in *. rewrite u32_small by (unfold is_u32, PGSIZE in *; lia). done.
Qed.

Lemma walk_absent A va k : repr (kmemory k) A -> 0 <= va < 2 ^ 32 ->
  tabs A !! (va / PGSIZE / 1024) = None -> walkpgdir (dir A) va false k = Ok 0 k.
Proof.
  intros HR Hva Ht. unfold walkpgdir. destruct (walk_pde A va k HR Hva) as [-> Hl].
  erewrite bind_run by reflexivity. by rewrite Hl, Ht.
Qed.

Lemma walk_empty A va k : kmem_ok kend k [] -> repr (kmemory k) A -> 0 <= va < 2 ^ 32 ->
  tabs A !! (va / PGSIZE / 1024) = None -> walkpgdir (dir A) va true k = Ok 0 k.
Proof.
  intros HK HR Hva Ht. unfold walkpgdir. destruct (walk_pde A va k HR Hva) as [-> Hl].
  erewrite bind_run by reflexivity. rewrite Hl, Ht. change (negb (Z.land 0 PTE_P =? 0)) with false. cbn [negb].
  erewrite bind_run by by apply (kalloc_nil kend). done.
Qed.

Definition add_table (i p : Z) A : aspace := mkas (dir A) (<[i := p]> (tabs A)) (pm A).

Lemma add_table_pages i p A : tabs A !! i = None -> table_pages (add_table i p A) ≡ₚ p :: table_pages A.
Proof.
  intros Hi. unfold table_pages, add_table. cbn. rewrite map_to_list_insert by done. cbn. constructor.
Qed.

(** A zeroed page becomes the table of slot [i]. *)
Lemma add_table_repr m A i p :
  repr m A -> page p -> p ∉ table_pages A -> tabs A !! i = None -> 0 <= i < 1024 ->
  (forall j, 0 <= j < 1024 -> load_word m (p + 4 * j) = 0) ->
  repr (store_word m (dir A + 4 * i) (V2P p + 7)) (add_table i p A).
Proof.
  intros HR Hp Hn Hi Hr Hz. pose proof HR as [H1 H2 H3 H4 H5 H6].
  destruct (page_range kend (dir A) (H1 _ (dir_in A))).
  destruct (table_entry p Hp) as (_ & Hu & _). split.
  - intros q. rewrite add_table_pages by done. intros [->|Hq]%elem_of_cons; auto.
  - rewrite add_table_pages by done. by apply NoDup_cons.
  - intros i' Hi'. cbn. destruct (decide (i' = i)) as [->|Hne].
    + rewrite lookup_insert_eq. apply load_store_eq; unfold PGSIZE in *; [lia..|done].
    + rewrite lookup_insert_ne by done. rewrite <- H3 by done.
      apply load_store_ne; unfold PGSIZE in *; lia.
  - intros i' t j Ht Hj. cbn [tabs add_table] in Ht. cbn [pm add_table].
    assert (Hpg : page t /\ t <> dir A).
    { apply lookup_insert_Some in Ht as [[<- <-]|[_ Ht]].
      - split; [done|]. intros ->. apply Hn, dir_in.
      - split; [by eapply H1, table_in|by eapply dir_not_table]. }
    destruct Hpg as [Hpt Hd]. destruct (page_range kend t Hpt).
    rewrite (load_word_same m); [|unfold PGSIZE in *; lia..|].
    + apply lookup_insert_Some in Ht as [[<- <-]|[_ Ht]]; [|by apply H4].
      rewrite Hz by done. destruct (pm A !! (i * 1024 + j)) as [e|] eqn:E; [|done].
      apply H6 in E as [[t Ht] _]. replace ((i * 1024 + j) / 1024) with i in Ht; [congruence|].
      Z.div_mod_to_equations. lia.
    + intros x Hx. apply store_word_out4; unfold PGSIZE in *; [lia..|]. unfold in_word in *. intros Hx'.
      apply (pages_apart kend t (dir A) x); auto; unfold PGSIZE in *; [apply H1, dir_in|lia|lia].
  - intros i' t Ht. cbn [tabs add_table] in Ht. apply lookup_insert_Some in Ht as [[<- _]|[_ Ht]]; [done|by eapply H5].
  - intros n e He. cbn [pm add_table] in He. destruct (H6 _ _ He) as ([t Ht] & ? & ?). split; [|done].
    cbn [tabs add_table]. destruct (decide (i = n / 1024)) as [<-|]; [rewrite lookup_insert_eq|rewrite lookup_insert_ne by done]; eauto.
Qed.

Lemma walk_alloc A va k p l R : own k (p :: l) A R -> 0 <= va < 2 ^ 32 ->
  tabs A !! (va / PGSIZE / 1024) = None ->
  exists k', walkpgdir (dir A) va true k = Ok (slot p (va / PGSIZE)) k' /\
    own k' l (add_table (va / PGSIZE / 1024) p A) R /\ same_on R (kmemory k) (kmemory k').
Proof.
  intros [HK HR HN HP] Hva Ht. pose proof (vpn_range va Hva) as Hi. set (i := va / PGSIZE / 1024) in *.
  destruct (kalloc_cons kend k p l HK) as (k1 & E1 & HK1 & Hm1).
  assert (Hp : page p) by (apply HK; by left).
  rewrite <- app_comm_cons in HN. pose proof HN as [Hpn HN0]%NoDup_cons. rewrite !not_elem_of_app in Hpn.
  destruct Hpn as (Hpl & Hpt & HpR). destruct (page_range kend p Hp) as [Hp0 Hp1].
  set (m1 := memset (kmemory k1) p 0 PGSIZE). set (m2 := store_word m1 (dir A + 4 * i) (V2P p + 7)).
  assert (Hd : page (dir A)) by apply HR, dir_in. destruct (page_range kend _ Hd).
  assert (Hout1 : forall x, ~ (p <= x < p + PGSIZE) -> m1 x = kmemory k x).
  { intros x Hx. unfold m1. rewrite memset_spec, decide_False, Hm1 by (done || unfold CString.block, PGSIZE in *; lia). done. }
  assert (Hout2 : forall x, ~ (dir A <= x < dir A + PGSIZE) -> m2 x = m1 x).
  { intros x Hx. apply store_word_out4; unfold in_word, PGSIZE in *; lia. }
  assert (Hsame : forall Q, (forall q, q ∈ Q -> page q) -> p ∉ Q -> dir A ∉ Q -> same_on Q (kmemory k) m2).
  { intros Q HQ HQp HQd. apply (same_on_trans Q _ m1).
    - by apply (same_on_page kend Q _ _ p).
    - by apply (same_on_page kend Q _ _ (dir A)). }
  exists (k1 <| kmemory := m2 |>). split; [|split].
  - unfold walkpgdir. destruct (walk_pde A va k HR Hva) as [-> Hl]. fold i in Hl |- *.
    erewrite bind_run by reflexivity. rewrite Hl, Ht. change (negb (Z.land 0 PTE_P =? 0)) with false. cbn [negb].
    erewrite bind_run by exact E1. rewrite (proj2 (Z.eqb_neq p 0)) by lia.
    destruct (table_entry p Hp) as (-> & _). do 2 erewrite bind_run by reflexivity.
    destruct (slot_range p (va / PGSIZE) Hp). unfold slot in *.
    rewrite PTX_eq, u32_small by (unfold is_u32, PGSIZE in *; lia). reflexivity.
  - pose proof HN0 as (HNl & Hlt & _)%NoDup_app. split.
    + apply kmem_frame; [done|]. rewrite Hm1. apply Hsame; [by apply HK1|done|].
      intros Hin. apply (Hlt _ Hin), elem_of_app. left. apply dir_in.
    + apply add_table_repr; try done.
      * apply (repr_frame _ (kmemory k)); [done|]. eapply same_on_page; [exact Hp|apply HR|done|done].
      * intros j Hj. apply load_zeroed; unfold CString.block, PGSIZE in *; lia.
    + by rewrite add_table_pages, <- app_comm_cons, <- Permutation_middle by done.
    + done.
  - cbn. apply Hsame; [done|done|]. intros Hin. apply NoDup_app in HN0 as (_ & _ & HN0).
    apply NoDup_app in HN0 as (_ & HN0 & _). apply (HN0 (dir A)); [apply dir_in|done].
Qed.

Record extends A l A' l' : Prop := mkextends {
  e_dir : dir A' = dir A;
  e_tabs : tabs A ⊆ tabs A';
  e_pages : table_pages A' ++ l' ≡ₚ table_pages A ++ l }.

Lemma extends_refl A l : extends A l A l.
Proof. by split. Qed.

Lemma extends_trans A l A1 l1 A2 l2 : extends A l A1 l1 -> extends A1 l1 A2 l2 -> extends A l A2 l2.
Proof.
  intros [H1 H2 H3] [H4 H5 H6]. split; [congruence|by etrans|by rewrite H6, H3].
Qed.

Lemma walk_any A va k l R : own k l A R -> 0 <= va < 2 ^ 32 ->
  walkpgdir (dir A) va true k = Ok 0 k /\ l = [] \/
  exists k' l' A' t, walkpgdir (dir A) va true k = Ok (slot t (va / PGSIZE)) k' /\
    own k' l' A' R /\ same_on R (kmemory k) (kmemory k') /\ extends A l A' l' /\ pm A' = pm A /\
    tabs A' !! (va / PGSIZE / 1024) = Some t.
Proof.
  intros HO Hva. destruct (tabs A !! (va / PGSIZE / 1024)) as [t|] eqn:Ht.
  - right. exists k, l, A, t. split; [apply walk_present; [apply HO|done..]|].
    split; [done|]. split; [done|]. split; [apply extends_refl|done].
  - destruct l as [|p l]; [left; split; [|done]; apply walk_empty; [apply HO..|done|done]|right].
    destruct (walk_alloc A va k p l R HO Hva Ht) as (k' & E & HO' & Hs).
    exists k', l, (add_table (va / PGSIZE / 1024) p A), p. split; [done|]. split; [done|]. split; [done|].
    split; [|split; [done|apply lookup_insert_eq]]. split; [done|by apply insert_subseteq|].
    by rewrite add_table_pages, <- Permutation_middle by done.
Qed.

Definition set_pm (n w : Z) A : aspace :=
  mkas (dir A) (tabs A) (if w =? 0 then delete n (pm A) else <[n := w]> (pm A)).

Lemma set_pm_lookup n w A n' :
  default 0 (pm (set_pm n w A) !! n') = if decide (n' = n) then w else default 0 (pm A !! n').
Proof.
  cbn. destruct (Z.eqb_spec w 0) as [->|Hw].
  - destruct (decide (n' = n)) as [->|]; [by rewrite lookup_delete_eq|by rewrite lookup_delete_ne].
  - destruct (decide (n' = n)) as [->|]; [by rewrite lookup_insert_eq|by rewrite lookup_insert_ne].
Qed.

Lemma vpn_split n : n = n / 1024 * 1024 + n mod 1024.
Proof. pose proof (Z.div_mod n 1024). lia. Qed.

(** Writing an entry. *)
Lemma put_pte k l A R n t w :
  own k l A R -> tabs A !! (n / 1024) = Some t -> w = 0 \/ is_u32 w /\ w mod 2 = 1 ->
  let k' := k <| kmemory := store_word (kmemory k) (slot t n) w |> in
  own k' l (set_pm n w A) R /\ same_on R (kmemory k) (kmemory k').
Proof.
  intros [HK HR HN HP] Ht Hw k'. pose proof HR as [H1 H2 H3 H4 H5 H6].
  pose proof (table_in _ _ _ Ht) as Hin. pose proof (H1 _ Hin) as Hpt.
  destruct (slot_range t n Hpt) as (Hs0 & Hs1 & Hs2 & Hs3).
  assert (Hout : forall x, ~ (t <= x < t + PGSIZE) -> kmemory k' x = kmemory k x).
  { intros x Hx. apply store_word_out4; unfold in_word, PGSIZE in *; lia. }
  assert (Hu : is_u32 w) by (destruct Hw as [->|[? _]]; [unfold is_u32; lia|done]).
  pose proof HN as (_ & Hlt & (_ & HtR & _)%NoDup_app)%NoDup_app.
  split.
  - split; [apply kmem_frame; [done|]| |done|done].
    + eapply same_on_page; [exact Hpt|apply HK| |done]. intros Hl.
      apply (Hlt _ Hl), elem_of_app. by left.
    + assert (Hcell : forall i t' j, tabs A !! i = Some t' -> 0 <= j < 1024 ->
        load_word (kmemory k') (t' + 4 * j) = if decide (i * 1024 + j = n) then w else load_word (kmemory k) (t' + 4 * j)).
      { intros i t' j Ht' Hj. pose proof (page_range kend t' (H1 _ (table_in _ _ _ Ht'))). case_decide as E.
        - subst n. assert (Hdm : (i * 1024 + j) / 1024 = i /\ (i * 1024 + j) mod 1024 = j).
          { split; Z.div_mod_to_equations; lia. }
          destruct Hdm as [Hd Hm]. rewrite Hd in Ht. assert (t' = t) as -> by congruence.
          unfold slot in *. rewrite Hm in *. cbn. unfold slot. rewrite Hm.
          apply load_store_eq; unfold PGSIZE in *; [lia..|done].
        - destruct (decide (t' = t)) as [->|Hne].
          + assert (i = n / 1024) as -> by by eapply tabs_inj.
            apply load_store_ne; unfold slot, PGSIZE in *; try lia.
            assert (j <> n mod 1024) by (intros ->; apply E; by rewrite <- vpn_split). lia.
          + apply load_word_same; unfold PGSIZE in *; [lia..|]. intros x Hx. apply Hout. unfold in_word, PGSIZE in *.
            apply (pages_apart kend t' t x); unfold PGSIZE; auto; [by eapply H1, table_in|lia]. }
      split; try done.
      * intros i Hi. rewrite <- H3 by done. destruct (page_range kend _ (H1 _ (dir_in A))).
        apply load_word_same; unfold PGSIZE in *; [lia..|]. intros x Hx. apply Hout. unfold in_word in *.
        apply (pages_apart kend (dir A) t x); unfold PGSIZE; auto; [apply H1, dir_in| |lia].
        intros <-. by eapply dir_not_table.
      * intros i t' j Ht' Hj. rewrite set_pm_lookup, (Hcell i t' j Ht' Hj).
        case_decide; [done|]. by apply H4.
      * intros n' e He. cbn in He. destruct (Z.eqb_spec w 0) as [->|Hw0].
        { apply lookup_delete_Some in He as [_ He]. by apply H6. }
        apply lookup_insert_Some in He as [[<- <-]|[_ He]]; [|by apply H6].
        destruct Hw as [|[? ?]]; [done|]. cbn. eauto.
  - eapply same_on_page; [exact Hpt|done| |done]. by apply HtR.
Qed.
End walk.

(** ** Mapping a range of pages *)

(** [n] pages from page number [v] mapped to [pa] onwards. *)
Fixpoint map_range (n : nat) (v pa perm : Z) (m : gmap Z Z) : gmap Z Z :=
  match n with
  | O => m
  | S n => map_range n (v + 1) (pa + PGSIZE) perm (<[v := entry pa perm]> m)
  end.

Lemma map_range_lookup n : forall v pa perm m x,
  map_range n v pa perm m !! x =
  if decide (v <= x < v + Z.of_nat n) then Some (entry (pa + (x - v) * PGSIZE) perm) else m !! x.
Proof.
  induction n as [|n IH]; intros v pa perm m x; cbn [map_range].
  - by rewrite decide_False by lia.
  - rewrite IH. repeat case_decide; try lia.
    + do 2 f_equal. unfold PGSIZE. lia.
    + assert (x = v) as -> by lia. rewrite lookup_insert_eq. do 2 f_equal. lia.
    + apply lookup_insert_ne. lia.
Qed.

Lemma map_range_snoc n v pa perm m :
  map_range (S n) v pa perm m = <[v + Z.of_nat n := entry (pa + Z.of_nat n * PGSIZE) perm]> (map_range n v pa perm m).
Proof.
  apply map_eq. intros x. rewrite map_range_lookup, lookup_insert, map_range_lookup.
  repeat case_decide; try lia; [|done..]. do 2 f_equal. lia.
Qed.

Section mapping.
Context (kend : Z).
Implicit Types (k : kmem) (m : memory) (l R : list Z) (A : aspace).
Abbreviation own := (own kend).
Abbreviation page := (page kend).

Lemma pte_word k A t n : repr kend (kmemory k) A -> tabs A !! (n / 1024) = Some t ->
  load_word (kmemory k) (slot t n) = default 0 (pm A !! n).
Proof.
  intros HR Ht. unfold slot. rewrite (r_tab _ _ _ HR _ _ _ Ht) by by apply Z.mod_pos_bound.
  by rewrite <- vpn_split.
Qed.

Lemma aligned_next a : a mod PGSIZE = 0 -> (a + PGSIZE) mod PGSIZE = 0 /\ (a + PGSIZE) / PGSIZE = a / PGSIZE + 1.
Proof.
  intros H. apply Z.mod_divide in H as [q ->]; [|done].
  replace (q * PGSIZE + PGSIZE) with ((q + 1) * PGSIZE) by lia. by rewrite Z.mod_mul, !Z.div_mul by done.
Qed.

(** One round: an entry for a page that is not mapped. *)
Lemma map_one A a k l R pa perm : own k l A R ->
  a mod PGSIZE = 0 -> 0 <= a < 2 ^ 32 -> pa mod PGSIZE = 0 -> 0 <= pa -> pa + PGSIZE <= 2 ^ 32 ->
  0 <= perm < PGSIZE -> pm A !! (a / PGSIZE) = None ->
  walkpgdir (dir A) a true k = Ok 0 k /\ l = [] \/
  exists k1 t k' l' A', walkpgdir (dir A) a true k = Ok (slot t (a / PGSIZE)) k1 /\
    slot t (a / PGSIZE) <> 0 /\ load_word (kmemory k1) (slot t (a / PGSIZE)) = 0 /\
    poke (slot t (a / PGSIZE)) (entry pa perm) k1 = Ok tt k' /\
    own k' l' A' R /\ same_on R (kmemory k) (kmemory k') /\ extends A l A' l' /\
    pm A' = <[a / PGSIZE := entry pa perm]> (pm A).
Proof.
  intros HO Ha Hva Hpa Hp0 Hp1 Hf Hnone.
  destruct (walk_any kend A a k l R HO Hva) as [?|(k1 & l' & A1 & t & E & HO1 & Hs & He & Hpm & Ht)]; [by left|right].
  destruct (entry_ok pa perm) as (Hu & Hodd & _); [done..|].
  destruct (put_pte kend k1 l' A1 R (a / PGSIZE) t (entry pa perm) HO1 Ht) as [HO2 Hs2]; [auto|].
  pose proof (slot_range kend t (a / PGSIZE) (r_pages _ _ _ (o_repr _ _ _ _ _ HO1) _ (table_in _ _ _ Ht))).
  eexists k1, t, _, l', (set_pm (a / PGSIZE) (entry pa perm) A1).
  split; [done|]. split; [lia|]. split; [|split; [reflexivity|]].
  { erewrite pte_word by (apply HO1 || done). by rewrite Hpm, Hnone. }
  split; [done|]. split; [by eapply same_on_trans|]. split; [by destruct He; split|].
  cbn. rewrite Hpm. destruct (Z.eqb_spec (entry pa perm) 0) as [E0|]; [|done]. by rewrite E0 in Hodd.
Qed.

Lemma map_loop_ok n : forall A a pa perm k l R, own k l A R ->
  a mod PGSIZE = 0 -> 0 <= a -> a + (Z.of_nat n + 1) * PGSIZE <= 2 ^ 32 ->
  pa mod PGSIZE = 0 -> 0 <= pa -> pa + (Z.of_nat n + 1) * PGSIZE <= 2 ^ 32 ->
  0 <= perm < PGSIZE ->
  (forall v, a / PGSIZE <= v <= a / PGSIZE + Z.of_nat n -> pm A !! v = None) ->
  exists r k' l' A' j, map_loop n (dir A) a pa perm k = Ok r k' /\ own k' l' A' R /\
    same_on R (kmemory k) (kmemory k') /\ extends A l A' l' /\
    pm A' = map_range j (a / PGSIZE) pa perm (pm A) /\
    (r = 0 /\ j = S n \/ r = -1 /\ l' = [] /\ (j <= n)%nat).
Proof.
  induction n as [|n IH]; intros A a pa perm k l R HO Ha H0 H1 Hpa Hp0 Hp1 Hf Hnone; cbn [map_loop].
  all: destruct (map_one A a k l R pa perm HO) as [[E ->]|(k1 & t & k2 & l' & A' & E & Hnz & El & Ep & HO' & Hs & He & Hpm)];
    [done|unfold PGSIZE in *; lia|done|lia|unfold PGSIZE in *; lia|done|apply Hnone; lia|..].
  1, 3: erewrite bind_run by exact E; exists (-1), k, [], A, O; cbn [map_range]; split_and!; [done..|apply extends_refl|done|right; split_and!; [done|done|lia]].
  all: erewrite bind_run by exact E; rewrite (proj2 (Z.eqb_neq _ _) Hnz);
    erewrite bind_run by reflexivity; rewrite El; change (negb (Z.land 0 PTE_P =? 0)) with false; cbn iota;
    erewrite bind_run by exact Ep.
  - exists 0, k2, l', A', 1%nat. cbn [map_range]. split_and!; [done..|by left].
  - destruct (aligned_next a Ha) as [Ha' Hd]. destruct (aligned_next pa Hpa) as [Hpa' _].
    rewrite !u32_small by (unfold is_u32, PGSIZE in *; lia).
    destruct (IH A' (a + PGSIZE) (pa + PGSIZE) perm k2 l' R HO') as (r & k' & l2 & A2 & j & Er & HO2 & Hs2 & He2 & Hpm2 & Hr);
      [done|unfold PGSIZE in *; lia|unfold PGSIZE in *; lia|done|unfold PGSIZE in *; lia|unfold PGSIZE in *; lia|done|..].
    { intros v Hv. rewrite Hd in Hv. rewrite Hpm, lookup_insert_ne by lia. apply Hnone. lia. }
    rewrite (e_dir _ _ _ _ He) in Er. exists r, k', l2, A2, (S j). split; [exact Er|]. split; [done|].
    split; [by eapply same_on_trans|]. split; [by eapply extends_trans|]. split.
    + by rewrite Hpm2, Hd, Hpm.
    + destruct Hr as [[-> ->]|(-> & -> & Hj)]; [by left|right]. split_and!; [done|done|lia].
Qed.

Lemma mappages_ok A va size pa perm k l R : own k l A R ->
  va mod PGSIZE = 0 -> 0 <= va -> size mod PGSIZE = 0 -> 0 < size -> va + size <= 2 ^ 32 ->
  pa mod PGSIZE = 0 -> 0 <= pa -> pa + size <= 2 ^ 32 -> 0 <= perm < PGSIZE ->
  (forall v, va / PGSIZE <= v < va / PGSIZE + size / PGSIZE -> pm A !! v = None) ->
  exists r k' l' A' j, mappages (dir A) va size pa perm k = Ok r k' /\ own k' l' A' R /\
    same_on R (kmemory k) (kmemory k') /\ extends A l A' l' /\
    pm A' = map_range j (va / PGSIZE) pa perm (pm A) /\
    (r = 0 /\ j = Z.to_nat (size / PGSIZE) \/ r = -1 /\ l' = [] /\ (j < Z.to_nat (size / PGSIZE))%nat).
Proof.
  intros HO Ha H0 Hsz Hs0 H1 Hpa Hp0 Hp1 Hf Hnone. unfold mappages. rewrite !PGROUNDDOWN_eq, Ha.
  rewrite (u32_small (va + size - 1)) by (unfold is_u32; lia).
  apply Z.mod_divide in Hsz as [q ->]; [|done]. rewrite Z.div_mul in * by done.
  assert (Hq : 0 < q) by (unfold PGSIZE in *; lia).
  assert ((va + q * PGSIZE - 1) mod PGSIZE = PGSIZE - 1) as ->.
  { apply Z.mod_divide in Ha as [v ->]; [|done].
    replace (v * PGSIZE + q * PGSIZE - 1) with (PGSIZE - 1 + (v + q - 1) * PGSIZE) by lia.
    by rewrite Z_mod_plus_full. }
  replace (va + q * PGSIZE - 1 - (PGSIZE - 1) - (va - 0)) with ((q - 1) * PGSIZE) by lia.
  rewrite u32_small by (unfold is_u32, PGSIZE in *; lia). rewrite Z.div_mul by done.
  replace (va - 0) with va by lia.
  destruct (map_loop_ok (Z.to_nat (q - 1)) A va pa perm k l R HO) as (r & k' & l' & A' & j & E & HO' & Hs & He & Hpm & Hr);
    try done; rewrite ?Z2Nat.id by lia; [unfold PGSIZE in *; lia..| |].
  { intros v Hv. apply Hnone. lia. }
  exists r, k', l', A', j. split_and!; [done..|].
  destruct Hr as [[-> ->]|(-> & -> & Hj)]; [left; split; [done|lia]|right; split_and!; [done|done|lia]].
Qed.
End mapping.

(** ** User pages *)

Abbreviation UPAGES := 524288 (only parsing). (* KERNBASE / PGSIZE *)

Definition upage (e : Z) : Z := P2V (PTE_ADDR e).
Definition user (A : aspace) : gmap Z Z := filter (fun ne => fst ne < UPAGES) (pm A).
Definition upages (A : aspace) : list Z := (fun ne => upage (snd ne)) <$> map_to_list (user A).

Section user.
Context (kend : Z) (Hkend : KERNBASE < kend).
Implicit Types (k : kmem) (m : memory) (l R U : list Z) (A : aspace).
Abbreviation own := (own kend).
Abbreviation page := (page kend).

Lemma own_perm k l A R R' : R ≡ₚ R' -> own k l A R -> own k l A R'.
Proof.
  intros HP [H1 H2 H3 H4]. split; [done|done|by rewrite <- HP|]. intros p. rewrite <- HP. auto.
Qed.

Lemma user_lookup A n e : user A !! n = Some e <-> pm A !! n = Some e /\ n < UPAGES.
Proof. unfold user. by rewrite map_lookup_filter_Some. Qed.

Lemma user_delete A n e : pm A !! n = Some e -> n < UPAGES ->
  upages A ≡ₚ upage e :: upages (set_pm n 0 A).
Proof.
  intros He Hn. unfold upages. cbn [set_pm user pm].
  assert (Hu : user (set_pm n 0 A) = delete n (user A)).
  { unfold user. cbn. by rewrite map_filter_delete. }
  rewrite Hu. assert (Hl : user A !! n = Some e) by by apply user_lookup.
  rewrite <- (map_to_list_delete (user A) n e Hl). done.
Qed.

Lemma user_insert A n e : pm A !! n = None -> n < UPAGES -> e <> 0 ->
  upages (set_pm n e A) ≡ₚ upage e :: upages A.
Proof.
  intros Hn Hlt He. unfold upages.
  assert (Hu : user (set_pm n e A) = <[n := e]> (user A)).
  { unfold user. cbn. rewrite (proj2 (Z.eqb_neq e 0)) by done. by apply map_filter_insert_True. }
  rewrite Hu, map_to_list_insert; [done|]. unfold user. apply map_lookup_filter_None. by left.
Qed.

Lemma upages_elem A q : q ∈ upages A <-> exists n e, pm A !! n = Some e /\ n < UPAGES /\ q = upage e.
Proof.
  unfold upages. rewrite list_elem_of_fmap. split.
  - intros ([n e] & -> & H%elem_of_map_to_list). apply user_lookup in H as [? ?]. eauto.
  - intros (n & e & H & Hn & ->). exists (n, e). split; [done|]. apply elem_of_map_to_list. by apply user_lookup.
Qed.

Lemma upages_sub A A' q : (forall n e, pm A' !! n = Some e -> pm A !! n = Some e) -> q ∈ upages A' -> q ∈ upages A.
Proof. intros H (n & e & He & Hn & ->)%upages_elem. apply upages_elem. exists n, e. auto. Qed.

Lemma user_same A A' : pm A' = pm A -> upages A' = upages A.
Proof. intros H. unfold upages, user. by rewrite H. Qed.

(** Freeing a page that is not in use by the tables. *)
Lemma free_ok k l A q R : own k l A (q :: R) ->
  exists k', kfree kend q k = Ok tt k' /\ own k' (q :: l) A R /\ same_on R (kmemory k) (kmemory k').
Proof.
  intros [HK HR HN HP]. assert (Hq : page q) by (apply HP; by left).
  rewrite (Permutation_app_comm (table_pages A)), <- app_comm_cons, <- Permutation_middle in HN.
  pose proof HN as [Hqn HN']%NoDup_cons. rewrite !not_elem_of_app in Hqn. destruct Hqn as (Hql & HqR & HqT).
  destruct (kfree_ok kend k l q HK Hq Hql) as (k' & E & HK' & _ & Hout & _).
  exists k'. split; [done|]. split; [split|].
  - done.
  - eapply repr_frame; [done|]. eapply same_on_page; [exact Hq|apply HR|done|done].
  - by rewrite (Permutation_app_comm (table_pages A)).
  - intros p Hp. apply HP. by right.
  - eapply same_on_page; [exact Hq| |done|done]. intros p Hp. apply HP. by right.
Qed.

Lemma upage_addr e : page (upage e) -> PTE_ADDR e <> 0.
Proof. unfold upage. intros (_ & Hk & _) H0. rewrite H0 in Hk. change (P2V 0) with KERNBASE in Hk. lia. Qed.

(** The number of whole or started pages below [n]. *)
Definition pages_upto (n : Z) : Z := (n + (PGSIZE - 1)) / PGSIZE.

Lemma below_pages v n : v * PGSIZE < n <-> v < pages_upto n.
Proof. unfold pages_upto, PGSIZE. Z.div_mod_to_equations. lia. Qed.

(** One round of deallocuvm at a page whose table exists. *)
Lemma dealloc_one k l A R v : own k l A (upages A ++ R) -> 0 <= v < UPAGES ->
  is_Some (tabs A !! (v / 1024)) ->
  exists t k' l' A', walkpgdir (dir A) (v * PGSIZE) false k = Ok (slot t v) k /\ slot t v <> 0 /\
    (e ← load (slot t v);
     if negb (Z.land e PTE_P =? 0) then
       let pa := PTE_ADDR e in
       if pa =? 0 then panic "kfree" else kfree kend (P2V pa);; poke (slot t v) 0
     else mret tt) k = Ok tt k' /\
    own k' l' A' (upages A' ++ R) /\ same_on (upages A' ++ R) (kmemory k) (kmemory k') /\
    dir A' = dir A /\ tabs A' = tabs A /\ pm A' = delete v (pm A) /\
    l' ++ upages A' ≡ₚ l ++ upages A.
Proof.
  intros HO Hv [t Ht]. pose proof (o_repr _ _ _ _ _ HO) as HR.
  assert (Hdv : v * PGSIZE / PGSIZE = v) by by apply Z.div_mul.
  assert (Hw : walkpgdir (dir A) (v * PGSIZE) false k = Ok (slot t v) k).
  { erewrite walk_present; [by rewrite Hdv|exact HR|unfold PGSIZE; lia|by rewrite Hdv]. }
  pose proof (slot_range kend t v (r_pages _ _ _ HR _ (table_in _ _ _ Ht))).
  exists t. destruct (pm A !! v) as [e|] eqn:Ee.
  - destruct (r_pm _ _ _ HR _ _ Ee) as (_ & Hu & Hodd).
    pose proof (user_delete A v e Ee ltac:(lia)) as HU.
    assert (HO1 : own k l A (upage e :: upages (set_pm v 0 A) ++ R)) by (eapply own_perm; [|done]; by rewrite HU).
    destruct (free_ok k l A _ _ HO1) as (k1 & E1 & HO2 & Hs1).
    destruct (put_pte kend k1 (upage e :: l) A _ v t 0 HO2 Ht) as [HO3 Hs3]; [by left|].
    eexists _, (upage e :: l), (set_pm v 0 A). split; [done|]. split; [lia|]. split; [|split_and!; try done].
    + erewrite bind_run by reflexivity. erewrite pte_word by done. rewrite Ee. change (default 0 (Some e)) with e.
      rewrite present_eq, Hodd. cbn [Z.eqb Pos.eqb negb]. cbn zeta.
      rewrite (proj2 (Z.eqb_neq (PTE_ADDR e) 0)) by (apply upage_addr, (o_pages _ _ _ _ _ HO1); by left).
      erewrite bind_run by exact E1. reflexivity.
    + by eapply same_on_trans.
    + by rewrite HU, <- app_comm_cons, Permutation_middle.
  - exists k, l, A. split; [done|]. split; [lia|]. split; [|split_and!; try done].
    + erewrite bind_run by reflexivity. erewrite pte_word by done. by rewrite Ee.
    + by rewrite delete_id.
Qed.

Lemma PGADDR_eq d : 0 <= d < 1024 -> PGADDR d 0 0 = d * 1024 * PGSIZE.
Proof.
  intros Hd. unfold PGADDR. rewrite Z.shiftl_mul_pow2, Z.shiftl_0_l, !Z.lor_0_r by lia.
  unfold PGSIZE. rewrite u32_small; [lia|]. unfold is_u32. lia.
Qed.

Lemma dealloc_loop_ok fuel : forall v oldsz k l A R, own k l A (upages A ++ R) ->
  0 <= v -> oldsz <= KERNBASE -> pages_upto oldsz - v <= Z.of_nat fuel ->
  exists k' l' A', dealloc_loop kend fuel (dir A) (v * PGSIZE) oldsz k = Ok tt k' /\
    own k' l' A' (upages A' ++ R) /\ same_on (upages A' ++ R) (kmemory k) (kmemory k') /\
    dir A' = dir A /\ tabs A' = tabs A /\
    (forall n, pm A' !! n = if decide (v <= n < pages_upto oldsz) then None else pm A !! n) /\
    l' ++ upages A' ≡ₚ l ++ upages A.
Proof.
  induction fuel as [|fuel IH]; intros v oldsz k l A R HO Hv Ho Hf; cbn [dealloc_loop].
  { exists k, l, A. split_and!; try done. intros n. rewrite decide_False; [done|lia]. }
  pose proof (below_pages v oldsz) as Hb. destruct (Z.leb_spec oldsz (v * PGSIZE)) as [Hle|Hlt].
  { exists k, l, A. split_and!; try done. intros n. rewrite decide_False; [done|lia]. }
  assert (Hv' : v < UPAGES) by (unfold KERNBASE, PGSIZE in *; lia).
  pose proof (o_repr _ _ _ _ _ HO) as HR.
  destruct (tabs A !! (v / 1024)) as [t|] eqn:Ht.
  - destruct (dealloc_one k l A R v HO) as (t' & k1 & l1 & A1 & Ew & Hnz & E1 & HO1 & Hs1 & Hd1 & Ht1 & Hp1 & Hl1);
      [lia|by rewrite Ht|].
    erewrite bind_run by exact Ew. rewrite (proj2 (Z.eqb_neq _ _) Hnz).
    apply bind_Ok in E1 as (e & k0 & El & E1). erewrite bind_run by exact El. erewrite bind_run by exact E1.
    rewrite u32_small by (unfold is_u32, PGSIZE, KERNBASE in *; lia).
    replace (v * PGSIZE + PGSIZE) with ((v + 1) * PGSIZE) by lia. rewrite <- Hd1.
    destruct (IH (v + 1) oldsz k1 l1 A1 R HO1) as (k' & l' & A' & E & HO' & Hs & Hd & Ht' & Hp & Hl); [lia..|].
    assert (Hsub : forall q, q ∈ upages A' ++ R -> q ∈ upages A1 ++ R).
    { intros q. rewrite !elem_of_app. intros [Hq|?]; [left|by right]. eapply upages_sub; [|done].
      intros n e'. rewrite Hp. by case_decide. }
    exists k', l', A'. split_and!; try done; [|congruence| |by rewrite Hl].
    { eapply same_on_trans; [by eapply same_on_sub|done]. }
    intros n. rewrite Hp, Hp1. repeat case_decide; try lia; try done.
    + assert (n = v) as -> by lia. apply lookup_delete_eq.
    + apply lookup_delete_ne. lia.
  - erewrite bind_run; [|apply (walk_absent kend); [done|unfold PGSIZE, KERNBASE in *; lia|by rewrite Z.div_mul]].
    cbn [Z.eqb]. assert (Hr : 0 <= v / 1024 < 512) by (split; Z.div_mod_to_equations; lia).
    rewrite PDX_eq by (unfold PGSIZE, KERNBASE in *; lia). rewrite Z.div_mul by done.
    rewrite PGADDR_eq by lia.
    assert (Ha : u32 (u32 ((v / 1024 + 1) * 1024 * PGSIZE - PGSIZE) + PGSIZE) = (v / 1024 + 1) * 1024 * PGSIZE).
    { rewrite u32_add_u32_l, u32_small; [lia|]. unfold is_u32, PGSIZE. lia. }
    rewrite Ha. assert (v < (v / 1024 + 1) * 1024) by (Z.div_mod_to_equations; lia).
    destruct (IH ((v / 1024 + 1) * 1024) oldsz k l A R HO) as (k' & l' & A' & E & HO' & Hs & Hd & Ht' & Hp & Hl); [lia..|].
    exists k', l', A'. split_and!; try done.
    intros n. rewrite Hp. repeat case_decide; try lia; try done.
    destruct (pm A !! n) as [e|] eqn:En; [|done]. apply (r_pm _ _ _ HR) in En as ([t En] & _).
    assert (n / 1024 = v / 1024) as Hnv by (Z.div_mod_to_equations; lia). congruence.
Qed.

Lemma pages_upto_mono a b : a <= b -> pages_upto a <= pages_upto b.
Proof. intros H. apply Z.div_le_mono; unfold PGSIZE; lia. Qed.

Lemma pages_upto_nonneg a : 0 <= a -> 0 <= pages_upto a.
Proof. intros H. apply Z.div_pos; unfold PGSIZE; lia. Qed.

Lemma PGROUNDUP_pages a : 0 <= a <= KERNBASE -> PGROUNDUP a = pages_upto a * PGSIZE.
Proof. intros H. apply PGROUNDUP_spec. unfold KERNBASE, PGSIZE in *. lia. Qed.

Lemma deallocuvm_ok oldsz newsz k l A R : own k l A (upages A ++ R) ->
  0 <= newsz -> 0 <= oldsz <= KERNBASE ->
  exists k' l' A', deallocuvm kend (dir A) oldsz newsz k = Ok (Z.min oldsz newsz) k' /\
    own k' l' A' (upages A' ++ R) /\ same_on (upages A' ++ R) (kmemory k) (kmemory k') /\
    dir A' = dir A /\ tabs A' = tabs A /\
    (forall n, pm A' !! n = if decide (pages_upto newsz <= n < pages_upto oldsz) then None else pm A !! n) /\
    l' ++ upages A' ≡ₚ l ++ upages A.
Proof.
  intros HO H0 H1. unfold deallocuvm. destruct (Z.leb_spec oldsz newsz) as [Hle|Hlt].
  - exists k, l, A. pose proof (pages_upto_mono _ _ Hle). rewrite Z.min_l by done. split_and!; try done.
    intros n. rewrite decide_False; [done|lia].
  - rewrite PGROUNDUP_pages by lia.
    destruct (dealloc_loop_ok (S (Z.to_nat (oldsz / PGSIZE))) (pages_upto newsz) oldsz k l A R HO)
      as (k' & l' & A' & E & H); [by apply pages_upto_nonneg|lia| |].
    + pose proof (pages_upto_nonneg newsz H0). rewrite Nat2Z.inj_succ, Z2Nat.id by (apply Z.div_pos; unfold PGSIZE; lia).
      assert (pages_upto oldsz <= oldsz / PGSIZE + 1); [|lia]. unfold pages_upto, PGSIZE. Z.div_mod_to_equations. lia.
    + exists k', l', A'. erewrite bind_run by exact E. by rewrite Z.min_r by lia.
Qed.

(** The second-level tables in the order of the directory. *)
Definition tables A (js : list Z) : list Z := omap (fun i => tabs A !! i) js.

Lemma tables_perm m A : repr kend m A -> tables A (zrange 0 1023) ≡ₚ (map_to_list (tabs A)).*2.
Proof.
  intros HR. apply NoDup_Permutation.
  - unfold tables, zrange. assert (HN : NoDup (seqZ 0 (1023 - 0 + 1))) by apply NoDup_seqZ.
    induction HN as [|i l Hi HN IH]; [constructor|]. cbn. destruct (tabs A !! i) as [t|] eqn:Et; [|done].
    apply NoDup_cons. split; [|done]. intros (i' & Hi' & Et')%list_elem_of_omap.
    assert (i' = i) as -> by by eapply tabs_inj. done.
  - pose proof (r_nodup _ _ _ HR) as HN. unfold table_pages in HN. by apply NoDup_cons in HN as [_ HN].
  - intros t. unfold tables. rewrite list_elem_of_omap, list_elem_of_fmap. split.
    + intros (i & _ & Hi). exists (i, t). split; [done|]. by apply elem_of_map_to_list.
    + intros ([i t'] & -> & Hi%elem_of_map_to_list). exists i. split; [|done].
      apply elem_of_zrange. pose proof (r_idx _ _ _ HR _ _ Hi). lia.
Qed.

(** A page table has at most the directory and 1024 tables. *)
Lemma tables_few m A : repr kend m A -> (length (table_pages A) <= 1025)%nat.
Proof.
  intros HR. unfold table_pages. cbn [length]. rewrite <- (tables_perm m A HR).
  assert (H : (length (tables A (zrange 0 1023)) <= length (zrange 0 1023))%nat).
  { unfold tables. generalize (zrange 0 1023). intros js. induction js as [|i js IH]; cbn; [lia|].
    destruct (tabs A !! i); cbn; lia. }
  unfold zrange in *. rewrite length_seqZ in H. lia.
Qed.

Lemma free_tables A js : forall k l R,
  kmem_ok kend k l -> NoDup (l ++ tables A js ++ dir A :: R) ->
  (forall p, p ∈ tables A js ++ dir A :: R -> page p) ->
  (forall i, i ∈ js -> 0 <= i < 1024) ->
  (forall i, i ∈ js -> load_word (kmemory k) (dir A + 4 * i) =
     match tabs A !! i with Some t => V2P t + 7 | None => 0 end) ->
  exists k' l', forM js (free_table kend (dir A)) k = Ok tt k' /\ kmem_ok kend k' l' /\
    l' ≡ₚ tables A js ++ l /\ same_on (dir A :: R) (kmemory k) (kmemory k').
Proof.
  induction js as [|i js IH]; intros k l R HK HN HP Hi Hl; [by exists k, l|].
  assert (Hd : page (dir A)) by (apply HP, elem_of_app; right; by left).
  destruct (page_range kend _ Hd). assert (Hir : 0 <= i < 1024) by (apply Hi; by left).
  assert (Hhead : forall k1 o, free_table kend (dir A) i k = Ok o k1 ->
    forM (i :: js) (free_table kend (dir A)) k = forM js (free_table kend (dir A)) k1).
  { intros k1 o E. cbn [forM]. by erewrite bind_run by exact E. }
  assert (Hld : load (u32 (dir A + 4 * i)) k =
    Ok (match tabs A !! i with Some t => V2P t + 7 | None => 0 end) k).
  { rewrite u32_small by (unfold is_u32, PGSIZE in *; lia). unfold load, gets. rewrite Hl by by left. done. }
  unfold tables in *. cbn [omap list_omap] in HN, HP |- *.
  destruct (tabs A !! i) as [t|] eqn:Et.
  - assert (Ht : page t) by (apply HP; by left).
    rewrite <- app_comm_cons, <- Permutation_middle in HN. apply NoDup_cons in HN as [Htn HN].
    rewrite !not_elem_of_app in Htn. destruct Htn as (Htl & Htt & HtR).
    destruct (kfree_ok kend k l t HK Ht Htl) as (k1 & E1 & HK1 & _ & Hout & _).
    destruct (table_entry kend t Ht) as (_ & _ & Hp & Ha).
    rewrite (Hhead k1 tt).
    2: { unfold free_table. erewrite bind_run by exact Hld. rewrite present_eq, Hp. cbn [Z.eqb Pos.eqb negb]. by rewrite Ha. }
    assert (Hs1 : same_on (dir A :: R) (kmemory k) (kmemory k1)).
    { eapply same_on_page; [exact Ht| |done|done]. intros p Hp'. apply HP. right. apply elem_of_app. by right. }
    destruct (IH k1 (t :: l) R HK1) as (k' & l' & E & HK' & Hl' & Hs').
    + rewrite <- app_comm_cons. apply NoDup_cons. split; [|done]. rewrite !not_elem_of_app. tauto.
    + intros p Hp'. apply HP. by right.
    + intros j Hj. apply Hi. by right.
    + intros j Hj. rewrite <- Hl by by right. assert (0 <= j < 1024) by (apply Hi; by right).
      apply load_word_same; unfold PGSIZE in *; [lia..|]. intros x Hx. apply (Hs1 (dir A)); [by left|].
      unfold in_word, PGSIZE in *. lia.
    + exists k', l'. split_and!; [done..| |by eapply same_on_trans].
      by rewrite Hl', <- app_comm_cons, <- Permutation_middle.
  - rewrite (Hhead k tt) by (unfold free_table; by erewrite bind_run by exact Hld).
    apply IH; try done; intros j Hj; [apply Hi|apply Hl]; by right.
Qed.

Lemma user_none A : (forall n e, pm A !! n = Some e -> ~ n < UPAGES) -> upages A = [].
Proof.
  intros H. unfold upages. assert (user A = ∅) as ->; [|done]. apply map_empty. intros n.
  apply map_lookup_filter_None. right. intros e He Hn. by apply (H n e).
Qed.

Lemma pm_nonneg m A n e : repr kend m A -> pm A !! n = Some e -> 0 <= n < 1048576.
Proof.
  intros HR He. destruct (r_pm _ _ _ HR _ _ He) as ([t Ht] & _). apply (r_idx _ _ _ HR) in Ht.
  Z.div_mod_to_equations. lia.
Qed.

(** freevm gives back every page of the address space. *)
Lemma freevm_ok k l A R : own k l A (upages A ++ R) ->
  exists k' l', freevm kend (dir A) k = Ok tt k' /\ kmem_ok kend k' l' /\
    l' ≡ₚ upages A ++ table_pages A ++ l /\ same_on R (kmemory k) (kmemory k').
Proof.
  intros HO. pose proof (r_pages _ _ _ (o_repr _ _ _ _ _ HO) _ (dir_in A)) as Hd.
  destruct (page_range kend _ Hd) as [Hd0 _]. unfold freevm. rewrite (proj2 (Z.eqb_neq (dir A) 0)) by lia.
  destruct (deallocuvm_ok KERNBASE 0 k l A R HO) as (k1 & l1 & A1 & E1 & HO1 & Hs1 & Hd1 & Ht1 & Hp1 & Hl1);
    [done|done|]. erewrite bind_run by exact E1.
  pose proof (o_repr _ _ _ _ _ HO1) as HR1.
  assert (Hno : upages A1 = []).
  { apply user_none. intros n e He Hn. pose proof (pm_nonneg _ _ _ _ HR1 He). rewrite Hp1 in He.
    rewrite decide_True in He; [done|]. change (pages_upto 0) with 0. change (pages_upto KERNBASE) with UPAGES. lia. }
  rewrite Hno, app_nil_r in Hl1. rewrite Hno in HO1, Hs1. cbn in HO1, Hs1.
  assert (Ht : tables A1 (zrange 0 1023) ≡ₚ (map_to_list (tabs A)).*2).
  { rewrite <- Ht1. by apply (tables_perm (kmemory k1)). }
  assert (Hpt : tables A1 (zrange 0 1023) ++ dir A1 :: R ≡ₚ table_pages A1 ++ R).
  { rewrite Ht, <- Ht1. unfold table_pages. by rewrite <- Permutation_middle. }
  destruct (free_tables A1 (zrange 0 1023) k1 l1 R) as (k2 & l2 & E2 & HK2 & Hl2 & Hs2).
  - apply HO1.
  - rewrite Hpt. apply HO1.
  - intros p. rewrite Hpt, elem_of_app. intros [Hp|Hp]; [by apply HR1|by apply (o_pages _ _ _ _ _ HO1)].
  - intros i Hi%elem_of_zrange. lia.
  - intros i Hi%elem_of_zrange. apply (r_dir _ _ _ HR1). lia.
  - rewrite <- Hd1. erewrite bind_run by exact E2.
    assert (HN : NoDup (dir A1 :: l2 ++ R)).
    { rewrite Hl2. rewrite Permutation_middle, <- app_assoc. 
      rewrite (Permutation_app_comm (tables A1 _)), <- app_assoc.
      rewrite (Permutation_app_comm (dir A1 :: R)), Hpt. apply HO1. }
    apply NoDup_cons in HN as [Hdn HN]. rewrite not_elem_of_app in Hdn.
    destruct (kfree_ok kend k2 l2 (dir A1) HK2) as (k3 & E3 & HK3 & _ & Hout & _); [by rewrite Hd1|tauto|].
    exists k3, (dir A1 :: l2). split_and!; [done|done| |].
    + rewrite Hl2, Ht. unfold table_pages. rewrite Hd1, Hl1.
      by rewrite (Permutation_app_comm (upages A)), app_comm_cons, <- app_assoc.
    + eapply same_on_trans; [exact Hs1|]. eapply same_on_trans.
      { eapply same_on_sub; [exact Hs2|]. intros p Hp. by right. }
      apply (same_on_page kend R _ _ (dir A1)); [by rewrite Hd1|apply HO1|tauto|done].
Qed.
End user.

(** ** The kernel's part of every page table *)

Section kernel.
Context (kend kdata : Z).
Context (Hkend : KERNBASE < kend)
  (Hdata : kdata mod PGSIZE = 0) (Hdr : KERNLINK < kdata < KERNBASE + PHYSTOP).
Implicit Types (k : kmem) (l R : list Z) (A : aspace) (ks : list kmapping).
Abbreviation own := (own kend).

Definition ksize (k : kmapping) : Z := u32 (phys_end k - phys_start k).
Definition map_one_k (k : kmapping) (m : gmap Z Z) : gmap Z Z :=
  map_range (Z.to_nat (ksize k / PGSIZE)) (virt k / PGSIZE) (phys_start k) (perm k) m.
Definition kmapped ks (m : gmap Z Z) : gmap Z Z := fold_left (fun m (k : kmapping) => map_one_k k m) ks m.

(** The mappings of every page table. *)
Definition kernel_map : gmap Z Z := kmapped (kmap kdata) ∅.

Fixpoint kfits ks (m : gmap Z Z) : Prop :=
  match ks with
  | [] => True
  | k :: ks =>
      virt k mod PGSIZE = 0 /\ KERNBASE <= virt k /\ ksize k mod PGSIZE = 0 /\ 0 < ksize k /\
      virt k + ksize k <= 2 ^ 32 /\ phys_start k mod PGSIZE = 0 /\ 0 <= phys_start k /\
      phys_start k + ksize k <= 2 ^ 32 /\ 0 <= perm k < PGSIZE /\
      (forall v, virt k / PGSIZE <= v < virt k / PGSIZE + ksize k / PGSIZE -> m !! v = None) /\
      kfits ks (map_one_k k m)
  end.

Definition no_user (m : gmap Z Z) : Prop := forall n e, m !! n = Some e -> UPAGES <= n.

Lemma no_user_upages A : no_user (pm A) -> upages A = [].
Proof. intros H. apply user_none. intros n e He Hn. apply H in He. lia. Qed.

Lemma no_user_range n v pa perm m : UPAGES <= v -> no_user m -> no_user (map_range n v pa perm m).
Proof. intros Hv H x e. rewrite map_range_lookup. case_decide; [lia|]. apply H. Qed.

Lemma kvirt v : KERNBASE <= v -> UPAGES <= v / PGSIZE.
Proof. intros H. apply Z.div_le_lower_bound; unfold KERNBASE, PGSIZE in *; lia. Qed.

Lemma kmap_loop_ok ks : forall k l A R, own k l A R -> no_user (pm A) -> kfits ks (pm A) ->
  exists r k' l', kmap_loop kend (dir A) ks k = Ok r k' /\ same_on R (kmemory k) (kmemory k') /\
    ((exists A', r = dir A /\ own k' l' A' R /\ extends A l A' l' /\ pm A' = kmapped ks (pm A)) \/
     (r = 0 /\ kmem_ok kend k' l' /\ l' ≡ₚ table_pages A ++ l /\ (length l' <= 1025)%nat)).
Proof.
  induction ks as [|km ks IH]; intros k l A R HO Hnu Hfit; cbn [kmap_loop].
  { exists (dir A), k, l. split_and!; [done..|]. left. exists A. split_and!; [done..|apply extends_refl|done]. }
  destruct Hfit as (H1 & H2 & H3 & H4 & H5 & H6 & H7 & H8 & H9 & H10 & Hfit).
  destruct (mappages_ok kend A (virt km) (ksize km) (phys_start km) (perm km) k l R HO)
    as (r & k1 & l1 & A1 & j & E & HO1 & Hs1 & He1 & Hpm & Hr); try done.
  { unfold KERNBASE in *. lia. }
  fold (ksize km). erewrite bind_run by exact E. destruct Hr as [[-> ->]|(-> & -> & Hj)].
  - cbn [Z.ltb Z.compare]. rewrite <- (e_dir _ _ _ _ He1).
    destruct (IH k1 l1 A1 R HO1) as (r & k' & l' & E' & Hs' & Hr).
    + rewrite Hpm. apply no_user_range; [by apply kvirt|done].
    + by rewrite Hpm.
    + exists r, k', l'. split_and!; [done|by eapply same_on_trans|].
      destruct Hr as [(A' & -> & HO' & He' & Hpm')|(-> & HK & Hl & Hfew)]; [left|right].
      * exists A'. split_and!; [done|done|by eapply extends_trans|]. by rewrite Hpm', Hpm.
      * split_and!; [done|done| |done]. by rewrite Hl, (e_pages _ _ _ _ He1).
  - change (-1 <? 0) with true. cbn iota. rewrite <- (e_dir _ _ _ _ He1).
    assert (Hup : upages A1 = []).
    { apply no_user_upages. rewrite Hpm. apply no_user_range; [by apply kvirt|done]. }
    destruct (freevm_ok kend Hkend k1 [] A1 R) as (k' & l' & E' & HK' & Hl' & Hs'); [by rewrite Hup|].
    erewrite bind_run by exact E'. exists 0, k', l'. split_and!; [done|by eapply same_on_trans|].
    right. rewrite Hup, app_nil_r in Hl'. cbn [app] in Hl'. split_and!; [done|done| |].
    + rewrite Hl', <- (e_pages _ _ _ _ He1). by rewrite app_nil_r.
    + rewrite Hl'. by eapply tables_few, HO1.
Qed.

Lemma kdata_V2P : V2P kdata = kdata - KERNBASE.
Proof. unfold V2P. apply u32_small. unfold is_u32, KERNLINK, KERNBASE, EXTMEM, PHYSTOP in *. lia. Qed.

Lemma aligned_sub a b : a mod PGSIZE = 0 -> b mod PGSIZE = 0 -> (a - b) mod PGSIZE = 0.
Proof. intros Ha Hb. by rewrite Zminus_mod, Ha, Hb. Qed.

Lemma kernel_fits : kfits (kmap kdata) ∅.
Proof.
  pose proof kdata_V2P as HV.
  assert (HS : ksize (mkkmap KERNLINK (V2P KERNLINK) (V2P kdata) 0) = kdata - KERNLINK /\
               ksize (mkkmap kdata (V2P kdata) PHYSTOP PTE_W) = KERNBASE + PHYSTOP - kdata).
  { unfold ksize. cbn [phys_end phys_start]. rewrite HV. change (V2P KERNLINK) with EXTMEM.
    rewrite !u32_small by (unfold is_u32, KERNLINK, KERNBASE, EXTMEM, PHYSTOP in *; lia).
    unfold KERNLINK, KERNBASE, EXTMEM, PHYSTOP. lia. }
  destruct HS as [HS1 HS2]. unfold kmap. cbn [kfits virt phys_start phys_end perm].
  unfold map_one_k. rewrite HS1, HS2. cbn [virt phys_start perm]. rewrite HV.
  change (V2P KERNLINK) with EXTMEM. change (ksize (mkkmap KERNBASE 0 EXTMEM PTE_W)) with EXTMEM.
  change (ksize (mkkmap DEVSPACE DEVSPACE 0 PTE_W)) with 33554432.
  assert (Hq : exists q, kdata = q * PGSIZE) by (by apply Z.mod_divide). destruct Hq as [q Hq].
  assert (Hdd : kdata / PGSIZE = q) by (rewrite Hq; by apply Z.div_mul).
  assert (Hd1 : (kdata - KERNLINK) / PGSIZE = q - 524544).
  { rewrite Hq. unfold KERNLINK, KERNBASE, EXTMEM, PGSIZE. Z.div_mod_to_equations. lia. }
  assert (Hd2 : (KERNBASE + PHYSTOP - kdata) / PGSIZE = 581632 - q).
  { rewrite Hq. unfold KERNBASE, PHYSTOP, PGSIZE. Z.div_mod_to_equations. lia. }
  rewrite Hdd, Hd1, Hd2. unfold KERNLINK, KERNBASE, EXTMEM, PHYSTOP, DEVSPACE, PTE_W, PGSIZE in *.
  change (2147483648 / 4096) with 524288. change (1048576 / 4096) with 256.
  change ((2147483648 + 1048576) / 4096) with 524544. change (4261412864 / 4096) with 1040384.
  change (33554432 / 4096) with 8192.
  assert (Hm : (q * 4096 - 2147483648) mod 4096 = 0 /\ (q * 4096 - (2147483648 + 1048576)) mod 4096 = 0 /\
               (2147483648 + 234881024 - q * 4096) mod 4096 = 0).
  { split_and!; Z.div_mod_to_equations; lia. }
  rewrite Hq in *. destruct Hm as (Hm1 & Hm2 & Hm3). rewrite Hm1, Hm2, Hm3.
  repeat match goal with
  | |- _ /\ _ => split
  | |- forall v, _ => intros v Hv; repeat (rewrite map_range_lookup, decide_False by (rewrite ?Z2Nat.id by lia; lia)); done
  | |- True => done
  | |- _ => first [reflexivity | lia]
  end.
Qed.

Lemma kernel_no_user : no_user kernel_map.
Proof.
  unfold kernel_map, kmapped, kmap. cbn [fold_left]. unfold map_one_k. cbn [virt].
  repeat apply no_user_range; try (apply kvirt; unfold KERNLINK, KERNBASE, EXTMEM, DEVSPACE in *; lia).
  intros n e He. by rewrite lookup_empty in He.
Qed.

(** The addresses of the devices, up to the end of memory, are mapped for the kernel only. *)
Lemma kernel_device n : DEVSPACE / PGSIZE <= n < 2 ^ 20 ->
  exists e, kernel_map !! n = Some e /\ (Z.land e PTE_U =? 0) = true.
Proof using.
  intros Hn. unfold kernel_map, kmapped, kmap. cbn [fold_left]. unfold map_one_k at 1.
  cbn [virt phys_start phys_end perm]. change (ksize (mkkmap DEVSPACE DEVSPACE 0 PTE_W)) with 33554432.
  change (33554432 / PGSIZE) with 8192. change (DEVSPACE / PGSIZE) with 1040384 in *.
  rewrite map_range_lookup, decide_True by (rewrite Z2Nat.id by lia; lia). eexists. split; [reflexivity|].
  apply Z.eqb_eq. unfold entry. change PTE_U with (2 ^ 2). apply Z.bits_inj'. intros i Hi.
  rewrite Z.land_spec, Z.pow2_bits_eqb, Z.bits_0 by lia. destruct (Z.eqb_spec 2 i) as [<-|]; [|by rewrite andb_false_r].
  rewrite andb_true_r, !Z.lor_spec. change (Z.testbit PTE_W 2) with false. change (Z.testbit PTE_P 2) with false.
  rewrite !orb_false_r. replace (DEVSPACE + (n - 1040384) * PGSIZE) with (n * 2 ^ 12) by (unfold DEVSPACE, PGSIZE; lia).
  by apply Z.mul_pow2_bits_low.
Qed.

(** A page of zeros is an empty directory. *)
Lemma empty_own k p l R : kmem_ok kend k l -> page kend p -> NoDup (p :: l ++ R) ->
  (forall q, q ∈ R -> page kend q) ->
  own (k <| kmemory := memset (kmemory k) p 0 PGSIZE |>) l (mkas p ∅ ∅) R /\
  same_on R (kmemory k) (memset (kmemory k) p 0 PGSIZE).
Proof.
  intros HK Hp HN HP. destruct (page_range kend p Hp). pose proof HN as [Hn _]%NoDup_cons.
  rewrite not_elem_of_app in Hn. destruct Hn as [Hnl HnR].
  assert (Hout : forall x, ~ (p <= x < p + PGSIZE) -> memset (kmemory k) p 0 PGSIZE x = kmemory k x).
  { intros x Hx. rewrite memset_spec, decide_False by (done || unfold CString.block, PGSIZE in *; lia). done. }
  split; [split|].
  - apply kmem_frame; [done|]. eapply same_on_page; [exact Hp|apply HK|done|done].
  - split; cbn [dir tabs pm].
    + intros q Hq. unfold table_pages in Hq. cbn [dir tabs] in Hq. rewrite map_to_list_empty in Hq.
      by apply list_elem_of_singleton in Hq as ->.
    + unfold table_pages. cbn [dir tabs]. rewrite map_to_list_empty. apply NoDup_singleton.
    + intros i Hi. rewrite lookup_empty. apply load_zeroed; unfold CString.block, PGSIZE in *; lia.
    + intros i t j Ht. by rewrite lookup_empty in Ht.
    + intros i t Ht. by rewrite lookup_empty in Ht.
    + intros n e He. by rewrite lookup_empty in He.
  - unfold table_pages. cbn [dir tabs]. rewrite map_to_list_empty. cbn. by rewrite <- Permutation_middle.
  - done.
  - eapply same_on_page; [exact Hp|done|done|done].
Qed.

Lemma setupkvm_ok k l R : kmem_ok kend k l -> NoDup (l ++ R) -> (forall q, q ∈ R -> page kend q) ->
  exists r k' l', setupkvm kend kdata k = Ok r k' /\ same_on R (kmemory k) (kmemory k') /\
    ((exists A, r = dir A /\ r <> 0 /\ own k' l' A R /\ table_pages A ++ l' ≡ₚ l /\ pm A = kernel_map) \/
     (r = 0 /\ kmem_ok kend k' l' /\ l' ≡ₚ l /\ (length l <= 1025)%nat)).
Proof.
  intros HK HN HP. unfold setupkvm. destruct l as [|p l].
  { exists 0, k, []. erewrite bind_run by by apply (kalloc_nil kend). split_and!; [done..|]. right. split_and!; [done..|cbn; lia]. }
  destruct (kalloc_cons kend k p l HK) as (k1 & E1 & HK1 & Hm1). erewrite bind_run by exact E1.
  assert (Hp : page kend p) by (apply HK; by left). destruct (page_range kend p Hp).
  rewrite (proj2 (Z.eqb_neq p 0)) by lia. erewrite bind_run by reflexivity.
  change (DEVSPACE <? P2V PHYSTOP) with false. cbn iota.
  destruct (empty_own k1 p l R HK1 Hp HN HP) as [HO Hs]. rewrite Hm1 in Hs at 1.
  destruct (kmap_loop_ok (kmap kdata) _ l _ R HO) as (r & k' & l' & E & Hs' & Hr).
  - intros n e He. cbn [pm] in He. by rewrite lookup_empty in He.
  - apply kernel_fits.
  - cbn [dir] in E. exists r, k', l'. split; [exact E|]. split; [exact (same_on_trans _ _ _ _ Hs Hs')|]. clear E.
    destruct Hr as [(A & -> & HO' & He & Hpm)|(-> & HK' & Hl & Hfew)]; [left|right].
    + exists A. destruct He as [Hd _ Hpg]. cbn in Hd. split_and!; [done| |done| |done].
      * cbn [dir]. lia.
      * rewrite Hpg. unfold table_pages. cbn [dir tabs]. by rewrite map_to_list_empty.
    + unfold table_pages in Hl. cbn [dir tabs] in Hl. rewrite map_to_list_empty in Hl. cbn in Hl.
      split_and!; [done..|]. by rewrite <- Hl.
Qed.
End kernel.
