(* ===== verification/VmSpec.v ===== *)
(** * User memory

    What allocuvm, copyuvm and copyout of vm.c do to the memory of a process: the pages
    that are mapped, the bytes they hold, and the pages that go back to the allocator when
    memory runs out. *)

From S2P Require Import Prelude CString Kalloc Vm.
From stdpp Require Import gmap.
#[local] Open Scope Z_scope.

(** ** Growing and copying user memory *)

#[local] Opaque memset memmove store_word kernel_map.

(** The byte at user address [va]. *)
Definition uread (m : memory) (A : aspace) (va : Z) : option Z :=
  e ← pm A !! (va / PGSIZE); Some (m (upage e + va mod PGSIZE)).

Definition zero_on (p : Z) (m : memory) : Prop := forall x, p <= x < p + PGSIZE -> m x = 0.

Section grow.
Context (kend : Z) (Hkend : KERNBASE < kend).
Implicit Types (k : kmem) (m : memory) (l R : list Z) (A : aspace).
Abbreviation own := (own kend).
Abbreviation page := (page kend).

Lemma upage_entry p perm : page p -> 0 <= perm < PGSIZE -> upage (entry (V2P p) perm) = p.
Proof.
  intros Hp Hf. destruct (page_V2P kend p Hp) as (_ & Hm & H0 & H1).
  destruct (entry_ok (V2P p) perm) as (_ & _ & Ha & _); [done|done|unfold PHYSTOP in *; lia|done|].
  unfold upage. rewrite Ha. by apply (P2V_V2P kend).
Qed.

Lemma kalloc_own k p l A R : own k (p :: l) A R ->
  exists k', kalloc k = Ok p k' /\ p <> 0 /\ own k' l A (p :: R) /\ kmemory k' = kmemory k.
Proof.
  intros [HK HR HN HP]. destruct (kalloc_cons kend k p l HK) as (k' & E & HK' & Hm).
  assert (Hp : page p) by (apply HK; by left). destruct (page_range kend p Hp).
  exists k'. split; [done|]. split; [lia|]. split; [|done]. split; [done|by rewrite Hm| |].
  - rewrite (Permutation_app_comm (table_pages A)), <- app_comm_cons, <- Permutation_middle.
    by rewrite (Permutation_app_comm R).
  - intros q [->|Hq]%elem_of_cons; auto.
Qed.

(** Writing inside a page that is neither free nor a table. *)
Lemma fill_own k l A p R m : own k l A (p :: R) ->
  (forall x, ~ (p <= x < p + PGSIZE) -> m x = kmemory k x) ->
  own (k <| kmemory := m |>) l A (p :: R) /\ same_on R (kmemory k) m.
Proof.
  intros HO Hm. pose proof HO as [HK HR HN HP]. assert (Hp : page p) by (apply HP; by left).
  rewrite (Permutation_app_comm (table_pages A)), <- app_comm_cons, <- Permutation_middle in HN.
  apply NoDup_cons in HN as [Hn _]. rewrite !not_elem_of_app in Hn. destruct Hn as (Hl & HRn & HT).
  split; [split|].
  - apply kmem_frame; [done|]. eapply same_on_page; [exact Hp|apply HK|done|done].
  - eapply repr_frame; [done|]. eapply same_on_page; [exact Hp|apply HR|done|done].
  - apply HO.
  - done.
  - eapply same_on_page; [exact Hp| |done|done]. intros q Hq. apply HP. by right.
Qed.

(** Mapping a page of its own at user page [v]. *)
Lemma map_user k l A p R v perm : own k l A (p :: upages A ++ R) -> 0 <= v < UPAGES ->
  0 <= perm < PGSIZE -> pm A !! v = None ->
  exists r k' l' A', mappages (dir A) (v * PGSIZE) PGSIZE (V2P p) perm k = Ok r k' /\
    same_on (p :: upages A ++ R) (kmemory k) (kmemory k') /\ extends A l A' l' /\
    (r = 0 /\ own k' l' A' (upages A' ++ R) /\ pm A' = <[v := entry (V2P p) perm]> (pm A) /\
       upages A' ≡ₚ p :: upages A \/
     r = -1 /\ own k' l' A' (p :: upages A' ++ R) /\ pm A' = pm A /\ l' = []).
Proof.
  intros HO Hv Hf Hnone. assert (Hp : page p) by (apply (o_pages _ _ _ _ _ HO); by left).
  destruct (page_V2P kend p Hp) as (_ & Hm & H0 & H1).
  assert (Hdv : v * PGSIZE / PGSIZE = v) by by apply Z.div_mul.
  destruct (mappages_ok kend A (v * PGSIZE) PGSIZE (V2P p) perm k l _ HO)
    as (r & k' & l' & A' & j & E & HO' & Hs & He & Hpm & Hr); try done.
  - by apply Z.mod_mul.
  - unfold PGSIZE; lia.
  - unfold PGSIZE; lia.
  - unfold PHYSTOP in *; lia.
  - intros w Hw. rewrite Hdv in Hw. change (PGSIZE / PGSIZE) with 1 in Hw. assert (w = v) as -> by lia. done.
  - rewrite Hdv in Hpm. change (Z.to_nat (PGSIZE / PGSIZE)) with 1%nat in Hr.
    exists r, k', l', A'. split; [done|]. split; [done|]. split; [done|].
    destruct Hr as [[-> ->]|(-> & -> & Hj)]; [left|right].
    + cbn [map_range] in Hpm. assert (Hup : upages A' ≡ₚ p :: upages A).
      { rewrite <- (upage_entry p perm Hp Hf) at 1. rewrite <- (user_insert A v); [|done|lia|].
        - erewrite user_same; [done|]. cbn. rewrite Hpm.
          destruct (Z.eqb_spec (entry (V2P p) perm) 0) as [E0|]; [|done].
          destruct (entry_ok (V2P p) perm) as (_ & Ho & _); [done|done|unfold PHYSTOP in *; lia|done|].
          by rewrite E0 in Ho.
        - intros E0. destruct (entry_ok (V2P p) perm) as (_ & Ho & _); [done|done|unfold PHYSTOP in *; lia|done|].
          by rewrite E0 in Ho. }
      split; [done|]. split; [|done]. eapply own_perm; [|exact HO']. by rewrite Hup.
    + assert (j = O) as -> by lia. cbn in Hpm. split; [done|]. split; [|done]. by rewrite (user_same _ _ Hpm).
Qed.

(** The pages from [v] to [N] are new and full of zeros, and no others change. *)
Definition grown A A' (m m' : memory) (v N : Z) : Prop :=
  same_on (upages A) m m' /\
  forall n, if decide (v <= n < N) then
      exists p, pm A' !! n = Some (entry (V2P p) (Z.lor PTE_W PTE_U)) /\ page p /\ zero_on p m'
    else pm A' !! n = pm A !! n.

(** The pages from [v] to [N] are not mapped, and no others change. *)
Definition undone A A' (m m' : memory) (v N : Z) : Prop :=
  same_on (upages A') m m' /\
  forall n, pm A' !! n = if decide (v <= n < N) then None else pm A !! n.

Definition all_pages A l : list Z := table_pages A ++ upages A ++ l.

Lemma undone_dealloc k l A R oldsz newsz :
  own k l A (upages A ++ R) -> 0 <= oldsz -> 0 <= newsz <= KERNBASE ->
  exists r k' l' A', deallocuvm kend (dir A) newsz oldsz k = Ok r k' /\
    own k' l' A' (upages A' ++ R) /\ same_on R (kmemory k) (kmemory k') /\
    dir A' = dir A /\ tabs A' = tabs A /\ all_pages A' l' ≡ₚ all_pages A l /\
    undone A A' (kmemory k) (kmemory k') (pages_upto oldsz) (pages_upto newsz).
Proof.
  intros HO H0 H1. destruct (deallocuvm_ok kend Hkend newsz oldsz k l A R HO)
    as (k' & l' & A' & E & HO' & Hs & Hd & Ht & Hp & Hl); [done..|].
  eexists _, k', l', A'. split; [done|]. split; [done|]. split; [|split; [done|split; [done|split]]].
  - eapply same_on_sub; [done|]. intros q Hq. apply elem_of_app. by right.
  - unfold all_pages, table_pages. rewrite Hd, Ht. apply Permutation_app_head.
    by rewrite (Permutation_app_comm (upages A')), Hl, (Permutation_app_comm l).
  - split; [|done]. eapply same_on_sub; [done|]. intros q Hq. apply elem_of_app. by left.
Qed.

(** Taking a page, clearing it and mapping it at user page [v]. *)
Lemma alloc_page k p l A R v : own k (p :: l) A (upages A ++ R) -> 0 <= v < UPAGES -> pm A !! v = None ->
  exists k1 k2 r k3 l3 A3, kalloc k = Ok p k1 /\ p <> 0 /\ zero_page p k1 = Ok tt k2 /\
    mappages (dir A) (v * PGSIZE) PGSIZE (V2P p) (Z.lor PTE_W PTE_U) k2 = Ok r k3 /\
    page p /\ zero_on p (kmemory k3) /\ same_on (upages A ++ R) (kmemory k) (kmemory k3) /\
    extends A l A3 l3 /\
    (r = 0 /\ own k3 l3 A3 (upages A3 ++ R) /\
       pm A3 = <[v := entry (V2P p) (Z.lor PTE_W PTE_U)]> (pm A) /\ upages A3 ≡ₚ p :: upages A \/
     r = -1 /\ own k3 l3 A3 (p :: upages A3 ++ R) /\ pm A3 = pm A /\ l3 = []).
Proof.
  intros HO Hv Hnone. destruct (kalloc_own k p l A _ HO) as (k1 & E1 & Hp0 & HO1 & Hm1).
  assert (Hp : page p) by (apply (o_pages _ _ _ _ _ HO1); by left). destruct (page_range kend p Hp) as [Hp1 Hp2].
  set (m2 := memset (kmemory k1) p 0 PGSIZE).
  assert (Hmset : forall x, m2 x = if decide (p <= x < p + PGSIZE) then 0 else kmemory k x).
  { intros x. unfold m2. rewrite memset_spec, Hm1 by (unfold CString.block, PGSIZE in *; lia). done. }
  destruct (fill_own k1 l A p (upages A ++ R) m2 HO1) as [HO2 Hs2].
  { intros x Hx. by rewrite Hmset, decide_False, Hm1 by done. }
  rewrite Hm1 in Hs2.
  destruct (map_user _ l A p R v (Z.lor PTE_W PTE_U) HO2 Hv) as (r & k3 & l3 & A3 & E3 & Hs3 & He3 & Hr); [done..|].
  change (kmemory (k1 <| kmemory := m2 |>)) with m2 in Hs3.
  exists k1, (k1 <| kmemory := m2 |>), r, k3, l3, A3.
  split; [done|]. split; [done|]. split; [done|]. split; [done|]. split; [done|]. split; [|split; [|done]].
  - intros x Hx. rewrite (Hs3 p x); [|by left|done]. by rewrite Hmset, decide_True.
  - eapply same_on_trans; [exact Hs2|]. eapply same_on_sub; [exact Hs3|]. intros q Hq. by right.
Qed.

Lemma same_on_l U R m m' : same_on (U ++ R) m m' -> same_on U m m'.
Proof. intros H. eapply same_on_sub; [exact H|]. intros q Hq. apply elem_of_app. by left. Qed.
Lemma same_on_r U R m m' : same_on (U ++ R) m m' -> same_on R m m'.
Proof. intros H. eapply same_on_sub; [exact H|]. intros q Hq. apply elem_of_app. by right. Qed.
Lemma same_on_tl p R m m' : same_on (p :: R) m m' -> same_on R m m'.
Proof. intros H. eapply same_on_sub; [exact H|]. intros q Hq. by right. Qed.

(** Giving up when no table can be had: the pages so far and this one are freed. *)
Lemma alloc_undo k A p R oldsz newsz : own k [] A (p :: upages A ++ R) -> 0 <= oldsz -> 0 <= newsz <= KERNBASE ->
  exists r k4 k' l' A', deallocuvm kend (dir A) newsz oldsz k = Ok r k4 /\ kfree kend p k4 = Ok tt k' /\
    own k' l' A' (upages A' ++ R) /\ same_on R (kmemory k) (kmemory k') /\
    dir A' = dir A /\ tabs A' = tabs A /\ all_pages A' l' ≡ₚ p :: all_pages A [] /\
    undone A A' (kmemory k) (kmemory k') (pages_upto oldsz) (pages_upto newsz).
Proof.
  intros HO H0 H1.
  assert (HO3 : own k [] A (upages A ++ p :: R)) by (eapply own_perm; [|exact HO]; by rewrite Permutation_middle).
  destruct (undone_dealloc k [] A (p :: R) oldsz newsz HO3 H0 H1)
    as (r & k4 & l4 & A4 & E4 & HO4 & Hs4 & Hd4 & Ht4 & Hl4 & Hu4 & Hu4').
  assert (HO4' : own k4 l4 A4 (p :: upages A4 ++ R)) by (eapply own_perm; [|exact HO4]; by rewrite Permutation_middle).
  destruct (free_ok kend k4 l4 A4 p _ HO4') as (k5 & E5 & HO5 & Hs5).
  exists r, k4, k5, (p :: l4), A4. split; [done|]. split; [done|]. split; [done|].
  split; [|split; [done|split; [done|split; [|split; [|done]]]]].
  - eapply same_on_trans; [exact (same_on_tl _ _ _ _ Hs4)|exact (same_on_r _ _ _ _ Hs5)].
  - unfold all_pages in *. perm.
  - eapply same_on_trans; [exact Hu4|exact (same_on_l _ _ _ _ Hs5)].
Qed.

(** Too few pages are free for the tables and the pages from [v] to [N]. *)
Definition few A l v N : Prop := Z.of_nat (length (table_pages A ++ l)) <= 1025 + (N - v).

Lemma few_step A A3 l l3 v N p : extends A l A3 l3 -> few A3 l3 (v + 1) N -> few A (p :: l) v N.
Proof.
  intros He. unfold few. rewrite (e_pages _ _ _ _ He), <- Permutation_middle. cbn [length]. lia.
Qed.

Lemma few_end k l A R A' p v N : own k [] A' R -> extends A l A' [] -> v < N -> few A (p :: l) v N.
Proof.
  intros HO He Hv. unfold few. rewrite <- Permutation_middle. cbn [length].
  rewrite <- (e_pages _ _ _ _ He), app_nil_r.
  pose proof (tables_few kend _ _ (o_repr _ _ _ _ _ HO)). lia.
Qed.

Lemma few_empty k A R v N : own k [] A R -> v < N -> few A [] v N.
Proof.
  intros HO Hv. unfold few. rewrite app_nil_r. pose proof (tables_few kend _ _ (o_repr _ _ _ _ _ HO)). lia.
Qed.

(** Combining the first new page with what the rest of the loop did. *)
Lemma alloc_result A A3 A' l l3 m m3 m' p v v0 N newsz r :
  v0 <= v < N -> page p -> zero_on p m3 -> upages A3 ≡ₚ p :: upages A ->
  pm A3 = <[v := entry (V2P p) (Z.lor PTE_W PTE_U)]> (pm A) -> same_on (upages A) m m3 ->
  extends A l A3 l3 ->
  (r = newsz /\ grown A3 A' m3 m' (v + 1) N \/ r = 0 /\ undone A3 A' m3 m' v0 N /\ few A3 l3 (v + 1) N) ->
  r = newsz /\ grown A A' m m' v N \/ r = 0 /\ undone A A' m m' v0 N /\ few A (p :: l) v N.
Proof.
  intros Hv Hp Hz Hup Hpm Hs He [[-> [Hg1 Hg2]]|(-> & [Hg1 Hg2] & Hfew)]; [left|right]; (split; [done|]);
    [split|split; [split|by eapply few_step]].
  - eapply same_on_trans; [exact Hs|]. eapply same_on_sub; [exact Hg1|]. intros q Hq. rewrite Hup. by right.
  - intros n. specialize (Hg2 n). case_decide as Hd1; case_decide as Hd2; try lia; [done| |].
    + assert (n = v) as -> by lia. rewrite Hg2, Hpm, lookup_insert_eq. exists p. split; [done|]. split; [done|].
      intros x Hx. rewrite (Hg1 p x); [by apply Hz|rewrite Hup; by left|done].
    + by rewrite Hg2, Hpm, lookup_insert_ne by lia.
  - eapply same_on_trans; [|exact Hg1]. eapply same_on_sub; [exact Hs|]. intros q Hq.
    eapply upages_sub; [|exact Hq]. intros n e. rewrite Hg2. case_decide as Hd1; [done|].
    rewrite Hpm. by rewrite lookup_insert_ne by lia.
  - intros n. rewrite Hg2. case_decide as Hd1; [done|]. rewrite Hpm. by rewrite lookup_insert_ne by lia.
Qed.

Lemma alloc_loop_ok fuel : forall v k l A R oldsz newsz, own k l A (upages A ++ R) ->
  0 <= oldsz -> pages_upto oldsz <= v -> newsz < KERNBASE -> pages_upto newsz - v <= Z.of_nat fuel ->
  (forall n, v <= n < pages_upto newsz -> pm A !! n = None) -> 0 <= newsz ->
  exists r k' l' A', alloc_loop kend fuel (dir A) (v * PGSIZE) oldsz newsz k = Ok r k' /\
    own k' l' A' (upages A' ++ R) /\ same_on R (kmemory k) (kmemory k') /\
    dir A' = dir A /\ tabs A ⊆ tabs A' /\ all_pages A' l' ≡ₚ all_pages A l /\
    (r = newsz /\ grown A A' (kmemory k) (kmemory k') v (pages_upto newsz) \/
     r = 0 /\ undone A A' (kmemory k) (kmemory k') (pages_upto oldsz) (pages_upto newsz) /\
     few A l v (pages_upto newsz)).
Proof.
  induction fuel as [|fuel IH]; intros v k l A R oldsz newsz HO H0 Hv Hn Hf Hnone Hn0; cbn [alloc_loop].
  { exists newsz, k, l, A. split_and!; try done. left. split; [done|]. split; [done|].
    intros n. by rewrite decide_False by lia. }
  pose proof (below_pages v newsz) as Hb. destruct (Z.leb_spec newsz (v * PGSIZE)) as [Hle|Hlt].
  { exists newsz, k, l, A. split_and!; try done. left. split; [done|]. split; [done|].
    intros n. by rewrite decide_False by lia. }
  apply Hb in Hlt as Hvn. pose proof (pages_upto_nonneg oldsz H0).
  assert (Hv' : 0 <= v < UPAGES) by (unfold KERNBASE, PGSIZE in *; lia).
  destruct l as [|p l].
  { erewrite bind_run by (apply (kalloc_nil kend), HO). change (0 =? 0) with true. cbn iota.
    erewrite bind_run by reflexivity.
    destruct (undone_dealloc k [] A R oldsz newsz HO H0 ltac:(lia)) as (r & k' & l' & A' & E & HO' & Hs & Hd & Ht & Hl & Hu).
    erewrite bind_run by exact E. exists 0, k', l', A'. split_and!; try done; [by rewrite Ht|right].
    split_and!; [done|done|by eapply few_empty]. }
  destruct (alloc_page k p l A R v HO Hv') as (k1 & k2 & r & k3 & l3 & A3 & E1 & Hp0 & E2 & E3 & Hp & Hz & HsR & He3 & Hr);
    [apply Hnone; lia|].
  erewrite bind_run by exact E1. rewrite (proj2 (Z.eqb_neq p 0)) by done.
  erewrite bind_run by exact E2. erewrite bind_run by exact E3. pose proof (e_pages _ _ _ _ He3) as Hpg.
  destruct Hr as [(-> & HO3 & Hpm3 & Hup3)|(-> & HO3 & Hpm3 & ->)].
  - change (0 <? 0) with false. cbn iota. rewrite u32_small by (unfold is_u32, PGSIZE, KERNBASE in *; lia).
    replace (v * PGSIZE + PGSIZE) with ((v + 1) * PGSIZE) by lia. rewrite <- (e_dir _ _ _ _ He3).
    destruct (IH (v + 1) k3 l3 A3 R oldsz newsz HO3 H0) as (r & k' & l' & A' & E & HO' & Hs' & Hd' & Ht' & Hl' & Hr); try lia.
    { intros n Hn'. rewrite Hpm3, lookup_insert_ne by lia. apply Hnone. lia. }
    exists r, k', l', A'. split; [done|]. split; [done|]. split; [|split; [congruence|split; [|split]]].
    + eapply same_on_trans; [exact (same_on_r _ _ _ _ HsR)|exact Hs'].
    + etrans; [apply He3|done].
    + unfold all_pages in *. perm.
    + eapply alloc_result; [|exact Hp|exact Hz|exact Hup3|exact Hpm3|exact (same_on_l _ _ _ _ HsR)|exact He3|exact Hr]. lia.
  - change (-1 <? 0) with true. cbn iota. erewrite bind_run by reflexivity. rewrite <- (e_dir _ _ _ _ He3).
    destruct (alloc_undo k3 A3 p R oldsz newsz HO3 H0 ltac:(lia)) as (r & k4 & k5 & l5 & A5 & E4 & E5 & HO5 & Hs5 & Hd5 & Ht5 & Hl5 & Hu5 & Hu5').
    erewrite bind_run by exact E4. erewrite bind_run by exact E5. exists 0, k5, l5, A5.
    split; [done|]. split; [done|]. split; [|split; [done|split; [|split; [|right; split; [done|split; [split|]]]]]].
    + eapply same_on_trans; [exact (same_on_r _ _ _ _ HsR)|exact Hs5].
    + rewrite Ht5. apply He3.
    + unfold all_pages in *. rewrite (user_same A A3 Hpm3) in Hl5. perm.
    + eapply same_on_trans; [|exact Hu5]. eapply same_on_sub; [exact (same_on_l _ _ _ _ HsR)|].
      intros q Hq. rewrite <- (user_same A A3 Hpm3). eapply upages_sub; [|exact Hq]. intros n e. rewrite Hu5'. by case_decide.
    + intros n. rewrite Hu5'. case_decide; [done|]. by rewrite Hpm3.
    + by eapply few_end.
Qed.
End grow.

Section copy.
Context (kend kdata : Z) (Hkend : KERNBASE < kend).
Implicit Types (k : kmem) (m : memory) (l R : list Z) (A P D : aspace).
Abbreviation own := (own kend).
Abbreviation page := (page kend).
Abbreviation repr := (repr kend).

(** The pages of [P] from [v] to [N] have copies in [D']. *)
Definition copied P D D' (m m' : memory) (v N : Z) : Prop :=
  forall n, if decide (v <= n < N) then
      exists e p, pm P !! n = Some e /\ pm D' !! n = Some (entry (V2P p) (PTE_FLAGS e)) /\ page p /\
        forall o, 0 <= o < PGSIZE -> m' (p + o) = m (upage e + o)
    else pm D' !! n = pm D !! n.

(** Taking a page, copying [q] into it and mapping it at user page [v]. *)
Lemma copy_page k p l D R v q flags : own k (p :: l) D (upages D ++ q :: R) -> 0 <= v < UPAGES ->
  0 <= flags < PGSIZE -> pm D !! v = None ->
  exists k1 k2 r k3 l3 D3, kalloc k = Ok p k1 /\ p <> 0 /\
    k2 = k1 <| kmemory := memmove (kmemory k1) p q PGSIZE |> /\
    mappages (dir D) (v * PGSIZE) PGSIZE (V2P p) flags k2 = Ok r k3 /\
    page p /\ (forall o, 0 <= o < PGSIZE -> kmemory k3 (p + o) = kmemory k (q + o)) /\
    same_on (upages D ++ q :: R) (kmemory k) (kmemory k3) /\ extends D l D3 l3 /\
    (r = 0 /\ own k3 l3 D3 (upages D3 ++ q :: R) /\
       pm D3 = <[v := entry (V2P p) flags]> (pm D) /\ upages D3 ≡ₚ p :: upages D \/
     r = -1 /\ own k3 l3 D3 (p :: upages D3 ++ q :: R) /\ pm D3 = pm D /\ l3 = []).
Proof.
  intros HO Hv Hf Hnone. destruct (kalloc_own kend k p l D _ HO) as (k1 & E1 & Hp0 & HO1 & Hm1).
  assert (Hp : page p) by (apply (o_pages _ _ _ _ _ HO1); by left). destruct (page_range kend p Hp) as [Hp1 Hp2].
  assert (Hq : page q) by (apply (o_pages _ _ _ _ _ HO1); right; apply elem_of_app; right; by left).
  destruct (page_range kend q Hq) as [Hq1 Hq2].
  assert (Hpq : p <> q).
  { intros ->. pose proof (o_nodup _ _ _ _ _ HO1) as HN. rewrite !NoDup_app in HN.
    destruct HN as (_ & _ & _ & _ & [Hn _]%NoDup_cons). apply Hn, elem_of_app. right. by left. }
  set (m2 := memmove (kmemory k1) p q PGSIZE).
  assert (Hmove : forall x, m2 x = if decide (p <= x < p + PGSIZE) then kmemory k (q + (x - p)) else kmemory k x).
  { intros x. unfold m2. rewrite memmove_ok, Hm1; [done|unfold CString.block, PGSIZE in *; lia..|].
    destruct Hq as (_ & _ & Hq). unfold PGSIZE, KERNBASE, PHYSTOP in *. lia. }
  destruct (fill_own kend k1 l D p (upages D ++ q :: R) m2 HO1) as [HO2 Hs2].
  { intros x Hx. by rewrite Hmove, decide_False, Hm1 by done. }
  rewrite Hm1 in Hs2.
  destruct (map_user kend _ l D p (q :: R) v flags HO2 Hv) as (r & k3 & l3 & A3 & E3 & Hs3 & He3 & Hr); [done..|].
  change (kmemory (k1 <| kmemory := m2 |>)) with m2 in Hs3.
  exists k1, (k1 <| kmemory := m2 |>), r, k3, l3, A3.
  split; [done|]. split; [done|]. split; [done|]. split; [done|]. split; [done|]. split; [|split; [|done]].
  - intros o Ho. rewrite (Hs3 p (p + o)); [|by left|lia]. rewrite Hmove, decide_True by lia. f_equal. lia.
  - eapply same_on_trans; [exact Hs2|exact (same_on_tl _ _ _ _ Hs3)].
Qed.

Definition spare P R : list Z := table_pages P ++ upages P ++ R.

(** Reading the entry of a page of the parent. *)
Lemma parent_entry k P v e : repr (kmemory k) P -> pm P !! v = Some e -> 0 <= v < 2 ^ 20 ->
  exists t, walkpgdir (dir P) (v * PGSIZE) false k = Ok (slot t v) k /\ slot t v <> 0 /\
    load (slot t v) k = Ok e k /\ (Z.land e PTE_P =? 0) = false /\ 0 <= PTE_FLAGS e < PGSIZE.
Proof.
  intros HR He Hv. destruct (r_pm _ _ _ HR _ _ He) as ([t Ht] & Hu & Hodd). exists t.
  assert (Hdv : v * PGSIZE / PGSIZE = v) by by apply Z.div_mul.
  pose proof (slot_range kend t v (r_pages _ _ _ HR _ (table_in _ _ _ Ht))).
  split; [|split; [lia|split; [|split]]].
  - erewrite (walk_present kend); [by rewrite Hdv|exact HR|unfold PGSIZE; lia|by rewrite Hdv].
  - unfold load, gets. erewrite pte_word by done. by rewrite He.
  - by rewrite present_eq, Hodd.
  - rewrite PTE_FLAGS_eq. by apply Z.mod_pos_bound.
Qed.

Lemma free_copy k l D R : own k l D (upages D ++ R) ->
  exists k' l', freevm kend (dir D) k = Ok tt k' /\ kmem_ok kend k' l' /\
    l' ≡ₚ all_pages D l /\ same_on R (kmemory k) (kmemory k').
Proof.
  intros HO. destruct (freevm_ok kend Hkend k l D R HO) as (k' & l' & E & HK & Hl & Hs).
  exists k', l'. split; [done|]. split; [done|]. split; [|done]. unfold all_pages. perm.
Qed.

Lemma copied_step P D D3 D' m m3 m' v N e p :
  v < N -> pm P !! v = Some e -> page p -> (forall o, 0 <= o < PGSIZE -> m3 (p + o) = m (upage e + o)) ->
  pm D3 = <[v := entry (V2P p) (PTE_FLAGS e)]> (pm D) -> same_on [p] m3 m' ->
  same_on (upages P) m m3 -> N <= UPAGES ->
  copied P D3 D' m3 m' (v + 1) N -> copied P D D' m m' v N.
Proof.
  intros Hv He Hp Hc Hpm Hs3 Hs HN H n. specialize (H n). case_decide as Hd1; case_decide as Hd2; try lia.
  - destruct H as (e' & p' & H1 & H2 & H3 & H4). exists e', p'. split_and!; [done..|]. intros o Ho.
    rewrite H4 by done. apply (Hs (upage e')); [|lia]. apply upages_elem. exists n, e'. split_and!; [done|lia|done].
  - assert (n = v) as -> by lia. exists e, p. rewrite H, Hpm, lookup_insert_eq. split_and!; [done..|].
    intros o Ho. rewrite (Hs3 p); [by apply Hc|by left|lia].
  - by rewrite H, Hpm, lookup_insert_ne by lia.
Qed.

Lemma copy_loop_ok fuel : forall v k l D P R sz,
  own k l D (upages D ++ spare P R) -> repr (kmemory k) P ->
  0 <= v -> sz <= KERNBASE -> pages_upto sz - v <= Z.of_nat fuel ->
  (forall n, v <= n < pages_upto sz -> is_Some (pm P !! n)) ->
  (forall n, v <= n < pages_upto sz -> pm D !! n = None) ->
  exists r k' l', copy_loop kend fuel (dir P) (dir D) (v * PGSIZE) sz k = Ok r k' /\
    same_on (spare P R) (kmemory k) (kmemory k') /\
    ((exists D', r = dir D /\ own k' l' D' (upages D' ++ spare P R) /\ dir D' = dir D /\
        all_pages D' l' ≡ₚ all_pages D l /\ same_on (upages D) (kmemory k) (kmemory k') /\
        copied P D D' (kmemory k) (kmemory k') v (pages_upto sz)) \/
     (r = 0 /\ kmem_ok kend k' l' /\ l' ≡ₚ all_pages D l /\ few D l v (pages_upto sz))).
Proof.
  induction fuel as [|fuel IH]; intros v k l D P R sz HO HR Hv Hsz Hf HP HD; cbn [copy_loop].
  { exists (dir D), k, l. split_and!; [done..|]. left. exists D. split_and!; try done.
    intros n. by rewrite decide_False by lia. }
  pose proof (below_pages v sz) as Hb. destruct (Z.leb_spec sz (v * PGSIZE)) as [Hle|Hlt].
  { exists (dir D), k, l. split_and!; [done..|]. left. exists D. split_and!; try done.
    intros n. by rewrite decide_False by lia. }
  apply Hb in Hlt as Hvn. assert (Hv' : 0 <= v < UPAGES) by (unfold KERNBASE, PGSIZE in *; lia).
  assert (HNU : pages_upto sz <= UPAGES) by (by apply (pages_upto_mono sz KERNBASE)).
  destruct (HP v) as [e He]; [lia|]. destruct (parent_entry k P v e HR He ltac:(lia)) as (t & Ew & Hnz & El & Hpr & Hfl).
  erewrite bind_run by exact Ew. rewrite (proj2 (Z.eqb_neq _ _) Hnz). erewrite bind_run by exact El. rewrite Hpr.
  assert (Hq : exists S, spare P R ≡ₚ upage e :: S).
  { unfold spare. assert (Hin : upage e ∈ upages P) by (apply upages_elem; exists v, e; split_and!; [done|lia|done]).
    apply elem_of_Permutation in Hin as [U HU]. exists (table_pages P ++ U ++ R). perm. }
  destruct Hq as [S HS]. destruct l as [|p l].
  { erewrite bind_run by (apply (kalloc_nil kend), HO). change (0 =? 0) with true. cbn iota.
    destruct (free_copy k [] D _ HO) as (k' & l' & E & HK & Hl & Hs). erewrite bind_run by exact E.
    exists 0, k', l'. split_and!; [done|done|]. right. split_and!; [done..|by eapply few_empty]. }
  destruct (copy_page k p l D S v (upage e) (PTE_FLAGS e)) as (k1 & k2 & r & k3 & l3 & D3 & E1 & Hp0 & E2 & E3 & Hp & Hc & Hs3 & He3 & Hr);
    [by eapply own_perm; [|exact HO]; rewrite HS|done|done|apply HD; lia|].
  erewrite bind_run by exact E1. rewrite (proj2 (Z.eqb_neq p 0)) by done. unfold upage in E2.
  erewrite bind_run by reflexivity. rewrite <- E2. erewrite bind_run by exact E3.
  assert (Hs3' : same_on (spare P R) (kmemory k) (kmemory k3)).
  { eapply same_on_sub; [exact (same_on_r _ _ _ _ Hs3)|]. intros q. by rewrite HS. }
  pose proof (e_pages _ _ _ _ He3) as Hpg. destruct Hr as [(-> & HO3 & Hpm3 & Hup3)|(-> & HO3 & Hpm3 & ->)].
  - change (0 <? 0) with false. cbn iota. rewrite u32_small by (unfold is_u32, PGSIZE, KERNBASE in *; lia).
    replace (v * PGSIZE + PGSIZE) with ((v + 1) * PGSIZE) by lia. rewrite <- (e_dir _ _ _ _ He3).
    destruct (IH (v + 1) k3 l3 D3 P R sz) as (r & k' & l' & E & Hs' & Hr); try lia.
    { eapply own_perm; [|exact HO3]. by rewrite HS. }
    { eapply repr_frame; [exact HR|]. by eapply same_on_l. }
    { intros n Hn. apply HP. lia. }
    { intros n Hn. rewrite Hpm3, lookup_insert_ne by lia. apply HD. lia. }
    exists r, k', l'. split; [done|]. split; [by eapply same_on_trans|].
    destruct Hr as [(D' & -> & HO' & Hd' & Hl' & Hsu & Hcp)|(-> & HK' & Hl' & Hfew)]; [left|right].
    + exists D'. split; [done|]. split; [done|]. split; [congruence|]. split; [unfold all_pages in *; perm|]. split.
      * eapply same_on_trans; [exact (same_on_l _ _ _ _ Hs3)|]. eapply same_on_sub; [exact Hsu|].
        intros q Hq. rewrite Hup3. by right.
      * eapply copied_step; [done|exact He|exact Hp|exact Hc|exact Hpm3| | |done|exact Hcp].
        -- eapply same_on_sub; [exact Hsu|]. intros q ->%list_elem_of_singleton. rewrite Hup3. by left.
        -- eapply same_on_l, same_on_r. exact Hs3'.
    + split_and!; [done|done|unfold all_pages in *; perm|by eapply few_step].
  - change (-1 <? 0) with true. cbn iota. destruct (free_ok kend k3 [] D3 p _ HO3) as (k4 & E4 & HO4 & Hs4).
    erewrite bind_run by exact E4. rewrite <- (e_dir _ _ _ _ He3).
    destruct (free_copy k4 [p] D3 _ HO4) as (k' & l' & E & HK & Hl & Hs). erewrite bind_run by exact E.
    exists 0, k', l'. split; [done|]. split; [|right; split_and!; [done|done| |by eapply few_end]].
    + eapply same_on_trans; [exact Hs3'|]. eapply same_on_trans; (eapply same_on_sub; [|intros q; by rewrite HS]).
      * exact (same_on_r _ _ _ _ Hs4).
      * exact Hs.
    + unfold all_pages in *. rewrite (user_same D D3 Hpm3) in Hl. perm.
Qed.
End copy.

Section copyout.
Context (kend null : Z).
Implicit Types (k : kmem) (m : memory) (l R : list Z) (A : aspace) (p : list Z).
Abbreviation own := (own kend).
Abbreviation page := (page kend).

Lemma upages_inj k l A R n n' e e' : own k l A (upages A ++ R) ->
  pm A !! n = Some e -> pm A !! n' = Some e' -> n < UPAGES -> n' < UPAGES -> upage e = upage e' -> n = n'.
Proof.
  intros HO He He' Hn Hn' Hu. pose proof (o_nodup _ _ _ _ _ HO) as HN.
  apply NoDup_app in HN as (_ & _ & (_ & _ & (HN & _ & _)%NoDup_app)%NoDup_app). unfold upages in HN.
  assert (H1 : (n, e) ∈ map_to_list (user A)) by (rewrite elem_of_map_to_list, user_lookup; done).
  assert (H2 : (n', e') ∈ map_to_list (user A)) by (rewrite elem_of_map_to_list, user_lookup; done).
  apply list_elem_of_lookup in H1 as [a Ha], H2 as [b Hb].
  assert (a = b) as ->; [|congruence].
  eapply (NoDup_lookup _ a b (upage e)); [exact HN|..]; rewrite list_lookup_fmap; [by rewrite Ha|by rewrite Hb, Hu].
Qed.

Definition accessible A n : Prop := exists e, pm A !! n = Some e /\ (Z.land e PTE_U =? 0) = false.

(** The kernel address of a user page, 0 if the process may not use it. *)
Definition kaddr A n : Z :=
  match pm A !! n with Some e => if Z.land e PTE_U =? 0 then 0 else upage e | None => 0 end.

Lemma uva2ka_ok k A n : repr kend (kmemory k) A -> 0 <= n < 2 ^ 20 -> is_Some (tabs A !! (n / 1024)) ->
  uva2ka null (dir A) (n * PGSIZE) k = Ok (kaddr A n) k.
Proof.
  intros HR Hn [t Ht]. unfold kaddr, uva2ka. destruct (pm A !! n) as [e|] eqn:He.
  - destruct (parent_entry kend k A n e HR He Hn) as (t' & Ew & Hnz & El & Hpr & _).
    erewrite bind_run by exact Ew. rewrite (proj2 (Z.eqb_neq _ _) Hnz).
    erewrite bind_run by exact El. rewrite Hpr. by destruct (Z.land e PTE_U =? 0).
  - assert (Hdv : n * PGSIZE / PGSIZE = n) by by apply Z.div_mul.
    erewrite bind_run by (eapply walk_present; [exact HR|unfold PGSIZE; lia|by rewrite Hdv]). rewrite Hdv.
    pose proof (slot_range kend t n (r_pages _ _ _ HR _ (table_in _ _ _ Ht))).
    rewrite (proj2 (Z.eqb_neq (slot t n) 0)) by lia.
    erewrite bind_run by reflexivity. erewrite pte_word by done. by rewrite He.
Qed.

Lemma kaddr_page k l A R n e : own k l A (upages A ++ R) -> n < UPAGES -> pm A !! n = Some e ->
  (Z.land e PTE_U =? 0) = false -> kaddr A n = upage e /\ page (upage e).
Proof.
  intros HO Hn He Hu. unfold kaddr. rewrite He, Hu. split; [done|].
  apply (o_pages _ _ _ _ _ HO), elem_of_app. left. apply upages_elem. by exists n, e.
Qed.

Lemma kaddr_none A n : ~ accessible A n -> kaddr A n = 0.
Proof.
  intros H. unfold kaddr. destruct (pm A !! n) as [e|] eqn:He; [|done].
  destruct (Z.land e PTE_U =? 0) eqn:Hu; [done|]. exfalso. apply H. by exists e.
Qed.

#[global] Instance accessible_dec A n : Decision (accessible A n).
Proof.
  unfold accessible. destruct (pm A !! n) as [e|]; [|right; by intros (? & ? & _)].
  destruct (Z.land e PTE_U =? 0) eqn:Hu; [right|left; eauto]. intros (e' & He & Hu'). congruence.
Defined.

(** The first [c] of the bytes [p] are at [va] of the user memory. *)
Definition delivered A (m m' : memory) va p c : Prop :=
  forall x, 0 <= x < KERNBASE ->
    uread m' A x = if decide (va <= x < va + c) then zlookup p (x - va) else uread m A x.

(** One round: [n] bytes at [va], inside its page. *)
Lemma write_user k l A R va e (w : list Z) : own k l A (upages A ++ R) ->
  0 <= va < KERNBASE -> pm A !! (va / PGSIZE) = Some e -> va mod PGSIZE + zlen w <= PGSIZE ->
  let m' := write (kmemory k) (upage e + va mod PGSIZE) w in
  own (k <| kmemory := m' |>) l A (upages A ++ R) /\ same_on R (kmemory k) m' /\
  delivered A (kmemory k) m' va w (zlen w).
Proof.
  intros HO Hva He Hw m'. pose proof (Z.mod_pos_bound va PGSIZE ltac:(done)) as Hmod.
  assert (Hn : va / PGSIZE < UPAGES) by (apply Z.div_lt_upper_bound; unfold KERNBASE, PGSIZE in *; lia).
  assert (Hout : forall x, ~ (upage e <= x < upage e + PGSIZE) -> m' x = kmemory k x).
  { intros x Hx. apply write_outside. lia. }
  assert (Hin : upage e ∈ upages A) by (apply upages_elem; by exists (va / PGSIZE), e).
  apply elem_of_Permutation in Hin as [U HU].
  assert (HO1 : own k l A (upage e :: U ++ R)) by (eapply own_perm; [|exact HO]; by rewrite HU).
  destruct (fill_own kend k l A (upage e) (U ++ R) m' HO1 Hout) as [HO2 Hs].
  split; [eapply own_perm; [|exact HO2]; by rewrite HU|]. split; [by eapply same_on_r|].
  intros x Hx. unfold uread. pose proof (Z.mod_pos_bound x PGSIZE ltac:(done)) as Hmx.
  assert (Hnx : x / PGSIZE < UPAGES) by (apply Z.div_lt_upper_bound; unfold KERNBASE, PGSIZE in *; lia).
  pose proof (Z.div_mod x PGSIZE ltac:(done)) as Dx. pose proof (Z.div_mod va PGSIZE ltac:(done)) as Dv.
  case_decide as Hd.
  - assert (x / PGSIZE = va / PGSIZE) as Eq.
    { symmetry. apply (Z.div_unique _ _ _ (x - PGSIZE * (va / PGSIZE))); [left|]; lia. }
    rewrite Eq, He. cbn. unfold m', write. rewrite Eq in Dx.
    replace (upage e + x mod PGSIZE - (upage e + va mod PGSIZE)) with (x - va) by lia.
    destruct (zlookup w (x - va)) as [b|] eqn:Eb; [done|].
    exfalso. assert (is_Some (zlookup w (x - va))) as [b Hb] by (apply zlookup_is_Some; lia). congruence.
  - destruct (pm A !! (x / PGSIZE)) as [e'|] eqn:Ee; [|done]. cbn. f_equal.
    destruct (decide (x / PGSIZE = va / PGSIZE)) as [Eq|Ne].
    + apply write_outside. rewrite Eq in Ee, Dx. assert (e' = e) as -> by congruence. lia.
    + apply Hout. assert (Hne : upage e' <> upage e) by (intros Hu; apply Ne; by eapply (upages_inj k l A R _ _ e' e)).
      assert (Hp : page (upage e)) by (apply (o_pages _ _ _ _ _ HO1); by left).
      assert (Hp' : page (upage e')).
      { apply (o_pages _ _ _ _ _ HO). apply elem_of_app. left. apply upages_elem. by exists (x / PGSIZE), e'. }
      apply (pages_apart kend (upage e')); auto. lia.
Qed.

Lemma delivered_app A m m1 m2 va p n c : 0 <= n <= zlen p -> 0 <= c ->
  delivered A m m1 va (take (Z.to_nat n) p) n -> delivered A m1 m2 (va + n) (drop (Z.to_nat n) p) c ->
  delivered A m m2 va p (n + c).
Proof.
  intros Hn Hc H1 H2 x Hx. rewrite (H2 x Hx), (H1 x Hx). repeat case_decide; try lia; [|..|done].
  - unfold zlookup. rewrite !decide_True by lia. rewrite lookup_drop. f_equal. lia.
  - unfold zlookup. rewrite !decide_True by lia. rewrite lookup_take_lt by lia. done.
Qed.

Lemma copyout_loop_ok fuel : forall va p k l A R, own k l A (upages A ++ R) ->
  0 <= va -> va + zlen p <= KERNBASE -> (length p < fuel)%nat ->
  (forall n, va / PGSIZE <= n < pages_upto (va + zlen p) -> is_Some (tabs A !! (n / 1024))) ->
  exists r c k', copyout_loop null fuel (dir A) va p k = Ok r k' /\ own k' l A (upages A ++ R) /\
    same_on R (kmemory k) (kmemory k') /\ delivered A (kmemory k) (kmemory k') va p c /\ 0 <= c /\
    (forall x, va <= x < va + c -> accessible A (x / PGSIZE)) /\
    (r = 0 /\ c = zlen p \/ r = -1 /\ c < zlen p /\ ~ accessible A ((va + c) / PGSIZE)).
Proof.
  induction fuel as [|fuel IH]; intros va p k l A R HO H0 H1 Hf Hacc; [lia|]. cbn [copyout_loop].
  destruct p as [|b p0]; [|set (p := b :: p0) in *].
  { exists 0, 0, k. split_and!; try done; [|lia|by left]. intros x Hx. rewrite decide_False; [done|lia]. }
  assert (Hlen : 0 < zlen p) by (unfold zlen, p; cbn; lia).
  pose proof (Z.mod_pos_bound va PGSIZE ltac:(done)) as Hmod. pose proof (Z.div_mod va PGSIZE ltac:(done)) as Dv.
  rewrite PGROUNDDOWN_eq. replace (va - va mod PGSIZE) with (va / PGSIZE * PGSIZE) by lia.
  assert (Hn0 : 0 <= va / PGSIZE) by (apply Z.div_pos; unfold PGSIZE; lia).
  assert (Hn : va / PGSIZE < UPAGES) by (apply Z.div_lt_upper_bound; unfold KERNBASE, PGSIZE in *; lia).
  erewrite bind_run by (apply uva2ka_ok; [apply HO|lia|apply Hacc; split; [lia|]; apply below_pages; lia]).
  destruct (decide (accessible A (va / PGSIZE))) as [(e & He & Hu)|Hno].
  2: { rewrite (kaddr_none _ _ Hno). exists (-1), 0, k. split_and!; try done.
       - intros x Hx. rewrite decide_False; [done|lia].
       - lia.
       - right. rewrite Z.add_0_r. done. }
  destruct (kaddr_page k l A R _ e HO Hn He Hu) as [-> Hp].
  destruct (page_range kend _ Hp). rewrite (proj2 (Z.eqb_neq (upage e) 0)) by lia.
  replace (va - va / PGSIZE * PGSIZE) with (va mod PGSIZE) by lia.
  set (n := Z.min (PGSIZE - va mod PGSIZE) (zlen p)). assert (Hnpos : 0 < n <= zlen p) by lia.
  assert (Hpg : forall x, va <= x < va + n -> accessible A (x / PGSIZE)).
  { intros x Hx. replace (x / PGSIZE) with (va / PGSIZE); [by exists e|].
    apply (Z.div_unique _ _ _ (x - PGSIZE * (va / PGSIZE))); [left|]; lia. }
  erewrite bind_run by reflexivity.
  assert (Htk : zlen (take (Z.to_nat n) p) = n) by (unfold zlen in *; rewrite length_take; lia).
  assert (Hdr : zlen (drop (Z.to_nat n) p) = zlen p - n) by (unfold zlen in *; rewrite length_drop; lia).
  destruct (write_user k l A R va e (take (Z.to_nat n) p) HO) as (HO1 & Hs1 & Hr1); [lia|done|lia|].
  rewrite Htk in Hr1. set (k1 := k <| kmemory := _ |>) in *.
  rewrite u32_small by (unfold is_u32, PGSIZE, KERNBASE in *; lia).
  destruct (decide (n = zlen p)) as [Hall|Hmore].
  - replace (drop (Z.to_nat n) p) with (@nil Z) by (symmetry; apply drop_ge; unfold zlen in *; lia).
    exists 0, n, k1. split; [by destruct fuel|]. split_and!; [done|done| |lia|done|by left].
    rewrite <- (take_ge p (Z.to_nat n)) by (unfold zlen in *; lia). exact Hr1.
  - assert (Hnext : va / PGSIZE * PGSIZE + PGSIZE = va + n) by lia. rewrite Hnext.
    assert (Hnd : (va + n) / PGSIZE = va / PGSIZE + 1).
    { rewrite <- Hnext. replace (va / PGSIZE * PGSIZE + PGSIZE) with ((va / PGSIZE + 1) * PGSIZE) by lia. by apply Z.div_mul. }
    destruct (IH (va + n) (drop (Z.to_nat n) p) k1 l A R HO1) as (r & c & k' & E & HO' & Hs' & Hr' & Hc & Hac & Hres);
      rewrite ?Hdr in *; try lia.
    { rewrite length_drop. unfold zlen in *. lia. }
    { intros v Hv. apply Hacc. replace (va + n + (zlen p - n)) with (va + zlen p) in Hv by lia. lia. }
    exists r, (n + c), k'. split; [exact E|]. split_and!; [done|by eapply same_on_trans| |lia| |].
    + eapply delivered_app; [lia|done|exact Hr1|exact Hr'].
    + intros x Hx. destruct (decide (x < va + n)); [apply Hpg; lia|apply Hac; lia].
    + rewrite Z.add_assoc. destruct Hres as [[-> ->]|(-> & ? & ?)]; [left|right]; split_and!; try done; lia.
Qed.
End copyout.

(** ** The user memory after each call *)

Section results.
Context (kend kdata : Z) (Hkend : KERNBASE < kend).
Implicit Types (k : kmem) (m : memory) (l R : list Z) (A : aspace).
Abbreviation own := (own kend).
Abbreviation page := (page kend).

Lemma va_page va : 0 <= va < KERNBASE ->
  0 <= va / PGSIZE < UPAGES /\ 0 <= va mod PGSIZE < PGSIZE /\ va = va / PGSIZE * PGSIZE + va mod PGSIZE.
Proof.
  intros H. pose proof (Z.mod_pos_bound va PGSIZE ltac:(done)). pose proof (Z.div_mod va PGSIZE ltac:(done)).
  split_and!; [apply Z.div_pos; [lia|done]|apply Z.div_lt_upper_bound; [done|]|lia..].
  unfold KERNBASE, PGSIZE in *. lia.
Qed.

Lemma uread_same m m' A va : same_on (upages A) m m' -> 0 <= va < KERNBASE -> uread m' A va = uread m A va.
Proof.
  intros Hs Hva. destruct (va_page va Hva) as (Hn & Ho & _). unfold uread.
  destruct (pm A !! (va / PGSIZE)) as [e|] eqn:He; [|done]. cbn. f_equal.
  apply (Hs (upage e)); [|lia]. apply upages_elem. exists (va / PGSIZE), e. split_and!; [done|lia|done].
Qed.

(** A new page reads as zeros and the old ones as before. *)
Lemma grown_uread A A' m m' v N va : grown kend A A' m m' v N -> 0 <= va < KERNBASE ->
  uread m' A' va = if decide (v * PGSIZE <= va < N * PGSIZE) then Some 0 else uread m A va.
Proof.
  intros [Hs Hg] Hva. destruct (va_page va Hva) as (Hn & Ho & Hd). specialize (Hg (va / PGSIZE)).
  assert (Hiff : v <= va / PGSIZE < N <-> v * PGSIZE <= va < N * PGSIZE) by (unfold PGSIZE in *; lia).
  destruct (decide (v <= va / PGSIZE < N)) as [Hin|Hout]; destruct (decide (v * PGSIZE <= _ < _)); try tauto.
  - destruct Hg as (p & He & Hp & Hz). unfold uread. rewrite He. cbn. f_equal.
    rewrite (upage_entry kend p _ Hp) by done. apply Hz. lia.
  - rewrite <- (uread_same m m' A va Hs Hva). unfold uread. by rewrite Hg.
Qed.

Lemma copied_uread P D D' m m' N va : no_user (pm D) -> copied kend P D D' m m' 0 N -> 0 <= va < KERNBASE ->
  uread m' D' va = if decide (va < N * PGSIZE) then uread m P va else None.
Proof.
  intros Hno Hg Hva. destruct (va_page va Hva) as (Hn & Ho & Hd). specialize (Hg (va / PGSIZE)).
  assert (Hiff : va / PGSIZE < N <-> va < N * PGSIZE) by (unfold PGSIZE in *; lia).
  destruct (decide (0 <= va / PGSIZE < N)) as [Hin|Hout]; destruct (decide (va < _)); try lia; unfold uread.
  - destruct Hg as (e & p & He & He' & Hp & Hb). rewrite He, He'. cbn. f_equal.
    rewrite (upage_entry kend p _ Hp), Hb; [done|lia|]. rewrite PTE_FLAGS_eq. by apply Z.mod_pos_bound.
  - rewrite Hg. destruct (pm D !! (va / PGSIZE)) eqn:E; [|done]. apply Hno in E. lia.
Qed.

Lemma pages_upto_fuel n : 0 <= n -> pages_upto n <= n / PGSIZE + 1.
Proof. intros H. unfold pages_upto, PGSIZE. Z.div_mod_to_equations. lia. Qed.

Lemma allocuvm_ok oldsz newsz k l A R : own k l A (upages A ++ R) -> 0 <= oldsz <= newsz -> newsz < KERNBASE ->
  (forall n, pages_upto oldsz <= n < pages_upto newsz -> pm A !! n = None) ->
  exists r k' l' A', allocuvm kend (dir A) oldsz newsz k = Ok r k' /\
    own k' l' A' (upages A' ++ R) /\ same_on R (kmemory k) (kmemory k') /\
    dir A' = dir A /\ tabs A ⊆ tabs A' /\ all_pages A' l' ≡ₚ all_pages A l /\
    (r = newsz /\ grown kend A A' (kmemory k) (kmemory k') (pages_upto oldsz) (pages_upto newsz) \/
     r = 0 /\ undone A A' (kmemory k) (kmemory k') (pages_upto oldsz) (pages_upto newsz) /\
     few A l (pages_upto oldsz) (pages_upto newsz)).
Proof.
  intros HO Ho Hn Hnone. unfold allocuvm.
  rewrite (proj2 (Z.leb_gt KERNBASE newsz)), (proj2 (Z.ltb_ge newsz oldsz)) by lia.
  rewrite PGROUNDUP_pages by lia. apply alloc_loop_ok; [done|done|lia|lia|lia| |done|lia].
  pose proof (pages_upto_fuel newsz). pose proof (pages_upto_nonneg oldsz).
  rewrite Nat2Z.inj_succ, Z2Nat.id by (apply Z.div_pos; [lia|done]). lia.
Qed.

Lemma copied_flags P D D' m m' N n e : repr kend m P -> copied kend P D D' m m' 0 N -> 0 <= n < N ->
  pm P !! n = Some e -> exists e', pm D' !! n = Some e' /\ PTE_FLAGS e' = PTE_FLAGS e.
Proof.
  intros HR Hg Hn He. specialize (Hg n). rewrite decide_True in Hg by done.
  destruct Hg as (e0 & p & He0 & He' & Hp & _). assert (e0 = e) as -> by congruence. eexists. split; [done|].
  destruct (r_pm _ _ _ HR _ _ He) as (_ & _ & Hodd).
  destruct (page_V2P kend p Hp) as (_ & Hm & H0 & H1).
  assert (Hf : 0 <= PTE_FLAGS e < PGSIZE) by (rewrite PTE_FLAGS_eq; by apply Z.mod_pos_bound).
  destruct (entry_ok (V2P p) (PTE_FLAGS e)) as (_ & _ & _ & ->); [done|done|unfold PHYSTOP in *; lia|done|].
  apply Z.bits_inj'. intros i Hi. rewrite Z.lor_spec. destruct (decide (i = 0)) as [->|Hne].
  - rewrite PTE_FLAGS_eq, !Z.bit0_odd. cbn. rewrite orb_true_r. symmetry.
    rewrite Zodd_mod. apply Z.eqb_eq. rewrite <- Hodd. unfold PGSIZE. Z.div_mod_to_equations. lia.
  - rewrite (Z.bits_above_log2 1 i) by (cbn; lia). apply orb_false_r.
Qed.

Lemma copyuvm_ok k l P R sz :
  kdata mod PGSIZE = 0 -> KERNLINK < kdata < KERNBASE + PHYSTOP ->
  own k l P (upages P ++ R) -> 0 <= sz <= KERNBASE ->
  (forall n, 0 <= n < pages_upto sz -> is_Some (pm P !! n)) ->
  exists r k' l', copyuvm kend kdata (dir P) sz k = Ok r k' /\
    same_on (spare P R) (kmemory k) (kmemory k') /\
    ((exists D D0, r = dir D /\ r <> 0 /\ own k' l' D (upages D ++ spare P R) /\ all_pages D l' ≡ₚ l /\
        pm D0 = kernel_map kdata /\ copied kend P D0 D (kmemory k) (kmemory k') 0 (pages_upto sz)) \/
     (r = 0 /\ kmem_ok kend k' l' /\ l' ≡ₚ l /\ Z.of_nat (length l) <= 1025 + pages_upto sz)).
Proof.
  intros Hd Hr HO Hsz Hall. unfold copyuvm.
  pose proof (pages_upto_nonneg sz ltac:(lia)) as H0.
  destruct (setupkvm_ok kend kdata Hkend Hd Hr k l (spare P R)) as (d & k1 & l1 & E1 & Hs1 & Hcase).
  { apply HO. } { apply HO. }
  { intros q. unfold spare. rewrite elem_of_app. intros [Hq|Hq]; [by apply (r_pages _ _ _ (o_repr _ _ _ _ _ HO))|by apply (o_pages _ _ _ _ _ HO)]. }
  erewrite bind_run by exact E1. destruct Hcase as [(D0 & -> & Hnz & HO1 & Hl1 & Hpm)|(-> & HK & Hl & Hfew)].
  - rewrite (proj2 (Z.eqb_neq _ _) Hnz).
    pose proof (kernel_no_user kdata ltac:(lia)) as Hno. rewrite <- Hpm in Hno.
    pose proof (no_user_upages D0 Hno) as Hup.
    destruct (copy_loop_ok kend Hkend (S (Z.to_nat (sz / PGSIZE + 1))) 0 k1 l1 D0 P R sz)
      as (r & k' & l' & E & Hs & Hcase); [by rewrite Hup| |done|lia| |done| |].
    + eapply repr_frame; [apply HO|]. eapply same_on_sub; [exact Hs1|]. intros p Hp. unfold spare. by apply elem_of_app; left.
    + pose proof (pages_upto_fuel sz). rewrite Nat2Z.inj_succ, Z2Nat.id; [lia|].
      apply Z.add_nonneg_nonneg; [apply Z.div_pos; [lia|done]|done].
    + intros n Hn. destruct (pm D0 !! n) eqn:En; [|done]. apply Hno in En.
      pose proof (pages_upto_mono sz KERNBASE). change (pages_upto KERNBASE) with UPAGES in *. lia.
    + exists r, k', l'. split; [exact E|]. split; [by eapply same_on_trans|].
      unfold all_pages in Hcase. rewrite Hup in Hcase. cbn [app] in Hcase.
      destruct Hcase as [(D & -> & HO' & Hdd & Hl & _ & Hc)|(-> & HK & Hl & Hfew)]; [left|right].
      * exists D, D0. split_and!; [by rewrite Hdd|done|done|unfold all_pages; by rewrite Hl|done|].
        intros n. specialize (Hc n). case_decide; [|done]. destruct Hc as (e & p & He & HeD & Hp & Hb).
        exists e, p. split_and!; [done..|]. intros o Ho. rewrite Hb by done. apply (Hs1 (upage e)); [|lia].
        unfold spare. rewrite !elem_of_app. right; left. apply upages_elem. exists n, e. split_and!; [done| |done].
        pose proof (pages_upto_mono sz KERNBASE). change (pages_upto KERNBASE) with UPAGES in *. lia.
      * split_and!; [done|done|by rewrite Hl|]. unfold few in Hfew. rewrite Hl1 in Hfew. lia.
  - exists 0, k1, l1. split_and!; [done|done|]. right. split_and!; [done..|lia].
Qed.
End results.

(** ** A process right after boot *)

Lemma entry_user pa : (Z.land (entry pa (Z.lor PTE_W PTE_U)) PTE_U =? 0) = false.
Proof.
  apply Z.eqb_neq. intros H. apply (f_equal (fun x => Z.testbit x 2)) in H. revert H.
  unfold entry. rewrite Z.land_spec, !Z.lor_spec. cbn. by rewrite orb_true_r.
Qed.

Section boot.
Abbreviation kend0 := 2148619432.
Abbreviation kdata0 := 2148564992.

(** The pages of the last 32 megabytes of memory. *)
Lemma boot_many l n : 0 <= n <= 8192 -> (forall v, v ∈ l <-> page kend0 v) -> NoDup l -> n <= zlen l.
Proof.
  intros Hn Hl HN. set (f := fun n => KERNBASE + PHYSTOP - PGSIZE * (n + 1)).
  assert (HNf : NoDup (f <$> seqZ 0 n)).
  { apply NoDup_fmap_2; [intros a b; unfold f, PGSIZE; lia|]. apply NoDup_seqZ. }
  assert (Hsub : f <$> seqZ 0 n ⊆+ l).
  { apply NoDup_submseteq; [done|]. intros v (i & -> & Hi%elem_of_seqZ)%list_elem_of_fmap. apply Hl.
    unfold page, f, KERNBASE, PHYSTOP, PGSIZE. split_and!; [|lia..]. Z.div_mod_to_equations. lia. }
  apply submseteq_length in Hsub. rewrite length_fmap, length_seqZ in Hsub. unfold zlen. lia.
Qed.

Lemma two_pages P e0 e1 : pm P !! 0 = Some e0 -> pm P !! 1 = Some e1 ->
  (forall n e, pm P !! n = Some e -> 0 <= n) -> (forall n, 2 <= n < UPAGES -> pm P !! n = None) ->
  length (upages P) = 2%nat.
Proof.
  intros H0 H1 Hpos H2. rewrite (user_delete P 0 e0), (user_delete (set_pm 0 0 P) 1 e1); [|cbn; by rewrite lookup_delete_ne|lia|done|lia].
  cbn [length]. rewrite user_none; [done|]. cbn. intros n e He Hn.
  apply lookup_delete_Some in He as [Hn1 [Hn0 He]%lookup_delete_Some]. pose proof (Hpos n e He).
  rewrite H2 in He; [done|lia].
Qed.

(** An address space of two pages, with more than 4096 pages left. *)
Lemma boot_process : exists k l P, own kend0 k l P (upages P ++ []) /\
  (forall n, 0 <= n < 2 -> exists p, pm P !! n = Some (entry (V2P p) (Z.lor PTE_W PTE_U))) /\
  (forall n, 2 <= n < UPAGES -> pm P !! n = None) /\ 4096 <= zlen l /\
  (forall va, 0 <= va < 8192 -> uread (kmemory k) P va = Some 0).
Proof.
  destruct (kinit_ok kend0 ltac:(vm_compute; split; discriminate) (fun _ => 0) false) as (k0 & l0 & _ & HK & _ & Hl).
  pose proof HK as [_ HN _].
  assert (H8 : 8192 <= zlen l0) by (apply boot_many; [lia|done|done]). unfold zlen in *.
  destruct (setupkvm_ok kend0 kdata0 eq_refl eq_refl ltac:(split; reflexivity) k0 l0 []) as (r & k1 & l1 & _ & _ & Hr);
    [done|by rewrite app_nil_r|by intros q ?%elem_of_nil|].
  destruct Hr as [(A & -> & _ & HO & Hp & Hpm)|(_ & _ & _ & ?)]; [|lia].
  pose proof (kernel_no_user kdata0 ltac:(split; reflexivity)) as Hno. rewrite <- Hpm in Hno.
  destruct (allocuvm_ok kend0 eq_refl 0 8192 k1 l1 A []) as (r & k2 & l2 & P & _ & HO2 & _ & _ & _ & Hl2 & Hr).
  - by rewrite (no_user_upages A Hno).
  - lia.
  - unfold KERNBASE. lia.
  - intros n Hn. destruct (pm A !! n) eqn:En; [|done]. apply Hno in En. change (pages_upto 8192) with 2 in Hn. lia.
  - destruct Hr as [[_ Hg]|(_ & _ & Hf)].
    2: { unfold few in Hf. rewrite Hp in Hf. change (pages_upto 0) with 0 in Hf. change (pages_upto 8192) with 2 in Hf. lia. }
    assert (H01 : forall n, 0 <= n < 2 -> exists p, pm P !! n = Some (entry (V2P p) (Z.lor PTE_W PTE_U))).
    { intros n Hn. destruct Hg as [_ Hg]. specialize (Hg n). change (pages_upto 0) with 0 in Hg. change (pages_upto 8192) with 2 in Hg.
      rewrite decide_True in Hg by lia. destruct Hg as (p & Hg & _). eauto. }
    assert (H2p : forall n, 2 <= n < UPAGES -> pm P !! n = None).
    { intros n Hn. destruct Hg as [_ Hg]. specialize (Hg n).
      rewrite decide_False in Hg by (change (pages_upto 8192) with 2; lia). rewrite Hg.
      destruct (pm A !! n) eqn:En; [|done]. apply Hno in En. lia. }
    exists k2, l2, P. split; [done|]. split; [exact H01|]. split; [exact H2p|]. split.
    + assert (Hlen : length (all_pages P l2) = length l0).
      { rewrite Hl2. unfold all_pages. rewrite (no_user_upages A Hno). cbn [app]. by rewrite Hp. }
      unfold all_pages in Hlen. rewrite !length_app in Hlen.
      pose proof (tables_few kend0 _ _ (o_repr _ _ _ _ _ HO2)).
      destruct (H01 0) as [p0 H0]; [lia|]. destruct (H01 1) as [p1 H1]; [lia|].
      rewrite (two_pages P _ _ H0 H1) in Hlen; [lia| |exact H2p].
      intros n e He. by apply (pm_nonneg kend0 _ _ _ _ (o_repr _ _ _ _ _ HO2)) in He as [? _].
    + intros va Hva. rewrite (grown_uread _ _ _ _ _ _ _ _ Hg), decide_True; [done| |unfold KERNBASE; lia].
      change (pages_upto 0) with 0. change (pages_upto 8192) with 2. unfold PGSIZE. lia.
Qed.
End boot.

(** C12: fork's copyuvm gives the child a copy of the parent's memory.  For a parent whose
    pages below [sz] are all present, copyuvm never panics.  Either it returns the
    directory of a page table of its own that reads, at every user address below [sz]
    rounded up, the byte the parent reads, maps nothing above, keeps the flags of every
    page and has the kernel's mappings; all its pages come from the free list and the
    parent's tables and pages hold what they held.  Or it returns 0 with every page it had
    taken back on the free list, which happens only if too few pages were free. *)
Theorem copyuvm_spec (kend kdata : Z) (k : kmem) (l R : list Z) (P : aspace) (sz : Z)
  (Hkend : KERNBASE < kend) (Hal : kdata mod PGSIZE = 0) (Hdata : KERNLINK < kdata < KERNBASE + PHYSTOP)
  (HO : own kend k l P (upages P ++ R)) (Hsz : 0 <= sz <= KERNBASE)
  (Hall : forall n, 0 <= n < pages_upto sz -> is_Some (pm P !! n)) :
  exists r k' l', copyuvm kend kdata (dir P) sz k = Ok r k' /\
    same_on (spare P R) (kmemory k) (kmemory k') /\
    ((exists D, r = dir D /\ r <> 0 /\ own kend k' l' D (upages D ++ spare P R) /\ all_pages D l' ≡ₚ l /\
        (forall va, 0 <= va < KERNBASE ->
           uread (kmemory k') D va = if decide (va < pages_upto sz * PGSIZE) then uread (kmemory k) P va else None) /\
        (forall n e, 0 <= n < pages_upto sz -> pm P !! n = Some e ->
           exists e', pm D !! n = Some e' /\ PTE_FLAGS e' = PTE_FLAGS e) /\
        (forall n, KERNBASE / PGSIZE <= n -> pm D !! n = kernel_map kdata !! n)) \/
     (r = 0 /\ kmem_ok kend k' l' /\ l' ≡ₚ l /\ Z.of_nat (length l) <= 1025 + pages_upto sz)).
Proof.
  destruct (copyuvm_ok kend kdata Hkend k l P R sz Hal Hdata HO Hsz Hall) as (r & k' & l' & E & Hs & Hcase).
  exists r, k', l'. split; [exact E|]. split; [exact Hs|].
  destruct Hcase as [(D & D0 & Hr & Hnz & HO' & Hl & Hpm & Hc)|Hfail]; [left|right; exact Hfail].
  exists D. split_and!; [exact Hr|exact Hnz|exact HO'|exact Hl| | |].
  - intros va Hva. apply (copied_uread kend P D0); [|exact Hc|exact Hva]. rewrite Hpm. by apply kernel_no_user.
  - intros n e Hn He. eapply copied_flags; [apply HO|exact Hc|exact Hn|exact He].
  - intros n Hn. specialize (Hc n). rewrite decide_False, Hpm in Hc; [exact Hc|].
    pose proof (pages_upto_mono sz KERNBASE). change (pages_upto KERNBASE) with (KERNBASE / PGSIZE) in *. lia.
Qed.

Lemma copyuvm_spec_witness : exists k P k' D l',
  copyuvm 2148619432 2148564992 (dir P) 5000 k = Ok (dir D) k' /\ dir D <> 0 /\
  own 2148619432 k' l' D (upages D ++ spare P []) /\
  uread (kmemory k') D 4999 = Some 0 /\ uread (kmemory k') D 8192 = None.
Proof.
  destruct boot_process as (k & l & P & HO & Hin & _ & Hmany & Hz).
  destruct (copyuvm_spec 2148619432 2148564992 k l [] P 5000 eq_refl eq_refl ltac:(split; reflexivity) HO)
    as (r & k' & l' & E & Hs & Hcase).
  - unfold KERNBASE. lia.
  - intros n Hn. change (pages_upto 5000) with 2 in Hn. destruct (Hin n Hn) as [p Hp]. rewrite Hp. eauto.
  - exists k, P, k'. destruct Hcase as [(D & -> & Hnz & HO' & _ & Hb & _)|(_ & _ & _ & Hfew)].
    + exists D, l'. split_and!; [exact E|exact Hnz|exact HO'| |].
      * rewrite Hb by (unfold KERNBASE; lia). change (pages_upto 5000) with 2. rewrite decide_True by (unfold PGSIZE; lia).
        apply Hz. lia.
      * rewrite Hb by (unfold KERNBASE; lia). change (pages_upto 5000) with 2. rewrite decide_False by (unfold PGSIZE; lia).
        reflexivity.
    + exfalso. change (pages_upto 5000) with 2 in Hfew. unfold zlen in Hmany. lia.
Defined.

(** C21: allocuvm grows a process to [newsz] bytes.  A size that reaches the kernel is
    refused with 0 and a smaller size returns the old one, and nothing changes.  Otherwise
    either it returns [newsz], the new pages read as zeros and every other user address
    reads as before, or it returns 0, only when too few pages are free, and the mappings
    and the user memory are as before the call.  No page is lost in any case: the tables,
    the user pages and the free list together are the same pages. *)
Theorem allocuvm_spec (kend : Z) (k : kmem) (l R : list Z) (A : aspace) (oldsz newsz : Z)
  (Hkend : KERNBASE < kend) (HO : own kend k l A (upages A ++ R)) (Hold : 0 <= oldsz) (Hnew : 0 <= newsz)
  (Hnone : forall n, pages_upto oldsz <= n < pages_upto newsz -> n < KERNBASE / PGSIZE -> pm A !! n = None) :
  exists r k' l' A', allocuvm kend (dir A) oldsz newsz k = Ok r k' /\
    own kend k' l' A' (upages A' ++ R) /\ same_on R (kmemory k) (kmemory k') /\
    dir A' = dir A /\ all_pages A' l' ≡ₚ all_pages A l /\
    (KERNBASE <= newsz /\ r = 0 /\ k' = k \/
     newsz < KERNBASE /\ newsz < oldsz /\ r = oldsz /\ k' = k \/
     oldsz <= newsz < KERNBASE /\
       (r = newsz /\ (forall va, 0 <= va < KERNBASE -> uread (kmemory k') A' va =
           if decide (pages_upto oldsz * PGSIZE <= va < pages_upto newsz * PGSIZE) then Some 0
           else uread (kmemory k) A va) \/
        r = 0 /\ pm A' = pm A /\ (forall va, 0 <= va < KERNBASE -> uread (kmemory k') A' va = uread (kmemory k) A va) /\
          Z.of_nat (length (table_pages A ++ l)) <= 1025 + (pages_upto newsz - pages_upto oldsz))).
Proof.
  destruct (Z.leb_spec KERNBASE newsz) as [Hbig|Hsmall]; [|destruct (Z.ltb_spec newsz oldsz) as [Hlt|Hle]].
  - exists 0, k, l, A. unfold allocuvm. rewrite (proj2 (Z.leb_le _ _) Hbig). split_and!; try done. by left.
  - exists oldsz, k, l, A. unfold allocuvm.
    rewrite (proj2 (Z.leb_gt _ _) Hsmall), (proj2 (Z.ltb_lt _ _) Hlt). split_and!; try done. by right; left.
  - destruct (allocuvm_ok kend Hkend oldsz newsz k l A R HO) as (r & k' & l' & A' & E & HO' & Hs & Hd & _ & Hl & Hcase);
      [lia|done| |].
    { intros n Hn. apply Hnone; [done|]. pose proof (pages_upto_mono newsz KERNBASE).
      change (pages_upto KERNBASE) with (KERNBASE / PGSIZE) in *. lia. }
    exists r, k', l', A'. split_and!; try done. right; right. split; [done|].
    destruct Hcase as [[-> Hg]|(-> & [Hsu Hu] & Hfew)]; [left|right]; (split; [done|]).
    + intros va Hva. by apply (grown_uread kend).
    + assert (Hpm : pm A' = pm A).
      { apply map_eq. intros n. rewrite Hu. case_decide; [|done]. symmetry. apply Hnone; [done|].
        pose proof (pages_upto_mono newsz KERNBASE). change (pages_upto KERNBASE) with (KERNBASE / PGSIZE) in *. lia. }
      split; [exact Hpm|]. split; [|exact Hfew]. intros va Hva. rewrite (uread_same _ _ _ _ Hsu Hva). unfold uread. by rewrite Hpm.
Qed.

Lemma allocuvm_spec_witness : exists k A k' A' l',
  allocuvm 2148619432 (dir A) 8000 20000 k = Ok 20000 k' /\ own 2148619432 k' l' A' (upages A' ++ []) /\
  uread (kmemory k') A' 19999 = Some 0 /\ uread (kmemory k') A' 20480 = None.
Proof.
  destruct boot_process as (k & l & A & HO & _ & Hout & Hmany & _).
  destruct (allocuvm_spec 2148619432 k l [] A 8000 20000 eq_refl HO ltac:(lia) ltac:(lia))
    as (r & k' & l' & A' & E & HO' & _ & _ & _ & Hcase).
  { intros n Hn _. change (pages_upto 8000) with 2 in Hn. change (pages_upto 20000) with 5 in Hn. apply Hout. lia. }
  exists k, A, k', A', l'.
  destruct Hcase as [(H & _)|[(_ & H & _)|(_ & [(-> & Hb)|(_ & _ & _ & Hfew)])]];
    [unfold KERNBASE in H; lia|lia| |].
  - change (pages_upto 8000) with 2 in Hb. change (pages_upto 20000) with 5 in Hb.
    split; [exact E|]. split; [exact HO'|]. split.
    + rewrite Hb by (unfold KERNBASE; lia). rewrite decide_True by (unfold PGSIZE; lia). reflexivity.
    + rewrite Hb by (unfold KERNBASE; lia). rewrite decide_False by (unfold PGSIZE; lia).
      unfold uread. change (20480 / PGSIZE) with 5. rewrite Hout by lia. reflexivity.
  - exfalso. change (pages_upto 8000) with 2 in Hfew. change (pages_upto 20000) with 5 in Hfew.
    unfold zlen in Hmany. rewrite length_app in Hfew. lia.
Defined.

(** C22: copyout copies bytes into the memory of a process.  Where the page tables of the
    range exist it returns 0 if every page of the range may be used by the process, and
    then the range reads as the bytes; otherwise it returns -1, and the bytes up to the
    first page that may not be used are copied.  No other user address and no other page
    of the kernel changes, and no page is allocated. *)
Theorem copyout_spec (kend null : Z) (k : kmem) (l R : list Z) (A : aspace) (va : Z) (p : list Z)
  (HO : own kend k l A (upages A ++ R)) (Hva : 0 <= va) (Hend : va + zlen p <= KERNBASE)
  (Htabs : forall n, va / PGSIZE <= n < pages_upto (va + zlen p) -> is_Some (tabs A !! (n / 1024))) :
  exists r c k', copyout null (dir A) va p k = Ok r k' /\ own kend k' l A (upages A ++ R) /\
    same_on R (kmemory k) (kmemory k') /\
    (forall x, 0 <= x < KERNBASE -> uread (kmemory k') A x =
       if decide (va <= x < va + c) then zlookup p (x - va) else uread (kmemory k) A x) /\
    (forall x, va <= x < va + c -> accessible A (x / PGSIZE)) /\
    (r = 0 /\ c = zlen p \/ r = -1 /\ 0 <= c < zlen p /\ ~ accessible A ((va + c) / PGSIZE)).
Proof.
  destruct (copyout_loop_ok kend null (S (length p)) va p k l A R HO Hva Hend ltac:(lia) Htabs)
    as (r & c & k' & E & HO' & Hs & Hd & Hc & Hac & Hcase).
  exists r, c, k'. split; [exact E|]. split; [exact HO'|]. split; [exact Hs|]. split; [exact Hd|]. split; [exact Hac|].
  destruct Hcase as [[? ?]|(? & ? & ?)]; [left|right]; split_and!; auto.
Qed.

Lemma copyout_spec_witness : exists k A r c k',
  copyout 0 (dir A) 4094 [1; 2; 3; 4] k = Ok r k' /\ r = 0 /\ c = 4 /\
  uread (kmemory k') A 4095 = Some 2 /\ uread (kmemory k') A 4096 = Some 3 /\ uread (kmemory k') A 4098 = Some 0.
Proof.
  destruct boot_process as (k & l & A & HO & Hin & _ & _ & Hz).
  destruct (copyout_spec 2148619432 0 k l [] A 4094 [1; 2; 3; 4] HO) as (r & c & k' & E & _ & _ & Hb & _ & Hcase).
  - lia.
  - unfold zlen, KERNBASE. cbn. lia.
  - intros n Hn. change (4094 / PGSIZE) with 0 in Hn. change (pages_upto (4094 + zlen [1; 2; 3; 4])) with 2 in Hn.
    destruct (Hin n Hn) as [p Hp]. apply (r_pm _ _ _ (o_repr _ _ _ _ _ HO) _ _ Hp).
  - exists k, A, r, c, k'. split; [exact E|]. destruct Hcase as [[-> ->]|(_ & Hc & Hno)].
    + split; [reflexivity|]. split; [reflexivity|].
      rewrite !Hb by (unfold KERNBASE; lia). split; [reflexivity|]. split; [reflexivity|]. apply Hz. lia.
    + exfalso. apply Hno. assert (Hn : 0 <= (4094 + c) / PGSIZE < 2).
      { change (zlen [1; 2; 3; 4]) with 4 in Hc. unfold PGSIZE. Z.div_mod_to_equations. lia. }
      destruct (Hin _ Hn) as [q Hq]. eexists. split; [exact Hq|]. apply entry_user.
Defined.

(** C23: no page leaks over the life of an address space.  freevm of a page table puts
    exactly its tables and its user pages back on the free list, and no other page
    changes; and setupkvm, which builds it, either takes its tables from the free list and
    maps only the kernel, or returns 0 with the free list as it was, only if fewer than
    1026 pages are free. *)
Theorem address_space_no_leak (kend kdata : Z)
  (Hkend : KERNBASE < kend) (Hal : kdata mod PGSIZE = 0) (Hdata : KERNLINK < kdata < KERNBASE + PHYSTOP) :
  (forall k l R, kmem_ok kend k l -> NoDup (l ++ R) -> (forall q, q ∈ R -> page kend q) ->
     exists r k' l', setupkvm kend kdata k = Ok r k' /\ same_on R (kmemory k) (kmemory k') /\
       ((exists A, r = dir A /\ r <> 0 /\ own kend k' l' A R /\ table_pages A ++ l' ≡ₚ l /\
           pm A = kernel_map kdata /\ upages A = []) \/
        (r = 0 /\ kmem_ok kend k' l' /\ l' ≡ₚ l /\ (length l <= 1025)%nat))) /\
  (forall k l A R, own kend k l A (upages A ++ R) ->
     exists k' l', freevm kend (dir A) k = Ok tt k' /\ kmem_ok kend k' l' /\
       l' ≡ₚ upages A ++ table_pages A ++ l /\ same_on R (kmemory k) (kmemory k')).
Proof.
  split; [|by apply freevm_ok]. intros k l R HK HN HP.
  destruct (setupkvm_ok kend kdata Hkend Hal Hdata k l R HK HN HP) as (r & k' & l' & E & Hs & Hcase).
  exists r, k', l'. split; [exact E|]. split; [exact Hs|]. destruct Hcase as [(A & ? & ? & ? & ? & Hpm)|Hf]; [left|by right].
  exists A. split_and!; [done..|]. apply no_user_upages. rewrite Hpm. by apply kernel_no_user.
Qed.

Lemma address_space_no_leak_witness : exists k l A k' l',
  own 2148619432 k l A (upages A) /\ freevm 2148619432 (dir A) k = Ok tt k' /\
  kmem_ok 2148619432 k' l' /\ l' ≡ₚ upages A ++ table_pages A ++ l.
Proof.
  destruct boot_process as (k & l & A & HO & _).
  destruct (address_space_no_leak 2148619432 2148564992 eq_refl eq_refl ltac:(split; reflexivity)) as [_ Hf].
  destruct (Hf k l A [] HO) as (k' & l' & E & HK & Hl & _).
  rewrite app_nil_r in HO. exists k, l, A, k', l'. auto.
Defined.
