(* ===== verification/Exec.v ===== *)
(** * exec

    exec.c: a program file becomes the memory of the process, with its arguments on the stack.
    Building the new address space is [exec_image], on the page tables of Vm.v, in any state
    that has the memory as a part.  switchuvm, which loads registers, and the message of a
    failed exec are left out. *)

From S2P Require Import Prelude CString ProcTable Proc Bytes Bio Log Blocks LogBlocks Fs Kalloc Pipe File SysFile Vm.
From stdpp Require Import gmap.
#[local] Open Scope Z_scope.

(** ** Program files (elf.h) *)

Definition ELF_MAGIC : Z := 1179403647.
Definition ELF_PROG_LOAD : Z := 1.
Definition elfhdr_size : Z := 52.
Definition e_magic (h : list Z) : Z := fget 4 h 0.
Definition e_entry (h : list Z) : Z := fget 4 h 24.
Definition e_phoff (h : list Z) : Z := fget 4 h 28.
Definition e_phnum (h : list Z) : Z := fget 2 h 44.
Definition proghdr_size : Z := 32.
Definition p_type (h : list Z) : Z := fget 4 h 0.
Definition p_off (h : list Z) : Z := fget 4 h 4.
Definition p_vaddr (h : list Z) : Z := fget 4 h 8.
Definition p_filesz (h : list Z) : Z := fget 4 h 16.
Definition p_memsz (h : list Z) : Z := fget 4 h 20.

Record image := mkimage { im_pgdir : Z; im_sz : Z; im_entry : Z; im_sp : Z }.

(** ** The new address space *)

Section image.
Context (kend kdata null : Z).

(** The argument strings; their number, the stack pointer and their addresses. *)
Fixpoint push_args (pgdir : Z) (argv : list (list Z)) (argc sp : Z) (ptrs : list Z) : M kmem (option (Z * Z * list Z)) :=
  match argv with
  | [] => mret (Some (argc, sp, ptrs))
  | s :: argv =>
      if Z.of_nat MAXARG <=? argc then mret None else
      let sp := Z.land (u32 (sp - (zlen s + 1))) (Z.lnot 3) in
      r ← copyout null pgdir sp (s ++ [0]);
      if r <? 0 then mret None else push_args pgdir argv (argc + 1) sp (ptrs ++ [sp])
  end.

(** The size and the stack pointer. *)
Definition exec_stack (pgdir sz : Z) (argv : list (list Z)) : M kmem (option (Z * Z)) :=
  let sz := PGROUNDUP sz in
  sz ← allocuvm kend pgdir sz (u32 (sz + 2 * PGSIZE));
  if sz =? 0 then mret None else
  clearpteu pgdir (u32 (sz - 2 * PGSIZE));;
  o ← push_args pgdir argv 0 sz [];
  match o with
  | None => mret None
  | Some (argc, sp, ptrs) =>
      let ustack := [4294967295; argc; u32 (sp - (argc + 1) * 4)] ++ ptrs ++ [0] in
      let sp := u32 (sp - (3 + argc + 1) * 4) in
      r ← copyout null pgdir sp (bytes_of ustack);
      if r <? 0 then mret None else mret (Some (sz, sp))
  end.

(** The file is read in a state [T] that the memory is a part of. *)
Context {T : Type} `{HasMemory T} (readi : Z -> Z -> M T (option (list Z))).

(** readi() of exactly [n] bytes. *)
Definition read_exact (off n : Z) : M T (option (list Z)) :=
  r ← readi off n;
  match r with
  | Some bs => mret (if zlen bs =? n then Some bs else None)
  | None => mret None
  end.

(** [None] is the label [bad]. *)
Fixpoint load_segments (n : nat) (pgdir off sz : Z) : M T (option Z) :=
  match n with
  | O => mret (Some sz)
  | S n =>
      r ← read_exact off proghdr_size;
      match r with
      | None => mret None
      | Some ph =>
          if negb (p_type ph =? ELF_PROG_LOAD) then load_segments n pgdir (u32 (off + proghdr_size)) sz
          else if p_memsz ph <? p_filesz ph then mret None
          else if u32 (p_vaddr ph + p_memsz ph) <? p_vaddr ph then mret None
          else
            sz ← inmem (allocuvm kend pgdir sz (u32 (p_vaddr ph + p_memsz ph)));
            if sz =? 0 then mret None
            else if negb (p_vaddr ph mod PGSIZE =? 0) then mret None
            else
              r ← loaduvm readi pgdir (p_vaddr ph) (p_off ph) (p_filesz ph);
              if r <? 0 then mret None else load_segments n pgdir (u32 (off + proghdr_size)) sz
      end
  end.

(** [release] gives the file back: before the stack is made, or at [bad]. *)
Definition exec_image (release : M T unit) (argv : list (list Z)) : M T (option image) :=
  r ← read_exact 0 elfhdr_size;
  match r with
  | None => release;; mret None
  | Some elf =>
      if negb (e_magic elf =? ELF_MAGIC) then release;; mret None else
      pgdir ← inmem (setupkvm kend kdata);
      if pgdir =? 0 then release;; mret None else
      o ← load_segments (Z.to_nat (e_phnum elf)) pgdir (e_phoff elf) 0;
      match o with
      | None => inmem (freevm kend pgdir);; release;; mret None
      | Some sz =>
          release;;
          o ← inmem (exec_stack pgdir sz argv);
          match o with
          | None => inmem (freevm kend pgdir);; mret None
          | Some (sz, sp) => mret (Some (mkimage pgdir sz (e_entry elf) sp))
          end
      end
  end.
End image.

(** ** The call *)

(** The files, with the memory that pipes and page tables share, and the process that calls. *)
Record xst := mkxst { x_k : kst; x_proc : proc }.
#[export] Instance xst_eta : Eta xst := fun x => mkxst (x_k x) (x_proc x).
Definition x_mem (x : xst) : kmem := fkmem (k_files (x_k x)).

#[export] Instance xst_memory : HasMemory xst :=
  {| mem_of := x_mem; with_mem k x := x <| x_k := (x_k x) <| k_files := (k_files (x_k x)) <| fkmem := k |> |> |> |}.
#[export] Instance xst_memory_laws : HasMemoryLaws xst.
Proof. split; by intros [ [ [] ] ]. Qed.

Definition onk {A} (m : M kst A) : M xst A := fun x =>
  match m (x_k x) with
  | Ok a k => Ok a (x <| x_k := k |>)
  | Panic msg => Panic msg
  end.

(** What is behind the last slash of the path. *)
Fixpoint last_name (last s : list Z) : list Z :=
  match s with
  | [] => last
  | c :: s => if c =? 0 then last else last_name (if c =? SLASH then s else last) s
  end.

Section exec.
Context (kend kdata null : Z) (sb : superblock) (self : Z).
Context (devread : Z -> option (Z -> Z -> M (fs logst) (option (list Z)))) (junk : list Z).
#[local] Instance exec_blocks : BlockDev logst := log_blocks_dev self.

Definition exec_commit (path : list Z) (im : image) : M xst Z :=
  modify (fun x => x <| x_proc := (x_proc x) <| name := safestrcpy16 (name (x_proc x)) (last_name path path) |> |>);;
  oldpgdir ← gets (fun x => pgdir (x_proc x));
  modify (fun x => x <| x_proc := (x_proc x) <| pgdir := im_pgdir im |> <| proc_sz := im_sz im |>
    <| tf := (tf (x_proc x)) <| tf_eip := im_entry im |> <| tf_esp := im_sp im |> |> |>);;
  inmem (freevm kend oldpgdir);;
  mret 0.

Definition exec (path : list Z) (argv : list (list Z)) : M xst Z :=
  onk (onfs fbegin_op);;
  cwd ← gets (fun x => k_cwd (x_k x));
  r ← onk (onfs (namei sb self devread cwd path junk));
  match r with
  | None => onk (onfs (fend_op self));; mret (-1)
  | Some ip =>
      onk (onfs (ilock sb self ip));;
      o ← exec_image kend kdata null (fun off n => onk (onfs (readi sb devread ip off n)))
            (onk (onfs (iunlockput sb self ip));; onk (onfs (fend_op self))) argv;
      match o with
      | None => mret (-1)
      | Some im => exec_commit path im
      end
  end.
End exec.
