(* ===== verification/ExecSpec.v ===== *)
(** * The memory of a new program

    exec_image of exec.c against the page tables: the segments of the program file are in
    place with zeros after them, the page below the stack cannot be used, the arguments are on
    the stack as main() expects them, and on every failure all pages are free again. *)

From S2P Require Import Prelude CString Bytes FsDemo Kalloc SysFile Vm VmSpec Exec.
From stdpp Require Import gmap.
#[local] Open Scope Z_scope.
#[local] Opaque memset memmove store_word kernel_map.

(** Reading a file with these bytes: all that is asked for, or less at its end.  [I] is what
    the file system needs for it; the memory is not touched. *)
Record reads_file {T} `{HasMemory T} (c : list Z) (readi : Z -> Z -> M T (option (list Z))) (I : T -> Prop) : Prop := mkreads_file {
  rf_read : forall off n t, is_u32 off -> is_u32 n -> I t ->
    exists r t', readi off n t = Ok r t' /\ mem_of t' = mem_of t /\ I t' /\
      match r with
      | Some bs => if decide (off + n <= zlen c) then bs = slice c off n else zlen bs < n
      | None => zlen c < off + n
      end;
  rf_mem : forall k t, I t -> I (with_mem k t) }.

Section load.
Context (kend : Z) (Hkend : KERNBASE < kend) {T : Type} {HT : HasMemory T} {HL : HasMemoryLaws T}.
Context (c : list Z) (readi : Z -> Z -> M T (option (list Z))) (I : T -> Prop).
Context (Hreads : reads_file c readi I) (Hc : zlen c <= 2 ^ 31).
Implicit Types (t : T) (k : kmem) (m : memory) (l R : list Z) (A : aspace).
Abbreviation own := (own kend).

(** The bytes of the file from [off] on are at [addr + i] up to [addr + sz]. *)
Definition filled A (m m' : memory) (addr off i sz : Z) : Prop :=
  forall x, 0 <= x < KERNBASE -> uread m' A x = if decide (addr + i <= x < addr + sz) then Some (zget c (off + (x - addr))) else uread m A x.

Lemma slice_lookup (off n j : Z) : 0 <= off -> off + n <= zlen c -> 0 <= j < n -> zlookup (slice c off n) j = Some (zget c (off + j)).
Proof using.
  intros Ho Hn Hj. unfold slice, zget, zlookup. rewrite !decide_True by lia. rewrite lookup_take_lt, lookup_drop by lia.
  replace (Z.to_nat off + Z.to_nat j)%nat with (Z.to_nat (off + j)) by lia. unfold zlen in Hn.
  destruct (lookup_lt_is_Some_2 c (Z.to_nat (off + j))) as [b Hb]; [lia|]. by rewrite Hb.
Qed.

Lemma load_loop_ok fuel : forall i t l A R addr off sz, I t -> own (mem_of t) l A (upages A ++ R) -> 0 <= addr -> addr mod PGSIZE = 0 -> 0 <= sz -> addr + sz <= KERNBASE ->
  (forall n, addr / PGSIZE <= n < pages_upto (addr + sz) -> is_Some (pm A !! n)) -> 0 <= i -> i mod PGSIZE = 0 -> 0 <= off -> is_u32 (off + i) ->
  pages_upto sz - i / PGSIZE < Z.of_nat fuel ->
  exists r t', load_loop fuel readi (dir A) addr off i sz t = Ok r t' /\ I t' /\ own (mem_of t') l A (upages A ++ R) /\ same_on R (kmemory (mem_of t)) (kmemory (mem_of t')) /\
    (r = 0 /\ (sz <= i \/ off + sz <= zlen c) /\ filled A (kmemory (mem_of t)) (kmemory (mem_of t')) addr off i sz \/ r = -1 /\ 0 < sz /\ zlen c < off + sz).
Proof.
  induction fuel as [|fuel IH]; intros i t l A R addr off sz HI HO Ha0 Ham Hs0 Hak Hpm Hi Him Hof Hoi Hf.
  { exists 0, t. split; [done|]. split; [done|]. split; [done|]. split; [done|]. left. split; [done|].
    assert (sz <= i) by (pose proof (below_pages (i / PGSIZE) sz) as Hb; pose proof (Z.div_mod i PGSIZE ltac:(done)); lia).
    split; [by left|]. intros x Hx. rewrite decide_False; [done|lia]. }
  cbn [load_loop]. destruct (Z.leb_spec sz i) as [Hle|Hlt].
  { exists 0, t. split; [done|]. split; [done|]. split; [done|]. split; [done|]. left. split; [done|]. split; [by left|]. intros x Hx. rewrite decide_False; [done|lia]. }
  rewrite (u32_small (addr + i)) by (unfold is_u32, KERNBASE in *; lia). set (n0 := (addr + i) / PGSIZE).
  pose proof (Z.div_mod addr PGSIZE ltac:(done)) as Da. pose proof (Z.div_mod i PGSIZE ltac:(done)) as Di.
  assert (En : addr + i = n0 * PGSIZE) by (unfold n0; replace (addr + i) with ((addr / PGSIZE + i / PGSIZE) * PGSIZE) by lia; by rewrite Z.div_mul).
  assert (Hn0 : 0 <= n0 < UPAGES) by (unfold KERNBASE, PGSIZE in *; lia).
  destruct (Hpm n0) as [e He].
  { split; [unfold n0; apply Z.div_le_mono; [done|lia]|]. apply below_pages. lia. }
  destruct (parent_entry kend (mem_of t) A n0 e (o_repr _ _ _ _ _ HO) He ltac:(lia)) as (tb & Ew & Hnz & El & _). rewrite En.
  erewrite bind_run by (apply inmem_pure; exact Ew). rewrite (proj2 (Z.eqb_neq _ _) Hnz). erewrite bind_run by (apply inmem_pure; exact El).
  set (n := if sz - i <? PGSIZE then sz - i else PGSIZE). assert (Hn : 0 < n <= PGSIZE /\ n <= sz - i /\ (n = PGSIZE \/ n = sz - i)) by (unfold n; destruct (Z.ltb_spec (sz - i) PGSIZE); unfold PGSIZE in *; lia).
  rewrite (u32_small (off + i)) by done. destruct (rf_read _ _ _ Hreads (off + i) n t Hoi ltac:(unfold is_u32, PGSIZE in *; lia) HI) as (bs & t1 & E1 & Em & HI1 & Hbs). erewrite bind_run by exact E1. rewrite <- Em in HO |- *.
  destruct bs as [bs|]; [|exists (-1), t1; split; [done|]; split; [done|]; split; [done|]; split; [done|]; right; split; [done|]; lia].
  assert (Hbn : zlen bs <= n) by (case_decide; [subst bs; rewrite zlen_slice by (unfold is_u32 in *; lia); lia|lia]).
  assert (Hva : (addr + i) / PGSIZE = n0) by done. assert (Hvm : (addr + i) mod PGSIZE = 0) by (rewrite En; by apply Z.mod_mul).
  destruct (write_user kend (mem_of t1) l A R (addr + i) e bs HO) as (HO1 & Hs1 & Hd1); [unfold KERNBASE, PGSIZE in *; lia|by rewrite Hva|lia|].
  rewrite Hvm, Z.add_0_r in HO1, Hs1, Hd1. fold (upage e). set (k1 := (mem_of t1) <| kmemory := _ |>) in *. erewrite bind_run by (apply (inmem_run (T:=T) _ t1 tt k1); reflexivity).
  pose proof (rf_mem _ _ _ Hreads k1 t1 HI1) as HI2. set (t2 := with_mem k1 t1) in *. assert (Em2 : mem_of t2 = k1) by apply mem_with_mem. rewrite <- Em2 in HO1.
  change (write (kmemory (mem_of t1)) (upage e) bs) with (kmemory k1) in Hs1, Hd1. rewrite <- Em2 in Hs1, Hd1.
  destruct (decide (off + i + n <= zlen c)) as [Hfit|Hout].
  2: { rewrite (proj2 (Z.eqb_neq (zlen bs) n)) by lia. exists (-1), t2. split; [reflexivity|]. split; [done|]. split; [exact HO1|]. split; [exact Hs1|]. right. split; [done|]. lia. }
  subst bs. assert (Eb : zlen (slice c (off + i) n) = n) by (apply zlen_slice; unfold is_u32 in *; lia). rewrite (proj2 (Z.eqb_eq _ _) Eb). cbn [negb]. rewrite u32_small by (unfold is_u32, KERNBASE, PGSIZE in *; lia).
  assert (Hfill : forall x, 0 <= x < KERNBASE -> uread (kmemory (mem_of t2)) A x = if decide (addr + i <= x < addr + i + n) then Some (zget c (off + (x - addr))) else uread (kmemory (mem_of t1)) A x).
  { intros x Hx. etrans; [apply (Hd1 x Hx)|]. rewrite Eb. case_decide; [|done]. rewrite slice_lookup by lia. do 2 f_equal. lia. }
  destruct (Hn) as (_ & _ & [En'|En']).
  - assert (Hdv : (i + PGSIZE) / PGSIZE = i / PGSIZE + 1) by (replace (i + PGSIZE) with (i + 1 * PGSIZE) by lia; by rewrite Z.div_add).
    destruct (IH (i + PGSIZE) t2 l A R addr off sz HI2 HO1) as (r & t' & E & HI' & HO' & Hs' & Hres); try done; try lia.
    { rewrite Zplus_mod, Him. done. }
    { unfold is_u32, PGSIZE in *. lia. }
    exists r, t'. split; [exact E|]. split; [done|]. split; [exact HO'|]. split; [by eapply same_on_trans|]. destruct Hres as [(-> & Hin & Hfl)|]; [left|by right]. split; [done|]. split; [lia|].
    intros x Hx. rewrite (Hfl x Hx), (Hfill x Hx). repeat case_decide; try done; lia.
  - assert (Hend : load_loop fuel readi (dir A) addr off (i + PGSIZE) sz t2 = Ok 0 t2).
    { destruct fuel; [done|]. cbn [load_loop]. destruct (Z.leb_spec sz (i + PGSIZE)); [done|lia]. }
    exists 0, t2. split; [exact Hend|]. split; [done|]. split; [done|]. split; [done|]. left. split; [done|]. split; [lia|]. intros x Hx. rewrite (Hfill x Hx). repeat case_decide; try done; lia.
Qed.

(** *** Segments *)

(** The bytes of the program: a segment's part of the file, over what was there. *)
Definition with_segment (ph : list Z) (img : Z -> Z) : Z -> Z := fun x =>
  if decide (p_vaddr ph <= x < p_vaddr ph + p_filesz ph) then zget c (p_off ph + (x - p_vaddr ph)) else img x.

Fixpoint image_of (n : nat) (off : Z) (img : Z -> Z) : Z -> Z :=
  match n with
  | O => img
  | S n =>
      let ph := slice c off proghdr_size in
      image_of n (off + proghdr_size) (if p_type ph =? ELF_PROG_LOAD then with_segment ph img else img)
  end.

(** The segments are in the file and fit below the kernel; the size they reach to. *)
Fixpoint segments_ok (n : nat) (off sz : Z) : bool :=
  match n with
  | O => true
  | S n =>
      let ph := slice c off proghdr_size in
      (off + proghdr_size <=? zlen c) &&
      (if p_type ph =? ELF_PROG_LOAD then
         (p_filesz ph <=? p_memsz ph) && (p_vaddr ph + p_memsz ph <? KERNBASE) && negb (Z.max sz (p_vaddr ph + p_memsz ph) =? 0) &&
         (p_vaddr ph mod PGSIZE =? 0) && ((p_filesz ph =? 0) || (p_off ph + p_filesz ph <=? zlen c)) &&
         segments_ok n (off + proghdr_size) (Z.max sz (p_vaddr ph + p_memsz ph))
       else segments_ok n (off + proghdr_size) sz)
  end.

Fixpoint segments_size (n : nat) (off sz : Z) : Z :=
  match n with
  | O => sz
  | S n =>
      let ph := slice c off proghdr_size in
      segments_size n (off + proghdr_size) (if p_type ph =? ELF_PROG_LOAD then Z.max sz (p_vaddr ph + p_memsz ph) else sz)
  end.

Lemma segments_size_ge n : forall off sz, sz <= segments_size n off sz.
Proof. induction n as [|n IH]; intros off sz; cbn; [lia|]. etrans; [|apply IH]. destruct (_ =? _); lia. Qed.

(** Not enough pages for an address space of [n] bytes, all its tables included. *)
Definition too_few (pages : list Z) (n : Z) : Prop := zlen pages <= 1025 + pages_upto n.

Lemma too_few_mono pages n n' : n <= n' -> too_few pages n -> too_few pages n'.
Proof using. unfold too_few. intros H%pages_upto_mono. lia. Qed.

(** The pages below [sz] are mapped for the user and hold [img]; nothing is mapped above. *)
Record loaded k l A R (sz : Z) (img : Z -> Z) : Prop := mkloaded {
  ld_own : own k l A (upages A ++ R);
  ld_sz : 0 <= sz < KERNBASE;
  ld_in : forall n, 0 <= n < pages_upto sz -> exists e, pm A !! n = Some e /\ (Z.land e PTE_U =? 0) = false;
  ld_out : forall n, pages_upto sz <= n < UPAGES -> pm A !! n = None;
  ld_mem : forall x, 0 <= x < pages_upto sz * PGSIZE -> uread (kmemory k) A x = Some (img x);
  ld_zero : forall x, pages_upto sz * PGSIZE <= x -> img x = 0 }.

(** The same pages, whatever they are used for. *)
Record same_pages k l A R k' l' A' : Prop := mksame_pages {
  sp_own : own k' l' A' (upages A' ++ R);
  sp_dir : dir A' = dir A;
  sp_all : all_pages A' l' ≡ₚ all_pages A l;
  sp_rest : same_on R (kmemory k) (kmemory k');
  sp_kernel : forall n, UPAGES <= n -> pm A' !! n = pm A !! n }.

Lemma same_pages_trans k l A R k1 l1 A1 k2 l2 A2 : same_pages k l A R k1 l1 A1 -> same_pages k1 l1 A1 R k2 l2 A2 -> same_pages k l A R k2 l2 A2.
Proof. intros [O1 D1 P1 S1 K1] [O2 D2 P2 S2 K2]. split; [done|congruence|by rewrite P2|by eapply same_on_trans|].
  intros n Hn. rewrite K2 by done. by apply K1. Qed.

Lemma pages_upto_le sz : 0 <= sz < KERNBASE -> 0 <= pages_upto sz <= UPAGES /\ sz <= pages_upto sz * PGSIZE.
Proof using. intros H. unfold pages_upto, PGSIZE, KERNBASE in *. Z.div_mod_to_equations. lia. Qed.

Lemma upages_count A N : 0 <= N -> (forall n e, pm A !! n = Some e -> n < UPAGES -> 0 <= n < N) -> Z.of_nat (length (upages A)) <= N.
Proof using.
  intros HN HA. unfold upages. rewrite length_fmap, length_map_to_list, <- size_dom.
  assert (Hs : dom (user A) ⊆ (list_to_set (seqZ 0 N) : gset Z)).
  { intros n Hn. apply elem_of_dom in Hn as [e He]. apply user_lookup in He as [He Hlt]. apply elem_of_list_to_set, elem_of_seqZ. by apply (HA n e). }
  apply subseteq_size in Hs. rewrite size_list_to_set, length_seqZ in Hs by apply NoDup_seqZ. lia.
Qed.

(** Growing, with every outcome of allocuvm. *)
Lemma grow_loaded k l A R sz img newsz : loaded k l A R sz img -> is_u32 newsz ->
  exists r k' l' A', allocuvm kend (dir A) sz newsz k = Ok r k' /\ same_pages k l A R k' l' A' /\
    (r = 0 /\ (KERNBASE <= newsz \/ Z.max sz newsz = 0 \/ too_few (all_pages A l) newsz) \/ r <> 0 /\ r = Z.max sz newsz /\ loaded k' l' A' R r img).
Proof using kend Hkend.
  clear Hreads Hc. intros H Hn. pose proof (ld_own _ _ _ _ _ _ H) as HO. pose proof (ld_sz _ _ _ _ _ _ H) as Hs. unfold is_u32 in Hn.
  destruct (Z.leb_spec KERNBASE newsz) as [Hbig|Hsmall]; [|destruct (Z.ltb_spec newsz sz) as [Hlt|Hle]].
  - exists 0, k, l, A. unfold allocuvm. rewrite (proj2 (Z.leb_le _ _) Hbig). split; [done|]. split; [by split|]. left. split; [done|]. by left.
  - exists sz, k, l, A. unfold allocuvm. rewrite (proj2 (Z.leb_gt _ _) Hsmall), (proj2 (Z.ltb_lt _ _) Hlt). split; [done|]. split; [by split|]. right. split; [lia|]. split; [lia|done].
  - pose proof (pages_upto_le sz Hs) as [Hp1 Hp2]. destruct (pages_upto_le newsz ltac:(lia)) as [Hp3 Hp4]. pose proof (pages_upto_mono sz newsz Hle) as Hm.
    destruct (allocuvm_ok kend Hkend sz newsz k l A R HO) as (r & k' & l' & A' & E & HO' & Hs' & Hd & _ & Hl & Hcase);
      [lia|done|intros n Hnn; apply (ld_out _ _ _ _ _ _ H); lia|].
    exists r, k', l', A'. split; [exact E|]. split.
    { split; try done. intros n Hnk. destruct Hcase as [[_ [_ Hg]]|(_ & [_ Hg] & _)]; specialize (Hg n); by rewrite decide_False in Hg by lia. }
    destruct Hcase as [[-> Hg]|(-> & _ & Hfew)].
    2: { left. split; [done|]. right. right. unfold too_few, few, all_pages, zlen in *. rewrite !length_app in *. assert (Hc' : Z.of_nat (length (upages A)) <= pages_upto sz); [|lia].
         apply upages_count; [lia|]. intros n e He Hnu. pose proof (pm_nonneg kend _ _ _ _ (o_repr _ _ _ _ _ HO) He) as [? _]. split; [done|].
         destruct (decide (n < pages_upto sz)); [done|]. rewrite (ld_out _ _ _ _ _ _ H) in He by lia. done. }
    destruct (decide (newsz = 0)) as [->|Hnz]; [left; split; [done|]; right; left; lia|right]. split; [done|]. split; [lia|].
    assert (Hrd : forall x, 0 <= x < KERNBASE -> uread (kmemory k') A' x = if decide (pages_upto sz * PGSIZE <= x < pages_upto newsz * PGSIZE) then Some 0 else uread (kmemory k) A x)
      by (intros x Hx; by apply (grown_uread kend)).
    destruct Hg as [_ Hg]. split; [done|lia| | | |].
    + intros n Hnn. specialize (Hg n). case_decide; [destruct Hg as (p & Hg & _); eexists; split; [exact Hg|apply entry_user]|]. rewrite Hg. apply (ld_in _ _ _ _ _ _ H). lia.
    + intros n Hnn. specialize (Hg n). rewrite decide_False in Hg by lia. rewrite Hg. apply (ld_out _ _ _ _ _ _ H). lia.
    + intros x Hx. rewrite Hrd by (unfold KERNBASE, PGSIZE in *; lia). case_decide; [by rewrite (ld_zero _ _ _ _ _ _ H) by lia|]. apply (ld_mem _ _ _ _ _ _ H). lia.
    + intros x Hx. apply (ld_zero _ _ _ _ _ _ H). unfold PGSIZE in *. lia.
Qed.

Context (Hbytes : Forall is_u8 c).

Lemma header_field off o j : 0 <= off -> off + proghdr_size <= zlen c -> 0 <= o -> o + Z.of_nat j <= proghdr_size -> 0 <= fget j (slice c off proghdr_size) o < 256 ^ Z.of_nat j.
Proof.
  intros H0 H1 H2 H3. apply fget_range; [by apply Forall_take, Forall_drop|done|]. by rewrite zlen_slice by (unfold proghdr_size in *; lia).
Qed.

Lemma read_exact_ok off n t : is_u32 off -> is_u32 n -> I t ->
  exists t', read_exact readi off n t = Ok (if decide (off + n <= zlen c) then Some (slice c off n) else None) t' /\ mem_of t' = mem_of t /\ I t'.
Proof.
  intros Hoff Hn HI. destruct (rf_read _ _ _ Hreads off n t Hoff Hn HI) as (r & t' & E & Em & HI' & Hr). exists t'. split; [|done].
  unfold read_exact. erewrite bind_run by exact E. unfold is_u32 in Hoff, Hn. destruct r as [b|]; case_decide; try lia; [| |done].
  - subst b. by rewrite zlen_slice, Z.eqb_refl by lia.
  - by rewrite (proj2 (Z.eqb_neq (zlen b) n)) by lia.
Qed.

(** One segment, read into the pages that are there. *)
Lemma fill_loaded t l A R sz img ph : I t -> loaded (mem_of t) l A R sz img -> p_vaddr ph mod PGSIZE = 0 -> 0 <= p_vaddr ph -> 0 <= p_filesz ph -> p_vaddr ph + p_filesz ph <= sz ->
  is_u32 (p_off ph) ->
  exists r t', loaduvm readi (dir A) (p_vaddr ph) (p_off ph) (p_filesz ph) t = Ok r t' /\ I t' /\ same_pages (mem_of t) l A R (mem_of t') l A /\
    (r = -1 /\ 0 < p_filesz ph /\ zlen c < p_off ph + p_filesz ph \/ r = 0 /\ (p_filesz ph = 0 \/ p_off ph + p_filesz ph <= zlen c) /\ loaded (mem_of t') l A R sz (with_segment ph img)).
Proof.
  intros HI H Hm H0 Hf Hv Ho. pose proof Ho as Ho'. unfold is_u32 in Ho'. pose proof (ld_own _ _ _ _ _ _ H) as HO. pose proof (ld_sz _ _ _ _ _ _ H) as Hs. pose proof (pages_upto_le sz Hs) as [Hp1 Hp2].
  unfold loaduvm. rewrite Hm. change (negb (0 =? 0)) with false. cbv iota.
  destruct (load_loop_ok (S (Z.to_nat (p_filesz ph / PGSIZE + 1))) 0 t l A R (p_vaddr ph) (p_off ph) (p_filesz ph) HI HO) as (r & t' & E & HI' & HO' & Hs' & Hres); try done; try lia.
  - intros n Hn. pose proof (pages_upto_mono _ _ Hv). destruct (ld_in _ _ _ _ _ _ H n) as (e & He & _); [|eauto].
    split; [|lia]. etrans; [|apply Hn]. apply Z.div_pos; [lia|done].
  - by rewrite Z.add_0_r.
  - pose proof (pages_upto_fuel (p_filesz ph) Hf). change (0 / PGSIZE) with 0. assert (0 <= p_filesz ph / PGSIZE) by (apply Z.div_pos; [lia|done]). lia.
  - exists r, t'. split; [exact E|]. split; [done|]. split; [by split|]. destruct Hres as [(-> & Hin & Hfl)|]; [right|by left]. split; [done|]. split; [lia|]. destruct H as [_ L2 L3 L4 L5 L6]. split; try done.
    + intros x Hx. rewrite Hfl by (unfold KERNBASE, PGSIZE in *; lia). unfold with_segment. rewrite Z.add_0_r. case_decide; [done|]. by apply L5.
    + intros x Hx. unfold with_segment. rewrite decide_False by lia. by apply L6.
Qed.

Lemma load_segments_ok n : forall off sz img t l A R, is_u32 off -> I t -> loaded (mem_of t) l A R sz img ->
  exists o t' l' A', load_segments kend readi n (dir A) off sz t = Ok o t' /\ I t' /\ same_pages (mem_of t) l A R (mem_of t') l' A' /\
    match o with
    | Some sz' => segments_ok n off sz = true /\ sz' = segments_size n off sz /\ loaded (mem_of t') l' A' R sz' (image_of n off img)
    | None => segments_ok n off sz = false \/ too_few (all_pages A l) (segments_size n off sz)
    end.
Proof.
  induction n as [|n IH]; intros off sz img t l A R Hoff HI0 H.
  { exists (Some sz), t, l, A. split; [done|]. split; [done|]. split; [split; try done; apply H|done]. }
  assert (Hself : same_pages (mem_of t) l A R (mem_of t) l A) by (split; try done; apply H).
  cbn [load_segments segments_ok segments_size image_of]. destruct (read_exact_ok off proghdr_size t Hoff ltac:(done) HI0) as (t0 & E0 & Em0 & HI). erewrite bind_run by exact E0. clear E0 HI0.
  rewrite <- Em0 in H, Hself |- *. clear dependent t. rename t0 into t. set (ph := slice c off proghdr_size).
  destruct (decide (off + proghdr_size <= zlen c)) as [Hfit|Hno]; [|rewrite (proj2 (Z.leb_gt _ _)) by lia; exists None, t, l, A; auto]. rewrite (proj2 (Z.leb_le _ _) Hfit). cbn [andb].
  pose proof Hoff as Hoff1. unfold is_u32, proghdr_size in Hoff1, Hfit. assert (Hnext : u32 (off + proghdr_size) = off + proghdr_size) by (apply u32_small; unfold is_u32, proghdr_size; lia).
  assert (Hoff' : is_u32 (off + proghdr_size)) by (unfold is_u32, proghdr_size; lia). rewrite Hnext.
  assert (Hfld : forall o, 0 <= o <= 28 -> is_u32 (fget 4 ph o)) by (intros o Ho; apply (header_field off o 4); unfold proghdr_size; lia).
  destruct (p_type ph =? ELF_PROG_LOAD); cbn [negb]; [|by apply IH].
  destruct (Z.ltb_spec (p_memsz ph) (p_filesz ph)) as [Hlt|Hms]; [rewrite (proj2 (Z.leb_gt _ _) Hlt); exists None, t, l, A; auto|]. rewrite (proj2 (Z.leb_le _ _) Hms). cbn [andb].
  assert (Hv : is_u32 (p_vaddr ph)) by (apply Hfld; lia). assert (Hms' : is_u32 (p_memsz ph)) by (apply Hfld; lia). assert (Hfs : is_u32 (p_filesz ph)) by (apply Hfld; lia).
  destruct (Z.ltb_spec (u32 (p_vaddr ph + p_memsz ph)) (p_vaddr ph)) as [Hov|Hov].
  { rewrite (proj2 (Z.ltb_ge (p_vaddr ph + p_memsz ph) KERNBASE)) by (destruct (decide (p_vaddr ph + p_memsz ph < 2 ^ 32)); [rewrite u32_small in Hov; unfold is_u32 in *; lia|unfold KERNBASE; lia]).
    exists None, t, l, A. auto. }
  assert (Hsum : u32 (p_vaddr ph + p_memsz ph) = p_vaddr ph + p_memsz ph) by (unfold u32, is_u32 in *; Z.div_mod_to_equations; lia).
  destruct (grow_loaded (mem_of t) l A R sz img (u32 (p_vaddr ph + p_memsz ph)) H (u32_range _)) as (r & k1 & l1 & A1 & E1 & SP1 & Hr). rewrite Hsum in *. set (new := p_vaddr ph + p_memsz ph) in *.
  erewrite bind_run by (apply inmem_run; exact E1). pose proof (rf_mem _ _ _ Hreads k1 t HI) as HI1. set (t1 := with_mem k1 t) in *. assert (Em1 : k1 = mem_of t1) by (symmetry; apply mem_with_mem). rewrite Em1 in SP1, Hr.
  destruct Hr as [[-> Hr]|(Hr0 & Er1 & L1)].
  { exists None, t1, l1, A1. split; [done|]. split; [done|]. split; [done|]. destruct Hr as [Hr|[Hr|Hr]].
    - left. by rewrite (proj2 (Z.ltb_ge new KERNBASE) Hr).
    - left. rewrite Hr. by rewrite andb_false_r.
    - right. eapply too_few_mono; [|exact Hr]. etrans; [|apply segments_size_ge]. lia. }
  rewrite (proj2 (Z.eqb_neq _ _) Hr0). rewrite <- Er1, (proj2 (Z.eqb_neq _ _) Hr0). pose proof (ld_sz _ _ _ _ _ _ L1). rewrite (proj2 (Z.ltb_lt new KERNBASE)) by lia. cbn [negb andb].
  destruct (Z.eqb_spec (p_vaddr ph mod PGSIZE) 0) as [Hal|]; cbn [negb andb]; [|exists None, t1, l1, A1; auto].
  rewrite <- (sp_dir _ _ _ _ _ _ _ SP1). unfold is_u32 in *.
  destruct (fill_loaded t1 l1 A1 R r img ph HI1 L1 Hal ltac:(lia) ltac:(lia) ltac:(lia) (Hfld 4 ltac:(lia))) as (r2 & t2 & E2 & HI2 & SP2 & Hr2).
  erewrite bind_run by exact E2. pose proof (same_pages_trans _ _ _ _ _ _ _ _ _ _ SP1 SP2) as SP. destruct Hr2 as [(-> & Hf0 & Hf1)|(-> & Hin & L2)].
  { exists None, t2, l1, A1. split; [done|]. split; [done|]. split; [done|]. left. rewrite (proj2 (Z.eqb_neq (p_filesz ph) 0)), (proj2 (Z.leb_gt (p_off ph + p_filesz ph) (zlen c))) by lia. done. }
  cbn [Z.ltb Z.compare]. destruct (IH (off + proghdr_size) r _ t2 l1 A1 R Hoff' HI2 L2) as (o & t3 & l3 & A3 & E3 & HI3 & SP3 & Ho).
  exists o, t3, l3, A3. split; [exact E3|]. split; [done|]. split; [by eapply same_pages_trans|]. assert (Hb : (p_filesz ph =? 0) || (p_off ph + p_filesz ph <=? zlen c) = true) by (destruct Hin as [->|Hin]; [done|rewrite (proj2 (Z.leb_le _ _) Hin); apply orb_true_r]). rewrite Hb.
  destruct o as [sz'|]; [exact Ho|]. destruct Ho as [Ho|Ho]; [by left|right].
  unfold too_few, zlen in *. rewrite (Permutation_length (sp_all _ _ _ _ _ _ _ SP1)) in Ho. done.
Qed.

(** *** The page below the stack *)

Lemma clear_bits e : is_u32 e -> e mod 2 = 1 -> let e' := Z.land e (Z.lnot PTE_U) in
  is_u32 e' /\ e' mod 2 = 1 /\ PTE_ADDR e' = PTE_ADDR e /\ (Z.land e' PTE_U =? 0) = true.
Proof.
  intros He Ho e'. unfold is_u32 in *. assert (Hsum : e = e' + Z.land e PTE_U).
  { unfold e'. rewrite <- Z.ldiff_land. rewrite Z.add_nocarry_lor by (rewrite (Z.land_comm e), Z.land_assoc, Z.land_ldiff; done). symmetry. apply Z.lor_ldiff_and. }
  assert (Hb : Z.land e PTE_U = 0 \/ Z.land e PTE_U = 4).
  { change PTE_U with (2 ^ 2). destruct (Z.testbit e 2) eqn:Et.
    - right. apply Z.bits_inj'. intros i Hi. rewrite Z.land_spec, Z.pow2_bits_eqb by lia. change 4 with (2 ^ 2). rewrite Z.pow2_bits_eqb by lia.
      destruct (Z.eqb_spec 2 i) as [<-|]; [by rewrite Et|apply andb_false_r].
    - left. apply Z.bits_inj'. intros i Hi. rewrite Z.land_spec, Z.pow2_bits_eqb, Z.bits_0 by lia. destruct (Z.eqb_spec 2 i) as [<-|]; [by rewrite Et|apply andb_false_r]. }
  assert (H0 : 0 <= e') by (apply Z.land_nonneg; left; lia). split; [lia|]. split; [Z.div_mod_to_equations; lia|]. split.
  - unfold e', PTE_ADDR. rewrite <- Z.land_assoc. f_equal.
  - apply Z.eqb_eq. unfold e'. rewrite <- Z.ldiff_land. apply Z.land_ldiff.
Qed.

Lemma clearpteu_ok k l A R n e : own k l A (upages A ++ R) -> pm A !! n = Some e -> 0 <= n < UPAGES ->
  exists k' A', clearpteu (dir A) (n * PGSIZE) k = Ok tt k' /\ same_pages k l A R k' l A' /\ tabs A' = tabs A /\
    pm A' = <[n := Z.land e (Z.lnot PTE_U)]> (pm A) /\ forall x, 0 <= x < KERNBASE -> uread (kmemory k') A' x = uread (kmemory k) A x.
Proof.
  intros HO He Hn. pose proof (o_repr _ _ _ _ _ HO) as HR. destruct (r_pm _ _ _ HR _ _ He) as ([t Ht] & Hu & Hodd).
  destruct (clear_bits e Hu Hodd) as (B1 & B2 & B3 & B4). set (e' := Z.land e (Z.lnot PTE_U)) in *.
  assert (Hdv : n * PGSIZE / PGSIZE = n) by by apply Z.div_mul. pose proof (slot_range kend t n (r_pages _ _ _ HR _ (table_in _ _ _ Ht))) as Hsl.
  destruct (put_pte kend k l A _ n t e' HO Ht) as [HO' Hs]; [by right|]. exists (k <| kmemory := store_word (kmemory k) (slot t n) e' |>), (set_pm n e' A).
  assert (He0 : (e' =? 0) = false) by (apply Z.eqb_neq; intros E0; rewrite E0 in B2; done).
  assert (Hpm : pm (set_pm n e' A) = <[n := e']> (pm A)) by (unfold set_pm; cbn; by rewrite He0).
  assert (Hup : upages (set_pm n e' A) ≡ₚ upages A).
  { rewrite (user_delete A n e He) by lia. rewrite (user_delete (set_pm n e' A) n e') by first [rewrite Hpm; apply lookup_insert_eq|lia].
    unfold upage. rewrite B3. apply perm_skip. erewrite user_same; [reflexivity|]. unfold set_pm. cbn. rewrite He0. by rewrite delete_insert_eq. }
  split; [|split; [split|split; [done|split; [done|]]]].
  - unfold clearpteu. erewrite bind_run by (eapply walk_present; [exact HR|unfold PGSIZE; lia|by rewrite Hdv]). rewrite Hdv.
    rewrite (proj2 (Z.eqb_neq (slot t n) 0)) by lia. unfold load. erewrite bind_run by reflexivity. erewrite pte_word by done. rewrite He. reflexivity.
  - eapply own_perm; [|exact HO']. by rewrite Hup.
  - done.
  - unfold all_pages. rewrite Hup. done.
  - by eapply same_on_r.
  - intros x Hx. rewrite Hpm. apply lookup_insert_ne. lia.
  - intros x Hx. destruct (va_page x Hx) as (Hp & Hq & _). rewrite <- (uread_same _ _ A x (same_on_l _ _ _ _ Hs) Hx). unfold uread. rewrite Hpm.
    destruct (decide (x / PGSIZE = n)) as [->|Hne]; [rewrite lookup_insert_eq, He; cbn; unfold upage; by rewrite B3|by rewrite lookup_insert_ne].
Qed.
End load.

(** ** The stack *)

(** The bytes [bs] are at [a] of the user memory. *)
Definition holds_bytes (m : memory) (A : aspace) (a : Z) (bs : list Z) : Prop := forall i, 0 <= i < zlen bs -> uread m A (a + i) = zlookup bs i.

Definition round4 (x : Z) : Z := x - x mod 4.
Definition pushed (argv : list (list Z)) (sp : Z) : Z := fold_left (fun sp s => round4 (sp - (zlen s + 1))) argv sp.

(** The page [N - 1] is the stack, and neither the one below nor the devices can be used. *)
Record stack_page (A : aspace) (N : Z) : Prop := mkstack_page {
  st_N : 2 <= N <= UPAGES;
  st_top : accessible A (N - 1);
  st_guard : ~ accessible A (N - 2);
  st_tabs : forall n, 0 <= n < N -> is_Some (tabs A !! (n / 1024));
  st_dev : forall n, DEVSPACE / PGSIZE <= n < 2 ^ 20 -> ~ accessible A n /\ is_Some (tabs A !! (n / 1024)) }.

Lemma land_round4 x : Z.land x (Z.lnot 3) = round4 x.
Proof.
  unfold round4. change 3 with (Z.ones 2). rewrite <- Z.ldiff_land, Z.ldiff_ones_r, Z.shiftl_mul_pow2, Z.shiftr_div_pow2 by lia.
  change (2 ^ 2) with 4. Z.div_mod_to_equations. lia.
Qed.

Lemma round4_bounds x : x - 3 <= round4 x <= x.
Proof. unfold round4. Z.div_mod_to_equations. lia. Qed.

Lemma pushed_le argv : forall sp, pushed argv sp <= sp.
Proof. induction argv as [|s argv IH]; intros sp; cbn; [done|]. etrans; [apply IH|]. pose proof (round4_bounds (sp - (zlen s + 1))). pose proof (zlen_pos s). lia. Qed.

Section stack.
Context (kend null : Z) (A : aspace) (N : Z) (HS : stack_page A N) (l R : list Z).
Implicit Types (k : kmem).
Abbreviation own k := (own kend k l A (upages A ++ R)).

(** A write that ends in the stack or the page below is complete, or starts below the stack
    and is refused there. *)
Lemma stack_copy k va p : own k -> 0 <= va -> (N - 2) * PGSIZE < va + zlen p -> 0 < zlen p -> va + zlen p <= N * PGSIZE ->
  exists r k', copyout null (dir A) va p k = Ok r k' /\ own k' /\ same_on R (kmemory k) (kmemory k') /\
    (r = 0 /\ (N - 1) * PGSIZE <= va /\ delivered A (kmemory k) (kmemory k') va p (zlen p) \/ r = -1 /\ va < (N - 1) * PGSIZE).
Proof.
  intros HO Hva Hlow Hp Hend. destruct HS as [HN Htop Hguard Htabs _]. unfold copyout.
  assert (Hk : va + zlen p <= KERNBASE) by (unfold PGSIZE, KERNBASE in *; lia). assert (Hn0 : 0 <= va / PGSIZE) by (apply Z.div_pos; [done|done]).
  destruct (copyout_loop_ok kend null (S (length p)) va p k l A R HO Hva Hk ltac:(lia)) as (r & c & k' & E & HO' & Hs & Hd & Hc & Hac & Hcase).
  { intros n Hn. apply Htabs. split; [lia|]. assert (pages_upto (va + zlen p) <= N); [|lia]. etrans; [apply (pages_upto_mono _ (N * PGSIZE)); lia|]. unfold pages_upto, PGSIZE. Z.div_mod_to_equations. lia. }
  exists r, k'. split; [exact E|]. split; [done|]. split; [done|]. destruct (Z.ltb_spec va ((N - 1) * PGSIZE)) as [Hbelow|Hhigh].
  - right. split; [|done]. destruct Hcase as [[-> ->]|(-> & _)]; [|done]. exfalso. apply Hguard. set (x := Z.max va ((N - 2) * PGSIZE)).
    assert (N - 2 = x / PGSIZE) as ->; [|apply Hac; lia]. apply (Z.div_unique _ _ _ (x - PGSIZE * (N - 2))); [left|]; unfold x, PGSIZE in *; lia.
  - left. destruct Hcase as [[-> ->]|(_ & Hlt & Hno)]; [done|]. exfalso. apply Hno.
    assert ((va + c) / PGSIZE = N - 1) as ->; [|done]. symmetry. apply (Z.div_unique _ _ _ (va + c - PGSIZE * (N - 1))); [left|]; unfold PGSIZE in *; lia.
Qed.

(** A write to the addresses of the devices is refused. *)
Lemma device_copy k va p : own k -> DEVSPACE <= va < 2 ^ 32 -> 0 < zlen p -> copyout null (dir A) va p k = Ok (-1) k.
Proof.
  intros HO Hva Hp. destruct p as [|b p]; [done|]. unfold copyout. cbn [copyout_loop]. rewrite PGROUNDDOWN_eq. pose proof (Z.div_mod va PGSIZE ltac:(done)).
  replace (va - va mod PGSIZE) with (va / PGSIZE * PGSIZE) by lia. assert (Hn : DEVSPACE / PGSIZE <= va / PGSIZE < 2 ^ 20).
  { split; [apply Z.div_le_mono; [done|lia]|apply Z.div_lt_upper_bound; [done|unfold PGSIZE; lia]]. }
  destruct (st_dev _ _ HS _ Hn) as [Hno Ht]. change (DEVSPACE / PGSIZE) with 1040384 in Hn.
  erewrite bind_run by (apply (uva2ka_ok kend); [apply HO|lia|exact Ht]). by rewrite (kaddr_none _ _ Hno).
Qed.

(** One argument of less than 32 megabytes: where it does not fit, its address is in a page
    below the stack or, wrapped around, among the devices. *)
Lemma arg_copy k sp s : own k -> (N - 1) * PGSIZE <= sp <= N * PGSIZE -> zlen s < 2 ^ 25 -> let sp1 := round4 (sp - (zlen s + 1)) in
  exists r k', copyout null (dir A) (round4 (u32 (sp - (zlen s + 1)))) (s ++ [0]) k = Ok r k' /\ own k' /\ same_on R (kmemory k) (kmemory k') /\
    (r = 0 /\ (N - 1) * PGSIZE <= sp1 /\ round4 (u32 (sp - (zlen s + 1))) = sp1 /\ delivered A (kmemory k) (kmemory k') sp1 (s ++ [0]) (zlen s + 1) \/
     r = -1 /\ sp1 < (N - 1) * PGSIZE).
Proof.
  intros HO Hsp Hs sp1. pose proof (st_N _ _ HS) as HN. pose proof (zlen_pos s) as Hs0. assert (HP : PGSIZE = 4096) by done. assert (Hlp : zlen (s ++ [0]) = zlen s + 1) by (by rewrite zlen_app).
  pose proof (round4_bounds (sp - (zlen s + 1))) as Hr. fold sp1 in Hr. destruct (Z.leb_spec 0 (sp - (zlen s + 1))) as [Hpos|Hneg].
  - rewrite u32_small by (unfold is_u32; lia). fold sp1. assert (H0 : 0 <= sp1) by (unfold sp1, round4; Z.div_mod_to_equations; lia).
    destruct (stack_copy k sp1 (s ++ [0]) HO) as (r & k1 & E1 & HO1 & Hs1 & Hcase); [lia..|]. exists r, k1. split; [exact E1|]. split; [done|]. split; [done|].
    rewrite <- Hlp. destruct Hcase as [(-> & Hb & Hd)|Hb]; [left; auto|by right].
  - assert (Eu : u32 (sp - (zlen s + 1)) = sp - (zlen s + 1) + 2 ^ 32) by (unfold u32; symmetry; apply (Z.mod_unique _ _ (-1)); lia). rewrite Eu.
    exists (-1), k. split; [|split; [done|]; split; [done|]; right; lia]. apply device_copy; [done| |lia].
    change DEVSPACE with 4261412864. unfold round4. Z.div_mod_to_equations. lia.
Qed.

Lemma delivered_holds m m' va p : delivered A m m' va p (zlen p) -> 0 <= va -> va + zlen p <= KERNBASE -> holds_bytes m' A va p.
Proof. intros Hd H0 H1 i Hi. rewrite (Hd (va + i)) by lia. rewrite decide_True by lia. f_equal. lia. Qed.

Lemma holds_frame m m' a bs : holds_bytes m A a bs -> (forall x, a <= x < a + zlen bs -> uread m' A x = uread m A x) -> holds_bytes m' A a bs.
Proof. intros H Hm i Hi. rewrite Hm by lia. by apply H. Qed.

Lemma push_args_ok argv : forall argc sp ptrs k, own k -> (N - 1) * PGSIZE <= sp <= N * PGSIZE -> (forall s, s ∈ argv -> zlen s < 2 ^ 25) -> 0 <= argc ->
  exists o k', push_args null (dir A) argv argc sp ptrs k = Ok o k' /\ own k' /\ same_on R (kmemory k) (kmemory k') /\
    match o with
    | Some (argc', sp', ptrs') => argc' = argc + zlen argv /\ sp' = pushed argv sp /\ (N - 1) * PGSIZE <= sp' /\ (argv = [] \/ argc' <= Z.of_nat MAXARG) /\
        (exists qs, ptrs' = ptrs ++ qs /\ Forall2 (fun s q => holds_bytes (kmemory k') A q (s ++ [0]) /\ sp' <= q /\ q + zlen s + 1 <= sp) argv qs) /\
        forall x, 0 <= x < KERNBASE -> x < sp' \/ sp <= x -> uread (kmemory k') A x = uread (kmemory k) A x
    | None => pushed argv sp < (N - 1) * PGSIZE \/ Z.of_nat MAXARG < argc + zlen argv
    end.
Proof.
  induction argv as [|s argv IH]; intros argc sp ptrs k HO Hsp Hlen Hargc.
  { exists (Some (argc, sp, ptrs)), k. split; [done|]. split; [done|]. split; [done|]. split; [change (zlen (@nil (list Z))) with 0; lia|]. split; [done|]. split; [lia|]. split; [by left|].
    split; [|done]. exists []. rewrite app_nil_r. split; [done|constructor]. }
  cbn [push_args]. rewrite zlen_cons. pose proof (zlen_pos argv) as Hla. pose proof (st_N _ _ HS) as HN.
  destruct (Z.leb_spec (Z.of_nat MAXARG) argc) as [Hmax|Hmax]; [exists None, k; split; [done|]; split; [done|]; split; [done|]; right; lia|].
  rewrite land_round4. destruct (arg_copy k sp s HO Hsp (Hlen s ltac:(left))) as (r & k1 & E1 & HO1 & Hs1 & Hcase). erewrite bind_run by exact E1.
  set (sp1 := round4 (sp - (zlen s + 1))) in *. pose proof (zlen_pos s) as Hs0. pose proof (round4_bounds (sp - (zlen s + 1))) as Hr. fold sp1 in Hr.
  assert (Hlp : zlen (s ++ [0]) = zlen s + 1) by (by rewrite zlen_app). destruct Hcase as [(-> & Hb & -> & Hd)|[-> Hb]].
  2: { exists None, k1. split; [done|]. split; [done|]. split; [done|]. left. change (pushed (s :: argv) sp) with (pushed argv sp1). pose proof (pushed_le argv sp1). lia. }
  cbn [Z.ltb Z.compare]. destruct (IH (argc + 1) sp1 (ptrs ++ [sp1]) k1 HO1) as (o & k2 & E2 & HO2 & Hs2 & Ho); [lia|intros s' Hs'; apply Hlen; by right|lia|].
  exists o, k2. split; [exact E2|]. split; [done|]. split; [by eapply same_on_trans|]. destruct o as [[[argc' sp'] ptrs']|].
  2: { change (pushed (s :: argv) sp) with (pushed argv sp1). destruct Ho as [Ho|Ho]; [by left|right; lia]. }
  destruct Ho as (-> & -> & Hb2 & Hmx & (qs & -> & Hqs) & Hfr). pose proof (pushed_le argv sp1) as Hle. split; [lia|]. split; [done|]. split; [done|]. split.
  { right. destruct Hmx as [->|]; [change (zlen (@nil (list Z))) with 0; lia|lia]. }
  split.
  - exists (sp1 :: qs). split; [by rewrite <- app_assoc|]. constructor.
    + split; [|lia]. eapply holds_frame; [apply (delivered_holds (kmemory k)); rewrite ?Hlp; first [exact Hd|unfold KERNBASE, PGSIZE in *; lia]|]. intros x Hx. apply Hfr; unfold KERNBASE, PGSIZE in *; lia.
    + eapply Forall2_impl; [exact Hqs|]. cbn. intros s' q (Q1 & Q2 & Q3). split; [done|]. lia.
  - intros x Hx Hor. rewrite Hfr, Hd by lia. rewrite decide_False; [done|lia].
Qed.
End stack.

(** ** The whole image *)

(** The stack the arguments need: the strings, then the frame with their addresses. *)
Definition stack_need (argv : list (list Z)) : Z := 4 * (4 + zlen argv) - pushed argv 0.
Definition args_fit (argv : list (list Z)) : Prop := zlen argv <= Z.of_nat MAXARG /\ stack_need argv <= PGSIZE.

(** What a new program finds: [img] below the page that it cannot use, and the stack of main():
    a return address, the number of arguments, the address of the array of their addresses,
    and that array, ended by a null pointer. *)
Record program_ok (m : memory) (A : aspace) (N : Z) (img : Z -> Z) (argv : list (list Z)) (sp : Z) : Prop := mkprogram_ok {
  pr_image : forall x, 0 <= x < (N - 2) * PGSIZE -> uread m A x = Some (img x);
  pr_user : forall n, 0 <= n < UPAGES -> accessible A n <-> n < N /\ n <> N - 2;
  pr_none : forall n, N <= n < UPAGES -> pm A !! n = None;
  pr_sp : (N - 1) * PGSIZE <= sp /\ sp + 4 * (4 + zlen argv) <= N * PGSIZE /\ sp mod 4 = 0;
  pr_stack : exists ptrs, holds_bytes m A sp (bytes_of ([4294967295; zlen argv; sp + 12] ++ ptrs ++ [0])) /\
    Forall2 (fun s q => holds_bytes m A q (s ++ [0]) /\ sp + 4 * (4 + zlen argv) <= q /\ q + zlen s < N * PGSIZE) argv ptrs }.

Lemma pushed_shift argv : forall x n, pushed argv (x + 4 * n) = pushed argv x + 4 * n.
Proof.
  induction argv as [|s argv IH]; intros x n; [done|]. change (pushed argv (round4 (x + 4 * n - (zlen s + 1))) = pushed argv (round4 (x - (zlen s + 1))) + 4 * n).
  rewrite <- IH. f_equal. unfold round4. replace (x + 4 * n - (zlen s + 1)) with (x - (zlen s + 1) + n * 4) by lia. rewrite Z_mod_plus_full. lia.
Qed.

Lemma pushed_mod argv : forall x, x mod 4 = 0 -> pushed argv x mod 4 = 0.
Proof.
  induction argv as [|s argv IH]; intros x Hx; [done|]. apply (IH (round4 (x - (zlen s + 1)))). unfold round4. Z.div_mod_to_equations. lia.
Qed.

Section image.
Context (kend kdata null : Z) (Hkend : KERNBASE < kend).
Implicit Types (k : kmem) (l R : list Z) (A : aspace) (img : Z -> Z).
Abbreviation own := (own kend).
Abbreviation loaded := (loaded kend).
Abbreviation same_pages := (same_pages kend).

(** The kernel's part of an address space. *)
Definition has_kernel A : Prop := forall n, UPAGES <= n -> pm A !! n = kernel_map kdata !! n.

Lemma has_kernel_same k l A R k' l' A' : same_pages k l A R k' l' A' -> has_kernel A -> has_kernel A'.
Proof using. intros SP H n Hn. etrans; [exact (sp_kernel _ _ _ _ _ _ _ _ SP n Hn)|exact (H n Hn)]. Qed.

Lemma kernel_devices k l A R n : own k l A R -> has_kernel A -> DEVSPACE / PGSIZE <= n < 2 ^ 20 -> ~ accessible A n /\ is_Some (tabs A !! (n / 1024)).
Proof using.
  intros HO H Hn. destruct (kernel_device kdata n Hn) as (e & He & Hu). change (DEVSPACE / PGSIZE) with 1040384 in Hn. assert (He' : pm A !! n = Some e) by (etrans; [apply H; lia|exact He]).
  split; [|apply (r_pm _ _ _ (o_repr _ _ _ _ _ HO) _ _ He')]. intros (e' & He2 & Hu2). rewrite He' in He2. injection He2 as <-. congruence.
Qed.

(** The guard page is made. *)
Lemma guard_ok k l A R N img : loaded k l A R (N * PGSIZE) img -> has_kernel A -> 2 <= N ->
  exists k' A', clearpteu (dir A) ((N - 2) * PGSIZE) k = Ok tt k' /\ same_pages k l A R k' l A' /\ stack_page A' N /\
    (forall n, 0 <= n < UPAGES -> accessible A' n <-> n < N /\ n <> N - 2) /\ (forall n, N <= n < UPAGES -> pm A' !! n = None) /\
    forall x, 0 <= x < N * PGSIZE -> uread (kmemory k') A' x = Some (img x).
Proof.
  intros [L1 L2 L3 L4 L5 L6] HK HN. assert (EN : pages_upto (N * PGSIZE) = N) by (unfold pages_upto, PGSIZE; Z.div_mod_to_equations; lia). rewrite EN in *.
  assert (HNU : N < UPAGES) by (unfold KERNBASE, PGSIZE in *; lia). destruct (L3 (N - 2) ltac:(lia)) as (e & He & _).
  destruct (clearpteu_ok kend k l A R (N - 2) e L1 He ltac:(lia)) as (k' & A' & E & SP & Ht & Hpm & Hrd). exists k', A'. split; [done|]. split; [done|].
  destruct (r_pm _ _ _ (o_repr _ _ _ _ _ L1) _ _ He) as (_ & Hu & Hodd). destruct (clear_bits e Hu Hodd) as (_ & _ & _ & Hc).
  assert (Hacc : forall n, 0 <= n < UPAGES -> accessible A' n <-> n < N /\ n <> N - 2).
  { intros n Hn. unfold accessible. rewrite Hpm. destruct (decide (n = N - 2)) as [->|Hne].
    - rewrite lookup_insert_eq. split; [intros (e' & [= <-] & He'); congruence|lia].
    - rewrite lookup_insert_ne by done. destruct (decide (n < N)).
      + split; [done|]. intros _. apply L3. lia.
      + split; [|lia]. rewrite L4 by lia. by intros (e' & ? & _). }
  split; [|split; [done|split]].
  - split; [lia| | | |].
    + apply Hacc; lia.
    + rewrite Hacc by lia. lia.
    + intros n Hn. destruct (L3 n Hn) as (e' & He' & _). rewrite Ht. apply (r_pm _ _ _ (o_repr _ _ _ _ _ L1) _ _ He').
    + intros n Hn. exact (kernel_devices _ _ _ _ n (sp_own _ _ _ _ _ _ _ _ SP) (has_kernel_same _ _ _ _ _ _ _ SP HK) Hn).
  - intros n Hn. rewrite Hpm, lookup_insert_ne by lia. by apply L4.
  - intros x Hx. rewrite Hrd by (unfold KERNBASE, PGSIZE in *; lia). by apply L5.
Qed.

(** The frame on the stack, once the strings are there. *)
Lemma frame_ok k l A R N (argv : list (list Z)) (ptrs : list Z) sp : stack_page A N -> own k l A (upages A ++ R) -> (N - 1) * PGSIZE <= sp <= N * PGSIZE -> zlen argv <= 32 -> length ptrs = length argv ->
  let sp2 := sp - (3 + zlen argv + 1) * 4 in let ustack := bytes_of ([4294967295; zlen argv; sp2 + 12] ++ ptrs ++ [0]) in
  exists r k', copyout null (dir A) sp2 ustack k = Ok r k' /\ own k' l A (upages A ++ R) /\ same_on R (kmemory k) (kmemory k') /\
    (r = 0 /\ (N - 1) * PGSIZE <= sp2 /\ holds_bytes (kmemory k') A sp2 ustack /\
       (forall x, 0 <= x < KERNBASE -> x < sp2 \/ sp <= x -> uread (kmemory k') A x = uread (kmemory k) A x) \/
     r = -1 /\ sp2 < (N - 1) * PGSIZE).
Proof.
  intros HS HO Hsp Ha Hp sp2 ustack. pose proof (st_N _ _ HS) as HN. pose proof (zlen_pos argv) as Ha0.
  assert (Hlen : zlen ustack = 4 * (4 + zlen argv)).
  { unfold ustack, zlen in *. rewrite length_bytes_of, !length_app. cbn. lia. }
  destruct (stack_copy kend null A N HS l R k sp2 ustack HO) as (r & k' & E & HO' & Hs & Hcase); [unfold sp2, PGSIZE in *; lia..|].
  exists r, k'. split; [done|]. split; [done|]. split; [done|]. destruct Hcase as [(-> & Hb & Hd)|]; [left|by right]. split; [done|]. split; [done|]. split.
  - apply (delivered_holds A _ _ _ _ Hd); unfold sp2, KERNBASE, PGSIZE in *; lia.
  - intros x Hx Hor. rewrite Hd by done. rewrite decide_False; [done|]. unfold sp2 in *. lia.
Qed.

Lemma stack_rest k l A R N argv : stack_page A N -> own k l A (upages A ++ R) -> (forall s, s ∈ argv -> zlen s < 2 ^ 25) ->
  exists o k', (o ← push_args null (dir A) argv 0 (N * PGSIZE) [];
     match o with
     | None => mret None
     | Some (argc, sp, ptrs) =>
         let ustack := [4294967295; argc; u32 (sp - (argc + 1) * 4)] ++ ptrs ++ [0] in
         let sp := u32 (sp - (3 + argc + 1) * 4) in
         r ← copyout null (dir A) sp (bytes_of ustack);
         if r <? 0 then mret None else mret (Some (N * PGSIZE, sp))
     end) k = Ok o k' /\ own k' l A (upages A ++ R) /\ same_on R (kmemory k) (kmemory k') /\
    match o with
    | Some (sz, sp) => args_fit argv /\ sz = N * PGSIZE /\ (N - 1) * PGSIZE <= sp /\ sp + 4 * (4 + zlen argv) <= N * PGSIZE /\ sp mod 4 = 0 /\
        (exists ptrs, holds_bytes (kmemory k') A sp (bytes_of ([4294967295; zlen argv; sp + 12] ++ ptrs ++ [0])) /\ Forall2 (fun s q => holds_bytes (kmemory k') A q (s ++ [0]) /\ sp + 4 * (4 + zlen argv) <= q /\ q + zlen s < N * PGSIZE) argv ptrs) /\
        forall x, 0 <= x < (N - 1) * PGSIZE -> uread (kmemory k') A x = uread (kmemory k) A x
    | None => ~ args_fit argv
    end.
Proof.
  intros HS HO Hlen. pose proof (st_N _ _ HS) as HN. pose proof (zlen_pos argv) as Ha0. assert (HP : PGSIZE = 4096) by done.
  assert (Hpush : pushed argv (N * PGSIZE) = pushed argv 0 + N * PGSIZE) by (replace (N * PGSIZE) with (0 + 4 * (N * 1024)) at 1 by lia; rewrite pushed_shift; lia).
  destruct (push_args_ok kend null A N HS l R argv 0 (N * PGSIZE) [] k HO) as (o & k1 & E1 & HO1 & Hs1 & Ho); [lia|done|done|]. erewrite bind_run by exact E1.
  destruct o as [[[argc sp] ptrs]|].
  2: { exists None, k1. split; [done|]. split; [done|]. split; [done|]. unfold args_fit, stack_need. destruct Ho as [Ho|Ho]; [rewrite Hpush in Ho|]; lia. }
  destruct Ho as (-> & -> & Hb & Hmx & (qs & -> & Hqs) & Hfr). cbn [app]. rewrite Z.add_0_l in *. set (sp := pushed argv (N * PGSIZE)) in *.
  assert (H32 : zlen argv <= 32) by (destruct Hmx as [->|Hmx]; [done|exact Hmx]). pose proof (pushed_le argv (N * PGSIZE)) as Hle. fold sp in Hle.
  rewrite !u32_small by (unfold is_u32, PGSIZE in *; lia). set (sp2 := sp - (3 + zlen argv + 1) * 4). replace (sp - (zlen argv + 1) * 4) with (sp2 + 12) by (unfold sp2; lia).
  destruct (frame_ok k1 l A R N argv qs sp HS HO1 ltac:(lia) H32 ltac:(symmetry; by eapply Forall2_length)) as (r & k2 & E2 & HO2 & Hs2 & Hcase). fold sp2 in E2, Hcase. erewrite bind_run by exact E2.
  destruct Hcase as [(-> & Hb2 & Hh & Hfr2)|[-> Hb2]].
  2: { exists None, k2. split; [done|]. split; [done|]. split; [by eapply same_on_trans|]. unfold args_fit, stack_need. unfold sp2 in Hb2. lia. }
  exists (Some (N * PGSIZE, sp2)), k2. split; [done|]. split; [done|]. split; [by eapply same_on_trans|].
  split; [split; [done|unfold stack_need, sp2 in *; lia]|]. split; [done|]. split; [unfold sp2; lia|]. split; [unfold sp2; lia|]. split.
  { assert (Hm : sp mod 4 = 0) by (apply pushed_mod; unfold PGSIZE; Z.div_mod_to_equations; lia). unfold sp2. Z.div_mod_to_equations. lia. }
  split.
  - exists qs. split; [exact Hh|]. eapply Forall2_impl; [exact Hqs|]. cbn. intros s q (Q1 & Q2 & Q3). split; [|unfold sp2; lia]. eapply holds_frame; [exact Q1|]. rewrite zlen_app. change (zlen [0]) with 1.
    intros x Hx. apply Hfr2; unfold KERNBASE, PGSIZE in *; lia.
  - intros x Hx. rewrite Hfr2, Hfr by (unfold KERNBASE, PGSIZE in *; lia). done.
Qed.

Lemma exec_stack_ok k l A R sz img argv : loaded k l A R sz img -> has_kernel A -> (forall s, s ∈ argv -> zlen s < 2 ^ 25) -> let N := pages_upto sz + 2 in
  exists o k' l' A', exec_stack kend null (dir A) sz argv k = Ok o k' /\ same_pages k l A R k' l' A' /\
    match o with
    | Some (sz', sp) => N * PGSIZE < KERNBASE /\ args_fit argv /\ sz' = N * PGSIZE /\ program_ok (kmemory k') A' N img argv sp
    | None => KERNBASE <= N * PGSIZE \/ too_few (all_pages A l) (N * PGSIZE) \/ ~ args_fit argv
    end.
Proof.
  intros H HK Hlen N. pose proof (ld_sz _ _ _ _ _ _ _ H) as Hsz. destruct (pages_upto_le sz Hsz) as [Hp1 Hp2]. assert (HP : PGSIZE = 4096) by done. unfold exec_stack. rewrite PGROUNDUP_pages by lia.
  replace (pages_upto sz * PGSIZE + 2 * PGSIZE) with (N * PGSIZE) by (unfold N; lia). rewrite (u32_small (N * PGSIZE)) by (unfold is_u32, N; lia).
  assert (Hself : same_pages k l A R k l A) by (split; try done; apply H).
  destruct (Z.leb_spec KERNBASE (N * PGSIZE)) as [Hbig|Hsmall].
  { exists None, k, l, A. unfold allocuvm. rewrite (proj2 (Z.leb_le _ _) Hbig). split; [done|]. split; [done|]. by left. }
  assert (H1 : loaded k l A R (pages_upto sz * PGSIZE) img).
  { assert (E : pages_upto (pages_upto sz * PGSIZE) = pages_upto sz) by (unfold pages_upto, PGSIZE; Z.div_mod_to_equations; lia). destruct H. split; rewrite ?E; done || lia. }
  destruct (grow_loaded kend Hkend k l A R _ img (N * PGSIZE) H1 ltac:(unfold is_u32, N; lia)) as (r & k1 & l1 & A1 & E1 & SP1 & Hr). erewrite bind_run by exact E1.
  destruct Hr as [[-> Hr]|(Hr0 & -> & L1)].
  { exists None, k1, l1, A1. split; [done|]. split; [done|]. destruct Hr as [Hr|[Hr|Hr]]; [lia|unfold N in Hr; lia|right; by left]. }
  rewrite (proj2 (Z.eqb_neq _ _) Hr0). rewrite Z.max_r in * by (unfold N; lia). rewrite u32_small by (unfold is_u32, N; lia). replace (N * PGSIZE - 2 * PGSIZE) with ((N - 2) * PGSIZE) by lia.
  destruct (guard_ok k1 l1 A1 R N img L1 (has_kernel_same _ _ _ _ _ _ _ SP1 HK) ltac:(unfold N; lia)) as (k2 & A2 & E2 & SP2 & HS & Hacc & Hnone & Hrd). rewrite <- (sp_dir _ _ _ _ _ _ _ _ SP1).
  erewrite bind_run by exact E2. destruct (stack_rest k2 l1 A2 R N argv HS (sp_own _ _ _ _ _ _ _ _ SP2) Hlen) as (o & k3 & E3 & HO3 & Hs3 & Ho).
  rewrite (sp_dir _ _ _ _ _ _ _ _ SP2) in E3. exists o, k3, l1, A2. split; [exact E3|]. split.
  { eapply same_pages_trans; [exact SP1|]. eapply same_pages_trans; [exact SP2|]. by split. }
  destruct o as [[sz' sp]|]; [|right; by right]. destruct Ho as (Hfit & -> & Hsp & Htop & Hm & Hst & Hfr). split; [done|]. split; [done|]. split; [done|]. split; try done.
  intros x Hx. rewrite Hfr, Hrd by lia. done.
Qed.

(** *** The file and the arguments *)

Definition header (c : list Z) : list Z := slice c 0 elfhdr_size.
Definition phnum (c : list Z) : nat := Z.to_nat (e_phnum (header c)).

(** The pages of a program: its segments, the page that cannot be used and the stack. *)
Definition program_pages (c : list Z) : Z := pages_upto (segments_size c (phnum c) (e_phoff (header c)) 0) + 2.
Definition program_image (c : list Z) : Z -> Z := image_of c (phnum c) (e_phoff (header c)) (fun _ => 0).

Lemma program_pages_size c : 0 <= segments_size c (phnum c) (e_phoff (header c)) 0 <= program_pages c * PGSIZE.
Proof using.
  pose proof (segments_size_ge c (phnum c) (e_phoff (header c)) 0). unfold program_pages, pages_upto, PGSIZE. Z.div_mod_to_equations. lia.
Qed.

(** The file is a program and it fits, with its arguments, below the kernel. *)
Record runnable (c : list Z) (argv : list (list Z)) : Prop := mkrunnable {
  run_header : elfhdr_size <= zlen c;
  run_magic : e_magic (header c) = ELF_MAGIC;
  run_segments : segments_ok c (phnum c) (e_phoff (header c)) 0 = true;
  run_size : program_pages c * PGSIZE < KERNBASE;
  run_args : args_fit argv }.

Context {T : Type} {HT : HasMemory T} {HL : HasMemoryLaws T}.
Context (c : list Z) (readi : Z -> Z -> M T (option (list Z))) (release : M T unit) (I J : T -> Prop).

(** The file is given back: [J] holds then. *)
Record releases : Prop := mkreleases {
  rl_run : forall t, I t -> exists t', release t = Ok tt t' /\ mem_of t' = mem_of t /\ J t';
  rl_mem : forall k t, J t -> J (with_mem k t) }.

Definition executed (t : T) (l R : list Z) (argv : list (list Z)) (o : option image) (t' : T) : Prop :=
  J t' /\ same_on R (kmemory (mem_of t)) (kmemory (mem_of t')) /\
  match o with
  | Some im => runnable c argv /\ exists l' A, im_pgdir im = dir A /\ own (mem_of t') l' A (upages A ++ R) /\ all_pages A l' ≡ₚ l /\
      im_sz im = program_pages c * PGSIZE /\ im_entry im = e_entry (header c) /\
      program_ok (kmemory (mem_of t')) A (program_pages c) (program_image c) argv (im_sp im) /\
      forall n, UPAGES <= n -> pm A !! n = kernel_map kdata !! n
  | None => (~ runnable c argv \/ too_few l (program_pages c * PGSIZE)) /\ exists l', kmem_ok kend (mem_of t') l' /\ l' ≡ₚ l
  end.

Context (Hreads : reads_file c readi I) (Hrel : releases) (Hc : zlen c <= 2 ^ 31) (Hbytes : Forall is_u8 c).
Context (Hal : kdata mod PGSIZE = 0) (Hdata : KERNLINK < kdata < KERNBASE + PHYSTOP).

(** A new address space is the kernel and no user page. *)
Lemma empty_loaded k l A R : own k l A R -> pm A = kernel_map kdata -> loaded k l A R 0 (fun _ => 0) /\ upages A = [].
Proof using Hdata.
  intros HO Hpm. pose proof (kernel_no_user kdata ltac:(lia)) as Hno. rewrite <- Hpm in Hno. pose proof (no_user_upages A Hno) as Hup. split; [|done].
  split; change (pages_upto 0) with 0.
  - by rewrite Hup.
  - unfold KERNBASE. lia.
  - intros n Hn. lia.
  - intros n Hn. destruct (pm A !! n) eqn:E; [|done]. apply Hno in E. lia.
  - intros x Hx. lia.
  - done.
Qed.

(** At [bad], with an address space: all of it is freed. *)
Lemma fail_free t l1 A l R k0 : own (mem_of t) l1 A (upages A ++ R) -> all_pages A l1 ≡ₚ l -> same_on R (kmemory k0) (kmemory (mem_of t)) ->
  exists k' l', inmem (freevm kend (dir A)) t = Ok tt (with_mem k' t) /\ kmem_ok kend k' l' /\ l' ≡ₚ l /\ same_on R (kmemory k0) (kmemory k').
Proof using HL Hkend.
  intros HO Hl Hs. destruct (free_copy kend Hkend _ _ _ _ HO) as (k' & l' & E & HK & Hl' & Hs'). exists k', l'. split; [by apply inmem_run|]. split; [done|].
  split; [by rewrite Hl'|by eapply same_on_trans].
Qed.

Lemma too_few_perm pages pages' n : pages ≡ₚ pages' -> too_few pages n -> too_few pages' n.
Proof using. unfold too_few, zlen. by intros ->. Qed.

(** From the new address space on. *)
Lemma build_ok t t1 l l1 A R argv : I t1 -> own (mem_of t1) l1 A R -> pm A = kernel_map kdata -> table_pages A ++ l1 ≡ₚ l -> same_on R (kmemory (mem_of t)) (kmemory (mem_of t1)) ->
  elfhdr_size <= zlen c -> e_magic (header c) = ELF_MAGIC -> (forall s, s ∈ argv -> zlen s < 2 ^ 25) ->
  exists o t', (o ← load_segments kend readi (phnum c) (dir A) (e_phoff (header c)) 0;
      match o with
      | None => inmem (freevm kend (dir A));; release;; mret None
      | Some sz =>
          release;;
          o ← inmem (exec_stack kend null (dir A) sz argv);
          match o with
          | None => inmem (freevm kend (dir A));; mret None
          | Some (sz, sp) => mret (Some (mkimage (dir A) sz (e_entry (header c)) sp))
          end
      end) t1 = Ok o t' /\ executed t l R argv o t'.
Proof using Hkend HL Hreads Hrel Hc Hbytes Hdata.
  intros HI HO Hpm Hl Hs Hlen Hmagic Hargs. destruct (empty_loaded _ _ _ _ HO Hpm) as [L0 Hup].
  assert (Hall : all_pages A l1 ≡ₚ l) by (unfold all_pages; by rewrite Hup).
  assert (Hoff : is_u32 (e_phoff (header c))).
  { apply (fget_range 4 (header c) 28); [by apply Forall_take|done|]. unfold header. rewrite zlen_slice by (unfold elfhdr_size in *; lia). done. }
  destruct (load_segments_ok kend Hkend c readi I Hreads Hc Hbytes (phnum c) _ 0 _ t1 l1 A R Hoff HI L0) as (o & t2 & l2 & A2 & E2 & HI2 & SP2 & Ho).
  erewrite bind_run by exact E2. destruct o as [sz|].
  2: { rewrite <- (sp_dir _ _ _ _ _ _ _ _ SP2).
    destruct (fail_free t2 l2 A2 l R (mem_of t) (sp_own _ _ _ _ _ _ _ _ SP2)) as (k3 & l3 & E3 & HK3 & Hl3 & Hs3); [by rewrite (sp_all _ _ _ _ _ _ _ _ SP2)|eapply same_on_trans; [exact Hs|apply SP2]|].
    erewrite bind_run by exact E3. destruct (rl_run Hrel (with_mem k3 t2)) as (t4 & E4 & Em4 & HJ); [by apply (rf_mem _ _ _ Hreads)|]. erewrite bind_run by exact E4. rewrite mem_with_mem in Em4.
    exists None, t4. split; [done|]. rewrite <- Em4 in Hs3, HK3. split; [done|]. split; [done|]. split; [|eauto]. destruct Ho as [Ho|Ho]; [left; intros [_ _ Hseg _ _]; congruence|right].
    eapply too_few_mono; [|eapply too_few_perm; [exact Hall|exact Ho]]. apply program_pages_size. }
  assert (HK2 : has_kernel A2) by (apply (has_kernel_same _ _ _ _ _ _ _ SP2); intros n _; exact (f_equal (lookup n) Hpm)).
  destruct Ho as (Hseg & -> & L2). destruct (rl_run Hrel t2 HI2) as (t3 & E3 & Em3 & HJ3). erewrite bind_run by exact E3. rewrite <- Em3 in SP2, L2.
  destruct (exec_stack_ok _ _ _ _ _ _ argv L2 HK2 Hargs) as (o & k4 & l4 & A4 & E4 & SP4 & Ho). rewrite (sp_dir _ _ _ _ _ _ _ _ SP2) in E4. fold (program_pages c) in Ho.
  erewrite bind_run by (apply inmem_run; exact E4). pose proof (rl_mem Hrel k4 t3 HJ3) as HJ4. set (t4 := with_mem k4 t3) in *. assert (Em4 : k4 = mem_of t4) by (symmetry; apply mem_with_mem).
  pose proof (same_pages_trans _ _ _ _ _ _ _ _ _ _ _ SP2 SP4) as SP. rewrite Em4 in SP, Ho.
  assert (Hs4 : same_on R (kmemory (mem_of t)) (kmemory (mem_of t4))) by (eapply same_on_trans; [exact Hs|apply SP]).
  destruct o as [[sz sp]|].
  - destruct Ho as (Hk & Hfit & -> & Hprog). eexists (Some _), t4. split; [reflexivity|]. split; [done|]. split; [done|]. split; [exact (mkrunnable _ _ Hlen Hmagic Hseg Hk Hfit)|]. exists l4, A4. cbn [im_pgdir im_sz im_entry im_sp].
    split; [symmetry; apply SP|]. split; [apply SP|]. split; [by rewrite (sp_all _ _ _ _ _ _ _ _ SP)|]. split; [done|]. split; [done|]. split; [exact Hprog|]. exact (has_kernel_same _ _ _ _ _ _ _ SP4 HK2).
  - rewrite <- (sp_dir _ _ _ _ _ _ _ _ SP). destruct (fail_free t4 l4 A4 l R (mem_of t) (sp_own _ _ _ _ _ _ _ _ SP)) as (k5 & l5 & E5 & HK5 & Hl5 & Hs5); [by rewrite (sp_all _ _ _ _ _ _ _ _ SP)|done|].
    erewrite bind_run by exact E5. exists None, (with_mem k5 t4). split; [done|]. unfold executed. rewrite mem_with_mem. split; [by apply (rl_mem Hrel)|]. split; [done|]. split; [|eauto].
    destruct Ho as [Ho|[Ho|Ho]]; [left; intros [_ _ _ Hz _]; exact (Zle_not_lt _ _ Ho Hz)|right|left; intros [_ _ _ _ Hf]; exact (Ho Hf)]. eapply too_few_perm; [|exact Ho]. by rewrite (sp_all _ _ _ _ _ _ _ _ SP2).
Qed.

Lemma exec_image_ok t l R argv : I t -> kmem_ok kend (mem_of t) l -> NoDup (l ++ R) -> (forall q, q ∈ R -> page kend q) -> (forall s, s ∈ argv -> zlen s < 2 ^ 25) ->
  exists o t', exec_image kend kdata null readi release argv t = Ok o t' /\ executed t l R argv o t'.
Proof using Hkend HL Hreads Hrel Hc Hbytes Hal Hdata.
  intros HI HK HN HP Hargs. unfold exec_image. destruct (read_exact_ok c readi I Hreads 0 elfhdr_size t ltac:(done) ltac:(done) HI) as (t1 & E1 & Em1 & HI1).
  erewrite bind_run by exact E1. clear E1. fold (header c). rewrite Z.add_0_l. rewrite <- Em1 in HK.
  assert (Hbad : forall t2 l2, I t2 -> kmem_ok kend (mem_of t2) l2 -> l2 ≡ₚ l -> same_on R (kmemory (mem_of t)) (kmemory (mem_of t2)) -> ~ runnable c argv \/ too_few l (program_pages c * PGSIZE) ->
    exists o t', (release;; mret (@None image)) t2 = Ok o t' /\ executed t l R argv o t').
  { intros t2 l2 HI2 HK2 Hl2 Hs2 Hwhy. destruct (rl_run Hrel t2 HI2) as (t3 & E3 & Em3 & HJ). erewrite bind_run by exact E3. exists None, t3. split; [done|].
    rewrite <- Em3 in HK2, Hs2. split; [done|]. split; [done|]. eauto. }
  assert (Hs1 : same_on R (kmemory (mem_of t)) (kmemory (mem_of t1))) by (rewrite Em1; apply same_on_refl).
  case_decide as Hlen; [|apply (Hbad t1 l); auto; left; intros [Hh _ _ _ _]; exact (Hlen Hh)].
  destruct (Z.eqb_spec (e_magic (header c)) ELF_MAGIC) as [Hm|Hm]; cbn [negb]; [|apply (Hbad t1 l); auto; left; intros [_ Hm' _ _ _]; exact (Hm Hm')].
  destruct (setupkvm_ok kend kdata Hkend Hal Hdata (mem_of t1) l R HK HN HP) as (r & k2 & l2 & E2 & Hs2 & Hcase). erewrite bind_run by (apply inmem_run; exact E2).
  pose proof (rf_mem _ _ _ Hreads k2 t1 HI1) as HI2. set (t2 := with_mem k2 t1) in *. assert (Em2 : k2 = mem_of t2) by (symmetry; apply mem_with_mem). rewrite Em2 in Hs2, Hcase.
  pose proof (same_on_trans _ _ _ _ Hs1 Hs2) as Hs. destruct Hcase as [(A & -> & Hnz & HO & Hl2 & Hpm)|(-> & HK2 & Hl2 & Hfew)].
  - rewrite (proj2 (Z.eqb_neq _ _) Hnz). by apply (build_ok t t2 l l2).
  - apply (Hbad t2 l2); auto. right. unfold too_few, zlen. pose proof (program_pages_size c) as Hps. pose proof (pages_upto_mono 0 (program_pages c * PGSIZE) ltac:(lia)) as Hm0. change (pages_upto 0) with 0 in Hm0. lia.
Qed.
End image.

(** ** The property *)

(** C19: building the memory of a new program.  exec reads the program through readi() and gives
    the file back before it makes the stack, or when it fails.  It succeeds only if the file is
    a program that fits below the kernel with its arguments; then the new page table has the
    kernel, the segments of the file with zeros after them, one page that the program cannot
    use, and the stack with the arguments as main() expects them, and nothing else.  Otherwise
    it returns 0, which it does for such a program only if there are too few pages, and every
    page that was free is free again.  No page outside the free list changes in any case.  Every
    argument is shorter than 32 megabytes, the size of the device space at the top of memory:
    where a longer one makes the stack pointer wrap around, it is not refused for sure. *)
Theorem exec_image_spec {T : Type} {HT : HasMemory T} {HL : HasMemoryLaws T} (kend kdata null : Z) (c : list Z)
    (readi : Z -> Z -> M T (option (list Z))) (release : M T unit) (I J : T -> Prop) (t : T) (l R : list Z) (argv : list (list Z))
    (Hkend : KERNBASE < kend) (Hal : kdata mod PGSIZE = 0) (Hdata : KERNLINK < kdata < KERNBASE + PHYSTOP)
    (Hreads : reads_file c readi I) (Hrel : releases release I J) (Hc : zlen c <= 2 ^ 31) (Hbytes : Forall is_u8 c)
    (HI : I t) (HK : kmem_ok kend (mem_of t) l) (HN : NoDup (l ++ R)) (HR : forall q, q ∈ R -> page kend q)
    (Hargs : forall s, s ∈ argv -> zlen s < 2 ^ 25) :
  exists o t', exec_image kend kdata null readi release argv t = Ok o t' /\
    J t' /\ same_on R (kmemory (mem_of t)) (kmemory (mem_of t')) /\
    match o with
    | Some im => runnable c argv /\ exists l' A, im_pgdir im = dir A /\ own kend (mem_of t') l' A (upages A ++ R) /\ all_pages A l' ≡ₚ l /\
        im_sz im = program_pages c * PGSIZE /\ im_entry im = e_entry (header c) /\
        program_ok (kmemory (mem_of t')) A (program_pages c) (program_image c) argv (im_sp im) /\
        forall n, KERNBASE / PGSIZE <= n -> pm A !! n = kernel_map kdata !! n
    | None => (~ runnable c argv \/ too_few l (program_pages c * PGSIZE)) /\ exists l', kmem_ok kend (mem_of t') l' /\ l' ≡ₚ l
    end.
Proof. exact (exec_image_ok kend kdata null Hkend c readi release I J Hreads Hrel Hc Hbytes Hal Hdata t l R argv HI HK HN HR Hargs). Qed.

Definition demo_readi (off n : Z) : M kmem (option (list Z)) :=
  mret (if zlen demo_elf <? off then None else Some (slice demo_elf off (Z.min n (zlen demo_elf - off)))).

Lemma demo_reads : reads_file demo_elf demo_readi (fun _ => True).
Proof.
  split; [|done]. intros off n k Hoff Hn _. unfold demo_readi, is_u32 in *. change (zlen demo_elf) with 88. eexists _, k. split; [reflexivity|]. split; [done|]. split; [done|].
  destruct (Z.ltb_spec 88 off); [lia|]. case_decide; [by rewrite Z.min_l by lia|]. rewrite zlen_slice; [lia|lia|lia|change (zlen demo_elf) with 88; lia].
Qed.

Lemma exec_image_spec_witness : exists k im k' A, exec_image 2148619432 2148564992 0 demo_readi (mret tt) [[108; 115]] k = Ok (Some im) k' /\
  im_sz im = 12288 /\ uread (kmemory k') A 1 = Some 254 /\ uread (kmemory k') A 5 = Some 0 /\ ~ accessible A 1 /\ accessible A 2.
Proof.
  destruct (kinit_ok 2148619432 ltac:(vm_compute; split; discriminate) (fun _ => 0) false) as (k & l & _ & HK & _ & Hl).
  assert (Hmany : 8192 <= zlen l) by (apply boot_many; [lia|exact Hl|apply HK]). exists k.
  destruct (exec_image_spec 2148619432 2148564992 0 demo_elf demo_readi (mret tt) (fun _ => True) (fun _ => True) k l [] [[108; 115]]) as (o & k' & E & _ & _ & Ho).
  - done.
  - done.
  - split; reflexivity.
  - exact demo_reads.
  - split; [|done]. intros t _. by exists t.
  - done.
  - cbn. concrete_bytes.
  - done.
  - exact HK.
  - rewrite app_nil_r. apply HK.
  - intros q Hq. by apply not_elem_of_nil in Hq.
  - intros s ->%list_elem_of_singleton. done.
  - assert (Hp : program_pages demo_elf = 3) by (vm_compute; reflexivity). rewrite Hp in Ho. destruct o as [im|].
    + destruct Ho as (_ & l' & A & _ & _ & _ & Hsz & _ & Hprog & _). exists im, k', A. split; [exact E|]. split; [exact Hsz|].
      rewrite !(pr_image _ _ _ _ _ _ Hprog) by (unfold PGSIZE; lia). split; [vm_compute; reflexivity|]. split; [vm_compute; reflexivity|].
      rewrite !(pr_user _ _ _ _ _ _ Hprog) by lia. split; lia.
    + exfalso. destruct Ho as [[Hn|Hn] _].
      * apply Hn. split; [done|vm_compute; reflexivity|vm_compute; reflexivity|rewrite Hp; done|]. split; vm_compute; discriminate.
      * unfold too_few in Hn. change (pages_upto (3 * PGSIZE)) with 3 in Hn. lia.
Defined.
