(* ===== verification/ExecCall.v ===== *)
(** * The exec system call

    exec of exec.c from the path to the return: the file system of SysSpec.v finds and reads the
    program, ExecSpec.v builds its memory, and the process gets it in place of the old one. *)

From S2P Require Import Prelude CString ProcTable Proc Bytes Kalloc Pipe Bio Log Blocks LogBlocks Fs FsBlocks FsInode FsData FsWrite FsTrunc FsCache FsDir FsState FsPath FsDemo File SysFile FileSpec SysFileSpec FsSpec SysSpec Vm VmSpec Exec ExecSpec.
From stdpp Require Import gmap.
#[local] Open Scope Z_scope.
#[local] Opaque memset memmove store_word kernel_map.

(** ** Two address spaces *)

Section spaces.
Context (kend : Z) (Hkend : KERNBASE < kend).
Implicit Types (k : kmem) (l R : list Z) (A P : aspace).
Abbreviation own := (own kend).

(** The pages of the old address space are among those the new one does not touch. *)
Lemma own_swap k l A P R : own k l A (upages A ++ spare P R) -> repr kend (kmemory k) P -> own k l P (upages P ++ spare A R).
Proof.
  intros [H1 H2 H3 H4] HP. split; [done|done| |].
  - eapply NoDup_Permutation_proper; [|exact H3]. unfold spare. perm.
  - intros p Hp. unfold spare in Hp. rewrite !elem_of_app in Hp. destruct Hp as [Hp|[Hp|Hp]].
    + apply H4. unfold spare. rewrite !elem_of_app. auto.
    + by apply (r_pages _ _ _ H2).
    + apply H4. unfold spare. rewrite !elem_of_app. destruct Hp; auto.
Qed.

(** The old one is freed. *)
Lemma free_old k l A P R : own k l A (upages A ++ spare P R) -> repr kend (kmemory k) P ->
  exists k' l', freevm kend (dir P) k = Ok tt k' /\ own k' l' A (upages A ++ R) /\ all_pages A l' ≡ₚ all_pages P (all_pages A l) /\
    same_on (upages A ++ R) (kmemory k) (kmemory k').
Proof.
  intros HO HP. pose proof (own_swap k l A P R HO HP) as HO'. destruct (free_copy kend Hkend k l P (spare A R) HO') as (k' & l' & E & HK & Hl & Hs).
  exists k', l'. split; [exact E|]. split; [|split; [unfold all_pages in *; rewrite Hl; perm|]].
  - split; [done| | |].
    + eapply repr_frame; [apply HO|]. eapply same_on_sub; [exact Hs|]. intros p Hp. unfold spare. by apply elem_of_app; left.
    + rewrite Hl. eapply NoDup_Permutation_proper; [|exact (o_nodup _ _ _ _ _ HO')]. unfold all_pages, spare. perm.
    + intros p Hp. apply (o_pages _ _ _ _ _ HO'). unfold spare. rewrite !elem_of_app. rewrite elem_of_app in Hp. destruct Hp; auto.
  - eapply same_on_sub; [exact Hs|]. intros p Hp. unfold spare. by apply elem_of_app; right.
Qed.

Lemma program_same m m' A N img argv sp : same_on (upages A) m m' -> 2 <= N <= UPAGES -> program_ok m A N img argv sp -> program_ok m' A N img argv sp.
Proof.
  intros Hs HN [H1 H2 H3 (H4 & H5 & H6) (ptrs & H7 & H8)]. assert (HK : N * PGSIZE <= KERNBASE) by (unfold PGSIZE, KERNBASE; lia).
  assert (Hu : forall x, 0 <= x < N * PGSIZE -> uread m' A x = uread m A x) by (intros x Hx; apply uread_same; [done|lia]). pose proof (zlen_pos argv) as Ha.
  assert (Hp : length ptrs = length argv) by (symmetry; by eapply Forall2_length). split; [|done|done|done|].
  - intros x Hx. rewrite Hu by (unfold PGSIZE in *; lia). by apply H1.
  - exists ptrs. split.
    + eapply holds_frame; [exact H7|]. intros x Hx. apply Hu. unfold zlen in Hx. rewrite length_bytes_of, !length_app, Hp in Hx. cbn [length] in Hx. unfold PGSIZE, zlen in *. lia.
    + eapply Forall2_impl; [exact H8|]. cbn. intros s q (Q1 & Q2 & Q3). split; [|done]. eapply holds_frame; [exact Q1|]. rewrite zlen_app. change (zlen [0]) with 1.
      intros x Hx. apply Hu. unfold PGSIZE in *. lia.
Qed.
End spaces.

(** ** The name of the program *)

(** The string at [nm] is what follows the last slash of the path, cut to 15 bytes. *)
Definition named_after (path nm : list Z) : Prop :=
  exists d b, until_nul path = d ++ b /\ (SLASH ∉ b) /\ (d = [] \/ exists d', d = d' ++ [SLASH]) /\ until_nul nm = take 15 b.

Lemma last_name_ok s : forall acc, exists d b, until_nul s = d ++ b /\ (SLASH ∉ b) /\
  (d = [] /\ last_name acc s = acc \/ (exists d', d = d' ++ [SLASH]) /\ until_nul (last_name acc s) = b).
Proof.
  induction s as [|c s IH]; intros acc; [exists [], []; set_solver|]. cbn [until_nul last_name]. destruct (c =? 0); [exists [], []; set_solver|].
  destruct (IH (if c =? SLASH then s else acc)) as (d & b & E & Hb & Hd). rewrite E. destruct Hd as [[-> Hl]|[[d' ->] Hl]].
  - rewrite Hl. destruct (Z.eqb_spec c SLASH) as [->|Hc].
    + exists [SLASH], b. split; [done|]. split; [done|]. right. split; [by exists []|done].
    + exists [], (c :: b). split; [done|]. split; [set_solver|by left].
  - exists (c :: d' ++ [SLASH]), b. split; [done|]. split; [done|]. right. split; [by exists (c :: d')|done].
Qed.

Lemma safestrcpy16_string old s : until_nul (safestrcpy16 old s) = take 15 (until_nul s) /\ (length old = 16 -> length (safestrcpy16 old s) = 16)%nat.
Proof.
  assert (E : cstr_prefix s = until_nul s) by (induction s as [|c s IH]; [done|]; cbn; by destruct (c =? 0); rewrite ?IH).
  unfold safestrcpy16. rewrite E. set (t := take 15 (until_nul s)). set (z := if (length t <? 15)%nat then [0; 0] else [0]). assert (Hz : exists z', z = 0 :: z' /\ (length t + length z <= 16)%nat).
  { assert (length t <= 15)%nat by (unfold t; rewrite length_take; lia). unfold z. destruct (Nat.ltb_spec (length t) 15); eexists; (split; [reflexivity|cbn; lia]). }
  destruct Hz as (z' & Ez & Hl). split.
  - rewrite Ez. cbn [app]. assert (Hn : 0 ∉ t) by (intros H%elem_of_take; destruct H as (i & Hi & _); eapply until_nul_no_nul, list_elem_of_lookup_2, Hi).
    rewrite until_nul_app, decide_False by done. apply app_nil_r.
  - intros Ho. rewrite !length_app, length_drop. lia.
Qed.

Lemma exec_name path old : let nm := safestrcpy16 old (last_name path path) in named_after path nm /\ (length old = 16 -> length nm = 16)%nat.
Proof.
  destruct (safestrcpy16_string old (last_name path path)) as [H1 H2]. split; [|exact H2]. destruct (last_name_ok path path) as (d & b & E & Hb & Hd).
  exists d, b. split; [done|]. split; [done|]. rewrite H1. destruct Hd as [[-> ->]|[Hd ->]]; [|by auto]. split; [by left|]. by rewrite E.
Qed.

(** ** The program file *)

(** namei() of a path. *)
Lemma namei_wp {S} {B : BlockDev S} {L : BlockLaws S B} sb pid devread junk f v I R cwd path : sb_ok sb -> zlen junk = DIRSIZ -> fstate sb pid f v I ∅ R -> tree_ok v I -> used (icache f) cwd ->
  wp (namei sb pid devread cwd path junk)
    (fun r f' =>
       match walk v I (start f cwd path) (FsPath.elements path []) with
       | Some j => exists ip, r = Some ip /\ at_inode sb pid f v I R ip j f'
       | None => r = None /\ restored sb pid f v I R f'
       end) (crowded f) f.
Proof.
  intros Hsb Hjunk H0 HT HU. unfold namei. eapply wp_step; [exact (namex_wp sb Hsb pid devread f v I R cwd path false junk H0 HT HU Hjunk)| |done].
  unfold resolved. intros r f' Hr. apply wp_ret. exact Hr.
Qed.

Section call.
Context (sb : superblock) (Hsb : sb_ok sb) (pid st sz : Z) (Hsz : MAXOPBLOCKS + 1 < sz).
Context (devread : Z -> option (Z -> Z -> M (fs logst) (option (list Z)))).
Implicit Types (x : xst) (f : fs logst) (v : view) (d : dinode) (I : gmap Z dinode) (i j ip : Z).

#[local] Instance call_blocks : BlockDev logst := log_blocks_dev pid.

(** All but the files on the disk and the memory is as in [x0]. *)
Record framed x0 x : Prop := mkframed {
  fr_proc : x_proc x = x_proc x0;
  fr_files : ftable (k_files (x_k x)) = ftable (k_files (x_k x0)) /\ pipes (k_files (x_k x)) = pipes (k_files (x_k x0));
  fr_ofile : k_ofile (x_k x) = k_ofile (x_k x0);
  fr_cwd : k_cwd (x_k x) = k_cwd (x_k x0) }.

Lemma onk_run {A} (m : M (fs logst) A) a f x : m (k_fs (x_k x)) = Ok a f -> onk (onfs m) x = Ok a (x <| x_k := (x_k x) <| k_fs := f |> |>).
Proof using. intros E. unfold onk, onfs. by rewrite E. Qed.

Lemma wp_onk {A} (m : M (fs logst) A) (Q : A -> xst -> Prop) (E : string -> Prop) x :
  wp m (fun a f => Q a (x <| x_k := (x_k x) <| k_fs := f |> |>)) E (k_fs (x_k x)) -> wp (onk (onfs m)) Q E x.
Proof using. unfold wp, onk, onfs. by destruct (m (k_fs (x_k x))). Qed.

Lemma wp_onk_step {A A'} (m : M (fs logst) A) (K : A -> M xst A') (Q' : A -> fs logst -> Prop) (E' : string -> Prop) (Q : A' -> xst -> Prop) (E : string -> Prop) x :
  wp m Q' E' (k_fs (x_k x)) -> (forall a f, Q' a f -> wp (K a) Q E (x <| x_k := (x_k x) <| k_fs := f |> |>)) -> (forall msg, E' msg -> E msg) ->
  wp (onk (onfs m) ≫= K) Q E x.
Proof using. intros H HK HE. apply wp_bind, wp_onk. eapply wp_mono; [exact H|done|done]. Qed.

Section file.
Context (D : list (list Z)) (Wr : list (Z * list Z)).
Abbreviation L := (in_trans pid st sz Hsz D Wr).
Context (f0 : fs logst) (v : view) (I : gmap Z dinode) (R : Z -> Z).
Context (H0 : @fstate _ _ L sb pid f0 v I ∅ R) (HT : tree_ok v I) (x0 : xst) (ip j : Z) (d : dinode) (Hj : I !! j = Some d).

Definition reading x : Prop := @locked_at _ _ L sb pid f0 v I R ip j (k_fs (x_k x)) /\ framed x0 x.

Lemma file_reads : d_type d <> T_DEV -> reads_file (fdata v d) (fun off n => onk (onfs (readi sb devread ip off n))) reading.
Proof using Hsb Hj.
  clear H0 HT. intros Hty. split; [|intros k x [H1 H2]; split; [exact H1|by destruct H2]].
  intros off n x Hoff Hn [[Hst Hh Hk] Hfr]. pose proof (st_mounted _ _ _ _ _ _ _ Hst) as HM.
  destruct (st_entry (L := L) sb pid _ _ _ _ _ _ _ _ Hst Hh ltac:(set_solver) Hj) as (HU & Hv & Ed & _).
  destruct (readi_spec (L := L) sb devread (k_fs (x_k x)) v I ∅ ip off n Hsb HM HU Hv ltac:(by rewrite Ed) Hoff Hn) as (f' & E & Hc & HM'). rewrite Ed in E.
  destruct (fi_size sb v I (mo_inv _ _ _ _ _ HM) j d Hj) as [Hsize _]. assert (Hlen : zlen (fdata v d) = d_size d) by (apply zlen_fbytes; lia).
  eexists _, (x <| x_k := (x_k x) <| k_fs := f' |> |>). split; [apply onk_run; exact E|]. split; [done|]. split.
  - destruct (fstate_same (L := L) sb pid _ _ _ _ _ f' Hst Hc HM') as [Hst' Hh']. split; [|by destruct Hfr]. split; [done|by apply Hh'|]. intros jp i Hi. by apply Hh', Hk.
  - unfold is_u32, MAXFILE, NDIRECT, NINDIRECT, BSIZE in *. rewrite Hlen. destruct (Z.ltb_spec (d_size d) off); cbn [orb]; [lia|]. destruct (Z.leb_spec (2 ^ 32) (off + n)); [lia|].
    case_decide; [by rewrite Z.min_l by lia|]. rewrite zlen_slice by lia. lia.
Qed.

(** Then the file is given back, and the file system is idle again. *)
Definition released x : Prop := idle sb pid st sz (k_fs (x_k x)) (rest v) I /\ all_unlocked (k_fs (x_k x)) /\ (forall i, refs (icache (k_fs (x_k x))) i = R i) /\
  keeps f0 (k_fs (x_k x)) /\ framed x0 x.

Lemma end_released x : @restored _ _ L sb pid f0 v I R (k_fs (x_k x)) -> framed x0 x -> wp (onk (onfs (fend_op pid))) (fun _ x' => mem_of x' = mem_of x /\ released x') (fun _ => False) x.
Proof using Hsb.
  intros [Hst Hk] Hfr. apply wp_onk. eapply wp_mono; [exact (end_wp sb pid st sz Hsz D Wr _ v I (st_mounted _ _ _ _ _ _ _ Hst))| |done].
  intros [] f (Hc & HI & _). split; [done|]. split; [exact HI|]. cbn. pose proof (fstate_unlocked (L := L) sb Hsb pid _ _ _ _ Hst) as Hun. split; [|split; [|split; [|by destruct Hfr]]].
  - intros jp Hjp. unfold the_inode. rewrite Hc. by apply (Hun jp).
  - intros i. rewrite Hc. apply (st_refs _ _ _ _ _ _ _ Hst).
  - intros jp i Hi. unfold holds, inum_of. rewrite Hc. by apply Hk.
Qed.

Lemma file_released : kept I R j -> releases (onk (onfs (iunlockput sb pid ip));; onk (onfs (fend_op pid))) reading released.
Proof using Hsb H0 HT Hj.
  intros HK. split; [|intros k x (H1 & H2 & H3 & H4 & H5); split; [exact H1|]; split; [exact H2|]; split; [exact H3|]; split; [exact H4|by destruct H5]].
  intros x [Hl Hfr]. assert (Hw : wp (onk (onfs (iunlockput sb pid ip));; onk (onfs (fend_op pid))) (fun _ x' => mem_of x' = mem_of x /\ released x') (fun _ => False) x).
  { eapply wp_onk_step; [exact (leave_wp (L := L) sb Hsb pid f0 v I R H0 HT ip j d (k_fs (x_k x)) Hl Hj HK)| |done]. intros [] f Rs.
    match goal with |- wp _ _ _ ?t => assert (Ht : framed x0 t) by (by destruct Hfr); exact (end_released t Rs Ht) end. }
  apply wp_Ok in Hw as ([] & x' & E & Hm & Hr). by exists x'.
Qed.
End file.

Context (kend kdata null : Z) (Hkend : KERNBASE < kend) (Hal : kdata mod PGSIZE = 0) (Hdata : KERNLINK < kdata < KERNBASE + PHYSTOP).
Context (junk : list Z) (Hjunk : zlen junk = DIRSIZ).

(** The process that runs the new program under the name [nm]. *)
Definition becomes (p : proc) (nm : list Z) (im : image) : proc :=
  p <| name := nm |> <| pgdir := im_pgdir im |> <| proc_sz := im_sz im |>
    <| tf := (tf p) <| tf_eip := im_entry im |> <| tf_esp := im_sp im |> |>.

(** exec on a file with the bytes [c], by a process with the address space [P]. *)
Definition exec_effect (c path : list Z) (argv : list (list Z)) (l R : list Z) (P : aspace) x (r : Z) x' : Prop :=
  r = 0 /\ runnable c argv /\ (exists im nm l' A, x_proc x' = becomes (x_proc x) nm im /\ named_after path nm /\ (length (name (x_proc x)) = 16 -> length nm = 16)%nat /\
     im_pgdir im = dir A /\ im_sz im = program_pages c * PGSIZE /\ im_entry im = e_entry (header c) /\
     own kend (x_mem x') l' A (upages A ++ R) /\ all_pages A l' ≡ₚ all_pages P l /\ same_on R (kmemory (x_mem x)) (kmemory (x_mem x')) /\
     program_ok (kmemory (x_mem x')) A (program_pages c) (program_image c) argv (im_sp im) /\
     forall n, UPAGES <= n -> pm A !! n = kernel_map kdata !! n) \/
  r = -1 /\ (~ runnable c argv \/ too_few l (program_pages c * PGSIZE)) /\ x_proc x' = x_proc x /\
    exists l', own kend (x_mem x') l' P (upages P ++ R) /\ l' ≡ₚ l /\ same_on (spare P R) (kmemory (x_mem x)) (kmemory (x_mem x')).

Lemma spare_pages k l P R : own kend k l P (upages P ++ R) -> forall q, q ∈ spare P R -> page kend q.
Proof using.
  intros HO q. unfold spare. rewrite elem_of_app. intros [Hq|Hq]; [by apply (r_pages _ _ _ (o_repr _ _ _ _ _ HO))|by apply (o_pages _ _ _ _ _ HO)].
Qed.

Lemma same_repr k k' l P R : own kend k l P (upages P ++ R) -> same_on (spare P R) (kmemory k) (kmemory k') -> repr kend (kmemory k') P.
Proof using. intros HO Hs. eapply repr_frame; [apply HO|]. eapply same_on_sub; [exact Hs|]. intros p Hp. unfold spare. by apply elem_of_app; left. Qed.

(** What follows the image, for either outcome. *)
Lemma commit_wp c path argv l R P x x1 J o : own kend (x_mem x) l P (upages P ++ R) -> pgdir (x_proc x) = dir P -> framed x x1 ->
  executed kend kdata c J x l (spare P R) argv o x1 ->
  wp (match o with None => mret (-1) | Some im => exec_commit kend path im end)
    (fun r x2 => (exists k, x_k x2 = x_k (with_mem k x1)) /\ exec_effect c path argv l R P x r x2) (fun _ => False) x1.
Proof using Hkend.
  intros HO Hd Hfr (HJ & Hs & Ho). destruct o as [im|].
  2: { apply wp_ret. split; [exists (mem_of x1); by rewrite with_mem_mem|]. right. destruct Ho as [Hwhy (l' & HK & Hl)]. split; [done|]. split; [done|]. split; [apply Hfr|]. exists l'. split; [|done].
    split; [done|by eapply same_repr| |apply HO]. rewrite Hl. apply HO. }
  destruct Ho as (Hrun & l1 & A & Hdir & HO1 & Hl1 & Hims & Hent & Hprog & Hker). unfold exec_commit. do 3 (eapply wp_step_run; [reflexivity|]).
  destruct (free_old kend Hkend _ _ _ _ _ HO1 (same_repr _ _ _ _ _ HO Hs)) as (k2 & l2 & E2 & HO2 & Hl2 & Hs2).
  eapply wp_step_run; [apply inmem_run; cbn; rewrite (fr_proc _ _ Hfr), Hd; exact E2|]. apply wp_ret. split; [by exists k2|]. left. split; [done|]. split; [done|].
  exists im, (safestrcpy16 (name (x_proc x)) (last_name path path)), l2, A. split; [cbn; by rewrite (fr_proc _ _ Hfr)|]. split; [apply exec_name|]. split; [apply exec_name|]. do 3 (split; [done|]). split; [exact HO2|]. split.
  { rewrite Hl2. unfold all_pages at 1 3. rewrite Hl1. done. }
  split; [|split; [|exact Hker]].
  - eapply same_on_trans; [eapply same_on_sub; [exact Hs|]|eapply same_on_sub; [exact Hs2|]]; intros p Hp; unfold spare; rewrite !elem_of_app; auto.
  - eapply program_same; [| |exact Hprog].
    + eapply same_on_sub; [exact Hs2|]. intros p Hp. rewrite elem_of_app. auto.
    + pose proof (run_size _ _ Hrun) as Hk. pose proof (pages_upto_mono _ _ (proj1 (program_pages_size c))) as H0. change (pages_upto 0) with 0 in H0. unfold program_pages, PGSIZE, KERNBASE in *. lia.
Qed.

(** *** From the path on *)

Lemma walk_kept v I Rf es : tree_ok v I -> forall i j, kept I Rf i -> walk v I i es = Some j -> kept I Rf j.
Proof using.
  intros T. induction es as [|w es IH]; intros i j K; cbn [walk]; [by injection 1 as <-|]. destruct (child v I i w) as [m|] eqn:Em; [|done]. cbn. apply IH.
  destruct (child_linked v I i w m T Em) as (e & He & Hn). exists e. auto.
Qed.

(** What the process sees of the file system afterwards. *)
Definition same_files v I x x' : Prop := sees sb pid st sz (x_k x') v I /\ (forall i, refs (icache (k_fs (x_k x'))) i = refs (icache (k_fs (x_k x))) i) /\
  ftable (k_files (x_k x')) = ftable (k_files (x_k x)) /\ pipes (k_files (x_k x')) = pipes (k_files (x_k x)) /\ k_ofile (x_k x') = k_ofile (x_k x) /\ k_cwd (x_k x') = k_cwd (x_k x).

Lemma released_same v I x f1 x' : sees sb pid st sz (x_k x) v I -> icache f1 = icache (k_fs (x_k x)) -> released f1 v I (refs (icache f1)) x x' -> same_files v I x x'.
Proof using.
  intros [HI Hun HT HU] Hc (HI' & Hun' & HR & Hk & [F1 [F2 F2'] F3 F4]). assert (Hv : rest v = v) by (by rewrite (id_view _ _ _ _ _ _ _ HI)). rewrite Hv in HI'.
  split; [|split; [intros i; by rewrite HR, Hc|done]]. split; [done|done|done|]. rewrite F4. apply (Hk _ (inum_of (icache f1) (k_cwd (x_k x)))). split; [by rewrite Hc|done].
Qed.

Lemma exec_wp x v I l R P path argv (i0 := start (k_fs (x_k x)) (k_cwd (x_k x)) path) (es := FsPath.elements path []) :
  sees sb pid st sz (x_k x) v I -> own kend (x_mem x) l P (upages P ++ R) -> pgdir (x_proc x) = dir P -> (forall s, s ∈ argv -> zlen s < 2 ^ 25) ->
  (forall j d, walk v I i0 es = Some j -> I !! j = Some d -> d_type d <> T_DEV /\ Forall is_u8 (fdata v d)) ->
  wp (exec kend kdata null sb pid devread junk path argv)
    (fun r x' => same_files v I x x' /\
       match walk v I i0 es with
       | None => r = -1 /\ x_mem x' = x_mem x /\ x_proc x' = x_proc x
       | Some j => exists d, I !! j = Some d /\ exec_effect (fdata v d) path argv l R P x r x'
       end) (crowded (k_fs (x_k x))) x.
Proof using Hkend Hal Hdata Hsb Hjunk Hsz.
  intros HS HO Hd Hargs Hfile. pose proof HS as [HI Hun HT HU]. unfold exec. set (D := disk (lbio (fdev (k_fs (x_k x))))). set (Wr := writes (lbio (fdev (k_fs (x_k x))))).
  eapply wp_onk_step; [exact (begin_wp sb pid st sz Hsz (k_fs (x_k x)) v I HI)| |done]. intros [] f1 [Hc M1]. fold D Wr in M1. eapply wp_step_run; [reflexivity|]. cbv beta.
  assert (Hunf : all_unlocked f1) by (intros ip Hip; unfold the_inode; rewrite Hc; by apply (Hun ip)).
  pose proof (@fstate_start _ _ (in_trans pid st sz Hsz D Wr) sb Hsb pid f1 v I M1 Hunf) as H0. set (Rf := refs (icache f1)) in *.
  assert (Hst : start f1 (k_cwd (x_k x)) path = i0) by (unfold start, i0; by rewrite Hc).
  assert (HUf : used (icache f1) (k_cwd (x_k x))) by (by rewrite Hc).
  eapply wp_onk_step; [exact (namei_wp (L := in_trans pid st sz Hsz D Wr) sb pid devread junk f1 v I Rf (k_cwd (x_k x)) path Hsb Hjunk H0 HT HUf)| |].
  2: { intros msg [-> Hm]. split; [done|]. by rewrite <- Hc. }
  rewrite Hst. fold es. intros r f2 Hr. destruct (walk v I i0 es) as [j|] eqn:Ej.
  2: { destruct Hr as [-> Rs]. match goal with |- wp _ _ _ ?t => assert (Ht : framed x t) by done; eapply wp_step; [exact (end_released D Wr f1 v I Rf x t Rs Ht)| |done] end.
       intros [] x' [Hm Hrel]. apply wp_ret. split; [by eapply released_same|]. split; [done|]. split; [exact Hm|apply Hrel]. }
  destruct Hr as (ip & -> & HA). destruct (walk_kept v I Rf es HT i0 j) as (d & Hj & Hkept); [|exact Ej|].
  { rewrite <- Hst. exact (start_kept (L := in_trans pid st sz Hsz D Wr) sb pid f1 v I Rf (k_cwd (x_k x)) path H0 HT HUf). }
  assert (HK : kept I Rf j) by (by exists d). destruct (Hfile j d eq_refl Hj) as [Hty Hbytes].
  eapply wp_onk_step; [exact (ilock_at_wp (L := in_trans pid st sz Hsz D Wr) sb Hsb pid f1 v I Rf H0 HT ip j d f2 HA Hj)| |done]. intros [] f3 Hl.
  match goal with |- wp _ _ _ ?t => set (x3 := t) end. assert (Hread : reading D Wr f1 v I Rf x ip j x3) by (by split).
  destruct (fi_size sb v I (id_inv _ _ _ _ _ _ _ HI) j d Hj) as [Hsize _]. assert (Hlen : zlen (fdata v d) <= 2 ^ 31) by (unfold fdata; rewrite zlen_fbytes by lia; unfold MAXFILE, NDIRECT, NINDIRECT, BSIZE in *; lia).
  destruct (exec_image_ok kend kdata null Hkend (fdata v d) _ _ _ _ (file_reads D Wr f1 v I Rf x ip j d Hj Hty) (file_released D Wr f1 v I Rf H0 HT x ip j d Hj HK) Hlen Hbytes Hal Hdata
    x3 l (spare P R) argv Hread (o_free _ _ _ _ _ HO) (o_nodup _ _ _ _ _ HO) (spare_pages _ _ _ _ HO) Hargs) as (o & x4 & E4 & Hex).
  eapply wp_step_run; [exact E4|]. pose proof (proj1 Hex) as Hrel. assert (Hfr : framed x x4) by apply Hrel.
  eapply wp_mono; [exact (commit_wp (fdata v d) path argv l R P x x4 _ o HO Hd Hfr Hex)| |done]. intros r x5 [[k5 Hk5] Heff]. split; [|by exists d].
  destruct (released_same v I x f1 x4 HS Hc Hrel) as (S1 & S2 & S3). unfold same_files. rewrite Hk5. split; [by destruct S1|]. split; [exact S2|exact S3].
Qed.
End call.

(** C11: exec of a path.  If the path leads to a file with a program that fits, and there are
    enough pages, exec returns 0: the process has the program's entry point and stack, and as its
    name what follows the last slash of the path, cut to 15 bytes; its memory is the program
    with its arguments, and every page of its old memory that the new one does not use is free.
    Otherwise it returns -1 and neither the process nor its memory has changed.  The files, the
    references to them and the locks are as before in all cases.  The only panic is a full inode
    cache.  Every argument is shorter than 32 megabytes. *)
Theorem exec_spec (kend kdata null : Z) (sb : superblock) (pid st sz : Z) (devread : Z -> option (Z -> Z -> M (fs logst) (option (list Z)))) (junk : list Z)
    (x : xst) (v : view) (I : gmap Z dinode) (l R : list Z) (P : aspace) (path : list Z) (argv : list (list Z))
    (Hkend : KERNBASE < kend) (Hal : kdata mod PGSIZE = 0) (Hdata : KERNLINK < kdata < KERNBASE + PHYSTOP)
    (Hsb : sb_ok sb) (Hsz : MAXOPBLOCKS + 1 < sz) (Hjunk : zlen junk = DIRSIZ)
    (HS : sees sb pid st sz (x_k x) v I) (HO : own kend (x_mem x) l P (upages P ++ R)) (Hd : pgdir (x_proc x) = dir P)
    (Hargs : forall s, s ∈ argv -> zlen s < 2 ^ 25)
    (Hfile : forall j d, walk v I (start (k_fs (x_k x)) (k_cwd (x_k x)) path) (FsPath.elements path []) = Some j -> I !! j = Some d ->
       d_type d <> T_DEV /\ Forall is_u8 (fdata v d)) :
  match exec kend kdata null sb pid devread junk path argv x with
  | Ok r x' => same_files sb pid st sz v I x x' /\
      match walk v I (start (k_fs (x_k x)) (k_cwd (x_k x)) path) (FsPath.elements path []) with
      | Some j => exists d, I !! j = Some d /\ exec_effect kend kdata (fdata v d) path argv l R P x r x'
      | None => r = -1 /\ x_mem x' = x_mem x /\ x_proc x' = x_proc x
      end
  | Panic msg => msg = "iget: no inodes" /\ NINODE - 1 <= Z.of_nat (size (live (icache (k_fs (x_k x)))))
  end.
Proof.
  exact (exec_wp sb Hsb pid st sz Hsz devread kend kdata null Hkend Hal Hdata junk Hjunk x v I l R P path argv HS HO Hd Hargs Hfile).
Qed.

(** The program "/f" of the small disk, with the argument "ls". *)
Lemma exec_spec_witness : exists x x', exec 2148619432 2148564992 0 demo_sb 7 (fun _ => None) (replicate 14 0) [47; 102; 0] [[108; 115]] x = Ok 0 x' /\
  k_fs (x_k x) = demo_fs /\ until_nul (name (x_proc x')) = [102] /\ proc_sz (x_proc x') = 12288 /\ sees demo_sb 7 2 12 (x_k x') demo_view demo_inodes /\
  exists A, pgdir (x_proc x') = dir A /\ uread (kmemory (x_mem x')) A 1 = Some 254.
Proof.
  destruct boot_process as (k & l & P & HO & _ & _ & Hmany & _). set (kp := demo_proc <| k_files := (k_files demo_proc) <| fkmem := k |> |>).
  set (x := mkxst kp (zero_proc <| pgdir := dir P |>)). exists x. set (argv := [[108; 115]]).
  assert (HS : sees demo_sb 7 2 12 (x_k x) demo_view demo_inodes) by (destruct demo_sees; by split).
  assert (Hw : walk demo_view demo_inodes (start (k_fs (x_k x)) (k_cwd (x_k x)) [47; 102; 0]) (FsPath.elements [47; 102; 0] []) = Some 2) by (vm_compute; reflexivity).
  assert (Hargs : forall s : list Z, s ∈ argv -> zlen s < 2 ^ 25) by (intros s ->%list_elem_of_singleton; done).
  pose proof (exec_spec 2148619432 2148564992 0 demo_sb 7 2 12 (fun _ => None) (replicate 14 0) x demo_view demo_inodes l [] P [47; 102; 0] argv) as H.
  specialize (H eq_refl eq_refl ltac:(split; reflexivity) demo_sb_ok demo_sz eq_refl HS HO eq_refl Hargs). rewrite Hw in H.
  assert (Hfile : forall j d, Some 2 = Some j -> demo_inodes !! j = Some d -> d_type d <> T_DEV /\ Forall is_u8 (fdata demo_view d)).
  { intros j d [= <-] [[? _]|[[_ ->]|[? _]]]%demo_lookup; [lia| |lia]. rewrite demo_file_data. split; [done|unfold demo_elf; cbn; concrete_bytes]. }
  specialize (H Hfile). destruct (exec 2148619432 2148564992 0 demo_sb 7 (fun _ => None) (replicate 14 0) [47; 102; 0] argv x) as [r x'|msg].
  2: { exfalso. destruct H as [_ H]. revert H. vm_compute. by intros H; apply H. }
  destruct H as [[HS' _] (d & Hd & He)]. exists x'. apply demo_lookup in Hd as [[? _]|[[_ ->]|[? _]]]; [lia| |lia]. rewrite demo_file_data in He.
  assert (Hp : program_pages demo_elf = 3) by (vm_compute; reflexivity). unfold exec_effect in He. rewrite Hp in He. destruct He as [(-> & _ & im & nm & l' & A & Hproc & Hnm & _ & Hdir & Hsz & _ & _ & _ & _ & Hprog & _)|(_ & Hn & _)].
  - split; [reflexivity|]. split; [reflexivity|]. rewrite Hproc. split; [|split; [exact Hsz|split; [exact HS'|]]].
    + change (until_nul nm = [102]). destruct Hnm as (b & c & E & Hb & Hor & ->). change (until_nul [47; 102; 0]) with [47; 102] in E. destruct Hor as [->|[b' ->]].
      * cbn in E. subst c. exfalso. apply Hb. by left.
      * rewrite <- app_assoc in E. destruct b' as [|q b']; [cbn in E; by injection E as <-|]. exfalso. cbn in E. injection E as _ E. destruct b' as [|q' b']; [done|]. injection E as _ E. by destruct b'.
    + exists A. split; [exact Hdir|]. rewrite (pr_image _ _ _ _ _ _ Hprog) by (unfold PGSIZE; lia). vm_compute. reflexivity.
  - exfalso. destruct Hn as [Hn|Hn].
    + apply Hn. split; [done|vm_compute; reflexivity|vm_compute; reflexivity|rewrite Hp; done|]. split; vm_compute; discriminate.
    + unfold too_few in Hn. change (pages_upto (3 * PGSIZE)) with 3 in Hn. lia.
Defined.
