(* ===== verification/Malloc.v ===== *)
(** * The allocator of user programs

    umalloc.c: malloc and free keep the free blocks in a ring of headers through the blocks
    themselves, in the memory of the process.  A header is two words, the next free block and
    the size of its own block in units of eight bytes.  The ring starts at the static header
    [base], below the heap.  sbrk is an interface, with what the system call promises; a loop
    around the ring that does not end is a panic of its own. *)

From S2P Require Import Prelude CString Kalloc.
From stdpp Require Import gmap.
#[local] Open Scope Z_scope.

Record heap := mkheap { hmem : memory; freep : Z; brk : Z }.
#[export] Instance heap_eta : Eta heap := fun h => mkheap (hmem h) (freep h) (brk h).

Class Sbrk := { sbrk : Z -> M heap Z }.

(** -1, or the old end of the memory, which has grown by [n] bytes. *)
Class SbrkLaws (B : Sbrk) : Prop := sbrk_law : forall h n, 0 < n < 2 ^ 31 ->
  sbrk n h = Ok (2 ^ 32 - 1) h \/
  exists m, sbrk n h = Ok (brk h) (mkheap m (freep h) (brk h + n)) /\ brk h + n <= KERNBASE /\ forall x, x < brk h -> m x = hmem h x.

(** ** The code *)

Section code.
Context (base : Z) {B : Sbrk}.

(** sizeof(Header), and [p + n] on pointers to headers. *)
Definition header_size : Z := 8.
Definition units_on (p n : Z) : Z := u32 (p + header_size * n).

Definition s_ptr (p : Z) : M heap Z := gets (fun h => load_word (hmem h) p).
Definition s_size (p : Z) : M heap Z := gets (fun h => load_word (hmem h) (u32 (p + 4))).
Definition set_ptr (p v : Z) : M heap unit := modify (fun h => h <| hmem := store_word (hmem h) p v |>).
Definition set_size (p v : Z) : M heap unit := modify (fun h => h <| hmem := store_word (hmem h) (u32 (p + 4)) v |>).
Definition set_freep (p : Z) : M heap unit := modify (fun h => h <| freep := p |>).

(** As many headers as there is room for below [b], and the base. *)
Definition ring_fuel (b : Z) : nat := S (S (Z.to_nat (b / header_size))).

(** The free block before [bp]. *)
Fixpoint free_find (fuel : nat) (bp p : Z) : M heap Z :=
  match fuel with
  | O => panic "free: no end"
  | S fuel =>
      next ← s_ptr p;
      if (p <? bp) && (bp <? next) then mret p else
      if (next <=? p) && ((p <? bp) || (bp <? next)) then mret p else
      free_find fuel bp next
  end.

(** Joining with the block above, then with the one below. *)
Definition join_up (bp p : Z) : M heap unit :=
  size ← s_size bp;
  next ← s_ptr p;
  if units_on bp size =? next then
    more ← s_size next;
    set_size bp (u32 (size + more));;
    after ← s_ptr next;
    set_ptr bp after
  else set_ptr bp next.

Definition join_down (bp p : Z) : M heap unit :=
  size ← s_size p;
  if units_on p size =? bp then
    more ← s_size bp;
    set_size p (u32 (size + more));;
    after ← s_ptr bp;
    set_ptr p after
  else set_ptr p bp.

Definition free (ap : Z) : M heap unit :=
  let bp := u32 (ap - header_size) in
  b ← gets brk;
  f ← gets freep;
  p ← free_find (ring_fuel b) bp f;
  join_up bp p;;
  join_down bp p;;
  set_freep p.

(** 0 if sbrk fails. *)
Definition morecore (nu : Z) : M heap Z :=
  let nu := if nu <? 4096 then 4096 else nu in
  p ← sbrk (s32 (u32 (nu * header_size)));
  if p =? 2 ^ 32 - 1 then mret 0 else
  set_size p nu;;
  free (u32 (p + header_size));;
  gets freep.

(** The block [p] of [size] units, or its end. *)
Definition take (nunits prevp p size : Z) : M heap Z :=
  if size =? nunits then
    next ← s_ptr p;
    set_ptr prevp next;;
    set_freep prevp;;
    mret (u32 (p + header_size))
  else
    set_size p (u32 (size - nunits));;
    rest ← s_size p;
    let p := units_on p rest in
    set_size p nunits;;
    set_freep prevp;;
    mret (u32 (p + header_size)).

Fixpoint malloc_loop (fuel : nat) (nunits prevp p : Z) : M heap Z :=
  match fuel with
  | O => panic "malloc: no end"
  | S fuel =>
      size ← s_size p;
      if nunits <=? size then take nunits prevp p size else
      f ← gets freep;
      if p =? f then
        p ← morecore nunits;
        if p =? 0 then mret 0 else
        next ← s_ptr p;
        malloc_loop fuel nunits p next
      else
        next ← s_ptr p;
        malloc_loop fuel nunits p next
  end.

Definition nunits_of (nbytes : Z) : Z := u32 (u32 (nbytes + header_size - 1) / header_size + 1).

Definition malloc (nbytes : Z) : M heap Z :=
  let nunits := nunits_of nbytes in
  f ← gets freep;
  prevp ← (if f =? 0 then set_ptr base base;; set_freep base;; set_size base 0;; mret base else mret f);
  b ← gets brk;
  p ← s_ptr prevp;
  malloc_loop (ring_fuel b + ring_fuel b + 1) nunits prevp p.
End code.

(** ** Blocks and the ring *)

Abbreviation blk := (Z * Z)%type.
Implicit Types (x y : blk) (F R : list blk) (m : memory).

(** Membership in lists put together from pieces. *)
Ltac in_list :=
  repeat match goal with
  | H : _ ∈ _ ++ _ |- _ => rewrite elem_of_app in H
  | H : _ ∈ _ :: _ |- _ => rewrite elem_of_cons in H
  | H : _ ∈ _ :: _ \/ _ |- _ => rewrite elem_of_cons in H
  | H : _ \/ _ ∈ _ :: _ |- _ => rewrite elem_of_cons in H
  end;
  repeat first [rewrite elem_of_app | rewrite elem_of_cons]; solve [tauto | intuition auto].

Definition ends x : Z := x.1 + 8 * x.2.
Definition apart x y : Prop := ends x <= y.1 \/ ends y <= x.1.

(** Ascending, with a gap before each block. *)
Fixpoint spaced (lo : Z) F (hi : Z) : Prop :=
  match F with
  | [] => lo <= hi
  | x :: F => lo < x.1 /\ 1 <= x.2 /\ spaced (ends x) F hi
  end.

Definition first (R : list blk) (d : Z) : Z := match R with [] => d | x :: _ => x.1 end.

(** The headers of [R] are in memory, linked in order, the last one to [e]. *)
Fixpoint links m R (e : Z) : Prop :=
  match R with
  | [] => True
  | x :: R => load_word m x.1 = first R e /\ load_word m (x.1 + 4) = x.2 /\ links m R e
  end.

Definition units F : Z := foldr (fun x n => x.2 + n) 0 F.
Definition live_units (A : gmap Z Z) : Z := map_fold (fun _ s n => s + n) 0 A.

Lemma spaced_mono lo lo' F hi hi' : lo' <= lo -> hi <= hi' -> spaced lo F hi -> spaced lo' F hi'.
Proof.
  revert lo lo'. induction F as [|x F IH]; cbn; intros lo lo' Hlo Hhi; [lia|]. intros (H1 & H2 & H3). split; [lia|]. split; [done|].
  by eapply IH; [| |exact H3].
Qed.

Lemma spaced_app lo F1 F2 hi : spaced lo (F1 ++ F2) hi <-> exists mid, spaced lo F1 mid /\ spaced mid F2 hi.
Proof.
  revert lo. induction F1 as [|x F1 IH]; cbn; intros lo.
  - split; [intros H; exists lo; split; [lia|done]|intros (mid & H1 & H2); by eapply spaced_mono; [| |exact H2]].
  - rewrite IH. split; [intros (H1 & H2 & mid & H3 & H4); by exists mid|intros (mid & (H1 & H2 & H3) & H4); eauto].
Qed.

Lemma spaced_le lo F hi : spaced lo F hi -> lo <= hi.
Proof. revert lo. induction F as [|x F IH]; cbn; intros lo; [done|]. intros (H1 & H2 & H3%IH). unfold ends in *. lia. Qed.

Lemma spaced_in lo F hi x : spaced lo F hi -> x ∈ F -> lo < x.1 /\ 1 <= x.2 /\ ends x <= hi.
Proof.
  intros H (F1 & F2 & ->)%list_elem_of_split. apply spaced_app in H as (mid & H1 & H2). cbn in H2. destruct H2 as (H2 & H3 & H4).
  apply spaced_le in H1, H4. lia.
Qed.

Lemma links_app m R1 R2 e : links m (R1 ++ R2) e <-> links m R1 (first R2 e) /\ links m R2 e.
Proof.
  induction R1 as [|x R1 IH]; cbn; [tauto|]. rewrite IH. assert (first (R1 ++ R2) e = first R1 (first R2 e)) as -> by (by destruct R1). tauto.
Qed.

(** Only the headers matter. *)
Lemma links_frame m m' R e : links m R e -> (forall x, x ∈ R -> load_word m' x.1 = load_word m x.1 /\ load_word m' (x.1 + 4) = load_word m (x.1 + 4)) -> links m' R e.
Proof.
  induction R as [|x R IH]; cbn; [done|]. intros (H1 & H2 & H3) Hm. destruct (Hm x) as [E1 E2]; [left|]. rewrite E1, E2. split; [done|]. split; [done|].
  apply IH; [done|]. intros y Hy. apply Hm. by right.
Qed.

Lemma links_lookup m R e i x : links m R e -> R !! i = Some x -> load_word m (x.1 + 4) = x.2 /\ load_word m x.1 = from_option fst e (R !! S i).
Proof.
  revert i. induction R as [|y R IH]; intros [|i]; cbn; try done; intros (H1 & H2 & H3).
  - intros [= ->]. split; [done|]. rewrite H1. by destruct R.
  - intros Hi. by apply (IH i).
Qed.

Lemma spaced_lookup lo F hi i j x y : spaced lo F hi -> (i < j)%nat -> F !! i = Some x -> F !! j = Some y -> ends x < y.1.
Proof.
  revert lo i j. induction F as [|z F IH]; intros lo [|i] [|j]; cbn; try done; try lia; intros (H1 & H2 & H3) Hij.
  - intros [= ->] Hj. by apply (spaced_in _ _ _ _ H3), list_elem_of_lookup_2 with j.
  - intros Hi Hj. eapply IH; [exact H3| |done..]. lia.
Qed.

Lemma units_app F1 F2 : units (F1 ++ F2) = units F1 + units F2.
Proof. induction F1 as [|x F1 IH]; cbn; [done|]. fold (units (F1 ++ F2)) (units F1). rewrite IH. lia. Qed.

Lemma live_units_insert (A : gmap Z Z) a s : A !! a = None -> live_units (<[a := s]> A) = s + live_units A.
Proof. intros H. unfold live_units. rewrite map_fold_insert_L; [done| |done]. intros. lia. Qed.

Lemma live_units_delete (A : gmap Z Z) a s : A !! a = Some s -> live_units A = s + live_units (delete a A).
Proof. intros H. rewrite <- (live_units_insert (delete a A) a s) by apply lookup_delete_eq. by rewrite insert_delete_id. Qed.

(** Where a block belongs. *)
Lemma ring_place F n bp : forall x0, 1 <= n -> ends x0 <= bp -> (forall x, x ∈ F -> apart (bp, n) x) ->
  exists R1 p R2, x0 :: F = R1 ++ p :: R2 /\ ends p <= bp /\ forall y R3, R2 = y :: R3 -> bp + 8 * n <= y.1.
Proof.
  induction F as [|y F IH]; intros x0 Hn Hx HF; [by exists [], x0, []|].
  destruct (HF y) as [Hy|Hy]; [left| |].
  - exists [], x0, (y :: F). split; [done|]. split; [done|]. intros z R3 [= <- <-]. done.
  - destruct (IH y Hn Hy) as (R1 & p & R2 & E & Hp & HR); [intros x Hin; apply HF; by right|]. exists (x0 :: R1), p, R2. by rewrite E.
Qed.

(** Two neighbours. *)
Lemma list_lookup_middle_split {A} (l : list A) i (x y : A) : l !! i = Some x -> l !! S i = Some y -> exists l1 l2, l = l1 ++ x :: y :: l2.
Proof.
  intros Hx Hy. exists (firstn i l), (skipn (S (S i)) l). by rewrite <- (drop_S _ _ _ Hy), <- (drop_S _ _ _ Hx), firstn_skipn.
Qed.

Section ring.
Context (base start : Z) (Hbase : 0 < base) (Hstart : base + 8 <= start).
Implicit Types (h : heap) (A : gmap Z Z).

Lemma ring_mono F hi i j x y : spaced base F hi -> (i < j)%nat -> ((base, 0) :: F) !! i = Some x -> ((base, 0) :: F) !! j = Some y -> x.1 < y.1.
Proof.
  intros HF Hij. destruct i as [|i], j as [|j]; cbn; try lia.
  - intros [= <-] Hj. by apply (spaced_in _ _ _ _ HF), list_elem_of_lookup_2 with j.
  - intros Hi Hj. pose proof (spaced_lookup _ _ _ i j x y HF ltac:(lia) Hi Hj). destruct (spaced_in _ _ _ x HF) as (_ & H1 & _); [by apply list_elem_of_lookup_2 with i|].
    unfold ends in *. lia.
Qed.

Lemma free_find_ok F hi h R1 p R2 bp : spaced base F hi -> (base, 0) :: F = R1 ++ p :: R2 -> links (hmem h) ((base, 0) :: F) base -> p.1 < bp ->
  (forall y R3, R2 = y :: R3 -> bp < y.1) -> forall fuel i x, ((base, 0) :: F) !! i = Some x ->
  ((if decide (i <= length R1)%nat then length R1 - i else length F + 1 - i + length R1) < fuel)%nat -> free_find fuel bp x.1 h = Ok p.1 h.
Proof.
  intros HF ER HL Hp HR2. set (R := (base, 0) :: F) in *. set (t := length R1) in *.
  assert (Ht : R !! t = Some p) by (rewrite ER; by apply list_lookup_middle).
  assert (HSt : R !! S t = R2 !! 0%nat) by (rewrite ER, lookup_app_r by (unfold t; lia); unfold t; by rewrite Nat.sub_succ_l, Nat.sub_diag by lia).
  assert (Hlen : length R = S (length F)) by done.
  assert (Hmono : forall i j x y, (i < j)%nat -> R !! i = Some x -> R !! j = Some y -> x.1 < y.1) by (intros i j x y; by apply (ring_mono F hi)).
  induction fuel as [|fuel IH]; intros i x Hi Hf; [lia|]. destruct (links_lookup _ _ _ _ _ HL Hi) as [_ Hn].
  pose proof (lookup_lt_Some _ _ _ Hi) as Hlt. cbn [free_find]. unfold s_ptr. erewrite bind_run by reflexivity. rewrite Hn.
  assert (H0 : (t < fuel)%nat -> free_find fuel bp base h = Ok p.1 h).
  { intros Hfu. apply (IH 0%nat (base, 0)); [done|]. repeat case_decide; lia. }
  destruct (Nat.lt_trichotomy i t) as [Hc|[->|Hc]].
  - destruct (lookup_lt_is_Some_2 R (S i)) as [y Hy]; [apply lookup_lt_Some in Ht; lia|]. rewrite Hy. cbn [from_option].
    assert (x.1 < y.1) by (apply (Hmono i (S i)); [lia|done..]).
    assert (y.1 <= p.1) by (destruct (decide (S i = t)) as [E|]; [rewrite E, Ht in Hy; injection Hy as ->; lia|
      apply Z.lt_le_incl, (Hmono (S i) t); [lia|done..]]).
    destruct (Z.ltb_spec x.1 bp), (Z.ltb_spec bp y.1), (Z.leb_spec y.1 x.1); try lia. cbn [andb].
    apply (IH (S i)); [done|]. repeat case_decide; lia.
  - rewrite Ht in Hi. injection Hi as ->. rewrite HSt. destruct R2 as [|y R3] eqn:E2; cbn [lookup list_lookup from_option].
    + cbn. destruct (Z.ltb_spec x.1 bp); [|lia]. assert (base <= x.1).
      { destruct t as [|t']; [injection Ht as <-; cbn; lia|]. apply Z.lt_le_incl, (Hmono 0%nat (S t') (base, 0) x); [lia|done..]. }
      destruct (Z.leb_spec base x.1); [|lia]. by destruct (bp <? base).
    + cbn. specialize (HR2 y R3 eq_refl). destruct (Z.ltb_spec x.1 bp), (Z.ltb_spec bp y.1); try lia. done.
  - destruct (lookup_lt_is_Some_2 R (S t)) as [z Hz]; [lia|]. assert (bp < z.1).
    { rewrite HSt in Hz. destruct R2 as [|y R3]; [done|]. injection Hz as ->. by apply (HR2 z R3). }
    assert (z.1 <= x.1) by (destruct (decide (S t = i)) as [E|]; [rewrite <- E, Hz in Hi; injection Hi as ->; lia|apply Z.lt_le_incl, (Hmono (S t) i); [lia|done..]]).
    destruct (Z.ltb_spec x.1 bp); [lia|]. cbn [andb orb]. destruct (R !! S i) as [y|] eqn:Hy; cbn [from_option].
    + pose proof (Hmono i (S i) x y ltac:(lia) Hi Hy). destruct (Z.leb_spec y.1 x.1); [lia|]. cbn [andb]. apply (IH (S i)); [done|].
      apply lookup_lt_Some in Hy. repeat case_decide; lia.
    + assert (base < z.1) by (apply (Hmono 0%nat (S t) (base, 0)); [lia|done..]). destruct (Z.ltb_spec bp base); [|rewrite andb_false_r; apply H0; repeat case_decide; lia].
      pose proof (Hmono 0%nat (S t) (base, 0) z ltac:(lia) eq_refl Hz).
      assert (base <= p.1) by (destruct t as [|t']; [injection Ht as <-; cbn; lia|apply Z.lt_le_incl, (Hmono 0%nat (S t') (base, 0) p); [lia|done..]]). lia.
Qed.

(** *** Joining blocks, on lists *)

Definition up (bp n : Z) R : Z * list blk :=
  match R with
  | y :: R' => if decide (bp + 8 * n = y.1) then (n + y.2, R') else (n, R)
  | [] => (n, [])
  end.

Definition down (p : blk) (bp n : Z) : list blk := if decide (ends p = bp) then [(p.1, p.2 + n)] else [p; (bp, n)].

Lemma up_units bp n R : (up bp n R).1 + units (up bp n R).2 = n + units R.
Proof. destruct R as [|y R]; cbn; [done|]. case_decide; cbn; [|done]. fold (units R). lia. Qed.

Lemma up_spaced lo e bp n R hi : lo < bp -> 1 <= n -> (forall y R3, R = y :: R3 -> bp + 8 * n <= y.1) -> bp + 8 * n <= hi -> spaced e R hi ->
  spaced lo ((bp, (up bp n R).1) :: (up bp n R).2) hi.
Proof.
  intros Hlo Hn HR Hhi HS. destruct R as [|y R]; cbn; [unfold ends; cbn; lia|]. specialize (HR y R eq_refl). cbn in HS. destruct HS as (H1 & H2 & H3).
  case_decide; cbn; unfold ends in *; cbn; (split; [lia|]); (split; [lia|]).
  - by replace (bp + 8 * (n + y.2)) with (y.1 + 8 * y.2) by lia.
  - split; [lia|]. done.
Qed.

Lemma up_apart z bp n R : 1 <= z.2 -> 1 <= n -> (forall y, y ∈ R -> 1 <= y.2) -> apart z (bp, n) -> (forall y, y ∈ R -> apart z y) ->
  forall y, y ∈ (bp, (up bp n R).1) :: (up bp n R).2 -> apart z y.
Proof.
  intros Hz Hn HR H1 H2 y. destruct R as [|w R]; cbn; [by intros ->%list_elem_of_singleton|].
  specialize (H2 w) as Hw. specialize (HR w). specialize (Hw ltac:(left)). specialize (HR ltac:(left)).
  case_decide; cbn; intros [->|Hy]%elem_of_cons; try done.
  - unfold apart, ends in *. cbn in *. lia.
  - apply H2. by right.
  - by apply H2.
Qed.

Lemma down_apart z p bp n : 1 <= z.2 -> 1 <= n -> 1 <= p.2 \/ ends p < bp -> apart z p -> apart z (bp, n) -> forall y, y ∈ down p bp n -> apart z y.
Proof.
  intros Hz Hn Hp H1 H2 y. unfold down. case_decide as E; [|intros [->|Hy]%elem_of_cons; [done|apply list_elem_of_singleton in Hy as ->; done]].
  intros ->%list_elem_of_singleton.
  unfold apart, ends in *. cbn in *. lia.
Qed.

(** *** Joining blocks, in memory *)

(** The two words of a header. *)
Definition header m (a ptr size : Z) : Prop := load_word m a = ptr /\ load_word m (a + 4) = size.
Definition only m m' (a : Z) : Prop := forall c : Z, ~ (a <= c < a + 8) -> m' c = m c.

Lemma only_header m m' a b ptr size : only m m' a -> 0 <= b -> b + 8 <= 2 ^ 32 -> b + 8 <= a \/ a + 8 <= b -> header m b ptr size -> header m' b ptr size.
Proof.
  intros Ho H0 H1 Hd [E1 E2]. split; [rewrite <- E1|rewrite <- E2]; (apply load_word_same; [lia..|]); unfold in_word; intros x Hx; apply Ho; lia.
Qed.

Lemma store_header m a v w : 0 <= a -> a + 8 <= 2 ^ 32 -> is_u32 v -> is_u32 w ->
  header (store_word (store_word m (a + 4) w) a v) a v w /\ only m (store_word (store_word m (a + 4) w) a v) a.
Proof.
  intros H0 H1 Hv Hw. split; [split|].
  - by apply load_store_eq; [lia..|].
  - rewrite load_store_ne by lia. by apply load_store_eq; [lia..|].
  - intros x Hx. rewrite !store_word_out4 by (unfold in_word; lia). done.
Qed.

Lemma store_ptr m a v ptr size : 0 <= a -> a + 8 <= 2 ^ 32 -> is_u32 v -> header m a ptr size ->
  header (store_word m a v) a v size /\ only m (store_word m a v) a.
Proof.
  intros H0 H1 Hv [E1 E2]. split; [split|].
  - by apply load_store_eq; [lia..|].
  - by rewrite load_store_ne by lia.
  - intros x Hx. rewrite !store_word_out4 by (unfold in_word; lia). done.
Qed.

(** Blocks are in the lower half of the address space. *)
Definition low x : Prop := base <= x.1 /\ 0 <= x.2 /\ x.1 + 8 <= 2 ^ 31 /\ ends x <= 2 ^ 31.

Lemma join_up_ok h bp n p R : load_word (hmem h) (bp + 4) = n -> load_word (hmem h) p = first R base -> links (hmem h) R base ->
  (forall y, y ∈ R -> low y) -> base < bp -> 1 <= n -> bp + 8 * n <= 2 ^ 31 ->
  exists m', join_up bp p h = Ok tt (h <| hmem := m' |>) /\ only (hmem h) m' bp /\ header m' bp (first (up bp n R).2 base) (up bp n R).1.
Proof.
  intros Hs Hp HL HR Hb Hn Hh. unfold join_up, s_size, s_ptr, units_on, header_size. erewrite bind_run by reflexivity. rewrite (u32_small (bp + 4)) by (unfold is_u32; lia).
  rewrite Hs. erewrite bind_run by reflexivity. rewrite Hp, u32_small by (unfold is_u32; lia). destruct R as [|y R]; cbn [first up].
  - destruct (Z.eqb_spec (bp + 8 * n) base); [lia|]. eexists. split; [reflexivity|].
    destruct (store_ptr (hmem h) bp base _ n ltac:(lia) ltac:(lia) ltac:(unfold is_u32; lia) ltac:(by split)). done.
  - destruct (HR y) as (B1 & B2 & B3 & B4); [left|]. unfold ends in B4. cbn in HL. destruct HL as (L1 & L2 & L3).
    assert (Hfirst : is_u32 (first R base)).
    { destruct R as [|z R]; cbn; [unfold is_u32; lia|]. destruct (HR z) as (? & ? & ? & ?); [right; left|]. unfold is_u32. lia. }
    destruct (Z.eqb_spec (bp + 8 * n) y.1) as [E|E].
    + rewrite decide_True by done. cbn [fst snd]. erewrite bind_run by reflexivity. rewrite (u32_small (y.1 + 4)) by (unfold is_u32; lia). rewrite L2.
      rewrite (u32_small (n + y.2)) by (unfold is_u32; lia). erewrite bind_run by reflexivity. rewrite (u32_small (bp + 4)) by (unfold is_u32; lia).
      erewrite bind_run by reflexivity. cbn [hmem upd]. rewrite load_store_ne, L1 by lia. eexists. split; [reflexivity|].
      cbn [hmem upd]. destruct (store_header (hmem h) bp (first R base) (n + y.2) ltac:(lia) ltac:(lia) Hfirst ltac:(unfold is_u32; lia)). done.
    + rewrite decide_False by done. cbn [fst snd first]. eexists. split; [reflexivity|].
      destruct (store_ptr (hmem h) bp y.1 _ n ltac:(lia) ltac:(lia) ltac:(unfold is_u32; lia) ltac:(by split)). done.
Qed.

Lemma join_down_ok h p bp n next : header (hmem h) p.1 (load_word (hmem h) p.1) p.2 -> header (hmem h) bp next n -> low p -> ends p <= bp -> base < bp ->
  p.1 + 8 <= bp -> 1 <= n -> bp + 8 * n <= 2 ^ 31 -> is_u32 next ->
  exists m', join_down bp p.1 h = Ok tt (h <| hmem := m' |>) /\ only (hmem h) m' p.1 /\
    if decide (ends p = bp) then header m' p.1 next (p.2 + n) else header m' p.1 bp p.2.
Proof.
  intros [_ Hs] [Hb1 Hb2] (B1 & B2 & B3 & B4) He Hb Hpb Hn Hh Hx. unfold join_down, s_size, s_ptr, units_on, header_size, ends in *.
  erewrite bind_run by reflexivity. rewrite (u32_small (p.1 + 4)) by (unfold is_u32; lia). rewrite Hs, u32_small by (unfold is_u32; lia).
  destruct (decide (p.1 + 8 * p.2 = bp)) as [E|E].
  - rewrite (proj2 (Z.eqb_eq _ _) E). erewrite bind_run by reflexivity. rewrite (u32_small (bp + 4)), Hb2 by (unfold is_u32; lia).
    rewrite (u32_small (p.2 + n)) by (unfold is_u32; lia). erewrite bind_run by reflexivity. rewrite (u32_small (p.1 + 4)) by (unfold is_u32; lia).
    erewrite bind_run by reflexivity. cbn [hmem upd]. rewrite load_store_ne, Hb1 by lia. eexists. split; [reflexivity|]. cbn [hmem upd].
    destruct (store_header (hmem h) p.1 next (p.2 + n) ltac:(lia) ltac:(lia) Hx ltac:(unfold is_u32; lia)). done.
  - rewrite (proj2 (Z.eqb_neq _ _) E). eexists. split; [reflexivity|].
    destruct (store_ptr (hmem h) p.1 bp _ p.2 ltac:(lia) ltac:(lia) ltac:(unfold is_u32; lia) (conj eq_refl Hs)). done.
Qed.

(** *** free *)

Definition at_ring F (a : Z) : Prop := exists x, x ∈ (base, 0) :: F /\ x.1 = a.

(** The free list in memory. *)
Record ring_ok h F : Prop := mkring_ok {
  ro_brk : start <= brk h <= 2 ^ 31;
  ro_spaced : spaced (start - 1) F (brk h);
  ro_links : links (hmem h) ((base, 0) :: F) base;
  ro_freep : at_ring F (freep h) }.

Lemma spaced_length lo F hi : spaced lo F hi -> lo + 8 * Z.of_nat (length F) <= hi.
Proof. revert lo. induction F as [|x F IH]; cbn; intros lo; [lia|]. intros (H1 & H2 & H3%IH). unfold ends in *. lia. Qed.

Lemma ring_fuel_ok F b : spaced (start - 1) F b -> (length F + 1 < ring_fuel b)%nat.
Proof.
  intros H%spaced_length. unfold ring_fuel, header_size. assert (Z.of_nat (length F) <= b / 8) by (apply Z.div_le_lower_bound; lia). lia.
Qed.

Lemma ring_low h F x : ring_ok h F -> x ∈ (base, 0) :: F -> low x.
Proof.
  intros H. pose proof (ro_brk _ _ H) as Hb. intros [->|Hx]%elem_of_cons; unfold low; [unfold ends; cbn; lia|].
  destruct (spaced_in _ _ _ _ (ro_spaced _ _ H) Hx) as (H1 & H2 & H3). unfold ends in *. lia.
Qed.

Lemma ring_spaced h F : ring_ok h F -> spaced base F (brk h).
Proof. intros H. eapply spaced_mono; [| |apply (ro_spaced _ _ H)]; lia. Qed.

(** The headers of the ring do not overlap with one another. *)
Lemma ring_headers h F R1 p R2 x : ring_ok h F -> (base, 0) :: F = R1 ++ p :: R2 -> x ∈ R1 \/ x ∈ R2 -> x.1 + 8 <= p.1 \/ p.1 + 8 <= x.1.
Proof.
  intros H ER Hx. pose proof (ring_spaced h F H) as HS. assert (Hord : forall i j y z, (i < j)%nat -> ((base, 0) :: F) !! i = Some y -> ((base, 0) :: F) !! j = Some z -> y.1 + 8 <= z.1).
  { intros [|i] [|j] y z Hij; cbn; try lia.
    - intros [= <-] Hj%list_elem_of_lookup_2. destruct (spaced_in _ _ _ _ (ro_spaced _ _ H) Hj). cbn. lia.
    - intros Hi Hj. pose proof (spaced_lookup _ _ _ i j y z HS ltac:(lia) Hi Hj). apply list_elem_of_lookup_2 in Hi.
      destruct (spaced_in _ _ _ _ HS Hi) as (_ & ? & _). unfold ends in *. lia. }
  assert (Hp : ((base, 0) :: F) !! length R1 = Some p) by (rewrite ER; by apply list_lookup_middle).
  destruct Hx as [[k Hk]%list_elem_of_lookup|[k Hk]%list_elem_of_lookup].
  - left. apply (Hord k (length R1)); [by eapply lookup_lt_Some| |done]. rewrite ER. by apply lookup_app_l_Some.
  - right. apply (Hord (length R1) (length R1 + S k)%nat); [lia|done|]. rewrite ER, lookup_app_r by lia.
    by replace (length R1 + S k - length R1)%nat with (S k) by lia.
Qed.

Lemma links_only m m' R e a : links m R e -> only m m' a -> (forall x, x ∈ R -> low x /\ (x.1 + 8 <= a \/ a + 8 <= x.1)) -> links m' R e.
Proof.
  intros HL Ho HR. eapply links_frame; [exact HL|]. intros x Hx. destruct (HR x Hx) as [(L1 & L2 & L3 & L4) Hd].
  destruct (only_header m m' a x.1 _ _ Ho ltac:(lia) ltac:(lia) Hd (conj eq_refl eq_refl)). done.
Qed.

Lemma up_sub bp n R : (up bp n R).2 `suffix_of` R.
Proof. destruct R as [|y R]; cbn; [done|]. case_decide; cbn; [by exists [y]|done]. Qed.

Lemma links_up m bp n R e : links m R e -> links m (up bp n R).2 e.
Proof. intros H. destruct (up_sub bp n R) as [R1 E]. rewrite E in H. by apply links_app in H as [_ ?]. Qed.

(** What free has to know about the block, and what it leaves. *)
Record joined h F (bp n : Z) h' F' : Prop := mkjoined {
  jo_ring : ring_ok h' F';
  jo_brk : brk h' = brk h;
  jo_units : units F' = units F + n;
  jo_apart : forall z, 1 <= z.2 -> start <= z.1 -> apart z (bp, n) -> (forall x, x ∈ F -> apart z x) -> forall y, y ∈ F' -> apart z y;
  jo_big : exists y, y ∈ F' /\ n <= y.2;
  jo_len : (length F' <= length F + 1)%nat;
  jo_mem : forall c : Z, ~ (base <= c < base + 8) -> (forall x, x ∈ (bp, n) :: F -> ~ (x.1 <= c < ends x)) -> hmem h' c = hmem h c }.

(** The new ring, and that it is one. *)
Lemma joined_ring h F R1 p R2 bp n m1 m2 : ring_ok h F -> (base, 0) :: F = R1 ++ p :: R2 -> ends p <= bp -> (forall y R3, R2 = y :: R3 -> bp + 8 * n <= y.1) ->
  start <= bp -> 1 <= n -> bp + 8 * n <= brk h -> (forall x, x ∈ F -> apart (bp, n) x) ->
  only (hmem h) m1 bp -> header m1 bp (first (up bp n R2).2 base) (up bp n R2).1 -> only m1 m2 p.1 ->
  (if decide (ends p = bp) then header m2 p.1 (first (up bp n R2).2 base) (p.2 + (up bp n R2).1) else header m2 p.1 bp p.2) ->
  links m2 (R1 ++ down p bp (up bp n R2).1 ++ (up bp n R2).2) base.
Proof.
  intros H ER Hp HR2 Hs Hn Hb HF O1 Hbp O2 Hp2. pose proof (ro_links _ _ H) as HL. rewrite ER in HL. apply links_app in HL as [L1 (L2 & L3 & L4)].
  assert (HinR : forall x, x ∈ R1 \/ x = p \/ x ∈ R2 -> x ∈ (base, 0) :: F) by (intros x Hx; rewrite ER; in_list).
  assert (Hlow : forall x, x ∈ R1 \/ x = p \/ x ∈ R2 -> low x) by (intros x Hx; apply (ring_low h F x H); auto).
  assert (Hnb : forall x, x ∈ R1 \/ x = p \/ x ∈ R2 -> x.1 + 8 <= bp \/ bp + 8 <= x.1).
  { intros x Hx. apply HinR in Hx. apply elem_of_cons in Hx as [->|Hx]; [cbn; lia|]. destruct (spaced_in _ _ _ _ (ro_spaced _ _ H) Hx) as (_ & ? & _).
    destruct (HF x Hx) as [Ha|Ha]; unfold ends in Ha; cbn in Ha; lia. }
  pose proof (fun x Hx => ring_headers h F R1 p R2 x H ER Hx) as Hhd.
  assert (Hsub : forall x, x ∈ (up bp n R2).2 -> x ∈ R2) by (intros x Hx; destruct (up_sub bp n R2) as [k ->]; in_list).
  assert (M1 : links m2 R1 p.1).
  { eapply (links_only m1); [eapply (links_only (hmem h)); [exact L1|exact O1|]|exact O2|]; intros x Hx; (split; [apply Hlow; by left|]); [apply Hnb|apply Hhd]; by left. }
  assert (M2 : links m2 (up bp n R2).2 base).
  { eapply (links_only m1); [eapply (links_only (hmem h)); [by apply links_up|exact O1|]|exact O2|]; intros x Hx%Hsub; (split; [apply Hlow; tauto|]); [apply Hnb; tauto|apply Hhd; by right]. }
  assert (Hpb : p.1 + 8 <= bp) by (destruct (Hnb p) as [?|?]; [tauto|lia|]; destruct (Hlow p) as (_ & ? & _); [tauto|]; unfold ends in *; lia).
  apply links_app. unfold down. destruct (decide (ends p = bp)) as [E|E]; cbn.
  - split; [exact M1|]. destruct Hp2. auto.
  - split; [exact M1|]. destruct Hp2 as [P1 P2].
    destruct (only_header m1 m2 p.1 bp _ _ O2 ltac:(lia) ltac:(pose proof (ro_brk _ _ H); lia) ltac:(lia) Hbp) as [B1 B2]. auto.
Qed.

Lemma down_at p bp n : exists y, y ∈ down p bp n /\ y.1 = p.1.
Proof. unfold down. case_decide; [exists (p.1, p.2 + n)|exists p]; (split; [left|done]). Qed.

Lemma down_big p bp n : 0 <= p.2 -> exists y, y ∈ down p bp n /\ n <= y.2.
Proof. intros H. unfold down. case_decide; [exists (p.1, p.2 + n); split; [left|cbn; lia]|exists (bp, n); split; [right; left|cbn; lia]]. Qed.

Lemma down_units p bp n : units (down p bp n) = p.2 + n.
Proof. unfold down. case_decide; cbn; lia. Qed.

Lemma down_spaced lo p bp n R hi : lo < p.1 -> 1 <= p.2 -> ends p <= bp -> 1 <= n -> spaced (bp + 8 * n) R hi -> spaced lo (down p bp n ++ R) hi.
Proof.
  intros Hlo Hp He Hn HS. unfold down. case_decide as E; cbn; unfold ends in *; cbn.
  - split; [done|]. split; [lia|]. by replace (p.1 + 8 * (p.2 + n)) with (bp + 8 * n) by lia.
  - split; [done|]. split; [done|]. split; [lia|]. done.
Qed.

Lemma up_big bp n R : (forall y, y ∈ R -> 1 <= y.2) -> n <= (up bp n R).1.
Proof. intros HR. destruct R as [|y R]; cbn; [lia|]. case_decide; cbn; [|lia]. pose proof (HR y ltac:(left)). lia. Qed.

(** The new list, without the memory. *)
Lemma joined_list h F R1 p R2 bp n : ring_ok h F -> (base, 0) :: F = R1 ++ p :: R2 -> ends p <= bp -> (forall y R3, R2 = y :: R3 -> bp + 8 * n <= y.1) ->
  start <= bp -> 1 <= n -> bp + 8 * n <= brk h ->
  exists F', R1 ++ down p bp (up bp n R2).1 ++ (up bp n R2).2 = (base, 0) :: F' /\ spaced (start - 1) F' (brk h) /\ units F' = units F + n /\
    (forall z, 1 <= z.2 -> start <= z.1 -> apart z (bp, n) -> (forall x, x ∈ F -> apart z x) -> forall y, y ∈ F' -> apart z y) /\ (exists y, y ∈ F' /\ n <= y.2) /\
    (length F' <= length F + 1)%nat.
Proof.
  intros H ER Hp HR2 Hs Hn Hb. assert (Hlen : (length (up bp n R2).2 <= length R2)%nat) by (apply suffix_length, up_sub). pose proof (up_units bp n R2) as HU. pose proof (ro_spaced _ _ H) as HS.
  assert (Hpos : forall y, y ∈ F -> 1 <= y.2) by (intros y Hy; by apply (spaced_in _ _ _ _ HS)).
  destruct R1 as [|b R1].
  - injection ER as <- ->. exists ((bp, (up bp n R2).1) :: (up bp n R2).2). unfold down. rewrite decide_False by (unfold ends; cbn; lia).
    split; [done|]. split; [eapply (up_spaced _ (start - 1)); [lia|done..]|]. split; [cbn; fold (units (up bp n R2).2); lia|]. split.
    + intros z Hz _ H1 H2. by apply (up_apart z bp n R2).
    + split; [|cbn; lia]. eexists. split; [left|]. cbn. by apply up_big.
  - injection ER as <- ->. exists (R1 ++ down p bp (up bp n R2).1 ++ (up bp n R2).2). split; [done|].
    assert (HposR : forall y, y ∈ R2 -> 1 <= y.2) by (intros y Hy; apply Hpos; in_list). pose proof (up_big bp n R2 HposR) as Hnb.
    assert (Hp2 : 1 <= p.2) by (apply Hpos; in_list). apply spaced_app in HS as (mid & S1 & (S2 & S3 & S4)).
    pose proof (up_spaced (bp - 1) (ends p) bp n R2 (brk h) ltac:(lia) Hn HR2 Hb S4) as (_ & _ & S5). split; [|split; [|split]].
    + apply spaced_app. exists mid. split; [done|]. apply down_spaced; [done|done|done|lia|done].
    + rewrite !units_app, down_units. cbn. fold (units R2). lia.
    + intros z Hz _ H1 H2 y Hy. assert (Hall : forall w, w ∈ (bp, (up bp n R2).1) :: (up bp n R2).2 -> apart z w) by (apply up_apart; [done..|]; intros w Hw; apply H2; in_list).
      apply elem_of_app in Hy as [Hy|[Hy|Hy]%elem_of_app]; [apply H2; in_list| |apply Hall; by right].
      apply (down_apart z p bp (up bp n R2).1); [lia|lia|lia| |apply Hall; left|done]. apply H2. in_list.
    + split; [|rewrite !length_app; unfold down; case_decide; cbn; lia].
      destruct (down_big p bp (up bp n R2).1) as (y & Hy & Hb'); [lia|]. exists y. split; [in_list|lia].
Qed.

Lemma free_joins h F bp n : ring_ok h F -> start <= bp -> 1 <= n -> bp + 8 * n <= brk h -> load_word (hmem h) (bp + 4) = n -> (forall x, x ∈ F -> apart (bp, n) x) ->
  exists h' F', free (bp + 8) h = Ok tt h' /\ joined h F bp n h' F'.
Proof.
  intros H Hs Hn Hb Hsz HF. pose proof (ro_brk _ _ H) as Hbk. pose proof (ring_spaced _ _ H) as HSp.
  destruct (ring_place F n bp (base, 0) Hn ltac:(unfold ends; cbn; lia) HF) as (R1 & p & R2 & ER & Hp & HR2).
  assert (Hpin : p ∈ (base, 0) :: F) by (rewrite ER; in_list). pose proof (ring_low h F p H Hpin) as Hlp. pose proof (ro_links _ _ H) as HL.
  assert (Hpb : p.1 + 8 <= bp).
  { apply elem_of_cons in Hpin as [->|Hin]; [cbn; lia|]. destruct (spaced_in _ _ _ _ (ro_spaced _ _ H) Hin) as (_ & ? & _). unfold ends in *. lia. }
  destruct (ro_freep _ _ H) as (x & [i Hi]%list_elem_of_lookup & Ex).
  unfold free. rewrite u32_small by (unfold is_u32, header_size; lia). replace (bp + 8 - header_size) with bp by (unfold header_size; lia).
  erewrite bind_run by reflexivity. erewrite bind_run by reflexivity. rewrite <- Ex.
  erewrite bind_run.
  2: { apply (free_find_ok F (brk h) h R1 p R2 bp) with (i := i); [done|done|done|lia| |done|].
       - intros y R3 E. specialize (HR2 y R3 E). lia.
       - pose proof (ring_fuel_ok F (brk h) (ro_spaced _ _ H)). apply (f_equal length) in ER. rewrite length_app in ER. cbn in ER. apply lookup_lt_Some in Hi. cbn in Hi. case_decide; lia. }
  pose proof HL as HL'. rewrite ER in HL'. apply links_app in HL' as [_ (L2 & L3 & L4)].
  destruct (join_up_ok h bp n p.1 R2 Hsz L2 L4) as (m1 & E1 & O1 & B1); [intros y Hy; apply (ring_low h F y H); rewrite ER; in_list|lia|lia|lia|].
  erewrite bind_run by exact E1.
  assert (Hp1 : header m1 p.1 (load_word m1 p.1) p.2).
  { destruct (only_header (hmem h) m1 bp p.1 _ p.2 O1 ltac:(unfold low in Hlp; lia) ltac:(lia) ltac:(lia) (conj eq_refl L3)). by split. }
  assert (Hfst : is_u32 (first (up bp n R2).2 base)).
  { destruct (up bp n R2).2 as [|y R3] eqn:Eu; cbn; [unfold is_u32; lia|]. assert (low y) as (? & ? & ? & ?); [|unfold is_u32; lia].
    apply (ring_low h F y H). rewrite ER. destruct (up_sub bp n R2) as [k ->]. rewrite Eu. in_list. }
  pose proof (up_units bp n R2) as HU.
  destruct (joined_list h F R1 p R2 bp n H ER Hp HR2 Hs Hn Hb) as (F' & EF & J1 & J2 & J3 & J4 & J5).
  assert (Hub : bp + 8 * (up bp n R2).1 <= 2 ^ 31 /\ 1 <= (up bp n R2).1).
  { cut (spaced (bp - 1) ((bp, (up bp n R2).1) :: (up bp n R2).2) (brk h)); [intros (_ & ? & HsR%spaced_le); unfold ends in HsR; cbn in *; lia|].
    pose proof (ro_spaced _ _ H) as Hsp. destruct R1 as [|b R1]; injection ER as <- ->; [eapply (up_spaced _ (start - 1)); [lia|done..]|].
    apply spaced_app in Hsp as (mid & _ & (_ & _ & S4)). eapply (up_spaced _ (ends p)); [lia|done..]. }
  destruct (join_down_ok (h <| hmem := m1 |>) p bp (up bp n R2).1 (first (up bp n R2).2 base)) as (m2 & E2 & O2 & D2); [exact Hp1|exact B1|done|done|lia|done|lia|lia|done|].
  erewrite bind_run by exact E2. eexists _, F'. split; [reflexivity|].
  pose proof (joined_ring h F R1 p R2 bp n m1 m2 H ER Hp HR2 Hs Hn Hb HF O1 B1 O2 D2) as HL2. rewrite EF in HL2. split; try done.
  - split; try done. destruct (down_at p bp (up bp n R2).1) as (y & Hy & Ey). exists y. split; [|done]. rewrite <- EF. in_list.
  - intros c Hc HcF. cbn. rewrite O2, O1; [done| |].
    + intros Hx. apply (HcF (bp, n)); [left|]. unfold ends. cbn. lia.
    + apply elem_of_cons in Hpin as [->|Hin]; [done|]. intros Hx. destruct (spaced_in _ _ _ _ (ro_spaced _ _ H) Hin) as (_ & ? & _).
      apply (HcF p); [by right|]. unfold ends. lia.
Qed.

(** *** malloc *)

(** A block [(a, n)] was taken from the free list. *)
Record taken h F (n a : Z) h' F' : Prop := mktaken {
  ta_ring : ring_ok h' F';
  ta_brk : brk h' = brk h;
  ta_units : units F' + n = units F;
  ta_size : load_word (hmem h') (a + 4) = n;
  ta_from : exists x, x ∈ F /\ x.1 <= a /\ a + 8 * n <= ends x;
  ta_new : forall y, y ∈ F' -> apart (a, n) y;
  ta_apart : forall z, (forall x, x ∈ F -> apart z x) -> forall y, y ∈ F' -> apart z y;
  ta_mem : forall c : Z, ~ (base <= c < base + 8) -> (forall x, x ∈ F -> ~ (x.1 <= c < ends x)) -> hmem h' c = hmem h c }.

(** The neighbours in the list. *)
Lemma ring_apart h F F1 x F2 y : ring_ok h F -> F = F1 ++ x :: F2 -> y ∈ F1 \/ y ∈ F2 -> apart x y.
Proof.
  intros H -> Hy. pose proof (ring_spaced _ _ H) as HS. apply spaced_app in HS as (mid & S1 & (S2 & S3 & S4)). destruct Hy as [Hy|Hy].
  - destruct (spaced_in _ _ _ _ S1 Hy) as (_ & _ & ?). right. lia.
  - destruct (spaced_in _ _ _ _ S4 Hy) as (? & _ & _). left. lia.
Qed.

(** The whole block. *)
Lemma take_all h F R1 q x R2 : ring_ok h F -> (base, 0) :: F = R1 ++ q :: x :: R2 ->
  exists h' F', take x.2 q.1 x.1 x.2 h = Ok (x.1 + 8) h' /\ taken h F x.2 x.1 h' F'.
Proof.
  intros H ER. pose proof (ro_links _ _ H) as HL. rewrite ER in HL. apply links_app in HL as [L1 (L2 & L3 & L4 & L5 & L6)].
  assert (Hq : q ∈ (base, 0) :: F) by (rewrite ER; in_list). pose proof (ring_low h F q H Hq) as (Q1 & Q2 & Q3 & Q4).
  assert (exists F1, F = F1 ++ x :: R2 /\ R1 ++ q :: R2 = (base, 0) :: F1 ++ R2) as (F1 & EF & ER').
  { destruct R1 as [|b R1]; injection ER as <- ->; [by exists []|]. exists (R1 ++ [q]). by rewrite <- !app_assoc. }
  assert (Hx : x ∈ F) by (rewrite EF; in_list). pose proof (ring_low h F x H ltac:(by right)) as (X1 & X2 & X3 & X4).
  unfold take. rewrite Z.eqb_refl. unfold s_ptr. erewrite bind_run by reflexivity. rewrite L4. erewrite bind_run by reflexivity. erewrite bind_run by reflexivity.
  unfold header_size. rewrite u32_small by (unfold is_u32; lia). set (next := first R2 base).
  assert (Hn : is_u32 next).
  { unfold next. destruct R2 as [|y R3]; cbn; [unfold is_u32; lia|]. destruct (ring_low h F y H) as (? & ? & ? & ?); [rewrite ER; in_list|]. unfold is_u32. lia. }
  destruct (store_ptr (hmem h) q.1 next _ q.2 ltac:(lia) ltac:(lia) Hn (conj eq_refl L3)) as [[P1 P2] O]. eexists _, (F1 ++ R2). split; [reflexivity|]. cbn [hmem upd].
  assert (Hd : forall y, y ∈ R1 \/ y ∈ x :: R2 -> y.1 + 8 <= q.1 \/ q.1 + 8 <= y.1) by (intros y Hy; by apply (ring_headers h F R1 q (x :: R2))).
  assert (Hlow : forall y, y ∈ R1 \/ y ∈ x :: R2 -> low y) by (intros y Hy; apply (ring_low h F y H); rewrite ER; in_list).
  split; try done.
  - split; [apply H| | |].
    + pose proof (ro_spaced _ _ H) as HS. rewrite EF in HS. apply spaced_app in HS as (mid & S1 & (S2 & S3 & S4)). apply spaced_app. exists mid. split; [done|].
      eapply spaced_mono; [|reflexivity|exact S4]. unfold ends. lia.
    + rewrite <- ER'. apply links_app. split; [eapply links_only; [exact L1|exact O|intros y Hy; auto]|]. split; [done|]. split; [done|].
      eapply links_only; [exact L6|exact O|]. intros y Hy. split; [apply Hlow|apply Hd]; in_list.
    + exists q. split; [|done]. rewrite <- ER'. in_list.
  - rewrite EF, !units_app. cbn. fold (units R2). lia.
  - cbn. destruct (only_header (hmem h) _ q.1 x.1 _ x.2 O ltac:(lia) ltac:(lia) ltac:(apply Hd; in_list) (conj eq_refl L5)) as [_ ?]. done.
  - exists x. unfold ends. split; [done|lia].
  - intros y Hy. replace (x.1, x.2) with x by (by destruct x). apply (ring_apart h F F1 x R2 y H EF). in_list.
  - intros z Hz y Hy. apply Hz. rewrite EF. in_list.
  - intros c Hc HcF. cbn. apply O. apply elem_of_cons in Hq as [->|Hin]; [done|]. specialize (HcF q Hin).
    destruct (spaced_in _ _ _ _ (ro_spaced _ _ H) Hin) as (_ & ? & _). unfold ends in HcF. lia.
Qed.

(** The end of the block. *)
Lemma take_end h F R1 x R2 q n : ring_ok h F -> F = R1 ++ x :: R2 -> at_ring F q -> q <> x.1 -> 1 <= n < x.2 ->
  exists h' F', take n q x.1 x.2 h = Ok (x.1 + 8 * (x.2 - n) + 8) h' /\ taken h F n (x.1 + 8 * (x.2 - n)) h' F'.
Proof.
  intros H EF Hq Hqx Hn. assert (Hx : x ∈ F) by (rewrite EF; in_list). pose proof (ring_low h F x H ltac:(by right)) as (X1 & X2 & X3 & X4).
  pose proof (ro_spaced _ _ H) as HS. destruct (spaced_in _ _ _ _ HS Hx) as (X5 & _ & X6). pose proof (ro_brk _ _ H) as Hb. pose proof X4 as X4'. unfold ends in X4'. set (k := x.2 - n). set (a := x.1 + 8 * k).
  pose proof (ro_links _ _ H) as HL. assert (ER : (base, 0) :: F = ((base, 0) :: R1) ++ x :: R2) by (by rewrite EF). rewrite ER in HL.
  apply links_app in HL as [L1 (L2 & L3 & L4)]. unfold take. destruct (Z.eqb_spec x.2 n); [lia|]. unfold set_size, s_size.
  rewrite (u32_small (x.2 - n)), (u32_small (x.1 + 4)) by (unfold is_u32; lia). fold k. erewrite bind_run by reflexivity. erewrite bind_run by reflexivity. cbn [hmem upd].
  rewrite load_store_eq by (unfold is_u32, k; lia). cbv beta iota zeta. unfold units_on, header_size. fold a. rewrite (u32_small a) by (unfold is_u32, a, ends in *; lia).
  rewrite (u32_small (a + 4)), (u32_small (a + 8)) by (unfold is_u32, a, ends in *; lia). erewrite bind_run by reflexivity. erewrite bind_run by reflexivity.
  eexists _, (R1 ++ (x.1, k) :: R2). split; [reflexivity|]. cbn [hmem upd]. set (m1 := store_word (hmem h) (x.1 + 4) k). set (m2 := store_word m1 (a + 4) n).
  assert (Ho : forall c : Z, c < x.1 \/ ends x <= c -> m2 c = hmem h c).
  { intros c Hc. unfold m2, m1. unfold ends, a in *. rewrite !store_word_out4 by (unfold in_word; lia). done. }
  assert (Hd : forall y, y ∈ (base, 0) :: R1 \/ y ∈ R2 -> low y /\ (y.1 + 8 <= x.1 \/ ends x <= y.1)).
  { intros y Hy. split; [apply (ring_low h F y H); rewrite ER; in_list|]. destruct Hy as [[->|Hy]%elem_of_cons|Hy]; [cbn; lia| |].
    - assert (y ∈ F) by (rewrite EF; in_list). destruct (spaced_in _ _ _ y HS) as (_ & ? & _); [done|]. rewrite EF in HS. apply spaced_app in HS as (mid & S1 & (S2 & _ & _)).
      destruct (spaced_in _ _ _ _ S1 Hy) as (_ & _ & ?). unfold ends in *. lia.
    - rewrite EF in HS. apply spaced_app in HS as (mid & S1 & (S2 & _ & S4)). destruct (spaced_in _ _ _ _ S4 Hy) as (? & _ & _). right. lia. }
  assert (Hfr : forall R e, (forall y, y ∈ R -> y ∈ (base, 0) :: R1 \/ y ∈ R2) -> links (hmem h) R e -> links m2 R e).
  { intros R e HR HLR. eapply links_frame; [exact HLR|]. intros y Hy. destruct (Hd y (HR y Hy)) as [(? & ? & ? & ?) Hdy].
    split; (apply load_word_same; [lia..|]); unfold in_word; intros c Hc; apply Ho; lia. }
  split; try done.
  - split; [done| | |].
    + cbn. rewrite EF in HS. apply spaced_app in HS as (mid & S1 & (S2 & _ & S4)). apply spaced_app. exists mid. split; [done|]. split; [done|]. split; [unfold k; cbn; lia|].
      eapply spaced_mono; [|reflexivity|exact S4]. unfold ends, k. cbn. lia.
    + apply (links_app m2 ((base, 0) :: R1)). split; [apply Hfr; [by left|exact L1]|]. split; [|split].
      * rewrite <- L2. cbn. unfold m2, m1, a, ends in *. rewrite !load_store_ne by lia. done.
      * cbn. unfold m2, m1. rewrite load_store_ne by (unfold a, ends in *; lia). apply load_store_eq; [lia..|]. unfold is_u32, k. lia.
      * apply Hfr; [by right|exact L4].
    + destruct Hq as (y & Hy & Ey). cbn. exists y. split; [|done]. rewrite ER in Hy. assert (y <> x) by congruence. in_list.
  - rewrite EF, !units_app. cbn. fold (units R2). lia.
  - cbn. apply load_store_eq; unfold is_u32, a, ends in *; lia.
  - exists x. unfold ends, a, k. split; [done|lia].
  - intros y Hy. assert (y = (x.1, k) \/ y ∈ R1 \/ y ∈ R2) as [->|Hy'] by in_list; [right; unfold ends, a; cbn; lia|].
    pose proof (ring_apart h F R1 x R2 y H EF Hy') as Ha. unfold apart, ends, a, k in *. cbn. lia.
  - intros z Hz y Hy. assert (y = (x.1, k) \/ y ∈ R1 \/ y ∈ R2) as [->|Hy'] by in_list; [|apply Hz; rewrite EF; in_list].
    pose proof (Hz x Hx) as Ha. unfold apart, ends, k in *. cbn. lia.
  - intros c Hc HcF. cbn. apply Ho. specialize (HcF x Hx). lia.
Qed.

(** Steps around the ring of [k] blocks from the [i]th to the [f]th. *)
Definition steps (k f i : nat) : nat := if decide (i <= f)%nat then f - i else k - i + f.

(** What the search does when it has come around without finding a block. *)
Definition grow {B : Sbrk} (fuel : nat) (n : Z) : M heap Z :=
  p ← morecore n; if p =? 0 then mret 0 else next ← s_ptr p; malloc_loop fuel n p next.

Lemma malloc_take h F n i x prevp : ring_ok h F -> ((base, 0) :: F) !! i = Some x -> 1 <= n <= x.2 ->
  (forall j, i = S j -> exists q, ((base, 0) :: F) !! j = Some q /\ q.1 = prevp) ->
  exists a h' F', take n prevp x.1 x.2 h = Ok (a + 8) h' /\ taken h F n a h' F'.
Proof.
  intros H Hi Hn Hprev. destruct i as [|i]; [injection Hi as <-; cbn in Hn; lia|]. destruct (Hprev i eq_refl) as (q & Hq & <-).
  pose proof (list_lookup_middle_split _ _ _ _ Hq Hi) as (R1 & R2 & ER).
  destruct (decide (x.2 = n)) as [<-|Hne].
  - destruct (take_all h F R1 q x R2 H ER) as (h' & F' & E & T). by exists x.1, h', F'.
  - assert (Hx : x ∈ F) by (by apply (list_elem_of_lookup_2 F i)). destruct (list_elem_of_split _ _ Hx) as (F1 & F2 & EF).
    destruct (take_end h F F1 x F2 q.1 n H EF) as (h' & F' & E & T); [exists q; split; [by eapply list_elem_of_lookup_2|done]| |lia|eauto].
    pose proof (ring_mono F (brk h) i (S i) q x (ring_spaced h F H) ltac:(lia) Hq Hi). lia.
Qed.

Lemma malloc_walk {B : Sbrk} h F n f xf : ring_ok h F -> ((base, 0) :: F) !! f = Some xf -> xf.1 = freep h -> 1 <= n ->
  forall fuel i x prevp, ((base, 0) :: F) !! i = Some x -> (forall j, i = S j -> exists q, ((base, 0) :: F) !! j = Some q /\ q.1 = prevp) ->
  let k := S (length F) in (steps k f i < fuel)%nat ->
  (exists a h' F', malloc_loop fuel n prevp x.1 h = Ok (a + 8) h' /\ taken h F n a h' F') \/
  (forall j y, ((base, 0) :: F) !! j = Some y -> (steps k f j <= steps k f i)%nat -> y.2 < n) /\
  exists fuel', (fuel' + steps k f i + 1 = fuel)%nat /\ malloc_loop fuel n prevp x.1 h = grow fuel' n h.
Proof.
  intros H Hf Ef Hn. set (R := (base, 0) :: F) in *. induction fuel as [|fuel IH]; intros i x prevp Hi Hprev k Hfu; [lia|].
  destruct (links_lookup _ _ _ _ _ (ro_links _ _ H) Hi) as [Hs Hp]. pose proof (ring_low h F x H ltac:(by eapply list_elem_of_lookup_2)) as (X1 & X2 & X3 & X4).
  pose proof (lookup_lt_Some _ _ _ Hi) as Hlt. pose proof (lookup_lt_Some _ _ _ Hf) as Hltf. cbn in Hlt, Hltf.
  cbn [malloc_loop]. unfold s_size. erewrite !(bind_run (gets _)) by reflexivity. rewrite u32_small by (unfold is_u32; lia). rewrite Hs.
  destruct (Z.leb_spec n x.2) as [Hle|Hgt].
  { left. by apply (malloc_take h F n i x prevp). }
  erewrite !(bind_run (gets freep)) by reflexivity. rewrite <- Ef.
  assert (Hinj : forall j y, R !! j = Some y -> y.1 = x.1 -> j = i).
  { intros j y Hj E. destruct (Nat.lt_trichotomy i j) as [Hc|[->|Hc]]; [|done|].
    - pose proof (ring_mono F (brk h) i j x y (ring_spaced h F H) Hc Hi Hj). lia.
    - pose proof (ring_mono F (brk h) j i y x (ring_spaced h F H) Hc Hj Hi). lia. }
  destruct (Z.eqb_spec x.1 xf.1) as [E|E].
  - assert (f = i) as -> by (by eapply (Hinj f xf)). right. unfold steps in *. split.
    + intros j y Hj Hst. assert (j = i) as -> by (apply lookup_lt_Some in Hj; cbn in Hj; repeat case_decide; lia). congruence.
    + exists fuel. split; [repeat case_decide; lia|reflexivity].
  - assert (Hfi : f <> i) by congruence.
    assert (exists i' y, R !! i' = Some y /\ y.1 = load_word (hmem h) x.1 /\ (i' = 0%nat \/ i' = S i) /\ steps k f i' = (steps k f i - 1)%nat /\ (0 < steps k f i)%nat) as (i' & y & Hy & Ey & Hor & Hst & Hst0).
    { rewrite Hp. fold R. destruct (R !! S i) as [y|] eqn:Hy; cbn [from_option]; [exists (S i), y|exists 0%nat, (base, 0)]; (split; [done|]); (split; [reflexivity|]); (split; [auto|]); unfold steps, k.
      - apply lookup_lt_Some in Hy. cbn in Hy. repeat case_decide; lia.
      - apply lookup_ge_None in Hy. cbn in Hy. repeat case_decide; lia. }
    unfold s_ptr. erewrite (bind_run (gets _)) by reflexivity. rewrite <- Ey.
    destruct (IH i' y x.1 Hy) as [HT|(Hall & fuel' & Efu & EL)].
    + intros j Ej. destruct Hor as [->| ->]; [lia|]. injection Ej as <-. by exists x.
    + fold k. lia.
    + by left.
    + right. fold k in Hall, Efu. split.
      * intros j z Hj Hle. destruct (decide (steps k f j = steps k f i)) as [Ejs|]; [|eapply Hall; [done|lia]]. assert (j = i) as ->; [|congruence].
        apply lookup_lt_Some in Hj. cbn in Hj. unfold steps, k in Ejs. repeat case_decide; lia.
      * exists fuel'. split; [lia|done].
Qed.

(** The free list after the heap has grown by [nu] units. *)
Record grown h F (nu : Z) h' F' : Prop := mkgrown {
  gr_ring : ring_ok h' F';
  gr_brk : brk h' = brk h + 8 * nu;
  gr_units : units F' = units F + nu;
  gr_apart : forall z, 1 <= z.2 -> start <= z.1 -> ends z <= brk h -> (forall x, x ∈ F -> apart z x) -> forall y, y ∈ F' -> apart z y;
  gr_big : exists y, y ∈ F' /\ nu <= y.2;
  gr_len : (length F' <= length F + 1)%nat;
  gr_mem : forall c : Z, c < brk h -> ~ (base <= c < base + 8) -> (forall x, x ∈ F -> ~ (x.1 <= c < ends x)) -> hmem h' c = hmem h c }.

Lemma at_ring_pos F a : spaced (start - 1) F (2 ^ 31) -> at_ring F a -> 0 < a.
Proof. intros HS (x & [->|Hx]%elem_of_cons & <-); [done|]. destruct (spaced_in _ _ _ _ HS Hx). lia. Qed.

Lemma morecore_ok {B : Sbrk} {L : SbrkLaws B} h F n : ring_ok h F -> 1 <= n -> 8 * n < 2 ^ 31 ->
  morecore n h = Ok 0 h \/ exists h' F', morecore n h = Ok (freep h') h' /\ freep h' <> 0 /\ grown h F (Z.max n 4096) h' F'.
Proof.
  intros H Hn Hn8. pose proof (ro_brk _ _ H) as Hb. unfold morecore. assert ((if n <? 4096 then 4096 else n) = Z.max n 4096) as -> by (destruct (Z.ltb_spec n 4096); lia).
  set (nu := Z.max n 4096). unfold header_size. assert (s32 (u32 (nu * 8)) = 8 * nu) as ->.
  { rewrite u32_small, s32_small by (unfold is_u32, is_s32, nu; lia). lia. }
  destruct (sbrk_law h (8 * nu)) as [E|(m & E & Hk & Hm)]; [unfold nu; lia| |].
  { left. erewrite bind_run by exact E. done. }
  right. unfold KERNBASE in Hk. erewrite bind_run by exact E. destruct (Z.eqb_spec (brk h) (2 ^ 32 - 1)); [lia|].
  unfold set_size. rewrite u32_small by (unfold is_u32; lia). erewrite bind_run by reflexivity. rewrite u32_small by (unfold is_u32; lia).
  set (h1 := (mkheap m (freep h) (brk h + 8 * nu)) <| hmem := store_word m (brk h + 4) nu |>).
  assert (Hold : forall c : Z, c < brk h -> hmem h1 c = hmem h c) by (intros c Hc; cbn; rewrite store_word_out4 by (unfold in_word; lia); by apply Hm).
  assert (H1 : ring_ok h1 F).
  { destruct H as [R1 R2 R3 R4]. split; [cbn; lia| |cbn [hmem]|done].
    - eapply spaced_mono; [reflexivity| |exact R2]. cbn. lia.
    - eapply links_frame; [exact R3|]. intros x Hx. pose proof (ring_low h F x (mkring_ok _ _ R1 R2 R3 R4) Hx) as (X1 & X2 & X3 & X4).
      assert (x.1 + 8 <= brk h) by (apply elem_of_cons in Hx as [->|Hx]; [cbn; lia|]; destruct (spaced_in _ _ _ _ R2 Hx) as (_ & ? & ?); unfold ends in *; lia).
      split; (apply load_word_same; [lia..|]); unfold in_word; intros c Hc; apply Hold; lia. }
  assert (Hap : forall x, x ∈ F -> apart (brk h, nu) x) by (intros x Hx; destruct (spaced_in _ _ _ _ (ro_spaced _ _ H) Hx) as (_ & _ & ?); right; cbn; lia).
  destruct (free_joins h1 F (brk h) nu H1) as (h' & F' & Ef & [J1 J2 J3 J4 J5 J6 J7]); [lia|unfold nu; lia|cbn; lia| |done|].
  { cbn. apply load_store_eq; unfold is_u32, nu; lia. }
  exists h', F'. erewrite bind_run by exact Ef. split; [done|]. split; [|split; try done].
  - assert (0 < freep h'); [|lia]. eapply at_ring_pos; [|apply (ro_freep _ _ J1)]. eapply spaced_mono; [reflexivity| |apply (ro_spaced _ _ J1)]. apply (ro_brk _ _ J1).
  - intros z Z1 Z2 Z3 Z4. apply J4; [done..| |done]. left. done.
  - intros c Hc Hcb HcF. rewrite J7; [by apply Hold|done|]. intros x [->|Hx]%elem_of_cons; [cbn; lia|by apply HcF].
Qed.

(** The search from freep on: a block, or no block is large enough. *)
Lemma malloc_circle {B : Sbrk} h F n fuel : ring_ok h F -> 1 <= n -> (length F < fuel)%nat ->
  (exists a h' F', malloc_loop fuel n (freep h) (load_word (hmem h) (freep h)) h = Ok (a + 8) h' /\ taken h F n a h' F') \/
  (forall y, y ∈ F -> y.2 < n) /\ exists fuel', (fuel' + length F + 1 = fuel)%nat /\ malloc_loop fuel n (freep h) (load_word (hmem h) (freep h)) h = grow fuel' n h.
Proof.
  intros H Hn Hfu. destruct (ro_freep _ _ H) as (xf & [f Hf]%list_elem_of_lookup & Ef). destruct (links_lookup _ _ _ _ _ (ro_links _ _ H) Hf) as [_ Hp].
  rewrite <- Ef, Hp. pose proof (lookup_lt_Some _ _ _ Hf) as Hlt. cbn in Hlt.
  assert (exists i y, ((base, 0) :: F) !! i = Some y /\ y.1 = from_option fst base (((base, 0) :: F) !! S f) /\ (i = 0%nat \/ i = S f) /\ steps (S (length F)) f i = length F) as (i & y & Hi & <- & Hor & Hst).
  { destruct (((base, 0) :: F) !! S f) as [y|] eqn:Hy; cbn [from_option]; [exists (S f), y|exists 0%nat, (base, 0)]; (split; [done|]); (split; [reflexivity|]); (split; [auto|]); unfold steps.
    - apply lookup_lt_Some in Hy. cbn in Hy. case_decide; lia.
    - apply lookup_ge_None in Hy. cbn in Hy. case_decide; lia. }
  destruct (malloc_walk h F n f xf H Hf Ef Hn fuel i y xf.1 Hi) as [HT|(Hall & fuel' & E & EL)].
  - intros j Ej. destruct Hor as [->| ->]; [lia|]. injection Ej as <-. by exists xf.
  - lia.
  - by left.
  - right. split; [|exists fuel'; split; [lia|done]]. intros z [j Hj]%list_elem_of_lookup. apply (Hall (S j) z Hj). apply lookup_lt_Some in Hj. unfold steps in *.
    repeat case_decide; lia.
Qed.

Lemma malloc_search {B : Sbrk} {L : SbrkLaws B} h F n fuel : ring_ok h F -> 1 <= n -> 8 * n < 2 ^ 31 -> (2 * length F + 3 < fuel)%nat ->
  exists r h', malloc_loop fuel n (freep h) (load_word (hmem h) (freep h)) h = Ok r h' /\
    ((exists a F', r = a + 8 /\ taken h F n a h' F') \/
     (forall y, y ∈ F -> y.2 < n) /\ (r = 0 /\ h' = h \/ exists a h1 F1 F', r = a + 8 /\ grown h F (Z.max n 4096) h1 F1 /\ taken h1 F1 n a h' F')).
Proof.
  intros H Hn Hn8 Hfu. destruct (malloc_circle h F n fuel H Hn ltac:(lia)) as [(a & h' & F' & E & T)|(Hall & fuel' & Ef & E)]; [eauto 8|]. rewrite E. unfold grow.
  destruct (morecore_ok h F n H Hn Hn8) as [Em|(h1 & F1 & Em & Hp & G)].
  - exists 0, h. split; [by erewrite bind_run by exact Em|]. right. split; [done|]. by left.
  - erewrite bind_run by exact Em. destruct (Z.eqb_spec (freep h1) 0); [done|]. unfold s_ptr. erewrite bind_run by reflexivity.
    destruct (malloc_circle h1 F1 n fuel' (gr_ring _ _ _ _ _ G) Hn) as [(a & h' & F' & E1 & T)|(Hall1 & _)].
    + pose proof (gr_len _ _ _ _ _ G). lia.
    + exists (a + 8), h'. split; [done|]. right. split; [done|]. right. by exists a, h1, F1, F'.
    + destruct (gr_big _ _ _ _ _ G) as (y & Hy & Hby). specialize (Hall1 y Hy). lia.
Qed.

(** ** The heap *)

(** [A] has the blocks in use and their sizes.  Nothing of the heap is lost: the free blocks
    and the blocks in use add up to it. *)
Record heap_ok h F A : Prop := mkheap_ok {
  ho_brk : start <= brk h <= 2 ^ 31;
  ho_ring : ring_ok h F \/ freep h = 0 /\ F = [] /\ A = ∅;
  ho_live : forall a s, A !! a = Some s -> start <= a /\ 1 <= s /\ a + 8 * s <= brk h /\ load_word (hmem h) (a + 4) = s;
  ho_apart : forall a s b t, A !! a = Some s -> A !! b = Some t -> a <> b -> apart (a, s) (b, t);
  ho_free : forall a s x, A !! a = Some s -> x ∈ F -> apart (a, s) x;
  ho_units : 8 * (units F + live_units A) = brk h - start }.

(** The blocks in use keep their bytes. *)
Definition kept h h' A : Prop := forall a s c, A !! a = Some s -> a <= c < a + 8 * s -> hmem h' c = hmem h c.

Lemma kept_out h F A a s c : heap_ok h F A -> A !! a = Some s -> a <= c < a + 8 * s ->
  c < brk h /\ ~ (base <= c < base + 8) /\ forall x, x ∈ F -> ~ (x.1 <= c < ends x).
Proof.
  intros H Ha Hc. destruct (ho_live _ _ _ H a s Ha) as (? & ? & ? & _). split; [lia|]. split; [lia|]. intros x Hx.
  pose proof (ho_free _ _ _ H a s x Ha Hx) as Hap. unfold apart, ends in *. cbn in Hap. lia.
Qed.

Lemma kept_size h h' A a s : kept h h' A -> A !! a = Some s -> 0 <= a -> 1 <= s -> a + 8 <= 2 ^ 32 -> load_word (hmem h') (a + 4) = load_word (hmem h) (a + 4).
Proof. intros HK Ha H0 Hs H1. apply load_word_same; [lia..|]. unfold in_word. intros c Hc. eapply HK; [exact Ha|lia]. Qed.

Lemma free_heap h F A a s : heap_ok h F A -> A !! a = Some s ->
  exists h' F', free (a + 8) h = Ok tt h' /\ heap_ok h' F' (delete a A) /\ brk h' = brk h /\ kept h h' (delete a A).
Proof.
  intros H Ha. destruct (ho_live _ _ _ H a s Ha) as (A1 & A2 & A3 & A4). destruct (ho_ring _ _ _ H) as [HR|(_ & _ & ->)]; [|done].
  destruct (free_joins h F a s HR A1 A2 A3 A4) as (h' & F' & E & [J1 J2 J3 J4 J5 J6 J7]); [intros x Hx; by apply (ho_free _ _ _ H)|].
  exists h', F'. split; [done|]. assert (HK : kept h h' (delete a A)).
  { intros b t c Hb Hc. apply lookup_delete_Some in Hb as [Hab Hb]. destruct (kept_out h F A b t c H Hb Hc) as (_ & K2 & K3). apply J7; [done|].
    intros x [->|Hx]%elem_of_cons; [|by apply K3]. pose proof (ho_apart _ _ _ H a s b t Ha Hb Hab) as Hap. unfold apart, ends in *. cbn in *. lia. }
  pose proof (ho_brk _ _ _ H). split; [|done]. split; [lia|by left| | | |].
  - intros b t Hb. pose proof Hb as [Hab Hb']%lookup_delete_Some. destruct (ho_live _ _ _ H b t Hb') as (B1 & B2 & B3 & B4). rewrite J2.
    rewrite (kept_size h h' (delete a A) b t) by (done || lia). done.
  - intros b t c u [? Hb]%lookup_delete_Some [? Hc]%lookup_delete_Some. by apply (ho_apart _ _ _ H).
  - intros b t x [Hab Hb]%lookup_delete_Some Hx. destruct (ho_live _ _ _ H b t Hb) as (B1 & B2 & B3 & B4).
    apply (J4 (b, t)); [done..| | |done]; [by apply (ho_apart _ _ _ H); auto|]. intros y Hy. by apply (ho_free _ _ _ H).
  - rewrite J2, J3. rewrite <- (ho_units _ _ _ H), (live_units_delete A a s Ha). lia.
Qed.

Lemma taken_heap h F n a h' F' A : heap_ok h F A -> 1 <= n -> taken h F n a h' F' ->
  A !! a = None /\ heap_ok h' F' (<[a := n]> A) /\ kept h h' A.
Proof.
  intros H Hn [T1 T2 T3 T4 (x & Tx & T5 & T6) T7 T8 T9]. pose proof (ho_brk _ _ _ H) as Hb.
  assert (HR : ring_ok h F) by (destruct (ho_ring _ _ _ H) as [HR|(_ & -> & _)]; [done|by apply not_elem_of_nil in Tx]).
  destruct (spaced_in _ _ _ _ (ro_spaced _ _ HR) Tx) as (X1 & X2 & X3).
  assert (Hnew : forall b t, A !! b = Some t -> apart (b, t) (a, n)).
  { intros b t Hbt. pose proof (ho_free _ _ _ H b t x Hbt Tx) as Hap. unfold apart, ends in *. cbn in *. lia. }
  assert (Hno : A !! a = None).
  { destruct (A !! a) as [s|] eqn:Ea; [|done]. destruct (ho_live _ _ _ H a s Ea) as (_ & ? & _). specialize (Hnew a s Ea). unfold apart, ends in Hnew. cbn in Hnew. lia. }
  assert (HK : kept h h' A) by (intros b t c Hbt Hc; destruct (kept_out h F A b t c H Hbt Hc) as (_ & K2 & K3); by apply T9).
  split; [done|]. split; [|done]. split; [lia|by left| | | |].
  - intros b t [[<- <-]|[Hab Hbt]]%lookup_insert_Some; [split; [lia|]; split; [done|]; split; [lia|done]|]. destruct (ho_live _ _ _ H b t Hbt) as (B1 & B2 & B3 & B4).
    rewrite T2, (kept_size h h' A b t) by (done || lia). done.
  - intros b t c u Hbt Hcu Hbc. apply lookup_insert_Some in Hbt as [[<- <-]|[Hab Hbt]], Hcu as [[<- <-]|[Hac Hcu]]; [done| | |by apply (ho_apart _ _ _ H)].
    + specialize (Hnew c u Hcu). unfold apart in *. tauto.
    + by apply Hnew.
  - intros b t y [[<- <-]|[Hab Hbt]]%lookup_insert_Some Hy; [by apply T7|]. apply (T8 (b, t)); [|done]. intros z Hz. by apply (ho_free _ _ _ H).
  - rewrite T2, live_units_insert by done. rewrite <- (ho_units _ _ _ H). lia.
Qed.

Lemma grown_heap h F nu h' F' A : heap_ok h F A -> 0 <= nu -> grown h F nu h' F' -> heap_ok h' F' A /\ kept h h' A.
Proof.
  intros H Hnu [G1 G2 G3 G4 G5 G6 G7]. assert (HK : kept h h' A) by (intros b t c Hbt Hc; destruct (kept_out h F A b t c H Hbt Hc) as (K1 & K2 & K3); by apply G7).
  pose proof (ho_brk _ _ _ H) as Hb. pose proof (ro_brk _ _ G1) as Hb'.
  split; [|done]. split; [done|by left| |apply (ho_apart _ _ _ H)| |].
  - intros b t Hbt. destruct (ho_live _ _ _ H b t Hbt) as (B1 & B2 & B3 & B4). rewrite (kept_size h h' A b t) by (done || lia). split; [done|]. split; [done|]. split; [lia|done].
  - intros b t x Hbt Hx. destruct (ho_live _ _ _ H b t Hbt) as (B1 & B2 & B3 & B4). apply (G4 (b, t)); [done|done|done| |done]. intros y Hy. by apply (ho_free _ _ _ H).
  - rewrite G2, G3. pose proof (ho_units _ _ _ H). lia.
Qed.

Lemma nunits_ok nbytes : 0 <= nbytes <= 2 ^ 31 - 16 -> let n := nunits_of nbytes in 1 <= n /\ 8 * n < 2 ^ 31 /\ nbytes <= 8 * (n - 1) < nbytes + 8.
Proof.
  intros H. unfold nunits_of, header_size. rewrite (u32_small (nbytes + 8 - 1)) by (unfold is_u32; lia).
  assert (0 <= (nbytes + 8 - 1) / 8 <= 2 ^ 31) by (Z.div_mod_to_equations; lia). rewrite u32_small by (unfold is_u32; lia). cbn zeta. Z.div_mod_to_equations. lia.
Qed.

(** malloc with the ring in place. *)
Lemma malloc_heap {B : Sbrk} {L : SbrkLaws B} h F A nbytes : heap_ok h F A -> ring_ok h F -> 0 <= nbytes <= 2 ^ 31 - 16 -> let n := nunits_of nbytes in
  exists r h' F', malloc base nbytes h = Ok r h' /\ kept h h' A /\
    ((r = 0 /\ h' = h /\ F' = F /\ forall y, y ∈ F -> y.2 < n) \/
     exists a, r = a + 8 /\ A !! a = None /\ heap_ok h' F' (<[a := n]> A) /\
       (brk h' = brk h \/ brk h' = brk h + 8 * Z.max n 4096 /\ forall y, y ∈ F -> y.2 < n)).
Proof.
  intros H HR Hnb n. destruct (nunits_ok nbytes Hnb) as (N1 & N2 & _). fold n in N1, N2. pose proof (ro_spaced _ _ HR) as HS.
  unfold malloc. fold n. erewrite bind_run by reflexivity. assert (Hpos : 0 < freep h).
  { eapply at_ring_pos; [|apply (ro_freep _ _ HR)]. eapply spaced_mono; [reflexivity| |exact HS]. apply (ro_brk _ _ HR). }
  destruct (Z.eqb_spec (freep h) 0); [lia|]. erewrite bind_run by reflexivity. erewrite bind_run by reflexivity. unfold s_ptr. erewrite bind_run by reflexivity.
  destruct (malloc_search h F n (ring_fuel (brk h) + ring_fuel (brk h) + 1) HR N1 N2) as (r & h' & E & Hor); [pose proof (ring_fuel_ok F (brk h) HS); lia|].
  destruct Hor as [(a & F' & -> & T)|(Hall & [[-> ->]|(a & h1 & F1 & F' & -> & G & T)])].
  - destruct (taken_heap h F n a h' F' A H N1 T) as (Hno & H' & HK). exists (a + 8), h', F'. split; [done|]. split; [done|]. right. exists a.
    split; [done|]. split; [done|]. split; [done|]. left. apply T.
  - exists 0, h, F. split; [done|]. split; [by intros ??|]. by left.
  - destruct (grown_heap h F (Z.max n 4096) h1 F1 A H ltac:(lia) G) as [H1 HK1]. destruct (taken_heap h1 F1 n a h' F' A H1 N1 T) as (Hno & H' & HK).
    exists (a + 8), h', F'. split; [done|]. split; [intros b t c Hb Hc; rewrite (HK b t c), (HK1 b t c) by done; done|]. right. exists a.
    split; [done|]. split; [done|]. split; [done|]. right. split; [|done]. by rewrite (ta_brk _ _ _ _ _ _ T), (gr_brk _ _ _ _ _ G).
Qed.

(** The first call makes the ring. *)
Lemma malloc_first {B : Sbrk} h nbytes : heap_ok h [] ∅ -> freep h = 0 ->
  exists h0, malloc base nbytes h = malloc base nbytes h0 /\ heap_ok h0 [] ∅ /\ ring_ok h0 [] /\ brk h0 = brk h.
Proof.
  intros H Hf. pose proof (ho_brk _ _ _ H) as Hb. exists (mkheap (store_word (store_word (hmem h) base base) (base + 4) 0) base (brk h)).
  assert (HR : ring_ok (mkheap (store_word (store_word (hmem h) base base) (base + 4) 0) base (brk h)) []).
  { split; [done|cbn; lia| |exists (base, 0); split; [left|done]]. cbn. split; [rewrite load_store_ne by lia|split; [|done]]; apply load_store_eq; unfold is_u32; lia. }
  split; [|split; [|done]].
  - unfold malloc. erewrite bind_run by reflexivity. rewrite Hf. change (0 =? 0) with true. cbv iota.
    erewrite bind_run.
    2: { unfold set_ptr, set_freep, set_size. erewrite !bind_run by reflexivity. rewrite u32_small by (unfold is_u32; lia). reflexivity. }
    symmetry. erewrite bind_run by reflexivity. cbn [freep]. destruct (Z.eqb_spec base 0); [lia|]. by erewrite bind_run by reflexivity.
  - pose proof (ho_units _ _ _ H) as HU. split; [done|by left|intros a s Ha; done|intros a s b t Ha; done|intros a s x Ha; done|done].
Qed.
End ring.

(** ** Properties *)

(** C20: malloc, for every heap and request below 2 GB.  It ends.  A result other than 0 is a
    block with room for the bytes asked for that overlaps no other block, and all blocks in use
    keep their bytes.  The heap grows only if no free block is large enough, and 0 is returned
    only if then sbrk fails, with nothing changed but the first making of the list.  Free
    blocks and blocks in use always make up the whole heap. *)
Theorem malloc_spec {B : Sbrk} {L : SbrkLaws B} (base start : Z) (h : heap) (F : list (Z * Z)) (A : gmap Z Z) (nbytes : Z)
    (Hbase : 0 < base) (Hstart : base + 8 <= start) (H : heap_ok base start h F A) (Hn : 0 <= nbytes <= 2 ^ 31 - 16) :
  let n := nunits_of nbytes in
  exists r h' F', malloc base nbytes h = Ok r h' /\ kept h h' A /\ nbytes <= 8 * (n - 1) < nbytes + 8 /\
    ((r = 0 /\ heap_ok base start h' F A /\ brk h' = brk h /\ forall y, y ∈ F -> y.2 < n) \/
     exists a, r = a + 8 /\ A !! a = None /\ heap_ok base start h' F' (<[a := n]> A) /\
       (brk h' = brk h \/ brk h' = brk h + 8 * Z.max n 4096 /\ forall y, y ∈ F -> y.2 < n)).
Proof.
  intros n. assert (Hmain : forall h0, heap_ok base start h0 F A -> ring_ok base start h0 F -> brk h0 = brk h -> malloc base nbytes h = malloc base nbytes h0 -> kept h h0 A ->
    exists r h' F', malloc base nbytes h = Ok r h' /\ kept h h' A /\ nbytes <= 8 * (n - 1) < nbytes + 8 /\
    ((r = 0 /\ heap_ok base start h' F A /\ brk h' = brk h /\ forall y, y ∈ F -> y.2 < n) \/
     exists a, r = a + 8 /\ A !! a = None /\ heap_ok base start h' F' (<[a := n]> A) /\ (brk h' = brk h \/ brk h' = brk h + 8 * Z.max n 4096 /\ forall y, y ∈ F -> y.2 < n))).
  { intros h0 H0 HR Hb -> HK. destruct (malloc_heap base start Hbase Hstart h0 F A nbytes H0 HR Hn) as (r & h' & F' & E & HK' & Hor). exists r, h', F'.
    split; [done|]. split; [intros a s c Ha Hc; by rewrite (HK' a s c), (HK a s c)|]. split; [by apply nunits_ok|]. rewrite <- Hb.
    destruct Hor as [(-> & -> & -> & Hall)|Ha]; [by left|by right]. }
  destruct (ho_ring _ _ _ _ _ H) as [HR|(Hf & -> & ->)]; [by apply (Hmain h)|].
  destruct (malloc_first base start Hbase Hstart h nbytes H Hf) as (h0 & E & H0 & HR & Hb). by apply (Hmain h0).
Qed.

(** C33: free of a block in use ends, takes exactly that block out of use, joins it with the free
    blocks next to it, so that no two free blocks touch, and keeps the bytes of all other
    blocks. *)
Theorem free_spec (base start : Z) (h : heap) (F : list (Z * Z)) (A : gmap Z Z) (a s : Z)
    (Hbase : 0 < base) (Hstart : base + 8 <= start) (H : heap_ok base start h F A) (Ha : A !! a = Some s) :
  exists h' F', free (a + 8) h = Ok tt h' /\ heap_ok base start h' F' (delete a A) /\ brk h' = brk h /\ kept h h' (delete a A) /\
    spaced (start - 1) F' (brk h').
Proof.
  destruct (free_heap base start Hbase Hstart h F A a s H Ha) as (h' & F' & E & H' & Hb & HK). exists h', F'. split; [done|]. split; [done|]. split; [done|]. split; [done|].
  destruct (ho_ring _ _ _ _ _ H') as [HR|(_ & -> & _)]; [apply HR|]. pose proof (ho_brk _ _ _ _ _ H'). cbn. lia.
Qed.

(** A process whose memory can grow up to the kernel's. *)
#[local] Instance bump : Sbrk := {| sbrk n h := if brk h + n <=? KERNBASE then Ok (brk h) (mkheap (hmem h) (freep h) (brk h + n)) else Ok (2 ^ 32 - 1) h |}.

Lemma bump_laws : SbrkLaws bump.
Proof.
  intros h n Hn. cbn. destruct (Z.leb_spec (brk h + n) KERNBASE); [right|by left]. by exists (hmem h).
Qed.

Definition demo_heap : heap := mkheap (fun _ => 0) 0 8192.

Lemma demo_heap_ok : heap_ok 4096 8192 demo_heap [] ∅.
Proof. split; try done. by right. Qed.

Lemma malloc_spec_witness : exists a h' F', malloc 4096 10 demo_heap = Ok (a + 8) h' /\ heap_ok 4096 8192 h' F' {[a := 3]}.
Proof.
  destruct (@malloc_spec bump bump_laws 4096 8192 demo_heap [] ∅ 10 ltac:(lia) ltac:(lia) demo_heap_ok ltac:(lia)) as (r & h' & F' & E & _ & _ & Hor).
  assert (Er : match malloc 4096 10 demo_heap with Ok r _ => r | Panic _ => 0 end = 40944) by (vm_compute; reflexivity).
  rewrite E in Er. destruct Hor as [(-> & _)|(a & -> & _ & H' & _)]; [discriminate|]. exists a, h', F'. split; [exact E|exact H'].
Defined.

Lemma demo_malloc : exists a h' F', malloc 4096 10 demo_heap = Ok (a + 8) h' /\ heap_ok 4096 8192 h' F' {[a := 3]}.
Proof.
  destruct (malloc_first 4096 8192 ltac:(lia) ltac:(lia) demo_heap 10 demo_heap_ok eq_refl) as (h0 & E0 & H0 & HR & _).
  destruct (@malloc_heap 4096 8192 ltac:(lia) ltac:(lia) bump bump_laws h0 [] ∅ 10 H0 HR ltac:(lia)) as (r & h' & F' & E & _ & Hor). rewrite <- E0 in E.
  assert (Er : match malloc 4096 10 demo_heap with Ok r _ => r | Panic _ => 0 end = 40944) by (vm_compute; reflexivity).
  rewrite E in Er. destruct Hor as [(-> & _)|(a & -> & _ & H' & _)]; [discriminate|]. exists a, h', F'. split; [exact E|exact H'].
Qed.

Lemma free_spec_witness : exists a h1 h2 F, malloc 4096 10 demo_heap = Ok (a + 8) h1 /\ free (a + 8) h1 = Ok tt h2 /\ heap_ok 4096 8192 h2 F ∅.
Proof.
  destruct demo_malloc as (a & h1 & F1 & E & H1). exists a, h1.
  destruct (free_spec 4096 8192 h1 F1 {[a := 3]} a 3 ltac:(lia) ltac:(lia) H1 ltac:(apply lookup_singleton_eq)) as (h2 & F2 & E2 & H2 & _).
  exists h2, F2. split; [exact E|]. split; [exact E2|]. by rewrite delete_singleton_eq in H2.
Defined.

(** The rounding in malloc wraps around: a request for 4 GB less one byte is answered with a
    block of one unit, the header alone, without any room. *)
Theorem malloc_rounding_wraps : exists a h', malloc 4096 (2 ^ 32 - 1) demo_heap = Ok (a + 8) h' /\ load_word (hmem h') (a + 4) = 1.
Proof.
  exists 40952. eexists. split; [vm_compute; reflexivity|vm_compute; reflexivity].
Qed.
