(* ===== verification/Console.v ===== *)
(** * The console

    console.c: the screen and the line discipline of the keyboard.  Input is kept in a ring of
    128 bytes with three counters that wrap around: what is before [w] can be read, what is
    between [w] and [e] can still be edited.  The serial line is the list of the bytes sent to
    it; the cursor and the memory of the screen are part of the state.  A read takes the list
    of what is typed, and whether the process is killed, during each of its waits.  The inode
    lock that the device calls give up and take again is not part of this state. *)

From S2P Require Import Prelude.
#[local] Open Scope Z_scope.

Record console := mkconsole { c_buf : list Z; c_r : Z; c_w : Z; c_e : Z; c_pos : Z; c_crt : list Z; c_serial : list Z }.
#[export] Instance console_eta : Eta console := fun s =>
  mkconsole (c_buf s) (c_r s) (c_w s) (c_e s) (c_pos s) (c_crt s) (c_serial s).

(** ** Output *)

Definition BACKSPACE : Z := 256.
Definition NL : Z := 10.

Definition uartputc (c : Z) : M console unit := modify (fun s => s <| c_serial := c_serial s ++ [u8 c] |>).

Definition set_crt (i c : Z) : M console unit := modify (fun s => s <| c_crt := zupd (c_crt s) i c |>).

(** memmove(crt, crt+80, ...) and memset of the last line. *)
Definition scroll (crt : list Z) : list Z :=
  (fun i => if i <? 23 * 80 then zget crt (i + 80) else zget crt i) <$> zrange 0 (zlen crt - 1).
Definition blank (crt : list Z) (pos n : Z) : list Z :=
  (fun i => if (pos <=? i) && (i <? pos + n) then 0 else zget crt i) <$> zrange 0 (zlen crt - 1).

Definition cgaputc (c : Z) : M console unit :=
  pos ← gets c_pos;
  pos ← (if c =? NL then mret (pos + (80 - pos `rem` 80))
         else if c =? BACKSPACE then mret (if 0 <? pos then pos - 1 else pos)
         else set_crt pos (Z.lor (Z.land c 255) 1792);; mret (pos + 1));
  if (pos <? 0) || (25 * 80 <? pos) then panic "pos under/overflow" else
  pos ← (if 24 <=? pos / 80 then
           modify (fun s => s <| c_crt := scroll (c_crt s) |>);;
           let pos := pos - 80 in
           modify (fun s => s <| c_crt := blank (c_crt s) pos (24 * 80 - pos) |>);;
           mret pos
         else mret pos);
  modify (fun s => s <| c_pos := pos |>);;
  set_crt pos (Z.lor 32 1792).

Definition consputc (c : Z) : M console unit :=
  (if c =? BACKSPACE then uartputc 8;; uartputc 32;; uartputc 8 else uartputc c);;
  cgaputc c.

Definition consolewrite (buf : list Z) : M console Z :=
  forM buf (fun b => consputc (Z.land b 255));; mret (zlen buf).

(** ** Input *)

Definition INPUT_BUF : Z := 128.
(** The control keys: the letter's code less that of @. *)
Definition ctrl (letter : Z) : Z := letter - 64.
Definition CTRL_D : Z := ctrl 68.
Definition CTRL_H : Z := ctrl 72.
Definition CTRL_P : Z := ctrl 80.
Definition CTRL_U : Z := ctrl 85.

Fixpoint kill_line (fuel : nat) : M console unit :=
  match fuel with
  | O => mret tt
  | S fuel =>
      s ← gets (fun s => s);
      if negb (c_e s =? c_w s) && negb (zget (c_buf s) (u32 (c_e s - 1) mod INPUT_BUF) =? NL) then
        modify (fun s => s <| c_e := u32 (c_e s - 1) |>);;
        consputc BACKSPACE;;
        kill_line fuel
      else mret tt
  end.

(** One key; whether a reader is woken up. *)
Definition put_key (c : Z) : M console bool :=
  s ← gets (fun s => s);
  if negb (c =? 0) && (u32 (c_e s - c_r s) <? INPUT_BUF) then
    let c := if c =? 13 then NL else c in
    modify (fun s => s <| c_buf := zupd (c_buf s) (c_e s mod INPUT_BUF) (u8 c) |> <| c_e := u32 (c_e s + 1) |>);;
    consputc c;;
    s ← gets (fun s => s);
    if (c =? NL) || (c =? CTRL_D) || (c_e s =? u32 (c_r s + INPUT_BUF)) then
      modify (fun s => s <| c_w := c_e s |>);; mret true
    else mret false
  else mret false.

(** The keys [getc] delivers; whether the processes are to be listed, and whether readers are
    woken up. *)
Fixpoint consoleintr (keys : list Z) : M console (bool * bool) :=
  match keys with
  | [] => mret (false, false)
  | c :: keys =>
      if c =? CTRL_P then
        r ← consoleintr keys; mret (true, snd r)
      else if c =? CTRL_U then
        s ← gets (fun s => s);
        kill_line (Z.to_nat (u32 (c_e s - c_w s)));;
        consoleintr keys
      else if (c =? CTRL_H) || (c =? 127) then
        s ← gets (fun s => s);
        (if negb (c_e s =? c_w s) then modify (fun s => s <| c_e := u32 (c_e s - 1) |>);; consputc BACKSPACE else mret tt);;
        consoleintr keys
      else
        woken ← put_key c;
        r ← consoleintr keys;
        mret (fst r, woken || snd r)
  end.

(** A read that still waits, one that ends because the process is killed (-1), or the bytes
    read, whose number is the return value. *)
Inductive reply := Waiting | Killed | Got (bytes : list Z).

(** What happens during a wait: the keys typed, and whether the process is killed then. *)
Definition event : Type := list Z * bool.

(** The loop while there is no input; [None] if it is still waiting, and what is left of the
    waits, or that the process is killed. *)
Fixpoint wait_input (killed : bool) (waits : list event) : M console (option (option (bool * list event))) :=
  s ← gets (fun s => s);
  if c_r s =? c_w s then
    if killed then mret (Some None) else
    match waits with
    | [] => mret None
    | (keys, k) :: waits => consoleintr keys;; wait_input k waits
    end
  else mret (Some (Some (killed, waits))).

Fixpoint consoleread_loop (n : nat) (killed : bool) (waits : list event) (dst : list Z) : M console reply :=
  match n with
  | O => mret (Got dst)
  | S n =>
      o ← wait_input killed waits;
      match o with
      | None => mret Waiting
      | Some None => mret Killed
      | Some (Some (killed, waits)) =>
          s ← gets (fun s => s);
          let c := zget (c_buf s) (c_r s mod INPUT_BUF) in
          modify (fun s => s <| c_r := u32 (c_r s + 1) |>);;
          if c =? CTRL_D then
            (if 0 <? zlen dst then modify (fun s => s <| c_r := u32 (c_r s - 1) |>) else mret tt);;
            mret (Got dst)
          else if c =? NL then mret (Got (dst ++ [c]))
          else consoleread_loop n killed waits (dst ++ [c])
      end
  end.

Definition consoleread (killed : bool) (waits : list event) (n : Z) : M console reply :=
  consoleread_loop (Z.to_nat n) killed waits [].

(** ** The line discipline *)

(** What can be read, and what is being typed. *)
Definition lines : Type := list Z * list Z.

Definition type_key (c : Z) (l : lines) : lines :=
  let '(ready, typed) := l in
  if c =? CTRL_P then l
  else if c =? CTRL_U then (ready, [])
  else if (c =? CTRL_H) || (c =? 127) then (ready, removelast typed)
  else if negb (c =? 0) && (zlen ready + zlen typed <? INPUT_BUF) then
    let c := if c =? 13 then NL else c in
    let typed := typed ++ [u8 c] in
    if (c =? NL) || (c =? CTRL_D) || (zlen ready + zlen typed =? INPUT_BUF) then (ready ++ typed, []) else (ready, typed)
  else l.

Definition type_keys (keys : list Z) (l : lines) : lines := fold_left (fun l c => type_key c l) keys l.

(** Waiting for input, and reading. *)
Fixpoint await (killed : bool) (waits : list event) (l : lines) : option (option (bool * list event)) * lines :=
  match fst l with
  | _ :: _ => (Some (Some (killed, waits)), l)
  | [] =>
      if killed then (Some None, l) else
      match waits with
      | [] => (None, l)
      | (keys, k) :: waits => await k waits (type_keys keys l)
      end
  end.

Fixpoint read_line (n : nat) (killed : bool) (waits : list event) (dst : list Z) (l : lines) : reply * lines :=
  match n with
  | O => (Got dst, l)
  | S n =>
      match await killed waits l with
      | (None, l) => (Waiting, l)
      | (Some None, l) => (Killed, l)
      | (Some (Some (killed, waits)), (ready, typed)) =>
          match ready with
          | [] => (Waiting, l)
          | c :: ready =>
              if c =? CTRL_D then (Got dst, (if 0 <? zlen dst then c :: ready else ready, typed))
              else if c =? NL then (Got (dst ++ [c]), (ready, typed))
              else read_line n killed waits (dst ++ [c]) (ready, typed)
          end
      end
  end.

(** The ring holds what is ready and what is typed, in order; the cursor is on the screen. *)
Record ring_holds (s : console) (l : lines) : Prop := mkring_holds {
  co_size : zlen (c_buf s) = INPUT_BUF;
  co_r : is_u32 (c_r s);
  co_w : c_w s = u32 (c_r s + zlen (fst l));
  co_e : c_e s = u32 (c_r s + zlen (fst l) + zlen (snd l));
  co_fits : zlen (fst l) + zlen (snd l) <= INPUT_BUF;
  co_cells : forall j, 0 <= j < zlen (fst l) + zlen (snd l) -> zget (c_buf s) ((c_r s + j) mod INPUT_BUF) = zget (fst l ++ snd l) j;
  co_crt : zlen (c_crt s) = 16384;
  co_pos : 0 <= c_pos s < 24 * 80 }.

(** A line ends where it can be read, so nothing that is typed has an end of line. *)
Record console_ok (s : console) (l : lines) : Prop := mkconsole_ok {
  co_ring :> ring_holds s l;
  co_typed : NL ∉ snd l }.

(** *** Output *)

Definition same_input (s s' : console) : Prop := c_buf s' = c_buf s /\ c_r s' = c_r s /\ c_w s' = c_w s /\ c_e s' = c_e s.

Lemma zlen_scroll crt : zlen (scroll crt) = zlen crt.
Proof. unfold scroll, zlen. unfold zrange. rewrite length_fmap, length_seqZ. lia. Qed.

Lemma zlen_blank crt pos n : zlen (blank crt pos n) = zlen crt.
Proof. unfold blank, zlen. unfold zrange. rewrite length_fmap, length_seqZ. lia. Qed.

Lemma cgaputc_wp c s : 0 <= c_pos s < 24 * 80 -> zlen (c_crt s) = 16384 ->
  wp (cgaputc c) (fun _ s' => same_input s s' /\ zlen (c_crt s') = 16384 /\ 0 <= c_pos s' < 24 * 80) (fun _ => False) s.
Proof.
  intros Hp Hc. unfold cgaputc. eapply wp_step_run; [reflexivity|]. set (pos := c_pos s) in *.
  eapply (wp_step _ _ (fun p s' => same_input s s' /\ zlen (c_crt s') = 16384 /\ 0 <= p <= 24 * 80) (fun _ => False)); [| |done].
  - destruct (c =? NL); [apply wp_ret; split; [by repeat split|]; split; [done|]; rewrite Z.rem_mod_nonneg by lia; pose proof (Z.mod_pos_bound pos 80); Z.div_mod_to_equations; lia|].
    destruct (c =? BACKSPACE); [apply wp_ret; split; [by repeat split|]; split; [done|]; destruct (Z.ltb_spec 0 pos); lia|].
    eapply wp_step_run; [reflexivity|]. apply wp_ret. split; [by repeat split|]. split; [cbn; by rewrite zlen_zupd|lia].
  - intros p s1 (S1 & C1 & P1). destruct (Z.ltb_spec p 0), (Z.ltb_spec (25 * 80) p); try lia. cbn [orb].
    eapply (wp_step _ _ (fun p s' => same_input s s' /\ zlen (c_crt s') = 16384 /\ 0 <= p < 24 * 80) (fun _ => False)); [| |done].
    + destruct (Z.leb_spec 24 (p / 80)).
      * eapply wp_step_run; [reflexivity|]. eapply wp_step_run; [reflexivity|]. apply wp_ret. split; [exact S1|]. split; [cbn; by rewrite zlen_blank, zlen_scroll|Z.div_mod_to_equations; lia].
      * apply wp_ret. split; [done|]. split; [done|]. Z.div_mod_to_equations. lia.
    + intros p' s2 (S2 & C2 & P2). eapply wp_step_run; [reflexivity|]. eapply wp_run; [reflexivity|]. split; [exact S2|]. split; [cbn; by rewrite zlen_zupd|done].
Qed.

Lemma consputc_wp c s : 0 <= c_pos s < 24 * 80 -> zlen (c_crt s) = 16384 ->
  wp (consputc c) (fun _ s' => same_input s s' /\ zlen (c_crt s') = 16384 /\ 0 <= c_pos s' < 24 * 80) (fun _ => False) s.
Proof.
  intros Hp Hc. unfold consputc. destruct (c =? BACKSPACE); (eapply wp_step_run; [reflexivity|]);
  match goal with |- wp _ _ _ ?t => exact (cgaputc_wp c t Hp Hc) end.
Qed.

(** *** The ring *)

Lemma ring_index r j : 0 <= r -> 0 <= j -> u32 (r + j) mod INPUT_BUF = (r + j) mod INPUT_BUF.
Proof.
  intros Hr Hj. unfold u32, INPUT_BUF. change (2 ^ 32) with (128 * 33554432). rewrite Z.rem_mul_r by lia.
  rewrite Z.add_mod by lia. rewrite (Z.mul_comm 128), Z.mod_mul, Z.add_0_r, !Z.mod_mod by lia. done.
Qed.

Lemma ring_index_ne r i j : 0 <= i < INPUT_BUF -> 0 <= j < INPUT_BUF -> i <> j -> (r + i) mod INPUT_BUF <> (r + j) mod INPUT_BUF.
Proof. unfold INPUT_BUF. intros Hi Hj Hn E. Z.div_mod_to_equations. lia. Qed.

Lemma counter_eq r i j : 0 <= i <= INPUT_BUF -> 0 <= j <= INPUT_BUF -> (u32 (r + i) =? u32 (r + j)) = (i =? j).
Proof.
  unfold INPUT_BUF, u32. intros Hi Hj. destruct (Z.eqb_spec i j) as [->|Hn]; [apply Z.eqb_refl|]. apply Z.eqb_neq. intros E.
  change (2 ^ 32) with 4294967296 in E. Z.div_mod_to_equations. lia.
Qed.

Lemma counter_sub r i j : 0 <= j <= i -> i <= INPUT_BUF -> u32 (u32 (r + i) - u32 (r + j)) = i - j.
Proof. unfold u32, INPUT_BUF. intros Hj Hi. rewrite <- Zminus_mod. replace (r + i - (r + j)) with (i - j) by lia. apply Z.mod_small. lia. Qed.

Lemma counter_step r i k : u32 (u32 (r + i) + k) = u32 (r + (i + k)).
Proof. unfold u32. rewrite Zplus_mod_idemp_l. f_equal. lia. Qed.

Lemma ok_output s s' l : ring_holds s l -> same_input s s' -> zlen (c_crt s') = 16384 -> 0 <= c_pos s' < 24 * 80 -> ring_holds s' l.
Proof. intros [H1 H2 H3 H4 H5 H6 H7 H8] (E1 & E2 & E3 & E4) Hc Hp. split; rewrite ?E1, ?E2, ?E3, ?E4; done. Qed.

(** A character on the screen, with the rest of the code to follow. *)
Lemma consputc_ok {A} c s l (k : M console A) Q : ring_holds s l -> (forall s', ring_holds s' l -> wp k Q (fun _ => False) s') -> wp (consputc c;; k) Q (fun _ => False) s.
Proof.
  intros H HK. eapply wp_step; [apply consputc_wp; apply H| |done]. intros [] s' (S1 & C1 & P1). apply HK. by eapply ok_output.
Qed.

Lemma ok_sizes s l : ring_holds s l -> 0 <= zlen (fst l) /\ 0 <= zlen (snd l) /\ zlen (fst l) + zlen (snd l) <= 128 /\ 0 <= c_r s < 2 ^ 32.
Proof. intros H. pose proof (co_fits _ _ H). pose proof (co_r _ _ H). unfold zlen, INPUT_BUF, is_u32 in *. lia. Qed.

Lemma ok_r s l : ring_holds s l -> c_r s = u32 (c_r s + 0).
Proof. intros H. rewrite Z.add_0_r. symmetry. apply u32_small, H. Qed.

Lemma ok_pending s l : ring_holds s l -> (c_e s =? c_w s) = (zlen (snd l) =? 0).
Proof.
  intros H. destruct (ok_sizes s l H) as (? & ? & ? & _). rewrite (co_e _ _ H), (co_w _ _ H), <- Z.add_assoc, counter_eq by (unfold INPUT_BUF; lia).
  destruct (Z.eqb_spec (zlen (snd l)) 0); [apply Z.eqb_eq|apply Z.eqb_neq]; lia.
Qed.

(** Taking back the last character. *)
Lemma ok_unput s ready t c : console_ok s (ready, t ++ [c]) ->
  zget (c_buf s) (u32 (c_e s - 1) mod INPUT_BUF) = c /\ c <> NL /\ console_ok (s <| c_e := u32 (c_e s - 1) |>) (ready, t).
Proof.
  intros H. destruct (ok_sizes _ _ H) as (S1 & S2 & S3 & S4). cbn [fst snd] in *. rewrite zlen_app in *. change (zlen [c]) with 1 in *.
  assert (E : u32 (c_e s - 1) = u32 (c_r s + zlen ready + zlen t)).
  { rewrite (co_e _ _ H). cbn [fst snd]. rewrite zlen_app. change (zlen [c]) with 1. unfold u32. rewrite Zminus_mod_idemp_l. f_equal. lia. }
  pose proof (co_typed _ _ H) as Ht. cbn in Ht. pose proof (co_cells _ _ H) as HC. cbn [fst snd] in HC. rewrite zlen_app in HC. change (zlen [c]) with 1 in HC.
  assert (0 <= zlen t) by (unfold zlen; lia). split; [|split].
  - rewrite E, <- Z.add_assoc, ring_index, HC by (unfold INPUT_BUF in *; lia). rewrite app_assoc, <- zlen_app, zget_snoc. done.
  - intros ->. apply Ht. apply elem_of_app. right. left.
  - destruct H as [[H1 H2 H3 H4 H5 H6 H8 H9] H7]. cbn [fst snd] in *. split; [|set_solver]. split; cbn; [done|done|done|by rewrite E|unfold INPUT_BUF; lia| |done|done].
    intros j Hj. rewrite HC by lia. rewrite app_assoc. apply zget_app_l. rewrite zlen_app. lia.
Qed.

Lemma kill_line_ok fuel : forall s ready typed, console_ok s (ready, typed) -> zlen typed <= Z.of_nat fuel ->
  wp (kill_line fuel) (fun _ s' => console_ok s' (ready, [])) (fun _ => False) s.
Proof.
  induction fuel as [|fuel IH]; intros s ready typed H Hf.
  - apply wp_ret. destruct typed; [done|unfold zlen in Hf; cbn in Hf; lia].
  - cbn [kill_line]. eapply wp_step_run; [reflexivity|]. rewrite (ok_pending _ _ H). cbn [snd]. destruct typed as [|c t _] using rev_ind; [by apply wp_ret|].
    destruct (ok_unput s ready t c H) as (Ec & Hc & H'). rewrite Ec. rewrite zlen_app in Hf |- *. change (zlen [c]) with 1 in *.
    destruct (Z.eqb_spec (zlen t + 1) 0); [unfold zlen in *; lia|]. destruct (Z.eqb_spec c NL); [done|]. cbn [negb andb].
    eapply wp_step_run; [reflexivity|]. eapply consputc_ok; [exact H'|]. intros s' Hs'. apply (IH s' ready t (mkconsole_ok _ _ Hs' (co_typed _ _ H'))). lia.
Qed.

(** One more character. *)
Lemma ok_put s ready t c : ring_holds s (ready, t) -> zlen ready + zlen t < INPUT_BUF ->
  ring_holds (s <| c_buf := zupd (c_buf s) (c_e s mod INPUT_BUF) c |> <| c_e := u32 (c_e s + 1) |>) (ready, t ++ [c]).
Proof.
  intros H Hlt. destruct (ok_sizes _ _ H) as (S1 & S2 & S3 & S4). destruct H as [H1 H2 H3 H4 H5 H6 H8 H9]. cbn [fst snd] in *.
  assert (Ee : c_e s mod INPUT_BUF = (c_r s + (zlen ready + zlen t)) mod INPUT_BUF) by (rewrite H4, <- Z.add_assoc; apply ring_index; lia).
  split; cbn [c_buf c_r c_w c_e c_pos c_crt upd fst snd]; rewrite ?zlen_app; change (zlen [c]) with 1; try done.
  - by rewrite zlen_zupd.
  - rewrite H4, <- Z.add_assoc, counter_step. f_equal. lia.
  - lia.
  - intros j Hj. rewrite Ee, app_assoc. destruct (decide (j = zlen ready + zlen t)) as [->|Hn].
    + rewrite zget_zupd_eq by (rewrite H1; apply Z.mod_pos_bound; done). rewrite <- zlen_app. symmetry. apply zget_snoc.
    + rewrite zget_zupd_ne by (apply ring_index_ne; lia). rewrite H6 by lia. symmetry. apply zget_app_l. rewrite zlen_app. lia.
Qed.

(** What was typed can be read. *)
Lemma ok_commit s ready t : ring_holds s (ready, t) -> console_ok (s <| c_w := c_e s |>) (ready ++ t, []).
Proof.
  intros [H1 H2 H3 H4 H5 H6 H8 H9]. cbn [fst snd] in *. split; [|apply not_elem_of_nil].
  split; cbn [c_buf c_r c_w c_e c_pos c_crt upd fst snd]; rewrite ?zlen_app, ?app_nil_r; change (zlen (@nil Z)) with 0; try done.
  - rewrite H4. f_equal. lia.
  - rewrite H4. f_equal. lia.
  - lia.
  - intros j Hj. apply H6. lia.
Qed.

Lemma put_key_ok s l c : console_ok s l -> is_u8 c -> c <> CTRL_P -> c <> CTRL_U -> c <> CTRL_H -> c <> 127 ->
  wp (put_key c) (fun _ s' => console_ok s' (type_key c l)) (fun _ => False) s.
Proof.
  intros H Hc N1 N2 N3 N4. destruct l as [ready t]. destruct (ok_sizes _ _ H) as (S1 & S2 & S3 & S4). cbn [fst snd] in *. unfold put_key, type_key.
  rewrite (proj2 (Z.eqb_neq c CTRL_P)), (proj2 (Z.eqb_neq c CTRL_U)), (proj2 (Z.eqb_neq c CTRL_H)), (proj2 (Z.eqb_neq c 127)) by done. cbn [orb].
  eapply wp_step_run; [reflexivity|]. assert (u32 (c_e s - c_r s) = zlen ready + zlen t) as ->.
  { pose proof (counter_sub (c_r s) (zlen ready + zlen t) 0 ltac:(lia) ltac:(unfold INPUT_BUF; lia)) as Hs. rewrite <- (ok_r _ _ H) in Hs.
    rewrite (co_e _ _ H). cbn [fst snd]. rewrite <- Z.add_assoc, Hs. lia. }
  destruct (negb (c =? 0) && (zlen ready + zlen t <? INPUT_BUF)) eqn:E; [|by apply wp_ret]. apply andb_prop in E as [_ Hlt%Z.ltb_lt].
  set (c' := if c =? 13 then NL else c). assert (Hc' : is_u8 c') by (unfold c'; by destruct (c =? 13)). assert (u8 c' = c') as -> by (by apply Z.mod_small).
  eapply wp_step_run; [reflexivity|]. eapply consputc_ok; [exact (ok_put s ready t c' H Hlt)|]. intros s' H'. eapply wp_step_run; [reflexivity|].
  assert ((c_e s' =? u32 (c_r s' + INPUT_BUF)) = (zlen ready + zlen (t ++ [c']) =? INPUT_BUF)) as ->.
  { destruct (ok_sizes _ _ H') as (? & ? & ? & _). cbn [fst snd] in *. rewrite (co_e _ _ H'). cbn [fst snd]. rewrite <- Z.add_assoc. apply counter_eq; unfold INPUT_BUF; lia. }
  destruct ((c' =? NL) || (c' =? CTRL_D) || _) eqn:E.
  - eapply wp_step_run; [reflexivity|]. apply wp_ret. by apply ok_commit.
  - apply wp_ret. split; [done|]. cbn. apply orb_false_elim in E as [[E%Z.eqb_neq _]%orb_false_elim _]. pose proof (co_typed _ _ H). cbn in *. set_solver.
Qed.

Lemma consoleintr_ok keys : forall s l, console_ok s l -> Forall is_u8 keys ->
  wp (consoleintr keys) (fun _ s' => console_ok s' (type_keys keys l)) (fun _ => False) s.
Proof.
  induction keys as [|c keys IH]; intros s l H HF; [by apply wp_ret|]. apply Forall_cons in HF as [Hc HF]. cbn [consoleintr].
  unfold type_keys. cbn [fold_left]. fold (type_keys keys (type_key c l)). destruct l as [ready t].
  destruct (Z.eqb_spec c CTRL_P) as [->|N1].
  { eapply wp_step; [by apply (IH s (ready, t))| |done]. intros r s' H'. by apply wp_ret. }
  destruct (Z.eqb_spec c CTRL_U) as [->|N2].
  { eapply wp_step_run; [reflexivity|]. assert (u32 (c_e s - c_w s) = zlen t) as ->.
    { destruct (ok_sizes _ _ H) as (? & ? & ? & _). rewrite (co_e _ _ H), (co_w _ _ H). cbn [fst snd] in *. rewrite <- Z.add_assoc, counter_sub by (unfold INPUT_BUF; lia). lia. }
    eapply wp_step; [apply (kill_line_ok _ s ready t H); pose proof (zlen_pos t); lia| |done]. intros [] s' H'. by apply (IH s' (ready, [])). }
  destruct ((c =? CTRL_H) || (c =? 127)) eqn:N3.
  { eapply wp_step_run; [reflexivity|]. rewrite (ok_pending _ _ H). cbn [snd]. unfold type_key. rewrite (proj2 (Z.eqb_neq _ _) N1), (proj2 (Z.eqb_neq _ _) N2), N3.
    destruct t as [|b t _] using rev_ind; [eapply wp_step_run; [reflexivity|]; by apply (IH s (ready, []))|]. destruct (ok_unput s ready t b H) as (_ & _ & H').
    rewrite zlen_app. change (zlen [b]) with 1. destruct (Z.eqb_spec (zlen t + 1) 0); [pose proof (zlen_pos t); lia|]. cbn [negb]. rewrite removelast_last.
    eapply wp_step; [eapply wp_step_run; [reflexivity|]; apply consputc_wp; apply H'| |done]. intros [] s' (O1 & O2 & O3).
    apply (IH s' (ready, t)); [|done]. split; [exact (ok_output _ _ _ H' O1 O2 O3)|apply H']. }
  apply orb_false_elim in N3 as [N3%Z.eqb_neq N4%Z.eqb_neq]. eapply wp_step; [by apply (put_key_ok s (ready, t) c)| |done]. intros b s' H'.
  eapply wp_step; [exact (IH s' (type_key c (ready, t)) H' HF)| |done]. intros r s2 H2. by apply wp_ret.
Qed.

(** *** Reading *)

Lemma ok_empty s l : ring_holds s l -> (c_r s =? c_w s) = match fst l with [] => true | _ :: _ => false end.
Proof.
  intros H. destruct (ok_sizes _ _ H) as (? & ? & ? & _). pose proof (counter_eq (c_r s) 0 (zlen (fst l)) ltac:(unfold INPUT_BUF; lia) ltac:(unfold INPUT_BUF; lia)) as E.
  rewrite <- (ok_r _ _ H), <- (co_w _ _ H) in E. rewrite E. destruct (fst l); [done|]. rewrite zlen_cons. pose proof (zlen_pos l0). apply Z.eqb_neq. lia.
Qed.

(** Taking the first character. *)
Lemma ok_get s c ready t : console_ok s (c :: ready, t) -> zget (c_buf s) (c_r s mod INPUT_BUF) = c /\ console_ok (s <| c_r := u32 (c_r s + 1) |>) (ready, t).
Proof.
  intros [H Ht]. destruct (ok_sizes _ _ H) as (S1 & S2 & S3 & S4). cbn [fst snd] in *. rewrite zlen_cons in *. destruct H as [H1 H2 H3 H4 H5 H6 H8 H9]. cbn [fst snd] in *. rewrite zlen_cons in *.
  pose proof (zlen_pos ready). split.
  - specialize (H6 0 ltac:(lia)). by rewrite Z.add_0_r in H6.
  - split; [|done]. split; cbn [c_buf c_r c_w c_e c_pos c_crt upd fst snd]; try done.
    + apply u32_range.
    + by rewrite H3, counter_step.
    + rewrite H4, <- (Z.add_assoc (u32 _)), counter_step. f_equal. lia.
    + lia.
    + intros j Hj. rewrite <- (ring_index (u32 (c_r s + 1)) j) by (pose proof (u32_range (c_r s + 1)) as [? _]; lia). rewrite counter_step, ring_index, H6 by lia.
      replace ((c :: ready) ++ t) with ([c] ++ (ready ++ t)) by done. unfold zget. rewrite !zlookup_to_nat by lia.
      by replace (Z.to_nat (1 + j)) with (S (Z.to_nat j)) by lia.
Qed.

Definition waits_ok (waits : list event) : Prop := Forall (fun ev => Forall is_u8 (fst ev)) waits.

Lemma wait_input_ok waits : forall killed s l, console_ok s l -> waits_ok waits ->
  wp (wait_input killed waits) (fun o s' => o = fst (await killed waits l) /\ console_ok s' (snd (await killed waits l)) /\
    forall k w, o = Some (Some (k, w)) -> waits_ok w /\ fst (snd (await killed waits l)) <> []) (fun _ => False) s.
Proof.
  induction waits as [|[keys k] waits IH]; intros killed s l H HW.
  - cbn. eapply wp_step_run; [reflexivity|]. rewrite (ok_empty _ _ H). destruct (fst l) as [|c ready] eqn:El; [destruct killed; by apply wp_ret|].
    apply wp_ret. split; [done|]. split; [done|]. intros k w [= <- <-]. cbn. by rewrite El.
  - apply Forall_cons in HW as [Hk HW]. cbn [wait_input await]. eapply wp_step_run; [reflexivity|]. rewrite (ok_empty _ _ H). destruct (fst l) as [|c ready] eqn:El.
    + destruct killed; [by apply wp_ret|]. eapply wp_step; [by apply (consoleintr_ok keys s l)| |done]. intros r s' H'. by apply IH.
    + apply wp_ret. split; [done|]. split; [done|]. intros k' w [= <- <-]. cbn. rewrite El. split; [by constructor|done].
Qed.

Lemma consoleread_loop_ok n : forall killed waits dst s l, console_ok s l -> waits_ok waits ->
  wp (consoleread_loop n killed waits dst) (fun r s' => r = fst (read_line n killed waits dst l) /\ console_ok s' (snd (read_line n killed waits dst l))) (fun _ => False) s.
Proof.
  induction n as [|n IH]; intros killed waits dst s l H HW; [by apply wp_ret|]. cbn [consoleread_loop read_line].
  eapply wp_step; [by apply (wait_input_ok waits killed s l)| |done]. intros o s1 (Ho & H1 & Hw). destruct (await killed waits l) as [o' l1]. cbn [fst snd] in *. subst o'.
  destruct o as [[[k w]|]|]; [|by apply wp_ret|by apply wp_ret]. destruct (Hw k w eq_refl) as [Hw1 Hne]. destruct l1 as [[|c ready] t]; [done|].
  eapply wp_step_run; [reflexivity|]. destruct (ok_get s1 c ready t H1) as [-> H2]. eapply wp_step_run; [reflexivity|].
  destruct (c =? CTRL_D).
  - destruct (0 <? zlen dst).
    + eapply wp_step_run; [reflexivity|]. apply wp_ret. split; [done|]. cbn.
      assert (u32 (u32 (c_r s1 + 1) - 1) = c_r s1) as E; [|].
      { unfold u32. rewrite Zminus_mod_idemp_l. replace (c_r s1 + 1 - 1) with (c_r s1) by lia. apply Z.mod_small, H1. }
      destruct H1 as [[G1 G2 G3 G4 G5 G6 G8 G9] G7]. split; [|done]. split; cbn; rewrite ?E; done.
    + eapply wp_step_run; [reflexivity|]. by apply wp_ret.
  - destruct (c =? NL); [by apply wp_ret|]. by apply IH.
Qed.

Lemma consolewrite_ok buf : forall s l, console_ok s l -> wp (consolewrite buf) (fun r s' => r = zlen buf /\ console_ok s' l) (fun _ => False) s.
Proof.
  intros s l [H Ht]. unfold consolewrite. generalize (zlen buf) as n. intros n.
  revert s H. induction buf as [|b buf IH]; intros s H; [apply wp_ret; by split|]. cbn [forM]. apply wp_bind. eapply consputc_ok; [exact H|]. intros s' H'.
  specialize (IH s' H'). unfold wp, mbind, M_bind in IH |- *. by destruct (forM buf _ s').
Qed.

(** ** Properties *)

(** C34: the console implements the line discipline: with counters that wrap around, the ring
    holds what can be read and what is being typed.  consoleintr edits the typed part (erase,
    kill line), ends lines at Enter, control-D or a full buffer, and drops keys that do not
    fit; consoleread delivers at most one line, at most [n] bytes, with an end of file left
    for the next read if it comes after other bytes, and waits or gives up exactly when there
    is nothing to read; consolewrite leaves the input alone.  The cursor stays on the screen,
    so none of them panics. *)
Theorem console_refines (s : console) (l : lines) (keys : list Z) (killed : bool) (waits : list event) (n : Z) (buf : list Z)
    (H : console_ok s l) (Hk : Forall is_u8 keys) (Hw : waits_ok waits) :
  (exists r s', consoleintr keys s = Ok r s' /\ console_ok s' (type_keys keys l)) /\
  (exists s', consoleread killed waits n s = Ok (fst (read_line (Z.to_nat n) killed waits [] l)) s' /\ console_ok s' (snd (read_line (Z.to_nat n) killed waits [] l))) /\
  (exists s', consolewrite buf s = Ok (zlen buf) s' /\ console_ok s' l).
Proof.
  split; [|split].
  - by apply wp_Ok, consoleintr_ok.
  - destruct (wp_Ok _ _ _ (consoleread_loop_ok (Z.to_nat n) killed waits [] s l H Hw)) as (r & s' & E & -> & H'). by exists s'.
  - destruct (wp_Ok _ _ _ (consolewrite_ok buf s l H)) as (r & s' & E & -> & H'). by exists s'.
Qed.

Definition demo_console : console := mkconsole (replicate 128 0) 4294967294 4294967294 4294967294 0 (replicate (Z.to_nat 16384) 0) [].

Lemma demo_console_ok : console_ok demo_console ([], []).
Proof.
  split; [|apply not_elem_of_nil]. split; try done. intros j Hj. unfold zlen in Hj. cbn in Hj. lia.
Qed.

(** "ls", an x that is erased, Enter, across the end of the counters. *)
Lemma console_refines_witness : exists s1 s2 r, consoleintr [108; 115; 120; 8; 13] demo_console = Ok r s1 /\
  consoleread false [] 100 s1 = Ok (Got [108; 115; 10]) s2 /\ console_ok s2 ([], []).
Proof.
  destruct (console_refines demo_console ([], []) [108; 115; 120; 8; 13] false [] 100 [] demo_console_ok ltac:(repeat constructor; unfold is_u8; lia) ltac:(constructor))
    as ((r & s1 & E1 & H1) & _ & _).
  destruct (console_refines s1 ([108; 115; 10], []) [] false [] 100 [] H1 ltac:(constructor) ltac:(constructor)) as (_ & (s2 & E2 & H2) & _).
  exists s1, s2, r. split; [exact E1|]. split; [exact E2|exact H2].
Defined.
